(* ===== verification/_CoqProject ===== *)
-Q . S2P
Prelude.v
Format.v
FormatThm.v
Machine.v
Boot.v
Mem.v
Spinlock.v
Asm.v
Mlfq.v
ProcCore.v
Kalloc.v
MemThm.v
Vm.v
VmThm.v
UvmThm.v
CopyThm.v
SpaceThm.v
Sleeplock.v
Apic.v
Mp.v
Bootmain.v
Ide.v
Bio.v
Log.v
Inode.v
Console.v
Screen.v
Fs.v
FsThm.v
Pipe.v
File.v
Proc.v
Syscall.v
Exec.v
Sysfile.v
Trap.v
Scheduler.v
Main.v
MlfqInv.v
MlfqOps.v
MlfqBoot.v
MlfqSched.v
SchedThm.v
BioThm.v
MainThm.v
FileRep.v
LogThm.v
TxnThm.v
ReadThm.v
Reap.v
System.v
SystemInv.v
BuildThm.v
SystemStep.v
SystemThm.v
ProcThm.v
ForkThm.v
PipeThm.v
SyscallThm.v
User.v
Grep.v
Progs.v
ProgThm.v
Sh.v
ShThm.v
Umalloc.v
UmallocThm.v
Mkfs.v
MkfsThm.v
ImageThm.v
