(* ===== verification/Prelude.v ===== *)
(** * A verification of the modified xv6 (src/)

    The program is xv6 for the 32-bit x86, with the system calls [waitx], [getps] and
    [set_priority], per-process accounting, and a scheduler chosen when it is built:
    round robin (RR), first come first served (FCFS), priorities (PBS) or a multilevel
    feedback queue (MLFQ).  The library models the kernel, its boot loader, its assembly
    routines, the program that builds the disk image, and the user programs, and proves
    what they do.

    ** How the code is represented

    The globals of the kernel are the fields of one record, [kernel] of [Machine].  A C
    function is a definition of the same name in the monad [K]: it returns ([Ok]), calls
    [panic] ([Panic]), does something C leaves undefined such as following a bad pointer
    ([Undef]), or exhausts the fuel of a loop ([OutOfFuel]).  A theorem that code returns
    says [Ok], so it excludes the other three.  Integers are [Z] with the wrap-around of
    their width written out.  Memory is a map from addresses to bytes; a pointer to an
    element of a fixed table ([struct proc *], [struct buf *], ...) is the index of the
    element.  A [#define] of the source is an [Abbreviation].

    What is outside the sources is the class [Env] of [Machine]: linker symbols, what
    devices answer on ports and memory-mapped registers (a function of everything they
    were told), what other threads do while this one is switched out or spins, and the
    scheduler and disk driver of the build.  User programs run against the class [OSys] of
    [User], which answers system calls.

    ** Files and sources

    Shared: [Prelude] (this file: widths, the monad, loops, tactics, hint databases, list
    lemmas), [Machine] (the structs of the headers, the kernel record, locks and interrupt
    nesting of spinlock.c as one processor sees them), [Boot] (the globals at power-on),
    [Format] and [FormatThm] ([cprintf] and [printint] of console.c), [Mem] (string.c and
    the string instructions of x86.h) and [MemThm].

    Locks: [Spinlock] (spinlock.c, one memory access at a time on several processors),
    [Sleeplock] (sleeplock.c).

    Assembly: [Asm] (swtch.S, trapasm.S, vectors.pl on registers and memory).

    Start of the machine: [Bootmain] (bootmain.c), [Mp] (mp.c), [Apic] (lapic.c, ioapic.c,
    picirq.c, the port instructions), [Main] (main.c) and [MainThm].

    Processes: [Mlfq] (the queue arrays of proc.c and the loops on them), [ProcCore]
    ([sched], [yield], [sleep], [wakeup], [kill], [set_priority]), [Proc] ([allocproc],
    [userinit], [fork], [exit], [wait], [waitx], [getps]), [Scheduler] (the four builds of
    [scheduler]), [Trap] (trap.c and the dispatch of syscall.c), [System] (several
    processors as a transition system whose events are the critical sections of
    ptable.lock).  Theorems: [MlfqInv], [MlfqOps], [MlfqSched] and [MlfqBoot] (the queue
    invariant), [SchedThm], [Reap], [SystemInv], [SystemStep], [SystemThm], [BuildThm] (the
    critical sections in every build), [ProcThm], [ForkThm].

    Memory: [Kalloc] (kalloc.c), [Vm] (vm.c), [VmThm] (page tables as maps), [UvmThm] and
    [CopyThm] (the operations on address spaces), [SpaceThm] (what they promise).

    Files: [Ide] (ide.c, memide.c), [Bio] (bio.c), [Log] (log.c), [Inode] and [Fs] (fs.c),
    [File] (file.c), [Pipe] (pipe.c), [Console] (console.c, kbd.c), [Screen] (the display
    and uart.c).  Theorems: [BioThm] (the cache against the interface [BlockCache]),
    [LogThm] and [TxnThm] (transactions, proved against that interface), [FileRep] and
    [ReadThm] (file contents), [FsThm], [PipeThm].

    System calls: [Syscall] (syscall.c, sysproc.c), [Exec] (exec.c, [loaduvm]), [Sysfile]
    (sysfile.c), [SyscallThm].

    Outside the kernel: [User] (ulib.c, printf.c, usys.S), [Progs] and [ProgThm] (cat,
    echo, wc, grep, ls, init, kill, ln, mkdir, rm, zombie, ps, setPriority, time, stressfs,
    forktest), [Grep] (the matcher of grep.c), [Sh] and [ShThm] (sh.c), [Umalloc] and
    [UmallocThm] (umalloc.c), [Mkfs] and [MkfsThm] (mkfs.c), [ImageThm] (the kernel on the
    image of mkfs).

    ** What the theorems show

    - The running system, MLFQ build ([SystemThm]): in every configuration that any
      interleaving of scheduler passes, yields, sleeps, exits, wakeups, kills, ticks, forks
      and waits on several processors reaches, the queues hold exactly the RUNNABLE
      processes, each once; a process is RUNNING exactly on the one processor that executes
      it; and an event that is enabled returns, without a panic.  An event is enabled when
      the spin locks it takes are free.  The event in which [wait] collects a child returns
      if the child's stack and address space are pages in use; that [fork] leaves them so
      is a theorem of [ForkThm], but that no process spoils them is not part of the
      invariant.
    - Scheduling ([SchedThm]): which process each build runs; promotion by age and
      demotion in MLFQ.  The FCFS build runs the process created last.
    - Locks ([Spinlock]): mutual exclusion of the code of [acquire] and [release] under
      any interleaving of single memory accesses, and its refinement of the lock that the
      other files assume.
    - Control transfer ([Asm]): a context that [swtch] saved is resumed with its
      registers; a trap builds the frame that [trap] reads, and the process goes on with
      the registers of the frame that [trap] leaves.
    - Processes ([ProcThm], [ForkThm]): the effect on the whole process table, errors
      included, of [allocproc], [exit], [kill] and the timer interrupt in every build, and
      of [wakeup] and [fork] in the MLFQ build.
    - Address spaces ([SpaceThm]): [copyuvm], [allocuvm], [deallocuvm] and [freevm] in
      terms of the bytes and the rights that the hardware translation gives; no page is
      lost or shared, also when memory runs out.
    - Crash safety ([TxnThm]), with the memory disk of memide.c and one thread running:
      whatever prefix of the block writes of [end_op] reaches the disk, recovery gives none
      or all of the transaction; [balloc] and [bfree] keep the bitmap.  The proofs of
      [LogThm] are against the interface [BlockCache], for which bio.c on memide.c is the
      instance; there is none for ide.c, whose requests complete in an interrupt.
    - The disk image ([MkfsThm], [ImageThm]): mkfs puts every file on the image, and the
      kernel that boots from it, again on memide.c with one thread, reads the files back.
    - Booting ([Bootmain], [Mp], [MainThm]): the loader loads the segments of the kernel in
      whole sectors, [mpinit] decodes the tables of the BIOS, and the gates and interrupt routes are those
      that [trap] expects.  A table with an entry of an unknown type makes [mpinit] loop.
    - Devices and pipes ([Screen], [PipeThm]): the display is a scrolling terminal, a pipe
      a queue of bytes in every build, also when its counters wrap around.
    - User level: [malloc] and [free] refine an allocator of disjoint blocks for requests
      below 2^31-15 bytes, and the free blocks are joined with their neighbours; the matcher
      of grep decides the language of its pattern, the parser of the shell ends and its
      words are those of the line, and [argptr] accepts exactly the blocks inside the
      caller's space.

    ** Fuel and bounds

    A loop whose number of iterations the code bounds gets that number from its arguments
    (pages of an address space, bytes of a buffer, entries of a table, characters of a
    string), and the theorems that the code returns show that it is enough.  A loop that
    waits for a device or another thread gets [FUEL], a parameter: those theorems assume
    that the device answers within it, as [drive] of [Bootmain] does, or need one
    iteration only.  [for(;;)] of [scheduler] takes the number of passes as an argument.
    Fuel of mutual recursion (the parser of the shell, the matcher of grep) is a measure of
    the text, shown to be enough.  All tables have the sizes of param.h.

    ** Not modelled

    - bootasm.S, entry.S, entryother.S and initcode.S: mode switches and privileged
      set-up before C code runs, and the first user code.  Their addresses and bytes are
      parameters where the kernel uses them.
    - The segment-register wrappers lgdt and loadgs of x86.h and the macros of asm.h.
    - The debugging fields [name] and [pcs] of a lock.
    - Instruction-level interleaving of kernel code other than spinlock.c: code that holds
      ptable.lock is one event of [System].
    - usertests.c, bench.c, benchmark.c, test.c and 1.c: load generators and tests.
    - k.c: an old copy of proc.c that the Makefile does not build. *)

From stdpp Require Import base numbers gmap strings option list.

(** ** Machine integers

    C's [int], [uint], [short], [ushort] and [uchar] are kept as [Z] together
    with the wrap-around that the 32-bit x86 target performs on each store. *)

Definition u8 (z : Z) : Z := (z mod 2 ^ 8)%Z.
Definition u16 (z : Z) : Z := (z mod 2 ^ 16)%Z.
Definition u32 (z : Z) : Z := (z mod 2 ^ 32)%Z.
Definition i16 (z : Z) : Z :=
  let w := u16 z in if (w <? 2 ^ 15)%Z then w else (w - 2 ^ 16)%Z.
Definition i32 (z : Z) : Z :=
  let w := u32 z in if (w <? 2 ^ 31)%Z then w else (w - 2 ^ 32)%Z.

Lemma u8_small z : (0 ≤ z < 2 ^ 8)%Z → u8 z = z.
Proof. apply Z.mod_small. Qed.
Lemma u8_range z : (0 ≤ u8 z < 2 ^ 8)%Z.
Proof. by apply Z.mod_pos_bound. Qed.
Lemma u32_small z : (0 ≤ z < 2 ^ 32)%Z → u32 z = z.
Proof. apply Z.mod_small. Qed.
Lemma u32_range z : (0 ≤ u32 z < 2 ^ 32)%Z.
Proof. by apply Z.mod_pos_bound. Qed.
Lemma i32_small z : (- 2 ^ 31 ≤ z < 2 ^ 31)%Z → i32 z = z.
Proof.
  intros Hz. unfold i32, u32. destruct (decide (0 ≤ z)%Z) as [H0|H0].
  - rewrite Z.mod_small by lia. destruct (Z.ltb_spec z (2 ^ 31)); lia.
  - assert (E : (z mod 2 ^ 32 = z + 2 ^ 32)%Z) by (symmetry; apply (Z.mod_unique _ _ (-1)); lia).
    rewrite E. destruct (Z.ltb_spec (z + 2 ^ 32) (2 ^ 31)); lia.
Qed.
Lemma i32_range z : (- 2 ^ 31 ≤ i32 z < 2 ^ 31)%Z.
Proof.
  unfold i32. pose proof (u32_range z). destruct (Z.ltb_spec (u32 z) (2 ^ 31)); lia.
Qed.

(** Fields of a word that do not overlap. *)
Lemma lor_shiftl hi lo n :
  (0 ≤ n)%Z → (0 ≤ lo < 2 ^ n)%Z → Z.lor (Z.shiftl hi n) lo = (hi * 2 ^ n + lo)%Z.
Proof.
  intros Hn Hlo. rewrite <-Z.add_nocarry_lor; [by rewrite Z.shiftl_mul_pow2|].
  apply Z.bits_inj'. intros i Hi. rewrite Z.land_spec, Z.bits_0.
  destruct (decide (i < n)%Z).
  - by rewrite Z.shiftl_spec_low.
  - rewrite <-(Z.mod_small lo (2 ^ n)) by done. rewrite Z.mod_pow2_bits_high by lia.
    apply andb_false_r.
Qed.

(** Facts about widths, and facts that the kernel's lock and buffer discipline keeps
    being asked for. *)
Create HintDb width.
Create HintDb kernel.
#[export] Hint Resolve u8_small u8_range u32_small u32_range i32_small i32_range : width.

(** ** The outcome of running kernel code

    [Ok] is a normal return; [Panic] is the kernel's [panic(msg)], which halts
    the machine; [Undef] is C undefined behaviour (a NULL dereference, an array
    access out of range); [OutOfFuel] says that a loop of the source is still
    running after the iterations the model was given. *)

Inductive outcome (S A : Type) : Type :=
| Ok (a : A) (s : S)
| Panic (msg : string) (s : S)
| Undef (why : string)
| OutOfFuel.
Arguments Ok {S A} a s.
Arguments Panic {S A} msg s.
Arguments Undef {S A} why.
Arguments OutOfFuel {S A}.

Definition M (S A : Type) : Type := S → outcome S A.

Section monad.
  Context {S : Type}.

Definition ret {A} (a : A) : M S A := λ s, Ok a s.
Definition bind {A B} (m : M S A) (f : A → M S B) : M S B := λ s,
  match m s with
  | Ok a s' => f a s'
  | Panic msg s' => Panic msg s'
  | Undef why => Undef why
  | OutOfFuel => OutOfFuel
  end.
Definition panic {A} (msg : string) : M S A := λ s, Panic msg s.
Definition undef {A} (why : string) : M S A := λ s, Undef why.
Definition out_of_fuel {A} : M S A := λ s, OutOfFuel.
Definition gets {A} (f : S → A) : M S A := λ s, Ok (f s) s.
Definition modify (f : S → S) : M S unit := λ s, Ok tt (f s).
Definition when (b : bool) (m : M S unit) : M S unit := if b then m else ret tt.
(** Read element [i] of an array; out of range is undefined behaviour. *)
Definition arr_get {A} (l : list A) (i : Z) : M S A :=
  if (i <? 0)%Z then undef "array index"
  else match l !! Z.to_nat i with
       | Some a => ret a
       | None => undef "array index"
       end.
(** Dereference a possibly NULL pointer. *)
Definition deref {A} (p : option A) : M S A :=
  match p with Some a => ret a | None => undef "NULL dereference" end.

(** [for (x in l) body], with no early exit. *)
Fixpoint for_each {A} (l : list A) (body : A → M S unit) : M S unit :=
  match l with
  | [] => ret tt
  | x :: l' => bind (body x) (λ _, for_each l' body)
  end.
(** [for (x in l) body], left by the first [Some r] (a [break] or [return]). *)
Fixpoint for_find {A R} (l : list A) (body : A → M S (option R)) : M S (option R) :=
  match l with
  | [] => ret None
  | x :: l' => bind (body x) (λ o, match o with
                                   | Some r => ret (Some r)
                                   | None => for_find l' body
                                   end)
  end.
(** A loop with loop-carried variables [x], left by [inr]. *)
Fixpoint loop {X R} (fuel : nat) (body : X → M S (X + R)) (x : X) : M S R :=
  match fuel with
  | 0 => out_of_fuel
  | Datatypes.S n => bind (body x) (λ o, match o with
                                         | inl x' => loop n body x'
                                         | inr r => ret r
                                         end)
  end.
End monad.

Declare Scope kernel_scope.
Delimit Scope kernel_scope with K.
Notation "'let!' x := m 'in' k" := (bind m (λ x, k))
  (at level 10, x pattern, m at level 100, k at level 200,
   format "'[v' 'let!'  x  :=  m  'in' '/' k ']'") : kernel_scope.
Notation "m ;; k" := (bind m (λ _, k))
  (at level 100, k at level 200, right associativity) : kernel_scope.

(** ** Weakest preconditions

    [wp partial m Q s]: running [m] from [s] reaches a state and result in [Q].
    Undefined behaviour is never allowed.  With [partial = false] the code must
    return; with [partial = true] it may also panic, or still be in a loop. *)

Definition wp {S A} (partial : bool) (m : M S A) (Q : A → S → Prop) (s : S) : Prop :=
  match m s with
  | Ok a s' => Q a s'
  | Panic _ _ => partial = true
  | Undef _ => False
  | OutOfFuel => partial = true
  end.

Section wp.
Context {S : Type} (b : bool).
Implicit Types s : S.

Lemma wp_mono {A} (m : M S A) (Q Q' : A → S → Prop) s :
  wp b m Q s → (∀ a s', Q a s' → Q' a s') → wp b m Q' s.
Proof. unfold wp. destruct (m s); auto. Qed.

Lemma wp_bind {A B} (m : M S A) (f : A → M S B) Q s :
  wp b (bind m f) Q s ↔ wp b m (λ a s', wp b (f a) Q s') s.
Proof. unfold wp, bind. by destruct (m s). Qed.

Lemma wp_ret {A} (a : A) (Q : A → S → Prop) s : Q a s → wp b (ret a) Q s.
Proof. done. Qed.

Lemma wp_gets {A} (f : S → A) (Q : A → S → Prop) s : Q (f s) s → wp b (gets f) Q s.
Proof. done. Qed.

Lemma wp_modify f (Q : unit → S → Prop) s : Q tt (f s) → wp b (modify f) Q s.
Proof. done. Qed.

Lemma wp_when c (m : M S unit) Q s :
  (c = true → wp b m Q s) → (c = false → Q tt s) → wp b (when c m) Q s.
Proof. unfold when. destruct c; intros H1 H2; [by apply H1|by apply H2]. Qed.

Lemma wp_arr_get {A} (l : list A) i a (Q : A → S → Prop) s :
  (0 ≤ i)%Z → l !! Z.to_nat i = Some a → Q a s → wp b (arr_get l i) Q s.
Proof.
  intros Hi Hl HQ. unfold arr_get. destruct (Z.ltb_spec i 0); [lia|]. by rewrite Hl.
Qed.

Lemma wp_deref {A} (p : option A) a (Q : A → S → Prop) s :
  p = Some a → Q a s → wp b (deref p) Q s.
Proof. by intros ->. Qed.

Lemma wp_for_each {A} (I : list A → S → Prop) (l : list A) body s :
  I [] s →
  (∀ pre x post s', l = pre ++ x :: post → I pre s' →
     wp b (body x) (λ _, I (pre ++ [x])) s') →
  wp b (for_each l body) (λ _, I l) s.
Proof.
  intros H0 Hstep.
  cut (∀ post pre s', l = pre ++ post → I pre s' →
         wp b (for_each post body) (λ _, I l) s').
  { intros Hc. by apply (Hc l []). }
  induction post as [|x post IH]; intros pre s' Hl HI; simpl.
  { apply wp_ret. by rewrite Hl, app_nil_r. }
  apply wp_bind. eapply wp_mono; [by eapply Hstep|].
  intros ? s'' HI'. eapply (IH (pre ++ [x])); [|done].
  by rewrite Hl, <-app_assoc.
Qed.

Lemma wp_for_each_inv {A} (I : S → Prop) (l : list A) body s :
  I s → (∀ x s', x ∈ l → I s' → wp b (body x) (λ _, I) s') →
  wp b (for_each l body) (λ _, I) s.
Proof.
  intros H0 Hstep. apply (wp_for_each (λ _, I)); [done|].
  intros pre x post s' -> HI. apply Hstep; [set_solver|done].
Qed.

Lemma wp_for_find {A R} (I : list A → S → Prop) (l : list A)
    (body : A → M S (option R)) Q s :
  I [] s →
  (∀ pre x post s', l = pre ++ x :: post → I pre s' →
     wp b (body x) (λ o s'', match o with
                             | Some r => Q (Some r) s''
                             | None => I (pre ++ [x]) s''
                             end) s') →
  (∀ s', I l s' → Q None s') →
  wp b (for_find l body) Q s.
Proof.
  intros H0 Hstep Hend.
  cut (∀ post pre s', l = pre ++ post → I pre s' → wp b (for_find post body) Q s').
  { intros Hc. by apply (Hc l []). }
  induction post as [|x post IH]; intros pre s' Hl HI; simpl.
  { apply wp_ret, Hend. by rewrite Hl, app_nil_r. }
  apply wp_bind. eapply wp_mono; [by eapply Hstep|].
  intros [r|] s'' HI'; [done|]. eapply (IH (pre ++ [x])); [|done].
  by rewrite Hl, <-app_assoc.
Qed.

(** A loop that decreases [measure] (when [fuel] bounds it) or that is only
    asked for partial correctness. *)
Lemma wp_loop {X R} (I : X → S → Prop) (measure : X → nat) fuel body (x : X) Q s :
  I x s →
  (b = false → measure x < fuel) →
  (∀ x s, I x s →
     wp b (body x) (λ o s', match o with
                            | inl x' => I x' s' ∧ (b = false → measure x' < measure x)
                            | inr r => Q r s'
                            end) s) →
  wp b (loop (R:=R) fuel body x) Q s.
Proof.
  intros HI Hm Hstep. revert x s HI Hm.
  induction fuel as [|fuel IH]; intros x s HI Hm; simpl.
  { unfold wp, out_of_fuel. destruct b; [done|]. specialize (Hm eq_refl). lia. }
  apply wp_bind. eapply wp_mono; [by apply Hstep|].
  intros [x'|r] s' H; [|done]. destruct H as [HI' Hd].
  apply IH; [done|]. intros Hb. specialize (Hd Hb). specialize (Hm Hb). lia.
Qed.

Lemma wp_Ok {A} (m : M S A) Q s a s' : m s = Ok a s' → Q a s' → wp b m Q s.
Proof. unfold wp. by intros ->. Qed.
End wp.

(** A terminating run exhibits its result. *)
Lemma wp_total {S A} (m : M S A) Q s :
  wp false m Q s ↔ ∃ a s', m s = Ok a s' ∧ Q a s'.
Proof.
  unfold wp. split.
  - destruct (m s) eqn:E; naive_solver.
  - intros (a & s' & -> & H). done.
Qed.

Lemma wp_partial {S A} (m : M S A) Q s a s' :
  wp true m Q s → m s = Ok a s' → Q a s'.
Proof. unfold wp. intros H Hm. by rewrite Hm in H. Qed.

(** ** Running code step by step *)

Section run.
Context {S : Type}.

Lemma bind_Ok {A B} (m : M S A) (f : A → M S B) s a s' :
  m s = Ok a s' → bind m f s = f a s'.
Proof. unfold bind. by intros ->. Qed.

Lemma for_each_Ok {A} (x : A) l (body : A → M S unit) s s' :
  body x s = Ok tt s' → for_each (x :: l) body s = for_each l body s'.
Proof. intros H. simpl. by erewrite bind_Ok by done. Qed.

Lemma for_find_next {A R} (x : A) l (body : A → M S (option R)) s s' :
  body x s = Ok None s' → for_find (x :: l) body s = for_find l body s'.
Proof. intros H. simpl. by erewrite bind_Ok by done. Qed.

Lemma for_find_stop {A R} (x : A) l (body : A → M S (option R)) r s s' :
  body x s = Ok (Some r) s' → for_find (x :: l) body s = Ok (Some r) s'.
Proof. intros H. simpl. by erewrite bind_Ok by done. Qed.

Lemma loop_Ok {X R} fuel (body : X → M S (X + R)) x r s s' :
  body x s = Ok (inr r) s' → loop (Datatypes.S fuel) body x s = Ok r s'.
Proof. intros H. simpl. by erewrite bind_Ok by done. Qed.

Lemma loop_next {X R} fuel (body : X → M S (X + R)) x x' s s' :
  body x s = Ok (inl x') s' → loop (Datatypes.S fuel) body x s = loop fuel body x' s'.
Proof. intros H. simpl. by erewrite bind_Ok by done. Qed.

(** Loops whose state after [i] iterations is known as [St i]. *)
Lemma for_each_states {A} (l : list A) (body : A → M S unit) (St : nat → S) :
  (∀ i x, l !! i = Some x → body x (St i) = Ok tt (St (Datatypes.S i))) →
  for_each l body (St 0) = Ok tt (St (length l)).
Proof.
  revert St. induction l as [|x l IH]; intros St H; [done|].
  erewrite for_each_Ok by by apply (H 0). apply (IH (λ i, St (Datatypes.S i))).
  intros i y Hy. by apply (H (Datatypes.S i)).
Qed.

(** Loops with an invariant that may name the next state. *)
Lemma for_each_inv {A} (l : list A) (body : A → M S unit) (I : nat → S → Prop) s :
  (∀ i x s, l !! i = Some x → I i s → ∃ s', body x s = Ok tt s' ∧ I (Datatypes.S i) s') →
  I 0 s → ∃ s', for_each l body s = Ok tt s' ∧ I (length l) s'.
Proof.
  revert I s. induction l as [|x l IH]; intros I s H H0; [by exists s|].
  destruct (H 0 x s) as (s1 & E & H1); [done..|]. erewrite for_each_Ok by exact E.
  apply (IH (λ i, I (Datatypes.S i))); [|done]. intros i y s2 Hy. by apply (H (Datatypes.S i)).
Qed.

Lemma for_find_states_None {A R} (l : list A) (body : A → M S (option R)) (St : nat → S) :
  (∀ i x, l !! i = Some x → body x (St i) = Ok None (St (Datatypes.S i))) →
  for_find l body (St 0) = Ok None (St (length l)).
Proof.
  revert St. induction l as [|x l IH]; intros St H; [done|].
  erewrite for_find_next by by apply (H 0). apply (IH (λ i, St (Datatypes.S i))).
  intros i y Hy. by apply (H (Datatypes.S i)).
Qed.

Lemma for_find_states_Some {A R} (l : list A) (body : A → M S (option R)) (St : nat → S) k x r s :
  l !! k = Some x → body x (St k) = Ok (Some r) s →
  (∀ i y, i < k → l !! i = Some y → body y (St i) = Ok None (St (Datatypes.S i))) →
  for_find l body (St 0) = Ok (Some r) s.
Proof.
  revert l St. induction k as [|k IH]; intros l St Hx Hb H; destruct l as [|y l]; try done.
  - simpl in Hx. simplify_eq. by apply for_find_stop.
  - erewrite for_find_next by (apply (H 0); [lia|done]).
    apply (IH l (λ i, St (Datatypes.S i))); [done..|].
    intros i z Hi Hz. apply (H (Datatypes.S i)); [lia|done].
Qed.

(** The same with an invariant. *)
Lemma for_find_inv_None {A R} (l : list A) (body : A → M S (option R)) (I : S → Prop) s :
  (∀ x s, x ∈ l → I s → ∃ s', body x s = Ok None s' ∧ I s') →
  I s → ∃ s', for_find l body s = Ok None s' ∧ I s'.
Proof.
  revert s. induction l as [|x l IH]; intros s H H0; [by exists s|].
  destruct (H x s) as (s1 & E & H1); [by left|done|]. erewrite for_find_next by exact E.
  apply IH; [|done]. intros y s2 Hy. apply H. by right.
Qed.

Lemma for_find_inv_Some {A R} (l : list A) (body : A → M S (option R)) (I Q : S → Prop) k x r s :
  l !! k = Some x → (∀ s, I s → ∃ s', body x s = Ok (Some r) s' ∧ Q s') →
  (∀ i y s, i < k → l !! i = Some y → I s → ∃ s', body y s = Ok None s' ∧ I s') →
  I s → ∃ s', for_find l body s = Ok (Some r) s' ∧ Q s'.
Proof.
  intros Hx Hb. revert l s Hx. induction k as [|k IH]; intros l s Hx H H0; destruct l as [|y l]; try done.
  - simpl in Hx. simplify_eq. destruct (Hb s H0) as (s' & E & HQ). exists s'. split; [|done]. by apply for_find_stop.
  - destruct (H 0 y s) as (s1 & E & H1); [lia|done..|]. erewrite for_find_next by exact E.
    apply IH; [done| |done]. intros i z s2 Hi. apply (H (Datatypes.S i)). lia.
Qed.
End run.

(** One statement of a run: [run t] proves with [t] what the first statement returns
    and goes on with the rest. *)
Tactic Notation "run" tactic3(t) := erewrite bind_Ok by t; cbv beta.

(** ** Frames

    [Framed R m]: whenever [m] returns, it has moved the state along [R].  For a
    preorder [R] this composes over the control structures, so the class resolves
    it for a whole C function from the functions it calls. *)

Class Framed {S A} (R : relation S) (m : M S A) : Prop :=
  framed : ∀ s a s', m s = Ok a s' → R s s'.
Global Hint Mode Framed + + + ! : typeclass_instances.

Section framed.
Context {S : Type} (R : relation S) `{!PreOrder R}.

#[export] Instance framed_ret {A} (a : A) : Framed R (ret a).
Proof. intros s b s' E. by injection E as <- <-. Qed.
#[export] Instance framed_gets {A} (f : S → A) : Framed R (gets f).
Proof. intros s b s' E. by injection E as <- <-. Qed.
#[export] Instance framed_panic {A} msg : Framed R (panic (A:=A) msg).
Proof. intros s b s' E. done. Qed.
#[export] Instance framed_undef {A} msg : Framed R (undef (A:=A) msg).
Proof. intros s b s' E. done. Qed.
#[export] Instance framed_deref {A} (p : option A) : Framed R (deref p).
Proof. destruct p; apply _. Qed.
#[export] Instance framed_arr_get {A} (l : list A) i : Framed R (arr_get l i).
Proof. unfold arr_get. destruct (i <? 0)%Z; [apply _|]. destruct (l !! _); apply _. Qed.
#[export] Instance framed_bind {A B} (m : M S A) (f : A → M S B) :
  Framed R m → (∀ a, Framed R (f a)) → Framed R (bind m f).
Proof.
  intros Hm Hf s b s' E. unfold bind in E. destruct (m s) as [a s1| | |] eqn:E1; try done.
  etrans; [by eapply Hm|by eapply Hf].
Qed.
#[export] Instance framed_when b (m : M S unit) : Framed R m → Framed R (when b m).
Proof. intros. destruct b; apply _. Qed.
#[export] Instance framed_if {A} (b : bool) (m m' : M S A) :
  Framed R m → Framed R m' → Framed R (if b then m else m').
Proof. by destruct b. Qed.
#[export] Instance framed_for_each {A} (l : list A) body :
  (∀ x, Framed R (body x)) → Framed R (for_each l body).
Proof. intros Hb. induction l as [|x l IH]; simpl; apply _. Qed.
#[export] Instance framed_for_find {A B} (l : list A) (body : A → M S (option B)) :
  (∀ x, Framed R (body x)) → Framed R (for_find l body).
Proof. intros Hb. induction l; simpl; [apply _|]. apply framed_bind; [done|]. intros []; apply _. Qed.
#[export] Instance framed_loop {X B} fuel (body : X → M S (X + B)) x :
  (∀ x, Framed R (body x)) → Framed R (loop fuel body x).
Proof.
  intros Hb. revert x. induction fuel as [|n IH]; intros x; simpl; [by intros s b s'|].
  apply framed_bind; [done|]. intros []; apply _.
Qed.
End framed.
