(* ===== verification/Format.v ===== *)
(** * Format: the text that [cprintf] prints (console.c)

    The formatting part of [cprintf] and [printint]: the characters they hand to
    [consputc], in order. *)

From stdpp Require Import base numbers strings option list.
From S2P Require Import Prelude.
Local Open Scope Z_scope.

(** An argument of [cprintf]: a word, or a string. *)
Inductive printarg := PInt (z : Z) | PStr (s : list Z) | PCStr (s : string).

Definition digits : list Z :=
  [48; 49; 50; 51; 52; 53; 54; 55; 56; 57; 97; 98; 99; 100; 101; 102].

(** [do { buf[i++] = digits[x % base]; } while((x /= base) != 0);]: the buffer,
    least significant digit first.  A 32-bit number has at most 32 digits. *)
Fixpoint digit_loop (fuel : nat) (x base : Z) : list Z :=
  match fuel with
  | O => []
  | S fuel =>
      let d := nth (Z.to_nat (x mod base)) digits 0 in
      if x / base =? 0 then [d] else d :: digit_loop fuel (x / base) base
  end.

(** The characters [printint] hands to [consputc]. *)
Definition printint (xx base : Z) (sign : bool) : list Z :=
  let neg := sign && (xx <? 0) in
  let x := if neg then u32 (- xx) else u32 xx in
  let buf := digit_loop 32 x base in
  let buf := if neg then buf ++ [45] else buf in
  rev buf.

(** A C string literal: [\n] and [\t] are escapes. *)
Fixpoint unescape (l : list Z) : list Z :=
  match l with
  | 92 :: 110 :: l' => 10 :: unescape l'
  | 92 :: 116 :: l' => 9 :: unescape l'
  | c :: l' => c :: unescape l'
  | [] => []
  end.
Definition chars (s : string) : list Z :=
  unescape ((λ a, Z.of_N (Ascii.N_of_ascii a)) <$> String.list_ascii_of_string s).

(** A string argument up to its terminator. *)
Definition cstr (l : list Z) : list Z := take (default (length l) (fst <$> list_find (λ b, b = 0) l)) l.

(** The characters [cprintf] prints for the format [fmt] and the arguments. *)
Fixpoint cprintf_chars (fmt : list Z) (args : list printarg) : list Z :=
  match fmt with
  | [] => []
  | c :: fmt' =>
      if negb (c =? 37) then c :: cprintf_chars fmt' args
      else match fmt' with
           | [] => []
           | c :: fmt'' =>
               if c =? 100 then
                 match args with
                 | PInt z :: args' => printint z 10 true ++ cprintf_chars fmt'' args'
                 | _ => []
                 end
               else if (c =? 120) || (c =? 112) then
                 match args with
                 | PInt z :: args' => printint z 16 false ++ cprintf_chars fmt'' args'
                 | _ => []
                 end
               else if c =? 115 then
                 match args with
                 | PStr l :: args' => cstr l ++ cprintf_chars fmt'' args'
                 | PCStr l :: args' => chars l ++ cprintf_chars fmt'' args'
                 | PInt _ :: args' => chars "(null)" ++ cprintf_chars fmt'' args'
                 | [] => []
                 end
               else if c =? 37 then 37 :: cprintf_chars fmt'' args
               else 37 :: c :: cprintf_chars fmt'' args
           end
  end.
