(* ===== verification/FormatThm.v ===== *)
(** * FormatThm: what printint prints denotes the number (console.c) *)

From stdpp Require Import base numbers strings option list.
From S2P Require Import Prelude Format.
Local Open Scope Z_scope.

(** ** Reading a numeral back *)

(** The value of a digit character, of a numeral whose least significant digit is
    first, and of the text that [printint] prints. *)
Definition digit_value (c : Z) : Z := if c <? 58 then c - 48 else c - 87.
Definition numeral (base : Z) (l : list Z) : Z :=
  foldr (λ c v, digit_value c + base * v) 0 l.
Definition read_int (base : Z) (text : list Z) : Z :=
  match text with
  | c :: l => if c =? 45 then - numeral base (rev l) else numeral base (rev text)
  | [] => 0
  end.

(** [nth d digits] is the character of the digit [d]. *)
Lemma digits_spec d :
  0 ≤ d < 16 → digit_value (nth (Z.to_nat d) digits 0) = d ∧ nth (Z.to_nat d) digits 0 ≠ 45.
Proof.
  intros Hd. assert (Ht : Forall (λ d, digit_value (nth (Z.to_nat d) digits 0) = d ∧
    nth (Z.to_nat d) digits 0 ≠ 45) (seqZ 0 16)).
  { apply (bool_decide_unpack _). by vm_compute. }
  rewrite Forall_forall in Ht. apply Ht, elem_of_seqZ. lia.
Qed.

Section loop.
Context (base : Z) (Hbase : 2 ≤ base ≤ 16).

Lemma digit_loop_value fuel x :
  0 ≤ x < base ^ Z.of_nat fuel → (0 < fuel)%nat → numeral base (digit_loop fuel x base) = x.
Proof.
  revert x. induction fuel as [|fuel IH]; intros x Hx Hf; [lia|]. cbn [digit_loop].
  pose proof (Z.mod_pos_bound x base ltac:(lia)) as Hm.
  pose proof (Z.div_mod x base ltac:(lia)) as Hdm.
  destruct (digits_spec (x mod base)) as [Hv _]; [lia|].
  destruct (Z.eqb_spec (x / base) 0) as [E|E]; cbn [numeral foldr]; rewrite Hv; [lia|].
  fold (numeral base (digit_loop fuel (x / base) base)). rewrite IH; [lia| |].
  - split; [apply Z.div_pos; lia|]. apply Z.div_lt_upper_bound; [lia|].
    rewrite <-Z.pow_succ_r by lia. replace (Z.succ (Z.of_nat fuel)) with (Z.of_nat (S fuel)); lia.
  - destruct fuel; [|lia]. rewrite Z.pow_1_r in Hx. rewrite Z.div_small in E; lia.
Qed.

Lemma digit_loop_length fuel k x :
  0 ≤ x < base ^ Z.of_nat (S k) → (length (digit_loop fuel x base) ≤ S k)%nat.
Proof.
  revert fuel x. induction k as [|k IH]; intros fuel x Hx; (destruct fuel as [|fuel]; [simpl; lia|]);
    cbn [digit_loop].
  - rewrite Z.pow_1_r in Hx. rewrite Z.div_small by lia. simpl. lia.
  - destruct (x / base =? 0); [simpl; lia|]. cbn [length]. apply le_n_S, IH.
    split; [apply Z.div_pos; lia|]. apply Z.div_lt_upper_bound; [lia|].
    rewrite <-Z.pow_succ_r by lia. replace (Z.succ (Z.of_nat (S k))) with (Z.of_nat (S (S k))); lia.
Qed.

Lemma digit_loop_no_minus fuel x c : c ∈ digit_loop fuel x base → c ≠ 45.
Proof.
  revert x. induction fuel as [|fuel IH]; intros x; cbn [digit_loop].
  { by intros ?%not_elem_of_nil. }
  destruct (digits_spec (x mod base)) as [_ Hv].
  { pose proof (Z.mod_pos_bound x base). lia. }
  destruct (x / base =? 0).
  - by intros ->%list_elem_of_singleton.
  - intros [->|?]%elem_of_cons; eauto.
Qed.
End loop.

Lemma read_int_plain base l : (∀ c, c ∈ l → c ≠ 45) → read_int base (rev l) = numeral base l.
Proof.
  intros Hl. unfold read_int. destruct (rev l) as [|c l'] eqn:E.
  { by rewrite <-(rev_involutive l), E. }
  rewrite <-E, rev_involutive. destruct (Z.eqb_spec c 45) as [->|Hc]; [|done].
  destruct (Hl 45); [|done]. rewrite <-(rev_involutive l), E. apply elem_of_app.
  right. by apply list_elem_of_singleton.
Qed.

Lemma read_int_minus base l : read_int base (rev (l ++ [45])) = - numeral base l.
Proof. rewrite rev_app_distr. simpl. by rewrite rev_involutive. Qed.

(** The magnitude printed is a 32-bit number. *)
Lemma printint_value xx base sign :
  2 ≤ base ≤ 16 → - 2 ^ 31 ≤ xx < 2 ^ 32 →
  read_int base (printint xx base sign) = if sign && (xx <? 0) then xx else u32 xx.
Proof.
  intros Hb Hx. unfold printint.
  assert (Hval : ∀ x, 0 ≤ x < 2 ^ 32 → numeral base (digit_loop 32 x base) = x).
  { intros x Hx'. apply digit_loop_value; [done| |lia]. split; [lia|].
    apply Z.lt_le_trans with (2 ^ Z.of_nat 32); [simpl; lia|]. apply Z.pow_le_mono_l. lia. }
  destruct (sign && (xx <? 0)) eqn:E.
  - apply andb_true_iff in E as [_ E%Z.ltb_lt].
    rewrite read_int_minus, Hval by apply u32_range. unfold u32. rewrite Z.mod_small; lia.
  - rewrite read_int_plain by apply digit_loop_no_minus, Hb. apply Hval, u32_range.
Qed.

(** ** The claims *)

(** printint, signed, in any base up to 16: the text it prints reads back as the
    number, the most negative one included. *)
Theorem printint_signed_reads_back xx base :
  2 ≤ base ≤ 16 → - 2 ^ 31 ≤ xx < 2 ^ 31 → read_int base (printint xx base true) = xx.
Proof.
  intros Hb Hx. rewrite printint_value by lia. simpl. destruct (Z.ltb_spec xx 0); [done|].
  unfold u32. apply Z.mod_small. lia.
Qed.
Lemma printint_signed_reads_back_witness :
  printint (- 2147483648) 10 true = chars "-2147483648" ∧
  read_int 10 (printint (- 2147483648) 10 true) = - 2147483648.
Proof. split; [vm_compute; reflexivity|]. apply printint_signed_reads_back; lia. Defined.

(** printint never writes past the sixteen bytes of [buf], sign included, in the
    two bases that cprintf uses. *)
Theorem printint_fits xx base sign :
  base = 10 ∨ base = 16 → (length (printint xx base sign) ≤ 16)%nat.
Proof.
  intros Hb. unfold printint. rewrite length_rev.
  assert (Hd : ∀ x, 0 ≤ x < 2 ^ 32 → (length (digit_loop 32 x base) ≤ 10)%nat).
  { intros x Hx. apply digit_loop_length; [lia|]. split; [lia|].
    destruct Hb as [-> | ->]; [|]; apply Z.lt_le_trans with (2 ^ 32); by (lia || vm_compute). }
  pose proof (Hd _ (u32_range xx)). pose proof (Hd _ (u32_range (- xx))).
  destruct (sign && (xx <? 0)); rewrite ?length_app; cbn [length]; lia.
Qed.
Lemma printint_fits_witness : (length (printint (- 2147483648) 10 true) ≤ 16)%nat.
Proof. apply printint_fits. left. reflexivity. Defined.
