(* ===== verification/Machine.v ===== *)
(** * Machine: the kernel's data and the code every component stands on

    The C structs of [proc.h], [x86.h], [file.h], [fs.h], [buf.h], [spinlock.h],
    [sleeplock.h], [log.c], [pipe.c], [kalloc.c] and [console.c] as records, the
    kernel's global variables as one record [kernel], the monad [K] in which
    every C function of the kernel is translated, and the interrupt-nesting and
    lock primitives as one processor sees them.

    Pointers to elements of a fixed table ([struct proc *], [struct inode *],
    [struct file *], [struct buf *]) are the element's index, with [option] when
    the code uses NULL; pointers to pages are kernel virtual addresses in [Z]
    with [0] for NULL.  Every table element has one field setter per C field, so
    an assignment [p->f = v] reads [set_p_f v]. *)

From stdpp Require Import base numbers gmap strings option list.
From S2P Require Import Prelude Format.

(** A record update that keeps every other field: [eta] rebuilds the record. *)
Ltac set_field eta proj v r :=
  let t := eval cbv beta delta [eta] in (eta r) in
  lazymatch t with
  | context C [proj r] => let t' := context C [v] in exact t'
  end.

(** ** Constants of [param.h], [mmu.h], [memlayout.h], [fs.h] and [pipe.c] *)

Definition NPROC : nat := 64.
Definition KSTACKSIZE : Z := 4096.
Definition NCPU : nat := 8.
Definition NOFILE : nat := 16.
Definition NFILE : nat := 100.
Definition NINODE : nat := 50.
Definition NDEV : Z := 10.
Definition ROOTDEV : Z := 1.
Definition ROOTINO : Z := 1.
Definition MAXARG : Z := 32.
Definition MAXOPBLOCKS : Z := 10.
Definition LOGSIZE : Z := 30.
Definition NBUF : nat := 30.
Definition FSSIZE : Z := 1000.
Definition BSIZE : Z := 512.
Definition PGSIZE : Z := 4096.
Definition KERNBASE : Z := 0x80000000.
Definition PHYSTOP : Z := 0xE000000.
Abbreviation EXTMEM := (0x100000)%Z (only parsing).
Abbreviation KERNLINK := (0x80100000)%Z (only parsing).
Abbreviation DEVSPACE := (0xFE000000)%Z (only parsing).
Abbreviation SEG_KCODE := (1)%Z (only parsing).
Abbreviation SEG_KDATA := (2)%Z (only parsing).
Abbreviation SEG_UCODE := (3)%Z (only parsing).
Abbreviation SEG_UDATA := (4)%Z (only parsing).
Abbreviation SEG_TSS := (5)%Z (only parsing).
Abbreviation DPL_USER := (3)%Z (only parsing).
Abbreviation STA_X := (0x8)%Z (only parsing).
Abbreviation STA_W := (0x2)%Z (only parsing).
Abbreviation STA_R := (0x2)%Z (only parsing).
Abbreviation STS_T32A := (0x9)%Z (only parsing).
Abbreviation FL_IF := (0x200)%Z (only parsing).
Definition NDIRECT : nat := 12.
Definition NINDIRECT : nat := 128.
Definition PIPESIZE : Z := 512.
Definition INPUT_BUF : Z := 128.

(** ** Processes: [proc.h], [x86.h] *)

Inductive procstate := UNUSED | EMBRYO | SLEEPING | RUNNABLE | RUNNING | ZOMBIE.
#[global] Instance procstate_eq_dec : EqDecision procstate.
Proof. solve_decision. Defined.

(** Which of the [-DRR], [-DFCFS], [-DPBS], [-DMLFQ] builds of the Makefile. *)
Inductive sched_kind := RR | FCFS | PBS | MLFQ.
#[global] Instance sched_kind_eq_dec : EqDecision sched_kind.
Proof. solve_decision. Defined.

(** Which disk driver the image is linked with: ide.o ([kernel]) or memide.o
    ([kernelmemfs]). *)
Inductive disk_driver := IDE | MEMIDE.

(** A sleep lock is a field of a buffer or of an inode. *)
Inductive slid := SL_buf (b : nat) | SL_inode (i : nat).
#[global] Instance slid_eq_dec : EqDecision slid.
Proof. solve_decision. Defined.

(** The addresses the code sleeps on. *)
Inductive chan :=
| CH_proc (i : nat)
| CH_ticks
| CH_log
| CH_sleep (l : slid)
| CH_nread (pipe : Z)
| CH_nwrite (pipe : Z)
| CH_buf (b : nat)
| CH_input.
#[global] Instance chan_eq_dec : EqDecision chan.
Proof. solve_decision. Defined.

(** The spin locks of the kernel. *)
Inductive lockid :=
| LK_ptable | LK_ticks | LK_kmem | LK_bcache | LK_log | LK_icache | LK_ftable
| LK_cons | LK_ide | LK_sleep (l : slid) | LK_pipe (pipe : Z).
#[global] Instance lockid_eq_dec : EqDecision lockid.
Proof. solve_decision. Defined.

(** [struct trapframe] of x86.h. *)
Record trapframe := mk_trapframe {
  tf_edi : Z;
  tf_esi : Z;
  tf_ebp : Z;
  tf_oesp : Z;
  tf_ebx : Z;
  tf_edx : Z;
  tf_ecx : Z;
  tf_eax : Z;
  tf_gs : Z;
  tf_fs : Z;
  tf_es : Z;
  tf_ds : Z;
  tf_trapno : Z;
  tf_err : Z;
  tf_eip : Z;
  tf_cs : Z;
  tf_eflags : Z;
  tf_esp : Z;
  tf_ss : Z
}.
Definition eta_trapframe (r : trapframe) : trapframe := mk_trapframe
    (tf_edi r) (tf_esi r) (tf_ebp r) (tf_oesp r) (tf_ebx r) (tf_edx r)
    (tf_ecx r) (tf_eax r) (tf_gs r) (tf_fs r) (tf_es r) (tf_ds r)
    (tf_trapno r) (tf_err r) (tf_eip r) (tf_cs r) (tf_eflags r) (tf_esp r)
    (tf_ss r).
Definition set_tf_edi (v : Z) (r : trapframe) : trapframe := ltac:(set_field eta_trapframe tf_edi v r).
Definition set_tf_esi (v : Z) (r : trapframe) : trapframe := ltac:(set_field eta_trapframe tf_esi v r).
Definition set_tf_ebp (v : Z) (r : trapframe) : trapframe := ltac:(set_field eta_trapframe tf_ebp v r).
Definition set_tf_oesp (v : Z) (r : trapframe) : trapframe := ltac:(set_field eta_trapframe tf_oesp v r).
Definition set_tf_ebx (v : Z) (r : trapframe) : trapframe := ltac:(set_field eta_trapframe tf_ebx v r).
Definition set_tf_edx (v : Z) (r : trapframe) : trapframe := ltac:(set_field eta_trapframe tf_edx v r).
Definition set_tf_ecx (v : Z) (r : trapframe) : trapframe := ltac:(set_field eta_trapframe tf_ecx v r).
Definition set_tf_eax (v : Z) (r : trapframe) : trapframe := ltac:(set_field eta_trapframe tf_eax v r).
Definition set_tf_gs (v : Z) (r : trapframe) : trapframe := ltac:(set_field eta_trapframe tf_gs v r).
Definition set_tf_fs (v : Z) (r : trapframe) : trapframe := ltac:(set_field eta_trapframe tf_fs v r).
Definition set_tf_es (v : Z) (r : trapframe) : trapframe := ltac:(set_field eta_trapframe tf_es v r).
Definition set_tf_ds (v : Z) (r : trapframe) : trapframe := ltac:(set_field eta_trapframe tf_ds v r).
Definition set_tf_trapno (v : Z) (r : trapframe) : trapframe := ltac:(set_field eta_trapframe tf_trapno v r).
Definition set_tf_err (v : Z) (r : trapframe) : trapframe := ltac:(set_field eta_trapframe tf_err v r).
Definition set_tf_eip (v : Z) (r : trapframe) : trapframe := ltac:(set_field eta_trapframe tf_eip v r).
Definition set_tf_cs (v : Z) (r : trapframe) : trapframe := ltac:(set_field eta_trapframe tf_cs v r).
Definition set_tf_eflags (v : Z) (r : trapframe) : trapframe := ltac:(set_field eta_trapframe tf_eflags v r).
Definition set_tf_esp (v : Z) (r : trapframe) : trapframe := ltac:(set_field eta_trapframe tf_esp v r).
Definition set_tf_ss (v : Z) (r : trapframe) : trapframe := ltac:(set_field eta_trapframe tf_ss v r).

Definition zero_trapframe : trapframe :=
  mk_trapframe 0 0 0 0 0 0 0 0 0 0 0 0 0 0 0 0 0 0 0.

(** [struct context] of proc.h. *)
Record context := mk_context {
  cx_edi : Z;
  cx_esi : Z;
  cx_ebx : Z;
  cx_ebp : Z;
  cx_eip : Z
}.
Definition eta_context (r : context) : context := mk_context (cx_edi r)
    (cx_esi r) (cx_ebx r) (cx_ebp r) (cx_eip r).
Definition set_cx_edi (v : Z) (r : context) : context := ltac:(set_field eta_context cx_edi v r).
Definition set_cx_esi (v : Z) (r : context) : context := ltac:(set_field eta_context cx_esi v r).
Definition set_cx_ebx (v : Z) (r : context) : context := ltac:(set_field eta_context cx_ebx v r).
Definition set_cx_ebp (v : Z) (r : context) : context := ltac:(set_field eta_context cx_ebp v r).
Definition set_cx_eip (v : Z) (r : context) : context := ltac:(set_field eta_context cx_eip v r).

(** [struct proc] of proc.h. *)
Record proc := mk_proc {
  p_sz : Z;  (** size of process memory (bytes) *)
  p_pgdir : Z;  (** page table *)
  p_kstack : Z;  (** bottom of the kernel stack *)
  p_state : procstate;
  p_pid : Z;
  p_parent : option nat;
  p_tfp : Z;  (** the pointer [tf] *)
  p_tf : trapframe;  (** the frame it points to *)
  p_contextp : Z;  (** the pointer [context] *)
  p_context : context;  (** the context it points to *)
  p_chan : option chan;
  p_killed : bool;
  p_ofile : list (option nat);
  p_cwd : option nat;
  p_name : list Z;  (** 16 bytes *)
  p_ctime : Z;
  p_etime : Z;
  p_rtime : Z;
  p_iotime : Z;
  p_priority : Z;
  p_n_run : Z;
  p_cur_q : Z;
  p_q : list Z;  (** 5 counters *)
  p_qtime : Z;
  p_flg : Z
}.
Definition eta_proc (r : proc) : proc := mk_proc (p_sz r) (p_pgdir r)
    (p_kstack r) (p_state r) (p_pid r) (p_parent r) (p_tfp r) (p_tf r)
    (p_contextp r) (p_context r) (p_chan r) (p_killed r) (p_ofile r) (p_cwd r)
    (p_name r) (p_ctime r) (p_etime r) (p_rtime r) (p_iotime r) (p_priority r)
    (p_n_run r) (p_cur_q r) (p_q r) (p_qtime r) (p_flg r).
Definition set_p_sz (v : Z) (r : proc) : proc := ltac:(set_field eta_proc p_sz v r).
Definition set_p_pgdir (v : Z) (r : proc) : proc := ltac:(set_field eta_proc p_pgdir v r).
Definition set_p_kstack (v : Z) (r : proc) : proc := ltac:(set_field eta_proc p_kstack v r).
Definition set_p_state (v : procstate) (r : proc) : proc := ltac:(set_field eta_proc p_state v r).
Definition set_p_pid (v : Z) (r : proc) : proc := ltac:(set_field eta_proc p_pid v r).
Definition set_p_parent (v : option nat) (r : proc) : proc := ltac:(set_field eta_proc p_parent v r).
Definition set_p_tfp (v : Z) (r : proc) : proc := ltac:(set_field eta_proc p_tfp v r).
Definition set_p_tf (v : trapframe) (r : proc) : proc := ltac:(set_field eta_proc p_tf v r).
Definition set_p_contextp (v : Z) (r : proc) : proc := ltac:(set_field eta_proc p_contextp v r).
Definition set_p_context (v : context) (r : proc) : proc := ltac:(set_field eta_proc p_context v r).
Definition set_p_chan (v : option chan) (r : proc) : proc := ltac:(set_field eta_proc p_chan v r).
Definition set_p_killed (v : bool) (r : proc) : proc := ltac:(set_field eta_proc p_killed v r).
Definition set_p_ofile (v : list (option nat)) (r : proc) : proc := ltac:(set_field eta_proc p_ofile v r).
Definition set_p_cwd (v : option nat) (r : proc) : proc := ltac:(set_field eta_proc p_cwd v r).
Definition set_p_name (v : list Z) (r : proc) : proc := ltac:(set_field eta_proc p_name v r).
Definition set_p_ctime (v : Z) (r : proc) : proc := ltac:(set_field eta_proc p_ctime v r).
Definition set_p_etime (v : Z) (r : proc) : proc := ltac:(set_field eta_proc p_etime v r).
Definition set_p_rtime (v : Z) (r : proc) : proc := ltac:(set_field eta_proc p_rtime v r).
Definition set_p_iotime (v : Z) (r : proc) : proc := ltac:(set_field eta_proc p_iotime v r).
Definition set_p_priority (v : Z) (r : proc) : proc := ltac:(set_field eta_proc p_priority v r).
Definition set_p_n_run (v : Z) (r : proc) : proc := ltac:(set_field eta_proc p_n_run v r).
Definition set_p_cur_q (v : Z) (r : proc) : proc := ltac:(set_field eta_proc p_cur_q v r).
Definition set_p_q (v : list Z) (r : proc) : proc := ltac:(set_field eta_proc p_q v r).
Definition set_p_qtime (v : Z) (r : proc) : proc := ltac:(set_field eta_proc p_qtime v r).
Definition set_p_flg (v : Z) (r : proc) : proc := ltac:(set_field eta_proc p_flg v r).

(** [struct segdesc] of mmu.h. *)
Record segdesc := mk_segdesc {
  sd_lim_15_0 : Z;
  sd_base_15_0 : Z;
  sd_base_23_16 : Z;
  sd_type : Z;
  sd_s : Z;  (** 0 = system, 1 = application *)
  sd_dpl : Z;
  sd_p : Z;
  sd_lim_19_16 : Z;
  sd_avl : Z;
  sd_rsv1 : Z;
  sd_db : Z;
  sd_g : Z;
  sd_base_31_24 : Z
}.

(** The macros [SEG] and [SEG16] of mmu.h. *)
Definition SEG (type base lim dpl : Z) : segdesc :=
  mk_segdesc (Z.land (Z.shiftr lim 12) 0xffff) (Z.land base 0xffff)
    (Z.land (Z.shiftr base 16) 0xff) type 1 dpl 1
    (Z.land (Z.shiftr lim 28) 0xf) 0 0 1 1 (Z.land (Z.shiftr base 24) 0xff).
Definition SEG16 (type base lim dpl : Z) : segdesc :=
  mk_segdesc (Z.land lim 0xffff) (Z.land base 0xffff)
    (Z.land (Z.shiftr base 16) 0xff) type 1 dpl 1
    (Z.land (Z.shiftr lim 16) 0xf) 0 0 1 0 (Z.land (Z.shiftr base 24) 0xff).

(** [struct cpu] of proc.h, with the processor registers the code sets. *)
Record cpu := mk_cpu {
  c_ncli : Z;  (** depth of pushcli nesting *)
  c_intena : bool;  (** were interrupts enabled before pushcli? *)
  c_intr : bool;  (** the FL_IF bit of %eflags *)
  c_proc : option nat;  (** the process running on this cpu *)
  c_esp0 : Z;  (** ts.esp0 *)
  c_cr3 : Z;  (** the %cr3 register *)
  c_ss0 : Z;  (** ts.ss0 *)
  c_iomb : Z;  (** ts.iomb *)
  c_tr : Z;  (** the task register *)
  c_gdt : list segdesc;  (** gdt[NSEGS] *)
  c_tsaddr : Z;  (** the address of [ts] in this [struct cpu] *)
  c_id : Z;  (** [cpuid()] *)
  c_cr2 : Z;  (** the %cr2 register *)
  c_idtr : list Z  (** the interrupt descriptor table register *)
}.
Definition eta_cpu (r : cpu) : cpu := mk_cpu (c_ncli r) (c_intena r)
    (c_intr r) (c_proc r) (c_esp0 r) (c_cr3 r) (c_ss0 r) (c_iomb r) (c_tr r)
    (c_gdt r) (c_tsaddr r)
    (c_id r) (c_cr2 r) (c_idtr r).
Definition set_c_ncli (v : Z) (r : cpu) : cpu := ltac:(set_field eta_cpu c_ncli v r).
Definition set_c_intena (v : bool) (r : cpu) : cpu := ltac:(set_field eta_cpu c_intena v r).
Definition set_c_intr (v : bool) (r : cpu) : cpu := ltac:(set_field eta_cpu c_intr v r).
Definition set_c_proc (v : option nat) (r : cpu) : cpu := ltac:(set_field eta_cpu c_proc v r).
Definition set_c_esp0 (v : Z) (r : cpu) : cpu := ltac:(set_field eta_cpu c_esp0 v r).
Definition set_c_cr3 (v : Z) (r : cpu) : cpu := ltac:(set_field eta_cpu c_cr3 v r).
Definition set_c_ss0 (v : Z) (r : cpu) : cpu := ltac:(set_field eta_cpu c_ss0 v r).
Definition set_c_iomb (v : Z) (r : cpu) : cpu := ltac:(set_field eta_cpu c_iomb v r).
Definition set_c_tr (v : Z) (r : cpu) : cpu := ltac:(set_field eta_cpu c_tr v r).
Definition set_c_gdt (v : list segdesc) (r : cpu) : cpu := ltac:(set_field eta_cpu c_gdt v r).
Definition set_c_idtr (v : list Z) (r : cpu) : cpu := ltac:(set_field eta_cpu c_idtr v r).
Definition set_c_tsaddr (v : Z) (r : cpu) : cpu := ltac:(set_field eta_cpu c_tsaddr v r).

Lemma cpu_ext (c c' : cpu) :
  c_ncli c = c_ncli c' →
  c_intena c = c_intena c' →
  c_intr c = c_intr c' →
  c_proc c = c_proc c' →
  c_esp0 c = c_esp0 c' →
  c_cr3 c = c_cr3 c' →
  c_ss0 c = c_ss0 c' →
  c_iomb c = c_iomb c' →
  c_tr c = c_tr c' →
  c_gdt c = c_gdt c' →
  c_tsaddr c = c_tsaddr c' →
  c_id c = c_id c' →
  c_cr2 c = c_cr2 c' →
  c_idtr c = c_idtr c' →
  c = c'.
Proof. destruct c, c'; simpl. intros. by subst. Qed.

(** ** Files, inodes, buffers, the log: [file.h], [fs.h], [buf.h], [log.c] *)

Inductive filetype := FD_NONE | FD_PIPE | FD_INODE.
#[global] Instance filetype_eq_dec : EqDecision filetype.
Proof. solve_decision. Defined.

(** [struct sleeplock]; its spin lock [lk] is [LK_sleep]. *)
Record sleeplock := mk_sleeplock {
  sl_locked : bool;
  sl_pid : Z
}.
Definition eta_sleeplock (r : sleeplock) : sleeplock := mk_sleeplock
    (sl_locked r) (sl_pid r).
Definition set_sl_locked (v : bool) (r : sleeplock) : sleeplock := ltac:(set_field eta_sleeplock sl_locked v r).
Definition set_sl_pid (v : Z) (r : sleeplock) : sleeplock := ltac:(set_field eta_sleeplock sl_pid v r).

(** [struct file] of file.h. *)
Record file := mk_file {
  f_type : filetype;
  f_ref : Z;
  f_readable : bool;
  f_writable : bool;
  f_pipe : Z;
  f_ip : option nat;
  f_off : Z
}.
Definition eta_file (r : file) : file := mk_file (f_type r) (f_ref r)
    (f_readable r) (f_writable r) (f_pipe r) (f_ip r) (f_off r).
Definition set_f_type (v : filetype) (r : file) : file := ltac:(set_field eta_file f_type v r).
Definition set_f_ref (v : Z) (r : file) : file := ltac:(set_field eta_file f_ref v r).
Definition set_f_readable (v : bool) (r : file) : file := ltac:(set_field eta_file f_readable v r).
Definition set_f_writable (v : bool) (r : file) : file := ltac:(set_field eta_file f_writable v r).
Definition set_f_pipe (v : Z) (r : file) : file := ltac:(set_field eta_file f_pipe v r).
Definition set_f_ip (v : option nat) (r : file) : file := ltac:(set_field eta_file f_ip v r).
Definition set_f_off (v : Z) (r : file) : file := ltac:(set_field eta_file f_off v r).

(** [struct inode] of file.h. *)
Record inode := mk_inode {
  i_dev : Z;
  i_inum : Z;
  i_ref : Z;
  i_lock : sleeplock;
  i_valid : bool;
  i_type : Z;
  i_major : Z;
  i_minor : Z;
  i_nlink : Z;
  i_size : Z;
  i_addrs : list Z  (** NDIRECT+1 block numbers *)
}.
Definition eta_inode (r : inode) : inode := mk_inode (i_dev r) (i_inum r)
    (i_ref r) (i_lock r) (i_valid r) (i_type r) (i_major r) (i_minor r)
    (i_nlink r) (i_size r) (i_addrs r).
Definition set_i_dev (v : Z) (r : inode) : inode := ltac:(set_field eta_inode i_dev v r).
Definition set_i_inum (v : Z) (r : inode) : inode := ltac:(set_field eta_inode i_inum v r).
Definition set_i_ref (v : Z) (r : inode) : inode := ltac:(set_field eta_inode i_ref v r).
Definition set_i_lock (v : sleeplock) (r : inode) : inode := ltac:(set_field eta_inode i_lock v r).
Definition set_i_valid (v : bool) (r : inode) : inode := ltac:(set_field eta_inode i_valid v r).
Definition set_i_type (v : Z) (r : inode) : inode := ltac:(set_field eta_inode i_type v r).
Definition set_i_major (v : Z) (r : inode) : inode := ltac:(set_field eta_inode i_major v r).
Definition set_i_minor (v : Z) (r : inode) : inode := ltac:(set_field eta_inode i_minor v r).
Definition set_i_nlink (v : Z) (r : inode) : inode := ltac:(set_field eta_inode i_nlink v r).
Definition set_i_size (v : Z) (r : inode) : inode := ltac:(set_field eta_inode i_size v r).
Definition set_i_addrs (v : list Z) (r : inode) : inode := ltac:(set_field eta_inode i_addrs v r).

(** [struct buf] of buf.h; [prev] and [next] are indices into [bcache]. *)
Record buf := mk_buf {
  b_flags : Z;
  b_dev : Z;
  b_blockno : Z;
  b_lock : sleeplock;
  b_refcnt : Z;
  b_prev : nat;
  b_next : nat;
  b_qnext : option nat;
  b_data : list Z  (** BSIZE bytes *)
}.
Definition eta_buf (r : buf) : buf := mk_buf (b_flags r) (b_dev r)
    (b_blockno r) (b_lock r) (b_refcnt r) (b_prev r) (b_next r) (b_qnext r)
    (b_data r).
Definition set_b_flags (v : Z) (r : buf) : buf := ltac:(set_field eta_buf b_flags v r).
Definition set_b_dev (v : Z) (r : buf) : buf := ltac:(set_field eta_buf b_dev v r).
Definition set_b_blockno (v : Z) (r : buf) : buf := ltac:(set_field eta_buf b_blockno v r).
Definition set_b_lock (v : sleeplock) (r : buf) : buf := ltac:(set_field eta_buf b_lock v r).
Definition set_b_refcnt (v : Z) (r : buf) : buf := ltac:(set_field eta_buf b_refcnt v r).
Definition set_b_prev (v : nat) (r : buf) : buf := ltac:(set_field eta_buf b_prev v r).
Definition set_b_next (v : nat) (r : buf) : buf := ltac:(set_field eta_buf b_next v r).
Definition set_b_qnext (v : option nat) (r : buf) : buf := ltac:(set_field eta_buf b_qnext v r).
Definition set_b_data (v : list Z) (r : buf) : buf := ltac:(set_field eta_buf b_data v r).

(** [struct log] of log.c with its [struct logheader]. *)
Record log := mk_log {
  l_start : Z;
  l_size : Z;
  l_outstanding : Z;
  l_committing : bool;
  l_dev : Z;
  lh_n : Z;
  lh_block : list Z  (** LOGSIZE block numbers *)
}.
Definition eta_log (r : log) : log := mk_log (l_start r) (l_size r)
    (l_outstanding r) (l_committing r) (l_dev r) (lh_n r) (lh_block r).
Definition set_l_start (v : Z) (r : log) : log := ltac:(set_field eta_log l_start v r).
Definition set_l_size (v : Z) (r : log) : log := ltac:(set_field eta_log l_size v r).
Definition set_l_outstanding (v : Z) (r : log) : log := ltac:(set_field eta_log l_outstanding v r).
Definition set_l_committing (v : bool) (r : log) : log := ltac:(set_field eta_log l_committing v r).
Definition set_l_dev (v : Z) (r : log) : log := ltac:(set_field eta_log l_dev v r).
Definition set_lh_n (v : Z) (r : log) : log := ltac:(set_field eta_log lh_n v r).
Definition set_lh_block (v : list Z) (r : log) : log := ltac:(set_field eta_log lh_block v r).

(** [struct superblock] of fs.h. *)
Record superblock := mk_superblock {
  sb_size : Z;
  sb_nblocks : Z;
  sb_ninodes : Z;
  sb_nlog : Z;
  sb_logstart : Z;
  sb_inodestart : Z;
  sb_bmapstart : Z
}.
Definition eta_superblock (r : superblock) : superblock := mk_superblock
    (sb_size r) (sb_nblocks r) (sb_ninodes r) (sb_nlog r) (sb_logstart r)
    (sb_inodestart r) (sb_bmapstart r).
Definition set_sb_size (v : Z) (r : superblock) : superblock := ltac:(set_field eta_superblock sb_size v r).
Definition set_sb_nblocks (v : Z) (r : superblock) : superblock := ltac:(set_field eta_superblock sb_nblocks v r).
Definition set_sb_ninodes (v : Z) (r : superblock) : superblock := ltac:(set_field eta_superblock sb_ninodes v r).
Definition set_sb_nlog (v : Z) (r : superblock) : superblock := ltac:(set_field eta_superblock sb_nlog v r).
Definition set_sb_logstart (v : Z) (r : superblock) : superblock := ltac:(set_field eta_superblock sb_logstart v r).
Definition set_sb_inodestart (v : Z) (r : superblock) : superblock := ltac:(set_field eta_superblock sb_inodestart v r).
Definition set_sb_bmapstart (v : Z) (r : superblock) : superblock := ltac:(set_field eta_superblock sb_bmapstart v r).

(** [struct pipe] of pipe.c. *)
Record pipe := mk_pipe {
  pi_data : list Z;  (** PIPESIZE bytes *)
  pi_nread : Z;
  pi_nwrite : Z;
  pi_readopen : bool;
  pi_writeopen : bool
}.
Definition eta_pipe (r : pipe) : pipe := mk_pipe (pi_data r) (pi_nread r)
    (pi_nwrite r) (pi_readopen r) (pi_writeopen r).
Definition set_pi_data (v : list Z) (r : pipe) : pipe := ltac:(set_field eta_pipe pi_data v r).
Definition set_pi_nread (v : Z) (r : pipe) : pipe := ltac:(set_field eta_pipe pi_nread v r).
Definition set_pi_nwrite (v : Z) (r : pipe) : pipe := ltac:(set_field eta_pipe pi_nwrite v r).
Definition set_pi_readopen (v : bool) (r : pipe) : pipe := ltac:(set_field eta_pipe pi_readopen v r).
Definition set_pi_writeopen (v : bool) (r : pipe) : pipe := ltac:(set_field eta_pipe pi_writeopen v r).

(** The [input] buffer of console.c. *)
Record input := mk_input {
  in_buf : list Z;  (** INPUT_BUF bytes *)
  in_r : Z;
  in_w : Z;
  in_e : Z
}.
Definition eta_input (r : input) : input := mk_input (in_buf r) (in_r r)
    (in_w r) (in_e r).
Definition set_in_buf (v : list Z) (r : input) : input := ltac:(set_field eta_input in_buf v r).
Definition set_in_r (v : Z) (r : input) : input := ltac:(set_field eta_input in_r v r).
Definition set_in_w (v : Z) (r : input) : input := ltac:(set_field eta_input in_w v r).
Definition set_in_e (v : Z) (r : input) : input := ltac:(set_field eta_input in_e v r).

(** An access to a device: to an I/O port ([inb], [outb], [insl], [outsl] of x86.h),
    or to a register that is mapped into memory. *)
Inductive ioevent :=
| IoIn (port v : Z)
| IoOut (port v : Z)
| IoInsl (port : Z) (data : list Z)
| IoOutsl (port : Z) (data : list Z)
| IoLoad (addr v : Z)
| IoStore (addr v : Z).

(** [struct gatedesc] of mmu.h, and the macro [SETGATE]. *)
Record gatedesc := mk_gatedesc {
  gd_off_15_0 : Z;
  gd_cs : Z;
  gd_args : Z;
  gd_rsv1 : Z;
  gd_type : Z;
  gd_s : Z;
  gd_dpl : Z;
  gd_p : Z;
  gd_off_31_16 : Z
}.
Abbreviation STS_IG32 := (0xE)%Z (only parsing).
Abbreviation STS_TG32 := (0xF)%Z (only parsing).
Definition SETGATE (istrap : bool) (sel off d : Z) : gatedesc :=
  mk_gatedesc (Z.land (u32 off) 0xffff) sel 0 0 (if istrap then STS_TG32 else STS_IG32) 0 d 1
    (Z.shiftr (u32 off) 16).

(** The part of [struct cpu] that other processors look at, and the globals of
    mp.c, lapic.c, ioapic.c, trap.c and console.c that concern all processors. *)
Record acpu := mk_acpu {
  a_apicid : Z;
  a_started : Z
}.
Record hw := mk_hw {
  h_lapic : Z;  (** the pointer [lapic] *)
  h_ioapic : Z;  (** the pointer [ioapic] *)
  h_ioapicid : Z;
  h_ncpu : Z;
  h_cpus : list acpu;  (** [cpus[NCPU]] *)
  h_idt : list gatedesc;  (** [idt[256]] *)
  h_panicked : bool  (** [panicked] of console.c *)
}.
Definition eta_hw (r : hw) : hw :=
  mk_hw (h_lapic r) (h_ioapic r) (h_ioapicid r) (h_ncpu r) (h_cpus r) (h_idt r)
    (h_panicked r).
Definition set_h_lapic (v : Z) (r : hw) : hw := ltac:(set_field eta_hw h_lapic v r).
Definition set_h_ioapic (v : Z) (r : hw) : hw := ltac:(set_field eta_hw h_ioapic v r).
Definition set_h_ioapicid (v : Z) (r : hw) : hw := ltac:(set_field eta_hw h_ioapicid v r).
Definition set_h_ncpu (v : Z) (r : hw) : hw := ltac:(set_field eta_hw h_ncpu v r).
Definition set_h_cpus (v : list acpu) (r : hw) : hw := ltac:(set_field eta_hw h_cpus v r).
Definition set_h_idt (v : list gatedesc) (r : hw) : hw := ltac:(set_field eta_hw h_idt v r).

(** ** The kernel: its global variables *)

(** The global variables of the kernel, and the devices it drives. *)
Record kernel := mk_kernel {
  k_cpu : cpu;  (** the processor that executes ([*mycpu()]) *)
  k_held : list lockid;  (** the spin locks this processor holds *)
  k_ptable : list proc;  (** [ptable.proc], NPROC slots *)
  k_initproc : option nat;
  k_nextpid : Z;
  k_qu : list (list (option nat));  (** [qu[5][NPROC]] *)
  k_qindex : list Z;  (** [q_index[5]] *)
  k_ticks : Z;
  k_first : bool;  (** [forkret]'s static [first] *)
  k_nswtch : nat;  (** context switches so far (a clock for [swtch]) *)
  k_out : list Z;  (** the characters on the console, latest first *)
  k_locking : bool;  (** [cons.locking] *)
  k_kpgdir : Z;
  k_use_lock : bool;  (** [kmem.use_lock] *)
  k_freelist : Z;  (** [kmem.freelist] *)
  k_mem : gmap Z Z;  (** physical memory: bytes by kernel virtual address *)
  k_ftable : list file;  (** [ftable.file], NFILE entries *)
  k_pipes : gmap Z pipe;  (** the pipes, by the address of their page *)
  k_icache : list inode;  (** [icache.inode], NINODE entries *)
  k_bcache : list buf;  (** [bcache.buf], NBUF buffers, then [bcache.head] *)
  k_log : log;
  k_sb : superblock;  (** the global [sb] of fs.c *)
  k_idequeue : option nat;
  k_havedisk1 : bool;
  k_disk : list (list Z);  (** the blocks of the disk *)
  k_dwrites : list (Z * list Z);  (** the block writes issued so far, latest first *)
  k_input : input;  (** console input *)
  k_io : list ioevent;  (** the port accesses so far, latest first *)
  k_devsw : list bool;  (** [devsw[NDEV]]: has [consoleinit] installed the console there? *)
  k_kbdshift : Z;  (** [kbdgetc]'s static [shift] *)
  k_uart : bool;  (** is there a serial port? *)
  k_hw : hw  (** processors and interrupt controllers *)
}.
Definition eta_kernel (r : kernel) : kernel := mk_kernel (k_cpu r) (k_held r)
    (k_ptable r) (k_initproc r) (k_nextpid r) (k_qu r) (k_qindex r)
    (k_ticks r) (k_first r) (k_nswtch r) (k_out r) (k_locking r) (k_kpgdir r) (k_use_lock r)
    (k_freelist r) (k_mem r) (k_ftable r) (k_pipes r) (k_icache r)
    (k_bcache r) (k_log r) (k_sb r) (k_idequeue r) (k_havedisk1 r) (k_disk r)
    (k_dwrites r) (k_input r) (k_io r) (k_devsw r)
    (k_kbdshift r) (k_uart r) (k_hw r).
Definition set_k_cpu (v : cpu) (r : kernel) : kernel := ltac:(set_field eta_kernel k_cpu v r).
Definition set_k_held (v : list lockid) (r : kernel) : kernel := ltac:(set_field eta_kernel k_held v r).
Definition set_k_ptable (v : list proc) (r : kernel) : kernel := ltac:(set_field eta_kernel k_ptable v r).
Definition set_k_initproc (v : option nat) (r : kernel) : kernel := ltac:(set_field eta_kernel k_initproc v r).
Definition set_k_nextpid (v : Z) (r : kernel) : kernel := ltac:(set_field eta_kernel k_nextpid v r).
Definition set_k_qu (v : list (list (option nat))) (r : kernel) : kernel := ltac:(set_field eta_kernel k_qu v r).
Definition set_k_qindex (v : list Z) (r : kernel) : kernel := ltac:(set_field eta_kernel k_qindex v r).
Definition set_k_ticks (v : Z) (r : kernel) : kernel := ltac:(set_field eta_kernel k_ticks v r).
Definition set_k_first (v : bool) (r : kernel) : kernel := ltac:(set_field eta_kernel k_first v r).
Definition set_k_nswtch (v : nat) (r : kernel) : kernel := ltac:(set_field eta_kernel k_nswtch v r).
Definition set_k_out (v : list Z) (r : kernel) : kernel := ltac:(set_field eta_kernel k_out v r).
Definition set_k_locking (v : bool) (r : kernel) : kernel := ltac:(set_field eta_kernel k_locking v r).
Definition set_k_kpgdir (v : Z) (r : kernel) : kernel := ltac:(set_field eta_kernel k_kpgdir v r).
Definition set_k_use_lock (v : bool) (r : kernel) : kernel := ltac:(set_field eta_kernel k_use_lock v r).
Definition set_k_freelist (v : Z) (r : kernel) : kernel := ltac:(set_field eta_kernel k_freelist v r).
Definition set_k_mem (v : gmap Z Z) (r : kernel) : kernel := ltac:(set_field eta_kernel k_mem v r).
Definition set_k_ftable (v : list file) (r : kernel) : kernel := ltac:(set_field eta_kernel k_ftable v r).
Definition set_k_pipes (v : gmap Z pipe) (r : kernel) : kernel := ltac:(set_field eta_kernel k_pipes v r).
Definition set_k_icache (v : list inode) (r : kernel) : kernel := ltac:(set_field eta_kernel k_icache v r).
Definition set_k_bcache (v : list buf) (r : kernel) : kernel := ltac:(set_field eta_kernel k_bcache v r).
Definition set_k_log (v : log) (r : kernel) : kernel := ltac:(set_field eta_kernel k_log v r).
Definition set_k_sb (v : superblock) (r : kernel) : kernel := ltac:(set_field eta_kernel k_sb v r).
Definition set_k_idequeue (v : option nat) (r : kernel) : kernel := ltac:(set_field eta_kernel k_idequeue v r).
Definition set_k_havedisk1 (v : bool) (r : kernel) : kernel := ltac:(set_field eta_kernel k_havedisk1 v r).
Definition set_k_disk (v : list (list Z)) (r : kernel) : kernel := ltac:(set_field eta_kernel k_disk v r).
Definition set_k_dwrites (v : list (Z * list Z)) (r : kernel) : kernel := ltac:(set_field eta_kernel k_dwrites v r).
Definition set_k_devsw (v : list bool) (r : kernel) : kernel := ltac:(set_field eta_kernel k_devsw v r).
Definition set_k_kbdshift (v : Z) (r : kernel) : kernel := ltac:(set_field eta_kernel k_kbdshift v r).
Definition set_k_uart (v : bool) (r : kernel) : kernel := ltac:(set_field eta_kernel k_uart v r).
Definition set_k_hw (v : hw) (r : kernel) : kernel := ltac:(set_field eta_kernel k_hw v r).
Definition set_k_io (v : list ioevent) (r : kernel) : kernel := ltac:(set_field eta_kernel k_io v r).
Definition set_k_input (v : input) (r : kernel) : kernel := ltac:(set_field eta_kernel k_input v r).

(** Every C function of the kernel is a [K] computation. *)
Abbreviation K := (M kernel).

Local Open Scope kernel_scope.

(** ** Interrupt nesting and spin locks, as the running processor sees them

    [c_intr] is the FL_IF bit; [k_held] lists the spin locks whose [cpu] field is
    this processor.  The locks themselves ([xchg], spinning, several processors)
    are the subject of [Spinlock], which proves that its locks behave this way. *)

Definition upd_cpu (f : cpu → cpu) : K unit :=
  modify (λ s, set_k_cpu (f (k_cpu s)) s).
Definition cli : K unit := upd_cpu (set_c_intr false).
Definition sti : K unit := upd_cpu (set_c_intr true).
Definition readeflags_if : K bool := gets (λ s, c_intr (k_cpu s)).
(** [mycpu] up to its search: [k_cpu] is the entry of [cpus] that the search by APIC id
    finds on this processor ([Apic.mycpu_search]). *)
Definition mycpu : K cpu :=
  let! i := readeflags_if in
  if i then panic "mycpu called with interrupts enabled\n"
  else gets k_cpu.

Definition pushcli : K unit :=
  let! eflags := readeflags_if in
  cli ;;
  let! c := mycpu in
  when (c_ncli c =? 0)%Z (upd_cpu (set_c_intena eflags)) ;;
  upd_cpu (λ c, set_c_ncli (c_ncli c + 1)%Z c).

Definition popcli : K unit :=
  let! i := readeflags_if in
  if i then panic "popcli - interruptible"
  else
    upd_cpu (λ c, set_c_ncli (c_ncli c - 1)%Z c) ;;
    let! c := mycpu in
    if (c_ncli c <? 0)%Z then panic "popcli"
    else when ((c_ncli c =? 0)%Z && c_intena c) sti.

Definition holding (l : lockid) : K bool :=
  pushcli ;;
  let! r := gets (λ s, bool_decide (l ∈ k_held s)) in
  popcli ;;
  ret r.

(** [acquire] as its caller sees it: the loop on [xchg] waits until no other processor has
    the lock, and has no effect on what this one sees.  The loop itself, on several
    processors and one access at a time, is in [Spinlock], with the proof that it refines
    this definition. *)
Definition acquire (l : lockid) : K unit :=
  pushcli ;;
  let! h := holding l in
  if h then panic "acquire"
  else modify (λ s, set_k_held (l :: k_held s) s).

Definition release (l : lockid) : K unit :=
  let! h := holding l in
  if negb h then panic "release"
  else
    modify (λ s, set_k_held (filter (λ l', l' ≠ l) (k_held s)) s) ;;
    popcli.

(** [cprintf]: the text goes to the console, under [cons.lock] once [consoleinit]
    has set [cons.locking]. *)
Definition cprintf (fmt : string) (args : list printarg) : K unit :=
  let! locking := gets k_locking in
  when locking (acquire LK_cons) ;;
  modify (λ s, set_k_out (rev (cprintf_chars (chars fmt) args) ++ k_out s) s) ;;
  when locking (release LK_cons).

(** ** What the model is parametric in

    [SCHEDULER] is the build's scheduler.  [swtch_env] is what the rest of the
    machine does between a [swtch] and the moment control comes back to the code
    that called it: other kernel threads and interrupt handlers, on this and on
    other processors.  [FUEL] bounds the iterations of the loops that wait for
    another thread or for a device.  [KEND] and the other capitals below it are
    addresses and sizes that the linker fixes, and [vectors] the table that
    vectors.pl generates.  [port_in], [port_insl] and [mmio_in] are the devices
    behind the I/O ports and the memory-mapped registers: what a read returns
    after the given accesses, and for [port_insl] the bytes that are ready.  [spin_env] is what the other processors do during
    one iteration of a loop in which this one waits for them. *)
Class Env := {
  SCHEDULER : sched_kind;
  swtch_env : kernel → kernel;
  FUEL : nat;
  KEND : Z;  (** the linker symbol [end] *)
  KDATA : Z;  (** the linker symbol [data] *)
  INITCODE : Z;  (** the linker symbol [_binary_initcode_start] *)
  INITCODE_SIZE : Z;  (** [_binary_initcode_size] *)
  TRAPRET : Z;  (** the address of [trapret] (trapasm.S) *)
  FORKRET : Z;  (** the address of [forkret] *)
  DRIVER : disk_driver;
  port_in : Z → list ioevent → Z;
  port_insl : Z → list ioevent → list Z;
  mmio_in : Z → list ioevent → Z;
  spin_env : kernel → kernel;
  IDT : Z;  (** the address of [idt] *)
  vectors : list Z;  (** the table of vectors.S *)
  MPENTER : Z;  (** the address of [mpenter] *)
  ENTRYOTHER : Z;  (** the linker symbol [_binary_entryother_start] *)
  ENTRYOTHER_SIZE : Z;  (** [_binary_entryother_size] *)
  ENTRYPGDIR : Z;  (** the address of [entrypgdir] *)
}.
Definition is_sched `{Env} (k : sched_kind) : bool := bool_decide (SCHEDULER = k).

(** [swtch] of swtch.S: save this context, run others, come back. *)
Definition swtch `{Env} : K unit :=
  modify (λ s, swtch_env (set_k_nswtch (S (k_nswtch s)) s)).

(** ** Access to the process table *)

Definition proc_at (i : nat) : K proc := λ s,
  match k_ptable s !! i with
  | Some p => Ok p s
  | None => Undef "process pointer"
  end.
Definition upd_proc (i : nat) (f : proc → proc) : K unit := λ s,
  match k_ptable s !! i with
  | Some p => Ok tt (set_k_ptable (<[i := f p]> (k_ptable s)) s)
  | None => Undef "process pointer"
  end.
(** The slots, in the order the [for(p = ptable.proc; ...; p++)] loops visit. *)
Definition slots : list nat := seq 0 NPROC.

(** ** The primitives' effect on the processor *)

Definition cpu_push (c : cpu) : cpu :=
  set_c_ncli (c_ncli c + 1)%Z
    (set_c_intena (if (c_ncli c =? 0)%Z then c_intr c else c_intena c)
       (set_c_intr false c)).
Definition cpu_pop (c : cpu) : cpu :=
  set_c_intr (if (c_ncli c =? 1)%Z then c_intena c else c_intr c)
    (set_c_ncli (c_ncli c - 1)%Z c).

(** The discipline every kernel path obeys: one [pushcli] level per held lock,
    and interrupts off while any lock is held. *)
Record cpu_ok (s : kernel) : Prop := mk_cpu_ok {
  ok_ncli : c_ncli (k_cpu s) = Z.of_nat (length (k_held s));
  ok_intr : k_held s ≠ [] → c_intr (k_cpu s) = false;
  ok_nodup : NoDup (k_held s);
}.

Definition locked (l : lockid) (s : kernel) : kernel :=
  set_k_held (l :: k_held s) (set_k_cpu (cpu_push (k_cpu s)) s).
Definition unlocked (l : lockid) (s : kernel) : kernel :=
  set_k_held (filter (λ l', l' ≠ l) (k_held s)) (set_k_cpu (cpu_pop (k_cpu s)) s).
(** [pushcli] then [popcli]: only [intena] may change. *)
Definition touched (s : kernel) : kernel :=
  set_k_cpu (cpu_pop (cpu_push (k_cpu s))) s.

Section primitives.
Implicit Types s : kernel.

Lemma pushcli_eq s : pushcli s = Ok tt (set_k_cpu (cpu_push (k_cpu s)) s).
Proof.
  unfold pushcli, bind, readeflags_if, gets, cli, upd_cpu, modify, mycpu, when, cpu_push.
  simpl. destruct (c_ncli (k_cpu s) =? 0)%Z; reflexivity.
Qed.

Lemma mycpu_eq s : c_intr (k_cpu s) = false → mycpu s = Ok (k_cpu s) s.
Proof. intros Hi. unfold mycpu. erewrite bind_Ok by done. by rewrite Hi. Qed.

Lemma popcli_eq s :
  c_intr (k_cpu s) = false → (1 ≤ c_ncli (k_cpu s))%Z →
  popcli s = Ok tt (set_k_cpu (cpu_pop (k_cpu s)) s).
Proof.
  intros Hi Hn. unfold popcli. erewrite bind_Ok by done. rewrite Hi.
  erewrite bind_Ok by done. erewrite bind_Ok by (by apply mycpu_eq). simpl.
  destruct (Z.ltb_spec (c_ncli (k_cpu s) - 1) 0); [lia|]. unfold cpu_pop.
  destruct (Z.eqb_spec (c_ncli (k_cpu s) - 1) 0), (Z.eqb_spec (c_ncli (k_cpu s)) 1);
    simpl; try lia; [destruct (c_intena (k_cpu s)) eqn:E|];
    unfold when, ret, sti, upd_cpu, modify; f_equal; simpl.
  unfold set_k_cpu; simpl. f_equal. by apply cpu_ext; simpl.
Qed.

Lemma holding_eq l s :
  (0 ≤ c_ncli (k_cpu s))%Z →
  holding l s = Ok (bool_decide (l ∈ k_held s)) (touched s).
Proof.
  intros Hn. unfold holding, bind at 1. rewrite pushcli_eq. unfold bind at 1, gets.
  unfold bind. rewrite popcli_eq; [|done|simpl; lia]. done.
Qed.

Lemma cpu_pop_push_push c :
  (0 ≤ c_ncli c)%Z → cpu_pop (cpu_push (cpu_push c)) = cpu_push c.
Proof.
  intros Hn. apply cpu_ext; simpl; try done.
  - lia.
  - by destruct (Z.eqb_spec (c_ncli c + 1) 0); [lia|].
  - by destruct (Z.eqb_spec (c_ncli c + 1 + 1) 1); [lia|].
Qed.

Lemma cpu_pop_push c :
  (0 < c_ncli c)%Z → c_intr c = false → cpu_pop (cpu_push c) = c.
Proof.
  intros Hn Hi. apply cpu_ext; simpl; try done.
  - lia.
  - by destruct (Z.eqb_spec (c_ncli c) 0); [lia|].
  - by destruct (Z.eqb_spec (c_ncli c + 1) 1); [lia|].
Qed.

Lemma set_k_cpu_id s : set_k_cpu (k_cpu s) s = s.
Proof. by destruct s. Qed.

Lemma touched_held s :
  cpu_ok s → k_held s ≠ [] → touched s = s.
Proof.
  intros [Hn Hi _] Hh. unfold touched. rewrite cpu_pop_push; [apply set_k_cpu_id| |by apply Hi].
  rewrite Hn. destruct (k_held s); [done|]. simpl. lia.
Qed.

Lemma acquire_eq l s :
  cpu_ok s → l ∉ k_held s → acquire l s = Ok tt (locked l s).
Proof.
  intros [Hn Hi _] Hl. unfold acquire, bind at 1. rewrite pushcli_eq.
  unfold bind. rewrite holding_eq by (simpl; lia). simpl.
  rewrite bool_decide_eq_false_2 by done. unfold modify, locked, touched. simpl.
  rewrite cpu_pop_push_push by lia. done.
Qed.

Lemma release_eq l s :
  cpu_ok s → l ∈ k_held s → release l s = Ok tt (unlocked l s).
Proof.
  intros Hok Hl. pose proof Hok as [Hn Hi _].
  assert (Hh : k_held s ≠ []) by (by intros E; rewrite E in Hl; inversion Hl).
  unfold release, bind at 1. rewrite holding_eq by lia.
  rewrite touched_held by done. rewrite bool_decide_eq_true_2 by done. simpl.
  unfold bind, modify. rewrite popcli_eq; [done|by apply Hi|].
  simpl. rewrite Hn. destruct (k_held s); [done|]. simpl. lia.
Qed.

Lemma cpu_ok_locked l s : cpu_ok s → l ∉ k_held s → cpu_ok (locked l s).
Proof.
  intros [Hn Hi Hd] Hl. split; simpl; [lia|done|by constructor].
Qed.

Lemma cpu_ok_touched s : cpu_ok s → cpu_ok (touched s).
Proof.
  intros Hok. destruct (decide (k_held s = [])) as [E|E].
  - destruct Hok as [Hn Hi Hd]. split; simpl; rewrite ?E in *; simpl in *; [lia|done|done].
  - by rewrite touched_held.
Qed.

Lemma filter_ne_id (l : lockid) (h : list lockid) :
  l ∉ h → filter (λ l', l' ≠ l) h = h.
Proof.
  induction h as [|x h IH]; intros Hl; [done|].
  apply not_elem_of_cons in Hl as [Hx Hl].
  rewrite filter_cons_True by done. by rewrite IH.
Qed.

Lemma length_filter_ne (l : lockid) (h : list lockid) :
  NoDup h → l ∈ h → S (length (filter (λ l', l' ≠ l) h)) = length h.
Proof.
  induction 1 as [|x h Hx Hd IH]; intros Hl; [by inversion Hl|].
  destruct (decide (x = l)) as [->|Hne].
  - rewrite filter_cons_False by naive_solver. by rewrite filter_ne_id.
  - apply elem_of_cons in Hl as [?|Hl]; [done|].
    rewrite filter_cons_True by done. simpl. by rewrite IH.
Qed.

Lemma cpu_ok_unlocked l s : cpu_ok s → l ∈ k_held s → cpu_ok (unlocked l s).
Proof.
  intros [Hn Hi Hd] Hl.
  assert (Hh : k_held s ≠ []) by (by intros E; rewrite E in Hl; inversion Hl).
  split; simpl.
  - rewrite Hn. pose proof (length_filter_ne l _ Hd Hl). lia.
  - intros Hf. rewrite Hn. destruct (Z.eqb_spec (Z.of_nat (length (k_held s))) 1) as [E|].
    + exfalso. apply Hf. destruct (k_held s) as [|x [|]]; simpl in *; try lia.
      apply list_elem_of_singleton in Hl as ->. by rewrite filter_cons_False by naive_solver.
    + by apply Hi.
  - by apply NoDup_filter.
Qed.

(** Leaving the critical section that [acquire l] opened. *)
Lemma unlocked_top l s h :
  k_held s = l :: h → l ∉ h →
  unlocked l s = set_k_held h (set_k_cpu (cpu_pop (k_cpu s)) s).
Proof.
  intros E Hl. unfold unlocked. rewrite E, filter_cons_False by naive_solver.
  by rewrite filter_ne_id.
Qed.

Lemma release_top l s h :
  cpu_ok s → k_held s = l :: h →
  release l s = Ok tt (set_k_held h (set_k_cpu (cpu_pop (k_cpu s)) s)).
Proof.
  intros Hok E. pose proof Hok as [_ _ Hd]. rewrite E in Hd. apply NoDup_cons in Hd as [Hl _].
  rewrite release_eq by (done || rewrite E; set_solver). by erewrite unlocked_top.
Qed.

Lemma cpu_ok_same s s' : cpu_ok s → k_cpu s' = k_cpu s → k_held s' = k_held s → cpu_ok s'.
Proof. intros [? ? ?] E1 E2. split; by rewrite ?E1, ?E2. Qed.

(** A critical section that is guarded by a run-time flag, as those of [kmem.lock]
    and [cons.lock] are. *)
Definition lock_in (b : bool) (l : lockid) (s : kernel) : kernel :=
  if b then locked l s else s.
Definition lock_pair (b : bool) (s : kernel) : kernel := if b then touched s else s.

Lemma when_acquire_eq b l s :
  cpu_ok s → l ∉ k_held s → when b (acquire l) s = Ok tt (lock_in b l s).
Proof. intros Hok Hl. destruct b; [by apply acquire_eq|done]. Qed.

Lemma when_release_eq b l s v :
  cpu_ok s → l ∉ k_held s →
  k_cpu v = k_cpu (lock_in b l s) → k_held v = k_held (lock_in b l s) →
  when b (release l) v =
    Ok tt (set_k_held (k_held s) (set_k_cpu (k_cpu (lock_pair b s)) v)).
Proof.
  intros Hok Hl Hc Hh. destruct b; simpl in *.
  - erewrite release_top; [by rewrite Hc| |exact Hh].
    eapply cpu_ok_same; [by apply cpu_ok_locked|done..].
  - unfold ret. rewrite <-Hc, <-Hh. by destruct v.
Qed.

Lemma cprintf_eq fmt args s :
  cpu_ok s → LK_cons ∉ k_held s →
  cprintf fmt args s = Ok tt (set_k_out (rev (cprintf_chars (chars fmt) args) ++ k_out s)
    (lock_pair (k_locking s) s)).
Proof.
  intros Hok Hl. unfold cprintf. erewrite bind_Ok by done.
  erewrite bind_Ok by by apply when_acquire_eq. erewrite bind_Ok by done.
  rewrite (when_release_eq _ _ s) by done. destruct (k_locking s); [done|]. by destruct s.
Qed.

(** Under another lock, [cprintf] changes the console only. *)
Lemma cprintf_held fmt args s :
  cpu_ok s → LK_cons ∉ k_held s → k_held s ≠ [] →
  cprintf fmt args s = Ok tt (set_k_out (rev (cprintf_chars (chars fmt) args) ++ k_out s) s).
Proof.
  intros Hok Hl Hh. rewrite cprintf_eq by done. unfold lock_pair.
  rewrite touched_held by done. by destruct (k_locking s).
Qed.

Lemma cprintf_held_ex fmt args s :
  cpu_ok s → LK_cons ∉ k_held s → k_held s ≠ [] →
  ∃ out, cprintf fmt args s = Ok tt (set_k_out out s).
Proof. intros Hok Hl Hh. eexists. by apply cprintf_held. Qed.
End primitives.

#[export] Hint Resolve cpu_ok_locked cpu_ok_touched cpu_ok_unlocked : kernel.
