(* ===== verification/Boot.v ===== *)
(** * Boot: the kernel's static data at power-on

    C gives every global its initialiser, or zeroes.  [zero_kernel] is that state;
    the concrete inputs of the development start from it. *)

From stdpp Require Import base numbers gmap strings option list.
From S2P Require Import Prelude Format Machine.
Local Open Scope Z_scope.

Definition zero_segdesc : segdesc := mk_segdesc 0 0 0 0 0 0 0 0 0 0 0 0 0.
Definition zero_cpu : cpu :=
  mk_cpu 0 false false None 0 0 0 0 0 (replicate 6 zero_segdesc) 0 0 0 [].
Definition zero_context : context := mk_context 0 0 0 0 0.
Definition zero_proc : proc :=
  mk_proc 0 0 0 UNUSED 0 None 0 zero_trapframe 0 zero_context None false
    (replicate NOFILE None) None (replicate 16 0) 0 0 0 0 0 0 0 (replicate 5 0) 0 0.
Definition zero_sleeplock : sleeplock := mk_sleeplock false 0.
Definition zero_file : file := mk_file FD_NONE 0 false false 0 None 0.
Definition zero_inode : inode :=
  mk_inode 0 0 0 zero_sleeplock false 0 0 0 0 0 (replicate (S NDIRECT) 0).
Definition zero_buf : buf := mk_buf 0 0 0 zero_sleeplock 0 0 0 None (replicate (Z.to_nat BSIZE) 0).
Definition zero_log : log := mk_log 0 0 0 false 0 0 (replicate (Z.to_nat LOGSIZE) 0).
Definition zero_superblock : superblock := mk_superblock 0 0 0 0 0 0 0.
Definition zero_input : input := mk_input (replicate (Z.to_nat INPUT_BUF) 0) 0 0 0.

Definition zero_gatedesc : gatedesc := mk_gatedesc 0 0 0 0 0 0 0 0 0.
Definition zero_hw : hw :=
  mk_hw 0 0 0 0 (replicate NCPU (mk_acpu 0 0)) (replicate 256 zero_gatedesc) false.

(** [q_index[5] = {-1,-1,-1,-1,-1}], [nextpid = 1], [first = 1]; all else is zero. *)
Definition zero_kernel : kernel :=
  mk_kernel zero_cpu [] (replicate NPROC zero_proc) None 1
    (replicate 5 (replicate NPROC None)) (replicate 5 (-1)) 0 true 0 [] false 0 false 0 ∅
    (replicate NFILE zero_file) ∅ (replicate NINODE zero_inode)
    (replicate (S NBUF) zero_buf) zero_log zero_superblock None false [] [] zero_input []
    (replicate (Z.to_nat NDEV) false) 0 false zero_hw.

(** A build of the kernel with scheduler [k], on an otherwise idle machine with
    silent devices, for concrete runs. *)
Definition sample_env (k : sched_kind) : Env := {|
  SCHEDULER := k;
  swtch_env := id;
  FUEL := 100;
  KEND := 0x80110000;
  KDATA := 0x80108000;
  INITCODE := 0x8010b4e0;
  INITCODE_SIZE := 44;
  TRAPRET := 0x80105c80;
  FORKRET := 0x80103a20;
  DRIVER := MEMIDE;
  port_in _ _ := 0;
  port_insl _ _ := [];
  mmio_in _ _ := 0;
  spin_env := id;
  IDT := 0x80114c80;
  vectors := (λ i, 0x80105ca0 + 9 * i) <$> seqZ 0 256;
  MPENTER := 0x80102e60;
  ENTRYOTHER := 0x8010b48c;
  ENTRYOTHER_SIZE := 0x8a;
  ENTRYPGDIR := 0x80109000;
|}.
