(* ===== verification/Mem.v ===== *)
(** * Mem: memory accesses and string.c

    Bytes and little-endian words of [k_mem], the [rep stos] instructions of
    x86.h, and every function of string.c, translated on kernel addresses; an
    access outside the memory is undefined behaviour.  The lemmas give each
    function's effect as one update of the memory. *)

From stdpp Require Import base numbers gmap strings option list.
From S2P Require Import Prelude Format Machine.
Local Open Scope kernel_scope.
Local Open Scope Z_scope.

(** ** Accesses *)

Definition load8 (a : Z) : K Z := λ s,
  match k_mem s !! a with
  | Some b => Ok b s
  | None => Undef "memory read"
  end.
Definition store8 (a v : Z) : K unit := λ s,
  match k_mem s !! a with
  | Some _ => Ok tt (set_k_mem (<[a := u8 v]> (k_mem s)) s)
  | None => Undef "memory write"
  end.

Definition load32 (a : Z) : K Z :=
  let! b0 := load8 a in
  let! b1 := load8 (a + 1) in
  let! b2 := load8 (a + 2) in
  let! b3 := load8 (a + 3) in
  ret (b0 + 2 ^ 8 * b1 + 2 ^ 16 * b2 + 2 ^ 24 * b3).
Definition store32 (a v : Z) : K unit :=
  store8 a v ;;
  store8 (a + 1) (Z.shiftr v 8) ;;
  store8 (a + 2) (Z.shiftr v 16) ;;
  store8 (a + 3) (Z.shiftr v 24).

(** [rep stosb] and [rep stosl] with the direction flag clear. *)
Definition stosb (addr data cnt : Z) : K unit :=
  for_each (seqZ 0 cnt) (λ i, store8 (addr + i) data).
Definition stosl (addr data cnt : Z) : K unit :=
  for_each (seqZ 0 cnt) (λ i, store32 (addr + 4 * i) data).

(** ** string.c *)

Definition memset (dst c n : Z) : K Z :=
  if (Z.rem (i32 dst) 4 =? 0) && (n mod 4 =? 0) then
    let c := Z.land c 0xFF in
    stosl dst (i32 (Z.lor (Z.lor (Z.lor (Z.shiftl c 24) (Z.shiftl c 16)) (Z.shiftl c 8)) c))
      (n / 4) ;;
    ret dst
  else
    stosb dst c n ;;
    ret dst.

Definition memcmp (v1 v2 n : Z) : K Z :=
  let! r := for_find (seqZ 0 n) (λ i,
    let! b1 := load8 (v1 + i) in
    let! b2 := load8 (v2 + i) in
    ret (if negb (b1 =? b2) then Some (b1 - b2) else None)) in
  ret (default 0 r).

Definition memmove (dst src n : Z) : K Z :=
  if (src <? dst) && (dst <? src + n) then
    for_each (seqZ 0 n) (λ i,
      let! b := load8 (src + n - 1 - i) in
      store8 (dst + n - 1 - i) b) ;;
    ret dst
  else
    for_each (seqZ 0 n) (λ i,
      let! b := load8 (src + i) in
      store8 (dst + i) b) ;;
    ret dst.

Definition memcpy (dst src n : Z) : K Z := memmove dst src n.

(** [while(n > 0 && *p && *p == *q) n--, p++, q++;] leaves at the first position
    where the strings end or differ. *)
Definition strncmp (p q n : Z) : K Z :=
  let! r := for_find (seqZ 0 n) (λ i,
    let! b1 := load8 (p + i) in
    if b1 =? 0 then
      let! b2 := load8 (q + i) in ret (Some (b1 - b2))
    else
      let! b2 := load8 (q + i) in
      ret (if b1 =? b2 then None else Some (b1 - b2))) in
  ret (default 0 r).

(** [while(n-- > 0 && ( *s++ = *t++ ) != 0);]: the count of bytes copied when the
    copy ended with the terminator. *)
Definition strcpy_loop (s t n : Z) : K (option Z) :=
  for_find (seqZ 0 n) (λ i,
    let! b := load8 (t + i) in
    store8 (s + i) b ;;
    ret (if b =? 0 then Some (i + 1) else None)).

Definition strncpy (s t n : Z) : K Z :=
  let! r := strcpy_loop s t n in
  match r with
  | Some k => for_each (seqZ k (n - k)) (λ i, store8 (s + i) 0)
  | None => ret tt
  end ;;
  ret s.

Definition safestrcpy (s t n : Z) : K Z :=
  if n <=? 0 then ret s
  else
    let! r := strcpy_loop s t (n - 1) in
    store8 (s + default (n - 1) r) 0 ;;
    ret s.

(** [for(n = 0; s[n]; n++)]: at most every byte of the memory. *)
Definition strlen (s : Z) : K Z :=
  let! m := gets k_mem in
  loop (S (size m)) (λ n,
    let! b := load8 (s + n) in
    ret (if b =? 0 then inr n else inl (n + 1))) 0.

(** ** Blocks of memory *)

(** The [n] bytes at [a]; [None] when one of them is missing. *)
Definition mem_read (m : gmap Z Z) (a : Z) (n : nat) : option (list Z) :=
  mapM (λ i, m !! (a + Z.of_nat i)) (seq 0 n).

(** The memory after [l] is written at [a]. *)
Fixpoint mem_write (a : Z) (l : list Z) (m : gmap Z Z) : gmap Z Z :=
  match l with
  | [] => m
  | b :: l' => <[a := b]> (mem_write (a + 1) l' m)
  end.

(** The [n] bytes at [a] exist. *)
Definition mapped (m : gmap Z Z) (a n : Z) : Prop :=
  ∀ x, a ≤ x < a + n → is_Some (m !! x).

Lemma lookup_mem_write a l m x :
  mem_write a l m !! x =
    if decide (a ≤ x < a + Z.of_nat (length l)) then l !! Z.to_nat (x - a) else m !! x.
Proof.
  revert a. induction l as [|b l IH]; intros a; simpl.
  { by rewrite decide_False by lia. }
  destruct (decide (x = a)) as [->|Hne].
  - rewrite lookup_insert_eq, decide_True by lia. by rewrite Z.sub_diag.
  - rewrite lookup_insert_ne, IH by done. repeat case_decide; try lia; [|done].
    replace (Z.to_nat (x - a)) with (S (Z.to_nat (x - (a + 1)))) by lia. done.
Qed.

Lemma mem_write_app a l l' m :
  mem_write a (l ++ l') m = mem_write a l (mem_write (a + Z.of_nat (length l)) l' m).
Proof.
  apply map_eq. intros x. rewrite !lookup_mem_write, length_app.
  repeat case_decide; try lia.
  - by rewrite lookup_app_l by lia.
  - rewrite lookup_app_r by lia. f_equal. lia.
  - done.
Qed.

Lemma mem_write_snoc a l b m :
  mem_write a (l ++ [b]) m = <[a + Z.of_nat (length l) := b]> (mem_write a l m).
Proof.
  apply map_eq. intros x. rewrite lookup_insert, !lookup_mem_write, length_app. simpl.
  repeat case_decide; try lia; try done.
  - subst. rewrite lookup_app_r by lia.
    by replace (Z.to_nat _ - length l)%nat with 0%nat by lia.
  - by rewrite lookup_app_l by lia.
Qed.

Lemma mem_write_app_r a l l' m :
  mem_write a (l ++ l') m = mem_write (a + Z.of_nat (length l)) l' (mem_write a l m).
Proof.
  apply map_eq. intros x. rewrite !lookup_mem_write, length_app.
  repeat case_decide; try lia; try done.
  - rewrite lookup_app_r by lia. f_equal. lia.
  - by rewrite lookup_app_l by lia.
Qed.

Lemma mem_read_Some m a n l :
  mem_read m a n = Some l ↔
  length l = n ∧ ∀ i, (i < n)%nat → m !! (a + Z.of_nat i) = l !! i.
Proof.
  unfold mem_read. rewrite mapM_Some, Forall2_lookup. split.
  - intros H. assert (Hl : length l = n).
    { apply Forall2_lookup, Forall2_length in H. by rewrite length_seq in H. }
    split; [done|]. intros i Hi. specialize (H i).
    rewrite lookup_seq_lt in H by done. inversion H as [? ? E|]; by rewrite E.
  - intros [Hl H] i. destruct (decide (i < n)%nat) as [Hi|Hi].
    + rewrite lookup_seq_lt by done.
      destruct (lookup_lt_is_Some_2 l i) as [b Hb]; [lia|].
      rewrite Hb. constructor. simpl. by rewrite H.
    + rewrite lookup_ge_None_2 by (rewrite length_seq; lia).
      rewrite lookup_ge_None_2 by lia. constructor.
Qed.

Lemma mem_read_mapped m a n : mapped m a (Z.of_nat n) → ∃ l, mem_read m a n = Some l.
Proof.
  intros Hm. apply mapM_is_Some_2, Forall_forall. intros i Hi%elem_of_seq. apply Hm. lia.
Qed.

Lemma mapped_write m a l a' n : mapped m a' n → mapped (mem_write a l m) a' n.
Proof.
  intros Hm x Hx. rewrite lookup_mem_write. case_decide; [|by apply Hm].
  apply lookup_lt_is_Some_2. lia.
Qed.

(** ** Effects *)

Definition write (a : Z) (l : list Z) (s : kernel) : kernel :=
  set_k_mem (mem_write a l (k_mem s)) s.

Lemma load8_eq s a b : k_mem s !! a = Some b → load8 a s = Ok b s.
Proof. unfold load8. by intros ->. Qed.

Lemma store8_eq s a v :
  is_Some (k_mem s !! a) → store8 a v s = Ok tt (set_k_mem (<[a := u8 v]> (k_mem s)) s).
Proof. unfold store8. by intros [b ->]. Qed.

Lemma write_nil a s : write a [] s = s.
Proof. by destruct s. Qed.

Lemma write_write a l a' l' s : write a l (write a' l' s) = set_k_mem (mem_write a l (mem_write a' l' (k_mem s))) s.
Proof. done. Qed.

(** One more byte at the end of a block being written. *)
Lemma store8_snoc s a l v :
  is_Some (k_mem s !! (a + Z.of_nat (length l))) →
  store8 (a + Z.of_nat (length l)) v (write a l s) = Ok tt (write a (l ++ [u8 v]) s).
Proof.
  intros Hm. rewrite store8_eq.
  - unfold write. simpl. by rewrite mem_write_snoc.
  - simpl. rewrite lookup_mem_write. case_decide; [lia|done].
Qed.

Lemma stosb_eq s a v (n : nat) :
  mapped (k_mem s) a (Z.of_nat n) →
  stosb a v (Z.of_nat n) s = Ok tt (write a (replicate n (u8 v)) s).
Proof.
  intros Hm. unfold stosb.
  pose proof (for_each_states (seqZ 0 (Z.of_nat n)) (λ i, store8 (a + i) v)
                (λ i, write a (replicate i (u8 v)) s)) as H.
  simpl in H. rewrite write_nil, length_seqZ, Nat2Z.id in H. apply H.
  intros i x [-> Hi]%lookup_seqZ. rewrite Z.add_0_l.
  pose proof (store8_snoc s a (replicate i (u8 v)) v) as Hs. rewrite length_replicate in Hs.
  rewrite Hs by (apply Hm; lia). do 2 f_equal.
  by rewrite <-replicate_S_end.
Qed.

(** The word [memset] hands to [stosl] repeats the byte. *)
Definition splat (c : Z) : Z :=
  i32 (Z.lor (Z.lor (Z.lor (Z.shiftl c 24) (Z.shiftl c 16)) (Z.shiftl c 8)) c).

Lemma splat_bytes c :
  0 ≤ c < 256 →
  u8 (splat c) = c ∧ u8 (Z.shiftr (splat c) 8) = c ∧
  u8 (Z.shiftr (splat c) 16) = c ∧ u8 (Z.shiftr (splat c) 24) = c.
Proof.
  intros Hc.
  assert (H : Forall (λ c, u8 (splat c) = c ∧ u8 (Z.shiftr (splat c) 8) = c ∧
    u8 (Z.shiftr (splat c) 16) = c ∧ u8 (Z.shiftr (splat c) 24) = c) (seqZ 0 256)).
  { apply (bool_decide_unpack _). by vm_compute. }
  rewrite Forall_forall in H. apply H, elem_of_seqZ. lia.
Qed.

(** Little-endian words. *)
Definition bytes32 (v : Z) : list Z :=
  [u8 v; u8 (Z.shiftr v 8); u8 (Z.shiftr v 16); u8 (Z.shiftr v 24)].
Definition word (m : gmap Z Z) (a : Z) : option Z :=
  b0 ← m !! a; b1 ← m !! (a + 1); b2 ← m !! (a + 2); b3 ← m !! (a + 3);
  Some (b0 + 2 ^ 8 * b1 + 2 ^ 16 * b2 + 2 ^ 24 * b3).

Lemma load32_eq s a v : word (k_mem s) a = Some v → load32 a s = Ok v s.
Proof.
  unfold word. intros (b0 & H0 & (b1 & H1 & (b2 & H2 & (b3 & H3 & [= <-])%bind_Some
    )%bind_Some)%bind_Some)%bind_Some.
  unfold load32. by do 4 (erewrite bind_Ok by by apply load8_eq).
Qed.

Lemma word_mapped m a : mapped m a 4 → ∃ v, word m a = Some v.
Proof.
  intros Hm. unfold word. destruct (Hm a) as [b0 ->]; [lia|].
  destruct (Hm (a + 1)) as [b1 ->]; [lia|]. destruct (Hm (a + 2)) as [b2 ->]; [lia|].
  destruct (Hm (a + 3)) as [b3 ->]; [lia|]. by eexists.
Qed.

Lemma bytes32_word v :
  u8 v + 2 ^ 8 * u8 (Z.shiftr v 8) + 2 ^ 16 * u8 (Z.shiftr v 16) + 2 ^ 24 * u8 (Z.shiftr v 24)
  = u32 v.
Proof.
  unfold u8, u32. rewrite !Z.shiftr_div_pow2 by lia.
  change (2 ^ 8) with 256. change (2 ^ 16) with (256 * 256).
  change (2 ^ 24) with (256 * (256 * 256)). change (2 ^ 32) with (256 * (256 * (256 * 256))).
  rewrite !Z.rem_mul_r by lia. rewrite <-!Z.div_div by lia. lia.
Qed.

Lemma word_write_eq m a v : word (mem_write a (bytes32 v) m) a = Some (u32 v).
Proof.
  unfold word. rewrite !lookup_mem_write. simpl length.
  rewrite !decide_True by lia.
  replace (Z.to_nat (a - a)) with 0%nat by lia. replace (Z.to_nat (a + 1 - a)) with 1%nat by lia.
  replace (Z.to_nat (a + 2 - a)) with 2%nat by lia.
  replace (Z.to_nat (a + 3 - a)) with 3%nat by lia.
  cbn -[Z.pow Z.mul Z.add]. by rewrite bytes32_word.
Qed.

Lemma word_write_ne m a a' l :
  a + 4 ≤ a' ∨ a' + Z.of_nat (length l) ≤ a → word (mem_write a' l m) a = word m a.
Proof. intros H. unfold word. rewrite !lookup_mem_write. by rewrite !decide_False by lia. Qed.

Lemma store32_eq s a v :
  mapped (k_mem s) a 4 → store32 a v s = Ok tt (write a (bytes32 v) s).
Proof.
  intros Hm. unfold store32.
  pose proof (store8_snoc s a []) as H0. rewrite write_nil in H0. simpl in H0.
  rewrite Z.add_0_r in H0.
  erewrite bind_Ok by (apply H0, Hm; lia).
  erewrite bind_Ok by (apply (store8_snoc s a [_]), Hm; simpl; lia).
  erewrite bind_Ok by (apply (store8_snoc s a [_; _]), Hm; simpl; lia).
  apply (store8_snoc s a [_; _; _]), Hm; simpl; lia.
Qed.

Lemma stosl_eq s a c (n : nat) :
  0 ≤ c < 256 → mapped (k_mem s) a (4 * Z.of_nat n) →
  stosl a (splat c) (Z.of_nat n) s = Ok tt (write a (replicate (4 * n) c) s).
Proof.
  intros Hc Hm. unfold stosl.
  pose proof (for_each_states (seqZ 0 (Z.of_nat n)) (λ i, store32 (a + 4 * i) (splat c))
                (λ i, write a (replicate (4 * i) c) s)) as H.
  cbv beta in H. change (4 * 0)%nat with 0%nat in H. simpl replicate in H at 3.
  rewrite write_nil, length_seqZ, Nat2Z.id in H. apply H.
  intros i x [-> Hi]%lookup_seqZ. rewrite Z.add_0_l.
  rewrite store32_eq.
  2:{ simpl. apply mapped_write. intros y Hy. apply Hm. lia. }
  unfold bytes32. destruct (splat_bytes c Hc) as (-> & -> & -> & ->).
  replace (4 * S i)%nat with (4 * i + 4)%nat by lia. rewrite replicate_add.
  unfold write. rewrite mem_write_app_r, length_replicate.
  replace (a + 4 * Z.of_nat i) with (a + Z.of_nat (4 * i)) by lia. done.
Qed.

(** [memset] fills the block, by words or by bytes. *)
Lemma memset_eq s a c (n : nat) :
  mapped (k_mem s) a (Z.of_nat n) →
  memset a c (Z.of_nat n) s = Ok a (write a (replicate n (u8 c)) s).
Proof.
  intros Hm. unfold memset.
  destruct (_ && _) eqn:E.
  - apply andb_true_iff in E as [_ E%Z.eqb_eq].
    assert (Hn : n = (4 * Z.to_nat (Z.of_nat n / 4))%nat).
    { pose proof (Z.div_mod (Z.of_nat n) 4). lia. }
    assert (Hc : Z.land c 0xFF = u8 c) by apply (Z.land_ones c 8 ltac:(lia)).
    rewrite Hc. fold (splat (u8 c)).
    replace (Z.of_nat n / 4) with (Z.of_nat (Z.to_nat (Z.of_nat n / 4)))
      by (rewrite Z2Nat.id; [done|]; apply Z.div_pos; lia).
    erewrite bind_Ok.
    2:{ apply stosl_eq; [unfold u8; apply Z.mod_pos_bound; lia|].
        rewrite Hn in Hm. intros x Hx. apply Hm. lia. }
    unfold ret. by rewrite <-Hn.
  - by erewrite bind_Ok by by apply stosb_eq.
Qed.

Lemma load8_write s a l x :
  is_Some (k_mem s !! x) → ¬ (a ≤ x < a + Z.of_nat (length l)) →
  load8 x (write a l s) = Ok (default 0 (k_mem s !! x)) (write a l s).
Proof.
  intros [b Hb] Hx. rewrite Hb. apply load8_eq. simpl. rewrite lookup_mem_write.
  by rewrite decide_False.
Qed.

(** [memmove] copies correctly whether or not the blocks overlap. *)
Lemma memmove_eq s dst src (n : nat) l :
  mapped (k_mem s) dst (Z.of_nat n) → mem_read (k_mem s) src n = Some l →
  (∀ b, b ∈ l → 0 ≤ b < 256) →
  memmove dst src (Z.of_nat n) s = Ok dst (write dst l s).
Proof.
  intros Hd [Hlen Hrd]%mem_read_Some Hb. unfold memmove.
  assert (Hld : ∀ a i, a = src + Z.of_nat i → (i < n)%nat → ∃ b,
    k_mem s !! a = Some b ∧ l !! i = Some b ∧ u8 b = b).
  { intros a i -> Hi. rewrite Hrd by done.
    destruct (lookup_lt_is_Some_2 l i) as [b E]; [lia|]. exists b. split_and!; [done..|].
    apply Z.mod_small, Hb. by eapply list_elem_of_lookup_2. }
  destruct ((src <? dst) && _) eqn:E.
  - apply andb_true_iff in E as [E1%Z.ltb_lt E2%Z.ltb_lt].
    pose proof (for_each_states (seqZ 0 (Z.of_nat n))
      (λ i, let! b := load8 (src + Z.of_nat n - 1 - i) in store8 (dst + Z.of_nat n - 1 - i) b)
      (λ i, write (dst + Z.of_nat (n - i)) (drop (n - i) l) s)) as H.
    simpl in H. rewrite Nat.sub_0_r, length_seqZ, Nat2Z.id, Nat.sub_diag in H.
    rewrite drop_0, Z.add_0_r, <-Hlen, drop_all, write_nil, Hlen in H.
    erewrite bind_Ok; [done|apply H]. intros i x [-> Hi]%lookup_seqZ.
    destruct (Hld (src + Z.of_nat n - 1 - (0 + Z.of_nat i)) (n - 1 - i)%nat) as (b & Hm & Hl & Hu);
      [lia|lia|].
    erewrite bind_Ok.
    2:{ apply load8_eq. simpl. rewrite lookup_mem_write, length_drop.
        rewrite decide_False by lia. exact Hm. }
    rewrite store8_eq.
    2:{ simpl. eapply mapped_write; [exact Hd|lia]. }
    simpl. unfold write. rewrite Hu.
    replace (n - S i)%nat with (n - 1 - i)%nat by lia.
    rewrite (drop_S l b (n - 1 - i)) by done. cbn [mem_write].
    replace (S (n - 1 - i)) with (n - i)%nat by lia.
    replace (dst + Z.of_nat n - 1 - (0 + Z.of_nat i)) with (dst + Z.of_nat (n - 1 - i)) by lia.
    by replace (dst + Z.of_nat (n - 1 - i) + 1) with (dst + Z.of_nat (n - i)) by lia.
  - pose proof (for_each_states (seqZ 0 (Z.of_nat n))
      (λ i, let! b := load8 (src + i) in store8 (dst + i) b)
      (λ i, write dst (take i l) s)) as H.
    simpl in H. rewrite take_0, length_seqZ, Nat2Z.id, <-Hlen, firstn_all, write_nil, Hlen in H.
    erewrite bind_Ok; [done|apply H]. intros i x [-> Hi]%lookup_seqZ.
    destruct (Hld (src + (0 + Z.of_nat i)) i) as (b & Hm & Hl & Hu); [lia|lia|].
    erewrite bind_Ok.
    2:{ apply load8_eq. simpl. rewrite lookup_mem_write, length_take.
        rewrite decide_False; [exact Hm|].
        apply andb_false_iff in E as [E%Z.ltb_ge|E%Z.ltb_ge]; lia. }
    pose proof (store8_snoc s dst (take i l) b) as Hs.
    rewrite length_take, Nat.min_l in Hs by lia. rewrite Z.add_0_l, Hs by (apply Hd; lia).
    by rewrite Hu, <-take_S_r.
Qed.

(** ** Memory with known contents *)

(** [m] has the bytes [l] at [a]. *)
Definition has_bytes (m : gmap Z Z) (a : Z) (l : list Z) : Prop :=
  mem_read m a (length l) = Some l.

Lemma has_bytes_app m a l l' :
  has_bytes m a (l ++ l') ↔ has_bytes m a l ∧ has_bytes m (a + Z.of_nat (length l)) l'.
Proof.
  unfold has_bytes. rewrite !mem_read_Some, length_app. split.
  - intros [_ Hb]. split; (split; [done|]); intros i Hi.
    + rewrite Hb by lia. by rewrite lookup_app_l.
    + rewrite <-Z.add_assoc, <-Nat2Z.inj_add, Hb by lia. rewrite lookup_app_r by lia. f_equal. lia.
  - intros [[_ H1] [_ H2]]. split; [done|]. intros i Hi.
    destruct (decide (i < length l)%nat).
    + rewrite H1 by done. by rewrite lookup_app_l.
    + rewrite lookup_app_r by lia. rewrite <-H2 by lia. f_equal. lia.
Qed.

Lemma has_bytes_load s a l i b :
  has_bytes (k_mem s) a l → l !! i = Some b → load8 (a + Z.of_nat i) s = Ok b s.
Proof.
  intros [_ Hb]%mem_read_Some Hi. apply load8_eq. rewrite Hb; [done|].
  by eapply lookup_lt_Some.
Qed.

Lemma has_bytes_nth s a l i :
  has_bytes (k_mem s) a l → (i < length l)%nat → load8 (a + Z.of_nat i) s = Ok (nth i l 0) s.
Proof.
  intros Hm Hi. destruct (lookup_lt_is_Some_2 l i Hi) as [b Hb].
  rewrite (has_bytes_load s a l i b Hm Hb). f_equal. symmetry. by apply nth_lookup_Some.
Qed.

Lemma mem_write_same m a l : has_bytes m a l → mem_write a l m = m.
Proof.
  intros [_ Hb]%mem_read_Some. apply map_eq. intros x. rewrite lookup_mem_write.
  case_decide as Hx; [|done]. rewrite <-Hb by lia. f_equal. lia.
Qed.

Lemma has_bytes_write m a l : has_bytes (mem_write a l m) a l.
Proof.
  apply mem_read_Some. split; [done|]. intros i Hi. rewrite lookup_mem_write, decide_True by lia.
  f_equal. lia.
Qed.

Lemma has_bytes_mapped m a l : has_bytes m a l → mapped m a (Z.of_nat (length l)).
Proof.
  intros [_ Hb]%mem_read_Some x Hx. replace x with (a + Z.of_nat (Z.to_nat (x - a))) by lia.
  rewrite Hb by lia. apply lookup_lt_is_Some_2. lia.
Qed.

(** A part of a block is overwritten. *)
Lemma mem_write_sub m a pre l old post :
  length l = length old →
  mem_write (a + Z.of_nat (length pre)) l (mem_write a (pre ++ old ++ post) m) =
    mem_write a (pre ++ l ++ post) m.
Proof.
  intros Hl. apply map_eq. intros x. rewrite !lookup_mem_write, !length_app.
  repeat case_decide; try lia; [| |done].
  - rewrite lookup_app_r, lookup_app_l by lia. f_equal. lia.
  - destruct (decide (x < a + Z.of_nat (length pre))).
    + by rewrite !lookup_app_l by lia.
    + rewrite !(lookup_app_r pre) by lia. rewrite !lookup_app_r by lia. by rewrite Hl.
Qed.

Lemma mem_write_over m a l l' : length l = length l' → mem_write a l (mem_write a l' m) = mem_write a l m.
Proof.
  intros Hl. pose proof (mem_write_sub m a [] l l' [] Hl) as E.
  rewrite !app_nil_l, !app_nil_r, Z.add_0_r in E. exact E.
Qed.
