(* ===== verification/Spinlock.v ===== *)
(** * Spinlock: acquire and release on several processors (spinlock.c)

    The other files use a lock as an entry of [k_held]: taken by [acquire], dropped
    by [release].  Here the code of the two functions runs on several processors
    one memory access at a time, on the fields [locked] and [cpu] of one lock, with
    the atomic exchange of x86.h; processors interleave between any two accesses.
    The code keeps one holder at a time, never panics, and refines the lock that
    the other files assume. *)

From stdpp Require Import base numbers gmap strings option list.
From S2P Require Import Prelude Format Machine Boot Mem.

(** Where a processor is in the code: outside, in [acquire], in its critical
    section, or in [release]; [Dead] after a panic. *)
Inductive spin_pc :=
  | Out
  | AcqLocked  (** [holding]: read lk->locked *)
  | AcqOwner   (** [holding]: read lk->cpu *)
  | AcqXchg    (** the loop on [xchg] *)
  | AcqCpu     (** lk->cpu = mycpu() *)
  | Inside
  | RelLocked  (** [holding]: read lk->locked *)
  | RelOwner   (** [holding]: read lk->cpu *)
  | RelCpu     (** lk->cpu = 0 *)
  | RelStore   (** movl $0, lk->locked *)
  | RelPop     (** popcli *)
  | Dead.

#[export] Instance spin_pc_eq : EqDecision spin_pc.
Proof. solve_decision. Defined.

Record spin := mk_spin {
  sp_locked : Z;                   (** lk->locked *)
  sp_cpu : option nat;             (** lk->cpu *)
  sp_thr : list (spin_pc * cpu);   (** the processors *)
}.

(** [initlock], with the processors [cpus] outside the code. *)
Definition initlock (cpus : list cpu) : spin := mk_spin 0 None ((Out,.) <$> cpus).

(** [xchg(addr, newval)]: the old value, and the memory afterwards. *)
Definition xchg (mem newval : Z) : Z * Z := (mem, newval).

(** The next [pc] behind a [popcli], which panics when interrupts are on or when
    there is no [pushcli] to undo. *)
Definition pop_to (pc : spin_pc) (r : cpu) : spin_pc * cpu :=
  if c_intr r || (c_ncli r - 1 <? 0)%Z then (Dead, r) else (pc, cpu_pop r).

(** One access of processor [c] in [acquire]. *)
Definition acquire_step (c : nat) (pc : spin_pc) (r : cpu) (locked : Z) (owner : option nat)
  : (spin_pc * cpu) * Z * option nat :=
  match pc with
  | Out => ((AcqLocked, cpu_push (cpu_push r)), locked, owner)
  | AcqLocked =>
      (if (locked =? 0)%Z then pop_to AcqXchg r else (AcqOwner, r), locked, owner)
  | AcqOwner =>
      (if bool_decide (owner = Some c) then (Dead, r) else pop_to AcqXchg r, locked, owner)
  | AcqXchg =>
      let '(old, locked') := xchg locked 1 in
      (if (old =? 0)%Z then (AcqCpu, r) else (AcqXchg, r), locked', owner)
  | AcqCpu => ((Inside, r), locked, Some c)
  | _ => ((pc, r), locked, owner)
  end.

(** One access of processor [c] in [release]. *)
Definition release_step (c : nat) (pc : spin_pc) (r : cpu) (locked : Z) (owner : option nat)
  : (spin_pc * cpu) * Z * option nat :=
  match pc with
  | Inside => ((RelLocked, cpu_push r), locked, owner)
  | RelLocked =>
      (if (locked =? 0)%Z then (Dead, r) else (RelOwner, r), locked, owner)
  | RelOwner =>
      (if bool_decide (owner = Some c) then pop_to RelCpu r else (Dead, r), locked, owner)
  | RelCpu => ((RelStore, r), locked, None)
  | RelStore => ((RelPop, r), 0%Z, owner)
  | RelPop => (pop_to Out r, locked, owner)
  | _ => ((pc, r), locked, owner)
  end.

Definition in_acquire (pc : spin_pc) : bool :=
  match pc with Out | AcqLocked | AcqOwner | AcqXchg | AcqCpu => true | _ => false end.

(** Processor [c] performs its next access. *)
Definition spin_step (c : nat) (st : spin) : spin :=
  match sp_thr st !! c with
  | None => st
  | Some (pc, r) =>
      let step := if in_acquire pc then acquire_step else release_step in
      let '(t, locked, owner) := step c pc r (sp_locked st) (sp_cpu st) in
      mk_spin locked owner (<[c := t]> (sp_thr st))
  end.

(** The accesses of any schedule of the processors. *)
Definition spin_run (sched : list nat) (st : spin) : spin := foldl (λ st c, spin_step c st) st sched.

(** ** The invariant *)

(** Between the exchange that took the lock and the store that gives it up. *)
Definition owns (pc : spin_pc) : bool :=
  match pc with AcqCpu | Inside | RelLocked | RelOwner | RelCpu | RelStore => true | _ => false end.
(** lk->cpu names this processor. *)
Definition named (pc : spin_pc) : bool :=
  match pc with Inside | RelLocked | RelOwner | RelCpu => true | _ => false end.
(** The depth of [pushcli] that the code itself has added. *)
Definition depth (pc : spin_pc) : Z :=
  match pc with
  | Out | Dead => 0
  | AcqLocked | AcqOwner | RelLocked | RelOwner => 2
  | _ => 1
  end.

Record spin_inv (st : spin) : Prop := {
  spi_dead c r : sp_thr st !! c ≠ Some (Dead, r);
  spi_cpu c pc r : sp_thr st !! c = Some (pc, r) →
    (depth pc ≤ c_ncli r)%Z ∧ ((0 < c_ncli r)%Z → c_intr r = false);
  spi_free : sp_locked st = 0%Z → ∀ c pc r, sp_thr st !! c = Some (pc, r) → owns pc = false;
  spi_one c pc r c' pc' r' : sp_thr st !! c = Some (pc, r) → sp_thr st !! c' = Some (pc', r') →
    owns pc = true → owns pc' = true → c = c';
  spi_held : sp_locked st ≠ 0%Z → ∃ c pc r, sp_thr st !! c = Some (pc, r) ∧ owns pc = true;
  spi_named c : sp_cpu st = Some c ↔ ∃ pc r, sp_thr st !! c = Some (pc, r) ∧ named pc = true;
}.

Lemma named_owns pc : named pc = true → owns pc = true.
Proof. by destruct pc. Qed.

(** A lock-free state names nobody, and one processor is named at a time. *)
Lemma spi_named_one st c pc r d pd rd :
  spin_inv st → sp_thr st !! c = Some (pc, r) → owns pc = true →
  sp_thr st !! d = Some (pd, rd) → named pd = true → d = c.
Proof. intros Hi Hc Ho Hd Hn. eapply (spi_one _ Hi); [exact Hd|exact Hc|by apply named_owns|done]. Qed.

(** One processor moves. *)
Lemma spin_inv_put st c pc r pc' r' locked' :
  spin_inv st → sp_thr st !! c = Some (pc, r) → pc' ≠ Dead →
  (depth pc' ≤ c_ncli r')%Z → ((0 < c_ncli r')%Z → c_intr r' = false) →
  (owns pc' = true → owns pc = true ∨ sp_locked st = 0%Z) →
  (locked' = 0%Z → owns pc' = false ∧ (sp_locked st = 0%Z ∨ owns pc = true)) →
  (locked' ≠ 0%Z → owns pc' = true ∨ sp_locked st ≠ 0%Z ∧ owns pc = owns pc') →
  (named pc' = true → owns pc = true) →
  spin_inv (mk_spin locked' (if named pc' then Some c else if named pc then None else sp_cpu st)
    (<[c := (pc', r')]> (sp_thr st))).
Proof.
  intros Hi Hc Hdead Hd1 Hd2 Hown Hz Hnz Hnm. pose proof (lookup_lt_Some _ _ _ Hc) as Hlt.
  assert (Hlk : ∀ d x, <[c := (pc', r')]> (sp_thr st) !! d = Some x →
    d = c ∧ x = (pc', r') ∨ d ≠ c ∧ sp_thr st !! d = Some x).
  { intros d x. destruct (decide (d = c)) as [->|Hne].
    - rewrite list_lookup_insert_eq by done. intros [= <-]. by left.
    - rewrite list_lookup_insert_ne by done. by right. }
  assert (Hother : ∀ d pd rd, d ≠ c → sp_thr st !! d = Some (pd, rd) → owns pd = true →
    owns pc = false ∧ owns pc' = false).
  { intros d pd rd Hne Hd Ho. assert (Hpc : owns pc = false).
    { destruct (owns pc) eqn:E; [|done]. destruct Hne. by eapply (spi_one _ Hi). }
    split; [done|]. destruct (owns pc') eqn:E; [|done]. destruct (Hown eq_refl) as [?|E0]; [congruence|].
    rewrite (spi_free _ Hi E0 _ _ _ Hd) in Ho. done. }
  split; simpl.
  - intros d rd [[-> [= <- <-]]|[Hne Hd]]%Hlk; [done|]. by eapply (spi_dead _ Hi).
  - intros d pd rd [[-> [= <- <-]]|[Hne Hd]]%Hlk; [done|]. by eapply (spi_cpu _ Hi).
  - intros [Hz1 Hz2]%Hz d pd rd [[-> [= <- <-]]|[Hne Hd]]%Hlk; [done|].
    destruct Hz2 as [Hz2|Hz2]; [by eapply (spi_free _ Hi)|].
    destruct (owns pd) eqn:E; [|done]. destruct (Hother d pd rd); congruence.
  - intros d pd rd e pe re [[-> [= <- <-]]|[Hne Hd]]%Hlk [[-> [= <- <-]]|[Hne' He]]%Hlk Ho Ho';
      [done| | |by eapply (spi_one _ Hi)].
    + destruct (Hother e pe re); congruence.
    + destruct (Hother d pd rd); congruence.
  - intros Hl%Hnz. destruct (decide (owns pc' = true)) as [E|E].
    { exists c, pc', r'. by rewrite list_lookup_insert_eq. }
    destruct Hl as [?|[Hl Eo]]; [done|]. destruct (spi_held _ Hi Hl) as (d & pd & rd & Hd & Ho).
    exists d, pd, rd. rewrite list_lookup_insert_ne; [done|]. intros ->. congruence.
  - assert (Hnone : ∀ d pd rd, named pc' = true ∨ named pc = true → d ≠ c →
      sp_thr st !! d = Some (pd, rd) → named pd = false).
    { intros d pd rd Hn Hne Hd. destruct (named pd) eqn:E; [|done]. destruct Hne.
      eapply spi_named_one; [done|exact Hc| |exact Hd|done].
      destruct Hn as [Hn|Hn]; [by apply Hnm|by apply named_owns]. }
    intros d. destruct (decide (d = c)) as [->|Hne].
    + rewrite list_lookup_insert_eq by done. destruct (named pc') eqn:E'.
      { split; [intros _; by exists pc', r'|done]. }
      split; [|intros (pd & rd & [= <- <-] & Hn); congruence]. destruct (named pc) eqn:E; [done|].
      intros (pd & rd & Hd & Hn)%(spi_named _ Hi). congruence.
    + rewrite list_lookup_insert_ne by done. destruct (named pc') eqn:E'; [|destruct (named pc) eqn:E].
      * split; [congruence|]. intros (pd & rd & Hd & Hn). by rewrite (Hnone d pd rd) in Hn by auto.
      * split; [done|]. intros (pd & rd & Hd & Hn). by rewrite (Hnone d pd rd) in Hn by auto.
      * apply (spi_named _ Hi).
Qed.

(** ** Every access preserves it *)

Lemma pop_to_ok pc r :
  c_intr r = false → (1 ≤ c_ncli r)%Z → pop_to pc r = (pc, cpu_pop r).
Proof.
  intros Hi Hn. unfold pop_to. rewrite Hi. destruct (Z.ltb_spec (c_ncli r - 1) 0); [lia|done].
Qed.

(** The registers after a [pushcli] and after a [popcli]. *)
Lemma cpu_push_intr r : c_intr (cpu_push r) = false.
Proof. done. Qed.
Lemma cpu_pop_intr r :
  (1 ≤ c_ncli r)%Z → c_intr r = false → (0 < c_ncli (cpu_pop r))%Z → c_intr (cpu_pop r) = false.
Proof. intros Hn Hi. simpl. destruct (Z.eqb_spec (c_ncli r) 1); [lia|done]. Qed.

Lemma spin_step_inv c st : spin_inv st → spin_inv (spin_step c st).
Proof.
  intros Hi. unfold spin_step. destruct (sp_thr st !! c) as [[pc r]|] eqn:Hc; [|done].
  pose proof (spi_cpu _ Hi _ _ _ Hc) as [Hd Hintr].
  pose proof (λ E, spi_free _ Hi E _ _ _ Hc) as Hfree.
  assert (Hname : named pc = true → sp_cpu st = Some c).
  { intros Hn. apply (spi_named _ Hi). by exists pc, r. }
  assert (Hunname : sp_cpu st = Some c → named pc = true).
  { intros (pd & rd & Hd' & Hn)%(spi_named _ Hi). congruence. }
  pose proof (λ pc' r' l, spin_inv_put st c pc r pc' r' l Hi Hc) as Hput.
  assert (Hpop := cpu_pop_intr r). assert (Hnc : c_ncli (cpu_pop r) = (c_ncli r - 1)%Z) by done.
  destruct pc; cbn [in_acquire acquire_step release_step depth owns named xchg] in *.
  - apply (Hput AcqLocked); simpl; auto with lia.
  - destruct (Z.eqb_spec (sp_locked st) 0) as [E|E].
    + rewrite pop_to_ok by auto with lia. apply (Hput AcqXchg); simpl; auto with lia.
    + apply (Hput AcqOwner); simpl; auto with lia.
  - rewrite bool_decide_eq_false_2 by (intros ?%Hunname; done).
    rewrite pop_to_ok by auto with lia. apply (Hput AcqXchg); simpl; auto with lia.
  - destruct (Z.eqb_spec (sp_locked st) 0) as [E|E].
    + apply (Hput AcqCpu); simpl; auto with lia.
    + apply (Hput AcqXchg); simpl; auto with lia.
  - apply (Hput Inside); simpl; auto with lia.
  - rewrite Hname by done. apply (Hput RelLocked); simpl; auto with lia.
  - rewrite Hname by done. destruct (Z.eqb_spec (sp_locked st) 0) as [E|E]; [by specialize (Hfree E)|].
    apply (Hput RelOwner); simpl; auto with lia.
  - rewrite Hname by done. rewrite bool_decide_eq_true_2, pop_to_ok by auto with lia.
    apply (Hput RelCpu); simpl; auto with lia.
  - apply (Hput RelStore); simpl; auto with lia.
  - apply (Hput RelPop); simpl; auto with lia.
  - rewrite pop_to_ok by auto with lia. apply (Hput Out); simpl; auto with lia.
  - by destruct (spi_dead _ Hi c r).
Qed.

Lemma spin_run_inv sched st : spin_inv st → spin_inv (spin_run sched st).
Proof.
  revert st. induction sched as [|c sched IH]; intros st Hi; [done|]. by apply IH, spin_step_inv.
Qed.

Lemma spin_run_app l1 l2 st : spin_run (l1 ++ l2) st = spin_run l2 (spin_run l1 st).
Proof. apply foldl_app. Qed.

(** A processor whose interrupts are off whenever its nesting depth is positive. *)
Definition cpu_wf (r : cpu) : Prop := (0 ≤ c_ncli r)%Z ∧ ((0 < c_ncli r)%Z → c_intr r = false).

Lemma initlock_inv cpus : Forall cpu_wf cpus → spin_inv (initlock cpus).
Proof.
  intros Hwf. assert (Hlk : ∀ c pc r, ((Out,.) <$> cpus) !! c = Some (pc, r) → pc = Out ∧ cpu_wf r).
  { intros c pc r (r' & [= -> ->] & Hr)%list_lookup_fmap_Some. rewrite Forall_lookup in Hwf. eauto. }
  split; simpl; try done.
  - by intros c r [? _]%Hlk.
  - by intros c pc r [-> ?]%Hlk.
  - by intros _ c pc r [-> ?]%Hlk.
  - by intros c pc r c' pc' r' [-> ?]%Hlk.
  - intros c. split; [done|]. by intros (pc & r & [-> _]%Hlk & ?).
Qed.

(** ** The abstract lock *)

(** What the rest of the kernel assumes: a lock has at most one holder, a processor
    becomes the holder of a free lock, and only the holder gives it up. *)
Inductive lock_move (c : nat) : option nat → option nat → Prop :=
  | move_take : lock_move c None (Some c)
  | move_drop : lock_move c (Some c) None
  | move_stay h : lock_move c h h.

Definition holder (st : spin) : option nat :=
  fst <$> list_find (λ t, owns (fst t) = true) (sp_thr st).

Lemma holder_Some st c :
  spin_inv st → holder st = Some c ↔ ∃ pc r, sp_thr st !! c = Some (pc, r) ∧ owns pc = true.
Proof.
  intros Hi. unfold holder. rewrite fmap_Some. split.
  - intros ([i [pc r]] & (Hl & Ho & _)%list_find_Some & ->). by exists pc, r.
  - intros (pc & r & Hl & Ho).
    destruct (list_find_elem_of (λ t, owns (fst t) = true) (sp_thr st) (pc, r)) as [[i [pc' r']] Hf];
      [by eapply list_elem_of_lookup_2|done|].
    exists (i, (pc', r')). split; [done|]. apply list_find_Some in Hf as (Hl' & Ho' & _).
    by eapply (spi_one _ Hi).
Qed.

Lemma holder_None st :
  spin_inv st → holder st = None ↔ ∀ c pc r, sp_thr st !! c = Some (pc, r) → owns pc = false.
Proof.
  intros Hi. split.
  - intros Hn c pc r Hc. destruct (owns pc) eqn:E; [|done].
    assert (holder st = Some c) by (apply holder_Some; eauto). congruence.
  - intros Hn. destruct (holder st) as [c|] eqn:E; [|done].
    apply holder_Some in E as (pc & r & Hc & Ho); [|done]. rewrite (Hn c pc r Hc) in Ho. done.
Qed.

Lemma spin_step_thr c st d : d ≠ c → sp_thr (spin_step c st) !! d = sp_thr st !! d.
Proof.
  intros Hne. unfold spin_step. destruct (sp_thr st !! c) as [[pc r]|]; [|done].
  destruct ((if in_acquire pc then _ else _) _ _ _ _ _) as [[t l] o]. simpl.
  by rewrite list_lookup_insert_ne.
Qed.

Lemma holder_move c st : spin_inv st → lock_move c (holder st) (holder (spin_step c st)).
Proof.
  intros Hi. pose proof (spin_step_inv c st Hi) as Hi'.
  assert (Hsame : ∀ d, d ≠ c → holder (spin_step c st) = Some d ↔ holder st = Some d).
  { intros d Hne. rewrite !holder_Some by done. by rewrite spin_step_thr. }
  destruct (holder st) as [d|], (holder (spin_step c st)) as [e|].
  - destruct (decide (d = c)) as [->|Hd].
    + destruct (decide (e = c)) as [->|He]; [constructor|].
      pose proof (proj1 (Hsame e He) eq_refl) as [= ->]. done.
    + pose proof (proj2 (Hsame d Hd) eq_refl) as [= ->]. constructor.
  - destruct (decide (d = c)) as [->|Hd]; [constructor|]. by pose proof (proj2 (Hsame d Hd) eq_refl).
  - destruct (decide (e = c)) as [->|He]; [constructor|]. by pose proof (proj1 (Hsame e He) eq_refl).
  - constructor.
Qed.

(** ** One processor alone *)

Lemma spin_run_step c sched st pc r t l o :
  sp_thr st !! c = Some (pc, r) →
  (if in_acquire pc then acquire_step else release_step) c pc r (sp_locked st) (sp_cpu st) = (t, l, o) →
  spin_run (c :: sched) st = spin_run sched (mk_spin l o (<[c := t]> (sp_thr st))).
Proof. intros Hc E. unfold spin_run. simpl. unfold spin_step at 2. by rewrite Hc, E. Qed.

Lemma spin_enter st c r :
  sp_thr st !! c = Some (Out, r) → sp_locked st = 0%Z → (0 ≤ c_ncli r)%Z →
  spin_run [c; c; c; c] st = mk_spin 1 (Some c) (<[c := (Inside, cpu_push r)]> (sp_thr st)).
Proof.
  intros Hc Hl Hn. pose proof (lookup_lt_Some _ _ _ Hc) as Hlt.
  rewrite (spin_run_step c _ st Out r (AcqLocked, cpu_push (cpu_push r)) 0 (sp_cpu st))
    by (done || simpl; by rewrite Hl).
  rewrite (spin_run_step c _ _ AcqLocked (cpu_push (cpu_push r)) (AcqXchg, cpu_push r) 0 (sp_cpu st)).
  2:{ simpl. by apply list_lookup_insert_eq. }
  2:{ simpl. rewrite pop_to_ok, cpu_pop_push_push by (done || simpl; lia). done. }
  cbn [sp_thr sp_locked sp_cpu]. rewrite list_insert_insert_eq.
  rewrite (spin_run_step c _ _ AcqXchg (cpu_push r) (AcqCpu, cpu_push r) 1 (sp_cpu st)) by
    (done || simpl; by apply list_lookup_insert_eq).
  cbn [sp_thr sp_locked sp_cpu]. rewrite list_insert_insert_eq.
  rewrite (spin_run_step c _ _ AcqCpu (cpu_push r) (Inside, cpu_push r) 1 (Some c)) by
    (done || simpl; by apply list_lookup_insert_eq).
  cbn [sp_thr sp_locked sp_cpu]. by rewrite list_insert_insert_eq.
Qed.

Lemma spin_leave st c r :
  sp_thr st !! c = Some (Inside, r) → sp_locked st = 1%Z → sp_cpu st = Some c →
  (1 ≤ c_ncli r)%Z → c_intr r = false →
  spin_run [c; c; c; c; c; c] st = mk_spin 0 None (<[c := (Out, cpu_pop r)]> (sp_thr st)).
Proof.
  intros Hc Hl Ho Hn Hi. pose proof (lookup_lt_Some _ _ _ Hc) as Hlt.
  assert (Hpp : cpu_pop (cpu_push r) = r) by (apply cpu_pop_push; [lia|done]).
  rewrite (spin_run_step c _ st Inside r (RelLocked, cpu_push r) 1 (Some c))
    by (done || simpl; by rewrite Hl, Ho).
  rewrite (spin_run_step c _ _ RelLocked (cpu_push r) (RelOwner, cpu_push r) 1 (Some c)) by
    (done || simpl; by apply list_lookup_insert_eq).
  cbn [sp_thr sp_locked sp_cpu]. rewrite list_insert_insert_eq.
  rewrite (spin_run_step c _ _ RelOwner (cpu_push r) (RelCpu, r) 1 (Some c)).
  2:{ simpl. by apply list_lookup_insert_eq. }
  2:{ simpl. rewrite bool_decide_eq_true_2, pop_to_ok, Hpp by (done || simpl; lia). done. }
  cbn [sp_thr sp_locked sp_cpu]. rewrite list_insert_insert_eq.
  rewrite (spin_run_step c _ _ RelCpu r (RelStore, r) 1 None) by
    (done || simpl; by apply list_lookup_insert_eq).
  cbn [sp_thr sp_locked sp_cpu]. rewrite list_insert_insert_eq.
  rewrite (spin_run_step c _ _ RelStore r (RelPop, r) 0 None) by
    (done || simpl; by apply list_lookup_insert_eq).
  cbn [sp_thr sp_locked sp_cpu]. rewrite list_insert_insert_eq.
  rewrite (spin_run_step c _ _ RelPop r (Out, cpu_pop r) 0 None).
  2:{ simpl. by apply list_lookup_insert_eq. }
  2:{ simpl. by rewrite pop_to_ok. }
  cbn [sp_thr sp_locked sp_cpu]. by rewrite list_insert_insert_eq.
Qed.

(** ** The claims *)

(** C10.  Mutual exclusion: whatever the schedule, at most one processor is in the
    critical section, its interrupts are off there, and no panic of acquire, release
    or popcli is reached. *)
Theorem spin_mutual_exclusion cpus sched c pc r :
  Forall cpu_wf cpus → sp_thr (spin_run sched (initlock cpus)) !! c = Some (pc, r) →
  pc ≠ Dead ∧ (pc = Inside → c_intr r = false ∧
    ∀ c' r', sp_thr (spin_run sched (initlock cpus)) !! c' = Some (Inside, r') → c' = c).
Proof.
  intros Hwf Hc. pose proof (spin_run_inv sched _ (initlock_inv _ Hwf)) as Hi. split.
  - intros ->. by eapply (spi_dead _ Hi).
  - intros ->. destruct (spi_cpu _ Hi _ _ _ Hc) as [Hn Hintr]. simpl in Hn. split.
    + apply Hintr. lia.
    + intros c' r' Hc'. by eapply (spi_one _ Hi).
Qed.

(** C11.  The code refines the lock of the other files: along any schedule every
    access leaves the holder alone, makes this processor the holder of a free lock,
    or is the holder's giving it up; a processor in its critical section is the
    holder. *)
Theorem spin_refines cpus sched c :
  Forall cpu_wf cpus →
  let st := spin_run sched (initlock cpus) in
  lock_move c (holder st) (holder (spin_step c st)) ∧
  (∀ r, sp_thr st !! c = Some (Inside, r) → holder st = Some c).
Proof.
  intros Hwf st. pose proof (spin_run_inv sched _ (initlock_inv _ Hwf)) as Hi. fold st in Hi.
  split; [by apply holder_move|]. intros r Hr. apply holder_Some; [done|]. by exists Inside, r.
Qed.

(** Without contention the code does what the model's acquire and release do to
    the processor: in four accesses a processor outside enters with the registers
    that [acquire] leaves, and in six it is outside again with those that [release]
    leaves, the lock free as before. *)
Theorem spin_uncontended cpus sched c s l :
  Forall cpu_wf cpus → cpu_ok s → l ∉ k_held s →
  let st := spin_run sched (initlock cpus) in
  sp_thr st !! c = Some (Out, k_cpu s) → holder st = None →
  ∃ s1 s2, acquire l s = Ok tt s1 ∧ release l s1 = Ok tt s2 ∧
    sp_thr (spin_run [c; c; c; c] st) !! c = Some (Inside, k_cpu s1) ∧
    holder (spin_run [c; c; c; c] st) = Some c ∧
    sp_thr (spin_run [c; c; c; c; c; c; c; c; c; c] st) !! c = Some (Out, k_cpu s2) ∧
    holder (spin_run [c; c; c; c; c; c; c; c; c; c] st) = None.
Proof.
  intros Hwf Hok Hl st Hc Hh. pose proof (spin_run_inv sched _ (initlock_inv _ Hwf)) as Hi. fold st in Hi.
  assert (Hlk : sp_locked st = 0%Z).
  { destruct (decide (sp_locked st = 0%Z)) as [|Hne]; [done|].
    destruct (spi_held _ Hi Hne) as (d & pd & rd & Hd & Ho).
    rewrite (proj1 (holder_None _ Hi) Hh d pd rd Hd) in Ho. done. }
  pose proof (spin_enter st c (k_cpu s) Hc Hlk (proj1 (spi_cpu _ Hi _ _ _ Hc))) as E1.
  pose proof (spin_run_inv [c; c; c; c] st Hi) as Hi1. rewrite E1 in Hi1.
  set (st1 := mk_spin 1 (Some c) (<[c := (Inside, cpu_push (k_cpu s))]> (sp_thr st))) in *.
  assert (Hc1 : sp_thr st1 !! c = Some (Inside, cpu_push (k_cpu s))).
  { simpl. apply list_lookup_insert_eq. by eapply lookup_lt_Some. }
  destruct (spi_cpu _ Hi1 _ _ _ Hc1) as [Hd1 Hin1]. simpl in Hd1.
  pose proof (spin_leave st1 c _ Hc1 eq_refl eq_refl Hd1 eq_refl) as E2.
  pose proof (spin_run_inv [c; c; c; c; c; c] st1 Hi1) as Hi2. rewrite E2 in Hi2.
  pose proof (spin_run_app [c; c; c; c] [c; c; c; c; c; c] st) as Eapp. cbn [app] in Eapp.
  rewrite Eapp, E1, E2. clear Eapp E1 E2.
  exists (locked l s), (unlocked l (locked l s)). split_and!.
  - by apply acquire_eq.
  - apply release_eq; [by apply cpu_ok_locked|]. simpl. by left.
  - done.
  - apply holder_Some; [done|]. by exists Inside, (cpu_push (k_cpu s)).
  - simpl. by rewrite list_insert_insert_eq, list_lookup_insert_eq by by eapply lookup_lt_Some.
  - apply holder_None; [done|]. simpl. intros d pd rd. rewrite list_insert_insert_eq.
    destruct (decide (d = c)) as [->|Hne].
    + rewrite list_lookup_insert_eq by by eapply lookup_lt_Some. by intros [= <- <-].
    + rewrite list_lookup_insert_ne by done. by apply (holder_None _ Hi).
Qed.

(** ** Instances *)

Definition two_cpus : list cpu := [zero_cpu; zero_cpu].
Local Lemma two_cpus_wf : Forall cpu_wf two_cpus.
Proof. repeat constructor; done. Qed.

(** Both processors race to the exchange; processor 1 wins. *)
Definition race : list nat := [0; 1; 0; 1; 1; 0; 1]%nat.

Lemma spin_mutual_exclusion_witness :
  ∃ r, sp_thr (spin_run race (initlock two_cpus)) !! 1%nat = Some (Inside, r) ∧ c_intr r = false.
Proof.
  eexists. split; [vm_compute; reflexivity|].
  eapply (spin_mutual_exclusion two_cpus race 1 Inside); [apply two_cpus_wf|vm_compute; reflexivity|reflexivity].
Defined.

Lemma spin_refines_witness :
  holder (spin_run race (initlock two_cpus)) = Some 1%nat ∧
  lock_move 0 (holder (spin_run race (initlock two_cpus)))
    (holder (spin_step 0 (spin_run race (initlock two_cpus)))).
Proof.
  split; [vm_compute; reflexivity|]. exact (proj1 (spin_refines two_cpus race 0 two_cpus_wf)).
Defined.

Lemma spin_uncontended_witness :
  holder (spin_run [1; 1; 1; 1]%nat (initlock two_cpus)) = Some 1%nat.
Proof.
  destruct (spin_uncontended two_cpus [] 1 zero_kernel LK_ptable) as (s1 & s2 & _ & _ & _ & H & _).
  - apply two_cpus_wf.
  - split; [done|done|constructor].
  - apply not_elem_of_nil.
  - reflexivity.
  - reflexivity.
  - exact H.
Defined.
