(* ===== verification/Asm.v ===== *)
(** * Asm: the assembly of the kernel (swtch.S, trapasm.S, vectors.pl)

    The instructions these files use, over registers and memory, and the three routines
    as lists of instructions.  Between [alltraps] and [trapret] the C function [trap]
    runs; it is a parameter that keeps the calling convention.  [swtch] saves a context
    that a later [swtch] resumes; a trap builds the [struct trapframe] that [trap] reads
    and [trapret] restores. *)

From stdpp Require Import base numbers gmap strings option list.
From S2P Require Import Prelude Format Machine Mem.
Local Open Scope Z_scope.

(** ** Machine *)

Inductive reg := EAX | ECX | EDX | EBX | ESP | EBP | ESI | EDI | GS | FS | ES | DS | CS | SS | EIP | EFLAGS.

Record regs := mk_regs {
  r_eax : Z; r_ecx : Z; r_edx : Z; r_ebx : Z; r_esp : Z; r_ebp : Z; r_esi : Z; r_edi : Z;
  r_gs : Z; r_fs : Z; r_es : Z; r_ds : Z; r_cs : Z; r_ss : Z; r_eip : Z; r_eflags : Z
}.
Definition get (R : regs) (r : reg) : Z :=
  match r with
  | EAX => r_eax R
  | ECX => r_ecx R
  | EDX => r_edx R
  | EBX => r_ebx R
  | ESP => r_esp R
  | EBP => r_ebp R
  | ESI => r_esi R
  | EDI => r_edi R
  | GS => r_gs R
  | FS => r_fs R
  | ES => r_es R
  | DS => r_ds R
  | CS => r_cs R
  | SS => r_ss R
  | EIP => r_eip R
  | EFLAGS => r_eflags R
  end.
Definition put (r : reg) (v : Z) (R : regs) : regs :=
  mk_regs
    (match r with EAX => v | _ => r_eax R end) (match r with ECX => v | _ => r_ecx R end)
    (match r with EDX => v | _ => r_edx R end) (match r with EBX => v | _ => r_ebx R end)
    (match r with ESP => v | _ => r_esp R end) (match r with EBP => v | _ => r_ebp R end)
    (match r with ESI => v | _ => r_esi R end) (match r with EDI => v | _ => r_edi R end)
    (match r with GS => v | _ => r_gs R end) (match r with FS => v | _ => r_fs R end)
    (match r with ES => v | _ => r_es R end) (match r with DS => v | _ => r_ds R end)
    (match r with CS => v | _ => r_cs R end) (match r with SS => v | _ => r_ss R end)
    (match r with EIP => v | _ => r_eip R end) (match r with EFLAGS => v | _ => r_eflags R end).

Record astate := mk_astate { a_regs : regs; a_mem : gmap Z Z }.
Definition a_reg (s : astate) (r : reg) : Z := get (a_regs s) r.
Definition set_reg (r : reg) (v : Z) (s : astate) : astate := mk_astate (put r v (a_regs s)) (a_mem s).

(** A word of memory; [None] is a fault. *)
Definition load (a : Z) (s : astate) : option Z := word (a_mem s) a.
Definition store (a v : Z) (s : astate) : option astate :=
  match word (a_mem s) a with
  | Some _ => Some (mk_astate (a_regs s) (mem_write a (bytes32 v) (a_mem s)))
  | None => None
  end.
Definition push (v : Z) (s : astate) : option astate :=
  let sp := u32 (a_reg s ESP - 4) in
  store sp v (set_reg ESP sp s).
Definition pop (s : astate) : option (Z * astate) :=
  v ← load (a_reg s ESP) s; Some (v, set_reg ESP (u32 (a_reg s ESP + 4)) s).

Inductive instr :=
| PushL (r : reg)
| PushI (v : Z)
| PushAL
| PopL (r : reg)
| PopAL
| LoadL (off : Z) (base dst : reg)  (** [movl off(base), dst] *)
| StoreL (src base : reg)  (** [movl src, (base)] *)
| MovL (src dst : reg)
| MovWI (v : Z) (dst : reg)  (** [movw $v, dst] *)
| MovW (src dst : reg)
| AddI (v : Z) (r : reg)
| CallF (ret : Z) (f : astate → option astate)  (** a call of C code, which returns to [ret] *)
| Ret
| IRet.

(** The selectors have 16 bits. *)
Definition segment (r : reg) : bool :=
  match r with GS | FS | ES | DS | CS | SS => true | _ => false end.
Definition in_reg (r : reg) (v : Z) : Z := if segment r then v mod 2 ^ 16 else v.

Definition pop_reg (r : reg) (s : astate) : option astate :=
  '(v, s) ← pop s; Some (set_reg r (in_reg r v) s).
(** [popal] discards the stack pointer that [pushal] stored. *)
Definition pop_skip (s : astate) : option astate := '(_, s) ← pop s; Some s.

(** One after the other. *)
Fixpoint chain (l : list (astate → option astate)) (s : astate) : option astate :=
  match l with
  | [] => Some s
  | f :: l => s' ← f s; chain l s'
  end.

Definition step (i : instr) (s : astate) : option astate :=
  match i with
  | PushL r => push (a_reg s r) s
  | PushI v => push v s
  | PushAL =>
      let sp := a_reg s ESP in
      chain [push (a_reg s EAX); push (a_reg s ECX); push (a_reg s EDX); push (a_reg s EBX);
             push sp; push (a_reg s EBP); push (a_reg s ESI); push (a_reg s EDI)] s
  | PopL r => pop_reg r s
  | PopAL =>
      chain [pop_reg EDI; pop_reg ESI; pop_reg EBP; pop_skip; pop_reg EBX; pop_reg EDX; pop_reg ECX; pop_reg EAX] s
  | LoadL off base dst => v ← load (u32 (a_reg s base + off)) s; Some (set_reg dst v s)
  | StoreL src base => store (a_reg s base) (a_reg s src) s
  | MovL src dst => Some (set_reg dst (a_reg s src) s)
  | MovWI v dst => Some (set_reg dst (a_reg s dst / 2 ^ 16 * 2 ^ 16 + v mod 2 ^ 16) s)
  | MovW src dst => Some (set_reg dst (in_reg dst (a_reg s src)) s)
  | AddI v r => Some (set_reg r (u32 (a_reg s r + v)) s)
  | CallF ret f => chain [push ret; f] s
  | Ret => pop_reg EIP s
  | IRet =>
      s' ← chain [pop_reg EIP; pop_reg CS; pop_reg EFLAGS] s;
      (* to a less privileged level the stack is switched as well *)
      if decide (a_reg s CS mod 4 < a_reg s' CS mod 4) then
        '(sp, s') ← pop s';
        s' ← pop_reg SS s';
        Some (set_reg ESP sp s')
      else Some s'
  end.

Definition runs (p : list instr) : astate → option astate := chain (step <$> p).

(** ** The routines *)

Definition swtch : list instr :=
  [LoadL 4 ESP EAX; LoadL 8 ESP EDX;
   PushL EBP; PushL EBX; PushL ESI; PushL EDI;
   StoreL ESP EAX; MovL EDX ESP;
   PopL EDI; PopL ESI; PopL EBX; PopL EBP; Ret].

Definition trapret : list instr :=
  [PopAL; PopL GS; PopL FS; PopL ES; PopL DS; AddI 0x8 ESP; IRet].
(** [call trap] returns to [ret]. *)
Definition alltraps (ret : Z) (trap : astate → option astate) : list instr :=
  [PushL DS; PushL ES; PushL FS; PushL GS; PushAL;
   MovWI (Z.shiftl SEG_KDATA 3) EAX; MovW EAX DS; MovW EAX ES;
   PushL ESP; CallF ret trap; AddI 4 ESP] ++ trapret.
(** The entry point [vector]i, up to its jump to [alltraps]. *)
Definition vector (i : Z) : list instr :=
  (if negb ((i =? 8) || ((10 <=? i) && (i <=? 14)) || (i =? 17)) then [PushI 0] else []) ++ [PushI i].

(** The processor takes interrupt or exception [n] through a gate of the kernel: from user
    mode it first switches to the stack of the task state segment.  Some exceptions push
    an error code. *)
Definition has_error (n : Z) : bool := bool_decide (n ∈ [8; 10; 11; 12; 13; 14; 17]).
Record gate := mk_gate { g_esp0 : Z; g_ss0 : Z; g_cs : Z; g_off : Z; g_istrap : bool }.
Definition interrupt (g : gate) (n err : Z) (s : astate) : option astate :=
  let s' := if decide (0 < a_reg s CS mod 4) then set_reg ESP (g_esp0 g) (set_reg SS (g_ss0 g) s) else s in
  s' ← chain (if decide (0 < a_reg s CS mod 4) then [push (a_reg s SS); push (a_reg s ESP)] else []) s';
  s' ← chain [push (a_reg s EFLAGS); push (a_reg s CS); push (a_reg s EIP)] s';
  s' ← chain (if has_error n then [push err] else []) s';
  Some (set_reg EFLAGS (Z.ldiff (a_reg s EFLAGS) (if g_istrap g then 0x34100 else 0x34300))
         (set_reg CS (g_cs g) (set_reg EIP (g_off g) s'))).

(** ** Reasoning about pushes and pops *)

Definition words_at (m : gmap Z Z) (a : Z) (ws : list Z) : Prop :=
  ∀ i w, ws !! i = Some w → word m (a + 4 * Z.of_nat i) = Some w.
Definition uint (v : Z) : Prop := 0 ≤ v < 2 ^ 32.

Lemma words_at_nil m a : words_at m a [].
Proof. by intros i w. Qed.
Lemma words_at_cons m a w ws : words_at m a (w :: ws) ↔ word m a = Some w ∧ words_at m (a + 4) ws.
Proof.
  split.
  - intros H. split.
    + specialize (H 0%nat w eq_refl). by rewrite Z.mul_0_r, Z.add_0_r in H.
    + intros i w' Hw. rewrite <-(H (S i) w' Hw). f_equal. lia.
  - intros [H1 H2] [|i] w' Hw.
    + injection Hw as <-. by rewrite Z.mul_0_r, Z.add_0_r.
    + rewrite <-(H2 i w' Hw). f_equal. lia.
Qed.
Lemma words_at_app m a ws ws' :
  words_at m a (ws ++ ws') ↔ words_at m a ws ∧ words_at m (a + 4 * Z.of_nat (length ws)) ws'.
Proof.
  revert a. induction ws as [|w ws IH]; intros a.
  - simpl app. rewrite Z.mul_0_r, Z.add_0_r. split; [by split; [apply words_at_nil|]|by intros [_ H]].
  - rewrite <-app_comm_cons, !words_at_cons, IH, length_cons.
    replace (a + 4 + 4 * Z.of_nat (length ws)) with (a + 4 * Z.of_nat (S (length ws))) by lia. tauto.
Qed.

(** The words survive a write elsewhere. *)
Lemma words_at_write m a ws a' l :
  words_at m a ws → a + 4 * Z.of_nat (length ws) ≤ a' ∨ a' + Z.of_nat (length l) ≤ a →
  words_at (mem_write a' l m) a ws.
Proof.
  intros H Ha i w Hw. rewrite word_write_ne by (apply lookup_lt_Some in Hw; lia). by apply H.
Qed.

Definition flat (ws : list Z) : list Z := concat (bytes32 <$> ws).
Lemma length_flat ws : Z.of_nat (length (flat ws)) = 4 * Z.of_nat (length ws).
Proof.
  induction ws as [|w ws IH]; [done|]. change (flat (w :: ws)) with (bytes32 w ++ flat ws).
  rewrite length_app, length_cons. change (length (bytes32 w)) with 4%nat. lia.
Qed.
Lemma words_at_flat m a ws : Forall uint ws → words_at (mem_write a (flat ws) m) a ws.
Proof.
  intros Hw. revert a m. induction Hw as [|w ws Hw _ IH]; intros a m; [apply words_at_nil|].
  apply words_at_cons. change (flat (w :: ws)) with (bytes32 w ++ flat ws).
  split.
  - rewrite mem_write_app, word_write_eq. unfold u32. by rewrite Z.mod_small.
  - rewrite mem_write_app_r. apply IH.
Qed.

Lemma words_at_replace m a ws w ws' v :
  words_at m a (ws ++ w :: ws') → uint v →
  words_at (mem_write (a + 4 * Z.of_nat (length ws)) (bytes32 v) m) a (ws ++ v :: ws').
Proof.
  intros [H1 [_ H2]%words_at_cons]%words_at_app Hv. apply words_at_app.
  split; [apply words_at_write; [done|cbn; lia]|]. apply words_at_cons. split.
  - rewrite word_write_eq. unfold u32. by rewrite Z.mod_small.
  - apply words_at_write; [done|cbn; lia].
Qed.

(** The state after [ws] has been pushed, the last word first; the stack pointer is [a]. *)
Definition pushed (a : Z) (ws : list Z) (s : astate) : astate :=
  mk_astate (put ESP a (a_regs s)) (mem_write a (flat ws) (a_mem s)).

Lemma store_eq a v s :
  mapped (a_mem s) a 4 → store a v s = Some (mk_astate (a_regs s) (mem_write a (bytes32 v) (a_mem s))).
Proof. intros Hm. unfold store. by destruct (word_mapped _ _ Hm) as [w ->]. Qed.

Lemma push_pushed a v ws s :
  4 ≤ a < 2 ^ 32 → mapped (a_mem s) (a - 4) 4 → push v (pushed a ws s) = Some (pushed (a - 4) (v :: ws) s).
Proof.
  intros Ha Hm. unfold push, pushed, set_reg, a_reg. cbn -[flat mem_write word u32 store].
  replace (u32 (a - 4)) with (a - 4) by (unfold u32; rewrite Z.mod_small; lia).
  rewrite store_eq by by apply mapped_write.
  change (flat (v :: ws)) with (bytes32 v ++ flat ws). rewrite mem_write_app.
  change (Z.of_nat (length (bytes32 v))) with 4. by replace (a - 4 + 4) with a by lia.
Qed.

Lemma chain_cons f l s s' : f s = Some s' → chain (f :: l) s = chain l s'.
Proof. intros H. simpl. by rewrite H. Qed.
Lemma chain_then l l' s s' : chain l s = Some s' → chain (l ++ l') s = chain l' s'.
Proof.
  revert s. induction l as [|f l IH]; intros s H; [by injection H as ->|].
  simpl in *. destruct (f s) as [s''|]; [|done]. by apply IH.
Qed.

Lemma step_push r a ws s :
  r ≠ ESP → 4 ≤ a < 2 ^ 32 → mapped (a_mem s) (a - 4) 4 →
  step (PushL r) (pushed a ws s) = Some (pushed (a - 4) (a_reg s r :: ws) s).
Proof.
  intros Hr Ha Hm. simpl. rewrite push_pushed by done.
  do 3 f_equal. by destruct r.
Qed.

Lemma pushes_eq vs a ws s :
  4 * Z.of_nat (length vs) ≤ a < 2 ^ 32 →
  mapped (a_mem s) (a - 4 * Z.of_nat (length vs)) (4 * Z.of_nat (length vs)) →
  chain (push <$> vs) (pushed a ws s) = Some (pushed (a - 4 * Z.of_nat (length vs)) (reverse vs ++ ws) s).
Proof.
  revert a ws. induction vs as [|v vs IH]; intros a ws Ha Hm.
  { simpl. by rewrite Z.sub_0_r. }
  rewrite length_cons in *. rewrite fmap_cons.
  rewrite (chain_cons _ _ _ (pushed (a - 4) (v :: ws) s)).
  - rewrite IH; [|lia|intros x Hx; apply Hm; lia].
    rewrite reverse_cons, <-app_assoc. do 2 f_equal. lia.
  - apply push_pushed; [lia|]. intros x Hx. apply Hm. lia.
Qed.

(** Several registers. *)
Lemma steps_push rs a ws s :
  Forall (λ r, r ≠ ESP) rs → 4 * Z.of_nat (length rs) ≤ a < 2 ^ 32 →
  mapped (a_mem s) (a - 4 * Z.of_nat (length rs)) (4 * Z.of_nat (length rs)) →
  chain (step <$> (PushL <$> rs)) (pushed a ws s) =
    Some (pushed (a - 4 * Z.of_nat (length rs)) (reverse (a_reg s <$> rs) ++ ws) s).
Proof.
  intros Hrs. revert a ws. induction Hrs as [|r rs Hr _ IH]; intros a ws Ha Hm.
  { simpl. by rewrite Z.sub_0_r. }
  rewrite length_cons in *. rewrite !fmap_cons.
  rewrite (chain_cons _ _ _ (pushed (a - 4) (a_reg s r :: ws) s)).
  - rewrite IH; [|lia|intros x Hx; apply Hm; lia].
    rewrite reverse_cons, <-app_assoc. do 2 f_equal. lia.
  - apply step_push; [done|lia|]. intros x Hx. apply Hm. lia.
Qed.

Lemma pushed_nil s : pushed (a_reg s ESP) [] s = s.
Proof. by destruct s as [[] m]. Qed.

Lemma pop_eq R m v :
  uint (r_esp R) → r_esp R + 4 < 2 ^ 32 → word m (r_esp R) = Some v →
  pop (mk_astate R m) = Some (v, mk_astate (put ESP (r_esp R + 4) R) m).
Proof.
  unfold uint. intros Ha Ha' Hw. unfold pop, load, a_reg. simpl. rewrite Hw. simpl.
  unfold set_reg, u32. simpl. by rewrite Z.mod_small by lia.
Qed.

(** Registers popped in order, [None] for a word that is dropped. *)
Definition pop_to (o : option reg) : astate → option astate :=
  match o with Some r => pop_reg r | None => pop_skip end.
Definition put_to (o : option reg) (v : Z) (R : regs) : regs :=
  match o with Some r => put r (in_reg r v) R | None => R end.
Fixpoint loaded (rs : list (option reg)) (ws : list Z) (R : regs) : regs :=
  match rs, ws with
  | o :: rs, w :: ws => loaded rs ws (put_to o w R)
  | _, _ => R
  end.
(** The stack pointer is then past the words. *)
Definition popped (rs : list (option reg)) (ws : list Z) (R : regs) : regs :=
  put ESP (r_esp R + 4 * Z.of_nat (length ws)) (loaded rs ws R).

Lemma put_to_esp o w a R : o ≠ Some ESP → put_to o w (put ESP a R) = put ESP a (put_to o w R).
Proof. intros Ho. destruct o as [[]|]; try reflexivity. by destruct Ho. Qed.
Lemma loaded_esp rs ws a b R :
  Forall (λ o, o ≠ Some ESP) rs → put ESP b (loaded rs ws (put ESP a R)) = put ESP b (loaded rs ws R).
Proof.
  intros Hrs. revert ws R. induction Hrs as [|o rs Ho _ IH]; intros [|w ws] R; try reflexivity.
  simpl loaded. by rewrite put_to_esp.
Qed.

Lemma pops_eq rs ws R m :
  Forall (λ o, o ≠ Some ESP) rs → length ws = length rs → words_at m (r_esp R) ws →
  0 ≤ r_esp R → r_esp R + 4 * Z.of_nat (length ws) < 2 ^ 32 →
  chain (pop_to <$> rs) (mk_astate R m) = Some (mk_astate (popped rs ws R) m).
Proof.
  intros Hrs. revert ws R. induction Hrs as [|o rs Ho Hrs IH]; intros ws R Hl Hw Ha Hb.
  { destruct ws; [|done]. unfold popped. cbn [loaded length fmap list_fmap chain].
    rewrite Z.mul_0_r, Z.add_0_r. by destruct R. }
  destruct ws as [|w ws]; [done|]. apply words_at_cons in Hw as [Hw Hws].
  rewrite length_cons in Hb.
  rewrite fmap_cons, (chain_cons _ _ _ (mk_astate (put ESP (r_esp R + 4) (put_to o w R)) m)).
  - rewrite (IH ws); [|by injection Hl|done|cbn; lia..]. unfold popped. cbn [loaded].
    rewrite loaded_esp, length_cons by done.
    by replace (r_esp (put ESP _ _) + _) with (r_esp R + 4 * Z.of_nat (S (length ws))) by (cbn; lia).
  - pose proof (pop_eq R m w ltac:(unfold uint; lia) ltac:(lia) Hw) as He.
    rewrite <-put_to_esp by done.
    destruct o as [r|]; cbn [pop_to]; [unfold pop_reg|unfold pop_skip]; by rewrite He.
Qed.

(** ** Context switch *)

Definition context_words (c : context) : list Z := [cx_edi c; cx_esi c; cx_ebx c; cx_ebp c; cx_eip c].
(** What [swtch], to return to [ra], saves of the registers. *)
Definition context_of (R : regs) (ra : Z) : context :=
  mk_context (r_edi R) (r_esi R) (r_ebx R) (r_ebp R) ra.
Definition apart (a n b k : Z) : Prop := a + n ≤ b ∨ b + k ≤ a.

(** The state at the first instruction of a call of [swtch(old, new)] that returns to
    [ra]: the arguments are above the return address, there is room below it, and the
    pointer and the context are elsewhere. *)
Record calls_swtch (s : astate) (old new ra : Z) : Prop := {
  sw_args : words_at (a_mem s) (r_esp (a_regs s)) [ra; old; new];
  sw_room : mapped (a_mem s) (r_esp (a_regs s) - 16) 16;
  sw_sp : 16 ≤ r_esp (a_regs s) < 2 ^ 32 - 12;
  sw_regs : Forall uint (context_words (context_of (a_regs s) ra));
  sw_old : mapped (a_mem s) old 4;
  sw_new : 0 ≤ new < 2 ^ 32 - 20;
  sw_apart_old : apart old 4 (r_esp (a_regs s) - 16) 20;
  sw_apart_new : apart new 20 (r_esp (a_regs s) - 16) 16;
  sw_apart : apart new 20 old 4
}.

(** The state in which the context [c] at [p] goes on. *)
Record resumed (s : astate) (p : Z) (c : context) : Prop := {
  rs_esp : r_esp (a_regs s) = p + 20;
  rs_edi : r_edi (a_regs s) = cx_edi c;
  rs_esi : r_esi (a_regs s) = cx_esi c;
  rs_ebx : r_ebx (a_regs s) = cx_ebx c;
  rs_ebp : r_ebp (a_regs s) = cx_ebp c;
  rs_eip : r_eip (a_regs s) = cx_eip c
}.

(** The first half: the registers are on the stack and the stack pointer is stored. *)
Definition saved (s : astate) (old new : Z) : astate :=
  let a := r_esp (a_regs s) - 16 in
  let R := put EDX new (put EAX old (a_regs s)) in
  mk_astate (put ESP new R) (mem_write old (bytes32 a)
    (mem_write a (flat [r_edi R; r_esi R; r_ebx R; r_ebp R]) (a_mem s))).

Lemma swtch_saves s old new ra :
  calls_swtch s old new ra →
  chain (step <$> take 8 swtch) s = Some (saved s old new).
Proof.
  intros [Hargs Hroom Hsp _ Hold _ _ _ _].
  apply words_at_cons in Hargs as [_ [Ho [Hn _]%words_at_cons]%words_at_cons].
  destruct s as [R m]. cbn [a_regs a_mem] in *.
  cbn [swtch take fmap list_fmap].
  erewrite chain_cons; [|cbn [step]; unfold load, a_reg, u32; cbn [a_regs a_mem get];
    rewrite Z.mod_small by lia; by rewrite Ho].
  erewrite chain_cons; [|cbn [step]; unfold load, a_reg, u32; cbn [a_regs a_mem get set_reg put r_esp];
    rewrite Z.mod_small by lia; replace (r_esp R + 8) with (r_esp R + 4 + 4) by lia; by rewrite Hn].
  set (s := set_reg EDX new _).
  rewrite <-(pushed_nil s).
  pose proof (steps_push [EBP; EBX; ESI; EDI] (a_reg s ESP) [] s ltac:(by repeat constructor)) as Hpush.
  change (a_reg s ESP) with (r_esp R) in *.
  etrans; [exact (chain_then (step <$> (PushL <$> [EBP; EBX; ESI; EDI]))
    (step <$> [StoreL ESP EAX; MovL EDX ESP]) _ _ (Hpush ltac:(simpl; lia) Hroom))|].
  rewrite fmap_cons. erewrite chain_cons; [|apply store_eq; by apply mapped_write].
  reflexivity.
Qed.

Lemma swtch_run s old new ra c :
  calls_swtch s old new ra → words_at (a_mem s) new (context_words c) →
  ∃ s', runs swtch s = Some s' ∧ resumed s' new c ∧
    word (a_mem s') old = Some (r_esp (a_regs s) - 16) ∧
    words_at (a_mem s') (r_esp (a_regs s) - 16) (context_words (context_of (a_regs s) ra)).
Proof.
  intros Hs Hc. unfold runs. rewrite <-(take_drop 8 swtch), fmap_app.
  rewrite (chain_then _ _ _ _ (swtch_saves _ _ _ _ Hs)).
  destruct Hs as [Hargs Hroom Hsp Hregs Hold Hnew Ho Hn Ha]. unfold apart in *.
  apply words_at_cons in Hargs as [Hra _].
  destruct s as [R m]. unfold saved. cbn [a_regs a_mem] in *.
  set (m' := mem_write old _ _).
  assert (Hc' : words_at m' new (context_words c)).
  { apply words_at_write; [apply words_at_write; [done|]|]; simpl; lia. }
  eexists. split; [|split; [|split]].
  - apply (pops_eq [Some EDI; Some ESI; Some EBX; Some EBP; Some EIP] (context_words c)
      (put ESP new (put EDX new (put EAX old R))) m'); [by repeat constructor|done|done|simpl; lia..].
  - by split.
  - cbn [a_mem]. unfold m'. rewrite word_write_eq. unfold u32. rewrite Z.mod_small by lia. done.
  - cbn [a_mem]. unfold m'. apply words_at_write; [|simpl; lia].
    change (context_words (context_of R ra)) with ([r_edi R; r_esi R; r_ebx R; r_ebp R] ++ [ra]) in *.
    apply Forall_app in Hregs as [Hregs _].
    apply words_at_app. split; [by apply words_at_flat|].
    apply words_at_write; [|simpl; lia]. apply words_at_cons. split; [|apply words_at_nil].
    rewrite <-Hra. f_equal. simpl. lia.
Qed.

(** C16.  A call of [swtch(old, new)] goes on in the context at [new], with a [struct context]
    of the caller on its own stack whose address is in [*old]; any later call of [swtch]
    with that address, the context being still there, returns to the caller: its
    callee-saved registers are back and its stack pointer is past the return address. *)
Theorem swtch_resumes s old new ra c :
  calls_swtch s old new ra → words_at (a_mem s) new (context_words c) →
  ∃ s' p, runs swtch s = Some s' ∧ resumed s' new c ∧ word (a_mem s') old = Some p ∧
    words_at (a_mem s') p (context_words (context_of (a_regs s) ra)) ∧
    ∀ t old' ra', calls_swtch t old' p ra' →
      words_at (a_mem t) p (context_words (context_of (a_regs s) ra)) →
      ∃ t', runs swtch t = Some t' ∧ r_eip (a_regs t') = ra ∧
        r_esp (a_regs t') = r_esp (a_regs s) + 4 ∧
        context_of (a_regs t') ra = context_of (a_regs s) ra.
Proof.
  intros Hs Hc. destruct (swtch_run _ _ _ _ _ Hs Hc) as (s' & Hrun & Hres & Hold & Hctx).
  exists s', (r_esp (a_regs s) - 16). repeat split; try done; try apply Hres.
  intros t old' ra' Ht Htc. destruct (swtch_run _ _ _ _ _ Ht Htc) as (t' & Hrun' & [] & _).
  exists t'. split_and!; [done|done|lia|]. unfold context_of. cbn in *. congruence.
Qed.

(** ** Traps *)

Definition frame_words (tf : trapframe) : list Z :=
  [tf_edi tf; tf_esi tf; tf_ebp tf; tf_oesp tf; tf_ebx tf; tf_edx tf; tf_ecx tf; tf_eax tf;
   tf_gs tf; tf_fs tf; tf_es tf; tf_ds tf; tf_trapno tf; tf_err tf;
   tf_eip tf; tf_cs tf; tf_eflags tf; tf_esp tf; tf_ss tf].
(** The frame of trap [n] of a process with registers [R], whose kernel stack ends at [top]. *)
Definition frame_of (R : regs) (n err top : Z) : trapframe :=
  mk_trapframe (r_edi R) (r_esi R) (r_ebp R) (top - 44) (r_ebx R) (r_edx R) (r_ecx R) (r_eax R)
    (r_gs R) (r_fs R) (r_es R) (r_ds R) n (if has_error n then err else 0)
    (r_eip R) (r_cs R) (r_eflags R) (r_esp R) (r_ss R).
(** The registers a frame stands for. *)
Definition regs_of (tf : trapframe) : regs :=
  mk_regs (tf_eax tf) (tf_ecx tf) (tf_edx tf) (tf_ebx tf) (tf_esp tf) (tf_ebp tf) (tf_esi tf) (tf_edi tf)
    (tf_gs tf mod 2 ^ 16) (tf_fs tf mod 2 ^ 16) (tf_es tf mod 2 ^ 16) (tf_ds tf mod 2 ^ 16)
    (tf_cs tf mod 2 ^ 16) (tf_ss tf mod 2 ^ 16) (tf_eip tf) (tf_eflags tf).

(** [iret] to a less privileged level. *)
Lemma iret_eq R m ip cs fl sp ss :
  words_at m (r_esp R) ([ip; cs; fl] ++ [sp; ss]) → 0 ≤ r_esp R < 2 ^ 32 - 20 →
  r_cs R mod 4 < (cs mod 2 ^ 16) mod 4 →
  step IRet (mk_astate R m) = Some (mk_astate
    (put ESP sp (put SS (ss mod 2 ^ 16) (put EFLAGS fl (put CS (cs mod 2 ^ 16) (put EIP ip R))))) m).
Proof.
  intros [H1 H2]%words_at_app Ha Hcs. cbn [length] in H2.
  cbn [step]. change [pop_reg EIP; pop_reg CS; pop_reg EFLAGS] with (pop_to <$> [Some EIP; Some CS; Some EFLAGS]).
  rewrite (pops_eq _ [ip; cs; fl]); [|by repeat constructor|done|done|cbn; lia..].
  cbn [mbind option_bind]. rewrite decide_True by exact Hcs.
  apply words_at_cons in H2 as [Hsp [Hss _]%words_at_cons].
  rewrite (pop_eq _ _ sp); [|unfold uint; cbn; lia|cbn; lia|done].
  cbn [mbind option_bind]. unfold pop_reg.
  rewrite (pop_eq _ _ ss); [|unfold uint; cbn; lia|cbn; lia|done].
  reflexivity.
Qed.

(** [trapret] at a frame of user mode loads the registers from it. *)
Lemma trapret_restores R m tf :
  words_at m (r_esp R) (frame_words tf) → 0 ≤ r_esp R < 2 ^ 32 - 76 →
  r_cs R mod 4 < (tf_cs tf mod 2 ^ 16) mod 4 →
  runs trapret (mk_astate R m) = Some (mk_astate (regs_of tf) m).
Proof.
  intros Hw Ha Hcs.
  change (frame_words tf) with
    ([tf_edi tf; tf_esi tf; tf_ebp tf; tf_oesp tf; tf_ebx tf; tf_edx tf; tf_ecx tf; tf_eax tf] ++
     [tf_gs tf; tf_fs tf; tf_es tf; tf_ds tf] ++ [tf_trapno tf; tf_err tf] ++
     [tf_eip tf; tf_cs tf; tf_eflags tf; tf_esp tf; tf_ss tf]) in Hw.
  apply words_at_app in Hw as [H1 [H2 [_ H3]%words_at_app]%words_at_app].
  cbn [length] in *.
  unfold runs. change (step <$> trapret) with
    ([step PopAL] ++ (pop_to <$> [Some GS; Some FS; Some ES; Some DS]) ++ [step (AddI 8 ESP); step IRet]).
  rewrite (chain_then _ _ _ (mk_astate (popped
    [Some EDI; Some ESI; Some EBP; None; Some EBX; Some EDX; Some ECX; Some EAX]
    [tf_edi tf; tf_esi tf; tf_ebp tf; tf_oesp tf; tf_ebx tf; tf_edx tf; tf_ecx tf; tf_eax tf] R) m)); cycle 1.
  { cbn [chain]. change (step PopAL (mk_astate R m)) with
      (chain (pop_to <$> [Some EDI; Some ESI; Some EBP; None; Some EBX; Some EDX; Some ECX; Some EAX]) (mk_astate R m)).
    erewrite pops_eq; [|by repeat constructor| |exact H1|lia|cbn [length]; lia]; reflexivity. }
  set (R1 := popped _ _ R). 
  rewrite (chain_then _ _ _ (mk_astate (popped [Some GS; Some FS; Some ES; Some DS] 
    [tf_gs tf; tf_fs tf; tf_es tf; tf_ds tf] R1) m)); cycle 1.
  { apply pops_eq; [by repeat constructor|done|done|cbn; lia..]. }
  set (R2 := popped _ _ R1).
  erewrite (chain_cons _ _ _ (mk_astate (put ESP (r_esp R + 56) R2) m)); cycle 1.
  { cbn -[R2]. unfold set_reg, u32, a_reg. cbn -[R2]. do 3 f_equal. cbn. rewrite Z.mod_small by lia. lia. }
  set (R3 := put _ _ _).
  rewrite (chain_cons _ _ _ (mk_astate (regs_of tf) m)); [done|].
  rewrite (iret_eq R3 m (tf_eip tf) (tf_cs tf) (tf_eflags tf) (tf_esp tf) (tf_ss tf)); [done| |cbn; lia|done].
  cbn [app]. replace (r_esp R3) with (r_esp R + 4 * Z.of_nat 8 + 4 * Z.of_nat 4 + 4 * Z.of_nat 2) by (cbn; lia).
  exact H3.
Qed.

(** The state of the kernel at its entry: the registers before, but for those the
    processor loads from the gate. *)
Definition entered (g : gate) (s : astate) : astate :=
  set_reg EFLAGS (Z.ldiff (a_reg s EFLAGS) (if g_istrap g then 0x34100 else 0x34300))
    (set_reg CS (g_cs g) (set_reg EIP (g_off g) (set_reg SS (g_ss0 g) s))).

(** A process in user mode, with a kernel stack below the stack pointer of the gate. *)
Record in_user (s : astate) (g : gate) : Prop := {
  iu_cpl : a_reg s CS mod 4 = 3;
  iu_segments : Forall (λ r, 0 ≤ a_reg s r < 2 ^ 16) [GS; FS; ES; DS; CS; SS];
  iu_regs : Forall (λ r, uint (a_reg s r)) [EAX; ECX; EDX; EBX; ESP; EBP; ESI; EDI; EIP; EFLAGS];
  iu_stack : mapped (a_mem s) (g_esp0 g - 84) 84;
  iu_top : 84 ≤ g_esp0 g < 2 ^ 32
}.

(** The processor and the stub [vector]n push the end of the frame, with or without an
    error code. *)
(** Room for the words of the frame. *)
Lemma frame_push g s s' vs a ws :
  in_user s g → a_mem s' = a_mem s → a = g_esp0 g - 4 * Z.of_nat (length ws) →
  (length vs + length ws ≤ 21)%nat →
  chain (push <$> vs) (pushed a ws s') = Some (pushed (a - 4 * Z.of_nat (length vs)) (reverse vs ++ ws) s').
Proof.
  intros [_ _ _ Hm Htop] Hs -> Hl. apply pushes_eq; [lia|]. rewrite Hs. intros x Hx. apply Hm. lia.
Qed.

Lemma interrupt_run g n err s :
  in_user s g →
  interrupt g n err s =
    Some (pushed (g_esp0 g - 4 * Z.of_nat (if has_error n then 6 else 5))
      ((if has_error n then [err] else []) ++ [a_reg s EIP; a_reg s CS; a_reg s EFLAGS; a_reg s ESP; a_reg s SS])
      (entered g s)).
Proof.
  intros Hu. pose proof (iu_cpl _ _ Hu) as Hcs. unfold interrupt. rewrite !decide_True by lia.
  set (s0 := set_reg SS (g_ss0 g) s).
  change (set_reg ESP (g_esp0 g) s0) with (pushed (g_esp0 g) [] s0).
  change [push (a_reg s SS); push (a_reg s ESP)] with (push <$> [a_reg s SS; a_reg s ESP]).
  rewrite (frame_push g s); [|done|done|cbn; lia|cbn; lia]. cbn [mbind option_bind].
  change [push (a_reg s EFLAGS); push (a_reg s CS); push (a_reg s EIP)] with
    (push <$> [a_reg s EFLAGS; a_reg s CS; a_reg s EIP]).
  rewrite (frame_push g s); [|done|done|cbn; lia|cbn; lia]. cbn [mbind option_bind].
  replace (if has_error n then [push err] else []) with (push <$> (if has_error n then [err] else []))
    by by destruct (has_error n).
  rewrite (frame_push g s); [|done|done|cbn; lia|destruct (has_error n); cbn; lia].
  cbn [mbind option_bind].
  match goal with |- Some (set_reg _ _ (set_reg _ _ (set_reg _ _ (pushed ?a _ _)))) = Some (pushed ?b _ _) =>
    replace a with b by (destruct (has_error n); cbn; lia) end.
  by destruct (has_error n).
Qed.

Lemma vector_pushes n : step <$> vector n = push <$> (if has_error n then [n] else [0; n]).
Proof.
  unfold vector, has_error. case_bool_decide as Hn.
  - by repeat (apply elem_of_cons in Hn as [->|Hn]); [..|apply elem_of_nil in Hn].
  - repeat apply not_elem_of_cons in Hn as [? Hn].
    by replace (_ || _) with false by lia.
Qed.

Lemma entry_run g n err s :
  in_user s g →
  chain [interrupt g n err; runs (vector n)] s =
    Some (pushed (g_esp0 g - 28) [n; if has_error n then err else 0; a_reg s EIP; a_reg s CS; a_reg s EFLAGS;
                                  a_reg s ESP; a_reg s SS] (entered g s)).
Proof.
  intros Hu. rewrite (chain_cons _ _ _ _ (interrupt_run g n err s Hu)). cbn [chain].
  unfold runs. rewrite vector_pushes.
  rewrite (frame_push g s); [|done|done|destruct (has_error n); cbn; lia|destruct (has_error n); cbn; lia].
  cbn [mbind option_bind].
  destruct (has_error n); cbn -[Z.sub Z.mul pushed entered]; do 2 f_equal; lia.
Qed.

(** [alltraps] up to its call of [trap]. *)
Definition kernel_data (s : astate) : astate :=
  let ax := a_reg s EAX / 2 ^ 16 * 2 ^ 16 + Z.shiftl SEG_KDATA 3 mod 2 ^ 16 in
  set_reg ES (ax mod 2 ^ 16) (set_reg DS (ax mod 2 ^ 16) (set_reg EAX ax s)).

Lemma alltraps_frame g n err s ret trap :
  in_user s g →
  chain (step <$> take 9 (alltraps ret trap))
    (pushed (g_esp0 g - 28) [n; if has_error n then err else 0; a_reg s EIP; a_reg s CS; a_reg s EFLAGS;
                             a_reg s ESP; a_reg s SS] (entered g s)) =
    Some (pushed (g_esp0 g - 80) (g_esp0 g - 76 :: frame_words (frame_of (a_regs s) n err (g_esp0 g)))
            (kernel_data (entered g s))).
Proof.
  intros Hu. set (ws := [n; _; _; _; _; _; _]). set (e := entered g s).
  change (step <$> take 9 (alltraps ret trap)) with
    ((step <$> (PushL <$> [DS; ES; FS; GS])) ++ [step PushAL] ++
     (step <$> [MovWI (Z.shiftl SEG_KDATA 3) EAX; MovW EAX DS; MovW EAX ES; PushL ESP])).
  rewrite (chain_then _ _ _ (pushed (g_esp0 g - 44) (reverse (a_reg e <$> [DS; ES; FS; GS]) ++ ws) e)); cycle 1.
  { destruct Hu as [_ _ _ Hm Htop].
    rewrite steps_push; [do 2 f_equal; cbn; lia|by repeat constructor|cbn; lia|].
    intros x Hx. apply Hm. cbn in Hx. lia. }
  rewrite (chain_then _ _ _ (pushed (g_esp0 g - 76)
    (frame_words (frame_of (a_regs s) n err (g_esp0 g))) e)); cycle 1.
  { cbn [chain]. set (e' := pushed (g_esp0 g - 44) _ _).
    change (step PushAL e') with (chain (push <$> [a_reg e EAX; a_reg e ECX; a_reg e EDX; a_reg e EBX;
      g_esp0 g - 44; a_reg e EBP; a_reg e ESI; a_reg e EDI]) e').
    unfold e'. rewrite (frame_push g s); [|done|done|cbn; lia|cbn; lia].
    cbn [mbind option_bind]. match goal with |- Some (pushed ?a _ _) = _ =>
      replace a with (g_esp0 g - 76) by (cbn; lia) end. reflexivity. }
  match goal with |- _ = ?r => change (chain [push (g_esp0 g - 76)] (pushed (g_esp0 g - 76)
    (frame_words (frame_of (a_regs s) n err (g_esp0 g))) (kernel_data e)) = r) end.
  cbn [chain]. destruct Hu as [_ _ _ Hm Htop].
  rewrite push_pushed; [|lia|intros x Hx; apply Hm; lia].
  cbn [mbind option_bind]. do 2 f_equal. lia.
Qed.

(** The words of the frame fit. *)
Lemma frame_uint s g n err :
  in_user s g → uint n → uint err → Forall uint (frame_words (frame_of (a_regs s) n err (g_esp0 g))).
Proof.
  intros [_ Hs Hr _ Htop] Hn He. unfold a_reg in *.
  repeat rewrite Forall_cons in Hs. repeat rewrite Forall_cons in Hr. unfold uint in *. cbn [get] in *.
  unfold frame_words, frame_of. cbn [tf_edi tf_esi tf_ebp tf_oesp tf_ebx tf_edx tf_ecx tf_eax tf_gs tf_fs tf_es
    tf_ds tf_trapno tf_err tf_eip tf_cs tf_eflags tf_esp tf_ss].
  repeat apply Forall_cons_2; try lia; [|constructor]. destruct (has_error n); lia.
Qed.

Lemma regs_of_frame s g n err top : in_user s g → regs_of (frame_of (a_regs s) n err top) = a_regs s.
Proof.
  intros [_ Hs _ _ _]. unfold a_reg in Hs. repeat rewrite Forall_cons in Hs. cbn [get] in Hs.
  unfold regs_of, frame_of. cbn. rewrite !Z.mod_small by lia. by destruct (a_regs s).
Qed.

Lemma user_privilege s g : in_user s g → (r_cs (a_regs s) mod 2 ^ 16) mod 4 = 3.
Proof.
  intros [Hcs Hs _ _ _]. unfold a_reg in *. repeat rewrite Forall_cons in Hs. cbn [get] in *.
  by rewrite (Z.mod_small (r_cs _)) by lia.
Qed.

(** [alltraps] once [trap] has returned from the state [s1]. *)
Lemma alltraps_run g n err s ret trap R2 m2 :
  in_user s g →
  trap (pushed (g_esp0 g - 84) (ret :: g_esp0 g - 76 :: frame_words (frame_of (a_regs s) n err (g_esp0 g)))
         (kernel_data (entered g s))) = Some (mk_astate R2 m2) → r_esp R2 = g_esp0 g - 80 →
  chain [interrupt g n err; runs (vector n); runs (alltraps ret trap)] s =
    runs trapret (mk_astate (put ESP (g_esp0 g - 76) R2) m2).
Proof.
  intros Hu Htrap Hsp.
  change [interrupt g n err; runs (vector n); runs (alltraps ret trap)] with
    ([interrupt g n err; runs (vector n)] ++ [runs (alltraps ret trap)]).
  rewrite (chain_then _ _ _ _ (entry_run g n err s Hu)).
  cbn [chain]. unfold runs at 1. change (step <$> alltraps ret trap) with
    ((step <$> take 9 (alltraps ret trap)) ++ [step (CallF ret trap); step (AddI 4 ESP)] ++ (step <$> trapret)).
  rewrite (chain_then _ _ _ _ (alltraps_frame g n err s ret trap Hu)).
  destruct Hu as [_ _ _ Hm Htop].
  rewrite (chain_then _ _ _ (mk_astate (put ESP (g_esp0 g - 76) R2) m2)).
  { unfold runs. by destruct (chain (step <$> trapret) _). }
  rewrite (chain_cons _ _ _ (mk_astate R2 m2)).
  - cbn -[Z.add Z.sub u32]. unfold set_reg, a_reg, u32. cbn [get a_regs a_mem]. rewrite Hsp, Z.mod_small by lia.
    do 3 f_equal. lia.
  - cbn [step]. erewrite chain_cons by (apply push_pushed; [lia|intros x Hx; apply Hm; lia]).
    cbn [chain]. replace (g_esp0 g - 80 - 4) with (g_esp0 g - 84) by lia. by rewrite Htrap.
Qed.

Section trap.
(** [trap(tf)] of trap.c, as [alltraps] calls it: with the stack pointer at the return
    address and the frame's address above it, it returns past the return address, in the
    same privilege level, having left at that place a frame [handles] gives, with the
    code segment as it was. *)
Context (trap : astate → option astate) (ret : Z) (handles : astate → trapframe → trapframe).
Definition trap_called (s : astate) (tfp : Z) (tf : trapframe) : Prop :=
  8 ≤ tfp < 2 ^ 32 - 76 ∧ r_esp (a_regs s) = tfp - 8 ∧ words_at (a_mem s) (tfp - 8) (ret :: tfp :: frame_words tf).
Definition trap_returned (s s' : astate) (tfp : Z) (tf : trapframe) : Prop :=
  r_esp (a_regs s') = tfp - 4 ∧ r_cs (a_regs s') = r_cs (a_regs s) ∧
  words_at (a_mem s') tfp (frame_words tf).
Hypothesis trap_C : ∀ s tfp tf,
  trap_called s tfp tf → ∃ s', trap s = Some s' ∧ trap_returned s s' tfp (handles s tf).
Hypothesis trap_cs : ∀ s tf, tf_cs (handles s tf) = tf_cs tf.

(** C15.  Interrupt, system call or exception [n] of a process in user mode: [trap] is called
    with the address of a [struct trapframe] at the top of the kernel stack that holds
    the process's registers, the number [n] and the error code ([0] where the processor
    pushes none); nothing else in memory has changed.  The process goes on in user mode
    with the registers of the frame [trap] leaves: those it had, when [trap] leaves the
    frame as it found it. *)
Theorem trap_round_trip g n err s :
  in_user s g → g_cs g mod 4 = 0 → uint n → uint err → uint ret →
  let tf := frame_of (a_regs s) n err (g_esp0 g) in
  ∃ s1 m', trap_called s1 (g_esp0 g - 76) tf ∧
    (∀ x, x < g_esp0 g - 84 ∨ g_esp0 g ≤ x → a_mem s1 !! x = a_mem s !! x) ∧
    chain [interrupt g n err; runs (vector n); runs (alltraps ret trap)] s =
      Some (mk_astate (regs_of (handles s1 tf)) m') ∧
    regs_of tf = a_regs s.
Proof.
  intros Hu Hcs Hn Herr Hret tf. set (K := kernel_data (entered g s)).
  set (s1 := pushed (g_esp0 g - 84) (ret :: g_esp0 g - 76 :: frame_words tf) K).
  assert (Huint : Forall uint (ret :: g_esp0 g - 76 :: frame_words tf)).
  { destruct (iu_top _ _ Hu). 
    apply Forall_cons_2; [done|]. apply Forall_cons_2; [unfold uint; lia|by apply frame_uint]. }
  assert (Hcall : trap_called s1 (g_esp0 g - 76) tf).
  { destruct (iu_top _ _ Hu). split; [lia|]. split; [cbn; lia|]. replace (g_esp0 g - 76 - 8) with (g_esp0 g - 84) by lia. by apply words_at_flat. }
  destruct (trap_C _ _ _ Hcall) as ([R2 m2] & Htrap & Hsp & Hcs2 & Hw2). cbn [a_regs a_mem] in *.
  exists s1, m2. split_and!; [done| | |by apply (regs_of_frame s g)].
  - intros x Hx. unfold s1, pushed. cbn [a_mem]. rewrite lookup_mem_write, decide_False; [done|].
    rewrite length_flat. cbn. lia.
  - rewrite (alltraps_run g n err s ret trap R2 m2 Hu Htrap) by (rewrite Hsp; lia).
    destruct (iu_top _ _ Hu). apply trapret_restores; [exact Hw2|cbn; lia|].
    rewrite trap_cs. change (tf_cs tf) with (r_cs (a_regs s)). rewrite (user_privilege _ _ Hu).
    change (r_cs R2 mod 4 < 3). rewrite Hcs2. change (g_cs g mod 4 < 3). lia.
Qed.
End trap.

(** ** A stack and a switch *)

Local Ltac uints := repeat (apply Forall_cons_2; [unfold uint; cbn; lia|]); apply Forall_nil_2.

Definition zeroes : gmap Z Z := mem_write 0 (replicate 400 0) ∅.
Lemma zeroes_mapped a n : 0 ≤ a → a + n ≤ 400 → mapped zeroes a n.
Proof.
  intros Ha Hn x Hx. unfold zeroes. rewrite lookup_mem_write, length_replicate, decide_True by lia.
  rewrite lookup_replicate_2 by lia. by eexists.
Qed.

Opaque zeroes.

(** A call of [swtch(300, 340)] with the stack pointer at 200. *)
Definition sample_switch : astate :=
  mk_astate (mk_regs 0 0 0 13 200 14 12 11 0 0 16 16 8 16 0x7000 2)
    (mem_write 340 (flat [1; 2; 3; 4; 5]) (mem_write 200 (flat [0x1000; 300; 340]) zeroes)).

Lemma sample_switch_calls : calls_swtch sample_switch 300 340 0x1000.
Proof.
  split; unfold apart, sample_switch; cbn [a_regs a_mem r_esp context_of context_words]; try lia.
  - apply words_at_write; [apply words_at_flat|cbn; lia]. uints.
  - do 2 apply mapped_write. apply zeroes_mapped; lia.
  - uints.
  - do 2 apply mapped_write. apply zeroes_mapped; lia.
Qed.

Lemma swtch_resumes_witness :
  ∃ s' p, runs swtch sample_switch = Some s' ∧ resumed s' 340 (mk_context 1 2 3 4 5) ∧
    word (a_mem s') 300 = Some p.
Proof.
  destruct (swtch_resumes sample_switch 300 340 0x1000 (mk_context 1 2 3 4 5)) as (s' & p & H1 & H2 & H3 & _).
  - exact sample_switch_calls.
  - apply words_at_flat. uints.
  - exists s', p. exact (conj H1 (conj H2 H3)).
Defined.

(** A system call: [trap] leaves [7] in the frame's [eax]. *)
Definition answer (s : astate) : option astate := chain [store (a_reg s ESP + 36) 7; pop_skip] s.
Definition answered (s : astate) (tf : trapframe) : trapframe := set_tf_eax 7 tf.

Lemma answer_C ret s tfp tf :
  trap_called ret s tfp tf → ∃ s', answer s = Some s' ∧ trap_returned s s' tfp (answered s tf).
Proof.
  destruct s as [R m]. intros (Ht & Hsp & Hw). cbn [a_regs a_mem] in *.
  apply words_at_cons in Hw as [Hra [_ Hw]%words_at_cons].
  replace (tfp - 8 + 4 + 4) with tfp in Hw by lia.
  change (frame_words tf) with (take 7 (frame_words tf) ++ tf_eax tf :: drop 8 (frame_words tf)) in Hw.
  apply (words_at_replace _ _ _ _ _ 7) in Hw as Hw'; [|unfold uint; lia].
  apply words_at_app in Hw as [_ [Hax _]%words_at_cons].
  change (4 * Z.of_nat (length (take 7 (frame_words tf)))) with 28 in *.
  unfold answer, a_reg. cbn [get a_regs]. rewrite Hsp. replace (tfp - 8 + 36) with (tfp + 28) by lia.
  exists (mk_astate (put ESP (tfp - 4) R) (mem_write (tfp + 28) (bytes32 7) m)). split; [|split_and!; done].
  rewrite (chain_cons _ _ _ (mk_astate R (mem_write (tfp + 28) (bytes32 7) m))).
  - cbn [chain]. unfold pop_skip. rewrite (pop_eq R _ ret); [|unfold uint; lia|lia|].
    + cbn [mbind option_bind]. rewrite Hsp. by replace (tfp - 8 + 4) with (tfp - 4) by lia.
    + rewrite word_write_ne by (rewrite Hsp; lia). rewrite Hsp. exact Hra.
  - unfold store. cbn [a_mem a_regs]. by rewrite Hax.
Qed.

(** A process in user mode, with a kernel stack that ends at 200. *)
Definition sample_gate : gate := mk_gate 200 16 8 0x8000 true.
Definition sample_process : astate :=
  mk_astate (mk_regs 5 0 0 13 0x4000 14 12 11 0 0 35 35 27 35 0x7000 514) zeroes.

Lemma sample_process_user : in_user sample_process sample_gate.
Proof.
  split; unfold sample_process; cbn [a_mem]; try done.
  - uints.
  - uints.
  - apply zeroes_mapped; cbn; lia.
Qed.

Lemma trap_round_trip_witness :
  ∃ m', chain [interrupt sample_gate 64 0; runs (vector 64); runs (alltraps 0x9000 answer)] sample_process =
    Some (mk_astate (mk_regs 7 0 0 13 0x4000 14 12 11 0 0 35 35 27 35 0x7000 514) m').
Proof.
  destruct (trap_round_trip answer 0x9000 answered) with (g := sample_gate) (n := 64) (err := 0)
    (s := sample_process) as (s1 & m' & _ & _ & H & _).
  - apply answer_C.
  - done.
  - exact sample_process_user.
  - reflexivity.
  - unfold uint; lia.
  - unfold uint; lia.
  - unfold uint; lia.
  - exists m'. exact H.
Defined.
