(* ===== verification/Mlfq.v ===== *)
(** * Mlfq: the five feedback queues of proc.c

    [qu[5][NPROC]] and [q_index[5]] with the three loops that proc.c repeats at
    every place that touches them: look a process up by its pid, append it, take
    it out.  The second half proves that on arrays that hold five lists the
    loops are [list_find], append and delete on those lists. *)

From stdpp Require Import base numbers gmap strings option list.
From S2P Require Import Prelude Format Machine.
Local Open Scope kernel_scope.

(** ** Operations *)

Definition max_queue_ticks : list Z := [2; 4; 8; 16; 32]%Z.

(** [q_index[k]] *)
Definition q_index (k : Z) : K Z :=
  let! qi := gets k_qindex in arr_get qi k.
Definition set_q_index (k v : Z) : K unit :=
  let! _ := q_index k in
  modify (λ s, set_k_qindex (<[Z.to_nat k := v]> (k_qindex s)) s).

(** [qu[k][j]], the pointer stored there *)
Definition qu_get (k j : Z) : K (option nat) :=
  let! qu := gets k_qu in
  let! row := arr_get qu k in
  arr_get row j.
Definition qu_set (k j : Z) (v : option nat) : K unit :=
  let! qu := gets k_qu in
  let! row := arr_get qu k in
  let! _ := arr_get row j in
  modify (λ s, set_k_qu (<[Z.to_nat k := <[Z.to_nat j := v]> row]> qu) s).

(** [for(i=0;i<=q_index[k];i++) if(qu[k][i]->pid==pid) { ind=i; alread=1; break; }] *)
Definition mlfq_find (k pid : Z) : K (option Z) :=
  let! n := q_index k in
  for_find (seqZ 0 (n + 1)) (λ i,
    let! e := qu_get k i in
    let! j := deref e in
    let! p := proc_at j in
    ret (if (p_pid p =? pid)%Z then Some i else None)).

(** [qu[k][q_index[k]+1]=p; q_index[k]++; p->qtime=ticks;] *)
Definition mlfq_push (k : Z) (p : nat) : K unit :=
  let! n := q_index k in
  qu_set k (n + 1)%Z (Some p) ;;
  set_q_index k (n + 1)%Z ;;
  let! t := gets k_ticks in
  upd_proc p (set_p_qtime (i32 t)).

(** [for(ii=ind;ii<q_index[k];ii++) qu[k][ii]=qu[k][ii+1]; q_index[k]--;] *)
Definition mlfq_remove (k ind : Z) : K unit :=
  let! n := q_index k in
  for_each (seqZ ind (n - ind)) (λ ii,
    let! v := qu_get k (ii + 1)%Z in
    qu_set k ii v) ;;
  set_q_index k (n - 1)%Z.

(** The idiom of fork, wakeup1, kill and the scheduler: append unless present. *)
Definition mlfq_enqueue (k : Z) (p : nat) : K unit :=
  let! pp := proc_at p in
  let! found := mlfq_find k (p_pid pp) in
  match found with
  | Some _ => ret tt
  | None => mlfq_push k p
  end.

(** ** The arrays as five lists *)

Record row_rep (row : list (option nat)) (idx : Z) (q : list nat) : Prop := {
  rr_len : length row = NPROC;
  rr_idx : idx = (Z.of_nat (length q) - 1)%Z;
  rr_take : take (length q) row = Some <$> q;
}.

Record qrep (s : kernel) (qs : list (list nat)) : Prop := {
  qr_qu : length (k_qu s) = 5;
  qr_qi : length (k_qindex s) = 5;
  qr_qs : length qs = 5;
  qr_row k q : qs !! k = Some q →
    ∃ row idx, k_qu s !! k = Some row ∧ k_qindex s !! k = Some idx ∧ row_rep row idx q;
}.

Lemma row_rep_length row idx q : row_rep row idx q → length q ≤ NPROC.
Proof.
  intros [Hl _ Ht]. apply (f_equal length) in Ht.
  rewrite length_take, length_fmap, Hl in Ht. lia.
Qed.

Lemma row_rep_lookup row idx q j i :
  row_rep row idx q → q !! j = Some i → row !! j = Some (Some i).
Proof.
  intros [_ _ Ht] Hj. apply lookup_lt_Some in Hj as Hlt.
  rewrite <-(lookup_take_lt row (length q) j) by done.
  by rewrite Ht, list_lookup_fmap, Hj.
Qed.

(** The first position of [q] whose process has pid [pid]. *)
Definition find_pid (pt : list proc) (pid : Z) (q : list nat) : option nat :=
  fst <$> list_find (λ i, p_pid <$> pt !! i = Some pid) q.

Section refinement.
Implicit Types (s : kernel) (qs : list (list nat)) (q : list nat).

Lemma arr_get_eq {S A} (l : list A) (i : nat) a (s : S) :
  l !! i = Some a → arr_get l (Z.of_nat i) s = Ok a s.
Proof.
  intros H. unfold arr_get. destruct (Z.ltb_spec (Z.of_nat i) 0); [lia|].
  by rewrite Nat2Z.id, H.
Qed.

Lemma q_index_eq s qs k q :
  qrep s qs → qs !! k = Some q →
  q_index (Z.of_nat k) s = Ok (Z.of_nat (length q) - 1)%Z s.
Proof.
  intros Hr Hq. destruct (qr_row _ _ Hr _ _ Hq) as (row & idx & _ & Hi & [_ -> _]).
  unfold q_index, bind, gets. by erewrite arr_get_eq.
Qed.

Lemma qu_get_eq s k row j v :
  k_qu s !! k = Some row → row !! j = Some v →
  qu_get (Z.of_nat k) (Z.of_nat j) s = Ok v s.
Proof.
  intros Hk Hj. unfold qu_get, bind, gets.
  erewrite arr_get_eq by done. by erewrite arr_get_eq.
Qed.

Lemma qu_set_eq s k row (j : nat) v :
  k_qu s !! k = Some row → j < length row →
  qu_set (Z.of_nat k) (Z.of_nat j) v s =
    Ok tt (set_k_qu (<[k := <[j := v]> row]> (k_qu s)) s).
Proof.
  intros Hk Hj. unfold qu_set, bind, gets, modify.
  erewrite arr_get_eq by done.
  apply lookup_lt_is_Some_2 in Hj as [v0 Hv0].
  erewrite arr_get_eq by done. by rewrite !Nat2Z.id.
Qed.

Lemma set_q_index_eq s k idx v :
  k_qindex s !! k = Some idx →
  set_q_index (Z.of_nat k) v s = Ok tt (set_k_qindex (<[k := v]> (k_qindex s)) s).
Proof.
  intros Hk. unfold set_q_index, q_index, bind, gets, modify.
  erewrite arr_get_eq by done. by rewrite Nat2Z.id.
Qed.

Lemma find_pid_cons pt pid i q :
  find_pid pt pid (i :: q) =
    if decide (p_pid <$> pt !! i = Some pid) then Some 0 else S <$> find_pid pt pid q.
Proof.
  unfold find_pid. simpl. case_decide; [done|].
  by destruct (list_find _ q) as [[j x]|].
Qed.

Lemma find_body_eq s k row j i p pid :
  k_qu s !! k = Some row → row !! j = Some (Some i) → k_ptable s !! i = Some p →
  (let! e := qu_get (Z.of_nat k) (Z.of_nat j) in
   let! i := deref e in
   let! p := proc_at i in
   ret (if (p_pid p =? pid)%Z then Some (Z.of_nat j) else None)) s =
  Ok (if decide (p_pid <$> k_ptable s !! i = Some pid) then Some (Z.of_nat j) else None) s.
Proof.
  intros Hk Hj Hp. erewrite bind_Ok by by eapply qu_get_eq.
  erewrite bind_Ok by done. erewrite bind_Ok by (unfold proc_at; by rewrite Hp).
  unfold ret. f_equal. rewrite Hp. simpl.
  destruct (Z.eqb_spec (p_pid p) pid); case_decide; congruence.
Qed.

Lemma mlfq_find_eq s qs k q pid :
  qrep s qs → qs !! k = Some q → (∀ i, i ∈ q → i < length (k_ptable s)) →
  mlfq_find (Z.of_nat k) pid s = Ok (Z.of_nat <$> find_pid (k_ptable s) pid q) s.
Proof.
  intros Hr Hq Hv. unfold mlfq_find. erewrite bind_Ok by by eapply q_index_eq.
  destruct (qr_row _ _ Hr _ _ Hq) as (row & idx & Hrow & _ & Hrr).
  replace (Z.of_nat (length q) - 1 + 1)%Z with (Z.of_nat (length q)) by lia.
  cut (∀ suf pre, q = pre ++ suf →
    for_find (seqZ (Z.of_nat (length pre)) (Z.of_nat (length suf)))
      (λ i, let! e := qu_get (Z.of_nat k) i in
            let! j := deref e in
            let! p := proc_at j in
            ret (if (p_pid p =? pid)%Z then Some i else None)) s =
    Ok ((λ j, Z.of_nat (length pre + j)) <$> find_pid (k_ptable s) pid suf) s).
  { intros Hgen. exact (Hgen q [] eq_refl). }
  induction suf as [|i suf IH]; intros pre Hpre; [done|].
  rewrite seqZ_cons by (simpl; lia). rewrite find_pid_cons.
  assert (Hi : q !! length pre = Some i) by (rewrite Hpre; by apply list_lookup_middle).
  destruct (lookup_lt_is_Some_2 (k_ptable s) i) as [p Hp].
  { apply Hv. eapply list_elem_of_lookup_2; eauto. }
  pose proof (find_body_eq s k row (length pre) i p pid Hrow
    (row_rep_lookup _ _ _ _ _ Hrr Hi) Hp) as Hb.
  case_decide.
  { erewrite for_find_stop by exact Hb. simpl. by rewrite Nat.add_0_r. }
  erewrite for_find_next by exact Hb.
  specialize (IH (pre ++ [i])). rewrite <-app_assoc in IH. specialize (IH Hpre).
  rewrite length_app in IH. simpl in IH.
  replace (Z.succ (Z.of_nat (length pre))) with (Z.of_nat (length pre + 1)) by lia.
  replace (Z.pred (Z.of_nat (length (i :: suf)))) with (Z.of_nat (length suf)) by (simpl; lia).
  rewrite IH. f_equal. rewrite <-option_fmap_compose.
  apply option_fmap_ext. intros j. simpl. f_equal. lia.
Qed.

Lemma qrep_update s qs k q' row idx :
  qrep s qs → k < 5 → row_rep row idx q' →
  qrep (set_k_qindex (<[k := idx]> (k_qindex s)) (set_k_qu (<[k := row]> (k_qu s)) s))
       (<[k := q']> qs).
Proof.
  intros [H1 H2 H3 H4] Hk Hrr. split; simpl; rewrite ?length_insert; [done..|].
  intros k' q0 Hq0. destruct (decide (k' = k)) as [->|Hne].
  - rewrite list_lookup_insert_eq in Hq0 by lia. simplify_eq.
    exists row, idx. rewrite !list_lookup_insert_eq by lia. done.
  - rewrite list_lookup_insert_ne in Hq0 by done.
    destruct (H4 _ _ Hq0) as (row0 & idx0 & ? & ? & ?).
    exists row0, idx0. by rewrite !list_lookup_insert_ne by done.
Qed.

Lemma row_rep_push row idx q p :
  row_rep row idx q → length q < NPROC →
  row_rep (<[length q := Some p]> row) (idx + 1)%Z (q ++ [p]).
Proof.
  intros [H1 H2 H3] Hlt. split.
  - by rewrite length_insert.
  - rewrite length_app, H2. simpl. lia.
  - rewrite length_app. simpl. rewrite Nat.add_1_r.
    erewrite take_S_r; [|apply list_lookup_insert_eq; lia].
    by rewrite take_insert_ge, H3, fmap_app by lia.
Qed.

Lemma mlfq_push_eq s qs k q p pp :
  qrep s qs → qs !! k = Some q → length q < NPROC → k_ptable s !! p = Some pp →
  ∃ qu' qi',
    mlfq_push (Z.of_nat k) p s =
      Ok tt (set_k_ptable (<[p := set_p_qtime (i32 (k_ticks s)) pp]> (k_ptable s))
               (set_k_qindex qi' (set_k_qu qu' s))) ∧
    qrep (set_k_qindex qi' (set_k_qu qu' s)) (<[k := q ++ [p]]> qs).
Proof.
  intros Hr Hq Hlt Hp.
  destruct (qr_row _ _ Hr _ _ Hq) as (row & idx & Hrow & Hidx & Hrr).
  pose proof (rr_len _ _ _ Hrr) as Hlen.
  assert (Hk : k < 5) by (rewrite <-(qr_qs _ _ Hr); by eapply lookup_lt_Some).
  eexists _, _. split; [|exact (qrep_update _ _ k _ _ _ Hr Hk (row_rep_push _ _ _ p Hrr Hlt))].
  unfold mlfq_push. erewrite bind_Ok by by eapply q_index_eq.
  replace (Z.of_nat (length q) - 1 + 1)%Z with (Z.of_nat (length q)) by lia.
  erewrite bind_Ok by (eapply qu_set_eq; [done|lia]).
  erewrite bind_Ok by by eapply set_q_index_eq.
  erewrite bind_Ok by done. unfold upd_proc. simpl. rewrite Hp.
  rewrite (rr_idx _ _ _ Hrr). repeat f_equal. lia.
Qed.

Lemma shift_loop k row ind m s :
  k_qu s !! k = Some row → ind + m < length row →
  ∃ row', length row' = length row ∧
    (∀ j, row' !! j = if decide (ind ≤ j < ind + m) then row !! S j else row !! j) ∧
    for_each (seqZ (Z.of_nat ind) (Z.of_nat m))
      (λ ii, let! v := qu_get (Z.of_nat k) (ii + 1)%Z in qu_set (Z.of_nat k) ii v) s =
    Ok tt (set_k_qu (<[k := row']> (k_qu s)) s).
Proof.
  revert row ind s. induction m as [|m IH]; intros row ind s Hrow Hlt.
  { exists row. split; [done|]. split.
    - intros j. rewrite decide_False by lia. done.
    - simpl. rewrite list_insert_id by done. unfold ret. f_equal. by destruct s. }
  destruct (lookup_lt_is_Some_2 row (S ind)) as [v Hv]; [lia|].
  rewrite seqZ_cons by lia.
  replace (Z.succ (Z.of_nat ind)) with (Z.of_nat (S ind)) by lia.
  replace (Z.pred (Z.of_nat (S m))) with (Z.of_nat m) by lia.
  erewrite for_each_Ok.
  2:{ replace (Z.of_nat ind + 1)%Z with (Z.of_nat (S ind)) by lia.
      erewrite bind_Ok by by eapply qu_get_eq. eapply qu_set_eq; [done|lia]. }
  destruct (IH (<[ind := v]> row) (S ind) (set_k_qu (<[k := <[ind := v]> row]> (k_qu s)) s))
    as (row' & Hlen & Hlk & Heq).
  { simpl. apply list_lookup_insert_eq. by eapply lookup_lt_Some. }
  { rewrite length_insert. lia. }
  exists row'. rewrite length_insert in Hlen. split; [done|]. split.
  - intros j. rewrite Hlk. destruct (decide (j = ind)) as [->|Hne].
    + rewrite decide_False, decide_True by lia.
      rewrite list_lookup_insert_eq by lia. done.
    + rewrite (list_lookup_insert_ne _ ind j) by done.
      destruct (decide (S ind ≤ j < S ind + m)).
      * rewrite decide_True by lia. by rewrite list_lookup_insert_ne by lia.
      * by rewrite decide_False by lia.
  - rewrite Heq. simpl. rewrite list_insert_insert_eq. done.
Qed.

Lemma row_rep_delete row row' idx q ind :
  row_rep row idx q → ind < length q → length row' = length row →
  (∀ j, row' !! j = if decide (ind ≤ j < ind + (length q - 1 - ind))
                    then row !! S j else row !! j) →
  row_rep row' (idx - 1)%Z (delete ind q).
Proof.
  intros Hrr Hlt Hlen Hlk. pose proof Hrr as [H1 H2 H3].
  assert (Hdl : length (delete ind q) = length q - 1).
  { rewrite length_delete by (by apply lookup_lt_is_Some_2). lia. }
  split; [lia| rewrite Hdl; lia |].
  apply list_eq. intros j. rewrite Hdl, list_lookup_fmap.
  destruct (decide (j < length q - 1)) as [Hj|Hj].
  2:{ rewrite lookup_take_ge by lia. rewrite lookup_ge_None_2; [done|lia]. }
  rewrite lookup_take_lt by lia. rewrite Hlk.
  destruct (decide (ind ≤ j < ind + (length q - 1 - ind))) as [Hc|Hc].
  - rewrite list_lookup_delete_ge by lia.
    destruct (lookup_lt_is_Some_2 q (S j)) as [i Hi]; [lia|].
    by rewrite Hi, (row_rep_lookup _ _ _ _ _ Hrr Hi).
  - rewrite list_lookup_delete_lt by lia.
    destruct (lookup_lt_is_Some_2 q j) as [i Hi]; [lia|].
    by rewrite Hi, (row_rep_lookup _ _ _ _ _ Hrr Hi).
Qed.

Lemma mlfq_remove_eq s qs k q (ind : nat) :
  qrep s qs → qs !! k = Some q → ind < length q →
  ∃ qu' qi',
    mlfq_remove (Z.of_nat k) (Z.of_nat ind) s = Ok tt (set_k_qindex qi' (set_k_qu qu' s)) ∧
    qrep (set_k_qindex qi' (set_k_qu qu' s)) (<[k := delete ind q]> qs).
Proof.
  intros Hr Hq Hlt.
  destruct (qr_row _ _ Hr _ _ Hq) as (row & idx & Hrow & Hidx & Hrr).
  pose proof (rr_len _ _ _ Hrr) as Hlen. pose proof (row_rep_length _ _ _ Hrr) as Hql.
  assert (Hk : k < 5) by (rewrite <-(qr_qs _ _ Hr); by eapply lookup_lt_Some).
  destruct (shift_loop k row ind (length q - 1 - ind) s) as (row' & Hl' & Hlk & Heq);
    [done|lia|].
  pose proof (row_rep_delete _ _ _ _ _ Hrr Hlt Hl' Hlk) as Hrr'.
  eexists _, _. split; [|exact (qrep_update _ _ k _ _ _ Hr Hk Hrr')].
  unfold mlfq_remove. erewrite bind_Ok by by eapply q_index_eq.
  replace (Z.of_nat (length q) - 1 - Z.of_nat ind)%Z
    with (Z.of_nat (length q - 1 - ind)) by lia.
  erewrite bind_Ok by exact Heq. erewrite set_q_index_eq by done. simpl.
  rewrite (rr_idx _ _ _ Hrr). done.
Qed.
End refinement.
