(* ===== verification/ProcCore.v ===== *)
(** * ProcCore: giving up the processor and waking others up

    The part of proc.c on which every other component stands: [myproc],
    [sched], [yield], [sleep], [wakeup], [kill], [set_priority], and the two
    page-table switches of vm.c that the scheduler performs. *)

From stdpp Require Import base numbers gmap strings option list.
From S2P Require Import Prelude Format Machine Mlfq.
Local Open Scope kernel_scope.

Definition myproc : K (option nat) :=
  pushcli ;;
  let! c := mycpu in
  let! p := ret (c_proc c) in
  popcli ;;
  ret p.

Definition V2P (a : Z) : Z := u32 (a - KERNBASE).
Definition P2V (a : Z) : Z := u32 (a + KERNBASE).

Definition switchkvm : K unit :=
  let! kpgdir := gets k_kpgdir in
  upd_cpu (set_c_cr3 (V2P kpgdir)).

(** [mycpu()->gdt[i] = d]; [gdt[i].s = 0]; [sizeof(struct taskstate)]. *)
Definition set_gdt (i : Z) (d : segdesc) (c : cpu) : cpu :=
  set_c_gdt (<[Z.to_nat i := d]> (c_gdt c)) c.
Definition set_sd_s0 (d : segdesc) : segdesc :=
  mk_segdesc (sd_lim_15_0 d) (sd_base_15_0 d) (sd_base_23_16 d) (sd_type d) 0 (sd_dpl d)
    (sd_p d) (sd_lim_19_16 d) (sd_avl d) (sd_rsv1 d) (sd_db d) (sd_g d) (sd_base_31_24 d).
Definition sizeof_ts : Z := 104.

Definition switchuvm (p : option nat) : K unit :=
  match p with
  | None => panic "switchuvm: no process"
  | Some i =>
      let! pp := proc_at i in
      if (p_kstack pp =? 0)%Z then panic "switchuvm: no kstack"
      else if (p_pgdir pp =? 0)%Z then panic "switchuvm: no pgdir"
      else
        pushcli ;;
        let! c := mycpu in
        upd_cpu (set_gdt SEG_TSS (set_sd_s0 (SEG16 STS_T32A (c_tsaddr c) (sizeof_ts - 1) 0))) ;;
        upd_cpu (set_c_ss0 (SEG_KDATA * 8)%Z) ;;
        upd_cpu (set_c_esp0 (u32 (p_kstack pp + KSTACKSIZE))) ;;
        upd_cpu (set_c_iomb 0xFFFF%Z) ;;
        upd_cpu (set_c_tr (SEG_TSS * 8)%Z) ;;
        upd_cpu (set_c_cr3 (V2P (p_pgdir pp))) ;;
        popcli
  end.

Section env.
Context `{Env}.

(** [sched] up to its [swtch]: the four sanity checks, then [intena] is read. *)
Definition sched_enter : K bool :=
  let! op := myproc in
  let! p := deref op in
  let! h := holding LK_ptable in
  if negb h then panic "sched ptable.lock"
  else
    let! c := mycpu in
    if negb (c_ncli c =? 1)%Z then panic "sched locks"
    else
      let! pp := proc_at p in
      if bool_decide (p_state pp = RUNNING) then panic "sched running"
      else
        let! i := readeflags_if in
        if i then panic "sched interruptible"
        else
          let! c := mycpu in
          ret (c_intena c).

(** [mycpu()->intena = intena], after [swtch] has come back. *)
Definition sched_exit (intena : bool) : K unit :=
  let! _ := mycpu in
  upd_cpu (set_c_intena intena).

Definition sched : K unit :=
  let! intena := sched_enter in
  swtch ;;
  sched_exit intena.

Definition yield_enter : K unit :=
  acquire LK_ptable ;;
  let! op := myproc in
  let! p := deref op in
  upd_proc p (set_p_state RUNNABLE).

Definition yield : K unit :=
  yield_enter ;;
  sched ;;
  release LK_ptable.

(** [sleep] up to its call of [sched]. *)
Definition sleep_enter (ch : chan) (lk : option lockid) : K (nat * lockid) :=
  let! op := myproc in
  match op with
  | None => panic "sleep"
  | Some p =>
      match lk with
      | None => panic "sleep without lk"
      | Some lk =>
          when (bool_decide (lk ≠ LK_ptable)) (
            acquire LK_ptable ;;
            release lk) ;;
          upd_proc p (set_p_chan (Some ch)) ;;
          upd_proc p (set_p_state SLEEPING) ;;
          ret (p, lk)
      end
  end.

(** After [sched]: tidy up, then give ptable.lock back for [lk]. *)
Definition sleep_wake (p : nat) (lk : lockid) : K unit :=
  upd_proc p (set_p_chan None) ;;
  when (bool_decide (lk ≠ LK_ptable)) (release LK_ptable).
Definition sleep_relock (lk : lockid) : K unit :=
  when (bool_decide (lk ≠ LK_ptable)) (acquire lk).

Definition sleep (ch : chan) (lk : option lockid) : K unit :=
  let! r := sleep_enter ch lk in
  let '(p, lk) := r in
  sched ;;
  sleep_wake p lk ;;
  sleep_relock lk.

(** One iteration of [wakeup1]'s loop over the process table. *)
Definition wakeup_slot (ch : option chan) (i : nat) : K unit :=
  let! p := proc_at i in
  when (bool_decide (p_state p = SLEEPING ∧ p_chan p = ch)) (
    upd_proc i (set_p_state RUNNABLE) ;;
    when (is_sched MLFQ) (
      mlfq_enqueue (p_cur_q p) i ;;
      let! t := gets k_ticks in
      upd_proc i (set_p_qtime (i32 t)))).

Definition wakeup1 (ch : option chan) : K unit :=
  for_each slots (wakeup_slot ch).

Definition wakeup (ch : chan) : K unit :=
  acquire LK_ptable ;;
  wakeup1 (Some ch) ;;
  release LK_ptable.

Definition kill_slot (pid : Z) (i : nat) : K (option Z) :=
  let! p := proc_at i in
  if (p_pid p =? pid)%Z then
    upd_proc i (set_p_killed true) ;;
    when (bool_decide (p_state p = SLEEPING)) (
      upd_proc i (set_p_state RUNNABLE) ;;
      when (is_sched MLFQ) (mlfq_enqueue (p_cur_q p) i)) ;;
    release LK_ptable ;;
    ret (Some 0%Z)
  else ret None.

Definition kill (pid : Z) : K Z :=
  acquire LK_ptable ;;
  let! r := for_find slots (kill_slot pid) in
  match r with
  | Some v => ret v
  | None => release LK_ptable ;; ret (-1)%Z
  end.

(** The loop of [set_priority]; the result is [preempt]. *)
Definition set_priority_slot (new_priority pid : Z) (i : nat) : K (option bool) :=
  let! p := proc_at i in
  if (p_pid p =? pid)%Z then
    upd_proc i (set_p_priority new_priority) ;;
    ret (Some (new_priority <? p_priority p)%Z)
  else ret None.

Definition set_priority (new_priority pid : Z) : K Z :=
  acquire LK_ptable ;;
  let! r := for_find slots (set_priority_slot new_priority pid) in
  release LK_ptable ;;
  when (is_sched PBS && match r with Some preempt => preempt | None => false end) yield ;;
  ret 0%Z.
End env.
