(* ===== verification/Kalloc.v ===== *)
(** * Kalloc: the physical page allocator of kalloc.c

    The free list threads through the free pages themselves: the first word of a
    free page is the address of the next one.  [kmem_inv] says that the list
    starting at [kmem.freelist] is a duplicate-free list of usable pages; kalloc
    and kfree are its tail and its cons. *)

From stdpp Require Import base numbers gmap strings option list.
From S2P Require Import Prelude Format Machine Mem ProcCore.
Local Open Scope kernel_scope.
Local Open Scope Z_scope.

Definition PGROUNDUP (sz : Z) : Z := Z.land (u32 (sz + PGSIZE - 1)) (Z.lnot (PGSIZE - 1)).
Definition PGROUNDDOWN (a : Z) : Z := Z.land (u32 a) (Z.lnot (PGSIZE - 1)).

Section env.
Context `{Env}.

Definition kfree (v : Z) : K unit :=
  if negb (v mod PGSIZE =? 0) || (v <? KEND) || (PHYSTOP <=? V2P v) then panic "kfree"
  else
    memset v 1 PGSIZE ;;
    let! use_lock := gets k_use_lock in
    when use_lock (acquire LK_kmem) ;;
    let! freelist := gets k_freelist in
    store32 v freelist ;;
    modify (set_k_freelist v) ;;
    when use_lock (release LK_kmem).

Definition kalloc : K Z :=
  let! use_lock := gets k_use_lock in
  when use_lock (acquire LK_kmem) ;;
  let! r := gets k_freelist in
  when (negb (r =? 0)) (
    let! next := load32 r in
    modify (set_k_freelist next)) ;;
  when use_lock (release LK_kmem) ;;
  ret r.

Definition freerange (vstart vend : Z) : K unit :=
  loop (S (Z.to_nat (vend / PGSIZE))) (λ p,
    if p + PGSIZE <=? vend then
      kfree p ;;
      ret (inl (p + PGSIZE))
    else ret (inr tt)) (PGROUNDUP vstart).

Definition kinit1 (vstart vend : Z) : K unit :=
  modify (set_k_use_lock false) ;;
  freerange vstart vend.

Definition kinit2 (vstart vend : Z) : K unit :=
  freerange vstart vend ;;
  modify (set_k_use_lock true).

(** ** The free list *)

(** A page that [kfree] accepts. *)
Definition page_ok (a : Z) : Prop :=
  0 < a < 2 ^ 32 ∧ a mod PGSIZE = 0 ∧ KEND ≤ a ∧ V2P a < PHYSTOP.

Fixpoint chain (m : gmap Z Z) (head : Z) (l : list Z) : Prop :=
  match l with
  | [] => head = 0
  | a :: l' => head = a ∧ ∃ next, word m a = Some next ∧ chain m next l'
  end.

Record kmem_inv (s : kernel) (l : list Z) : Prop := {
  km_chain : chain (k_mem s) (k_freelist s) l;
  km_nodup : NoDup l;
  km_pages a : a ∈ l → page_ok a ∧ mapped (k_mem s) a PGSIZE;
}.

Lemma page_disjoint a b :
  a mod PGSIZE = 0 → b mod PGSIZE = 0 → a ≠ b → a + PGSIZE ≤ b ∨ b + PGSIZE ≤ a.
Proof.
  unfold PGSIZE. intros Ha%Z.mod_divide Hb%Z.mod_divide Hne; [|done..].
  destruct Ha as [x ->], Hb as [y ->]. lia.
Qed.

Lemma page_disjoint_n b v n :
  b mod PGSIZE = 0 → v mod PGSIZE = 0 → b ≠ v → n ≤ PGSIZE → b + 4 ≤ v ∨ v + n ≤ b.
Proof.
  intros Hb Hv Hne Hn. destruct (page_disjoint b v Hb Hv Hne); unfold PGSIZE in *; lia.
Qed.

Lemma chain_write m head l a bs :
  (∀ b, b ∈ l → b + 4 ≤ a ∨ a + Z.of_nat (length bs) ≤ b) →
  chain m head l → chain (mem_write a bs m) head l.
Proof.
  revert head. induction l as [|b l IH]; intros head Hd; [done|]. simpl.
  intros (-> & next & Hw & Hc). split; [done|]. exists next.
  rewrite word_write_ne by (apply Hd; set_solver). split; [done|].
  apply IH; [set_solver|done].
Qed.

(** The allocator's part of a state, and the state with another free list. *)
Definition with_freelist (next : Z) (s : kernel) : kernel :=
  set_k_freelist next (lock_pair (k_use_lock s) s).

Lemma lock_in_same b l s :
  k_mem (lock_in b l s) = k_mem s ∧ k_freelist (lock_in b l s) = k_freelist s.
Proof. by destruct b. Qed.

Lemma lock_out_eq b l s f m :
  set_k_held (k_held s) (set_k_cpu (k_cpu (lock_pair b s))
    (set_k_freelist f (set_k_mem m (lock_in b l s)))) =
  set_k_freelist f (set_k_mem m (lock_pair b s)).
Proof. destruct b; [done|]. by destruct s. Qed.

Lemma kmem_inv_same s s' l :
  k_mem s' = k_mem s → k_freelist s' = k_freelist s → kmem_inv s l → kmem_inv s' l.
Proof. intros E1 E2 [? ? ?]. split; by rewrite ?E1, ?E2. Qed.

Lemma freelist_range s l : kmem_inv s l → 0 ≤ k_freelist s < 2 ^ 32.
Proof.
  intros [Hc _ Hp]. destruct l as [|a l]; simpl in Hc; [rewrite Hc; lia|].
  destruct Hc as [-> _]. destruct (Hp a) as [[? _] _]; [set_solver|lia].
Qed.

(** [kalloc] returns the first free page, or 0 when there is none. *)
Lemma kalloc_eq s l :
  cpu_ok s → LK_kmem ∉ k_held s → kmem_inv s l →
  ∃ next, kalloc s = Ok (hd 0 l) (with_freelist next s) ∧
    kmem_inv (with_freelist next s) (tl l).
Proof.
  intros Hok Hl [Hc Hd Hp]. unfold kalloc. erewrite bind_Ok by done.
  erewrite bind_Ok by by apply when_acquire_eq.
  set (s0 := lock_in _ _ s). destruct (lock_in_same (k_use_lock s) LK_kmem s) as [Hm0 Hf0].
  fold s0 in Hm0, Hf0. erewrite bind_Ok by done. rewrite Hf0.
  assert (Hbody : ∃ next, (when (negb (k_freelist s =? 0)) (
      let! next := load32 (k_freelist s) in modify (set_k_freelist next))) s0 =
      Ok tt (set_k_freelist next (set_k_mem (k_mem s) s0)) ∧
      chain (k_mem s) next (tl l) ∧ k_freelist s = hd 0 l).
  { replace (set_k_mem (k_mem s) s0) with s0 by (rewrite <-Hm0; by destruct s0).
    destruct l as [|a l]; simpl in Hc.
    - rewrite Hc. simpl. exists 0. split_and!; [|done..].
      rewrite <-Hc, <-Hf0. by destruct s0.
    - destruct Hc as (-> & next & Hw & Hc).
      destruct (Hp a) as [(Ha & _) _]; [set_solver|].
      destruct (Z.eqb_spec a 0); [lia|]. simpl. exists next.
      by erewrite bind_Ok by (apply load32_eq; by rewrite Hm0). }
  destruct Hbody as (next & Hbody & Hchain & Hhd). exists next.
  erewrite bind_Ok by exact Hbody.
  erewrite bind_Ok by (by apply when_release_eq). unfold s0. rewrite lock_out_eq.
  assert (E : set_k_freelist next (set_k_mem (k_mem s) (lock_pair (k_use_lock s) s)) =
    with_freelist next s).
  { unfold with_freelist. destruct (k_use_lock s); [done|]. by destruct s. }
  rewrite E. split; [by rewrite Hhd|].
  apply (kmem_inv_same (set_k_freelist next s)); [by unfold with_freelist; destruct (k_use_lock s)|done|].
  destruct l as [|a l]; [by split|]. apply NoDup_cons in Hd as [_ ?].
  split; [done|done|]. intros b Hb. apply Hp. by right.
Qed.

(** The memory after [kfree v]: junk, and the old list head in the first word. *)
Definition freed_mem (v head : Z) (m : gmap Z Z) : gmap Z Z :=
  mem_write v (bytes32 head) (mem_write v (replicate (Z.to_nat PGSIZE) 1) m).

Definition freed (v : Z) (s : kernel) : kernel :=
  set_k_freelist v (set_k_mem (freed_mem v (k_freelist s) (k_mem s)) (lock_pair (k_use_lock s) s)).

(** [kfree] pushes a page that is not free yet. *)
Lemma kfree_eq s l v :
  cpu_ok s → LK_kmem ∉ k_held s → kmem_inv s l →
  page_ok v → mapped (k_mem s) v PGSIZE → v ∉ l →
  kfree v s = Ok tt (freed v s) ∧ kmem_inv (freed v s) (v :: l).
Proof.
  intros Hok Hl Hinv (Hv & Hal & Hend & Htop) Hm Hv'.
  pose proof (freelist_range s l Hinv) as Hfl. destruct Hinv as [Hc Hd Hp].
  set (m1 := mem_write v (replicate (Z.to_nat PGSIZE) 1) (k_mem s)).
  assert (Hm1 : mapped m1 v 4).
  { intros x Hx. apply (mapped_write _ _ _ v PGSIZE Hm). unfold PGSIZE. lia. }
  split.
  - unfold kfree. rewrite (proj2 (Z.eqb_eq _ _) Hal), (proj2 (Z.ltb_ge _ _) Hend). simpl.
    rewrite (proj2 (Z.leb_gt _ _) Htop).
    erewrite bind_Ok by exact (memset_eq s v 1 (Z.to_nat PGSIZE) Hm).
    fold m1. erewrite bind_Ok by done.
    set (s1 := write v _ s). change (k_use_lock s1) with (k_use_lock s).
    assert (Hok1 : cpu_ok s1) by by eapply cpu_ok_same.
    erewrite bind_Ok by by apply when_acquire_eq. erewrite bind_Ok by done.
    destruct (lock_in_same (k_use_lock s) LK_kmem s1) as [Hm0 Hf0]. rewrite Hf0.
    erewrite bind_Ok by (apply store32_eq; by rewrite Hm0). erewrite bind_Ok by done.
    rewrite (when_release_eq _ _ s1) by done. unfold write at 1. rewrite Hm0.
    rewrite lock_out_eq. f_equal. unfold freed, freed_mem, s1. by destruct (k_use_lock s).
  - split; [|by constructor|].
    + split; [done|]. exists (k_freelist s). simpl. unfold freed_mem. rewrite word_write_eq.
      split; [f_equal; by apply Z.mod_small|].
      assert (Hdis : ∀ b n, b ∈ l → n ≤ PGSIZE → b + 4 ≤ v ∨ v + n ≤ b).
      { intros b n Hb Hn. destruct (Hp b Hb) as [(_ & Hba & _) _].
        apply page_disjoint_n; [done..| |done]. by intros ->. }
      apply chain_write; [|apply chain_write; [|done]].
      * intros b Hb. apply Hdis; [done|]. unfold PGSIZE. simpl. lia.
      * intros b Hb. apply Hdis; [done|]. rewrite length_replicate. unfold PGSIZE. lia.
    + intros a Ha. assert (page_ok a ∧ mapped (k_mem s) a PGSIZE) as [? Hma].
      { apply elem_of_cons in Ha as [->|Ha]; [|by apply Hp]. split; [|done]. by split. }
      split; [done|]. simpl. by apply mapped_write, mapped_write.
Qed.

Lemma freed_cpu v s :
  cpu_ok s → cpu_ok (freed v s) ∧ k_held (freed v s) = k_held s.
Proof.
  intros Hok. unfold freed, lock_pair. destruct (k_use_lock s); [|split; [by eapply cpu_ok_same|done]].
  split; [|done]. eapply cpu_ok_same; [by apply (cpu_ok_touched s)|done..].
Qed.

Lemma freed_mapped v s a n : mapped (k_mem s) a n → mapped (k_mem (freed v s)) a n.
Proof. intros Hm. simpl. by apply mapped_write, mapped_write. Qed.

(** The pages from [p] on that lie below [vend]. *)
Definition pages (p vend : Z) : list Z :=
  (λ i, p + PGSIZE * i) <$> seqZ 0 ((vend - p) / PGSIZE).

Lemma pages_cons p vend :
  p + PGSIZE ≤ vend → pages p vend = p :: pages (p + PGSIZE) vend.
Proof.
  intros Hp. unfold pages.
  replace ((vend - p) / PGSIZE) with (Z.succ ((vend - (p + PGSIZE)) / PGSIZE)).
  2:{ unfold PGSIZE in *. replace (vend - p) with (vend - (p + 4096) + 1 * 4096) by lia.
      rewrite Z.div_add by lia. lia. }
  assert (0 ≤ (vend - (p + PGSIZE)) / PGSIZE) by (apply Z.div_pos; unfold PGSIZE in *; lia).
  rewrite seqZ_cons by lia. rewrite Z.pred_succ, fmap_cons. f_equal; [unfold PGSIZE; lia|].
  rewrite <-(fmap_add_seqZ 1 0), <-list_fmap_compose. apply list_fmap_ext.
  intros i x _. simpl. unfold PGSIZE. lia.
Qed.

Lemma pages_nil p vend : vend < p + PGSIZE → pages p vend = [].
Proof.
  intros Hp. unfold pages. rewrite seqZ_nil; [done|].
  assert ((vend - p) / PGSIZE < 1); [|lia]. apply Z.div_lt_upper_bound; unfold PGSIZE in *; lia.
Qed.

Lemma pages_head_fresh p vend : p ∉ pages (p + PGSIZE) vend.
Proof.
  unfold pages. intros (i & Hi & [? ?]%elem_of_seqZ)%list_elem_of_fmap.
  unfold PGSIZE in *. lia.
Qed.

(** [freerange] puts every page of the range on the free list, last page first. *)
Lemma freerange_loop fuel s l p vend :
  cpu_ok s → LK_kmem ∉ k_held s → kmem_inv s l →
  (∀ a, a ∈ pages p vend → page_ok a ∧ mapped (k_mem s) a PGSIZE ∧ a ∉ l) →
  (length (pages p vend) < fuel)%nat →
  ∃ s', loop fuel (λ p, if p + PGSIZE <=? vend then kfree p ;; ret (inl (p + PGSIZE))
                        else ret (inr tt)) p s = Ok tt s' ∧
    cpu_ok s' ∧ k_held s' = k_held s ∧ kmem_inv s' (rev (pages p vend) ++ l).
Proof.
  revert s l p. induction fuel as [|fuel IH]; intros s l p Hok Hl Hinv Hp Hf; [lia|].
  cbn [loop]. destruct (Z.leb_spec (p + PGSIZE) vend) as [Hle|Hgt].
  - rewrite pages_cons in * by done. destruct (Hp p) as (Hpok & Hpm & Hpl); [set_solver|].
    destruct (kfree_eq s l p Hok Hl Hinv Hpok Hpm Hpl) as [Hk Hinv'].
    destruct (freed_cpu p s Hok) as [Hok' Hh'].
    destruct (IH (freed p s) (p :: l) (p + PGSIZE)) as (s' & Hr & Hok2 & Hh2 & Hinv2);
      [done|by rewrite Hh'|done| |simpl in Hf; lia|].
    { intros a Ha. destruct (Hp a) as (? & ? & ?); [set_solver|].
      split_and!; [done|by apply freed_mapped|]. apply not_elem_of_cons. split; [|done].
      intros ->. by eapply pages_head_fresh. }
    exists s'. erewrite bind_Ok by (by erewrite bind_Ok by exact Hk).
    split_and!; [exact Hr|done|congruence|]. simpl. by rewrite <-app_assoc.
  - rewrite pages_nil in * by done. by exists s.
Qed.

Lemma PGROUNDUP_bounds a : 0 ≤ a → a + PGSIZE ≤ 2 ^ 32 → a ≤ PGROUNDUP a < a + PGSIZE.
Proof.
  intros Ha Hb. unfold PGROUNDUP, PGSIZE in *. change (4096 - 1) with (Z.ones 12).
  rewrite <-Z.ldiff_land, Z.ldiff_ones_r by lia.
  rewrite Z.shiftl_mul_pow2, Z.shiftr_div_pow2 by lia. unfold u32. rewrite Z.mod_small by lia.
  pose proof (Z.div_mod (a + 4096 - 1) (2 ^ 12)). pose proof (Z.mod_pos_bound (a + 4096 - 1) (2 ^ 12)).
  lia.
Qed.

Lemma freerange_eq s l vstart vend :
  cpu_ok s → LK_kmem ∉ k_held s → kmem_inv s l → 0 ≤ vstart → vstart + PGSIZE ≤ 2 ^ 32 →
  0 ≤ vend →
  (∀ a, a ∈ pages (PGROUNDUP vstart) vend → page_ok a ∧ mapped (k_mem s) a PGSIZE ∧ a ∉ l) →
  ∃ s', freerange vstart vend s = Ok tt s' ∧ cpu_ok s' ∧ k_held s' = k_held s ∧
    kmem_inv s' (rev (pages (PGROUNDUP vstart) vend) ++ l).
Proof.
  intros Hok Hl Hinv H0 H1 H2 Hp. apply freerange_loop; [done..|].
  pose proof (PGROUNDUP_bounds vstart H0 H1).
  unfold pages. rewrite length_fmap, length_seqZ.
  assert ((vend - PGROUNDUP vstart) / PGSIZE ≤ vend / PGSIZE); [|lia].
  apply Z.div_le_mono; unfold PGSIZE; lia.
Qed.
End env.
