(* ===== verification/MemThm.v ===== *)
(** * MemThm: memory copies and the page allocator (string.c, kalloc.c) *)

From stdpp Require Import base numbers gmap strings option list.
From S2P Require Import Prelude Format Machine Boot Mem ProcCore Kalloc.
Local Open Scope kernel_scope.
Local Open Scope Z_scope.

(** memmove copies the n source bytes as they were before the call, whether or
    not the blocks overlap, and changes no other byte. *)
Theorem memmove_copies s dst src (n : nat) l :
  mapped (k_mem s) dst (Z.of_nat n) → mem_read (k_mem s) src n = Some l →
  (∀ b, b ∈ l → 0 ≤ b < 256) →
  ∃ s', memmove dst src (Z.of_nat n) s = Ok dst s' ∧
    mem_read (k_mem s') dst n = Some l ∧
    ∀ x, ¬ (dst ≤ x < dst + Z.of_nat n) → k_mem s' !! x = k_mem s !! x.
Proof.
  intros Hd Hl Hb. pose proof Hl as [Hlen _]%mem_read_Some.
  exists (write dst l s). split; [by apply memmove_eq|]. split.
  - apply mem_read_Some. split; [done|]. intros i Hi. simpl. rewrite lookup_mem_write.
    rewrite decide_True by lia. f_equal. lia.
  - intros x Hx. simpl. rewrite lookup_mem_write. by rewrite decide_False by lia.
Qed.

Definition four_bytes : kernel := set_k_mem (mem_write 100 [1; 2; 3; 4] ∅) zero_kernel.

Lemma memmove_copies_witness :
  ∃ s', memmove 101 100 3 four_bytes = Ok 101 s' ∧ mem_read (k_mem s') 101 3 = Some [1; 2; 3].
Proof.
  destruct (memmove_copies four_bytes 101 100 3 [1; 2; 3]) as (s' & E & Hr & _).
  - intros x Hx. change (is_Some (mem_write 100 [1; 2; 3; 4] ∅ !! x)). rewrite lookup_mem_write.
    rewrite decide_True by (simpl; lia). apply lookup_lt_is_Some_2. simpl. lia.
  - vm_compute. reflexivity.
  - intros b Hb. repeat (apply elem_of_cons in Hb as [->|Hb]; [lia|]). by apply not_elem_of_nil in Hb.
  - exists s'. split; [exact E|exact Hr].
Defined.

(** ** The pages of a range *)

Lemma PGROUNDUP_aligned a : 0 ≤ a → a + PGSIZE ≤ 2 ^ 32 → PGROUNDUP a mod PGSIZE = 0.
Proof.
  intros Ha Hb. unfold PGROUNDUP, PGSIZE in *. change (4096 - 1) with (Z.ones 12).
  rewrite <-Z.ldiff_land, Z.ldiff_ones_r by lia. rewrite Z.shiftl_mul_pow2 by lia.
  change (2 ^ 12) with 4096. by apply Z.mod_mul.
Qed.

Lemma pages_all vstart vend a :
  0 ≤ vstart → vstart + PGSIZE ≤ 2 ^ 32 →
  a mod PGSIZE = 0 → vstart ≤ a → a + PGSIZE ≤ vend → a ∈ pages (PGROUNDUP vstart) vend.
Proof.
  intros H0 H1 Ha Hs He. pose proof (PGROUNDUP_bounds vstart H0 H1) as Hb.
  pose proof (PGROUNDUP_aligned vstart H0 H1) as Hal. unfold pages, PGSIZE in *.
  apply Z.mod_divide in Ha as [x ->]; [|done]. apply Z.mod_divide in Hal as [y Hy]; [|done].
  rewrite Hy in *. apply list_elem_of_fmap. exists (x - y). split; [lia|]. apply elem_of_seqZ.
  split; [lia|]. assert (x - y + 1 ≤ (vend - y * 4096) / 4096); [|lia].
  apply Z.div_le_lower_bound; lia.
Qed.

(** ** The allocator *)

Section alloc.
Context `{Env}.

(** kfree and kalloc: a page that is freed is the next one to be allocated, and
    the free list is then what it was; no page is on the list twice. *)
Theorem kfree_kalloc s l v :
  cpu_ok s → LK_kmem ∉ k_held s → kmem_inv s l →
  page_ok v → mapped (k_mem s) v PGSIZE → v ∉ l →
  ∃ s1 s2, kfree v s = Ok tt s1 ∧ kmem_inv s1 (v :: l) ∧
    kalloc s1 = Ok v s2 ∧ kmem_inv s2 l ∧ NoDup (v :: l).
Proof.
  intros Hok Hl Hi Hv Hm Hnl. destruct (kfree_eq s l v Hok Hl Hi Hv Hm Hnl) as [E Hi1].
  destruct (freed_cpu v s Hok) as [Hok1 Hh1].
  destruct (kalloc_eq (freed v s) (v :: l)) as (next & E2 & Hi2); [done|by rewrite Hh1|done|].
  eexists _, _. split_and!; [exact E|done|exact E2|exact Hi2|]. apply (km_nodup _ _ Hi1).
Qed.

(** kalloc on an empty free list returns 0, and on any list never gives out a
    page that stays on the list; the page it returns is page-aligned memory between
    the kernel's end and PHYSTOP. *)
Theorem kalloc_exclusive s l :
  cpu_ok s → LK_kmem ∉ k_held s → kmem_inv s l →
  ∃ r s', kalloc s = Ok r s' ∧ kmem_inv s' (tl l) ∧
    (r = 0 ↔ l = []) ∧ (r ≠ 0 → page_ok r ∧ mapped (k_mem s') r PGSIZE ∧ r ∉ tl l).
Proof.
  intros Hok Hl Hi. destruct (kalloc_eq s l Hok Hl Hi) as (next & E & Hi').
  exists (hd 0 l), (with_freelist next s). split_and!; [exact E|done| |].
  - destruct l as [|a l]; [done|]. simpl. destruct (km_pages _ _ Hi a) as [[? _] _]; [by left|].
    split; [lia|done].
  - destruct l as [|a l]; [done|]. intros _. simpl. destruct (km_pages _ _ Hi a) as [? Hm]; [by left|].
    pose proof (km_nodup _ _ Hi) as [? _]%NoDup_cons. split_and!; [done| |done].
    by destruct (k_use_lock s).
Qed.

(** kfree panics on an address that is not page-aligned, lies in the kernel image
    or above PHYSTOP, before it writes anything. *)
Theorem kfree_rejects s v :
  v mod PGSIZE ≠ 0 ∨ v < KEND ∨ PHYSTOP ≤ V2P v → kfree v s = Panic "kfree" s.
Proof.
  intros Hv. unfold kfree. destruct (_ || _) eqn:E; [done|].
  apply orb_false_iff in E as [[E1 E2]%orb_false_iff E3].
  apply negb_false_iff, Z.eqb_eq in E1. apply Z.ltb_ge in E2. apply Z.leb_gt in E3. lia.
Qed.

(** freerange puts every whole page of the range on the free list, each once. *)
Theorem freerange_frees s l vstart vend :
  cpu_ok s → LK_kmem ∉ k_held s → kmem_inv s l → 0 ≤ vstart → vstart + PGSIZE ≤ 2 ^ 32 →
  0 ≤ vend →
  (∀ a, a ∈ pages (PGROUNDUP vstart) vend → page_ok a ∧ mapped (k_mem s) a PGSIZE ∧ a ∉ l) →
  ∃ s', freerange vstart vend s = Ok tt s' ∧
    kmem_inv s' (rev (pages (PGROUNDUP vstart) vend) ++ l) ∧
    ∀ a, a mod PGSIZE = 0 → vstart ≤ a → a + PGSIZE ≤ vend →
      a ∈ rev (pages (PGROUNDUP vstart) vend) ++ l.
Proof.
  intros Hok Hl Hi H0 H1 H2 Hp.
  destruct (freerange_eq s l vstart vend Hok Hl Hi H0 H1 H2 Hp) as (s' & E & _ & _ & Hi').
  exists s'. split_and!; [exact E|exact Hi'|]. intros a Ha Hs He. apply elem_of_app. left.
  apply list_elem_of_In, in_rev. rewrite rev_involutive. apply list_elem_of_In.
  by apply pages_all.
Qed.
End alloc.

(** The two pages just below the top of the memory that exists. *)
Definition two_pages : kernel :=
  set_k_mem (mem_write 0x8dffe000 (replicate (Z.to_nat (2 * PGSIZE)) 0) ∅) zero_kernel.

Local Lemma two_pages_mapped a n :
  0x8dffe000 ≤ a → a + n ≤ 0x8e000000 → mapped (k_mem two_pages) a n.
Proof.
  intros Ha Hn x Hx. 
  change (is_Some (mem_write 0x8dffe000 (replicate (Z.to_nat (2 * PGSIZE)) 0) ∅ !! x)).
  rewrite lookup_mem_write, length_replicate.
  rewrite Z2Nat.id by (unfold PGSIZE; lia). rewrite decide_True by (unfold PGSIZE; lia).
  apply lookup_lt_is_Some_2. rewrite length_replicate. unfold PGSIZE. lia.
Qed.
Local Lemma two_pages_inv : @kmem_inv (sample_env MLFQ) two_pages [].
Proof. split; [done|constructor|]. intros a Ha. by apply not_elem_of_nil in Ha. Qed.
Local Lemma two_pages_cpu : cpu_ok two_pages.
Proof. split; [done|done|constructor]. Qed.
Local Lemma sample_page a :
  a mod PGSIZE = 0 → 0x80110000 ≤ a < 0x8e000000 → @page_ok (sample_env MLFQ) a.
Proof.
  intros Hal Ha. split_and!; [lia|lia|done|simpl; lia|].
  unfold V2P, PHYSTOP, KERNBASE, u32. rewrite Z.mod_small; lia.
Qed.

Lemma kfree_kalloc_witness :
  ∃ s1 s2, @kfree (sample_env MLFQ) 0x8dfff000 two_pages = Ok tt s1 ∧ kalloc s1 = Ok 0x8dfff000 s2.
Proof.
  destruct (@kfree_kalloc (sample_env MLFQ) two_pages [] 0x8dfff000 two_pages_cpu)
    as (s1 & s2 & E1 & _ & E2 & _).
  - apply not_elem_of_nil.
  - apply two_pages_inv.
  - apply sample_page; [reflexivity|lia].
  - apply two_pages_mapped; unfold PGSIZE; lia.
  - apply not_elem_of_nil.
  - exists s1, s2. split; [exact E1|exact E2].
Defined.

Lemma kalloc_exclusive_witness : ∃ r s', kalloc two_pages = Ok r s' ∧ r = 0.
Proof.
  destruct (@kalloc_exclusive (sample_env MLFQ) two_pages [] two_pages_cpu)
    as (r & s' & E & _ & H & _).
  - apply not_elem_of_nil.
  - apply two_pages_inv.
  - exists r, s'. split; [exact E|]. apply H. reflexivity.
Defined.

Lemma kfree_rejects_witness : @kfree (sample_env MLFQ) 0x80000000 two_pages = Panic "kfree" two_pages.
Proof. apply (@kfree_rejects (sample_env MLFQ)). right. left. reflexivity. Defined.

Lemma freerange_frees_witness :
  ∃ s', @freerange (sample_env MLFQ) 0x8dffe000 0x8e000000 two_pages = Ok tt s' ∧
    @kmem_inv (sample_env MLFQ) s' [0x8dfff000; 0x8dffe000].
Proof.
  destruct (@freerange_frees (sample_env MLFQ) two_pages [] 0x8dffe000 0x8e000000 two_pages_cpu)
    as (s' & E & Hi & _).
  - apply not_elem_of_nil.
  - apply two_pages_inv.
  - lia.
  - unfold PGSIZE. lia.
  - lia.
  - replace (pages _ _) with [0x8dffe000; 0x8dfff000] by (vm_compute; reflexivity).
    intros a Ha. assert (Hc : a = 0x8dffe000 ∨ a = 0x8dfff000).
    { apply elem_of_cons in Ha as [Ha|Ha]; [by left|]. right. by apply list_elem_of_singleton. }
    split_and!; [|apply two_pages_mapped; unfold PGSIZE; lia|apply not_elem_of_nil].
    destruct Hc as [-> | ->]; (apply sample_page; [reflexivity|lia]).
  - exists s'. split; [exact E|]. exact Hi.
Defined.
