(* ===== verification/Vm.v ===== *)
(** * Vm: page tables and user address spaces (vm.c)

    Page directories and page tables are words of the memory [k_mem]; [pde_t *]
    and [pte_t *] are their addresses.  [loaduvm], which reads a file, is in
    [Exec]. *)

From stdpp Require Import base numbers gmap strings option list.
From S2P Require Import Prelude Format Machine Mem ProcCore Kalloc.
Local Open Scope kernel_scope.
Local Open Scope Z_scope.

(** mmu.h *)
Definition NPDENTRIES : Z := 1024.
Definition PTE_P : Z := 0x001.
Definition PTE_W : Z := 0x002.
Definition PTE_U : Z := 0x004.
Definition PDX (va : Z) : Z := Z.land (Z.shiftr va 22) 0x3FF.
Definition PTX (va : Z) : Z := Z.land (Z.shiftr va 12) 0x3FF.
Definition PGADDR (d t o : Z) : Z := u32 (Z.lor (Z.lor (Z.shiftl d 22) (Z.shiftl t 12)) o).
Definition PTE_ADDR (pte : Z) : Z := Z.land pte (Z.lnot 0xFFF).
Definition PTE_FLAGS (pte : Z) : Z := Z.land pte 0xFFF.
(** [flags & bit] as a condition *)
Definition has (flags bit : Z) : bool := negb (Z.land flags bit =? 0).

Definition seginit : K unit :=
  upd_cpu (set_gdt SEG_KCODE (SEG (Z.lor STA_X STA_R) 0 0xffffffff 0)) ;;
  upd_cpu (set_gdt SEG_KDATA (SEG STA_W 0 0xffffffff 0)) ;;
  upd_cpu (set_gdt SEG_UCODE (SEG (Z.lor STA_X STA_R) 0 0xffffffff DPL_USER)) ;;
  upd_cpu (set_gdt SEG_UDATA (SEG STA_W 0 0xffffffff DPL_USER)).

Section env.
Context `{Env}.

Definition walkpgdir (pgdir va : Z) (alloc : bool) : K Z :=
  let pde := pgdir + 4 * PDX va in
  let! e := load32 pde in
  if has e PTE_P then
    let pgtab := P2V (PTE_ADDR e) in
    ret (pgtab + 4 * PTX va)
  else if negb alloc then ret 0
  else
    let! pgtab := kalloc in
    if pgtab =? 0 then ret 0
    else
      memset pgtab 0 PGSIZE ;;
      store32 pde (Z.lor (Z.lor (Z.lor (V2P pgtab) PTE_P) PTE_W) PTE_U) ;;
      ret (pgtab + 4 * PTX va).

(** The loop leaves when [a == last], after one iteration per page. *)
Definition mappages (pgdir va size pa perm : Z) : K Z :=
  let a := PGROUNDDOWN va in
  let last := PGROUNDDOWN (u32 (va + size - 1)) in
  loop (S (Z.to_nat (u32 (last - a) / PGSIZE))) (λ '(a, pa),
    let! pte := walkpgdir pgdir a true in
    if pte =? 0 then ret (inr (-1))
    else
      let! e := load32 pte in
      if has e PTE_P then panic "remap"
      else
        store32 pte (Z.lor (Z.lor pa perm) PTE_P) ;;
        if a =? last then ret (inr 0)
        else ret (inl (u32 (a + PGSIZE), u32 (pa + PGSIZE)))) (a, pa).

Definition deallocuvm (pgdir oldsz newsz : Z) : K Z :=
  if oldsz <=? newsz then ret (i32 oldsz)
  else
    loop (S (S (Z.to_nat (oldsz / PGSIZE)))) (λ a,
      if negb (a <? oldsz) then ret (inr tt)
      else
        let! pte := walkpgdir pgdir a false in
        if pte =? 0 then
          ret (inl (u32 (u32 (PGADDR (PDX a + 1) 0 0 - PGSIZE) + PGSIZE)))
        else
          let! e := load32 pte in
          when (has e PTE_P) (
            let pa := PTE_ADDR e in
            if pa =? 0 then panic "kfree"
            else
              kfree (P2V pa) ;;
              store32 pte 0) ;;
          ret (inl (u32 (a + PGSIZE)))) (PGROUNDUP newsz) ;;
    ret (i32 newsz).

Definition allocuvm (pgdir oldsz newsz : Z) : K Z :=
  if KERNBASE <=? newsz then ret 0
  else if newsz <? oldsz then ret (i32 oldsz)
  else
    loop (S (S (Z.to_nat (newsz / PGSIZE)))) (λ a,
      if negb (a <? newsz) then ret (inr newsz)
      else
        let! mem := kalloc in
        if mem =? 0 then
          cprintf "allocuvm out of memory\n" [] ;;
          deallocuvm pgdir newsz oldsz ;;
          ret (inr 0)
        else
          memset mem 0 PGSIZE ;;
          let! r := mappages pgdir a PGSIZE (V2P mem) (Z.lor PTE_W PTE_U) in
          if r <? 0 then
            cprintf "allocuvm out of memory (2)\n" [] ;;
            deallocuvm pgdir newsz oldsz ;;
            kfree mem ;;
            ret (inr 0)
          else ret (inl (u32 (a + PGSIZE)))) (PGROUNDUP oldsz).

Definition freevm (pgdir : Z) : K unit :=
  if pgdir =? 0 then panic "freevm: no pgdir"
  else
    deallocuvm pgdir KERNBASE 0 ;;
    for_each (seqZ 0 NPDENTRIES) (λ i,
      let! e := load32 (pgdir + 4 * i) in
      when (has e PTE_P) (kfree (P2V (PTE_ADDR e)))) ;;
    kfree pgdir.

(** [struct kmap kmap[]]: virt, phys_start, phys_end, perm *)
Definition kmap : list (Z * Z * Z * Z) :=
  [(KERNBASE, 0, EXTMEM, PTE_W);
   (KERNLINK, V2P KERNLINK, V2P KDATA, 0);
   (KDATA, V2P KDATA, PHYSTOP, PTE_W);
   (DEVSPACE, DEVSPACE, 0, PTE_W)].

Definition setupkvm : K Z :=
  let! pgdir := kalloc in
  if pgdir =? 0 then ret 0
  else
    memset pgdir 0 PGSIZE ;;
    if DEVSPACE <? P2V PHYSTOP then panic "PHYSTOP too high"
    else
      let! r := for_find kmap (λ '(virt, phys_start, phys_end, perm),
        let! r := mappages pgdir virt (u32 (phys_end - phys_start)) phys_start perm in
        if r <? 0 then
          freevm pgdir ;;
          ret (Some 0)
        else ret None) in
      ret (default pgdir r).

Definition kvmalloc : K unit :=
  let! d := setupkvm in
  modify (set_k_kpgdir d) ;;
  switchkvm.

Definition inituvm (pgdir init sz : Z) : K unit :=
  if PGSIZE <=? sz then panic "inituvm: more than a page"
  else
    let! mem := kalloc in
    memset mem 0 PGSIZE ;;
    mappages pgdir 0 PGSIZE (V2P mem) (Z.lor PTE_W PTE_U) ;;
    memmove mem init sz ;;
    ret tt.

Definition clearpteu (pgdir uva : Z) : K unit :=
  let! pte := walkpgdir pgdir uva false in
  if pte =? 0 then panic "clearpteu"
  else
    let! e := load32 pte in
    store32 pte (Z.land e (Z.lnot PTE_U)).

Definition copyuvm (pgdir sz : Z) : K Z :=
  let! d := setupkvm in
  if d =? 0 then ret 0
  else
    loop (S (Z.to_nat (sz / PGSIZE + 1))) (λ i,
      if negb (i <? sz) then ret (inr d)
      else
        let! pte := walkpgdir pgdir i false in
        if pte =? 0 then panic "copyuvm: pte should exist"
        else
          let! e := load32 pte in
          if negb (has e PTE_P) then panic "copyuvm: page not present"
          else
            let pa := PTE_ADDR e in
            let flags := PTE_FLAGS e in
            let! mem := kalloc in
            if mem =? 0 then freevm d ;; ret (inr 0)
            else
              memmove mem (P2V pa) PGSIZE ;;
              let! r := mappages d i PGSIZE (V2P mem) flags in
              if r <? 0 then
                kfree mem ;;
                freevm d ;;
                ret (inr 0)
              else ret (inl (u32 (i + PGSIZE)))) 0.

Definition uva2ka (pgdir uva : Z) : K Z :=
  let! pte := walkpgdir pgdir uva false in
  let! e := load32 pte in
  if negb (has e PTE_P) then ret 0
  else if negb (has e PTE_U) then ret 0
  else ret (P2V (PTE_ADDR e)).

(** [memmove] from an object that is not in a page. *)
Definition store_bytes (a : Z) (l : list Z) : K unit :=
  for_each (zip (seqZ a (Z.of_nat (length l))) l) (λ '(a, b), store8 a b).

Definition copyout (pgdir va : Z) (p : list Z) : K Z :=
  loop (S (S (Z.to_nat (Z.of_nat (length p) / PGSIZE + 1)))) (λ '(va, buf),
    let len := Z.of_nat (length buf) in
    if negb (0 <? len) then ret (inr 0)
    else
      let va0 := PGROUNDDOWN va in
      let! pa0 := uva2ka pgdir va0 in
      if pa0 =? 0 then ret (inr (-1))
      else
        let n := Z.min (PGSIZE - (va - va0)) len in
        store_bytes (pa0 + (va - va0)) (take (Z.to_nat n) buf) ;;
        ret (inl (u32 (va0 + PGSIZE), drop (Z.to_nat n) buf))) (va, p).
End env.
