(* ===== verification/VmThm.v ===== *)
(** * VmThm: page tables (vm.c)

    A page directory with its tables represents a map from virtual page numbers to
    page table entries ([pt_rep]).  The operations of vm.c are operations on that
    map; they take pages from the allocator and give them back, and touch no page
    that belongs to anyone else. *)

From stdpp Require Import base numbers gmap strings option list.
From S2P Require Import Prelude Format Machine Boot Mem ProcCore Kalloc Vm.
Local Open Scope kernel_scope.
Local Open Scope Z_scope.

(** ** Addresses and entries *)

Lemma V2P_range a : 0 ≤ V2P a < 2 ^ 32.
Proof. apply u32_range. Qed.

Lemma P2V_V2P a : 0 ≤ a < 2 ^ 32 → P2V (V2P a) = a.
Proof.
  intros Ha. unfold P2V, V2P, u32. rewrite Zplus_mod_idemp_l.
  replace (a - KERNBASE + KERNBASE) with a by lia. by apply Z.mod_small.
Qed.

Lemma V2P_aligned a : a mod PGSIZE = 0 → V2P a mod PGSIZE = 0.
Proof.
  unfold V2P, u32, PGSIZE, KERNBASE. intros Ha.
  rewrite Z.mod_mod_divide by by exists (2 ^ 20).
  rewrite Zminus_mod, Ha. done.
Qed.

(** An entry is a page address and 12 bits of flags. *)
Lemma lor_low hi lo : hi mod PGSIZE = 0 → 0 ≤ lo < PGSIZE → Z.lor hi lo = hi + lo.
Proof.
  unfold PGSIZE. intros Hhi Hlo. apply Z.mod_divide in Hhi as [q ->]; [|done].
  change 4096 with (2 ^ 12). rewrite <-Z.shiftl_mul_pow2 by lia. rewrite lor_shiftl by lia.
  by rewrite Z.shiftl_mul_pow2 by lia.
Qed.

Lemma PTE_ADDR_add hi lo : hi mod PGSIZE = 0 → 0 ≤ lo < PGSIZE → PTE_ADDR (hi + lo) = hi.
Proof.
  unfold PGSIZE, PTE_ADDR. intros Hhi Hlo. apply Z.mod_divide in Hhi as [q ->]; [|done].
  change 0xFFF with (Z.ones 12). rewrite <-Z.ldiff_land, Z.ldiff_ones_r by lia.
  rewrite Z.shiftl_mul_pow2, Z.shiftr_div_pow2 by lia. change (2 ^ 12) with 4096.
  rewrite Z.div_add_l, (Z.div_small lo) by lia. lia.
Qed.

Lemma PTE_FLAGS_add hi lo : hi mod PGSIZE = 0 → 0 ≤ lo < PGSIZE → PTE_FLAGS (hi + lo) = lo.
Proof.
  unfold PGSIZE, PTE_FLAGS. intros Hhi Hlo. apply Z.mod_divide in Hhi as [q ->]; [|done].
  change 0xFFF with (Z.ones 12). rewrite Z.land_ones by lia. change (2 ^ 12) with 4096.
  rewrite Z.add_comm, Z.mod_add by lia. by apply Z.mod_small.
Qed.

Lemma PTE_split e : 0 ≤ e → e = PTE_ADDR e + PTE_FLAGS e ∧ PTE_ADDR e mod PGSIZE = 0 ∧ 0 ≤ PTE_FLAGS e < PGSIZE.
Proof.
  intros He. unfold PTE_ADDR, PTE_FLAGS, PGSIZE. change 0xFFF with (Z.ones 12).
  rewrite <-Z.ldiff_land, Z.ldiff_ones_r, Z.land_ones by lia.
  rewrite Z.shiftl_mul_pow2, Z.shiftr_div_pow2 by lia. change (2 ^ 12) with 4096.
  pose proof (Z.div_mod e 4096). pose proof (Z.mod_pos_bound e 4096).
  rewrite Z.mod_mul by done. lia.
Qed.

(** [Z.lor (Z.lor pa perm) PTE_P] of [mappages], and the entry of a page table. *)
Definition entry (pa perm : Z) : Z := Z.lor (Z.lor pa perm) PTE_P.
Definition pde_of (tab : Z) : Z := Z.lor (Z.lor (Z.lor (V2P tab) PTE_P) PTE_W) PTE_U.

Lemma lor_range a b n : 0 ≤ n → 0 ≤ a < 2 ^ n → 0 ≤ b < 2 ^ n → 0 ≤ Z.lor a b < 2 ^ n.
Proof.
  intros Hn Ha Hb. split; [by apply Z.lor_nonneg; lia|].
  destruct (decide (Z.lor a b = 0)) as [->|Hz]; [lia|].
  assert (0 < Z.lor a b) by (assert (0 ≤ Z.lor a b) by (apply Z.lor_nonneg; lia); lia).
  apply Z.log2_lt_pow2; [done|]. rewrite Z.log2_lor by lia.
  destruct (decide (n = 0)) as [->|].
  { assert (a = 0) as -> by lia. assert (b = 0) as -> by lia. done. }
  apply Z.max_lub_lt.
  - destruct (decide (a = 0)) as [->|]; [cbn; lia|]. apply Z.log2_lt_pow2; lia.
  - destruct (decide (b = 0)) as [->|]; [cbn; lia|]. apply Z.log2_lt_pow2; lia.
Qed.

Lemma entry_eq pa perm :
  pa mod PGSIZE = 0 → 0 ≤ perm < PGSIZE →
  entry pa perm = pa + Z.lor perm PTE_P ∧ 0 ≤ Z.lor perm PTE_P < PGSIZE.
Proof.
  intros Hpa Hp. assert (Hr : 0 ≤ Z.lor perm PTE_P < PGSIZE).
  { apply (lor_range perm PTE_P 12); unfold PGSIZE, PTE_P in *; lia. }
  split; [|done]. unfold entry. rewrite <-Z.lor_assoc. by apply lor_low.
Qed.

Lemma has_P_lor x : has (Z.lor x PTE_P) PTE_P = true.
Proof.
  unfold has, PTE_P. apply negb_true_iff, Z.eqb_neq. intros E.
  apply (f_equal (λ z, Z.testbit z 0)) in E. rewrite Z.land_spec, Z.lor_spec in E.
  change (Z.testbit 1 0) with true in E. rewrite orb_true_r in E. discriminate.
Qed.
Lemma entry_present pa perm : has (entry pa perm) PTE_P = true.
Proof. apply has_P_lor. Qed.

Lemma pde_of_eq tab : tab mod PGSIZE = 0 → pde_of tab = V2P tab + 7.
Proof.
  intros Ht. unfold pde_of. rewrite <-!Z.lor_assoc. apply lor_low; [by apply V2P_aligned|].
  unfold PGSIZE. cbn. lia.
Qed.
Lemma pde_of_present tab : has (pde_of tab) PTE_P = true.
Proof.
  unfold pde_of. replace (Z.lor (Z.lor (Z.lor (V2P tab) PTE_P) PTE_W) PTE_U)
    with (Z.lor (Z.lor (Z.lor (V2P tab) PTE_W) PTE_U) PTE_P); [apply has_P_lor|].
  rewrite <-!Z.lor_assoc. done.
Qed.

(** A virtual address is a directory index, a table index and an offset. *)
Lemma PDX_eq va : 0 ≤ va < 2 ^ 32 → PDX va = va / PGSIZE / 1024.
Proof.
  intros Hva. unfold PDX, PGSIZE. change 0x3FF with (Z.ones 10). rewrite Z.land_ones by lia.
  rewrite Z.shiftr_div_pow2 by lia. rewrite Z.div_div by lia. apply Z.mod_small. split.
  - apply Z.div_pos; lia.
  - apply Z.div_lt_upper_bound; lia.
Qed.
Lemma PTX_eq va : PTX va = (va / PGSIZE) mod 1024.
Proof.
  unfold PTX, PGSIZE. change 0x3FF with (Z.ones 10). rewrite Z.land_ones by lia.
  by rewrite Z.shiftr_div_pow2 by lia.
Qed.

(** ** Pages and what changes *)

Definition on_page (p x : Z) : Prop := p ≤ x < p + PGSIZE.
Definition on_pages (P : list Z) (x : Z) : Prop := ∃ p, p ∈ P ∧ on_page p x.

Lemma on_pages_app P Q x : on_pages (P ++ Q) x ↔ on_pages P x ∨ on_pages Q x.
Proof.
  split.
  - intros (p & [Hp|Hp]%elem_of_app & Hx); [left|right]; by exists p.
  - intros [(p & Hp & Hx)|(p & Hp & Hx)]; exists p; rewrite elem_of_app; auto.
Qed.
Lemma on_pages_mono P Q x : P ⊆ Q → on_pages P x → on_pages Q x.
Proof. intros HPQ (p & Hp & Hx). exists p. auto. Qed.

(** From [s] to [s'] the memory changed on the pages [P] only; the allocator's list and
    the interrupt nesting may differ. *)
Record changed (P : list Z) (s s' : kernel) : Prop := {
  ch_mem x : ¬ on_pages P x → k_mem s' !! x = k_mem s !! x;
  ch_map x : is_Some (k_mem s !! x) → is_Some (k_mem s' !! x);
  ch_cpu : cpu_ok s → cpu_ok s';
  ch_held : k_held s' = k_held s;
  ch_lock : k_use_lock s' = k_use_lock s;
  ch_rest : s' = set_k_freelist (k_freelist s') (set_k_mem (k_mem s')
              (set_k_out (k_out s') (set_k_cpu (k_cpu s') s)));
}.

Lemma changed_refl P s : changed P s s.
Proof. split; try done. by destruct s. Qed.

Lemma changed_trans P s1 s2 s3 : changed P s1 s2 → changed P s2 s3 → changed P s1 s3.
Proof.
  intros [M1 D1 C1 H1 L1 R1] [M2 D2 C2 H2 L2 R2]. split.
  - intros x Hx. by rewrite M2, M1.
  - intros x Hx. by apply D2, D1.
  - intros Hc. by apply C2, C1.
  - congruence.
  - congruence.
  - rewrite R2, R1. by destruct s1.
Qed.

Lemma changed_mono P Q s s' : P ⊆ Q → changed P s s' → changed Q s s'.
Proof.
  intros HPQ [M1 D1 C1 H1 L1 R1]. split; try done. intros x Hx. apply M1. intros Hp. apply Hx.
  by eapply on_pages_mono.
Qed.

Lemma changed_mapped P s s' a n : changed P s s' → mapped (k_mem s) a n → mapped (k_mem s') a n.
Proof. intros Hc Hm x Hx. by apply (ch_map _ _ _ Hc), Hm. Qed.

(** A write inside a page. *)
Lemma changed_write p a l s :
  p ≤ a → a + Z.of_nat (length l) ≤ p + PGSIZE → mapped (k_mem s) a (Z.of_nat (length l)) →
  changed [p] s (write a l s).
Proof.
  intros H1 H2 Hm. split; try done.
  - intros x Hx. unfold write. cbn [k_mem set_k_mem]. rewrite lookup_mem_write.
    rewrite decide_False; [done|]. intros Hin. apply Hx. exists p. split; [by left|].
    unfold on_page. lia.
  - intros x Hx. unfold write. cbn [k_mem set_k_mem]. rewrite lookup_mem_write.
    case_decide; [|done]. apply lookup_lt_is_Some_2. lia.
  - intros Hc. by eapply cpu_ok_same.
Qed.

Lemma word_same m m' a : (∀ i, 0 ≤ i < 4 → m' !! (a + i) = m !! (a + i)) → word m' a = word m a.
Proof.
  intros Hs. unfold word. pose proof (Hs 0 ltac:(lia)) as H0. rewrite Z.add_0_r in H0.
  by rewrite H0, !Hs by lia.
Qed.

Lemma word_changed P s s' p i :
  changed P s s' → p ∉ P → (∀ q, q ∈ P → q mod PGSIZE = 0) → p mod PGSIZE = 0 →
  0 ≤ i → i + 4 ≤ PGSIZE → word (k_mem s') (p + i) = word (k_mem s) (p + i).
Proof.
  intros Hc Hp HP Hal Hi Hi4. apply word_same. intros j Hj. apply (ch_mem _ _ _ Hc).
  intros (q & Hq & Hon). unfold on_page in Hon.
  destruct (page_disjoint p q Hal (HP q Hq)) as [?|?]; [by intros ->|lia|lia].
Qed.

Lemma mem_read_changed P s s' p :
  changed P s s' → p ∉ P → (∀ q, q ∈ P → q mod PGSIZE = 0) → p mod PGSIZE = 0 →
  ∀ x, on_page p x → k_mem s' !! x = k_mem s !! x.
Proof.
  intros Hc Hp HP Hal x Hx. apply (ch_mem _ _ _ Hc). intros (q & Hq & Hon). unfold on_page in *.
  destruct (page_disjoint p q Hal (HP q Hq)) as [?|?]; [by intros ->|lia|lia].
Qed.

Section env.
Context `{Env}.

(** ** The allocator, as a step *)

Lemma kalloc_step s l :
  cpu_ok s → LK_kmem ∉ k_held s → kmem_inv s l →
  ∃ s', kalloc s = Ok (hd 0 l) s' ∧ kmem_inv s' (tl l) ∧ changed [] s s' ∧ k_mem s' = k_mem s.
Proof.
  intros Hok Hh Hi. destruct (kalloc_eq s l Hok Hh Hi) as (next & E & Hi').
  exists (with_freelist next s). split_and!; [done|done| |by unfold with_freelist; destruct (k_use_lock s)].
  unfold with_freelist. destruct (k_use_lock s) eqn:Eu; cbn [lock_pair].
  - split; try done. intros _. by eapply cpu_ok_same; [apply (cpu_ok_touched s)|..].
  - split; try done. intros _. by eapply cpu_ok_same.
Qed.

Lemma kfree_step s l p :
  cpu_ok s → LK_kmem ∉ k_held s → kmem_inv s l →
  page_ok p → mapped (k_mem s) p PGSIZE → p ∉ l →
  ∃ s', kfree p s = Ok tt s' ∧ kmem_inv s' (p :: l) ∧ changed [p] s s'.
Proof.
  intros Hok Hh Hi Hp Hm Hpl. destruct (kfree_eq s l p Hok Hh Hi Hp Hm Hpl) as [E Hi'].
  exists (freed p s). split_and!; [done|done|]. destruct (freed_cpu p s Hok) as [Hc Hk].
  assert (Em : k_mem (freed p s) = freed_mem p (k_freelist s) (k_mem s)) by reflexivity.
  assert (Es : ∃ c, freed p s = set_k_freelist p (set_k_mem (freed_mem p (k_freelist s) (k_mem s)) (set_k_cpu c s))).
  { unfold freed. generalize (freed_mem p (k_freelist s) (k_mem s)). intros m.
    destruct (k_use_lock s); [by eexists|]. exists (k_cpu s). by destruct s. }
  split.
  - intros x Hx. assert (Hnp : ¬ on_page p x) by (intros Hon; apply Hx; exists p; split; [by left|done]).
    rewrite Em. unfold on_page, PGSIZE in Hnp. unfold freed_mem.
    rewrite !lookup_mem_write, length_replicate. unfold PGSIZE. rewrite !decide_False; [reflexivity|lia|].
    cbn [length bytes32]. lia.
  - intros x Hx. rewrite Em. unfold freed_mem. rewrite !lookup_mem_write.
    case_decide; [apply lookup_lt_is_Some_2; lia|].
    case_decide; [apply lookup_lt_is_Some_2; lia|exact Hx].
  - intros _. exact Hc.
  - exact Hk.
  - destruct Es as [c ->]. reflexivity.
  - destruct Es as [c ->]. generalize (freed_mem p (k_freelist s) (k_mem s)). intros m. by destruct s.
Qed.

(** ** The representation

    [T]: the page tables, by directory index.  [A]: the present entries, by virtual
    page number. *)
Record pt_rep (m : gmap Z Z) (pgdir : Z) (T A : gmap Z Z) : Prop := {
  pt_dir d : 0 ≤ d < 1024 → ∃ e, word m (pgdir + 4 * d) = Some e ∧
    match T !! d with Some tab => e = pde_of tab | None => has e PTE_P = false end;
  pt_dom d tab : T !! d = Some tab → 0 ≤ d < 1024;
  pt_tab d tab i : T !! d = Some tab → 0 ≤ i < 1024 →
    ∃ e, word m (tab + 4 * i) = Some e ∧ 0 ≤ e ∧
      A !! (d * 1024 + i) = if has e PTE_P then Some e else None;
  pt_none d i : T !! d = None → 0 ≤ i < 1024 → A !! (d * 1024 + i) = None;
}.

(** The pages of the directory and the tables. *)
Definition tabs (pgdir : Z) (T : gmap Z Z) : list Z := pgdir :: (map_to_list T).*2.

Lemma tabs_insert pgdir T d tab :
  T !! d = None → tabs pgdir (<[d := tab]> T) ≡ₚ tab :: tabs pgdir T.
Proof.
  intros Hd. unfold tabs. rewrite map_to_list_insert by done. simpl. apply Permutation_swap.
Qed.
Lemma tabs_lookup pgdir T d tab : T !! d = Some tab → tab ∈ tabs pgdir T.
Proof.
  intros Hd. unfold tabs. right. apply list_elem_of_fmap. exists (d, tab). split; [done|].
  by apply elem_of_map_to_list.
Qed.

(** Pages that someone holds: real, and in nobody else's hands. *)
Record owned (s : kernel) (l P : list Z) : Prop := {
  ow_free : kmem_inv s l;
  ow_page p : p ∈ P → page_ok p ∧ mapped (k_mem s) p PGSIZE;
  ow_nodup : NoDup (l ++ P);
  ow_cpu : cpu_ok s;
  ow_held : LK_kmem ∉ k_held s;
}.

Lemma owned_aligned s l P p : owned s l P → p ∈ P → p mod PGSIZE = 0.
Proof. intros Ho Hp. by destruct (ow_page _ _ _ Ho p Hp) as [(_ & ? & _) _]. Qed.
Lemma owned_range s l P p : owned s l P → p ∈ P → 0 < p < 2 ^ 32.
Proof. intros Ho Hp. by destruct (ow_page _ _ _ Ho p Hp) as [(? & _) _]. Qed.
Lemma free_aligned s l P p : owned s l P → p ∈ l → p mod PGSIZE = 0.
Proof. intros Ho Hp. by destruct (km_pages _ _ (ow_free _ _ _ Ho) p Hp) as [(_ & ? & _) _]. Qed.

(** The free list survives changes to pages that are not free. *)
Lemma chain_changed P s s' head l :
  changed P s s' → (∀ p, p ∈ P → p ∉ l) → (∀ p, p ∈ P → p mod PGSIZE = 0) →
  (∀ p, p ∈ l → p mod PGSIZE = 0) →
  chain (k_mem s) head l → chain (k_mem s') head l.
Proof.
  intros Hc HP Hal. revert head. induction l as [|a l IH]; intros head Hl; [done|].
  intros (-> & next & Hw & Hch). split; [done|]. exists next. split.
  - rewrite <-Hw. rewrite <-(Z.add_0_r a).
    apply (word_changed P s s'); [done| |done|apply Hl; by left|lia|unfold PGSIZE; lia].
    intros Ha. apply (HP a Ha). by left.
  - apply IH; [|intros p Hp; apply Hl; by right|done]. intros p Hp Hin. apply (HP p Hp). by right.
Qed.

Lemma owned_changed s s' l P Q :
  owned s l P → changed Q s s' → k_freelist s' = k_freelist s → (∀ q, q ∈ Q → q ∈ P) → owned s' l P.
Proof.
  intros Ho Hc Hf HQ. pose proof (ow_nodup _ _ _ Ho) as (_ & Hd & _)%NoDup_app. split.
  - destruct (ow_free _ _ _ Ho) as [Hch Hnd Hp]. split; [|done|].
    + rewrite Hf. apply (chain_changed Q s); [done| | | |done].
      * intros q Hq Hl. by apply (Hd q Hl), HQ.
      * intros q Hq. eapply owned_aligned; [exact Ho|by apply HQ].
      * intros q Hq. by apply Hp.
    + intros a Ha. destruct (Hp a Ha). split; [done|]. by eapply changed_mapped.
  - intros p Hp. destruct (ow_page _ _ _ Ho p Hp). split; [done|]. by eapply changed_mapped.
  - apply Ho.
  - apply (ch_cpu _ _ _ Hc), Ho.
  - rewrite (ch_held _ _ _ Hc). apply Ho.
Qed.

(** Taking a page, and giving one back. *)
Lemma owned_kalloc s p l P :
  owned s (p :: l) P →
  ∃ s', kalloc s = Ok p s' ∧ owned s' l (p :: P) ∧ changed [] s s' ∧ k_mem s' = k_mem s.
Proof.
  intros Ho. destruct (kalloc_step s (p :: l) (ow_cpu _ _ _ Ho) (ow_held _ _ _ Ho) (ow_free _ _ _ Ho))
    as (s' & E & Hi & Hc & Hm).
  exists s'. split_and!; [done| |done|done]. split; [done| | |by apply Hc, Ho|].
  - intros q [->|Hq]%elem_of_cons; rewrite Hm.
    + apply (km_pages _ _ (ow_free _ _ _ Ho)). by left.
    + by apply (ow_page _ _ _ Ho).
  - rewrite <-Permutation_middle. apply Ho.
  - rewrite (ch_held _ _ _ Hc). apply Ho.
Qed.

Lemma kalloc_empty s P :
  owned s [] P → ∃ s', kalloc s = Ok 0 s' ∧ owned s' [] P ∧ changed [] s s' ∧ k_mem s' = k_mem s.
Proof.
  intros Ho. destruct (kalloc_step s [] (ow_cpu _ _ _ Ho) (ow_held _ _ _ Ho) (ow_free _ _ _ Ho))
    as (s' & E & Hi & Hc & Hm).
  exists s'. split_and!; [done| |done|done]. split; [done| |apply Ho|by apply Hc, Ho|].
  - intros q Hq. rewrite Hm. by apply (ow_page _ _ _ Ho).
  - rewrite (ch_held _ _ _ Hc). apply Ho.
Qed.

Lemma owned_kfree s p l P :
  owned s l (p :: P) →
  ∃ s', kfree p s = Ok tt s' ∧ owned s' (p :: l) P ∧ changed [p] s s'.
Proof.
  intros Ho. destruct (ow_page _ _ _ Ho p) as [Hp Hm]; [by left|].
  pose proof (ow_nodup _ _ _ Ho) as Hnd. rewrite <-Permutation_middle in Hnd.
  apply NoDup_cons in Hnd as [Hnp Hnd]. rewrite elem_of_app in Hnp.
  destruct (kfree_step s l p (ow_cpu _ _ _ Ho) (ow_held _ _ _ Ho) (ow_free _ _ _ Ho) Hp Hm)
    as (s' & E & Hi & Hc); [tauto|].
  exists s'. split_and!; [done| |done]. split; [done| | |by apply Hc, Ho|].
  - intros q Hq. destruct (ow_page _ _ _ Ho q) as [? ?]; [by right|].
    split; [done|]. by eapply changed_mapped.
  - constructor; [rewrite elem_of_app; tauto|done].
  - rewrite (ch_held _ _ _ Hc). apply Ho.
Qed.

Lemma owned_perm s l P Q : P ≡ₚ Q → owned s l P → owned s l Q.
Proof.
  intros HPQ [H1 H2 H3 H4 H5]. split; [done| | |done|done].
  - intros p Hp. apply H2. by rewrite HPQ.
  - by rewrite <-HPQ.
Qed.

(** An address space, with the free list [l] and other pages [Q] around it. *)
Record vm (s : kernel) (l Q : list Z) (pgdir : Z) (T A : gmap Z Z) : Prop := {
  vm_own : owned s l (tabs pgdir T ++ Q);
  vm_rep : pt_rep (k_mem s) pgdir T A;
}.

Section vm.
Context (s : kernel) (l Q : list Z) (pgdir : Z) (T A : gmap Z Z) (Hvm : vm s l Q pgdir T A).

Lemma vm_dir_page : page_ok pgdir ∧ mapped (k_mem s) pgdir PGSIZE.
Proof. apply (ow_page _ _ _ (vm_own _ _ _ _ _ _ Hvm)). by left. Qed.
Lemma vm_tab_page d tab : T !! d = Some tab → page_ok tab ∧ mapped (k_mem s) tab PGSIZE.
Proof.
  intros Hd. apply (ow_page _ _ _ (vm_own _ _ _ _ _ _ Hvm)). apply elem_of_app. left.
  by eapply tabs_lookup.
Qed.

Lemma tab_of_pde d tab : T !! d = Some tab → P2V (PTE_ADDR (pde_of tab)) = tab.
Proof.
  intros Hd. destruct (vm_tab_page d tab Hd) as [(Hr & Hal & _) _].
  rewrite pde_of_eq by done. rewrite PTE_ADDR_add by (by apply V2P_aligned || (unfold PGSIZE; lia)).
  apply P2V_V2P. lia.
Qed.

(** The lookup of [walkpgdir]. *)
Definition pte_ptr (va : Z) : Z :=
  match T !! (va / PGSIZE / 1024) with Some tab => tab + 4 * ((va / PGSIZE) mod 1024) | None => 0 end.

Lemma vpn_index va : 0 ≤ va < 2 ^ 32 →
  0 ≤ va / PGSIZE / 1024 < 1024 ∧ 0 ≤ (va / PGSIZE) mod 1024 < 1024 ∧
  va / PGSIZE / 1024 * 1024 + (va / PGSIZE) mod 1024 = va / PGSIZE.
Proof.
  intros Hva. unfold PGSIZE. split_and!.
  - apply Z.div_pos; [apply Z.div_pos; lia|lia].
  - apply Z.div_lt_upper_bound; [lia|]. apply Z.div_lt_upper_bound; lia.
  - apply Z.mod_pos_bound. lia.
  - apply Z.mod_pos_bound. lia.
  - pose proof (Z.div_mod (va / 4096) 1024). lia.
Qed.

Lemma walk_lookup va :
  0 ≤ va < 2 ^ 32 → walkpgdir pgdir va false s = Ok (pte_ptr va) s.
Proof using Hvm.
  intros Hva. destruct (vpn_index va Hva) as (Hd & Hi & _). unfold walkpgdir, pte_ptr.
  rewrite PDX_eq, PTX_eq by done.
  destruct (pt_dir _ _ _ _ (vm_rep _ _ _ _ _ _ Hvm) _ Hd) as (e & He & Hm).
  erewrite bind_Ok by by apply load32_eq.
  destruct (T !! _) as [tab|] eqn:Ed; [|by rewrite Hm].
  rewrite Hm, pde_of_present. by rewrite (tab_of_pde _ _ Ed).
Qed.

(** The entry behind the pointer. *)
Lemma walk_entry va tab :
  0 ≤ va < 2 ^ 32 → T !! (va / PGSIZE / 1024) = Some tab →
  pte_ptr va = tab + 4 * ((va / PGSIZE) mod 1024) ∧ pte_ptr va ≠ 0 ∧
  ∃ e, word (k_mem s) (pte_ptr va) = Some e ∧ 0 ≤ e ∧
    A !! (va / PGSIZE) = if has e PTE_P then Some e else None.
Proof using Hvm.
  intros Hva Ed. destruct (vpn_index va Hva) as (Hd & Hi & Ev). unfold pte_ptr. rewrite Ed.
  destruct (vm_tab_page _ _ Ed) as [(Hr & _) _].
  destruct (pt_tab _ _ _ _ (vm_rep _ _ _ _ _ _ Hvm) _ _ _ Ed Hi) as (e & He & He0 & HA).
  rewrite Ev in HA. split_and!; [done|lia|]. by exists e.
Qed.

Lemma entry_of va e :
  0 ≤ va < 2 ^ 32 → A !! (va / PGSIZE) = Some e →
  pte_ptr va ≠ 0 ∧ word (k_mem s) (pte_ptr va) = Some e ∧ has e PTE_P = true ∧ 0 ≤ e.
Proof using Hvm.
  intros Hva HA. destruct (vpn_index va Hva) as (Hd & Hi & Ev).
  destruct (T !! (va / PGSIZE / 1024)) as [tab|] eqn:Ed.
  - destruct (walk_entry va tab Hva Ed) as (_ & Hnz & e' & He & He0 & HA').
    rewrite HA in HA'. destruct (has e' PTE_P) eqn:Ep; [|done]. injection HA' as ->. done.
  - pose proof (pt_none _ _ _ _ (vm_rep _ _ _ _ _ _ Hvm) _ _ Ed Hi) as HA'.
    rewrite Ev in HA'. congruence.
Qed.
End vm.

Lemma pt_rep_changed P s s' pgdir T A :
  changed P s s' → (∀ p, p ∈ tabs pgdir T → (p ∉ P) ∧ p mod PGSIZE = 0) →
  (∀ p, p ∈ P → p mod PGSIZE = 0) → pt_rep (k_mem s) pgdir T A → pt_rep (k_mem s') pgdir T A.
Proof.
  intros Hc Ht HP [H1 H2 H3 H4]. split; [|done| |done].
  - intros d Hd. destruct (H1 d Hd) as (e & He & Hm). exists e. split; [|done]. rewrite <-He.
    destruct (Ht pgdir) as [? ?]; [by left|].
    apply (word_changed P s s'); [done..|lia|unfold PGSIZE; lia].
  - intros d tab i Hd Hi. destruct (H3 d tab i Hd Hi) as (e & He & He0 & HA). exists e.
    split; [|done]. rewrite <-He. destruct (Ht tab) as [? ?]; [by eapply tabs_lookup|].
    apply (word_changed P s s'); [done..|lia|unfold PGSIZE; lia].
Qed.

(** Nobody has two of the pages of a directory. *)
Lemma tabs_inj pgdir T d d' tab :
  NoDup (tabs pgdir T) → T !! d = Some tab → T !! d' = Some tab → d = d'.
Proof.
  intros [_ Hnd]%NoDup_cons Hd Hd'. destruct (decide (d = d')) as [|Hne]; [done|].
  assert (Hp : map_to_list T ≡ₚ (d, tab) :: (d', tab) :: map_to_list (delete d' (delete d T))).
  { rewrite <-(map_to_list_delete T d tab) by done. constructor.
    symmetry. apply map_to_list_delete. by rewrite lookup_delete_ne. }
  rewrite Hp in Hnd. cbn in Hnd. apply NoDup_cons in Hnd as [Hin _]. exfalso. apply Hin. by left.
Qed.
Lemma tabs_dir pgdir T d tab : NoDup (tabs pgdir T) → T !! d = Some tab → tab ≠ pgdir.
Proof.
  intros [Hn _]%NoDup_cons Hd ->. apply Hn. apply list_elem_of_fmap. exists (d, pgdir).
  split; [done|]. by apply elem_of_map_to_list.
Qed.
Lemma vm_nodup s l Q pgdir T A : vm s l Q pgdir T A → NoDup (tabs pgdir T).
Proof.
  intros Hvm. pose proof (ow_nodup _ _ _ (vm_own _ _ _ _ _ _ Hvm)) as (_ & _ & Hn)%NoDup_app.
  by apply NoDup_app in Hn as (? & _ & _).
Qed.

(** An entry of a table is stored. *)
Lemma store_entry s l Q pgdir T A d tab i e :
  vm s l Q pgdir T A → T !! d = Some tab → 0 ≤ i < 1024 → 0 ≤ e < 2 ^ 32 →
  ∃ s', store32 (tab + 4 * i) e s = Ok tt s' ∧ changed [tab] s s' ∧
    vm s' l Q pgdir T (if has e PTE_P then <[d * 1024 + i := e]> A else delete (d * 1024 + i) A).
Proof.
  intros Hvm Hd Hi He. destruct (vm_tab_page _ _ _ _ _ _ Hvm d tab Hd) as [(Hr & Hal & _) Hm].
  set (s' := write (tab + 4 * i) (bytes32 e) s).
  assert (Hst : store32 (tab + 4 * i) e s = Ok tt s').
  { apply store32_eq. intros x Hx. apply Hm. unfold PGSIZE. lia. }
  assert (Hc : changed [tab] s s').
  { apply changed_write; [lia|cbn [length bytes32]; unfold PGSIZE; lia|].
    intros x Hx. cbn [length bytes32] in Hx. apply Hm. unfold PGSIZE. lia. }
  exists s'. split_and!; [done|done|]. pose proof (vm_own _ _ _ _ _ _ Hvm) as Ho.
  pose proof (vm_nodup _ _ _ _ _ _ Hvm) as Hnd.
  assert (Htab : tab ∈ tabs pgdir T) by by eapply tabs_lookup.
  split.
  { apply (owned_changed s s' l _ [tab]); [done|done|done|].
    intros q ->%list_elem_of_singleton. apply elem_of_app. by left. }
  assert (Hal1 : ∀ q, q ∈ [tab] → q mod PGSIZE = 0) by (by intros q ->%list_elem_of_singleton).
  destruct (vm_rep _ _ _ _ _ _ Hvm) as [H1 H2 H3 H4]. split; [|done| |].
  - intros d' Hd'. destruct (H1 d' Hd') as (e' & He' & Hm'). exists e'. split; [|done]. rewrite <-He'.
    apply (word_changed [tab] s s'); [done| |done| |lia|unfold PGSIZE; lia].
    + intros Hp%list_elem_of_singleton. by apply (tabs_dir _ _ _ _ Hnd Hd).
    + eapply owned_aligned; [exact Ho|]. by left.
  - intros d' tab' i' Hd' Hi'. destruct (H3 d' tab' i' Hd' Hi') as (e' & He' & He0' & HA').
    destruct (decide (d' = d)) as [->|Hne].
    + assert (tab' = tab) as -> by congruence. destruct (decide (i' = i)) as [->|Hii].
      * exists e. unfold s', write. cbn [k_mem set_k_mem]. rewrite word_write_eq.
        rewrite u32_small by lia. split_and!; [done|lia|].
        destruct (has e PTE_P); [by rewrite lookup_insert_eq|by rewrite lookup_delete_eq].
      * exists e'. unfold s', write. cbn [k_mem set_k_mem].
        rewrite word_write_ne by (cbn [length bytes32]; lia). split_and!; [done|done|].
        destruct (has e PTE_P); [rewrite lookup_insert_ne by lia|rewrite lookup_delete_ne by lia]; done.
    + exists e'. split_and!; [|done|].
      * rewrite <-He'. apply (word_changed [tab] s s'); [done| |done| |lia|unfold PGSIZE; lia].
        -- intros ->%list_elem_of_singleton. by apply Hne, (tabs_inj pgdir T d' d tab).
        -- by destruct (vm_tab_page _ _ _ _ _ _ Hvm d' tab' Hd') as [(_ & ? & _) _].
      * destruct (has e PTE_P); [rewrite lookup_insert_ne by lia|rewrite lookup_delete_ne by lia]; done.
  - intros d' i' Hd' Hi'. assert (d' ≠ d) by congruence.
    destruct (has e PTE_P); [rewrite lookup_insert_ne by lia|rewrite lookup_delete_ne by lia]; auto.
Qed.

Lemma zero_word m p n a :
  p ≤ a → a + 4 ≤ p + Z.of_nat n → word (mem_write p (replicate n 0) m) a = Some 0.
Proof.
  intros H1 H2. unfold word. rewrite !lookup_mem_write, length_replicate.
  rewrite !decide_True by lia. rewrite !lookup_replicate_2 by lia. done.
Qed.

(** A directory entry is set to an empty table. *)
Lemma store_dir s pgdir T A d p :
  pt_rep (k_mem s) pgdir T A → 0 ≤ d < 1024 → T !! d = None → p mod PGSIZE = 0 →
  pgdir mod PGSIZE = 0 → p ≠ pgdir → (∀ d' tab, T !! d' = Some tab → tab ≠ pgdir ∧ tab mod PGSIZE = 0) →
  (∀ i, 0 ≤ i < 1024 → word (k_mem s) (p + 4 * i) = Some 0) →
  pt_rep (k_mem (write (pgdir + 4 * d) (bytes32 (pde_of p)) s)) pgdir (<[d := p]> T) A.
Proof.
  intros [H1 H2 H3 H4] Hd HT Hp Hg Hpg Ht H0.
  set (m' := k_mem (write _ _ s)).
  assert (Hsame : ∀ q i, q ≠ pgdir → q mod PGSIZE = 0 → 0 ≤ i < 1024 →
    word m' (q + 4 * i) = word (k_mem s) (q + 4 * i)).
  { intros q i Hq Hqal Hi. apply word_write_ne. cbn [length bytes32].
    destruct (page_disjoint q pgdir Hqal Hg Hq); unfold PGSIZE in *; lia. }
  split.
  - intros d' Hd'. destruct (decide (d' = d)) as [->|Hne].
    + exists (pde_of p). rewrite lookup_insert_eq. split; [|done].
      unfold m', write. cbn [k_mem set_k_mem]. rewrite word_write_eq, u32_small; [done|].
      rewrite pde_of_eq by done. pose proof (V2P_range p). pose proof (V2P_aligned p Hp).
      pose proof (Z.div_mod (V2P p) PGSIZE). unfold PGSIZE in *. lia.
    + destruct (H1 d' Hd') as (e & He & Hm). exists e. rewrite lookup_insert_ne by done.
      split; [|done]. rewrite <-He. apply word_write_ne. cbn [length bytes32]. lia.
  - intros d' tab [[<- _]|[_ Hl]]%lookup_insert_Some; [done|]. by eapply H2.
  - intros d' tab i [[<- <-]|[_ Hl]]%lookup_insert_Some Hi.
    + exists 0. rewrite Hsame, H0 by done. split_and!; [done|done|]. by apply H4.
    + destruct (H3 d' tab i Hl Hi) as (e & He & Hm). exists e. destruct (Ht d' tab Hl).
      by rewrite Hsame.
  - intros d' i [Hl _]%lookup_insert_None Hi. by apply H4.
Qed.

(** A new, empty table. *)
Lemma new_table s l Q pgdir T A p d :
  owned s l (p :: tabs pgdir T ++ Q) → pt_rep (k_mem s) pgdir T A →
  0 ≤ d < 1024 → T !! d = None →
  ∃ s1 s', memset p 0 PGSIZE s = Ok p s1 ∧ store32 (pgdir + 4 * d) (pde_of p) s1 = Ok tt s' ∧
    changed [p; pgdir] s s' ∧ vm s' l Q pgdir (<[d := p]> T) A.
Proof.
  intros Ho Hr Hd HT. destruct (ow_page _ _ _ Ho p) as [(Hpr & Hpal & _) Hpm]; [by left|].
  destruct (ow_page _ _ _ Ho pgdir) as [(Hgr & Hgal & _) Hgm]; [by do 2 constructor|].
  set (s1 := write p (replicate 4096 (u8 0)) s).
  set (s2 := write (pgdir + 4 * d) (bytes32 (pde_of p)) s1).
  assert (Hc1 : changed [p] s s1).
  { apply changed_write; rewrite ?length_replicate; [lia|unfold PGSIZE; lia|exact Hpm]. }
  assert (Hc2 : changed [pgdir] s1 s2).
  { apply changed_write; cbn [length bytes32]; [lia|unfold PGSIZE; lia|].
    eapply changed_mapped; [exact Hc1|]. intros x Hx. apply Hgm. unfold PGSIZE. lia. }
  assert (Hc : changed [p; pgdir] s s2).
  { apply (changed_trans _ s s1 s2).
    - apply (changed_mono [p]); [|exact Hc1]. intros q ->%list_elem_of_singleton. by left.
    - apply (changed_mono [pgdir]); [|exact Hc2]. intros q ->%list_elem_of_singleton. by right; left. }
  exists s1, s2. split_and!; [apply (memset_eq s p 0 4096), Hpm| |done|].
  { apply store32_eq. eapply changed_mapped; [exact Hc1|]. intros x Hx. apply Hgm. unfold PGSIZE. lia. }
  pose proof (ow_nodup _ _ _ Ho) as (_ & _ & [Hpn Hnd]%NoDup_cons)%NoDup_app.
  apply NoDup_app in Hnd as (Hnd & _ & _).
  assert (Hpt : p ∉ tabs pgdir T) by (intros ?; apply Hpn, elem_of_app; by left).
  assert (Hpg : p ≠ pgdir) by (intros ->; apply Hpt; by left).
  split.
  { eapply owned_perm; [symmetry; by rewrite tabs_insert by done|].
    apply (owned_changed s s2 l _ [p; pgdir] Ho Hc); [reflexivity|].
    intros q [->|Hq%list_elem_of_singleton]%elem_of_cons; [by left|rewrite Hq; by right; left]. }
  apply (store_dir s1); [|exact Hd|exact HT|exact Hpal|exact Hgal|exact Hpg| |].
  - apply (pt_rep_changed [p] s s1 pgdir T A Hc1); [| |exact Hr].
    + intros q Hq. split; [intros ->%list_elem_of_singleton; by apply Hpt|].
      apply (owned_aligned _ _ _ q Ho). right. apply elem_of_app. by left.
    + by intros q ->%list_elem_of_singleton.
  - intros d' tab Hd'. split.
    + intros ->. by apply (tabs_dir pgdir T d' pgdir); [|done|].
    + eapply owned_aligned; [exact Ho|]. right. apply elem_of_app. left. by eapply tabs_lookup.
  - intros i Hi. unfold s1, write. cbn [k_mem set_k_mem]. apply zero_word; lia.
Qed.

(** Pages move between the free list and the tables; none is lost. *)
Record grown (s s' : kernel) (l l' : list Z) (pgdir : Z) (T T' : gmap Z Z) : Prop := {
  gr_changed : changed (tabs pgdir T') s s';
  gr_pages : l ++ tabs pgdir T ≡ₚ l' ++ tabs pgdir T';
  gr_tables : T ⊆ T';
}.

Lemma tabs_sub pgdir T T' : T ⊆ T' → tabs pgdir T ⊆ tabs pgdir T'.
Proof.
  intros HT q. unfold tabs. rewrite !elem_of_cons, !list_elem_of_fmap.
  intros [->|((d & tab) & -> & Hd)]; [by left|]. right. exists (d, tab). split; [done|].
  apply elem_of_map_to_list. apply elem_of_map_to_list in Hd. by eapply lookup_weaken.
Qed.

Lemma grown_refl s l pgdir T : grown s s l l pgdir T T.
Proof. split; [apply changed_refl|done|done]. Qed.
Lemma grown_trans s1 s2 s3 l1 l2 l3 pgdir T1 T2 T3 :
  grown s1 s2 l1 l2 pgdir T1 T2 → grown s2 s3 l2 l3 pgdir T2 T3 → grown s1 s3 l1 l3 pgdir T1 T3.
Proof.
  intros [C1 P1 S1] [C2 P2 S2]. split; [|by rewrite P1, P2|by etrans].
  eapply changed_trans; [|exact C2]. eapply changed_mono; [by apply tabs_sub|done].
Qed.

(** [walkpgdir] with [alloc]: the entry's address, with a new table if one was missing
    and there was a page for it. *)
Lemma walk_alloc s l Q pgdir T A va :
  vm s l Q pgdir T A → 0 ≤ va < 2 ^ 32 →
  ∃ r s' l' T', walkpgdir pgdir va true s = Ok r s' ∧ vm s' l' Q pgdir T' A ∧
    grown s s' l l' pgdir T T' ∧
    ((r = 0 ∧ l' = [] ∧ l = [] ∧ T' = T) ∨ (r = pte_ptr T' va ∧ is_Some (T' !! (va / PGSIZE / 1024)))).
Proof.
  intros Hvm Hva. pose proof (walk_lookup _ _ _ _ _ _ Hvm va Hva) as Ew.
  destruct (vpn_index va Hva) as (Hd & Hi & _).
  destruct (pt_dir _ _ _ _ (vm_rep _ _ _ _ _ _ Hvm) _ Hd) as (e & He & Hm).
  unfold walkpgdir in Ew |- *. rewrite PDX_eq, PTX_eq in * by done.
  erewrite bind_Ok in Ew |- * by by apply load32_eq.
  destruct (T !! _) as [tab|] eqn:Ed.
  { rewrite Hm, pde_of_present in Ew |- *. exists (pte_ptr T va), s, l, T.
    split_and!; [done|done|apply grown_refl|]. right. rewrite Ed. eauto. }
  rewrite Hm. cbn [negb]. pose proof (vm_own _ _ _ _ _ _ Hvm) as Ho.
  destruct l as [|p l].
  { destruct (kalloc_empty s _ Ho) as (s' & E & Ho' & Hc & Hmem).
    erewrite bind_Ok by exact E. exists 0, s', [], T. split_and!; [done| | |by left].
    - split; [done|]. rewrite Hmem. apply Hvm.
    - split; [|done|done]. eapply changed_mono; [|exact Hc]. set_solver. }
  destruct (owned_kalloc s p l _ Ho) as (s1 & E & Ho1 & Hc & Hmem).
  erewrite bind_Ok by exact E. assert (Hp : 0 < p) by (apply (owned_range _ _ _ p Ho1); by left).
  replace (p =? 0) with false by lia.
  destruct (new_table s1 l Q pgdir T A p (va / PGSIZE / 1024)) as (s1' & s2 & E1 & E2 & Hc2 & Hvm2);
    [done| |done|done|].
  { rewrite Hmem. apply Hvm. }
  erewrite bind_Ok by exact E1. fold (pde_of p). erewrite bind_Ok by exact E2.
  exists (p + 4 * ((va / PGSIZE) mod 1024)), s2, l, (<[va / PGSIZE / 1024 := p]> T).
  split_and!; [done|done| |].
  - split; [|by rewrite tabs_insert, <-Permutation_middle by done|by apply insert_subseteq].
    eapply changed_trans; [eapply changed_mono; [|exact Hc]; set_solver|].
    eapply changed_mono; [|exact Hc2]. intros q Hq. rewrite tabs_insert by done.
    unfold tabs. set_solver.
  - right. unfold pte_ptr. rewrite lookup_insert_eq. eauto.
Qed.

(** ** [mappages] *)

(** [n] pages from the page number [v] on, at the frames from [pa] on. *)
Fixpoint map_range (A : gmap Z Z) (v pa perm : Z) (n : nat) : gmap Z Z :=
  match n with
  | O => A
  | S n => map_range (<[v := entry pa perm]> A) (v + 1) (pa + PGSIZE) perm n
  end.

Lemma lookup_map_range A v pa perm n x :
  map_range A v pa perm n !! x =
    if decide (v ≤ x < v + Z.of_nat n) then Some (entry (pa + (x - v) * PGSIZE) perm) else A !! x.
Proof.
  revert A v pa. induction n as [|n IH]; intros A v pa; cbn [map_range].
  - by rewrite decide_False by lia.
  - rewrite IH. case_decide.
    + rewrite decide_True by lia. do 2 f_equal. unfold PGSIZE. lia.
    + destruct (decide (x = v)) as [->|Hne].
      * rewrite decide_True by lia. rewrite lookup_insert_eq. do 2 f_equal. lia.
      * rewrite decide_False by lia. by rewrite lookup_insert_ne.
Qed.

Lemma PGROUNDDOWN_eq a : 0 ≤ a < 2 ^ 32 → PGROUNDDOWN a = a / PGSIZE * PGSIZE.
Proof.
  intros Ha. change (PGROUNDDOWN a) with (PTE_ADDR (u32 a)). rewrite u32_small by done.
  pose proof (Z.div_mod a PGSIZE ltac:(done)) as Hdm.
  pose proof (Z.mod_pos_bound a PGSIZE ltac:(done)).
  rewrite Hdm at 1. rewrite PTE_ADDR_add; [lia| |done].
  rewrite Z.mul_comm. apply Z.mod_mul. done.
Qed.
Lemma PGROUNDUP_eq a :
  0 ≤ a → a + PGSIZE ≤ 2 ^ 32 → PGROUNDUP a = (a + PGSIZE - 1) / PGSIZE * PGSIZE.
Proof.
  intros Ha Hb. rewrite <-PGROUNDDOWN_eq by (unfold PGSIZE in *; lia). unfold PGROUNDDOWN, PGROUNDUP.
  done.
Qed.

(** An entry is a word of the machine. *)
Lemma entry_range pa perm : 0 ≤ pa < 2 ^ 32 → 0 ≤ perm < PGSIZE → 0 ≤ entry pa perm < 2 ^ 32.
Proof.
  intros Hpa Hperm. unfold entry. apply lor_range; [lia| |split; done].
  apply lor_range; [lia|done|unfold PGSIZE in *; lia].
Qed.

(** One page: [walkpgdir], the test of the entry and the store. *)
Lemma map_one s l Q pgdir T A v pa perm :
  vm s l Q pgdir T A → 0 ≤ v → v * PGSIZE < 2 ^ 32 → 0 ≤ pa < 2 ^ 32 → 0 ≤ perm < PGSIZE →
  A !! v = None →
  ∃ r s1 l' T', walkpgdir pgdir (v * PGSIZE) true s = Ok r s1 ∧ grown s s1 l l' pgdir T T' ∧
    ((r = 0 ∧ l' = [] ∧ vm s1 l' Q pgdir T' A) ∨
     (r ≠ 0 ∧ ∃ e s', load32 r s1 = Ok e s1 ∧ has e PTE_P = false ∧
        store32 r (entry pa perm) s1 = Ok tt s' ∧ grown s s' l l' pgdir T T' ∧
        vm s' l' Q pgdir T' (<[v := entry pa perm]> A))).
Proof.
  intros Hvm Hv Hv2 Hpa Hperm HA.
  assert (Hva : 0 ≤ v * PGSIZE < 2 ^ 32) by (unfold PGSIZE in *; lia).
  destruct (walk_alloc s l Q pgdir T A _ Hvm Hva) as (r & s1 & l' & T' & E & Hvm1 & Hg & Hr).
  exists r, s1, l', T'. split_and!; [done|done|].
  destruct Hr as [(-> & -> & -> & ->)|(-> & tab & Ht)]; [by left|right].
  destruct (walk_entry _ _ _ _ _ _ Hvm1 _ _ Hva Ht) as (Hptr & Hnz & e & He & He0 & HA').
  destruct (vpn_index _ Hva) as (Hd & Hi & Ev). rewrite Z.div_mul in * by done.
  rewrite HA in HA'. split; [done|]. exists e.
  destruct (store_entry s1 l' Q pgdir T' A (v / 1024) tab (v mod 1024) (entry pa perm)) as (s' & Es & Hc & Hvm');
    [done|done|done|by apply entry_range|].
  exists s'. rewrite entry_present, Ev in Hvm'. split_and!; [by apply load32_eq| | | |done].
  - by destruct (has e PTE_P).
  - by rewrite Hptr.
  - eapply grown_trans; [exact Hg|]. split; [|done|done]. eapply changed_mono; [|exact Hc].
    intros q ->%list_elem_of_singleton. by eapply tabs_lookup.
Qed.

(** The loop of [mappages], for [n + 1] pages. *)
Definition map_page (pgdir last perm : Z) : Z * Z → K (Z * Z + Z) := λ '(a, pa),
  let! pte := walkpgdir pgdir a true in
  if pte =? 0 then ret (inr (-1))
  else
    let! e := load32 pte in
    if has e PTE_P then panic "remap"
    else
      store32 pte (Z.lor (Z.lor pa perm) PTE_P) ;;
      if a =? last then ret (inr 0)
      else ret (inl (u32 (a + PGSIZE), u32 (pa + PGSIZE))).

Lemma map_loop pgdir last perm Q n : ∀ s l T A v pa,
  vm s l Q pgdir T A → 0 ≤ v → last = (v + Z.of_nat n) * PGSIZE → last < 2 ^ 32 →
  0 ≤ pa → pa + Z.of_nat n * PGSIZE < 2 ^ 32 → 0 ≤ perm < PGSIZE →
  (∀ x, v ≤ x ≤ v + Z.of_nat n → A !! x = None) →
  ∃ r s' l' T', loop (S n) (map_page pgdir last perm) (v * PGSIZE, pa) s = Ok r s' ∧
    grown s s' l l' pgdir T T' ∧
    ((r = 0 ∧ vm s' l' Q pgdir T' (map_range A v pa perm (S n))) ∨
     (r = -1 ∧ l' = [] ∧ ∃ k, (k ≤ n)%nat ∧ vm s' l' Q pgdir T' (map_range A v pa perm k))).
Proof.
  induction n as [|n IH]; intros s l T A v pa Hvm Hv El Hlast Hpa Hpa2 Hperm HA.
  all: destruct (map_one s l Q pgdir T A v pa perm Hvm) as (p & s1 & l1 & T1 & E1 & Hg1 & Hr);
    [done|unfold PGSIZE in *; lia|unfold PGSIZE in *; lia|done|apply HA; lia|].
  all: destruct Hr as [(-> & -> & Hvm1)|(Hp & e & s2 & E2 & Hne & E3 & Hg2 & Hvm2)];
    [exists (-1), s1, [], T1; split_and!;
       [apply loop_Ok; unfold map_page; by erewrite bind_Ok by exact E1|done|
        right; split_and!; [done|done|exists 0%nat; split; [lia|done]]]|].
  all: assert (Ep : (p =? 0) = false) by lia.
  - exists 0, s2, l1, T1. split_and!; [|done|by left].
    apply loop_Ok. unfold map_page. erewrite bind_Ok by exact E1. rewrite Ep.
    erewrite bind_Ok by exact E2. rewrite Hne. erewrite bind_Ok by exact E3.
    replace (v * PGSIZE =? last) with true by lia. done.
  - destruct (IH s2 l1 T1 (<[v := entry pa perm]> A) (v + 1) (pa + PGSIZE) Hvm2)
      as (r & s' & l' & T' & E & Hg & Hr); [lia|lia|done|unfold PGSIZE; lia|unfold PGSIZE in *; lia|done| |].
    { intros x Hx. rewrite lookup_insert_ne by lia. apply HA. lia. }
    exists r, s', l', T'. split_and!; [|by eapply grown_trans|].
    + erewrite loop_next; [exact E|]. unfold map_page. erewrite bind_Ok by exact E1. rewrite Ep.
      erewrite bind_Ok by exact E2. rewrite Hne. erewrite bind_Ok by exact E3.
      replace (v * PGSIZE =? last) with false by (unfold PGSIZE in *; lia).
      rewrite !u32_small by (unfold PGSIZE in *; lia).
      by replace (v * PGSIZE + PGSIZE) with ((v + 1) * PGSIZE) by lia.
    + destruct Hr as [[-> Hvm']|(-> & -> & k & Hk & Hvm')]; [by left|right].
      split_and!; [done|done|]. exists (S k). split; [lia|done].
Qed.

(** Pages that are not mapped: all of them are mapped, or the free list was used up. *)
Lemma mappages_run s l Q pgdir T A va size pa perm v n :
  vm s l Q pgdir T A → 0 ≤ va → 0 < size → va + size ≤ 2 ^ 32 →
  v = va / PGSIZE → (va + size - 1) / PGSIZE = v + Z.of_nat n →
  0 ≤ pa → pa + Z.of_nat n * PGSIZE < 2 ^ 32 → 0 ≤ perm < PGSIZE →
  (∀ x, v ≤ x ≤ v + Z.of_nat n → A !! x = None) →
  ∃ r s' l' T', mappages pgdir va size pa perm s = Ok r s' ∧ grown s s' l l' pgdir T T' ∧
    ((r = 0 ∧ vm s' l' Q pgdir T' (map_range A v pa perm (S n))) ∨
     (r = -1 ∧ l' = [] ∧ ∃ k, (k ≤ n)%nat ∧ vm s' l' Q pgdir T' (map_range A v pa perm k))).
Proof.
  intros Hvm Hva Hsz Hend Ev El Hpa Hpa2 Hperm HA. unfold mappages.
  rewrite (u32_small (va + size - 1)) by lia. rewrite !PGROUNDDOWN_eq by lia.
  rewrite El, <-Ev.
  assert (Hlast : (v + Z.of_nat n) * PGSIZE < 2 ^ 32).
  { rewrite <-El. pose proof (Z.mul_div_le (va + size - 1) PGSIZE ltac:(done)). lia. }
  assert (Hv0 : 0 ≤ v) by (rewrite Ev; apply Z.div_pos; [lia|done]).
  replace (S (Z.to_nat (u32 ((v + Z.of_nat n) * PGSIZE - v * PGSIZE) / PGSIZE))) with (S n).
  2:{ f_equal. rewrite u32_small by (unfold PGSIZE in *; lia).
    replace ((v + Z.of_nat n) * PGSIZE - v * PGSIZE) with (Z.of_nat n * PGSIZE) by lia.
    rewrite Z.div_mul by done. lia. }
  by apply (map_loop pgdir ((v + Z.of_nat n) * PGSIZE) perm Q n s l T A v pa).
Qed.
End env.
