(* ===== verification/UvmThm.v ===== *)
(** * UvmThm: user address spaces (vm.c)

    [deallocuvm], [freevm], [setupkvm], [allocuvm] and [copyuvm] over the map that a
    page directory represents ([VmThm]). *)

From stdpp Require Import base numbers gmap strings option list.
From S2P Require Import Prelude Format Machine Boot Mem ProcCore Kalloc Vm VmThm.
Local Open Scope kernel_scope.
Local Open Scope Z_scope.

(** ** Frames *)

(** The kernel address of the frame of an entry. *)
Definition frame (e : Z) : Z := P2V (PTE_ADDR e).
(** The frames of the pages from [v] up to [V]. *)
Definition frames (A : gmap Z Z) (v V : Z) : list Z :=
  omap (λ x, frame <$> A !! x) (seqZ v (V - v)).
(** The map without those pages. *)
Definition unmap (A : gmap Z Z) (v V : Z) : gmap Z Z :=
  filter (λ p : Z * Z, ¬ (v ≤ p.1 < V)) A.

Lemma lookup_unmap A v V x :
  unmap A v V !! x = if decide (v ≤ x < V) then None else A !! x.
Proof.
  unfold unmap. rewrite map_lookup_filter. destruct (A !! x) as [e|]; cbn; [|by case_decide].
  case_decide; case_guard; naive_solver lia.
Qed.

Lemma frames_nil A v V : V ≤ v → frames A v V = [].
Proof. intros Hv. unfold frames. by rewrite seqZ_nil by lia. Qed.
Lemma frames_cons A v V :
  v < V → frames A v V = match A !! v with Some e => [frame e] | None => [] end ++ frames A (v + 1) V.
Proof.
  intros Hv. unfold frames. rewrite (seqZ_cons v) by lia.
  replace (Z.pred (V - v)) with (V - (v + 1)) by lia. cbn [omap list_omap].
  replace (Z.succ v) with (v + 1) by lia. by destruct (A !! v).
Qed.
Lemma frames_skip A v v' V :
  v ≤ v' → (∀ x, v ≤ x < v' → A !! x = None) → frames A v V = frames A v' V.
Proof.
  intros Hv. remember (Z.to_nat (v' - v)) as n eqn:En. revert v Hv En.
  induction n as [|n IH]; intros v Hv En Hx; [by replace v' with v by lia|].
  destruct (decide (v < V)).
  - rewrite frames_cons, (Hx v) by lia. apply IH; [lia|lia|]. intros x Hx'. apply Hx. lia.
  - by rewrite !frames_nil by lia.
Qed.
Lemma frames_same A B v V : (∀ x, v ≤ x < V → A !! x = B !! x) → frames A v V = frames B v V.
Proof.
  intros Hx. unfold frames. apply list_omap_ext. apply Forall2_same_length_lookup_2; [done|].
  intros i x y H1 H2. assert (x = y) as -> by congruence. apply lookup_seqZ in H1.
  by rewrite Hx by lia.
Qed.
Lemma unmap_nil A v V : V ≤ v → unmap A v V = A.
Proof. intros Hv. apply map_eq. intros x. rewrite lookup_unmap. by rewrite decide_False by lia. Qed.
Lemma unmap_skip A v v' V :
  v ≤ v' → (∀ x, v ≤ x < v' → A !! x = None) → unmap A v V = unmap A v' V.
Proof.
  intros Hv Hx. apply map_eq. intros x. rewrite !lookup_unmap.
  destruct (decide (v ≤ x < v')); [|by repeat case_decide; try lia].
  rewrite Hx by done. by repeat case_decide.
Qed.
Lemma unmap_delete A v V : v < V → unmap (delete v A) (v + 1) V = unmap A v V.
Proof.
  intros Hv. apply map_eq. intros x. rewrite !lookup_unmap. destruct (decide (x = v)) as [->|].
  - rewrite decide_False by lia. rewrite decide_True by lia. apply lookup_delete_eq.
  - rewrite lookup_delete_ne by done. by repeat case_decide; try lia.
Qed.

Section env.
Context `{Env}.

(** An address space with the frames [F] of its own, and other pages [Q] around it. *)
Lemma vm_perm s l Q Q' pgdir T A : Q ≡ₚ Q' → vm s l Q pgdir T A → vm s l Q' pgdir T A.
Proof. intros HQ [Ho Hr]. split; [|done]. eapply owned_perm; [|exact Ho]. by rewrite HQ. Qed.

(** A frame of the address space is given back. *)
Lemma vm_kfree s l p Q pgdir T A :
  vm s l (p :: Q) pgdir T A →
  ∃ s', kfree p s = Ok tt s' ∧ vm s' (p :: l) Q pgdir T A ∧ changed [p] s s'.
Proof.
  intros [Ho Hr]. assert (Ho' : owned s l (p :: tabs pgdir T ++ Q)).
  { eapply owned_perm; [|exact Ho]. by rewrite Permutation_middle. }
  destruct (owned_kfree s p l _ Ho') as (s' & E & Ho1 & Hc). exists s'. split_and!; [done| |done].
  split; [done|]. apply (pt_rep_changed [p] s s'); [done| | |done].
  - intros q Hq. split.
    + intros ->%list_elem_of_singleton. pose proof (ow_nodup _ _ _ Ho1) as [Hn _]%NoDup_cons.
      apply Hn. rewrite !elem_of_app. auto.
    + eapply owned_aligned; [exact Ho1|]. apply elem_of_app. by left.
  - intros q ->%list_elem_of_singleton. eapply owned_aligned; [exact Ho'|]. by left.
Qed.

(** ** [deallocuvm] *)

(** Entries of pages that do not overlap the kernel's image are not 0. *)
Context (HKEND : KERNBASE < KEND).

Lemma frame_pa s l P e : owned s l P → frame e ∈ P → PTE_ADDR e ≠ 0.
Proof using HKEND.
  intros Ho Hin Ez. destruct (ow_page _ _ _ Ho _ Hin) as [(_ & _ & Hk & _) _].
  unfold frame in Hk. rewrite Ez in Hk. unfold P2V in Hk.
  rewrite u32_small in Hk by (unfold KERNBASE; lia). lia.
Qed.

Definition dealloc_page (pgdir oldsz : Z) (a : Z) : K (Z + unit) :=
  if negb (a <? oldsz) then ret (inr tt)
  else
    let! pte := walkpgdir pgdir a false in
    if pte =? 0 then
      ret (inl (u32 (u32 (PGADDR (PDX a + 1) 0 0 - PGSIZE) + PGSIZE)))
    else
      let! e := load32 pte in
      when (has e PTE_P) (
        let pa := PTE_ADDR e in
        if pa =? 0 then panic "kfree"
        else
          kfree (P2V pa) ;;
          store32 pte 0) ;;
      ret (inl (u32 (a + PGSIZE))).

Lemma PGADDR_next d : 0 ≤ d < 512 → u32 (u32 (PGADDR (d + 1) 0 0 - PGSIZE) + PGSIZE) = (d + 1) * 1024 * PGSIZE.
Proof.
  intros Hd. unfold PGADDR. rewrite Z.shiftl_0_l, !Z.lor_0_r, Z.shiftl_mul_pow2 by lia.
  change (2 ^ 22) with 4194304. unfold PGSIZE.
  rewrite (u32_small ((d + 1) * 4194304)) by lia.
  rewrite (u32_small ((d + 1) * 4194304 - 4096)) by lia. rewrite u32_small; lia.
Qed.

(** One page: its frame, if it has one, goes to the free list. *)
Lemma dealloc_one s l Q pgdir T A v :
  vm s l (match A !! v with Some e => [frame e] | None => [] end ++ Q) pgdir T A →
  0 ≤ v < 2 ^ 19 → is_Some (T !! (v / 1024)) →
  ∀ oldsz, v * PGSIZE < oldsz →
  ∃ s', dealloc_page pgdir oldsz (v * PGSIZE) s = Ok (inl ((v + 1) * PGSIZE)) s' ∧
    vm s' (match A !! v with Some e => [frame e] | None => [] end ++ l) Q pgdir T (delete v A) ∧
    changed (tabs pgdir T ++ match A !! v with Some e => [frame e] | None => [] end) s s'.
Proof using HKEND.
  intros Hvm Hv [tab Ht] oldsz Hold. unfold dealloc_page.
  replace (v * PGSIZE <? oldsz) with true by lia. cbn [negb].
  assert (Hva : 0 ≤ v * PGSIZE < 2 ^ 32) by (unfold PGSIZE; lia).
  erewrite bind_Ok by exact (walk_lookup _ _ _ _ _ _ Hvm _ Hva).
  assert (Ht' : T !! (v * PGSIZE / PGSIZE / 1024) = Some tab) by by rewrite Z.div_mul.
  destruct (walk_entry _ _ _ _ _ _ Hvm _ _ Hva Ht') as (Hptr & Hnz & e & He & He0 & HA).
  rewrite Z.div_mul in Hptr, HA by done.
  replace (pte_ptr T (v * PGSIZE) =? 0) with false by lia.
  erewrite bind_Ok by by apply load32_eq.
  assert (Enext : u32 (v * PGSIZE + PGSIZE) = (v + 1) * PGSIZE) by (rewrite u32_small; unfold PGSIZE; lia).
  rewrite HA in *. destruct (has e PTE_P) eqn:Ep.
  - cbn [app] in Hvm. assert (Hpa : PTE_ADDR e ≠ 0).
    { eapply frame_pa; [apply Hvm|]. apply elem_of_app. by right; left. }
    destruct (vm_kfree _ _ _ _ _ _ _ Hvm) as (s1 & E1 & Hvm1 & Hc1).
    destruct (store_entry s1 _ _ _ _ _ (v / 1024) tab (v mod 1024) 0 Hvm1 Ht) as (s2 & E2 & Hc2 & Hvm2);
      [apply Z.mod_pos_bound; lia|lia|].
    replace (v / 1024 * 1024 + v mod 1024) with v in Hvm2 by (pose proof (Z.div_mod v 1024); lia).
    exists s2. split_and!.
    + rewrite Hptr. cbn [when]. replace (PTE_ADDR e =? 0) with false by lia.
      erewrite bind_Ok; [by rewrite Enext|]. by erewrite bind_Ok by exact E1.
    + exact Hvm2.
    + eapply changed_trans; [eapply changed_mono; [|exact Hc1]|eapply changed_mono; [|exact Hc2]].
      * intros q ->%list_elem_of_singleton. apply elem_of_app. by right; left.
      * intros q ->%list_elem_of_singleton. apply elem_of_app. left. by eapply tabs_lookup.
  - exists s. cbn [when]. erewrite bind_Ok by reflexivity. rewrite Enext. split_and!; [done| |].
    + by rewrite delete_id.
    + apply changed_refl.
Qed.

(** A missing table: on to the first page of the next one. *)
Lemma dealloc_skip s l Q pgdir T A v oldsz :
  vm s l Q pgdir T A → 0 ≤ v < 2 ^ 19 → T !! (v / 1024) = None → v * PGSIZE < oldsz →
  dealloc_page pgdir oldsz (v * PGSIZE) s = Ok (inl ((v / 1024 + 1) * 1024 * PGSIZE)) s.
Proof.
  intros Hvm Hv Et Hlt. assert (Hva : 0 ≤ v * PGSIZE < 2 ^ 32) by (unfold PGSIZE; lia).
  unfold dealloc_page. replace (v * PGSIZE <? oldsz) with true by lia. cbn [negb].
  erewrite bind_Ok by exact (walk_lookup _ _ _ _ _ _ Hvm _ Hva).
  unfold pte_ptr. rewrite PDX_eq by done. rewrite Z.div_mul, Et by done. cbn [Z.eqb].
  rewrite PGADDR_next; [done|]. split; [apply Z.div_pos; lia|apply Z.div_lt_upper_bound; lia].
Qed.

Lemma page_lt v sz : 0 ≤ sz → v * PGSIZE < sz ↔ v < (sz + PGSIZE - 1) / PGSIZE.
Proof.
  intros Hsz. pose proof (Z.div_mod (sz + PGSIZE - 1) PGSIZE ltac:(done)).
  pose proof (Z.mod_pos_bound (sz + PGSIZE - 1) PGSIZE ltac:(done)). unfold PGSIZE in *. nia.
Qed.

(** The loop: every mapped page from [v] on gives its frame back. *)
Lemma dealloc_loop pgdir T Q oldsz V :
  0 ≤ oldsz ≤ KERNBASE → V = (oldsz + PGSIZE - 1) / PGSIZE →
  ∀ fuel v s l A, Z.max 0 (V - v) < Z.of_nat fuel → 0 ≤ v →
  vm s l (frames A v V ++ Q) pgdir T A →
  ∃ s', loop fuel (dealloc_page pgdir oldsz) (v * PGSIZE) s = Ok tt s' ∧
    vm s' (rev (frames A v V) ++ l) Q pgdir T (unmap A v V) ∧
    changed (tabs pgdir T ++ frames A v V) s s'.
Proof using HKEND.
  intros Hold EV. assert (HV : V ≤ 2 ^ 19).
  { rewrite EV. apply Z.lt_succ_r. apply Z.div_lt_upper_bound; [done|].
    unfold PGSIZE, KERNBASE in *. lia. }
  induction fuel as [|fuel IH]; intros v s l A Hf Hv Hvm.
  { lia. }
  destruct (decide (v < V)) as [Hlt|Hge].
  2:{ exists s. split_and!.
      - apply loop_Ok. unfold dealloc_page. replace (v * PGSIZE <? oldsz) with false; [done|].
        pose proof (page_lt v oldsz). lia.
      - rewrite frames_nil, unmap_nil by lia. by rewrite frames_nil in Hvm by lia.
      - apply changed_refl. }
  assert (Hlt' : v * PGSIZE < oldsz) by (apply page_lt; lia).
  destruct (T !! (v / 1024)) as [tab|] eqn:Et.
  - rewrite frames_cons in Hvm by done. rewrite <-app_assoc in Hvm.
    destruct (dealloc_one s l _ pgdir T A v Hvm) with (oldsz := oldsz) as (s1 & E1 & Hvm1 & Hc1);
      [lia|by eexists|done|].
    assert (Efr : frames A (v + 1) V = frames (delete v A) (v + 1) V).
    { apply frames_same. intros x Hx. by rewrite lookup_delete_ne by lia. }
    rewrite Efr in Hvm1.
    edestruct (IH (v + 1) s1) as (s' & E & Hvm' & Hc); [lia|lia|exact Hvm1|].
    exists s'. rewrite frames_cons, Efr by done. split_and!.
    + erewrite loop_next; [exact E|exact E1].
    + rewrite <-(unmap_delete A v V) by done. rewrite rev_app_distr, <-app_assoc.
      by destruct (A !! v).
    + eapply changed_trans; (eapply changed_mono; [|eassumption]); set_solver.
  - set (v' := (v / 1024 + 1) * 1024). assert (Hv' : v < v').
    { unfold v'. pose proof (Z.div_mod v 1024). pose proof (Z.mod_pos_bound v 1024). lia. }
    assert (Hskip : ∀ x, v ≤ x < v' → A !! x = None).
    { intros x Hx. replace x with (v / 1024 * 1024 + (x - v / 1024 * 1024)) by lia.
      apply (pt_none _ _ _ _ (vm_rep _ _ _ _ _ _ Hvm)); [done|].
      unfold v' in Hx. pose proof (Z.div_mod v 1024). pose proof (Z.mod_pos_bound v 1024). lia. }
    assert (Hle : v ≤ v') by lia.
    rewrite (frames_skip A v v' V Hle Hskip) in *. rewrite (unmap_skip A v v' V Hle Hskip).
    destruct (IH v' s l A) as (s' & E & Hvm' & Hc); [lia|lia|done|].
    exists s'. split_and!; [|done|done]. erewrite loop_next; [exact E|].
    apply (dealloc_skip _ _ _ _ _ _ _ _ Hvm); [lia|done|done].
Qed.

(** The number of pages that [sz] bytes take. *)
Definition npages (sz : Z) : Z := (sz + PGSIZE - 1) / PGSIZE.

Lemma deallocuvm_run s l Q pgdir T A oldsz newsz :
  0 ≤ newsz < oldsz → oldsz ≤ KERNBASE →
  vm s l (frames A (npages newsz) (npages oldsz) ++ Q) pgdir T A →
  ∃ s', deallocuvm pgdir oldsz newsz s = Ok (i32 newsz) s' ∧
    vm s' (rev (frames A (npages newsz) (npages oldsz)) ++ l) Q pgdir T (unmap A (npages newsz) (npages oldsz)) ∧
    changed (tabs pgdir T ++ frames A (npages newsz) (npages oldsz)) s s'.
Proof using HKEND.
  intros Hnew Hold Hvm. unfold deallocuvm. replace (oldsz <=? newsz) with false by lia.
  rewrite PGROUNDUP_eq by (unfold KERNBASE, PGSIZE in *; lia). fold (npages newsz).
  destruct (dealloc_loop pgdir T Q oldsz (npages oldsz) ltac:(lia) eq_refl
    (S (S (Z.to_nat (oldsz / PGSIZE)))) (npages newsz) s l A) as (s' & E & Hvm' & Hc); [| |exact Hvm|].
  - unfold npages. assert ((oldsz + PGSIZE - 1) / PGSIZE ≤ oldsz / PGSIZE + 1).
    { rewrite <-(Z.div_add oldsz 1 PGSIZE) by done. apply Z.div_le_mono; [done|lia]. }
    pose proof (Z.div_pos (newsz + PGSIZE - 1) PGSIZE). pose proof (Z.div_pos oldsz PGSIZE).
    unfold PGSIZE in *. lia.
  - apply Z.div_pos; unfold PGSIZE; lia.
  - exists s'. split_and!; [|done|done]. erewrite bind_Ok; [done|exact E].
Qed.

(** ** [freevm] *)

Lemma tabs_list (T : gmap Z Z) :
  (∀ d tab, T !! d = Some tab → 0 ≤ d < 1024) →
  omap (λ d, T !! d) (seqZ 0 1024) ≡ₚ (map_to_list T).*2.
Proof.
  intros Hdom. set (pairs := λ ds : list Z, omap (λ d, pair d <$> T !! d) ds).
  assert (Hsnd : ∀ ds : list Z, omap (λ d, T !! d) ds = (pairs ds).*2).
  { induction ds as [|d ds IH]; [done|]. cbn. rewrite IH. by destruct (T !! d). }
  assert (Hin : ∀ ds d tab, (d, tab) ∈ pairs ds ↔ d ∈ ds ∧ T !! d = Some tab).
  { intros ds d tab. unfold pairs. rewrite list_elem_of_omap. split.
    - intros (d' & Hd' & Hf). destruct (T !! d') eqn:E; naive_solver.
    - intros [Hd E]. exists d. by rewrite E. }
  rewrite Hsnd. apply fmap_Permutation. apply NoDup_Permutation.
  - assert (Hnd : NoDup (seqZ 0 1024)) by apply NoDup_seqZ. revert Hnd.
    generalize (seqZ 0 1024). induction 1 as [|d ds Hd _ IH]; [constructor|].
    unfold pairs in *. cbn. destruct (T !! d) as [tab|]; cbn; [|done]. constructor; [|done].
    intros Hp. apply Hin in Hp. naive_solver.
  - apply NoDup_map_to_list.
  - intros [d tab]. rewrite Hin, elem_of_map_to_list, elem_of_seqZ. naive_solver.
Qed.

(** The tables go to the free list, in the order of the directory. *)
Lemma free_tables pgdir (T : gmap Z Z) Q ds : ∀ s l,
  (∀ d, d ∈ ds → 0 ≤ d < 1024) →
  (∀ d, 0 ≤ d < 1024 → ∃ e, word (k_mem s) (pgdir + 4 * d) = Some e ∧
    match T !! d with Some tab => e = pde_of tab | None => has e PTE_P = false end) →
  owned s l (pgdir :: omap (λ d, T !! d) ds ++ Q) →
  ∃ s', for_each ds (λ i,
      let! e := load32 (pgdir + 4 * i) in
      when (has e PTE_P) (kfree (P2V (PTE_ADDR e)))) s = Ok tt s' ∧
    owned s' (rev (omap (λ d, T !! d) ds) ++ l) (pgdir :: Q) ∧
    changed (omap (λ d, T !! d) ds) s s'.
Proof.
  induction ds as [|d ds IH]; intros s l Hds Hdir Ho.
  { exists s. split_and!; [done|done|apply changed_refl]. }
  destruct (Hdir d) as (e & He & Hm); [apply Hds; by left|].
  cbn [for_each]. cbn [omap list_omap] in Ho |- *. destruct (T !! d) as [tab|] eqn:Et.
  - assert (Ho1 : owned s l (tab :: pgdir :: omap (λ d, T !! d) ds ++ Q)).
    { eapply owned_perm; [|exact Ho]. cbn. apply Permutation_swap. }
    destruct (owned_kfree s tab l _ Ho1) as (s1 & E1 & Ho1' & Hc1).
    pose proof (ow_page _ _ _ Ho1 tab ltac:(by left)) as [(Hr & Hal & _) _].
    assert (Htp : tab ≠ pgdir).
    { intros ->. pose proof (ow_nodup _ _ _ Ho1) as (_ & _ & [Hn _]%NoDup_cons)%NoDup_app. apply Hn. by left. }
    destruct (IH s1 (tab :: l)) as (s' & E & Ho' & Hc); [| |exact Ho1'|].
    + intros x Hx. apply Hds. by right.
    + intros x Hx. destruct (Hdir x Hx) as (ex & Hex & Hmx). exists ex. split; [|done].
      rewrite <-Hex. apply (word_changed [tab] s s1); [done| | | |lia|unfold PGSIZE; lia].
      * by intros ->%list_elem_of_singleton.
      * by intros q ->%list_elem_of_singleton.
      * eapply owned_aligned; [exact Ho|by left].
    + exists s'. split_and!.
      * erewrite bind_Ok; [exact E|]. erewrite bind_Ok by by apply load32_eq.
        rewrite Hm, pde_of_present. cbn [when]. rewrite pde_of_eq by done.
        rewrite PTE_ADDR_add by (by apply V2P_aligned || done). rewrite P2V_V2P by lia. exact E1.
      * cbn [rev]. by rewrite <-app_assoc.
      * eapply changed_trans; (eapply changed_mono; [|eassumption]); set_solver.
  - destruct (IH s l) as (s' & E & Ho' & Hc); [|done|done|].
    { intros x Hx. apply Hds. by right. }
    exists s'. split_and!; [|done|done]. erewrite bind_Ok; [exact E|].
    erewrite bind_Ok by by apply load32_eq. by rewrite Hm.
Qed.

(** Everything goes back to the free list: frames, tables and directory. *)
Lemma freevm_run s l Q pgdir T A :
  vm s l (frames A 0 (KERNBASE / PGSIZE) ++ Q) pgdir T A →
  ∃ s' l', freevm pgdir s = Ok tt s' ∧ owned s' l' Q ∧
    l' ≡ₚ l ++ tabs pgdir T ++ frames A 0 (KERNBASE / PGSIZE) ∧
    changed (tabs pgdir T ++ frames A 0 (KERNBASE / PGSIZE)) s s'.
Proof using HKEND.
  intros Hvm. unfold freevm. destruct (vm_dir_page _ _ _ _ _ _ Hvm) as [(Hr & _) _].
  replace (pgdir =? 0) with false by lia.
  destruct (deallocuvm_run s l Q pgdir T A KERNBASE 0) as (s1 & E1 & Hvm1 & Hc1); [done|done|exact Hvm|].
  change (npages 0) with 0 in *. change (npages KERNBASE) with (KERNBASE / PGSIZE) in *.
  set (F := frames A 0 (KERNBASE / PGSIZE)) in *.
  pose proof (pt_dom _ _ _ _ (vm_rep _ _ _ _ _ _ Hvm1)) as Hdom.
  assert (Htl : pgdir :: omap (λ d, T !! d) (seqZ 0 NPDENTRIES) ++ Q ≡ₚ tabs pgdir T ++ Q).
  { unfold tabs. cbn. constructor. unfold NPDENTRIES. by rewrite (tabs_list T Hdom). }
  destruct (free_tables pgdir T Q (seqZ 0 NPDENTRIES) s1 (rev F ++ l)) as (s2 & E2 & Ho2 & Hc2).
  - intros d Hd. apply elem_of_seqZ in Hd. unfold NPDENTRIES in Hd. lia.
  - exact (pt_dir _ _ _ _ (vm_rep _ _ _ _ _ _ Hvm1)).
  - eapply owned_perm; [symmetry; exact Htl|]. exact (vm_own _ _ _ _ _ _ Hvm1).
  - destruct (owned_kfree s2 pgdir _ Q Ho2) as (s3 & E3 & Ho3 & Hc3).
    eexists s3, _. split_and!; [|exact Ho3| |].
    + erewrite bind_Ok by exact E1. by erewrite bind_Ok by exact E2.
    + unfold tabs, NPDENTRIES. rewrite <-!Permutation_rev, (tabs_list T Hdom).
      generalize ((map_to_list T).*2), F. intros M F'.
      rewrite app_comm_cons, app_assoc. apply Permutation_app_comm.
    + assert (Hsub : omap (λ d, T !! d) (seqZ 0 NPDENTRIES) ⊆ tabs pgdir T).
      { unfold NPDENTRIES. intros q Hq. right. by rewrite <-(tabs_list T Hdom). }
      eapply changed_trans; [exact Hc1|]. eapply changed_trans.
      * eapply changed_mono; [|exact Hc2]. intros q Hq. apply elem_of_app. left. by apply Hsub.
      * eapply changed_mono; [|exact Hc3]. intros q ->%list_elem_of_singleton. by left.
Qed.

(** A directory has at most 1024 tables. *)
Lemma omap_length_le {X Y} (f : X → option Y) (xs : list X) : (length (omap f xs) ≤ length xs)%nat.
Proof. induction xs as [|x xs IH]; [done|]. cbn. destruct (f x); cbn; lia. Qed.
Lemma tabs_length s l Q pgdir T A : vm s l Q pgdir T A → Z.of_nat (length (tabs pgdir T)) ≤ 1025.
Proof.
  intros Hvm. unfold tabs. cbn [length].
  rewrite <-(tabs_list T (pt_dom _ _ _ _ (vm_rep _ _ _ _ _ _ Hvm))).
  pose proof (omap_length_le (λ d, T !! d) (seqZ 0 1024)) as Hle. rewrite length_seqZ in Hle. lia.
Qed.
Lemma frames_length A v V : v ≤ V → Z.of_nat (length (frames A v V)) ≤ V - v.
Proof.
  intros Hv. unfold frames. pose proof (omap_length_le (λ x, frame <$> A !! x) (seqZ v (V - v))) as Hle.
  rewrite length_seqZ in Hle. lia.
Qed.

(** ** [setupkvm] *)

(** One line of [kmap], as a change of the map, and when it can be made. *)
Definition map_item (A : gmap Z Z) (item : Z * Z * Z * Z) : gmap Z Z :=
  let '(virt, phys_start, phys_end, perm) := item in
  map_range A (virt / PGSIZE) phys_start perm (Z.to_nat (u32 (phys_end - phys_start) / PGSIZE)).
Definition item_ok (A : gmap Z Z) (item : Z * Z * Z * Z) : Prop :=
  let '(virt, phys_start, phys_end, perm) := item in
  let v := virt / PGSIZE in
  let n := u32 (phys_end - phys_start) / PGSIZE in
  virt = v * PGSIZE ∧ u32 (phys_end - phys_start) = n * PGSIZE ∧ 0 < n ∧ KERNBASE / PGSIZE ≤ v ∧
  v + n ≤ 2 ^ 20 ∧ 0 ≤ phys_start ∧ phys_start + n * PGSIZE ≤ 2 ^ 32 ∧ 0 ≤ perm < PGSIZE ∧
  ∀ x, v ≤ x < v + n → A !! x = None.
Fixpoint items_ok (A : gmap Z Z) (items : list (Z * Z * Z * Z)) : Prop :=
  match items with [] => True | item :: items => item_ok A item ∧ items_ok (map_item A item) items end.

Definition setup_item (pgdir : Z) : Z * Z * Z * Z → K (option Z) := λ '(virt, phys_start, phys_end, perm),
  let! r := mappages pgdir virt (u32 (phys_end - phys_start)) phys_start perm in
  if r <? 0 then
    freevm pgdir ;;
    ret (Some 0)
  else ret None.

(** No user page. *)
Definition kernel_only (A : gmap Z Z) : Prop := ∀ x, x < KERNBASE / PGSIZE → A !! x = None.
Lemma kernel_only_range A v pa perm n :
  KERNBASE / PGSIZE ≤ v → kernel_only A → kernel_only (map_range A v pa perm n).
Proof. intros Hv HA x Hx. rewrite lookup_map_range, decide_False by lia. by apply HA. Qed.
Lemma kernel_only_frames A : kernel_only A → frames A 0 (KERNBASE / PGSIZE) = [].
Proof.
  intros HA. rewrite (frames_skip A 0 (KERNBASE / PGSIZE)); [by apply frames_nil|done|].
  intros x Hx. apply HA. lia.
Qed.

(** A line of the table: mapped, or everything is given back. *)
Lemma setup_one s l Q pgdir T A item :
  vm s l Q pgdir T A → kernel_only A → item_ok A item →
  ∃ r s' l', setup_item pgdir item s = Ok r s' ∧
    ((r = None ∧ ∃ T', grown s s' l l' pgdir T T' ∧ vm s' l' Q pgdir T' (map_item A item)) ∨
     (r = Some 0 ∧ owned s' l' Q ∧ l' ≡ₚ l ++ tabs pgdir T ∧ changed (l ++ tabs pgdir T) s s' ∧
      Z.of_nat (length l') ≤ 1025)).
Proof using HKEND.
  destruct item as [[[virt ps] pe] perm]. cbn [item_ok map_item setup_item].
  set (size := u32 (pe - ps)). set (v := virt / PGSIZE).
  intros Hvm HA (Ev & Es & Hn & Hv & Hvn & Hps & Hpe & Hperm & Hfree).
  remember (size / PGSIZE) as n eqn:En.
  destruct (mappages_run s l Q pgdir T A virt size ps perm v (Z.to_nat (n - 1)) Hvm)
    as (r & s1 & l1 & T1 & E1 & Hg & Hr).
  - rewrite Ev. change (KERNBASE / PGSIZE) with 524288 in Hv. unfold PGSIZE. lia.
  - unfold PGSIZE in *. lia.
  - unfold PGSIZE in *. lia.
  - done.
  - rewrite Z2Nat.id by lia. symmetry. apply (Z.div_unique _ _ _ (PGSIZE - 1)); [left; done|].
    unfold PGSIZE in *. lia.
  - done.
  - rewrite Z2Nat.id by lia. unfold PGSIZE in *. lia.
  - done.
  - intros x Hx. apply Hfree. lia.
  - destruct Hr as [[-> Hvm1]|(-> & -> & k & Hk & Hvm1)].
    + exists None, s1, l1. split; [by erewrite bind_Ok by exact E1|]. left. split; [done|].
      exists T1. split; [done|]. by replace (S (Z.to_nat (n - 1))) with (Z.to_nat n) in Hvm1 by lia.
    + pose proof (kernel_only_range A v ps perm k Hv HA) as HA1.
      destruct (freevm_run s1 [] Q pgdir T1 (map_range A v ps perm k)) as (s2 & l2 & E2 & Ho2 & Hl2 & Hc2).
      { by rewrite kernel_only_frames. }
      rewrite kernel_only_frames, app_nil_r in Hl2, Hc2 by done.
      pose proof (gr_pages _ _ _ _ _ _ _ Hg) as Hp. cbn in Hp, Hl2. exists (Some 0), s2, l2. split.
      * erewrite bind_Ok by exact E1. cbn. by erewrite bind_Ok by exact E2.
      * right. split_and!; [done|done|by rewrite Hl2| |].
        -- eapply changed_mono; [by intros q Hq; rewrite Hp; exact Hq|].
           eapply changed_trans; [apply Hg|done].
        -- rewrite Hl2. by eapply tabs_length.
Qed.

Lemma setup_items Q pgdir items : ∀ s l T A,
  vm s l Q pgdir T A → kernel_only A → items_ok A items →
  ∃ r s' l', for_find items (setup_item pgdir) s = Ok r s' ∧
    ((r = None ∧ ∃ T', grown s s' l l' pgdir T T' ∧ vm s' l' Q pgdir T' (foldl map_item A items)) ∨
     (r = Some 0 ∧ owned s' l' Q ∧ l' ≡ₚ l ++ tabs pgdir T ∧ changed (l ++ tabs pgdir T) s s' ∧
      Z.of_nat (length l') ≤ 1025)).
Proof using HKEND.
  induction items as [|item items IH]; intros s l T A Hvm HA Hok.
  { exists None, s, l. split; [done|]. left. split; [done|]. exists T. split; [apply grown_refl|done]. }
  destruct Hok as [Hok Hoks].
  destruct (setup_one s l Q pgdir T A item Hvm HA Hok) as (r & s1 & l1 & E1 & Hr).
  cbn [for_find]. destruct Hr as [(-> & T1 & Hg1 & Hvm1)|(-> & Hrest)].
  - destruct (IH s1 l1 T1 (map_item A item) Hvm1) as (r & s' & l' & E & Hr); [|done|].
    { destruct item as [[[virt ps] pe] perm]. apply kernel_only_range; [apply Hok|done]. }
    exists r, s', l'. split; [by erewrite bind_Ok by exact E1|].
    destruct Hr as [(-> & T' & Hg & Hvm')|(-> & Ho & Hl & Hc & Hlen)].
    + left. split; [done|]. exists T'. split; [by eapply grown_trans|done].
    + right. pose proof (gr_pages _ _ _ _ _ _ _ Hg1) as Hp. split_and!; [done|done|by rewrite Hl| |done].
      eapply changed_mono; [by intros q Hq; rewrite Hp; exact Hq|].
      eapply changed_trans; [|exact Hc]. eapply changed_mono; [|apply Hg1]. set_solver.
  - exists (Some 0), s1, l1. split; [by erewrite bind_Ok by exact E1|]. right. by split.
Qed.

(** A zeroed page is an empty directory. *)
Lemma empty_dir s l Q p :
  owned s l (p :: Q) →
  ∃ s', memset p 0 PGSIZE s = Ok p s' ∧ vm s' l Q p ∅ ∅ ∧ changed [p] s s' ∧
    has_bytes (k_mem s') p (replicate 4096 0).
Proof.
  intros Ho. destruct (ow_page _ _ _ Ho p) as [(Hpr & Hpal & _) Hpm]; [by left|].
  assert (Hc : changed [p] s (write p (replicate 4096 0) s)).
  { apply changed_write; rewrite ?length_replicate; [lia|unfold PGSIZE; lia|exact Hpm]. }
  exists (write p (replicate 4096 0) s). split_and!; [apply (memset_eq s p 0 4096), Hpm| |exact Hc|].
  - split.
    + apply (owned_changed s _ l _ [p] Ho Hc); [reflexivity|]. intros q ->%list_elem_of_singleton. by left.
    + split.
      * intros d Hd. exists 0. rewrite lookup_empty. split; [|done].
        unfold write. cbn [k_mem set_k_mem]. apply zero_word; lia.
      * intros d tab [=].
      * intros d tab i [=].
      * done.
  - apply has_bytes_write.
Qed.

(** The linker puts [data] at a page, after the text and below the top of memory. *)
Context (HKDATA : KDATA mod PGSIZE = 0) (HKLINK : KERNLINK < KDATA < P2V PHYSTOP).

(** The mappings that every address space has. *)
Definition kernel_map : gmap Z Z := foldl map_item ∅ kmap.

Lemma kmap_ok : items_ok ∅ kmap.
Proof using HKDATA HKLINK.
  unfold P2V in HKLINK. change (u32 (PHYSTOP + KERNBASE)) with 0x8E000000 in HKLINK.
  pose proof (Z.div_mod KDATA PGSIZE ltac:(done)) as Hd. rewrite HKDATA in Hd.
  set (k := KDATA / PGSIZE) in *. unfold PGSIZE in Hd.
  assert (Ek : V2P KDATA = (k - 524288) * PGSIZE).
  { unfold V2P. rewrite u32_small; unfold KERNBASE, PGSIZE; lia. }
  assert (E1 : u32 (V2P KDATA - V2P KERNLINK) = (k - 524544) * PGSIZE).
  { rewrite Ek. change (V2P KERNLINK) with 0x100000. rewrite u32_small; unfold PGSIZE; lia. }
  assert (E2 : u32 (PHYSTOP - V2P KDATA) = (581632 - k) * PGSIZE).
  { rewrite Ek. unfold PHYSTOP. rewrite u32_small; unfold PGSIZE; lia. }
  unfold items_ok, kmap, item_ok, map_item. rewrite E1, E2.
  change (V2P KERNLINK) with (256 * PGSIZE). rewrite Ek, !Z.div_mul by done. fold k.
  change (KERNBASE / PGSIZE) with 524288. change (KERNLINK / PGSIZE) with 524544.
  change (u32 (EXTMEM - 0)) with (256 * PGSIZE). rewrite Z.div_mul by done.
  change (u32 (0 - DEVSPACE) / PGSIZE) with 8192. change (DEVSPACE / PGSIZE) with 1040384.
  change (u32 (0 - DEVSPACE)) with (8192 * PGSIZE).
  unfold PTE_W. split_and!; try (unfold PGSIZE, KERNBASE; lia).
  all: intros x Hx; rewrite ?lookup_map_range, ?Z2Nat.id by lia.
  all: by rewrite ?decide_False by lia.
Qed.

Lemma kernel_map_only : kernel_only kernel_map.
Proof using HKDATA HKLINK.
  unfold kernel_map. assert (Hgen : ∀ items A, kernel_only A → items_ok A items → kernel_only (foldl map_item A items)).
  { induction items as [|[[[virt ps] pe] perm] items IH]; intros A HA Hok; [done|].
    destruct Hok as [Hok Hoks]. apply IH; [|done]. apply kernel_only_range; [apply Hok|done]. }
  apply Hgen; [done|]. apply kmap_ok.
Qed.

(** A directory with the kernel's mappings, or 0 and every page back on the list. *)
Lemma setupkvm_run s l Q :
  owned s l Q →
  ∃ r s' l', setupkvm s = Ok r s' ∧
    ((r ≠ 0 ∧ ∃ T, vm s' l' Q r T kernel_map ∧ l ≡ₚ l' ++ tabs r T ∧ changed (tabs r T) s s') ∨
     (r = 0 ∧ owned s' l' Q ∧ l' ≡ₚ l ∧ changed l s s' ∧ Z.of_nat (length l) ≤ 1025)).
Proof using HKEND HKDATA HKLINK.
  intros Ho. unfold setupkvm. destruct l as [|p l].
  { destruct (kalloc_empty s Q Ho) as (s' & E & Ho' & Hc & _). exists 0, s', [].
    split; [by erewrite bind_Ok by exact E|]. right. split_and!; done. }
  destruct (owned_kalloc s p l Q Ho) as (s1 & E1 & Ho1 & Hc1 & _).
  assert (Hp : 0 < p) by (apply (owned_range _ _ _ p Ho1); by left).
  destruct (empty_dir s1 l Q p Ho1) as (s2 & E2 & Hvm2 & Hc2 & _).
  destruct (setup_items Q p kmap s2 l ∅ ∅ Hvm2) as (r & s3 & l3 & E3 & Hr); [done|apply kmap_ok|].
  assert (Hc12 : changed (tabs p ∅) s s2).
  { eapply changed_trans; [eapply changed_mono; [apply list_subseteq_nil|exact Hc1]|]. exact Hc2. }
  exists (default p r), s3, l3. split.
  - erewrite bind_Ok by exact E1. replace (p =? 0) with false by lia.
    erewrite bind_Ok by exact E2. replace (DEVSPACE <? P2V PHYSTOP) with false by reflexivity.
    erewrite bind_Ok; [reflexivity|exact E3].
  - destruct Hr as [(-> & T & Hg & Hvm)|(-> & Ho3 & Hl & Hc & Hlen)].
    + left. split; [cbn; lia|]. exists T. split_and!; [done| |].
      * pose proof (gr_pages _ _ _ _ _ _ _ Hg) as Hp'. rewrite <-Hp'. apply Permutation_cons_append.
      * eapply changed_trans; [|apply Hg]. eapply changed_mono; [|exact Hc12].
        apply tabs_sub. apply map_empty_subseteq.
    + right. assert (Hl' : l3 ≡ₚ p :: l) by (rewrite Hl; symmetry; apply Permutation_cons_append).
      split_and!; [done|done|done| |by rewrite <-Hl'].
      eapply changed_trans; [eapply changed_mono; [|exact Hc12]|eapply changed_mono; [|exact Hc]].
      * intros q ->%list_elem_of_singleton. by left.
      * intros q [Hq|Hq%list_elem_of_singleton]%elem_of_app; [by right|rewrite Hq; by left].
Qed.
End env.
