(* ===== verification/CopyThm.v ===== *)
(** * CopyThm: growing and copying user address spaces (vm.c)

    [copyuvm], which [fork] uses: the child has the same bytes in frames of its own.
    [allocuvm]: fresh zeroed pages.  When pages run out both give back what they
    took.  [SpaceThm] states what follows for address spaces. *)

From stdpp Require Import base numbers gmap strings option list.
From S2P Require Import Prelude Format Machine Boot Mem ProcCore Kalloc Vm VmThm UvmThm.
Local Open Scope kernel_scope.
Local Open Scope Z_scope.

(** ** More on frames *)

Lemma frames_app A v w V : v ≤ w → w ≤ V → frames A v V = frames A v w ++ frames A w V.
Proof.
  intros H1 H2. unfold frames. replace (V - v) with ((w - v) + (V - w)) by lia.
  rewrite seqZ_app by lia. rewrite omap_app. by replace (v + (w - v)) with w by lia.
Qed.
Lemma frames_trunc A v V : 0 ≤ v → v ≤ V → (∀ x, v ≤ x < V → A !! x = None) → frames A 0 V = frames A 0 v.
Proof.
  intros H0 Hv Hx. rewrite (frames_app A 0 v V) by lia.
  rewrite (frames_skip A v V V) by done. by rewrite (frames_nil A V V), app_nil_r by lia.
Qed.
Lemma frames_snoc A v e :
  0 ≤ v → frames (<[v := e]> A) 0 (v + 1) = frames A 0 v ++ [frame e].
Proof.
  intros Hv. rewrite (frames_app _ 0 v) by lia. f_equal.
  - apply frames_same. intros x Hx. by rewrite lookup_insert_ne by lia.
  - rewrite frames_cons by lia. rewrite lookup_insert_eq, frames_nil by lia. done.
Qed.
Lemma frames_in A v V x e : v ≤ x < V → A !! x = Some e → frame e ∈ frames A v V.
Proof.
  intros Hx He. unfold frames. apply list_elem_of_omap. exists x. rewrite He. split; [|done].
  apply elem_of_seqZ. lia.
Qed.

(** The entry that [mappages] makes for a page. *)
Lemma frame_entry p perm :
  0 ≤ p < 2 ^ 32 → p mod PGSIZE = 0 → 0 ≤ perm < PGSIZE → frame (entry (V2P p) perm) = p.
Proof.
  intros Hp Hal Hperm. unfold frame. destruct (entry_eq (V2P p) perm) as [-> Hr]; [by apply V2P_aligned|done|].
  rewrite PTE_ADDR_add by (by apply V2P_aligned || done). by apply P2V_V2P.
Qed.
Lemma flags_entry pa perm :
  pa mod PGSIZE = 0 → 0 ≤ perm < PGSIZE → PTE_FLAGS (entry pa perm) = Z.lor perm PTE_P.
Proof. intros Hpa Hperm. destruct (entry_eq pa perm Hpa Hperm) as [-> Hr]. by apply PTE_FLAGS_add. Qed.

Lemma flags_present e : has e PTE_P = true → Z.lor (PTE_FLAGS e) PTE_P = PTE_FLAGS e.
Proof.
  intros Hp. apply Z.bits_inj'. intros i Hi. unfold PTE_FLAGS, has, PTE_P in *.
  rewrite Z.lor_spec, Z.land_spec. destruct (decide (i = 0)) as [->|Hne].
  - change (Z.testbit 1 0) with true. change (Z.testbit 0xFFF 0) with true.
    rewrite orb_true_r, andb_true_r. symmetry. apply negb_true_iff, Z.eqb_neq in Hp.
    destruct (Z.testbit e 0) eqn:E; [done|]. exfalso. apply Hp.
    apply Z.bits_inj'. intros j Hj. rewrite Z.land_spec, Z.bits_0. change 1 with (2 ^ 0).
    rewrite Z.pow2_bits_eqb by lia. destruct (Z.eqb_spec 0 j) as [<-|]; [by rewrite E|apply andb_false_r].
  - change 1 with (2 ^ 0). rewrite Z.pow2_bits_false by lia. apply orb_false_r.
Qed.

Lemma flags_range e : 0 ≤ PTE_FLAGS e < PGSIZE.
Proof. unfold PTE_FLAGS. change 0xFFF with (Z.ones 12). rewrite Z.land_ones by lia. by apply Z.mod_pos_bound. Qed.

(** Two pages with the same contents. *)
Definition same_page (m : gmap Z Z) (p q : Z) : Prop :=
  ∀ i, 0 ≤ i < PGSIZE → m !! (q + i) = m !! (p + i).

Section env.
Context `{Env}.
Context (HKEND : KERNBASE < KEND).
Context (HKDATA : KDATA mod PGSIZE = 0) (HKLINK : KERNLINK < KDATA < P2V PHYSTOP).

(** [memmove] of a page. *)
Lemma copy_page s l P p q :
  owned s l P → p ∈ P → q ∈ P → p ≠ q →
  (∀ x b, on_page q x → k_mem s !! x = Some b → 0 ≤ b < 256) →
  ∃ s', memmove p q PGSIZE s = Ok p s' ∧ k_freelist s' = k_freelist s ∧ changed [p] s s' ∧
    same_page (k_mem s') q p.
Proof.
  intros Ho Hp Hq Hpq Hb. destruct (ow_page _ _ _ Ho p Hp) as [(_ & Hpal & _) Hpm].
  destruct (ow_page _ _ _ Ho q Hq) as [(_ & Hqal & _) Hqm].
  destruct (mem_read_mapped (k_mem s) q 4096 Hqm) as [bs Hbs].
  pose proof (proj1 (mem_read_Some _ _ _ _) Hbs) as [Hlen Hrd].
  assert (Hc : changed [p] s (write p bs s)).
  { apply changed_write; rewrite ?Hlen; [lia|unfold PGSIZE; lia|exact Hpm]. }
  exists (write p bs s). split_and!; [|reflexivity|done|].
  - apply (memmove_eq s p q 4096 bs); [exact Hpm|done|]. intros b Hin.
    apply list_elem_of_lookup in Hin as [i Hi]. pose proof (lookup_lt_Some _ _ _ Hi) as Hlt.
    apply (Hb (q + Z.of_nat i)); [unfold on_page, PGSIZE; lia|]. rewrite Hrd by lia. done.
  - intros i Hi. unfold write. cbn [k_mem set_k_mem]. rewrite !lookup_mem_write, Hlen.
    unfold PGSIZE in Hi. rewrite decide_True by lia.
    rewrite decide_False by (destruct (page_disjoint p q Hpal Hqal Hpq); unfold PGSIZE in *; lia).
    rewrite <-(Z2Nat.id i) at 2 by lia. rewrite Hrd by lia. f_equal. lia.
Qed.

Lemma same_page_changed X s s' p q :
  changed X s s' → p ∉ X → q ∉ X → (∀ x, x ∈ X → x mod PGSIZE = 0) →
  p mod PGSIZE = 0 → q mod PGSIZE = 0 → same_page (k_mem s) p q → same_page (k_mem s') p q.
Proof.
  intros Hc Hp Hq HX Hpal Hqal Hs i Hi.
  rewrite (mem_read_changed X s s' p Hc Hp HX Hpal (p + i)) by (unfold on_page; lia).
  rewrite (mem_read_changed X s s' q Hc Hq HX Hqal (q + i)) by (unfold on_page; lia). by apply Hs.
Qed.

(** An address space, when the allocator takes or gives a page that is not its own. *)
Lemma vm_kalloc s p l Q pgdir T A :
  vm s (p :: l) Q pgdir T A →
  ∃ s', kalloc s = Ok p s' ∧ vm s' l (p :: Q) pgdir T A ∧ changed [] s s' ∧ k_mem s' = k_mem s.
Proof.
  intros [Ho Hr]. destruct (owned_kalloc s p l _ Ho) as (s' & E & Ho' & Hc & Hm).
  exists s'. split_and!; [done| |done|done]. split; [|by rewrite Hm].
  eapply owned_perm; [|exact Ho']. apply Permutation_middle.
Qed.
Lemma vm_kalloc_none s Q pgdir T A :
  vm s [] Q pgdir T A →
  ∃ s', kalloc s = Ok 0 s' ∧ vm s' [] Q pgdir T A ∧ changed [] s s'.
Proof.
  intros [Ho Hr]. destruct (kalloc_empty s _ Ho) as (s' & E & Ho' & Hc & Hm).
  exists s'. split_and!; [done| |done]. split; [done|by rewrite Hm].
Qed.

(** A page that is not a table is written. *)
Lemma vm_other s s' l Q pgdir T A p :
  vm s l Q pgdir T A → changed [p] s s' → k_freelist s' = k_freelist s → p ∈ Q → vm s' l Q pgdir T A.
Proof.
  intros [Ho Hr] Hc Hf Hp. assert (Hin : p ∈ tabs pgdir T ++ Q) by (apply elem_of_app; by right).
  split; [by apply (owned_changed s s' l _ [p] Ho Hc Hf); intros q ->%list_elem_of_singleton|].
  apply (pt_rep_changed [p] s s'); [done| | |done].
  - intros q Hq. split; [|eapply owned_aligned; [exact Ho|]; apply elem_of_app; by left].
    intros ->%list_elem_of_singleton. pose proof (ow_nodup _ _ _ Ho) as (_ & _ & Hnd)%NoDup_app.
    apply NoDup_app in Hnd as (_ & Hnd & _). by apply (Hnd p Hq).
  - intros q ->%list_elem_of_singleton. by eapply owned_aligned.
Qed.

(** One page is mapped. *)
Lemma map_page_run s l Q pgdir T A v p perm :
  vm s l Q pgdir T A → 0 ≤ v < 2 ^ 20 → 0 ≤ perm < PGSIZE → A !! v = None →
  ∃ r s' l' T', mappages pgdir (v * PGSIZE) PGSIZE (V2P p) perm s = Ok r s' ∧
    grown s s' l l' pgdir T T' ∧
    ((r = 0 ∧ vm s' l' Q pgdir T' (<[v := entry (V2P p) perm]> A)) ∨
     (r = -1 ∧ l' = [] ∧ vm s' l' Q pgdir T' A)).
Proof.
  intros Hvm Hv Hperm HA. pose proof (V2P_range p).
  destruct (mappages_run s l Q pgdir T A (v * PGSIZE) PGSIZE (V2P p) perm v 0 Hvm)
    as (r & s' & l' & T' & E & Hg & Hr); [unfold PGSIZE; lia|done|unfold PGSIZE; lia| | | | | | |].
  - by rewrite Z.div_mul.
  - symmetry. apply (Z.div_unique _ _ _ (PGSIZE - 1)); [left; done|]. lia.
  - lia.
  - lia.
  - done.
  - intros x Hx. by replace x with v by lia.
  - exists r, s', l', T'. split_and!; [done|done|].
    destruct Hr as [[-> Hr]|(-> & -> & k & Hk & Hr)]; [by left|right].
    by replace k with 0%nat in Hr by lia.
Qed.

(** ** [copyuvm] *)

Section copy.
Context (s0 : kernel) (l0 Q : list Z) (pgdir : Z) (T A : gmap Z Z) (V : Z).
Context (Hvm0 : vm s0 l0 (frames A 0 V ++ Q) pgdir T A).
Context (HV : 0 ≤ V ≤ KERNBASE / PGSIZE).
Context (Hall : ∀ x, 0 ≤ x < V → is_Some (A !! x)).
Context (Hbytes : ∀ f x b, f ∈ frames A 0 V → on_page f x → k_mem s0 !! x = Some b → 0 ≤ b < 256).

(** What is not the copy's. *)
Definition others : list Z := tabs pgdir T ++ frames A 0 V ++ Q.

(** The copy with its first [v] pages, made of pages that were free. *)
Record taking (v : Z) (s : kernel) (l : list Z) (d : Z) (Tc Ac : gmap Z Z) : Prop := {
  tk_vm : vm s l (frames Ac 0 v ++ others) d Tc Ac;
  tk_pages : l0 ≡ₚ l ++ tabs d Tc ++ frames Ac 0 v;
  tk_changed : changed l0 s0 s;
  tk_none x : v ≤ x < KERNBASE / PGSIZE → Ac !! x = None;
}.
Record copying (v : Z) (s : kernel) (l : list Z) (d : Z) (Tc Ac : gmap Z Z) : Prop := {
  cp_taking : taking v s l d Tc Ac;
  cp_copy x : 0 ≤ x < v → ∃ e e', A !! x = Some e ∧ Ac !! x = Some e' ∧
    PTE_FLAGS e' = PTE_FLAGS e ∧ same_page (k_mem s) (frame e) (frame e');
  cp_kern x : KERNBASE / PGSIZE ≤ x → Ac !! x = kernel_map !! x;
}.
(** The outcome when pages run out. *)
Definition given_back (s : kernel) : Prop :=
  ∃ l, owned s l others ∧ l ≡ₚ l0 ∧ changed l0 s0 s.

Lemma free_pages_aligned x : x ∈ l0 → x mod PGSIZE = 0.
Proof using Hvm0. intros Hx. eapply free_aligned; [apply Hvm0|done]. Qed.
Lemma others_not_free x : x ∈ others → x ∉ l0.
Proof using Hvm0.
  intros Hx Hl. pose proof (ow_nodup _ _ _ (vm_own _ _ _ _ _ _ Hvm0)) as (_ & Hd & _)%NoDup_app.
  by apply (Hd x Hl).
Qed.
Lemma others_aligned x : x ∈ others → x mod PGSIZE = 0.
Proof using Hvm0. intros Hx. eapply owned_aligned; [apply Hvm0|done]. Qed.

(** The parent is what it was. *)
Lemma parent_vm v s l d Tc Ac :
  taking v s l d Tc Ac → vm s l (frames A 0 V ++ Q ++ tabs d Tc ++ frames Ac 0 v) pgdir T A.
Proof using Hvm0.
  intros [Hvm Hp Hc Hn]. split.
  - eapply owned_perm; [|exact (vm_own _ _ _ _ _ _ Hvm)]. unfold others.
    rewrite (app_assoc (tabs d Tc)). rewrite Permutation_app_comm. by rewrite <-!app_assoc.
  - apply (pt_rep_changed l0 s0 s); [done| |apply free_pages_aligned|apply Hvm0].
    intros p Hin. assert (p ∈ others) by (apply elem_of_app; by left).
    split; [by apply others_not_free|by apply others_aligned].
Qed.

(** [freevm] of the copy. *)
Lemma copy_abort v s l d Tc Ac :
  0 ≤ v ≤ V → taking v s l d Tc Ac → ∃ s', freevm d s = Ok tt s' ∧ given_back s'.
Proof using HKEND HV.
  intros Hv [Hvm Hp Hc Hn].
  pose proof (frames_trunc Ac v (KERNBASE / PGSIZE) ltac:(lia) ltac:(lia) Hn) as Ef.
  rewrite <-Ef in Hvm, Hp. destruct (freevm_run HKEND s l others d Tc Ac Hvm) as (s' & l' & E & Ho & Hl & Hc').
  exists s'. split; [done|]. exists l'. split_and!; [done|by rewrite Hl, Hp|].
  eapply changed_trans; [exact Hc|]. eapply changed_mono; [|exact Hc'].
  intros q Hq. rewrite Hp. apply elem_of_app. by right.
Qed.

Lemma taking_changed v s s' l d Tc Ac :
  taking v s l d Tc Ac → vm s' l (frames Ac 0 v ++ others) d Tc Ac → changed [] s s' →
  taking v s' l d Tc Ac.
Proof using Type.
  intros [Hvm Hp Hc Hn] Hvm' Hc'. split; [done|done| |done].
  eapply changed_trans; [exact Hc|]. eapply changed_mono; [apply list_subseteq_nil|exact Hc'].
Qed.

(** A page for the copy, filled from the parent's. *)
Lemma copy_fill v s p l d Tc Ac e :
  taking v s (p :: l) d Tc Ac → 0 ≤ v < V → A !! v = Some e →
  ∃ s1 s2, kalloc s = Ok p s1 ∧ memmove p (frame e) PGSIZE s1 = Ok p s2 ∧ p ≠ 0 ∧
    vm s2 l (p :: frames Ac 0 v ++ others) d Tc Ac ∧ changed [p] s s2 ∧
    same_page (k_mem s2) (frame e) p.
Proof using Hvm0 Hbytes.
  intros [Hvm Hp Hc Hn] Hv He. destruct (vm_kalloc _ _ _ _ _ _ _ Hvm) as (s1 & E1 & Hvm1 & Hc1 & Hm1).
  pose proof (vm_own _ _ _ _ _ _ Hvm1) as Ho1.
  assert (Hp1 : p ∈ tabs d Tc ++ p :: frames Ac 0 v ++ others) by (apply elem_of_app; by right; left).
  assert (Hf : frame e ∈ frames A 0 V) by by eapply frames_in.
  assert (Hfo : frame e ∈ others) by (unfold others; rewrite !elem_of_app; auto).
  assert (Hpl : p ∈ l0) by (rewrite Hp; by left).
  assert (Hpf : p ≠ frame e) by (intros ->; by apply (others_not_free (frame e))).
  destruct (copy_page s1 l _ p (frame e) Ho1 Hp1) as (s2 & E2 & Hf2 & Hc2 & Hs2); [|done| |].
  { rewrite !elem_of_app, elem_of_cons, elem_of_app. auto. }
  { intros x b Hx Hb. rewrite Hm1 in Hb. apply (Hbytes (frame e) x b Hf Hx).
    rewrite <-(mem_read_changed l0 s0 s (frame e) Hc); [done|by apply others_not_free|
      apply free_pages_aligned|by apply others_aligned|done]. }
  exists s1, s2. split_and!; [done|done| | | |done].
  - pose proof (owned_range _ _ _ p Ho1 Hp1). lia.
  - apply (vm_other s1 s2 _ _ _ _ _ p Hvm1 Hc2 Hf2). by left.
  - eapply changed_trans; [eapply changed_mono; [apply list_subseteq_nil|exact Hc1]|exact Hc2].
Qed.

(** The page is mapped: the copy has one page more. *)
Lemma copy_grow v s p l d Tc Ac e s2 s3 l3 T3 :
  copying v s (p :: l) d Tc Ac → 0 ≤ v < V → A !! v = Some e → has e PTE_P = true →
  changed [p] s s2 → same_page (k_mem s2) (frame e) p → grown s2 s3 l l3 d Tc T3 →
  vm s3 l3 (p :: frames Ac 0 v ++ others) d T3 (<[v := entry (V2P p) (PTE_FLAGS e)]> Ac) →
  copying (v + 1) s3 l3 d T3 (<[v := entry (V2P p) (PTE_FLAGS e)]> Ac).
Proof using Hvm0 HV.
  intros [[Hvm Hp Hc Hn] Hcopy Hkern] Hv He HeP Hc2 Hs2 Hg Hvm3. pose proof (vm_own _ _ _ _ _ _ Hvm3) as Ho3.
  set (e' := entry (V2P p) (PTE_FLAGS e)) in *.
  assert (Hp3 : p ∈ tabs d T3 ++ p :: frames Ac 0 v ++ others) by (apply elem_of_app; by right; left).
  pose proof (owned_aligned _ _ _ p Ho3 Hp3) as Hpal. pose proof (owned_range _ _ _ p Ho3 Hp3) as Hpr.
  assert (Ef : frame e' = p) by (apply frame_entry; [lia|done|apply flags_range]).
  assert (Efl : PTE_FLAGS e' = PTE_FLAGS e).
  { unfold e'. rewrite flags_entry by (by apply V2P_aligned || apply flags_range). by apply flags_present. }
  assert (Hp' : l0 ≡ₚ l3 ++ tabs d T3 ++ frames Ac 0 v ++ [p]).
  { rewrite Hp. pose proof (gr_pages _ _ _ _ _ _ _ Hg) as Hg'. rewrite (app_assoc l3), <-Hg'.
    cbn [app]. rewrite !app_assoc. apply Permutation_cons_append. }
  pose proof (ow_nodup _ _ _ Ho3) as (_ & _ & Hnd)%NoDup_app.
  apply NoDup_app in Hnd as (_ & Hnt & [Hnp _]%NoDup_cons).
  assert (Halt : ∀ q, q ∈ tabs d T3 → q mod PGSIZE = 0).
  { intros q Hq. eapply owned_aligned; [exact Ho3|]. apply elem_of_app. by left. }
  assert (Hnot : ∀ q, q ∈ p :: frames Ac 0 v ++ others → (q ∉ tabs d T3) ∧ q mod PGSIZE = 0).
  { intros q Hq. split; [intros Hin; by apply (Hnt q)|]. eapply owned_aligned; [exact Ho3|].
    apply elem_of_app. by right. }
  assert (Hsame : ∀ q q', q ∈ p :: frames Ac 0 v ++ others → q' ∈ p :: frames Ac 0 v ++ others →
    same_page (k_mem s2) q q' → same_page (k_mem s3) q q').
  { intros q q' [? ?]%Hnot [? ?]%Hnot. apply (same_page_changed (tabs d T3)); try done. apply Hg. }
  assert (Hin : ∀ x e, 0 ≤ x < V → A !! x = Some e → frame e ∈ frames Ac 0 v ++ others).
  { intros x ex Hx Hex. unfold others. rewrite !elem_of_app. right. right. left. by eapply frames_in. }
  split; [split| |].
  - rewrite frames_snoc, Ef by lia. eapply vm_perm; [|exact Hvm3].
    rewrite <-app_assoc. apply Permutation_middle.
  - by rewrite frames_snoc, Ef by lia.
  - eapply changed_trans; [exact Hc|]. eapply changed_trans.
    + eapply changed_mono; [|exact Hc2]. intros q ->%list_elem_of_singleton. rewrite Hp. by left.
    + eapply changed_mono; [|apply Hg]. intros q Hq. rewrite Hp', !elem_of_app. auto.
  - intros x Hx. rewrite lookup_insert_ne by lia. apply Hn. lia.
  - intros x Hx. destruct (decide (x = v)) as [->|Hne].
    { exists e, e'. rewrite lookup_insert_eq, Ef. split_and!; [done..|].
      apply Hsame; [right; by eapply Hin|by left|done]. }
    rewrite lookup_insert_ne by done. destruct (Hcopy x) as (ex & ex' & H1 & H2 & H3 & H4); [lia|].
    exists ex, ex'. split_and!; [done..|].
    assert (Hq1 : frame ex ∈ frames Ac 0 v ++ others) by (eapply (Hin x); [lia|done]).
    assert (Hq2 : frame ex' ∈ frames Ac 0 v ++ others).
    { apply elem_of_app. left. apply (frames_in Ac 0 v x); [lia|done]. }
    apply Hsame; [by right|by right|]. apply (same_page_changed [p] s); try done.
    + intros Hx'%list_elem_of_singleton. by rewrite <-Hx' in Hnp.
    + intros Hx'%list_elem_of_singleton. by rewrite <-Hx' in Hnp.
    + by intros q ->%list_elem_of_singleton.
    + apply Hnot. by right.
    + apply Hnot. by right.
  - intros x Hx. rewrite lookup_insert_ne by lia. by apply Hkern.
Qed.

Definition copy_step (d sz i : Z) : K (Z + Z) :=
  if negb (i <? sz) then ret (inr d)
  else
    let! pte := walkpgdir pgdir i false in
    if pte =? 0 then panic "copyuvm: pte should exist"
    else
      let! e := load32 pte in
      if negb (has e PTE_P) then panic "copyuvm: page not present"
      else
        let pa := PTE_ADDR e in
        let flags := PTE_FLAGS e in
        let! mem := kalloc in
        if mem =? 0 then freevm d ;; ret (inr 0)
        else
          memmove mem (P2V pa) PGSIZE ;;
          let! r := mappages d i PGSIZE (V2P mem) flags in
          if r <? 0 then
            kfree mem ;;
            freevm d ;;
            ret (inr 0)
          else ret (inl (u32 (i + PGSIZE))).

(** Pages of the copy that could not be mapped go back as well. *)
Lemma copy_unmapped v s p l d Tc Ac s2 s3 T3 :
  taking v s (p :: l) d Tc Ac → 0 ≤ v ≤ V → changed [p] s s2 → grown s2 s3 l [] d Tc T3 →
  vm s3 [] (p :: frames Ac 0 v ++ others) d T3 Ac →
  ∃ s4 s5, kfree p s3 = Ok tt s4 ∧ freevm d s4 = Ok tt s5 ∧ given_back s5 ∧
    Z.of_nat (length l0) ≤ 1026 + v.
Proof using HKEND HV.
  intros [Hvm Hp Hc Hn] Hv Hc2 Hg Hvm3. destruct (vm_kfree _ _ _ _ _ _ _ Hvm3) as (s4 & E4 & Hvm4 & Hc4).
  assert (Hp' : l0 ≡ₚ [p] ++ tabs d T3 ++ frames Ac 0 v).
  { rewrite Hp. pose proof (gr_pages _ _ _ _ _ _ _ Hg) as Hg'. rewrite app_nil_l in Hg'.
    rewrite <-Hg'. cbn [app]. constructor. by rewrite app_assoc. }
  destruct (copy_abort v s4 [p] d T3 Ac Hv) as (s5 & E5 & Hb).
  2:{ exists s4, s5. split_and!; [done..|]. rewrite Hp'. cbn [length app]. rewrite length_app.
      pose proof (tabs_length _ _ _ _ _ _ Hvm3). pose proof (frames_length Ac 0 v ltac:(lia)). lia. }
  split; [done|done| |done]. eapply changed_trans; [exact Hc|].
  assert (Hpl : [p] ⊆ l0) by (intros q ->%list_elem_of_singleton; rewrite Hp; by left).
  eapply changed_trans; [by eapply changed_mono|]. eapply changed_trans; [|by eapply changed_mono].
  eapply changed_mono; [|apply Hg]. intros q Hq. rewrite Hp', !elem_of_app. auto.
Qed.

Lemma copy_one v s l d Tc Ac sz :
  copying v s l d Tc Ac → 0 ≤ v < V → v * PGSIZE < sz →
  ∃ r s', copy_step d sz (v * PGSIZE) s = Ok r s' ∧
    ((r = inl ((v + 1) * PGSIZE) ∧ ∃ l' Tc' Ac', copying (v + 1) s' l' d Tc' Ac') ∨
     (r = inr 0 ∧ given_back s' ∧ Z.of_nat (length l0) ≤ 1025 + V)).
Proof using HKEND Hvm0 HV Hall Hbytes.
  intros Hcp Hv Hsz. pose proof (cp_taking _ _ _ _ _ _ Hcp) as Htk.
  change (KERNBASE / PGSIZE) with 524288 in *.
  assert (Hva : 0 ≤ v * PGSIZE < 2 ^ 32) by (unfold PGSIZE; lia).
  pose proof (parent_vm _ _ _ _ _ _ Htk) as Hpar. destruct (Hall v Hv) as [e He].
  destruct (entry_of _ _ _ _ _ _ Hpar (v * PGSIZE) e Hva) as (Hnz & Hw & HeP & He0); [by rewrite Z.div_mul|].
  assert (Hcont : ∀ r s', (let! mem := kalloc in
        if mem =? 0 then freevm d ;; ret (inr 0)
        else
          memmove mem (frame e) PGSIZE ;;
          let! r := mappages d (v * PGSIZE) PGSIZE (V2P mem) (PTE_FLAGS e) in
          if r <? 0 then kfree mem ;; freevm d ;; ret (inr 0)
          else ret (inl (u32 (v * PGSIZE + PGSIZE)))) s = Ok r s' →
    copy_step d sz (v * PGSIZE) s = Ok r s').
  { intros r s' <-. unfold copy_step. replace (v * PGSIZE <? sz) with true by lia. cbn [negb].
    erewrite bind_Ok by exact (walk_lookup _ _ _ _ _ _ Hpar _ Hva).
    replace (pte_ptr T (v * PGSIZE) =? 0) with false by lia.
    erewrite bind_Ok by by apply load32_eq. rewrite HeP. done. }
  destruct l as [|p l].
  { destruct (vm_kalloc_none _ _ _ _ _ (tk_vm _ _ _ _ _ _ Htk)) as (s1 & E1 & Hvm1 & Hc1).
    destruct (copy_abort v s1 [] d Tc Ac) as (s2 & E2 & Hb); [lia|by eapply taking_changed|].
    exists (inr 0), s2. split.
    - apply Hcont. erewrite bind_Ok by exact E1. cbn [Z.eqb]. by erewrite bind_Ok by exact E2.
    - right. split_and!; [done|done|]. rewrite (tk_pages _ _ _ _ _ _ Htk), app_nil_l, length_app.
      pose proof (tabs_length _ _ _ _ _ _ Hvm1). pose proof (frames_length Ac 0 v ltac:(lia)). lia. }
  destruct (copy_fill v s p l d Tc Ac e Htk Hv He) as (s1 & s2 & E1 & E2 & Hp & Hvm2 & Hc2 & Hs2).
  destruct (map_page_run s2 l _ d Tc Ac v p (PTE_FLAGS e) Hvm2) as (r & s3 & l3 & T3 & E3 & Hg & Hr);
    [lia|apply flags_range|apply (tk_none _ _ _ _ _ _ Htk); change (KERNBASE / PGSIZE) with 524288; lia|].
  assert (Ep : (p =? 0) = false) by lia.
  destruct Hr as [[-> Hvm3]|(-> & -> & Hvm3)].
  - exists (inl ((v + 1) * PGSIZE)), s3. split.
    + apply Hcont. erewrite bind_Ok by exact E1. rewrite Ep. erewrite bind_Ok by exact E2.
      erewrite bind_Ok by exact E3. cbn [Z.ltb Z.compare]. unfold ret. do 2 f_equal.
      rewrite u32_small; unfold PGSIZE; lia.
    + left. split; [done|]. eexists _, _, _. by eapply (copy_grow v s p l).
  - destruct (copy_unmapped v s p l d Tc Ac s2 s3 T3 Htk) as (s4 & s5 & E4 & E5 & Hb & Hlen);
      [lia|done..|].
    exists (inr 0), s5. split; [|right; split_and!; [done|done|lia]]. apply Hcont. erewrite bind_Ok by exact E1. rewrite Ep.
    erewrite bind_Ok by exact E2. erewrite bind_Ok by exact E3. cbn [Z.ltb Z.compare].
    erewrite bind_Ok by exact E4. by erewrite bind_Ok by exact E5.
Qed.

Lemma copy_loop d sz : V = npages sz → 0 ≤ sz → ∀ fuel v s l Tc Ac,
  copying v s l d Tc Ac → 0 ≤ v ≤ V → V - v < Z.of_nat fuel →
  ∃ r s', loop fuel (copy_step d sz) (v * PGSIZE) s = Ok r s' ∧
    ((r = d ∧ ∃ l' Tc' Ac', copying V s' l' d Tc' Ac') ∨
     (r = 0 ∧ given_back s' ∧ Z.of_nat (length l0) ≤ 1025 + V)).
Proof using HKEND Hvm0 HV Hall Hbytes.
  intros EV Hsz. induction fuel as [|fuel IH]; intros v s l Tc Ac Hcp Hv Hf; [lia|].
  pose proof (page_lt v sz Hsz) as Hlt. fold (npages sz) in Hlt. rewrite <-EV in Hlt.
  destruct (decide (v < V)) as [HvV|HvV].
  - destruct (copy_one v s l d Tc Ac sz Hcp) as (r & s1 & E1 & Hr); [lia|by apply Hlt|].
    destruct Hr as [(-> & l1 & T1 & A1 & Hcp1)|[-> Hb]].
    + destruct (IH (v + 1) s1 l1 T1 A1 Hcp1) as (r & s' & E & Hr); [lia|lia|].
      exists r, s'. split; [by erewrite loop_next by exact E1|done].
    + exists 0, s1. split; [by apply loop_Ok|by right].
  - assert (v = V) as -> by lia. exists d, s. split; [|left; split; [done|by eexists _, _, _]].
    apply loop_Ok. unfold copy_step. replace (V * PGSIZE <? sz) with false by lia. done.
Qed.

Lemma copyuvm_run sz :
  V = npages sz → 0 ≤ sz →
  ∃ r s', copyuvm pgdir sz s0 = Ok r s' ∧
    ((r ≠ 0 ∧ ∃ l' Tc Ac, copying V s' l' r Tc Ac) ∨
     (r = 0 ∧ given_back s' ∧ Z.of_nat (length l0) ≤ 1025 + V)).
Proof using HKEND HKDATA HKLINK Hvm0 HV Hall Hbytes.
  intros EV Hsz. unfold copyuvm.
  destruct (setupkvm_run HKEND HKDATA HKLINK s0 l0 others) as (d & s1 & l1 & E1 & Hr).
  { exact (vm_own _ _ _ _ _ _ Hvm0). }
  destruct Hr as [(Hd & Td & Hvm1 & Hl1 & Hc1)|(-> & Ho1 & Hl1 & Hc1 & Hlen)].
  2:{ exists 0, s1. split; [by erewrite bind_Ok by exact E1|]. right. split_and!; [done| |lia].
      exists l1. split_and!; done. }
  assert (Hcp : copying 0 s1 l1 d Td kernel_map).
  { split; [split| |intros x _; reflexivity].
    - by rewrite frames_nil.
    - by rewrite frames_nil, app_nil_r.
    - eapply changed_mono; [|exact Hc1]. intros q Hq. rewrite Hl1, elem_of_app. auto.
    - intros x Hx. apply kernel_map_only; [done..|]. lia.
    - intros x Hx. lia. }
  destruct (copy_loop d sz EV Hsz (S (Z.to_nat (sz / PGSIZE + 1))) 0 s1 l1 Td kernel_map Hcp)
    as (r & s' & E & Hr); [lia| |].
  - assert (npages sz ≤ sz / PGSIZE + 1).
    { unfold npages. rewrite <-(Z.div_add sz 1 PGSIZE) by done. apply Z.div_le_mono; [done|lia]. }
    pose proof (Z.div_pos sz PGSIZE Hsz ltac:(done)). lia.
  - exists r, s'. split.
    + erewrite bind_Ok by exact E1. replace (d =? 0) with false by lia. exact E.
    + destruct Hr as [[-> Hr]|Hr]; [left; by split|by right].
Qed.
End copy.

(** ** [allocuvm] *)

Definition zero_page (m : gmap Z Z) (p : Z) : Prop := ∀ i, 0 ≤ i < PGSIZE → m !! (p + i) = Some 0.

Lemma zero_page_changed X s s' p :
  changed X s s' → p ∉ X → (∀ x, x ∈ X → x mod PGSIZE = 0) → p mod PGSIZE = 0 →
  zero_page (k_mem s) p → zero_page (k_mem s') p.
Proof.
  intros Hc Hp HX Hpal Hz i Hi.
  rewrite (mem_read_changed X s s' p Hc Hp HX Hpal (p + i)) by (unfold on_page; lia). by apply Hz.
Qed.

(** A fresh page is filled with zeroes. *)
Lemma vm_zero s l Q pgdir T A p :
  vm s l Q pgdir T A → p ∈ Q →
  ∃ s', memset p 0 PGSIZE s = Ok p s' ∧ vm s' l Q pgdir T A ∧ changed [p] s s' ∧ zero_page (k_mem s') p.
Proof.
  intros Hvm Hp. assert (Hin : p ∈ tabs pgdir T ++ Q) by (apply elem_of_app; by right).
  destruct (ow_page _ _ _ (vm_own _ _ _ _ _ _ Hvm) p Hin) as [_ Hpm].
  assert (Hc : changed [p] s (write p (replicate 4096 0) s)).
  { apply changed_write; rewrite ?length_replicate; [lia|unfold PGSIZE; lia|exact Hpm]. }
  exists (write p (replicate 4096 0) s). split_and!; [apply (memset_eq s p 0 4096), Hpm| |exact Hc|].
  - by apply (vm_other s _ l Q pgdir T A p Hvm Hc).
  - intros i Hi. unfold write. cbn [k_mem set_k_mem]. rewrite lookup_mem_write, length_replicate.
    unfold PGSIZE in Hi. rewrite decide_True by lia. apply lookup_replicate_2. lia.
Qed.

(** A message on the console. *)
Lemma vm_cprintf s l Q pgdir T A msg :
  vm s l Q pgdir T A → LK_cons ∉ k_held s →
  ∃ s', cprintf msg [] s = Ok tt s' ∧ vm s' l Q pgdir T A ∧ changed [] s s'.
Proof.
  intros [Ho Hr] Hh. pose proof (ow_cpu _ _ _ Ho) as Hok. rewrite (cprintf_eq msg [] s Hok Hh).
  set (out := rev _ ++ _). clearbody out. eexists. split; [reflexivity|].
  assert (Hc : changed [] s (set_k_out out (lock_pair (k_locking s) s))).
  { destruct (k_locking s); cbn [lock_pair]; (split; [done|done| |done|done|by destruct s]).
    - intros _. eapply cpu_ok_same; [by apply (cpu_ok_touched s)|done..].
    - intros _. by eapply cpu_ok_same. }
  assert (Em : k_mem (set_k_out out (lock_pair (k_locking s) s)) = k_mem s) by by destruct (k_locking s).
  split; [|exact Hc]. split; [|by rewrite Em].
  apply (owned_changed s _ l _ [] Ho Hc); [by destruct (k_locking s)|].
  intros q Hq. by apply not_elem_of_nil in Hq.
Qed.

Section grow.
Context (s0 : kernel) (l0 Q : list Z) (pgdir : Z) (T0 A0 : gmap Z Z) (oldsz newsz : Z).
Context (Hvm0 : vm s0 l0 Q pgdir T0 A0) (Hcons : LK_cons ∉ k_held s0).
Context (Hold : 0 ≤ oldsz) (Hnew : newsz < KERNBASE).
Context (Hfree : ∀ x, npages oldsz ≤ x < npages newsz → A0 !! x = None).
Local Abbreviation v0 := (npages oldsz).
Local Abbreviation V := (npages newsz).

(** The pages up to [v] are there. *)
Record growing (v : Z) (s : kernel) (l : list Z) (T A : gmap Z Z) : Prop := {
  gw_vm : vm s l (frames A v0 v ++ Q) pgdir T A;
  gw_pages : l0 ++ tabs pgdir T0 ≡ₚ l ++ tabs pgdir T ++ frames A v0 v;
  gw_changed : changed (l0 ++ tabs pgdir T0) s0 s;
  gw_old x : ¬ (v0 ≤ x < v) → A !! x = A0 !! x;
  gw_new x : v0 ≤ x < v → ∃ e, A !! x = Some e ∧ PTE_FLAGS e = 7 ∧ zero_page (k_mem s) (frame e);
}.
(** The outcome when pages run out: the same mappings, perhaps with more tables. *)
Definition ungrown (s : kernel) : Prop :=
  ∃ l T, vm s l Q pgdir T A0 ∧ l0 ++ tabs pgdir T0 ≡ₚ l ++ tabs pgdir T ∧
    changed (l0 ++ tabs pgdir T0) s0 s.

Lemma npages_bounds : 0 ≤ v0 ∧ V ≤ 524288.
Proof using Hold Hnew.
  unfold npages. split; [apply Z.div_pos; unfold PGSIZE; lia|].
  apply Z.lt_succ_r, Z.div_lt_upper_bound; [done|]. unfold PGSIZE, KERNBASE in *. lia.
Qed.

(** The message and [deallocuvm]. *)
Lemma grow_abort v s l T A X msg :
  v0 ≤ v < V → oldsz < newsz → vm s l (frames A v0 v ++ X) pgdir T A → k_held s = k_held s0 →
  (∀ x, ¬ (v0 ≤ x < v) → A !! x = A0 !! x) →
  ∃ s1 r s2 l2, cprintf msg [] s = Ok tt s1 ∧ deallocuvm pgdir newsz oldsz s1 = Ok r s2 ∧
    vm s2 l2 X pgdir T A0 ∧ l2 ≡ₚ l ++ frames A v0 v ∧ changed (tabs pgdir T ++ frames A v0 v) s s2.
Proof using HKEND Hcons Hold Hnew Hfree.
  intros Hv Hlt Hvm Hh Hout.
  destruct (vm_cprintf s l _ pgdir T A msg Hvm) as (s1 & E1 & Hvm1 & Hc1); [by rewrite Hh|].
  assert (Ef : frames A v0 V = frames A v0 v).
  { rewrite (frames_app A v0 v V) by lia. rewrite (frames_skip A v V V); [|lia|].
    - by rewrite (frames_nil A V V), app_nil_r by lia.
    - intros x Hx. rewrite Hout by lia. apply Hfree. lia. }
  destruct (deallocuvm_run HKEND s1 l X pgdir T A newsz oldsz) as (s2 & E2 & Hvm2 & Hc2); [lia|lia|by rewrite Ef|].
  rewrite Ef in Hvm2, Hc2. exists s1, (i32 oldsz), s2. eexists. split_and!; [done|done| | |].
  - assert (EA : unmap A v0 V = A0); [|by rewrite EA in Hvm2].
    apply map_eq. intros x. rewrite lookup_unmap. case_decide as Hx; [by rewrite Hfree|].
    apply Hout. lia.
  - rewrite <-Permutation_rev. apply Permutation_app_comm.
  - eapply changed_trans; [eapply changed_mono; [apply list_subseteq_nil|exact Hc1]|exact Hc2].
Qed.

Definition alloc_step (a : Z) : K (Z + Z) :=
  if negb (a <? newsz) then ret (inr newsz)
  else
    let! mem := kalloc in
    if mem =? 0 then
      cprintf "allocuvm out of memory\n" [] ;;
      deallocuvm pgdir newsz oldsz ;;
      ret (inr 0)
    else
      memset mem 0 PGSIZE ;;
      let! r := mappages pgdir a PGSIZE (V2P mem) (Z.lor PTE_W PTE_U) in
      if r <? 0 then
        cprintf "allocuvm out of memory (2)\n" [] ;;
        deallocuvm pgdir newsz oldsz ;;
        kfree mem ;;
        ret (inr 0)
      else ret (inl (u32 (a + PGSIZE))).

(** A page more. *)
Lemma grow_more v s p l T A s2 s3 l3 T3 :
  growing v s (p :: l) T A → v0 ≤ v < V → changed [p] s s2 → zero_page (k_mem s2) p →
  grown s2 s3 l l3 pgdir T T3 →
  vm s3 l3 (p :: frames A v0 v ++ Q) pgdir T3 (<[v := entry (V2P p) 6]> A) →
  growing (v + 1) s3 l3 T3 (<[v := entry (V2P p) 6]> A).
Proof using Hold Hnew.
  clear HKDATA HKLINK. intros [Hvm Hp Hc Hout Hin] Hv Hc2 Hz Hg Hvm3. pose proof (vm_own _ _ _ _ _ _ Hvm3) as Ho3.
  destruct npages_bounds as [Hv0 HV]. set (e' := entry (V2P p) 6) in *.
  assert (Hp3 : p ∈ tabs pgdir T3 ++ p :: frames A v0 v ++ Q) by (apply elem_of_app; by right; left).
  pose proof (owned_aligned _ _ _ p Ho3 Hp3) as Hpal. pose proof (owned_range _ _ _ p Ho3 Hp3) as Hpr.
  assert (Ef : frame e' = p) by (apply frame_entry; [lia|done|done]).
  assert (Efl : PTE_FLAGS e' = 7) by (unfold e'; by rewrite flags_entry by (by apply V2P_aligned || done)).
  assert (Efr : frames (<[v := e']> A) v0 (v + 1) = frames A v0 v ++ [p]).
  { rewrite (frames_app _ v0 v) by lia. f_equal.
    - apply frames_same. intros x Hx. by rewrite lookup_insert_ne by lia.
    - rewrite frames_cons, lookup_insert_eq, frames_nil, Ef by lia. done. }
  assert (Hp' : l0 ++ tabs pgdir T0 ≡ₚ l3 ++ tabs pgdir T3 ++ frames A v0 v ++ [p]).
  { rewrite Hp. pose proof (gr_pages _ _ _ _ _ _ _ Hg) as Hg'. rewrite (app_assoc l3), <-Hg'.
    cbn [app]. rewrite !app_assoc. apply Permutation_cons_append. }
  pose proof (ow_nodup _ _ _ Ho3) as (_ & _ & Hnd)%NoDup_app.
  apply NoDup_app in Hnd as (_ & Hnt & [Hnp _]%NoDup_cons).
  assert (Hzero : ∀ q, q ∈ p :: frames A v0 v → zero_page (k_mem s2) q → zero_page (k_mem s3) q).
  { intros q Hq. apply (zero_page_changed (tabs pgdir T3)); [apply Hg| | |].
    - intros Ht. apply (Hnt q Ht). rewrite elem_of_cons, elem_of_app. apply elem_of_cons in Hq. tauto.
    - intros x Hx. eapply owned_aligned; [exact Ho3|]. apply elem_of_app. by left.
    - eapply owned_aligned; [exact Ho3|]. rewrite elem_of_app, elem_of_cons, elem_of_app.
      apply elem_of_cons in Hq. tauto. }
  split.
  - rewrite Efr. eapply vm_perm; [|exact Hvm3]. rewrite <-app_assoc. apply Permutation_middle.
  - by rewrite Efr.
  - eapply changed_trans; [exact Hc|]. eapply changed_trans.
    + eapply changed_mono; [|exact Hc2]. intros q ->%list_elem_of_singleton. rewrite Hp. by left.
    + eapply changed_mono; [|apply Hg]. intros q Hq. rewrite Hp', !elem_of_app. auto.
  - intros x Hx. rewrite lookup_insert_ne by lia. apply Hout. lia.
  - intros x Hx. destruct (decide (x = v)) as [->|Hne].
    { exists e'. rewrite lookup_insert_eq, Ef. split_and!; [done..|]. apply Hzero; [by left|done]. }
    rewrite lookup_insert_ne by done. destruct (Hin x) as (e & He & Hfl & Hze); [lia|].
    exists e. split_and!; [done..|]. assert (Hfe : frame e ∈ frames A v0 v) by (eapply frames_in; [|done]; lia).
    apply Hzero; [by right|]. apply (zero_page_changed [p] s); [done| | | |done].
    + intros Hx'%list_elem_of_singleton. apply Hnp. rewrite <-Hx'. apply elem_of_app. by left.
    + by intros q ->%list_elem_of_singleton.
    + eapply owned_aligned; [exact Ho3|]. rewrite elem_of_app, elem_of_cons, elem_of_app. auto.
Qed.

(** A page that could not be mapped goes back as well. *)
Lemma alloc_unmapped v s p l T A s2 s3 T3 :
  growing v s (p :: l) T A → v0 ≤ v < V → oldsz < newsz → changed [p] s s2 →
  grown s2 s3 l [] pgdir T T3 → vm s3 [] (p :: frames A v0 v ++ Q) pgdir T3 A →
  ∃ s4 r s5 s6, cprintf "allocuvm out of memory (2)\n" [] s3 = Ok tt s4 ∧
    deallocuvm pgdir newsz oldsz s4 = Ok r s5 ∧ kfree p s5 = Ok tt s6 ∧ ungrown s6 ∧
    Z.of_nat (length (l0 ++ tabs pgdir T0)) ≤ 1026 + (v - v0).
Proof using HKEND Hcons Hold Hnew Hfree.
  clear HKDATA HKLINK. intros [Hvm Hp Hc Hout Hin] Hv Hlt Hc2 Hg Hvm3.
  assert (Hpl : [p] ⊆ l0 ++ tabs pgdir T0) by (intros q ->%list_elem_of_singleton; rewrite Hp; by left).
  assert (Hp' : l0 ++ tabs pgdir T0 ≡ₚ p :: tabs pgdir T3 ++ frames A v0 v).
  { rewrite Hp. pose proof (gr_pages _ _ _ _ _ _ _ Hg) as Hg'. rewrite app_nil_l in Hg'.
    rewrite <-Hg'. cbn [app]. constructor. by rewrite app_assoc. }
  assert (Hc3 : changed (l0 ++ tabs pgdir T0) s0 s3).
  { eapply changed_trans; [exact Hc|]. eapply changed_trans; [by eapply changed_mono|].
    eapply changed_mono; [|apply Hg]. intros q Hq. rewrite Hp', elem_of_cons, elem_of_app. auto. }
  destruct (grow_abort v s3 [] T3 A (p :: Q) "allocuvm out of memory (2)\n")
    as (s4 & r & s5 & l5 & E4 & E5 & Hvm5 & Hl5 & Hc5); [done|done| |apply Hc3|done|].
  { eapply vm_perm; [|exact Hvm3]. apply Permutation_middle. }
  destruct (vm_kfree _ _ _ _ _ _ _ Hvm5) as (s6 & E6 & Hvm6 & Hc6).
  exists s4, r, s5, s6. split_and!; [done..| |].
  2:{ rewrite Hp'. cbn [length]. rewrite length_app. pose proof (tabs_length _ _ _ _ _ _ Hvm3).
      pose proof (frames_length A v0 v ltac:(lia)). lia. }
  exists (p :: l5), T3. split_and!; [done| |].
  - rewrite Hp', Hl5. cbn [app]. constructor. apply Permutation_app_comm.
  - eapply changed_trans; [exact Hc3|]. eapply changed_trans; [|by eapply changed_mono].
    eapply changed_mono; [|exact Hc5]. intros q Hq. rewrite Hp'. by right.
Qed.

Lemma alloc_one v s l T A :
  growing v s l T A → v0 ≤ v < V → oldsz < newsz →
  ∃ r s', alloc_step (v * PGSIZE) s = Ok r s' ∧
    ((r = inl ((v + 1) * PGSIZE) ∧ ∃ l' T' A', growing (v + 1) s' l' T' A') ∨
     (r = inr 0 ∧ ungrown s' ∧ Z.of_nat (length (l0 ++ tabs pgdir T0)) ≤ 1025 + (V - v0))).
Proof using HKEND Hcons Hold Hnew Hfree.
  clear HKDATA HKLINK. intros Hgw Hv Hlt. pose proof Hgw as [Hvm Hp Hc Hout Hin].
  destruct npages_bounds as [Hv0 HV].
  assert (Hsz : v * PGSIZE < newsz) by (apply page_lt; [lia|apply Hv]). unfold alloc_step.
  replace (v * PGSIZE <? newsz) with true by lia. cbn [negb].
  destruct l as [|p l].
  { destruct (vm_kalloc_none _ _ _ _ _ Hvm) as (s1 & E1 & Hvm1 & Hc1).
    pose proof (changed_trans _ s0 s s1 Hc (changed_mono _ _ _ _ (list_subseteq_nil _) Hc1)) as Hc01.
    destruct (grow_abort v s1 [] T A Q "allocuvm out of memory\n") as (s2 & r2 & s3 & l3 & E2 & E3 & Hvm3 & Hl3 & Hc3);
      [done|done|done|apply Hc01|done|].
    exists (inr 0), s3. split.
    - erewrite bind_Ok by exact E1. cbn [Z.eqb]. erewrite bind_Ok by exact E2. by erewrite bind_Ok by exact E3.
    - right. split; [done|]. split.
      2:{ rewrite Hp, app_nil_l, length_app. pose proof (tabs_length _ _ _ _ _ _ Hvm1).
          pose proof (frames_length A v0 v ltac:(lia)). lia. }
      exists l3, T. split_and!; [done| |].
      + rewrite Hp, Hl3. cbn [app]. apply Permutation_app_comm.
      + eapply changed_trans; [exact Hc01|]. eapply changed_mono; [|exact Hc3]. intros q Hq. by rewrite Hp. }
  destruct (vm_kalloc _ _ _ _ _ _ _ Hvm) as (s1 & E1 & Hvm1 & Hc1 & _).
  destruct (vm_zero s1 l _ pgdir T A p Hvm1) as (s2 & E2 & Hvm2 & Hc2 & Hz); [by left|].
  assert (Hc12 : changed [p] s s2).
  { eapply changed_trans; [eapply changed_mono; [apply list_subseteq_nil|exact Hc1]|exact Hc2]. }
  assert (Hp0 : (p =? 0) = false).
  { pose proof (owned_range _ _ _ p (vm_own _ _ _ _ _ _ Hvm1)) as Hr. rewrite elem_of_app, elem_of_cons in Hr.
    apply Z.eqb_neq. intros ->. lia. }
  destruct (map_page_run s2 l _ pgdir T A v p 6 Hvm2) as (r & s3 & l3 & T3 & E3 & Hg & Hr);
    [lia|done|rewrite Hout by lia; apply Hfree; lia|].
  destruct Hr as [[-> Hvm3]|(-> & -> & Hvm3)].
  - exists (inl ((v + 1) * PGSIZE)), s3. split.
    + erewrite bind_Ok by exact E1. rewrite Hp0. erewrite bind_Ok by exact E2.
      erewrite bind_Ok by exact E3. cbn [Z.ltb Z.compare]. unfold ret. do 2 f_equal.
      rewrite u32_small; unfold PGSIZE; lia.
    + left. split; [done|]. eexists _, _, _. by eapply (grow_more v s p l).
  - destruct (alloc_unmapped v s p l T A s2 s3 T3) as (s4 & r4 & s5 & s6 & E4 & E5 & E6 & Hu & Hlen);
      [done..|].
    exists (inr 0), s6. split; [|right; split_and!; [done|done|lia]]. erewrite bind_Ok by exact E1. rewrite Hp0.
    erewrite bind_Ok by exact E2. erewrite bind_Ok by exact E3. cbn [Z.ltb Z.compare].
    erewrite bind_Ok by exact E4. erewrite bind_Ok by exact E5. by erewrite bind_Ok by exact E6.
Qed.

Lemma alloc_loop : oldsz < newsz → ∀ fuel v s l T A,
  growing v s l T A → v0 ≤ v ≤ V → V - v < Z.of_nat fuel →
  ∃ r s', loop fuel alloc_step (v * PGSIZE) s = Ok r s' ∧
    ((r = newsz ∧ ∃ l' T' A', growing V s' l' T' A') ∨
     (r = 0 ∧ ungrown s' ∧ Z.of_nat (length (l0 ++ tabs pgdir T0)) ≤ 1025 + (V - v0))).
Proof using HKEND Hcons Hold Hnew Hfree.
  clear HKDATA HKLINK.
  intros Hlt. induction fuel as [|fuel IH]; intros v s l T A Hgw Hv Hf; [lia|].
  pose proof (page_lt v newsz ltac:(lia)) as Hpl. fold V in Hpl.
  destruct (decide (v < V)) as [HvV|HvV].
  - destruct (alloc_one v s l T A Hgw) as (r & s1 & E1 & Hr); [lia|done|].
    destruct Hr as [(-> & l1 & T1 & A1 & Hgw1)|[-> Hb]].
    + destruct (IH (v + 1) s1 l1 T1 A1 Hgw1) as (r & s' & E & Hr); [lia|lia|].
      exists r, s'. split; [by erewrite loop_next by exact E1|done].
    + exists 0, s1. split; [by apply loop_Ok|by right].
  - assert (v = V) as -> by lia. exists newsz, s. split; [|left; split; [done|by eexists _, _, _]].
    apply loop_Ok. unfold alloc_step. replace (V * PGSIZE <? newsz) with false by lia. done.
Qed.

Lemma allocuvm_run :
  oldsz < newsz →
  ∃ r s', allocuvm pgdir oldsz newsz s0 = Ok r s' ∧
    ((r = newsz ∧ ∃ l' T' A', growing V s' l' T' A') ∨
     (r = 0 ∧ ungrown s' ∧ Z.of_nat (length (l0 ++ tabs pgdir T0)) ≤ 1025 + (V - v0))).
Proof using HKEND Hvm0 Hcons Hold Hnew Hfree.
  clear HKDATA HKLINK. intros Hlt. unfold allocuvm. replace (KERNBASE <=? newsz) with false by lia.
  replace (newsz <? oldsz) with false by lia.
  rewrite PGROUNDUP_eq by (unfold KERNBASE, PGSIZE in *; lia). fold (npages oldsz).
  destruct npages_bounds as [Hv0 HV].
  assert (Hle : v0 ≤ V) by (unfold npages; apply Z.div_le_mono; [done|lia]).
  assert (HVf : V ≤ newsz / PGSIZE + 1).
  { unfold npages. rewrite <-(Z.div_add newsz 1 PGSIZE) by done. apply Z.div_le_mono; [done|lia]. }
  pose proof (Z.div_pos newsz PGSIZE ltac:(lia) ltac:(done)).
  apply (alloc_loop Hlt (S (S (Z.to_nat (newsz / PGSIZE)))) v0 s0 l0 T0 A0); [|lia|lia].
  split.
  - by rewrite frames_nil by lia.
  - by rewrite frames_nil, app_nil_r by lia.
  - apply changed_refl.
  - done.
  - intros x Hx. lia.
Qed.
End grow.
End env.
