(* ===== verification/SpaceThm.v ===== *)
(** * SpaceThm: what the virtual memory system promises (vm.c)

    A user address space of [sz] bytes ([space]) owns a directory, tables and frames
    that nobody else has.  [mmu] is the translation of the hardware.  The theorems
    state what [copyuvm], [allocuvm], [deallocuvm] and [freevm] do to address spaces
    in these terms. *)

From stdpp Require Import base numbers gmap strings option list.
From S2P Require Import Prelude Format Machine Boot Mem ProcCore Kalloc Vm VmThm UvmThm CopyThm.
Local Open Scope kernel_scope.
Local Open Scope Z_scope.

(** The byte at [va] and the rights to it: [PTE_U] when user code may read it, [PTE_W] when
    it may be written.  Both levels of the table must grant a right. *)
Definition rights (e : Z) : Z := Z.land e (Z.lor PTE_W PTE_U).
Definition mmu (m : gmap Z Z) (pgdir va : Z) : option (Z * Z) :=
  pde ← word m (pgdir + 4 * PDX va);
  if negb (has pde PTE_P) then None
  else
    pte ← word m (P2V (PTE_ADDR pde) + 4 * PTX va);
    if negb (has pte PTE_P) then None
    else
      b ← m !! (P2V (PTE_ADDR pte) + va mod PGSIZE);
      Some (b, Z.land (rights pde) (rights pte)).

Lemma rights_flags e e' : PTE_FLAGS e = PTE_FLAGS e' → rights e = rights e'.
Proof.
  intros E. unfold rights. change (Z.lor PTE_W PTE_U) with (Z.land 0xFFF 6).
  rewrite !Z.land_assoc. unfold PTE_FLAGS in E. by rewrite E.
Qed.
Lemma rights_pde tab e : Z.land (rights (pde_of tab)) (rights e) = rights e.
Proof.
  replace (rights (pde_of tab)) with (Z.lor PTE_W PTE_U).
  - unfold rights. rewrite (Z.land_comm e), Z.land_assoc. by rewrite Z.land_diag.
  - unfold rights, pde_of. rewrite <-!Z.lor_assoc, Z.land_comm.
    apply Z.bits_inj'. intros n Hn. rewrite Z.land_spec, !Z.lor_spec.
    destruct (Z.testbit PTE_W n), (Z.testbit PTE_U n); by rewrite ?orb_true_r.
Qed.

Section env.
Context `{Env}.

(** The symbols of the linker: the kernel's text and data are in the direct map,
    and [data] starts a page. *)
Definition linked : Prop :=
  KERNBASE < KEND ∧ KDATA mod PGSIZE = 0 ∧ KERNLINK < KDATA < P2V PHYSTOP.

(** A user address space, with the free list [l] and other pages [Q] around it. *)
Record space (s : kernel) (l Q : list Z) (pgdir sz : Z) (T A : gmap Z Z) : Prop := {
  sp_vm : vm s l (frames A 0 (npages sz) ++ Q) pgdir T A;
  sp_sz : 0 ≤ sz ≤ KERNBASE;
  sp_all x : 0 ≤ x < npages sz → is_Some (A !! x);
  sp_none x : npages sz ≤ x < KERNBASE / PGSIZE → A !! x = None;
  sp_kern x : KERNBASE / PGSIZE ≤ x → A !! x = kernel_map !! x;
  sp_bytes f x b : f ∈ frames A 0 (npages sz) → on_page f x → k_mem s !! x = Some b → 0 ≤ b < 256;
}.

(** The pages of a space do not depend on the rest of the kernel. *)
Lemma owned_same s s' l P :
  owned s l P → k_mem s' = k_mem s → k_freelist s' = k_freelist s → k_held s' = k_held s → cpu_ok s' →
  owned s' l P.
Proof.
  intros [Ho1 Ho2 Ho3 Ho4 Ho5] Em Ef Eh Hok. split; [|by rewrite Em|done|done|by rewrite Eh].
  by eapply kmem_inv_same.
Qed.
Lemma vm_same s s' l Q pgdir T A :
  vm s l Q pgdir T A → k_mem s' = k_mem s → k_freelist s' = k_freelist s → k_held s' = k_held s →
  cpu_ok s' → vm s' l Q pgdir T A.
Proof. intros [Ho Hr] Em Ef Eh Hok. split; [by apply (owned_same s)|by rewrite Em]. Qed.
Lemma space_same s s' l Q pgdir sz T A :
  space s l Q pgdir sz T A → k_mem s' = k_mem s → k_freelist s' = k_freelist s → k_held s' = k_held s →
  cpu_ok s' → space s' l Q pgdir sz T A.
Proof.
  intros [H1 H2 H3 H4 H5 H6] Em Ef Eh Hok. split; [by apply (vm_same s)|done|done|done|done|].
  by rewrite Em.
Qed.
(** The same when the locks differ. *)
Lemma space_view s s' l Q pgdir sz T A :
  space s l Q pgdir sz T A → k_mem s' = k_mem s → k_freelist s' = k_freelist s → LK_kmem ∉ k_held s' →
  cpu_ok s' → space s' l Q pgdir sz T A.
Proof.
  intros [[[Ho1 Ho2 Ho3 Ho4 Ho5] Hr] H2 H3 H4 H5 H6] Em Ef Eh Hok.
  split; [|done|done|done|done|by rewrite Em]. split; [|by rewrite Em].
  split; [by eapply kmem_inv_same|by rewrite Em|done|done|done].
Qed.

Lemma changed_ptable P s s' : changed P s s' → k_ptable s' = k_ptable s.
Proof. intros Hc. by rewrite (ch_rest _ _ _ Hc). Qed.

Lemma mmu_rep s l Q pgdir T A va :
  vm s l Q pgdir T A → 0 ≤ va < 2 ^ 32 →
  mmu (k_mem s) pgdir va =
    e ← A !! (va / PGSIZE); b ← k_mem s !! (frame e + va mod PGSIZE); Some (b, rights e).
Proof.
  intros Hvm Hva. unfold mmu. destruct (vpn_index va Hva) as (Hd & Hi & Ev).
  rewrite PDX_eq, PTX_eq by done.
  destruct (pt_dir _ _ _ _ (vm_rep _ _ _ _ _ _ Hvm) _ Hd) as (e & He & Hm). rewrite He. cbn [mbind option_bind].
  destruct (T !! _) as [tab|] eqn:Et.
  - rewrite Hm, pde_of_present. cbn [negb]. rewrite (tab_of_pde _ _ _ _ _ _ Hvm _ _ Et).
    destruct (walk_entry _ _ _ _ _ _ Hvm va tab Hva Et) as (Hptr & _ & e' & He' & _ & HA).
    rewrite <-Hptr, He', HA. cbn [mbind option_bind]. rewrite rights_pde. by destruct (has e' PTE_P).
  - rewrite Hm. pose proof (pt_none _ _ _ _ (vm_rep _ _ _ _ _ _ Hvm) _ _ Et Hi) as HA.
    rewrite Ev in HA. by rewrite HA.
Qed.

Lemma npages_range sz va : 0 ≤ va < sz → 0 ≤ va / PGSIZE < npages sz.
Proof.
  intros Hva. split; [apply Z.div_pos; [lia|done]|]. apply page_lt; [lia|].
  pose proof (Z.mul_div_le va PGSIZE ltac:(done)). lia.
Qed.

Lemma npages_kern sz : 0 ≤ sz ≤ KERNBASE → 0 ≤ npages sz ≤ KERNBASE / PGSIZE.
Proof.
  intros Hsz. unfold npages. split; [apply Z.div_pos; unfold PGSIZE; lia|].
  change (KERNBASE / PGSIZE) with ((KERNBASE + PGSIZE - 1) / PGSIZE). apply Z.div_le_mono; [done|lia].
Qed.

(** Frames of the space are on pages of their own. *)
Lemma space_frame s l Q pgdir sz T A x e :
  space s l Q pgdir sz T A → 0 ≤ x < npages sz → A !! x = Some e →
  frame e ∈ frames A 0 (npages sz) ∧ (frame e ∉ l) ∧ (frame e ∉ tabs pgdir T) ∧ frame e mod PGSIZE = 0.
Proof.
  intros Hsp Hx He. pose proof (frames_in A 0 (npages sz) x e Hx He) as Hin.
  pose proof (vm_own _ _ _ _ _ _ (sp_vm _ _ _ _ _ _ _ Hsp)) as Ho.
  pose proof (ow_nodup _ _ _ Ho) as (_ & Hl & Hnd)%NoDup_app. apply NoDup_app in Hnd as (_ & Ht & _).
  assert (HinQ : frame e ∈ frames A 0 (npages sz) ++ Q) by (apply elem_of_app; by left).
  split_and!; [done| | |].
  - intros Hf. apply (Hl _ Hf). apply elem_of_app. by right.
  - intros Hf. by apply (Ht _ Hf).
  - eapply owned_aligned; [exact Ho|]. apply elem_of_app. by right.
Qed.

(** The program sees the same byte when its frame does not change. *)
Lemma mmu_kept X s s' l l' Q Q' pgdir T A T' A' va :
  vm s l Q pgdir T A → vm s' l' Q' pgdir T' A' → changed X s s' →
  (∀ x, x ∈ X → x mod PGSIZE = 0) → 0 ≤ va < 2 ^ 32 → A' !! (va / PGSIZE) = A !! (va / PGSIZE) →
  (∀ e, A !! (va / PGSIZE) = Some e → (frame e ∉ X) ∧ frame e mod PGSIZE = 0) →
  mmu (k_mem s') pgdir va = mmu (k_mem s) pgdir va.
Proof.
  intros Hvm Hvm' Hc HX Hva HA Hf. rewrite (mmu_rep s' l' Q' pgdir T' A' va Hvm') by done.
  rewrite (mmu_rep s l Q pgdir T A va Hvm) by done. rewrite HA.
  destruct (A !! (va / PGSIZE)) as [e|] eqn:He; [|done]. cbn [mbind option_bind].
  destruct (Hf e eq_refl) as [HfX Hal]. rewrite (mem_read_changed X s s' (frame e) Hc HfX HX Hal); [done|].
  unfold on_page. pose proof (Z.mod_pos_bound va PGSIZE ltac:(done)). lia.
Qed.
Lemma mmu_changed X s s' l l' Q Q' pgdir sz T A T' A' va :
  space s l Q pgdir sz T A → vm s' l' Q' pgdir T' A' → changed X s s' →
  (∀ x, x ∈ X → x mod PGSIZE = 0) → (∀ f, f ∈ frames A 0 (npages sz) → f ∉ X) →
  0 ≤ va < sz → A' !! (va / PGSIZE) = A !! (va / PGSIZE) →
  mmu (k_mem s') pgdir va = mmu (k_mem s) pgdir va.
Proof.
  intros Hsp Hvm' Hc HX HF Hva HA. pose proof (sp_sz _ _ _ _ _ _ _ Hsp) as Hsz. unfold KERNBASE in Hsz.
  eapply (mmu_kept X); [exact (sp_vm _ _ _ _ _ _ _ Hsp)|exact Hvm'|done|done|lia|done|]. intros e He.
  destruct (space_frame _ _ _ _ _ _ _ _ _ Hsp (npages_range sz va Hva) He) as (Hin & _ & _ & Hal).
  split; [by apply HF|done].
Qed.

Lemma bytes_changed X s s' (F : list Z) :
  changed X s s' → (∀ x, x ∈ X → x mod PGSIZE = 0) →
  (∀ f, f ∈ F → (f ∉ X) ∧ f mod PGSIZE = 0) →
  (∀ f x b, f ∈ F → on_page f x → k_mem s !! x = Some b → 0 ≤ b < 256) →
  ∀ f x b, f ∈ F → on_page f x → k_mem s' !! x = Some b → 0 ≤ b < 256.
Proof.
  intros Hc HX HF Hb f x b Hf Hx Hxb. destruct (HF f Hf) as [HfX Hal]. apply (Hb f x b Hf Hx).
  by rewrite <-(mem_read_changed X s s' f Hc HfX HX Hal x Hx).
Qed.

(** The frames of a space are none of the free pages, and aligned. *)
Lemma space_frames s l Q pgdir sz T A f :
  space s l Q pgdir sz T A → f ∈ frames A 0 (npages sz) →
  (f ∉ l) ∧ (f ∉ l ++ tabs pgdir T) ∧ f mod PGSIZE = 0.
Proof.
  intros Hsp Hf. unfold frames in Hf. apply list_elem_of_omap in Hf as (x & Hx & He).
  apply elem_of_seqZ in Hx. apply fmap_Some in He as (e & He & ->).
  destruct (space_frame _ _ _ _ _ _ _ x e Hsp) as (_ & H1 & H2 & H3); [lia|done|].
  rewrite elem_of_app. tauto.
Qed.
Lemma space_free s l Q pgdir sz T A x : space s l Q pgdir sz T A → x ∈ l → x mod PGSIZE = 0.
Proof. intros Hsp. eapply free_aligned. apply (vm_own _ _ _ _ _ _ (sp_vm _ _ _ _ _ _ _ Hsp)). Qed.

(** Other pages change hands: the space stays. *)
Lemma space_kept X s s' l l' Q Q' pgdir sz T A :
  space s l Q pgdir sz T A → changed X s s' → (∀ x, x ∈ X → x ∈ l) →
  vm s' l' (frames A 0 (npages sz) ++ Q') pgdir T A → space s' l' Q' pgdir sz T A.
Proof.
  intros Hsp Hc HX Hvm. pose proof Hsp as [_ H1 H2 H3 H4 H5]. split; [done|done|done|done|done|].
  apply (bytes_changed X s s'); [done| | |done].
  - intros x Hx. eapply space_free; [done|by apply HX].
  - intros f Hf. destruct (space_frames _ _ _ _ _ _ _ f Hsp Hf) as (? & _ & ?). split; [|done].
    intros Hfx. by apply HX in Hfx.
Qed.

Lemma given_back_space s l Q pgdir sz T A s' :
  space s l Q pgdir sz T A → given_back s l Q pgdir T A (npages sz) s' →
  ∃ l', space s' l' Q pgdir sz T A ∧ l' ≡ₚ l ∧
    ∀ va, 0 ≤ va < sz → mmu (k_mem s') pgdir va = mmu (k_mem s) pgdir va.
Proof.
  intros Hsp (l' & Ho & Hl & Hc). exists l'.
  assert (Hvm : vm s' l' (frames A 0 (npages sz) ++ Q) pgdir T A).
  { split; [exact Ho|]. apply (pt_rep_changed l s s'); [done| | |apply (sp_vm _ _ _ _ _ _ _ Hsp)].
    - intros p Hp. pose proof (vm_own _ _ _ _ _ _ (sp_vm _ _ _ _ _ _ _ Hsp)) as Ho0.
      pose proof (ow_nodup _ _ _ Ho0) as (_ & Hd & _)%NoDup_app.
      assert (Hin : p ∈ tabs pgdir T ++ frames A 0 (npages sz) ++ Q) by (apply elem_of_app; by left).
      split; [intros Hpl; by apply (Hd p Hpl)|by eapply owned_aligned].
    - intros p Hp. exact (space_free _ _ _ _ _ _ _ _ Hsp Hp). }
  split_and!; [by apply (space_kept l s s' l l' Q)|done|]. intros va Hva.
  eapply (mmu_changed l); [exact Hsp|exact Hvm|done| | |done|done].
  - intros x Hx. exact (space_free _ _ _ _ _ _ _ _ Hsp Hx).
  - intros f Hf. by destruct (space_frames _ _ _ _ _ _ _ f Hsp Hf).
Qed.

(** The finished copy is a space, and shows the parent's bytes. *)
Lemma copying_space s l Q pgdir sz T A s' l' d Tc Ac :
  space s l Q pgdir sz T A → copying s l Q pgdir T A (npages sz) (npages sz) s' l' d Tc Ac →
  space s' l' (tabs pgdir T ++ frames A 0 (npages sz) ++ Q) d sz Tc Ac ∧
  space s' l' (Q ++ tabs d Tc ++ frames Ac 0 (npages sz)) pgdir sz T A ∧
  ∀ va, 0 ≤ va < sz → mmu (k_mem s') d va = mmu (k_mem s) pgdir va ∧
    mmu (k_mem s') pgdir va = mmu (k_mem s) pgdir va.
Proof.
  intros Hsp [Htk Hcopy Hkern]. pose proof Hsp as [Hvm0 Hsz Hall Hnone _ Hbytes].
  pose proof (parent_vm _ _ _ _ _ _ _ Hvm0 _ _ _ _ _ _ Htk) as Hpar.
  pose proof (tk_changed _ _ _ _ _ _ _ _ _ _ _ _ _ Htk) as Hc.
  pose proof (tk_vm _ _ _ _ _ _ _ _ _ _ _ _ _ Htk) as Hchild.
  assert (Hsp' : space s' l' (Q ++ tabs d Tc ++ frames Ac 0 (npages sz)) pgdir sz T A)
    by (apply (space_kept l s s' l l' Q _ pgdir sz T A Hsp Hc); [done|exact Hpar]).
  assert (Hmmu : ∀ va, 0 ≤ va < sz → mmu (k_mem s') pgdir va = mmu (k_mem s) pgdir va).
  { intros va Hva. eapply (mmu_changed l); [exact Hsp|exact Hpar|done| | |done|done].
    - intros x Hx. exact (space_free _ _ _ _ _ _ _ _ Hsp Hx).
    - intros f Hf. by destruct (space_frames _ _ _ _ _ _ _ f Hsp Hf). }
  split_and!; [|done|].
  - split; [exact Hchild|done| |apply Htk|done|].
    + intros x Hx. destruct (Hcopy x Hx) as (e & e' & _ & He' & _). by eexists.
    + intros f x b Hf Hx Hb. unfold frames in Hf. apply list_elem_of_omap in Hf as (v & Hv & He').
      apply elem_of_seqZ in Hv. apply fmap_Some in He' as (e' & He' & ->).
      destruct (Hcopy v) as (e & e'' & He & He'' & _ & Hsame); [lia|].
      assert (e'' = e') as -> by congruence.
      apply (sp_bytes _ _ _ _ _ _ _ Hsp' (frame e) (frame e + (x - frame e')));
        [apply (frames_in A 0 _ v); [lia|done]|unfold on_page in *; lia|].
      rewrite <-Hsame by (unfold on_page in Hx; lia). by replace (frame e' + (x - frame e')) with x by lia.
  - intros va Hva. split; [|by apply Hmmu]. rewrite <-Hmmu by done. unfold KERNBASE in Hsz.
    rewrite (mmu_rep _ _ _ _ _ _ va Hchild), (mmu_rep _ _ _ _ _ _ va Hpar) by lia.
    destruct (Hcopy (va / PGSIZE)) as (e & e' & He & He' & Hfl & Hsame); [by apply npages_range|].
    rewrite He, He'. cbn [mbind option_bind]. rewrite Hsame by by apply Z.mod_pos_bound.
    by rewrite (rights_flags _ _ Hfl).
Qed.

(** A page leaves the free list for [Q]. *)
Lemma space_take s s' k l Q pgdir sz T A :
  space s (k :: l) Q pgdir sz T A → changed [k] s s' →
  owned s' l (k :: tabs pgdir T ++ frames A 0 (npages sz) ++ Q) →
  space s' l (k :: Q) pgdir sz T A ∧
  ∀ va, 0 ≤ va < sz → mmu (k_mem s') pgdir va = mmu (k_mem s) pgdir va.
Proof.
  intros Hsp Hc Ho. pose proof (vm_own _ _ _ _ _ _ (sp_vm _ _ _ _ _ _ _ Hsp)) as Ho0.
  assert (Hk : ∀ x, x ∈ [k] → x ∈ k :: l) by (intros x ->%list_elem_of_singleton; by left).
  assert (Hkal : ∀ x, x ∈ [k] → x mod PGSIZE = 0) by (intros x Hx; exact (space_free _ _ _ _ _ _ _ _ Hsp (Hk x Hx))).
  assert (Hvm : vm s' l (frames A 0 (npages sz) ++ k :: Q) pgdir T A).
  { split.
    - eapply owned_perm; [|exact Ho]. rewrite !(app_assoc (tabs pgdir T)). apply Permutation_middle.
    - apply (pt_rep_changed [k] s s'); [done| |done|exact (vm_rep _ _ _ _ _ _ (sp_vm _ _ _ _ _ _ _ Hsp))].
      intros q Hq. split.
      + intros ->%list_elem_of_singleton. pose proof (ow_nodup _ _ _ Ho0) as [Hn _]%NoDup_cons.
        apply Hn. rewrite !elem_of_app. auto.
      + eapply owned_aligned; [exact Ho0|]. rewrite !elem_of_app. auto. }
  split; [by apply (space_kept [k] s s' (k :: l) l Q)|]. intros va Hva.
  eapply (mmu_changed [k]); [exact Hsp|exact Hvm|done|done| |done|done].
  intros f Hf Hfk. apply list_elem_of_singleton in Hfk as ->.
  destruct (space_frames _ _ _ _ _ _ _ k Hsp Hf) as [Hn _]. apply Hn. by left.
Qed.


(** C13.  copyuvm returns a new address space with the same bytes and the same rights at every
    address of the parent: frames and tables of its own, taken from the free list, so that the two
    spaces share no page; the parent sees what it saw.  It returns 0 only when pages
    run out, and then gives every page back and leaves the parent as it was. *)
Theorem copyuvm_copies s l Q pgdir sz T A :
  linked → space s l Q pgdir sz T A →
  ∃ d s', copyuvm pgdir sz s = Ok d s' ∧
    ((d ≠ 0 ∧ ∃ l' Td Ad,
        space s' l' (tabs pgdir T ++ frames A 0 (npages sz) ++ Q) d sz Td Ad ∧
        space s' l' (Q ++ tabs d Td ++ frames Ad 0 (npages sz)) pgdir sz T A ∧
        l ≡ₚ l' ++ tabs d Td ++ frames Ad 0 (npages sz) ∧
        ∀ va, 0 ≤ va < sz → mmu (k_mem s') d va = mmu (k_mem s) pgdir va ∧
          mmu (k_mem s') pgdir va = mmu (k_mem s) pgdir va) ∨
     (d = 0 ∧ Z.of_nat (length l) ≤ 1025 + npages sz ∧
      ∃ l', space s' l' Q pgdir sz T A ∧ l' ≡ₚ l ∧
        ∀ va, 0 ≤ va < sz → mmu (k_mem s') pgdir va = mmu (k_mem s) pgdir va)).
Proof.
  intros (HKEND & HKDATA & HKLINK) Hsp. pose proof Hsp as [Hvm Hsz Hall Hnone _ Hbytes].
  pose proof (npages_kern sz Hsz) as HV.
  destruct (copyuvm_run HKEND HKDATA HKLINK s l Q pgdir T A (npages sz) Hvm HV Hall Hbytes sz eq_refl)
    as (d & s' & E & Hr); [lia|].
  exists d, s'. split; [done|]. destruct Hr as [(Hd & l' & Td & Ad & Hcp)|(-> & Hb & Hlen)].
  - left. split; [done|]. exists l', Td, Ad.
    destruct (copying_space _ _ _ _ _ _ _ _ _ _ _ _ Hsp Hcp) as (H1 & H2 & H3).
    split_and!; [done|done| |done]. apply Hcp.
  - right. split_and!; [done|done|]. by apply given_back_space.
Qed.

(** The grown space. *)
Lemma growing_space s l Q pgdir oldsz newsz T A s' l' T' A' :
  space s l Q pgdir oldsz T A → oldsz < newsz < KERNBASE →
  growing s l (frames A 0 (npages oldsz) ++ Q) pgdir T A oldsz (npages newsz) s' l' T' A' →
  space s' l' Q pgdir newsz T' A'.
Proof.
  intros Hsp Hnew [Hvm _ Hc Hout Hin]. pose proof Hsp as [Hvm0 Hsz Hall Hnone Hkern Hbytes].
  pose proof (npages_kern oldsz Hsz) as Hv0. pose proof (npages_kern newsz ltac:(lia)) as HV.
  assert (Hle : npages oldsz ≤ npages newsz) by (unfold npages; apply Z.div_le_mono; [done|lia]).
  assert (Ef : frames A' 0 (npages oldsz) = frames A 0 (npages oldsz)).
  { apply frames_same. intros x Hx. apply Hout. lia. }
  assert (Ef' : frames A' 0 (npages newsz) = frames A 0 (npages oldsz) ++ frames A' (npages oldsz) (npages newsz)).
  { rewrite <-Ef. apply frames_app; lia. }
  split.
  - rewrite Ef'. eapply vm_perm; [|exact Hvm]. rewrite <-app_assoc, !(app_assoc (frames _ _ _)).
    apply Permutation_app_tail, Permutation_app_comm.
  - lia.
  - intros x Hx. destruct (decide (x < npages oldsz)).
    + rewrite Hout by lia. apply Hall. lia.
    + destruct (Hin x) as (e & He & _); [lia|]. by eexists.
  - intros x Hx. rewrite Hout by lia. apply Hnone. lia.
  - intros x Hx. rewrite Hout by lia. by apply Hkern.
  - rewrite Ef'. intros f x b [Hf|Hf]%elem_of_app.
    + revert f x b Hf. apply (bytes_changed (l ++ tabs pgdir T) s s' (frames A 0 (npages oldsz)) Hc); [| |done].
      * intros x [Hx|Hx]%elem_of_app; [exact (space_free _ _ _ _ _ _ _ _ Hsp Hx)|].
        eapply owned_aligned; [apply (vm_own _ _ _ _ _ _ Hvm0)|]. apply elem_of_app. by left.
      * intros f Hf. by destruct (space_frames _ _ _ _ _ _ _ f Hsp Hf) as (_ & ? & ?).
    + intros Hx Hb. unfold frames in Hf. apply list_elem_of_omap in Hf as (v & Hv & He).
      apply elem_of_seqZ in Hv. apply fmap_Some in He as (e & He & ->).
      destruct (Hin v) as (e' & He' & _ & Hz); [lia|]. assert (e' = e) as -> by congruence.
      specialize (Hz (x - frame e)). replace (frame e + (x - frame e)) with x in Hz by lia.
      rewrite Hz in Hb by (unfold on_page in Hx; lia). injection Hb as <-. lia.
Qed.


(** deallocuvm shrinks an address space: the pages above the new size are no longer
    mapped and their frames are on the free list; the bytes below are untouched. *)
Theorem deallocuvm_shrinks s l Q pgdir oldsz newsz T A :
  linked → space s l Q pgdir oldsz T A → 0 ≤ newsz < oldsz → oldsz < KERNBASE →
  ∃ s' l' A', deallocuvm pgdir oldsz newsz s = Ok newsz s' ∧ space s' l' Q pgdir newsz T A' ∧
    l' ≡ₚ l ++ frames A (npages newsz) (npages oldsz) ∧
    (∀ va, 0 ≤ va < newsz → mmu (k_mem s') pgdir va = mmu (k_mem s) pgdir va) ∧
    (∀ va, PGROUNDUP newsz ≤ va < KERNBASE → mmu (k_mem s') pgdir va = None).
Proof.
  intros (HKEND & _ & _) Hsp Hnew Hold. pose proof Hsp as [Hvm Hsz Hall Hnone Hkern Hbytes].
  pose proof (npages_kern newsz ltac:(lia)) as Hv. pose proof (npages_kern oldsz ltac:(lia)) as HV.
  assert (Hle : npages newsz ≤ npages oldsz) by (unfold npages; apply Z.div_le_mono; [done|lia]).
  set (F := frames A (npages newsz) (npages oldsz)).
  assert (Ef : frames A 0 (npages oldsz) = frames A 0 (npages newsz) ++ F) by (apply frames_app; lia).
  assert (Hvm0 : vm s l (F ++ frames A 0 (npages newsz) ++ Q) pgdir T A).
  { eapply vm_perm; [|exact Hvm]. rewrite Ef, !(app_assoc _ _ Q). apply Permutation_app_tail, Permutation_app_comm. }
  destruct (deallocuvm_run HKEND s l _ pgdir T A oldsz newsz Hnew ltac:(lia) Hvm0) as (s' & E & Hvm' & Hc).
  fold F in Hvm', Hc. pose proof (vm_own _ _ _ _ _ _ Hvm0) as Ho.
  assert (HX : ∀ x, x ∈ tabs pgdir T ++ F → x mod PGSIZE = 0).
  { intros x Hx. eapply owned_aligned; [exact Ho|]. rewrite elem_of_app in Hx. rewrite !elem_of_app. tauto. }
  pose proof (ow_nodup _ _ _ Ho) as (_ & _ & Hnd)%NoDup_app. rewrite app_assoc in Hnd.
  apply NoDup_app in Hnd as (_ & Hd & _).
  assert (HF : ∀ f, f ∈ frames A 0 (npages newsz) → (f ∉ tabs pgdir T ++ F) ∧ f mod PGSIZE = 0).
  { intros f Hf. split; [intros Hx; apply (Hd f Hx); apply elem_of_app; by left|].
    eapply owned_aligned; [exact Ho|]. rewrite !elem_of_app. auto. }
  assert (Ef' : frames (unmap A (npages newsz) (npages oldsz)) 0 (npages newsz) = frames A 0 (npages newsz)).
  { apply frames_same. intros x Hx. by rewrite lookup_unmap, decide_False by lia. }
  assert (Hsame : ∀ x, x < npages newsz ∨ npages oldsz ≤ x →
    unmap A (npages newsz) (npages oldsz) !! x = A !! x).
  { intros x Hx. by rewrite lookup_unmap, decide_False by lia. }
  assert (Hgone : ∀ x, npages newsz ≤ x < KERNBASE / PGSIZE →
    unmap A (npages newsz) (npages oldsz) !! x = None).
  { intros x Hx. rewrite lookup_unmap. case_decide; [done|]. apply Hnone. lia. }
  exists s', (rev F ++ l), (unmap A (npages newsz) (npages oldsz)). split_and!.
  - rewrite E. f_equal. apply i32_small. unfold KERNBASE in *. lia.
  - split; rewrite ?Ef'; [done|lia| |done| |].
    + intros x Hx. rewrite Hsame by lia. apply Hall. lia.
    + intros x Hx. rewrite Hsame by lia. by apply Hkern.
    + apply (bytes_changed (tabs pgdir T ++ F) s s'); [done..|]. intros f x b Hf. apply (Hbytes f x b).
      rewrite Ef. apply elem_of_app. by left.
  - rewrite <-Permutation_rev. apply Permutation_app_comm.
  - intros va Hva. pose proof (npages_range newsz va Hva).
    eapply (mmu_kept (tabs pgdir T ++ F)); [exact Hvm0|exact Hvm'|done|done|unfold KERNBASE in *; lia| |].
    + apply Hsame. lia.
    + intros e He. apply HF. by apply (frames_in A 0 _ (va / PGSIZE)).
  - intros va Hva. rewrite PGROUNDUP_eq in Hva by (unfold KERNBASE, PGSIZE in *; lia).
    fold (npages newsz) in Hva.
    rewrite (mmu_rep _ _ _ _ _ _ va Hvm') by (unfold KERNBASE, PGSIZE in *; lia). rewrite Hgone; [done|].
    split; [apply Z.div_le_lower_bound; [done|lia]|]. apply Z.div_lt_upper_bound; [done|].
    change (PGSIZE * (KERNBASE / PGSIZE)) with KERNBASE. lia.
Qed.

(** C24.  freevm returns every page of an address space, frames, tables and directory, to the
    free list, each once, and touches no other page. *)
Theorem freevm_frees s l Q pgdir sz T A :
  linked → space s l Q pgdir sz T A →
  ∃ s' l', freevm pgdir s = Ok tt s' ∧ owned s' l' Q ∧
    l' ≡ₚ l ++ tabs pgdir T ++ frames A 0 (npages sz) ∧
    changed (tabs pgdir T ++ frames A 0 (npages sz)) s s'.
Proof.
  intros (HKEND & _ & _) Hsp. pose proof Hsp as [Hvm Hsz Hall Hnone _ _].
  pose proof (npages_kern sz Hsz) as HV.
  assert (Ef : frames A 0 (KERNBASE / PGSIZE) = frames A 0 (npages sz)) by (apply frames_trunc; [lia|lia|done]).
  destruct (freevm_run HKEND s l Q pgdir T A) as (s' & l' & E & Ho & Hl & Hc); [by rewrite Ef|].
  rewrite Ef in Hl, Hc. by exists s', l'.
Qed.
End env.

(** ** A concrete machine

    57344 pages less the first 4 MB, all free, on which [setupkvm] and [allocuvm] build a
    space of 5000 bytes. *)
Definition ram : gmap Z Z := gset_to_gmap 0 (list_to_set (seqZ 0x80400000 0xdc00000)).
Lemma lookup_ram x : 0x80400000 ≤ x < 0x8e000000 → ram !! x = Some 0.
Proof.
  intros Hx. unfold ram. apply lookup_gset_to_gmap_Some. split; [|done].
  apply elem_of_list_to_set, elem_of_seqZ. lia.
Qed.
Opaque ram.
Definition machine : kernel := set_k_mem ram zero_kernel.

Lemma pages_in p vend x :
  x ∈ pages p vend → p mod PGSIZE = 0 → p ≤ x ∧ x + PGSIZE ≤ vend ∧ x mod PGSIZE = 0.
Proof.
  intros Hx Hp. unfold pages in Hx.
  apply list_elem_of_fmap in Hx as (i & -> & Hi). apply elem_of_seqZ in Hi.
  pose proof (Z.mul_div_le (vend - p) PGSIZE ltac:(done)).
  split_and!; [unfold PGSIZE in *; lia|unfold PGSIZE in *; lia|].
  rewrite Z.mul_comm, Z.mod_add by done. done.
Qed.
Lemma rev_pages_length p vend :
  p ≤ vend → Z.of_nat (length (rev (pages p vend))) = (vend - p) / PGSIZE.
Proof.
  intros Hp. unfold pages. rewrite length_rev, length_fmap, length_seqZ.
  rewrite Z2Nat.id; [done|]. apply Z.div_pos; [lia|done].
Qed.

Section sample.
Local Instance sample : Env := sample_env MLFQ.

Lemma machine_free :
  ∃ s l, freerange 0x80400000 0x8e000000 machine = Ok tt s ∧ owned s l [] ∧ k_held s = [] ∧
    Z.of_nat (length l) = 56320.
Proof.
  destruct (freerange_eq machine [] 0x80400000 0x8e000000) as (s & E & Hok & Hh & Hi).
  - split; [done|done|constructor].
  - apply not_elem_of_nil.
  - split; [done|constructor|]. intros a Ha. by apply not_elem_of_nil in Ha.
  - lia.
  - done.
  - lia.
  - intros a Ha. destruct (pages_in (PGROUNDUP 0x80400000) 0x8e000000 a Ha) as (Hr & He & Hal); [reflexivity|].
    change (PGROUNDUP 0x80400000) with 0x80400000 in Hr. unfold PGSIZE in He.
    split_and!; [|intros x Hx|apply not_elem_of_nil].
    + split_and!; [lia|lia|done|cbn; lia|]. unfold V2P, PHYSTOP. rewrite u32_small; unfold KERNBASE; lia.
    + unfold PGSIZE in Hx. exists 0. apply lookup_ram. lia.
  - rewrite app_nil_r in Hi. pose proof (rev_pages_length (PGROUNDUP 0x80400000) 0x8e000000) as Hlen.
    revert Hi Hlen. generalize (rev (pages (PGROUNDUP 0x80400000) 0x8e000000)). intros l Hi Hlen.
    exists s, l. split_and!; [exact E| |exact Hh|rewrite Hlen; [reflexivity|discriminate]].
    split; [exact Hi| |rewrite app_nil_r; apply (km_nodup _ _ Hi)|exact Hok|].
    + intros p Hp. destruct (not_elem_of_nil p Hp).
    + rewrite Hh. apply not_elem_of_nil.
Qed.

(** The space that the claims are applied to. *)
Lemma machine_space :
  ∃ s l d T A, linked ∧ space s l [] d 5000 T A ∧ k_held s = [] ∧ 50000 ≤ Z.of_nat (length l).
Proof.
  destruct machine_free as (s1 & l1 & _ & Ho1 & Hh1 & Hlen1).
  assert (Hl : linked) by (split_and!; done). pose proof Hl as (HKEND & HKDATA & HKLINK).
  destruct (setupkvm_run HKEND HKDATA HKLINK s1 l1 [] Ho1) as (d & s2 & l2 & _ & Hr).
  destruct Hr as [(Hd & T2 & Hvm2 & Hl2 & Hc2)|(_ & _ & _ & _ & Hle)]; [|lia].
  assert (Hsp : space s2 l2 [] d 0 T2 kernel_map).
  { split; [exact Hvm2|split; discriminate| | |intros x _; reflexivity|].
    - intros x Hx. change (npages 0) with 0 in Hx. lia.
    - intros x Hx. apply kernel_map_only; [done|done|lia].
    - intros f x b Hf. destruct (not_elem_of_nil f Hf). }
  pose proof (sp_vm _ _ _ _ _ _ _ Hsp) as Hvm.
  pose proof (tabs_length _ _ _ _ _ _ Hvm) as Ht. rewrite Hl2, length_app in Hlen1.
  assert (Hh2 : LK_cons ∉ k_held s2) by (rewrite (ch_held _ _ _ Hc2), Hh1; apply not_elem_of_nil).
  destruct (allocuvm_run HKEND s2 l2 _ d T2 kernel_map 0 5000 Hvm Hh2) as (r & s3 & _ & Hr); [lia|done| |lia|].
  { intros x Hx. apply (sp_none _ _ _ _ _ _ _ Hsp). change (npages 5000) with 2 in Hx.
    change (KERNBASE / PGSIZE) with 524288. change (npages 0) with 0 in *. lia. }
  change (npages 5000) with 2 in Hr. change (npages 0) with 0 in Hr.
  destruct Hr as [(_ & l3 & T3 & A3 & Hgw)|(_ & _ & Hle)]; [|rewrite length_app in Hle; lia].
  exists s3, l3, d, T3, A3. split_and!; [done|by eapply growing_space| |].
  - by rewrite (ch_held _ _ _ (gw_changed _ _ _ _ _ _ _ _ _ _ _ _ Hgw)), (ch_held _ _ _ Hc2).
  - pose proof (gw_pages _ _ _ _ _ _ _ _ _ _ _ _ Hgw) as Hp. apply Permutation_length in Hp.
    rewrite !length_app in Hp. change (npages 0) with 0 in Hp.
    pose proof (tabs_length _ _ _ _ _ _ (gw_vm _ _ _ _ _ _ _ _ _ _ _ _ Hgw)).
    pose proof (frames_length A3 0 2). lia.
Qed.

(** The same with a page for the kernel stack. *)
Lemma machine_stack :
  ∃ s l k d T A, linked ∧ space s l [k] d 5000 T A ∧ k_held s = [].
Proof.
  destruct machine_space as (s & l & d & T & A & Hl & Hsp & Hh & Hlen).
  destruct l as [|k l]; [cbn in Hlen; lia|].
  destruct (owned_kalloc s k l _ (vm_own _ _ _ _ _ _ (sp_vm _ _ _ _ _ _ _ Hsp)))
    as (s1 & _ & Ho1 & Hc1 & _).
  assert (Hc : changed [k] s s1) by (eapply changed_mono; [apply list_subseteq_nil|exact Hc1]).
  exists s1, l, k, d, T, A. split_and!; [done| |by rewrite (ch_held _ _ _ Hc1)].
  exact (proj1 (space_take s s1 k l [] d 5000 T A Hsp Hc Ho1)).
Qed.

Lemma copyuvm_copies_witness :
  ∃ s l d T A d' s', space s l [] d 5000 T A ∧ copyuvm d 5000 s = Ok d' s' ∧ d' ≠ 0 ∧
    mmu (k_mem s') d' 4999 = mmu (k_mem s) d 4999.
Proof.
  destruct machine_space as (s & l & d & T & A & Hl & Hsp & _ & Hlen).
  destruct (copyuvm_copies s l [] d 5000 T A Hl Hsp) as (d' & s' & E & Hr).
  exists s, l, d, T, A, d', s'. destruct Hr as [(Hd & l' & Td & Ad & _ & _ & _ & Hm)|(_ & Hle & _)].
  - split_and!; [exact Hsp|exact E|exact Hd|]. apply Hm. lia.
  - exfalso. change (npages 5000) with 2 in Hle. lia.
Defined.


Lemma deallocuvm_shrinks_witness :
  ∃ s l d T A s', space s l [] d 5000 T A ∧ deallocuvm d 5000 100 s = Ok 100 s' ∧
    mmu (k_mem s') d 4999 = None.
Proof.
  destruct machine_space as (s & l & d & T & A & Hl & Hsp & Hh & Hlen).
  destruct (deallocuvm_shrinks s l [] d 5000 100 T A Hl Hsp) as (s' & l' & A' & E & _ & _ & _ & Hn);
    [lia|reflexivity|].
  exists s, l, d, T, A, s'. split_and!; [exact Hsp|exact E|]. apply Hn. split; [discriminate|reflexivity].
Defined.

Lemma freevm_frees_witness :
  ∃ s l d T A s' l', space s l [] d 5000 T A ∧ freevm d s = Ok tt s' ∧
    l' ≡ₚ l ++ tabs d T ++ frames A 0 2.
Proof.
  destruct machine_space as (s & l & d & T & A & Hl & Hsp & Hh & Hlen).
  destruct (freevm_frees s l [] d 5000 T A Hl Hsp) as (s' & l' & E & _ & Hp & _).
  exists s, l, d, T, A, s', l'. split_and!; [exact Hsp|exact E|exact Hp].
Defined.
End sample.
