(* ===== verification/Sleeplock.v ===== *)
(** * Sleeplock: the long-term locks of sleeplock.c *)

From stdpp Require Import base numbers gmap strings option list.
From S2P Require Import Prelude Format Machine Mlfq ProcCore.
Local Open Scope kernel_scope.

(** The lock fields of buffers and inodes. *)
Definition get_sl (l : slid) : K sleeplock := λ s,
  match l with
  | SL_buf b => match k_bcache s !! b with
                | Some r => Ok (b_lock r) s
                | None => Undef "buffer pointer"
                end
  | SL_inode i => match k_icache s !! i with
                  | Some r => Ok (i_lock r) s
                  | None => Undef "inode pointer"
                  end
  end.
Definition upd_sl (l : slid) (f : sleeplock → sleeplock) : K unit := λ s,
  match l with
  | SL_buf b => match k_bcache s !! b with
                | Some r => Ok tt (set_k_bcache (<[b := set_b_lock (f (b_lock r)) r]> (k_bcache s)) s)
                | None => Undef "buffer pointer"
                end
  | SL_inode i => match k_icache s !! i with
                  | Some r => Ok tt (set_k_icache (<[i := set_i_lock (f (i_lock r)) r]> (k_icache s)) s)
                  | None => Undef "inode pointer"
                  end
  end.

Definition initsleeplock (l : slid) : K unit :=
  upd_sl l (set_sl_locked false) ;;
  upd_sl l (set_sl_pid 0%Z).

(** [myproc()->pid] *)
Definition mypid : K Z :=
  let! op := myproc in
  let! p := deref op in
  let! pp := proc_at p in
  ret (p_pid pp).

Section env.
Context `{Env}.

Definition acquiresleep (l : slid) : K unit :=
  acquire (LK_sleep l) ;;
  loop FUEL (λ _ : unit,
    let! lk := get_sl l in
    if sl_locked lk then
      sleep (CH_sleep l) (Some (LK_sleep l)) ;;
      ret (inl tt)
    else ret (inr tt)) tt ;;
  upd_sl l (set_sl_locked true) ;;
  let! pid := mypid in
  upd_sl l (set_sl_pid pid) ;;
  release (LK_sleep l).

Definition releasesleep (l : slid) : K unit :=
  acquire (LK_sleep l) ;;
  upd_sl l (set_sl_locked false) ;;
  upd_sl l (set_sl_pid 0%Z) ;;
  wakeup (CH_sleep l) ;;
  release (LK_sleep l).

Definition holdingsleep (l : slid) : K bool :=
  acquire (LK_sleep l) ;;
  let! lk := get_sl l in
  let! r := (if sl_locked lk then
               let! pid := mypid in ret (sl_pid lk =? pid)%Z
             else ret false) in
  release (LK_sleep l) ;;
  ret r.
End env.
