(* ===== verification/Apic.v ===== *)
(** * Apic: device registers and the interrupt controllers (lapic.c, ioapic.c, picirq.c)

    Device accesses go through [port_in] and [mmio_in] and are recorded in [k_io], so
    that what a device answers may depend on everything it was told.  The clock
    that lapic.c reads through the CMOS ports is here too, and the search with which
    [mycpu] of proc.c finds the processor it runs on. *)

From stdpp Require Import base numbers gmap strings option list.
From S2P Require Import Prelude Format Machine Mem Mlfq ProcCore.
Local Open Scope kernel_scope.
Local Open Scope Z_scope.

(** ** traps.h *)

Abbreviation T_SYSCALL := (64)%Z (only parsing).
Abbreviation T_IRQ0 := (32)%Z (only parsing).
Abbreviation IRQ_TIMER := (0)%Z (only parsing).
Abbreviation IRQ_KBD := (1)%Z (only parsing).
Abbreviation IRQ_COM1 := (4)%Z (only parsing).
Abbreviation IRQ_IDE := (14)%Z (only parsing).
Abbreviation IRQ_ERROR := (19)%Z (only parsing).
Abbreviation IRQ_SPURIOUS := (31)%Z (only parsing).

Definition upd_hw (f : hw → hw) : K unit := modify (λ s, set_k_hw (f (k_hw s)) s).

(** [struct rtcdate] of date.h. *)
Record rtcdate := mk_rtcdate {
  rt_second : Z;
  rt_minute : Z;
  rt_hour : Z;
  rt_day : Z;
  rt_month : Z;
  rt_year : Z
}.
#[global] Instance rtcdate_eq_dec : EqDecision rtcdate.
Proof. solve_decision. Defined.

(** ** Registers of the local APIC, as indices of [lapic], and their bits *)

Abbreviation ID := (0x0020 / 4)%Z (only parsing).
Abbreviation VER := (0x0030 / 4)%Z (only parsing).
Abbreviation TPR := (0x0080 / 4)%Z (only parsing).
Abbreviation EOI := (0x00B0 / 4)%Z (only parsing).
Abbreviation SVR := (0x00F0 / 4)%Z (only parsing).
Abbreviation ENABLE := (0x00000100)%Z (only parsing).
Abbreviation ESR := (0x0280 / 4)%Z (only parsing).
Abbreviation ICRLO := (0x0300 / 4)%Z (only parsing).
Abbreviation INIT := (0x00000500)%Z (only parsing).
Abbreviation STARTUP := (0x00000600)%Z (only parsing).
Abbreviation DELIVS := (0x00001000)%Z (only parsing).
Abbreviation ASSERT := (0x00004000)%Z (only parsing).
Abbreviation LEVEL := (0x00008000)%Z (only parsing).
Abbreviation BCAST := (0x00080000)%Z (only parsing).
Abbreviation ICRHI := (0x0310 / 4)%Z (only parsing).
Abbreviation TIMER := (0x0320 / 4)%Z (only parsing).
Abbreviation X1 := (0x0000000B)%Z (only parsing).
Abbreviation PERIODIC := (0x00020000)%Z (only parsing).
Abbreviation PCINT := (0x0340 / 4)%Z (only parsing).
Abbreviation LINT0 := (0x0350 / 4)%Z (only parsing).
Abbreviation LINT1 := (0x0360 / 4)%Z (only parsing).
Abbreviation ERROR := (0x0370 / 4)%Z (only parsing).
Abbreviation MASKED := (0x00010000)%Z (only parsing).
Abbreviation TICR := (0x0380 / 4)%Z (only parsing).
Abbreviation TDCR := (0x03E0 / 4)%Z (only parsing).

(** ** The clock behind the CMOS ports *)

Abbreviation CMOS_PORT := (0x70)%Z (only parsing).
Abbreviation CMOS_RETURN := (0x71)%Z (only parsing).
Abbreviation CMOS_STATA := (0x0a)%Z (only parsing).
Abbreviation CMOS_STATB := (0x0b)%Z (only parsing).
Abbreviation CMOS_UIP := (Z.shiftl 1 7)%Z (only parsing).
Abbreviation SECS := (0x00)%Z (only parsing).
Abbreviation MINS := (0x02)%Z (only parsing).
Abbreviation HOURS := (0x04)%Z (only parsing).
Abbreviation DAY := (0x07)%Z (only parsing).
Abbreviation MONTH := (0x08)%Z (only parsing).
Abbreviation YEAR := (0x09)%Z (only parsing).

(** ** The I/O APIC and the two 8259A controllers *)

Abbreviation IOAPIC := (0xFEC00000)%Z (only parsing).
Abbreviation REG_ID := (0x00)%Z (only parsing).
Abbreviation REG_VER := (0x01)%Z (only parsing).
Abbreviation REG_TABLE := (0x10)%Z (only parsing).
Abbreviation INT_DISABLED := (0x00010000)%Z (only parsing).
Abbreviation IO_PIC1 := (0x20)%Z (only parsing).
Abbreviation IO_PIC2 := (0xA0)%Z (only parsing).

Section env.
Context `{Env}.

(** ** Accesses to devices *)

Definition inb (port : Z) : K Z :=
  let! io := gets k_io in
  let v := u8 (port_in port io) in
  modify (set_k_io (IoIn port v :: io)) ;;
  ret v.
Definition outb (port v : Z) : K unit :=
  modify (λ s, set_k_io (IoOut port (u8 v) :: k_io s) s).
(** [cnt] words of 32 bits, of the bytes that the device has ready.  A transfer of more words
    than there are is undefined. *)
Definition insl (port cnt : Z) : K (list Z) :=
  let! io := gets k_io in
  let v := port_insl port io in
  if Z.of_nat (length v) <? 4 * cnt then undef "rep: no more words"
  else
    let v := take (Z.to_nat (4 * cnt)) v in
    modify (set_k_io (IoInsl port v :: io)) ;;
    ret v.
(** [cnt] words of 32 bits of the array [data]. *)
Definition outsl (port : Z) (data : list Z) (cnt : Z) : K unit :=
  if Z.of_nat (length data) <? 4 * cnt then undef "rep: no more words"
  else modify (λ s, set_k_io (IoOutsl port (take (Z.to_nat (4 * cnt)) data) :: k_io s) s).

(** A read and a write of a memory-mapped 32-bit register. *)
Definition mmio_read (addr : Z) : K Z :=
  let! io := gets k_io in
  let v := u32 (mmio_in addr io) in
  modify (set_k_io (IoLoad addr v :: io)) ;;
  ret v.
Definition mmio_write (addr v : Z) : K unit :=
  modify (λ s, set_k_io (IoStore addr (u32 v) :: k_io s) s).

(** ** lapic.c *)

(** [lapic[index]], read and written; [lapic] is not NULL where it is used. *)
Definition lapic_reg (index : Z) : K Z :=
  let! h := gets k_hw in
  if h_lapic h =? 0 then undef "NULL dereference" else ret (h_lapic h + 4 * index).
Definition lapicr (index : Z) : K Z :=
  let! a := lapic_reg index in
  mmio_read a.

Definition lapicw (index value : Z) : K unit :=
  let! a := lapic_reg index in
  mmio_write a value ;;
  lapicr ID ;;
  ret tt.

Definition lapicinit : K unit :=
  let! h := gets k_hw in
  if h_lapic h =? 0 then ret tt
  else
    lapicw SVR (Z.lor ENABLE (T_IRQ0 + IRQ_SPURIOUS)) ;;
    lapicw TDCR X1 ;;
    lapicw TIMER (Z.lor PERIODIC (T_IRQ0 + IRQ_TIMER)) ;;
    lapicw TICR 10000000 ;;
    lapicw LINT0 MASKED ;;
    lapicw LINT1 MASKED ;;
    let! v := lapicr VER in
    when (4 <=? Z.land (Z.shiftr v 16) 0xFF) (lapicw PCINT MASKED) ;;
    lapicw ERROR (T_IRQ0 + IRQ_ERROR) ;;
    lapicw ESR 0 ;;
    lapicw ESR 0 ;;
    lapicw EOI 0 ;;
    lapicw ICRHI 0 ;;
    lapicw ICRLO (Z.lor (Z.lor BCAST INIT) LEVEL) ;;
    loop FUEL (λ _ : unit,
      let! v := lapicr ICRLO in
      ret (if negb (Z.land v DELIVS =? 0) then inl tt else inr tt)) tt ;;
    lapicw TPR 0.

Definition lapicid : K Z :=
  let! h := gets k_hw in
  if h_lapic h =? 0 then ret 0
  else
    let! v := lapicr ID in
    ret (Z.shiftr v 24).

Definition lapiceoi : K unit :=
  let! h := gets k_hw in
  when (negb (h_lapic h =? 0)) (lapicw EOI 0).

(** The function is empty in the source. *)
Definition microdelay (us : Z) : K unit := ret tt.

(** [*( ushort* )a = v] *)
Definition store16 (a v : Z) : K unit :=
  store8 a v ;;
  store8 (a + 1) (Z.shiftr v 8).

Definition lapicstartap (apicid addr : Z) : K unit :=
  outb CMOS_PORT 0xF ;;
  outb (CMOS_PORT + 1) 0x0A ;;
  let wrv := P2V (Z.lor (Z.shiftl 0x40 4) 0x67) in
  store16 wrv 0 ;;
  store16 (wrv + 2) (u16 (Z.shiftr addr 4)) ;;
  lapicw ICRHI (Z.shiftl apicid 24) ;;
  lapicw ICRLO (Z.lor (Z.lor INIT LEVEL) ASSERT) ;;
  microdelay 200 ;;
  lapicw ICRLO (Z.lor INIT LEVEL) ;;
  microdelay 100 ;;
  for_each (seqZ 0 2) (λ _,
    lapicw ICRHI (Z.shiftl apicid 24) ;;
    lapicw ICRLO (Z.lor STARTUP (Z.shiftr addr 12)) ;;
    microdelay 200).

(** The clock. *)

Definition cmos_read (reg : Z) : K Z :=
  outb CMOS_PORT reg ;;
  microdelay 200 ;;
  inb CMOS_RETURN.

Definition fill_rtcdate : K rtcdate :=
  let! second := cmos_read SECS in
  let! minute := cmos_read MINS in
  let! hour := cmos_read HOURS in
  let! day := cmos_read DAY in
  let! month := cmos_read MONTH in
  let! year := cmos_read YEAR in
  ret (mk_rtcdate second minute hour day month year).

(** [CONV(x)]: two decimal digits, four bits each. *)
Definition CONV (x : Z) : Z := u32 (Z.shiftr x 4 * 10 + Z.land x 0xf).

Definition cmostime : K rtcdate :=
  let! sb := cmos_read CMOS_STATB in
  let bcd := Z.land sb (Z.shiftl 1 2) =? 0 in
  let! t1 := loop FUEL (λ _ : unit,
    let! t1 := fill_rtcdate in
    let! sa := cmos_read CMOS_STATA in
    if negb (Z.land sa CMOS_UIP =? 0) then ret (inl tt)
    else
      let! t2 := fill_rtcdate in
      ret (if bool_decide (t1 = t2) then inr t1 else inl tt)) tt in
  let t1 :=
    if bcd then
      mk_rtcdate (CONV (rt_second t1)) (CONV (rt_minute t1)) (CONV (rt_hour t1))
        (CONV (rt_day t1)) (CONV (rt_month t1)) (CONV (rt_year t1))
    else t1 in
  ret (mk_rtcdate (rt_second t1) (rt_minute t1) (rt_hour t1) (rt_day t1) (rt_month t1)
         (u32 (rt_year t1 + 2000))).

(** ** ioapic.c *)

(** [ioapic->reg] is the first word of [struct ioapic], [ioapic->data] the fifth. *)
Definition ioapicread (reg : Z) : K Z :=
  let! h := gets k_hw in
  mmio_write (h_ioapic h) reg ;;
  mmio_read (h_ioapic h + 16).

Definition ioapicwrite (reg data : Z) : K unit :=
  let! h := gets k_hw in
  mmio_write (h_ioapic h) reg ;;
  mmio_write (h_ioapic h + 16) data.

Definition ioapicinit : K unit :=
  upd_hw (set_h_ioapic IOAPIC) ;;
  let! v := ioapicread REG_VER in
  let maxintr := Z.land (Z.shiftr v 16) 0xFF in
  let! v := ioapicread REG_ID in
  let id := Z.shiftr v 24 in
  let! h := gets k_hw in
  when (negb (id =? h_ioapicid h))
    (cprintf "ioapicinit: id isn't equal to ioapicid; not a MP\n" []) ;;
  for_each (seqZ 0 (maxintr + 1)) (λ i,
    ioapicwrite (REG_TABLE + 2 * i) (Z.lor INT_DISABLED (T_IRQ0 + i)) ;;
    ioapicwrite (REG_TABLE + 2 * i + 1) 0).

Definition ioapicenable (irq cpunum : Z) : K unit :=
  ioapicwrite (REG_TABLE + 2 * irq) (T_IRQ0 + irq) ;;
  ioapicwrite (REG_TABLE + 2 * irq + 1) (Z.shiftl cpunum 24).

(** ** picirq.c *)

Definition picinit : K unit :=
  outb (IO_PIC1 + 1) 0xFF ;;
  outb (IO_PIC2 + 1) 0xFF.

(** ** The search of [mycpu] (proc.c)

    [mycpu] of [Machine] is the processor whose state is [k_cpu]; this is how the
    code finds its index in [cpus]. *)
Definition mycpu_search : K Z :=
  let! i := readeflags_if in
  if i then panic "mycpu called with interrupts enabled\n"
  else
    let! apicid := lapicid in
    let! h := gets k_hw in
    let! r := for_find (seqZ 0 (h_ncpu h)) (λ i,
      let! c := arr_get (h_cpus h) i in
      ret (if a_apicid c =? apicid then Some i else None)) in
    match r with
    | Some i => ret i
    | None => panic "unknown apicid\n"
    end.

(** ** Accesses, as updates of the trace *)

Lemma inb_eq port s :
  inb port s = Ok (u8 (port_in port (k_io s)))
    (set_k_io (IoIn port (u8 (port_in port (k_io s))) :: k_io s) s).
Proof. done. Qed.
Lemma outb_eq port v s : outb port v s = Ok tt (set_k_io (IoOut port (u8 v) :: k_io s) s).
Proof. done. Qed.
Lemma mmio_read_eq a s :
  mmio_read a s = Ok (u32 (mmio_in a (k_io s)))
    (set_k_io (IoLoad a (u32 (mmio_in a (k_io s))) :: k_io s) s).
Proof. done. Qed.
Lemma mmio_write_eq a v s : mmio_write a v s = Ok tt (set_k_io (IoStore a (u32 v) :: k_io s) s).
Proof. done. Qed.
End env.
