(* ===== verification/Mp.v ===== *)
(** * Mp: the multiprocessor tables of the BIOS (mp.c, mp.h)

    [mpinit] searches low memory for the MP floating pointer structure, follows it to
    the configuration table and walks its entries.  A pointer into the tables is a
    kernel address in [k_mem], 0 for NULL.  The second half proves that the walk
    decodes every table that the MP specification allows. *)

From stdpp Require Import base numbers gmap strings option list.
From S2P Require Import Prelude Format Machine Boot Mem Mlfq ProcCore Apic.
Local Open Scope kernel_scope.
Local Open Scope Z_scope.

Definition MPPROC : Z := 0x00.
Definition MPBUS : Z := 0x01.
Definition MPIOAPIC : Z := 0x02.
Definition MPIOINTR : Z := 0x03.
Definition MPLINTR : Z := 0x04.

(** The sizes of [struct mp], [struct mpconf], [struct mpproc], [struct mpioapic]. *)
Definition sizeof_mp : Z := 16.
Definition sizeof_mpconf : Z := 44.
Definition sizeof_mpproc : Z := 20.
Definition sizeof_mpioapic : Z := 8.

(** Their fields. *)
Definition mp_physaddr (mp : Z) : K Z := load32 (mp + 4).
Definition mp_imcrp (mp : Z) : K Z := load8 (mp + 12).
Definition conf_length (conf : Z) : K Z :=
  let! lo := load8 (conf + 4) in
  let! hi := load8 (conf + 5) in
  ret (lo + 2 ^ 8 * hi).
Definition conf_version (conf : Z) : K Z := load8 (conf + 6).
Definition conf_lapicaddr (conf : Z) : K Z := load32 (conf + 36).
Definition proc_apicid (p : Z) : K Z := load8 (p + 1).
Definition ioapic_apicno (p : Z) : K Z := load8 (p + 1).

Definition sum (addr len : Z) : K Z :=
  loop (S (Z.to_nat len)) (λ '(i, sum),
    if i <? len then
      let! b := load8 (addr + i) in
      ret (inl (i + 1, i32 (sum + b)))
    else ret (inr (u8 sum))) (0, 0).

(** [memcmp(p, lit, n)] for a string literal of [n] bytes. *)
Definition memcmp_lit (p : Z) (lit : list Z) : K Z :=
  let! r := for_find (imap (λ i b, (Z.of_nat i, b)) lit) (λ '(i, b2),
    let! b1 := load8 (p + i) in
    ret (if negb (b1 =? b2) then Some (b1 - b2) else None)) in
  ret (default 0 r).
(** "_MP_" and "PCMP" *)
Definition MP_SIG : list Z := [95; 77; 80; 95].
Definition CONF_SIG : list Z := [80; 67; 77; 80].

Definition mpsearch1 (a len : Z) : K Z :=
  let addr := P2V a in
  let e := addr + len in
  loop (S (Z.to_nat (len / sizeof_mp))) (λ p,
    if p <? e then
      let! c := memcmp_lit p MP_SIG in
      if c =? 0 then
        let! sm := sum p sizeof_mp in
        ret (if sm =? 0 then inr p else inl (p + sizeof_mp))
      else ret (inl (p + sizeof_mp))
    else ret (inr 0)) addr.

Definition mpsearch : K Z :=
  let bda := P2V 0x400 in
  let! b0F := load8 (bda + 0x0F) in
  let! b0E := load8 (bda + 0x0E) in
  let p := Z.shiftl (Z.lor (Z.shiftl b0F 8) b0E) 4 in
  let! mp :=
    if negb (p =? 0) then mpsearch1 p 1024
    else
      let! b14 := load8 (bda + 0x14) in
      let! b13 := load8 (bda + 0x13) in
      let p := Z.lor (Z.shiftl b14 8) b13 * 1024 in
      mpsearch1 (u32 (p - 1024)) 1024 in
  if negb (mp =? 0) then ret mp
  else mpsearch1 0xF0000 0x10000.

(** The pair of the result and of what is stored at [pmp]; [None] is the result 0. *)
Definition mpconfig : K (option (Z * Z)) :=
  let! mp := mpsearch in
  if mp =? 0 then ret None
  else
    let! pa := mp_physaddr mp in
    if pa =? 0 then ret None
    else
      let conf := P2V pa in
      let! c := memcmp_lit conf CONF_SIG in
      if negb (c =? 0) then ret None
      else
        let! version := conf_version conf in
        if negb (version =? 1) && negb (version =? 4) then ret None
        else
          let! len := conf_length conf in
          let! sm := sum conf len in
          ret (if negb (sm =? 0) then None else Some (conf, mp)).

Section env.
Context `{Env}.

(** One iteration of the loop over the entries: the new [p] and [ismp]. *)
Definition mp_entry (p : Z) (ismp : bool) : K (Z * bool) :=
  let! t := load8 p in
  if t =? MPPROC then
    let! h := gets k_hw in
    when (h_ncpu h <? Z.of_nat NCPU) (
      let! apicid := proc_apicid p in
      upd_hw (λ h, set_h_ncpu (h_ncpu h + 1)
        (set_h_cpus (alter (λ c, mk_acpu apicid (a_started c)) (Z.to_nat (h_ncpu h)) (h_cpus h)) h))) ;;
    ret (p + sizeof_mpproc, ismp)
  else if t =? MPIOAPIC then
    let! apicno := ioapic_apicno p in
    upd_hw (set_h_ioapicid apicno) ;;
    ret (p + sizeof_mpioapic, ismp)
  else if (t =? MPBUS) || (t =? MPIOINTR) || (t =? MPLINTR) then ret (p + 8, ismp)
  else ret (p, false).

Definition mpinit : K unit :=
  let! r := mpconfig in
  match r with
  | None => panic "Expect to run on an SMP"
  | Some (conf, mp) =>
      let! lapicaddr := conf_lapicaddr conf in
      upd_hw (set_h_lapic lapicaddr) ;;
      let! len := conf_length conf in
      let e := conf + len in
      let! ismp := loop FUEL (λ '(p, ismp),
        if p <? e then
          let! r := mp_entry p ismp in
          ret (inl r)
        else ret (inr ismp)) (conf + sizeof_mpconf, true) in
      if negb ismp then panic "Didn't find a suitable machine"
      else
        let! imcrp := mp_imcrp mp in
        when (negb (imcrp =? 0)) (
          outb 0x22 0x70 ;;
          let! v := inb 0x23 in
          outb 0x23 (Z.lor v 1))
  end.
End env.

(** ** Tables

    The entries of a table, with the bytes that the kernel does not look at. *)
Inductive mpentry :=
| EProc (apicid : Z) (rest : list Z)
| EIoapic (apicno : Z) (rest : list Z)
| EOther (type : Z) (rest : list Z).

Definition entry_ok (e : mpentry) : Prop :=
  match e with
  | EProc _ rest => length rest = 18%nat
  | EIoapic _ rest => length rest = 6%nat
  | EOther t rest => t ∈ [MPBUS; MPIOINTR; MPLINTR] ∧ length rest = 7%nat
  end.
Definition encode_entry (e : mpentry) : list Z :=
  match e with
  | EProc id rest => MPPROC :: id :: rest
  | EIoapic no rest => MPIOAPIC :: no :: rest
  | EOther t rest => t :: rest
  end.
Definition entry_apicids (e : mpentry) : list Z :=
  match e with EProc id _ => [id] | _ => [] end.

(** What one entry tells the kernel. *)
Definition entry_effect (h : hw) (e : mpentry) : hw :=
  match e with
  | EProc id _ =>
      if h_ncpu h <? Z.of_nat NCPU then
        set_h_ncpu (h_ncpu h + 1)
          (set_h_cpus (alter (λ c, mk_acpu id (a_started c)) (Z.to_nat (h_ncpu h)) (h_cpus h)) h)
      else h
  | EIoapic no _ => set_h_ioapicid no h
  | EOther _ _ => h
  end.

(** *** Checksums and signatures *)

Definition total (l : list Z) : Z := foldr Z.add 0 l.
Definition is_byte (b : Z) : Prop := 0 ≤ b < 256.

Lemma total_app l l' : total (l ++ l') = total l + total l'.
Proof. unfold total. induction l as [|b l IH]; simpl; [done|]. rewrite IH. lia. Qed.

Lemma total_bound l : Forall is_byte l → 0 ≤ total l ≤ 255 * Z.of_nat (length l).
Proof. unfold is_byte, total. induction 1; cbn [foldr length]; lia. Qed.

Lemma sum_eq s a l :
  has_bytes (k_mem s) a l → Forall is_byte l → Z.of_nat (length l) < 2 ^ 16 →
  sum a (Z.of_nat (length l)) s = Ok (u8 (total l)) s.
Proof.
  intros Hl Hb Hn. unfold sum. rewrite Nat2Z.id.
  assert (G : ∀ n i, (i + n = length l)%nat →
    loop (S n) (λ '(i, sum),
      if i <? Z.of_nat (length l) then
        let! b := load8 (a + i) in
        ret (inl (i + 1, i32 (sum + b)))
      else ret (inr (u8 sum))) (Z.of_nat i, total (take i l)) s = Ok (u8 (total l)) s).
  { induction n as [|n IH]; intros i Hi.
    - apply loop_Ok. cbv beta iota. rewrite (proj2 (Z.ltb_ge _ _)) by lia.
      by rewrite take_ge by lia.
    - destruct (lookup_lt_is_Some_2 l i) as [b E]; [lia|].
      erewrite loop_next.
      2:{ cbv beta iota. rewrite (proj2 (Z.ltb_lt _ _)) by lia.
          erewrite bind_Ok by by eapply has_bytes_load. reflexivity. }
      pose proof (total_bound (take (S i) l) ltac:(by apply Forall_take)) as Hr.
      rewrite (take_S_r l i b E), total_app, length_app, length_take in Hr. cbn [total foldr length] in Hr.
      rewrite i32_small by lia.
      replace (Z.of_nat i + 1) with (Z.of_nat (S i)) by lia.
      replace (total (take i l) + b) with (total (take (S i) l))
        by (rewrite (take_S_r l i b E), total_app; cbn [total foldr]; lia).
      apply IH. lia. }
  exact (G (length l) 0%nat ltac:(lia)).
Qed.

(** [memcmp_lit] is 0 exactly when the bytes are those of the literal. *)
Lemma memcmp_lit_eq s a l lit :
  has_bytes (k_mem s) a l → length l = length lit →
  ∃ v, memcmp_lit a lit s = Ok v s ∧ (v = 0 ↔ l = lit).
Proof.
  intros Hl Hlen. unfold memcmp_lit.
  set (body := λ '(i, b2), let! b1 := load8 (a + i) in
    ret (if negb (b1 =? b2) then Some (b1 - b2) else None)).
  assert (G : ∀ lit k, length lit = length (drop k l) →
    ∃ r, for_find (imap (λ i b, (Z.of_nat (k + i), b)) lit) body s = Ok r s ∧
      (default 0 r = 0 ↔ drop k l = lit)).
  { clear lit Hlen. induction lit as [|b2 lit IH]; intros k Hk.
    - exists None. split; [done|]. destruct (drop k l); [done|discriminate].
    - destruct (drop k l) as [|b1 l'] eqn:E; [discriminate|].
      assert (Hb : l !! k = Some b1).
      { rewrite <-(Nat.add_0_r k), <-lookup_drop, E. done. }
      destruct (IH (S k)) as (r & Er & Hr).
      { rewrite length_drop in *. apply (f_equal length) in E. rewrite length_drop in E.
        simpl in *. lia. }
      assert (El : drop (S k) l = l').
      { replace (S k) with (k + 1)%nat by lia. by rewrite <-drop_drop, E. }
      rewrite El in Hr. cbn [imap]. rewrite Nat.add_0_r.
      assert (Ebody : body (Z.of_nat k, b2) s = Ok (if negb (b1 =? b2) then Some (b1 - b2) else None) s).
      { unfold body. by erewrite bind_Ok by by eapply has_bytes_load. }
      destruct (Z.eqb_spec b1 b2) as [->|Hne]; cbn [negb] in Ebody.
      + exists r. rewrite (for_find_next _ _ _ _ _ Ebody). split.
        * rewrite <-Er. f_equal. apply imap_ext. intros i x _. simpl. do 2 f_equal. lia.
        * rewrite Hr. split; congruence.
      + exists (Some (b1 - b2)). rewrite (for_find_stop _ _ _ _ _ _ Ebody). split; [done|].
        simpl. split; intros; [lia|congruence]. }
  destruct (G lit 0%nat ltac:(by rewrite drop_0)) as (r & Er & Hr).
  exists (default 0 r). split; [|done]. erewrite bind_Ok; [done|exact Er].
Qed.

(** *** The search *)

(** A structure of 16 bytes that [mpsearch1] accepts. *)
Definition mp_valid (c : list Z) : bool :=
  bool_decide (take 4 c = MP_SIG) && (u8 (total c) =? 0).
Definition chunk_ok (c : list Z) : Prop := length c = 16%nat ∧ Forall is_byte c.
Definition find_mp (cs : list (list Z)) : option nat := fst <$> list_find mp_valid cs.

Lemma mpsearch1_eq s a cs :
  has_bytes (k_mem s) (P2V a) (concat cs) → Forall chunk_ok cs →
  mpsearch1 a (16 * Z.of_nat (length cs)) s =
    Ok (match find_mp cs with Some k => P2V a + 16 * Z.of_nat k | None => 0 end) s.
Proof.
  intros Hm Hc. unfold mpsearch1.
  change sizeof_mp with 16. rewrite (Z.mul_comm 16), Z.div_mul, Nat2Z.id by lia.
  set (e := P2V a + _). unfold find_mp.
  assert (He : e = P2V a + 16 * Z.of_nat (length cs)) by (subst e; lia). clearbody e.
  revert Hm Hc He. generalize (P2V a). induction cs as [|c cs IH]; intros p Hm Hc He.
  { apply loop_Ok. cbv beta iota. rewrite (proj2 (Z.ltb_ge _ _)) by (simpl in He; lia). done. }
  apply Forall_cons in Hc as [[Hlen Hb] Hc]. simpl in Hm. apply has_bytes_app in Hm as [Hc1 Hm].
  rewrite Hlen in Hm. cbn [length] in He.
  pose proof Hc1 as Hc2. rewrite <-(take_drop 4 c) in Hc2. apply has_bytes_app in Hc2 as [Hc2 _].
  destruct (memcmp_lit_eq s p (take 4 c) MP_SIG) as (v & Ev & Hv);
    [done|rewrite length_take; cbn [length MP_SIG]; lia|].
  assert (Esum : sum p 16 s = Ok (u8 (total c)) s).
  { change 16 with (Z.of_nat 16). rewrite <-Hlen. apply sum_eq; [done..|lia]. }
  specialize (IH (p + 16) Hm Hc ltac:(lia)).
  assert (Enext : ∀ A B, (match fst <$> list_find mp_valid cs with
      | Some k => p + 16 + 16 * Z.of_nat k | None => 0 end) = A →
    (match fst <$> (prod_map S id <$> list_find mp_valid cs) with
      | Some k => p + 16 * Z.of_nat k | None => 0 end) = B → A = B).
  { intros A B <- <-. destruct (list_find mp_valid cs) as [[k y]|]; simpl; lia. }
  cbn [list_find length]. destruct (decide (mp_valid c)) as [Hok|Hok].
  - apply Is_true_true in Hok. unfold mp_valid in Hok.
    apply andb_true_iff in Hok as [Hs%bool_decide_eq_true Ht]. apply Hv in Hs as ->.
    cbn [fmap option_fmap option_map fst]. change (16 * Z.of_nat 0) with 0. rewrite Z.add_0_r.
    apply loop_Ok. rewrite (proj2 (Z.ltb_lt _ _)) by lia.
    erewrite bind_Ok by exact Ev. cbn [Z.eqb]. erewrite bind_Ok by exact Esum. by rewrite Ht.
  - rewrite (loop_next _ _ _ (p + 16) s s); [rewrite IH; f_equal; by eapply Enext|].
    rewrite (proj2 (Z.ltb_lt _ _)) by lia. erewrite bind_Ok by exact Ev.
    destruct (Z.eqb_spec v 0) as [E|_]; [|done]. apply Hv in E.
    erewrite bind_Ok by exact Esum. destruct (u8 (total c) =? 0) eqn:Et; [|done].
    exfalso. apply Hok. apply Is_true_true. unfold mp_valid. rewrite E, Et. done.
Qed.

(** A little-endian 16-bit and 32-bit number. *)
Definition le16 (l : list Z) : Z := nth 0 l 0 + 2 ^ 8 * nth 1 l 0.
Definition le32 (l : list Z) : Z :=
  nth 0 l 0 + 2 ^ 8 * nth 1 l 0 + 2 ^ 16 * nth 2 l 0 + 2 ^ 24 * nth 3 l 0.

(** The first place where the structure may be: the extended BIOS data area, or
    the last kilobyte of base memory when the BIOS gives no address for it. *)
Inductive first_area (m : gmap Z Z) : Z → Prop :=
| area_ebda e :
    has_bytes m (P2V 0x400 + 0x0E) e → length e = 2%nat → Forall is_byte e → le16 e ≠ 0 →
    first_area m (16 * le16 e)
| area_base e kb :
    has_bytes m (P2V 0x400 + 0x0E) e → length e = 2%nat → Forall is_byte e → le16 e = 0 →
    has_bytes m (P2V 0x400 + 0x13) kb → length kb = 2%nat → Forall is_byte kb →
    first_area m (u32 (1024 * le16 kb - 1024)).

(** The [n] chunks of 16 bytes from physical address [a] on. *)
Definition chunks_at (m : gmap Z Z) (a : Z) (n : nat) (cs : list (list Z)) : Prop :=
  length cs = n ∧ Forall chunk_ok cs ∧ has_bytes m (P2V a) (concat cs).

(** The structure that the search must find, in one of the places where it looks. *)
Inductive mp_at (m : gmap Z Z) : Z → list Z → Prop :=
| mp_first a cs k c :
    first_area m a → chunks_at m a 64 cs → find_mp cs = Some k → cs !! k = Some c →
    P2V a + 16 * Z.of_nat k ≠ 0 →
    mp_at m (P2V a + 16 * Z.of_nat k) c
| mp_rom a cs rom k c :
    first_area m a → chunks_at m a 64 cs → find_mp cs = None →
    chunks_at m 0xF0000 (64 * 64) rom → find_mp rom = Some k → rom !! k = Some c →
    mp_at m (P2V 0xF0000 + 16 * Z.of_nat k) c.

Lemma has_bytes_two s a e :
  has_bytes (k_mem s) a e → length e = 2%nat → Forall is_byte e →
  ∃ lo hi, e = [lo; hi] ∧ load8 a s = Ok lo s ∧ load8 (a + 1) s = Ok hi s ∧
    Z.lor (Z.shiftl hi 8) lo = le16 e.
Proof.
  intros Hm Hl Hb. destruct e as [|lo [|hi []]]; try discriminate. exists lo, hi.
  apply Forall_cons in Hb as [Hlo _]. split_and!; [done| | |].
  - rewrite <-(Z.add_0_r a). exact (has_bytes_load s a _ 0 lo Hm eq_refl).
  - exact (has_bytes_load s a _ 1 hi Hm eq_refl).
  - rewrite lor_shiftl by (unfold is_byte in Hlo; lia). unfold le16. simpl nth. lia.
Qed.

Lemma has_chunk m a n cs k c :
  chunks_at m a n cs → cs !! k = Some c → has_bytes m (P2V a + 16 * Z.of_nat k) c ∧ chunk_ok c.
Proof.
  intros (_ & Hok & Hm) Hk. split; [|by eapply Forall_lookup_1].
  assert (E : cs = take k cs ++ c :: drop (S k) cs) by (by rewrite take_drop_middle).
  rewrite E, concat_app in Hm. apply has_bytes_app in Hm as [_ Hm]. simpl in Hm.
  apply has_bytes_app in Hm as [Hm _].
  replace (Z.of_nat (length (concat (take k cs)))) with (16 * Z.of_nat k) in Hm; [done|].
  apply lookup_lt_Some in Hk. clear E Hm. revert cs Hok Hk. induction k as [|k IH]; intros cs Hok Hk.
  - done.
  - destruct cs as [|c' cs]; [simpl in Hk; lia|]. apply Forall_cons in Hok as [[Hc _] Hok].
    simpl. rewrite length_app, Hc. specialize (IH cs Hok ltac:(simpl in Hk; lia)). lia.
Qed.

Lemma first_area_search s a :
  first_area (k_mem s) a →
  mpsearch s = (let! mp := mpsearch1 a 1024 in
                if negb (mp =? 0) then ret mp else mpsearch1 0xF0000 0x10000) s.
Proof.
  intros Ha. unfold mpsearch.
  destruct Ha as [e Hm Hl Hb Hne|e kb Hm Hl Hb He Hmk Hlk Hbk];
    destruct (has_bytes_two s _ e Hm Hl Hb) as (lo & hi & _ & E0 & E1 & El);
    rewrite <-Z.add_assoc in E1; change (0x0E + 1) with 0x0F in E1.
  - erewrite bind_Ok by exact E1. erewrite bind_Ok by exact E0. rewrite El.
    rewrite Z.shiftl_mul_pow2 by lia. change (2 ^ 4) with 16.
    rewrite (proj2 (Z.eqb_neq _ _)) by lia. cbn [negb]. by rewrite (Z.mul_comm 16).
  - erewrite bind_Ok by exact E1. erewrite bind_Ok by exact E0. rewrite El, He.
    destruct (has_bytes_two s _ kb Hmk Hlk Hbk) as (lo' & hi' & _ & E2 & E3 & El').
    rewrite <-Z.add_assoc in E3. change (0x13 + 1) with 0x14 in E3.
    change (negb (Z.shiftl 0 4 =? 0)) with false. cbv iota.
    match goal with |- bind ?m ?f s = bind ?m' ?g s =>
      assert (E : m s = m' s); [|unfold bind at 1; rewrite E; reflexivity] end.
    rewrite (bind_Ok _ _ _ _ _ E3), (bind_Ok _ _ _ _ _ E2), El', (Z.mul_comm _ 1024). done.
Qed.

Lemma mpsearch_eq s mp c : mp_at (k_mem s) mp c → mpsearch s = Ok mp s.
Proof.
  intros [a cs k c' Ha (Hn & Hok & Hm) Hk Hc Hnz|a cs rom k c' Ha (Hn & Hok & Hm) Hk (Hn' & Hok' & Hm') Hk' Hc].
  - rewrite (first_area_search s a Ha). pose proof (mpsearch1_eq s a cs Hm Hok) as E.
    rewrite Hk, Hn in E. erewrite bind_Ok by exact E. by rewrite (proj2 (Z.eqb_neq _ _)).
  - rewrite (first_area_search s a Ha). pose proof (mpsearch1_eq s a cs Hm Hok) as E.
    rewrite Hk, Hn in E. erewrite bind_Ok by exact E. cbn [Z.eqb negb].
    pose proof (mpsearch1_eq s _ rom Hm' Hok') as E'. rewrite Hk', Hn' in E'. exact E'.
Qed.

Lemma mp_at_bytes m mp c : mp_at m mp c → has_bytes m mp c ∧ chunk_ok c ∧ mp ≠ 0.
Proof.
  intros [a cs k c' Ha Hcs Hk Hc Hnz|a cs rom k c' Ha Hcs Hk Hrom Hk' Hc].
  - destruct (has_chunk _ _ _ _ _ _ Hcs Hc) as [? ?]. done.
  - destruct (has_chunk _ _ _ _ _ _ Hrom Hc) as [? ?]. split_and!; [done..|].
    change (P2V 0xF0000) with 0x800F0000. lia.
Qed.

(** *** The entries *)

Section env.
Context `{Env}.

Lemma mp_entry_eq s p b e :
  entry_ok e → has_bytes (k_mem s) p (encode_entry e) →
  mp_entry p b s = Ok (p + Z.of_nat (length (encode_entry e)), b)
    (set_k_hw (entry_effect (k_hw s) e) s).
Proof.
  intros He Hm. unfold mp_entry.
  assert (H0 : ∃ t l, encode_entry e = t :: l) by (destruct e; simpl; eauto).
  destruct H0 as (t & l & Et).
  assert (Hl : load8 p s = Ok t s).
  { rewrite <-(Z.add_0_r p). apply (has_bytes_load s p _ 0 t Hm). by rewrite Et. }
  erewrite bind_Ok by exact Hl.
  destruct e as [id rest|no rest|t' rest];
    cbn [encode_entry entry_ok entry_effect length] in *; injection Et as <- <-.
  - assert (Hi : proc_apicid p s = Ok id s) by exact (has_bytes_load s p _ 1 id Hm eq_refl).
    change (MPPROC =? MPPROC) with true. cbv iota.
    erewrite bind_Ok by reflexivity. rewrite He. destruct (h_ncpu (k_hw s) <? Z.of_nat NCPU).
    + erewrite bind_Ok; [reflexivity|]. cbn [when]. by erewrite bind_Ok by exact Hi.
    + erewrite bind_Ok by reflexivity. unfold ret. by destruct s.
  - assert (Hi : ioapic_apicno p s = Ok no s) by exact (has_bytes_load s p _ 1 no Hm eq_refl).
    change (MPIOAPIC =? MPPROC) with false. change (MPIOAPIC =? MPIOAPIC) with true. cbv iota.
    erewrite bind_Ok by exact Hi. erewrite bind_Ok by reflexivity. by rewrite He.
  - destruct He as [Ht He]. rewrite He.
    by repeat (apply elem_of_cons in Ht as [->|Ht]; [by destruct s|]); inversion Ht.
Qed.

(** The loop over the entries. *)
Lemma mp_walk s p b es fuel :
  Forall entry_ok es → has_bytes (k_mem s) p (es ≫= encode_entry) →
  (length es < fuel)%nat →
  loop fuel (λ '(q, ismp),
    if q <? p + Z.of_nat (length (es ≫= encode_entry)) then
      let! r := mp_entry q ismp in
      ret (inl r)
    else ret (inr ismp)) (p, b) s = Ok b (set_k_hw (foldl entry_effect (k_hw s) es) s).
Proof.
  set (e := p + _). assert (He : e = p + Z.of_nat (length (es ≫= encode_entry))) by done.
  clearbody e. revert s p fuel He. induction es as [|x es IH]; intros s p fuel He Hok Hm Hf.
  - destruct fuel; [simpl in Hf; lia|]. apply loop_Ok. simpl in He.
    rewrite (proj2 (Z.ltb_ge _ _)) by lia. unfold ret. by destruct s.
  - destruct fuel; [simpl in Hf; lia|]. apply Forall_cons in Hok as [Hx Hok].
    rewrite bind_cons in Hm, He. apply has_bytes_app in Hm as [Hmx Hm].
    rewrite length_app in He.
    assert (0 < length (encode_entry x))%nat by (destruct x; simpl; lia).
    set (p' := p + Z.of_nat (length (encode_entry x))) in *.
    set (s' := set_k_hw (entry_effect (k_hw s) x) s).
    rewrite (loop_next _ _ _ (p', b) s s').
    2:{ rewrite (proj2 (Z.ltb_lt _ _)) by lia. by erewrite bind_Ok by by apply mp_entry_eq. }
    rewrite (IH s' p' fuel); [done|lia|done|done|simpl in Hf; lia].
Qed.

(** The walk never gets past an entry of an unknown type. *)
Lemma mp_walk_stuck s p b es t rest fuel :
  Forall entry_ok es → has_bytes (k_mem s) p ((es ≫= encode_entry) ++ t :: rest) → MPLINTR < t →
  loop fuel (λ '(q, ismp),
    if q <? p + Z.of_nat (length ((es ≫= encode_entry) ++ t :: rest)) then
      let! r := mp_entry q ismp in
      ret (inl r)
    else ret (inr ismp)) (p, b) s = OutOfFuel.
Proof.
  set (e := p + _). assert (He : p + Z.of_nat (length (es ≫= encode_entry)) < e).
  { subst e. rewrite length_app. simpl length. lia. }
  clearbody e. revert s p fuel b He. induction es as [|x es IH]; intros s p fuel b He Hok Hm Ht.
  - simpl in He, Hm. revert b. induction fuel as [|fuel IH]; intros b; [done|].
    rewrite (loop_next _ _ _ (p, false) s s); [apply IH|].
    rewrite (proj2 (Z.ltb_lt _ _)) by lia. unfold mp_entry.
    assert (El : load8 p s = Ok t s)
      by (rewrite <-(Z.add_0_r p); exact (has_bytes_load s p _ 0 t Hm eq_refl)).
    unfold bind. rewrite El. unfold MPPROC, MPIOAPIC, MPBUS, MPIOINTR, MPLINTR in *.
    by rewrite !(proj2 (Z.eqb_neq _ _)) by lia.
  - destruct fuel; [done|]. apply Forall_cons in Hok as [Hx Hok].
    rewrite bind_cons in Hm, He. rewrite <-app_assoc in Hm. apply has_bytes_app in Hm as [Hmx Hm].
    rewrite length_app in He.
    set (p' := p + Z.of_nat (length (encode_entry x))) in *.
    set (s' := set_k_hw (entry_effect (k_hw s) x) s).
    rewrite (loop_next _ _ _ (p', b) s s').
    2:{ rewrite (proj2 (Z.ltb_lt _ _)) by lia. by erewrite bind_Ok by by apply mp_entry_eq. }
    apply (IH s' p' fuel); [lia|done..].
Qed.

(** The processors that a walk has recorded are the first of those it has seen. *)
Record cpus_are (h : hw) (ids : list Z) : Prop := {
  ca_n : h_ncpu h = Z.of_nat (length ids);
  ca_max : (length ids ≤ NCPU)%nat;
  ca_len : length (h_cpus h) = NCPU;
  ca_ids : a_apicid <$> take (length ids) (h_cpus h) = ids;
}.

Lemma cpus_are_entry h ids e :
  cpus_are h ids → cpus_are (entry_effect h e) (take NCPU (ids ++ entry_apicids e)).
Proof.
  intros [Hn Hmax Hlen Hids].
  destruct e as [id rest|no rest|t rest]; cbn [entry_effect entry_apicids];
    [|rewrite app_nil_r, take_ge by done; by split..].
  rewrite Hn. destruct (Z.ltb_spec (Z.of_nat (length ids)) (Z.of_nat NCPU)) as [Hlt|Hge].
  - rewrite take_ge by (rewrite length_app; simpl; lia).
    split; rewrite ?length_app; cbn [length set_h_ncpu set_h_cpus h_ncpu h_cpus]; [lia|lia| |].
    + by rewrite length_alter.
    + rewrite Nat2Z.id. destruct (lookup_lt_is_Some_2 (h_cpus h) (length ids)) as [c Hc]; [lia|].
      rewrite Nat.add_1_r, (take_S_r _ _ (mk_acpu id (a_started c)))
        by by rewrite list_lookup_alter_eq, Hc.
      rewrite fmap_app. f_equal. rewrite take_alter, decide_False by lia. exact Hids.
  - rewrite take_app_le, take_ge by lia. by split.
Qed.

Lemma take_app_take {A} n (l l' : list A) : take n (take n l ++ l') = take n (l ++ l').
Proof.
  rewrite !take_app, take_take, Nat.min_id, length_take. do 2 f_equal. lia.
Qed.

Lemma cpus_are_walk h ids es :
  cpus_are h ids →
  cpus_are (foldl entry_effect h es) (take NCPU (ids ++ (es ≫= entry_apicids))).
Proof.
  revert h ids. induction es as [|e es IH]; intros h ids Hh; cbn [foldl].
  - rewrite app_nil_r, take_ge by apply Hh. done.
  - specialize (IH _ _ (cpus_are_entry h ids e Hh)). rewrite bind_cons, app_assoc.
    by rewrite <-take_app_take.
Qed.

(** The I/O APIC that a walk leaves recorded is the last one. *)
Definition entry_ioapics (e : mpentry) : list Z :=
  match e with EIoapic no _ => [no] | _ => [] end.
Lemma walk_other h es :
  h_lapic (foldl entry_effect h es) = h_lapic h ∧ h_idt (foldl entry_effect h es) = h_idt h ∧
  h_ioapicid (foldl entry_effect h es) = default (h_ioapicid h) (last (es ≫= entry_ioapics)).
Proof.
  induction es as [|e es IH] using rev_ind; [done|].
  rewrite foldl_snoc, bind_app, bind_singleton. destruct IH as (E1 & E2 & E3).
  destruct e; cbn [entry_effect entry_ioapics].
  - rewrite app_nil_r. by destruct (_ <? _).
  - by rewrite last_snoc.
  - by rewrite app_nil_r.
Qed.

(** *** The configuration table *)

(** The header and the bytes of the entries. *)
Record table_ok (hdr body : list Z) : Prop := {
  to_len : length hdr = Z.to_nat sizeof_mpconf;
  to_sig : take 4 hdr = CONF_SIG;
  to_length : le16 (drop 4 hdr) = Z.of_nat (length (hdr ++ body));
  to_version : nth 6 hdr 0 = 1 ∨ nth 6 hdr 0 = 4;
  to_bytes : Forall is_byte (hdr ++ body);
  to_sum : u8 (total (hdr ++ body)) = 0;
}.

Lemma has_bytes_load32 s a l i :
  has_bytes (k_mem s) a l → (i + 4 ≤ length l)%nat →
  load32 (a + Z.of_nat i) s = Ok (le32 (drop i l)) s.
Proof.
  intros Hm Hi. unfold load32, le32.
  assert (Hn : ∀ j, (j < 4)%nat → load8 (a + Z.of_nat i + Z.of_nat j) s = Ok (nth j (drop i l) 0) s).
  { intros j Hj. rewrite <-Z.add_assoc, <-Nat2Z.inj_add, (has_bytes_nth s a l) by (done || lia).
    f_equal. symmetry. apply nth_skipn. }
  pose proof (Hn 0%nat ltac:(lia)) as H0. rewrite Z.add_0_r in H0.
  erewrite bind_Ok by exact H0. erewrite bind_Ok by exact (Hn 1%nat ltac:(lia)).
  erewrite bind_Ok by exact (Hn 2%nat ltac:(lia)). by erewrite bind_Ok by exact (Hn 3%nat ltac:(lia)).
Qed.

Lemma conf_length_eq s conf hdr body :
  has_bytes (k_mem s) conf (hdr ++ body) → table_ok hdr body →
  conf_length conf s = Ok (Z.of_nat (length (hdr ++ body))) s.
Proof.
  intros [Hm _]%has_bytes_app Ht. pose proof (to_len _ _ Ht) as Hl. rewrite <-(to_length _ _ Ht).
  change (Z.to_nat sizeof_mpconf) with 44%nat in Hl. unfold conf_length, le16.
  erewrite bind_Ok by exact (has_bytes_nth s conf hdr 4 Hm ltac:(lia)).
  erewrite bind_Ok by exact (has_bytes_nth s conf hdr 5 Hm ltac:(lia)).
  by rewrite !nth_skipn.
Qed.

Lemma mpconfig_eq s mp c hdr body :
  mp_at (k_mem s) mp c → le32 (drop 4 c) ≠ 0 → table_ok hdr body →
  has_bytes (k_mem s) (P2V (le32 (drop 4 c))) (hdr ++ body) →
  mpconfig s = Ok (Some (P2V (le32 (drop 4 c)), mp)) s.
Proof.
  intros Hmp Hpa Ht Hm. destruct (mp_at_bytes _ _ _ Hmp) as (Hc & [Hcl _] & Hnz).
  unfold mpconfig. erewrite bind_Ok by by eapply mpsearch_eq.
  rewrite (proj2 (Z.eqb_neq _ _)) by done.
  assert (Epa : mp_physaddr mp s = Ok (le32 (drop 4 c)) s)
    by (apply (has_bytes_load32 s mp c 4 Hc); lia).
  erewrite bind_Ok by exact Epa. rewrite (proj2 (Z.eqb_neq _ _)) by done.
  set (conf := P2V _) in *. pose proof Hm as Hh. apply has_bytes_app in Hh as [Hh _].
  pose proof Hh as Hs. rewrite <-(take_drop 4 hdr) in Hs. apply has_bytes_app in Hs as [Hs _].
  rewrite (to_sig _ _ Ht) in Hs.
  destruct (memcmp_lit_eq s conf CONF_SIG CONF_SIG Hs eq_refl) as (v & Ev & Hv).
  erewrite bind_Ok by exact Ev. rewrite (proj2 Hv eq_refl). cbn [Z.eqb negb].
  assert (Ever : conf_version conf s = Ok (nth 6 hdr 0) s).
  { apply (has_bytes_nth s conf hdr 6 Hh). rewrite (to_len _ _ Ht).
    change (Z.to_nat sizeof_mpconf) with 44%nat. lia. }
  erewrite bind_Ok by exact Ever.
  assert (Eb : negb (nth 6 hdr 0 =? 1) && negb (nth 6 hdr 0 =? 4) = false)
    by (destruct (to_version _ _ Ht) as [-> | ->]; done).
  rewrite Eb. erewrite bind_Ok by by eapply conf_length_eq.
  erewrite bind_Ok.
  2:{ apply sum_eq; [done|by eapply to_bytes|]. rewrite <-(to_length _ _ Ht).
      pose proof (to_bytes _ _ Ht) as [Hb _]%Forall_app.
      apply (Forall_drop _ 4%nat) in Hb. unfold le16. destruct (drop 4 hdr) as [|x [|y l]]; simpl nth.
      - lia.
      - apply Forall_cons in Hb as [Hx _]. unfold is_byte in Hx. lia.
      - apply Forall_cons in Hb as [Hx Hb]. apply Forall_cons in Hb as [Hy _].
        unfold is_byte in Hx, Hy. lia. }
  rewrite (to_sum _ _ Ht). done.
Qed.

(** What [mpinit] does once the table is found. *)
Lemma mpinit_walks s mp c hdr body :
  mp_at (k_mem s) mp c → le32 (drop 4 c) ≠ 0 → table_ok hdr body →
  has_bytes (k_mem s) (P2V (le32 (drop 4 c))) (hdr ++ body) →
  mpinit s = (let! ismp := loop FUEL (λ '(p, ismp),
        if p <? P2V (le32 (drop 4 c)) + sizeof_mpconf + Z.of_nat (length body) then
          let! r := mp_entry p ismp in
          ret (inl r)
        else ret (inr ismp)) (P2V (le32 (drop 4 c)) + sizeof_mpconf, true) in
      if negb ismp then panic "Didn't find a suitable machine"
      else
        let! imcrp := mp_imcrp mp in
        when (negb (imcrp =? 0)) (
          outb 0x22 0x70 ;;
          let! v := inb 0x23 in
          outb 0x23 (Z.lor v 1)))
    (set_k_hw (set_h_lapic (le32 (drop 36 hdr)) (k_hw s)) s).
Proof.
  intros Hmp Hpa Ht Hm. unfold mpinit. erewrite bind_Ok by by eapply mpconfig_eq.
  set (conf := P2V _) in *. pose proof Hm as [Hh _]%has_bytes_app.
  pose proof (to_len _ _ Ht) as Hl. change (Z.to_nat sizeof_mpconf) with 44%nat in Hl.
  assert (El : conf_lapicaddr conf s = Ok (le32 (drop 36 hdr)) s)
    by (apply (has_bytes_load32 s conf hdr 36 Hh); lia).
  erewrite bind_Ok by exact El. erewrite bind_Ok by reflexivity.
  erewrite bind_Ok by (by eapply conf_length_eq).
  rewrite length_app, Hl, Nat2Z.inj_add, Z.add_assoc. reflexivity.
Qed.
End env.

(** *** Concrete tables *)

(** A floating pointer structure in the extended BIOS data area at 0x9FC00, and a
    table at 0xF1000 with the local APIC at 0xFEE00000. *)
Definition sample_mp : list Z := MP_SIG ++ [0; 0x10; 0x0F; 0; 1; 4; 129; 0; 0; 0; 0; 0].
Definition sample_chunks : list (list Z) :=
  replicate 3 (replicate 16 0) ++ [sample_mp] ++ replicate 60 (replicate 16 0).
Definition sample_hdr (len sm : Z) : list Z :=
  CONF_SIG ++ [len; 0; 4; sm] ++ replicate 28 0 ++ [0; 0; 0xE0; 0xFE] ++ replicate 4 0.
Definition sample_procs : list mpentry := [EProc 0 (replicate 18 0); EProc 1 (replicate 18 0)].
Definition sample_entries : list mpentry :=
  sample_procs ++ [EOther MPBUS (replicate 7 0); EIoapic 2 (replicate 6 0)].
Definition bios_mem (table : list Z) : gmap Z Z :=
  mem_write (P2V 0x40E) [0xC0; 0x9F] (mem_write (P2V 0x9FC00) (concat sample_chunks)
    (mem_write (P2V 0xF1000) table ∅)).
Definition bios_kernel (table : list Z) : kernel := set_k_mem (bios_mem table) zero_kernel.

#[global] Instance is_byte_dec b : Decision (is_byte b).
Proof. unfold is_byte. apply _. Defined.

Lemma sample_mp_at m :
  has_bytes m (P2V 0x40E) [0xC0; 0x9F] → has_bytes m (P2V 0x9FC00) (concat sample_chunks) →
  mp_at m (P2V 0x9FC00 + 16 * Z.of_nat 3) sample_mp.
Proof.
  intros H1 H2. apply (mp_first m (16 * le16 [0xC0; 0x9F]) sample_chunks); [| |by vm_compute..].
  - by apply area_ebda; [|done|apply (bool_decide_unpack _); vm_compute|].
  - split; [done|]. split; [|exact H2]. repeat constructor; by vm_compute.
Qed.

(** ** Claims *)

(** C31.  [mpinit] decodes the tables of the BIOS.  The floating pointer structure is where
    [mpsearch] looks: in the first KB of the EBDA or, when the BIOS names no EBDA, in the
    last KB of base memory, or else in the ROM from 0xF0000 to 0xFFFFF (the comment of
    mpsearch names a larger area).  The configuration table has the right signature,
    version, length and checksum and is shorter than the fuel.  Then it returns; the first
    NCPU processors of the table are in [cpus], in order, [ncpu] counts them,
    [ioapicid] is the last I/O APIC of the table, and [lapic] the address that the
    header gives. *)
Theorem mpinit_decodes `{Env} s mp c hdr es :
  mp_at (k_mem s) mp c → le32 (drop 4 c) ≠ 0 → table_ok hdr (es ≫= encode_entry) →
  Forall entry_ok es → has_bytes (k_mem s) (P2V (le32 (drop 4 c))) (hdr ++ (es ≫= encode_entry)) →
  h_ncpu (k_hw s) = 0 → length (h_cpus (k_hw s)) = NCPU → (length es < FUEL)%nat →
  ∃ s', mpinit s = Ok tt s' ∧ k_mem s' = k_mem s ∧
    h_ncpu (k_hw s') = Z.of_nat (min NCPU (length (es ≫= entry_apicids))) ∧
    a_apicid <$> take (Z.to_nat (h_ncpu (k_hw s'))) (h_cpus (k_hw s')) =
      take NCPU (es ≫= entry_apicids) ∧
    h_ioapicid (k_hw s') = default (h_ioapicid (k_hw s)) (last (es ≫= entry_ioapics)) ∧
    h_lapic (k_hw s') = le32 (drop 36 hdr).
Proof.
  intros Hmp Hpa Ht Hes Hm Hn Hlen Hf. rewrite (mpinit_walks s mp c hdr _ Hmp Hpa Ht Hm).
  set (conf := P2V _) in *. set (s1 := set_k_hw _ s).
  pose proof Hm as [_ Hb]%has_bytes_app. rewrite (to_len _ _ Ht), Z2Nat.id in Hb by done.
  erewrite bind_Ok by (by apply (mp_walk s1)).
  set (s2 := set_k_hw _ s1). cbn [negb].
  assert (Ei : mp_imcrp mp s2 = Ok (nth 12 c 0) s2).
  { destruct (mp_at_bytes _ _ _ Hmp) as (Hc & [Hcl _] & _).
    apply (has_bytes_nth s2 mp c 12 Hc). lia. }
  erewrite bind_Ok by exact Ei.
  assert (G : ∃ s', when (negb (nth 12 c 0 =? 0)) (outb 0x22 0x70 ;; let! v := inb 0x23 in
    outb 0x23 (Z.lor v 1)) s2 = Ok tt s' ∧ k_mem s' = k_mem s ∧ k_hw s' = k_hw s2).
  { destruct (negb _); by eexists. }
  destruct G as (s' & -> & Em & Eh). exists s'. rewrite Eh. cbn [s2 k_hw set_k_hw].
  destruct (walk_other (k_hw s1) es) as (El & _ & Eio). rewrite El, Eio.
  assert (H0 : cpus_are (k_hw s1) []) by (split; [done|simpl; lia|done|done]).
  pose proof (cpus_are_walk _ _ es H0) as [Hn' Hmax' Hlen' Hids]. rewrite app_nil_l in *.
  rewrite Hn', Nat2Z.id. split_and!; [done|done|by rewrite length_take|done|done|done].
Qed.

Lemma mpinit_decodes_witness :
  ∃ s', @mpinit (sample_env RR)
      (bios_kernel (sample_hdr 100 132 ++ (sample_entries ≫= encode_entry))) = Ok tt s' ∧
    h_ncpu (k_hw s') = 2 ∧ a_apicid <$> take 2 (h_cpus (k_hw s')) = [0; 1] ∧
    h_ioapicid (k_hw s') = 2 ∧ h_lapic (k_hw s') = 0xFEE00000.
Proof.
  destruct (@mpinit_decodes (sample_env RR)
      (bios_kernel (sample_hdr 100 132 ++ (sample_entries ≫= encode_entry)))
      (P2V 0x9FC00 + 16 * Z.of_nat 3) sample_mp (sample_hdr 100 132) sample_entries)
    as (s' & E & _ & En & Ec & Ei & El).
  - apply sample_mp_at; vm_compute; reflexivity.
  - discriminate.
  - split; [reflexivity|reflexivity|reflexivity|right; reflexivity| |vm_compute; reflexivity].
    apply (bool_decide_unpack _). vm_compute. exact I.
  - repeat constructor.
  - vm_compute. reflexivity.
  - reflexivity.
  - reflexivity.
  - apply (bool_decide_unpack _). vm_compute. exact I.
  - exists s'. rewrite En in Ec. exact (conj E (conj En (conj Ec (conj Ei El)))).
Defined.

(** C40.  An entry of a type that mp.h does not know makes [mpinit] run forever: the
    [break] of the [default] case leaves the [switch], not the loop, and [p] does not
    move, so that "Didn't find a suitable machine" is never reported. *)
Theorem mpinit_unknown_entry `{Env} s mp c hdr es t rest :
  mp_at (k_mem s) mp c → le32 (drop 4 c) ≠ 0 →
  table_ok hdr ((es ≫= encode_entry) ++ t :: rest) → Forall entry_ok es → MPLINTR < t →
  has_bytes (k_mem s) (P2V (le32 (drop 4 c))) (hdr ++ (es ≫= encode_entry) ++ t :: rest) →
  mpinit s = OutOfFuel.
Proof.
  intros Hmp Hpa Ht Hes Hlt Hm. rewrite (mpinit_walks s mp c hdr _ Hmp Hpa Ht Hm).
  set (conf := P2V _) in *. set (s1 := set_k_hw _ s).
  pose proof Hm as [_ Hb]%has_bytes_app. rewrite (to_len _ _ Ht), Z2Nat.id in Hb by done.
  change (k_mem s) with (k_mem s1) in Hb. generalize dependent s1. intros s1 Hb.
  unfold bind at 1. rewrite mp_walk_stuck by done. done.
Qed.

Lemma mpinit_unknown_entry_witness :
  @mpinit (sample_env RR)
    (bios_kernel (sample_hdr 92 136 ++ (sample_procs ≫= encode_entry) ++ 9 :: replicate 7 0))
    = OutOfFuel.
Proof.
  apply (@mpinit_unknown_entry (sample_env RR) _ (P2V 0x9FC00 + 16 * Z.of_nat 3) sample_mp
    (sample_hdr 92 136) sample_procs 9 (replicate 7 0)).
  - apply sample_mp_at; vm_compute; reflexivity.
  - discriminate.
  - split; [reflexivity|reflexivity|reflexivity|right; reflexivity| |vm_compute; reflexivity].
    apply (bool_decide_unpack _). vm_compute. exact I.
  - repeat constructor.
  - reflexivity.
  - vm_compute. reflexivity.
Defined.
