(* ===== verification/Bootmain.v ===== *)
(** * Bootmain: the boot loader (bootmain.c)

    bootasm.S calls [bootmain] with the processor in 32-bit mode and paging off, so the
    addresses of [k_mem] are physical here.  [Some entry] is the jump to the kernel. *)

From stdpp Require Import base numbers gmap strings option list.
From S2P Require Import Prelude Format Machine Boot Mem ProcCore Kalloc Vm Apic.
Local Open Scope kernel_scope.
Local Open Scope Z_scope.

Abbreviation SECTSIZE := (512)%Z (only parsing).
Abbreviation ELF_MAGIC := (0x464C457F)%Z (only parsing).

Section env.
Context `{Env}.

Definition waitdisk : K unit :=
  loop FUEL (λ _ : unit,
    let! r := inb 0x1F7 in
    if negb (Z.land r 0xC0 =? 0x40) then ret (inl tt) else ret (inr tt)) tt.

Definition readsect (dst offset : Z) : K unit :=
  waitdisk ;;
  outb 0x1F2 1 ;;
  outb 0x1F3 offset ;;
  outb 0x1F4 (Z.shiftr offset 8) ;;
  outb 0x1F5 (Z.shiftr offset 16) ;;
  outb 0x1F6 (Z.lor (Z.shiftr offset 24) 0xE0) ;;
  outb 0x1F7 0x20 ;;
  waitdisk ;;
  let! data := insl 0x1F0 (SECTSIZE / 4) in
  store_bytes dst data.

Definition readseg (pa count offset : Z) : K unit :=
  let epa := u32 (pa + count) in
  let pa := u32 (pa - offset mod SECTSIZE) in
  let offset := u32 (offset / SECTSIZE + 1) in
  loop (S (S (S (Z.to_nat (count / SECTSIZE))))) (λ '(pa, offset),
    if negb (pa <? epa) then ret (inr tt)
    else
      readsect pa offset ;;
      ret (inl (u32 (pa + SECTSIZE), u32 (offset + 1)))) (pa, offset).

(** [struct elfhdr] has [entry] at 24, [phoff] at 28 and [phnum] at 44; [struct proghdr],
    32 bytes, has [off] at 4, [paddr] at 12, [filesz] at 16 and [memsz] at 20. *)
Definition bootmain : K (option Z) :=
  let elf := 0x10000 in
  readseg elf 4096 0 ;;
  let! magic := load32 elf in
  if negb (magic =? ELF_MAGIC) then ret None
  else
    let! phoff := load32 (elf + 28) in
    let ph := u32 (elf + phoff) in
    let! n0 := load8 (elf + 44) in
    let! n1 := load8 (elf + 45) in
    let phnum := n0 + 2 ^ 8 * n1 in
    let eph := u32 (ph + 32 * phnum) in
    loop (S (Z.to_nat phnum)) (λ ph,
      if negb (ph <? eph) then ret (inr tt)
      else
        let! pa := load32 (ph + 12) in
        let! filesz := load32 (ph + 16) in
        let! off := load32 (ph + 4) in
        readseg pa filesz off ;;
        let! memsz := load32 (ph + 20) in
        let! filesz := load32 (ph + 16) in
        when (filesz <? memsz) (stosb (u32 (pa + filesz)) 0 (u32 (memsz - filesz))) ;;
        ret (inl (u32 (ph + 32)))) ph ;;
    let! entry := load32 (elf + 24) in
    ret (Some entry).
End env.

(** ** The disk *)

(** The kernel's image, byte by byte, and the sector that holds a part of it: the image
    starts at sector 1. *)
Definition sector (img : Z → Z) (n : Z) : list Z := (λ j, img ((n - 1) * 512 + j)) <$> seqZ 0 512.

(** What the registers of the controller hold. *)
Fixpoint ata_reg (port : Z) (io : list ioevent) : Z :=
  match io with
  | [] => 0
  | IoOut p v :: io => if p =? port then v else ata_reg port io
  | _ :: io => ata_reg port io
  end.
(** A read command was given last, but for reads of the status. *)
Fixpoint read_pending (io : list ioevent) : bool :=
  match io with
  | IoIn p _ :: io => (p =? 0x1F7) && read_pending io
  | IoOut p v :: _ => (p =? 0x1F7) && (v =? 0x20)
  | _ => false
  end.
Definition lba (io : list ioevent) : Z :=
  ata_reg 0x1F3 io + 2 ^ 8 * ata_reg 0x1F4 io + 2 ^ 16 * ata_reg 0x1F5 io + 2 ^ 24 * (ata_reg 0x1F6 io mod 16).

Section env.
Context `{Env}.

(** The status register after [n] reads that found the drive busy. *)
Definition status (io : list ioevent) : Z := u8 (port_in 0x1F7 io).
Fixpoint polled (n : nat) (io : list ioevent) : list ioevent :=
  match n with O => io | S n => polled n (IoIn 0x1F7 (status io) :: io) end.

(** A drive with the image [img]: it becomes ready within [FUEL] polls, and delivers the
    sector that the registers name. *)
Record drive (img : Z → Z) : Prop := {
  dr_ready io : ∃ n, (n < FUEL)%nat ∧ Z.land (status (polled n io)) 0xC0 = 0x40 ∧
    ∀ k, (k < n)%nat → Z.land (status (polled k io)) 0xC0 ≠ 0x40;
  dr_read io : read_pending io = true → ata_reg 0x1F2 io = 1 → ata_reg 0x1F6 io / 16 = 0xE →
    port_insl 0x1F0 io = sector img (lba io);
  dr_bytes i : 0 ≤ img i < 256;
}.

(** ** Polling and reading *)

Lemma ata_reg_polled port n io : ata_reg port (polled n io) = ata_reg port io.
Proof. revert io. induction n as [|n IH]; intros io; [done|]. cbn [polled]. by rewrite IH. Qed.
Lemma read_pending_polled n io : read_pending (polled n io) = read_pending io.
Proof. revert io. induction n as [|n IH]; intros io; [done|]. cbn [polled]. by rewrite IH. Qed.
Lemma polled_S n io : polled (S n) io = IoIn 0x1F7 (status (polled n io)) :: polled n io.
Proof. revert io. induction n as [|n IH]; intros io; [done|]. cbn [polled] in *. by rewrite IH. Qed.

Lemma waitdisk_loop n : ∀ fuel s, (n < fuel)%nat →
  Z.land (status (polled n (k_io s))) 0xC0 = 0x40 →
  (∀ k, (k < n)%nat → Z.land (status (polled k (k_io s))) 0xC0 ≠ 0x40) →
  loop fuel (λ _ : unit,
    let! r := inb 0x1F7 in
    if negb (Z.land r 0xC0 =? 0x40) then ret (inl tt) else ret (inr tt)) tt s =
  Ok tt (set_k_io (polled (S n) (k_io s)) s).
Proof.
  induction n as [|n IH]; intros fuel s Hf Hr Hb; (destruct fuel as [|fuel]; [lia|]).
  - apply loop_Ok. rewrite (bind_Ok _ _ _ _ _ (inb_eq 0x1F7 s)). cbn [polled] in Hr.
    fold (status (k_io s)). by rewrite Hr.
  - erewrite loop_next.
    2:{ rewrite (bind_Ok _ _ _ _ _ (inb_eq 0x1F7 s)). fold (status (k_io s)).
        pose proof (Hb 0%nat ltac:(lia)) as H0. cbn [polled] in H0. apply Z.eqb_neq in H0. by rewrite H0. }
    rewrite IH; [done|lia|exact Hr|]. intros k Hk. apply (Hb (S k)). lia.
Qed.

Lemma waitdisk_run img s :
  drive img → ∃ n, waitdisk s = Ok tt (set_k_io (polled n (k_io s)) s).
Proof.
  intros Hd. destruct (dr_ready _ Hd (k_io s)) as (n & Hn & Hr & Hb). exists (S n).
  by apply waitdisk_loop.
Qed.

Lemma store_bytes_run s a l :
  mapped (k_mem s) a (Z.of_nat (length l)) → (∀ b, b ∈ l → 0 ≤ b < 256) →
  store_bytes a l s = Ok tt (write a l s).
Proof.
  intros Hm Hb. unfold store_bytes.
  pose proof (for_each_states (zip (seqZ a (Z.of_nat (length l))) l) (λ '(a, b), store8 a b)
    (λ i, write a (take i l) s)) as Hst. cbn beta in Hst. rewrite take_0, write_nil in Hst.
  rewrite length_zip_with, length_seqZ, Nat2Z.id, Nat.min_id, firstn_all in Hst. apply Hst.
  intros i [x b] Hx. apply lookup_zip_with_Some in Hx as (x' & b' & [= <- <-] & Hx & Hl).
  apply lookup_seqZ in Hx as [-> Hi]. pose proof (lookup_lt_Some _ _ _ Hl) as Hlt.
  pose proof (store8_snoc s a (take i l) b) as Hs. rewrite length_take, Nat.min_l in Hs by lia.
  rewrite Hs by (apply Hm; lia). rewrite u8_small by (apply Hb; by eapply list_elem_of_lookup_2).
  by rewrite <-take_S_r.
Qed.

(** [n] bytes of the image. *)
Definition slice (img : Z → Z) (o n : Z) : list Z := (λ j, img (o + j)) <$> seqZ 0 n.
Lemma slice_length img o n : 0 ≤ n → Z.of_nat (length (slice img o n)) = n.
Proof. intros Hn. unfold slice. rewrite length_fmap, length_seqZ. lia. Qed.
Lemma slice_lookup img o n i : (Z.of_nat i < n) → slice img o n !! i = Some (img (o + Z.of_nat i)).
Proof.
  intros Hi. unfold slice. rewrite list_lookup_fmap.
  rewrite (proj2 (lookup_seqZ 0 n i (Z.of_nat i))) by lia. done.
Qed.
Lemma slice_app img o a b : 0 ≤ a → 0 ≤ b → slice img o (a + b) = slice img o a ++ slice img (o + a) b.
Proof.
  intros Ha Hb. unfold slice. rewrite seqZ_app by lia. rewrite fmap_app. f_equal. rewrite Z.add_0_l.
  replace (seqZ a b) with (Z.add a <$> seqZ 0 b) by (rewrite fmap_add_seqZ; f_equal; lia).
  rewrite <-list_fmap_compose.
  apply list_fmap_ext. intros i x _. cbn. f_equal. lia.
Qed.
Lemma slice_bytes img o n b : (∀ i, 0 ≤ img i < 256) → b ∈ slice img o n → 0 ≤ b < 256.
Proof. intros Hi Hb. unfold slice in Hb. apply list_elem_of_fmap in Hb as (j & -> & _). apply Hi. Qed.

Lemma lor_E0 x : 0 ≤ x < 16 → Z.lor x 0xE0 = x + 0xE0.
Proof.
  intros Hx. assert (Hc : x ∈ seqZ 0 16) by (apply elem_of_seqZ; lia).
  clear Hx. revert x Hc. apply Forall_forall. repeat constructor.
Qed.

(** The registers that [readsect] writes name the sector. *)
Lemma lba_command off io :
  0 ≤ off < 2 ^ 28 →
  let io' := IoOut 0x1F7 0x20 :: IoOut 0x1F6 (u8 (Z.lor (Z.shiftr off 24) 0xE0)) :: IoOut 0x1F5 (u8 (Z.shiftr off 16)) ::
    IoOut 0x1F4 (u8 (Z.shiftr off 8)) :: IoOut 0x1F3 (u8 off) :: IoOut 0x1F2 1 :: io in
  lba io' = off ∧ ata_reg 0x1F6 io' / 16 = 0xE.
Proof.
  intros Hoff io'. assert (Hhi : 0 ≤ Z.shiftr off 24 < 16).
  { rewrite Z.shiftr_div_pow2 by lia. split; [apply Z.div_pos; lia|apply Z.div_lt_upper_bound; lia]. }
  assert (E6 : ata_reg 0x1F6 io' = Z.shiftr off 24 + 0xE0).
  { unfold io'. cbn. rewrite lor_E0 by done. apply u8_small. lia. }
  split.
  - unfold lba. rewrite E6. unfold io'. cbn [ata_reg Z.eqb Pos.eqb].
    pose proof (bytes32_word off) as Hw. rewrite u32_small in Hw by lia.
    rewrite (u8_small (Z.shiftr off 24)) in Hw by lia.
    replace ((Z.shiftr off 24 + 224) mod 16) with (Z.shiftr off 24); [done|].
    replace (Z.shiftr off 24 + 224) with (Z.shiftr off 24 + 14 * 16) by lia.
    rewrite Z.mod_add by lia. symmetry. by apply Z.mod_small.
  - rewrite E6. symmetry. apply (Z.div_unique _ _ _ (Z.shiftr off 24)); lia.
Qed.

Section drive.
Context (img : Z → Z) (Hdrive : drive img).

Lemma insl_eq port cnt v s :
  port_insl port (k_io s) = v → Z.of_nat (length v) = 4 * cnt →
  insl port cnt s = Ok v (set_k_io (IoInsl port v :: k_io s) s).
Proof using Type.
  intros Ev El. unfold insl. erewrite bind_Ok by reflexivity. rewrite Ev.
  replace (Z.of_nat (length v) <? 4 * cnt) with false by lia. by rewrite take_ge by lia.
Qed.

Lemma readsect_run s dst off :
  0 ≤ off < 2 ^ 28 → mapped (k_mem s) dst 512 →
  ∃ io, readsect dst off s = Ok tt (write dst (slice img ((off - 1) * 512) 512) (set_k_io io s)).
Proof using Hdrive.
  intros Hoff Hm. unfold readsect. destruct (waitdisk_run img s Hdrive) as [n1 E1].
  erewrite bind_Ok by exact E1. do 6 (erewrite bind_Ok by apply outb_eq; cbn [k_io set_k_io]).
  change (u8 0x20) with 0x20. change (u8 1) with 1. set (io1 := IoOut 0x1F7 _ :: _).
  destruct (waitdisk_run img (set_k_io io1 s) Hdrive) as [n2 E2]. cbn [k_io set_k_io] in E2.
  eexists. erewrite bind_Ok by exact E2.
  destruct (lba_command off (polled n1 (k_io s)) Hoff) as [El E6]. fold io1 in El, E6.
  assert (Ed : port_insl 0x1F0 (polled n2 io1) = slice img ((off - 1) * 512) 512).
  { rewrite (dr_read _ Hdrive).
    - unfold lba. rewrite !ata_reg_polled. fold (lba io1). rewrite El. done.
    - rewrite read_pending_polled. done.
    - rewrite ata_reg_polled. done.
    - by rewrite ata_reg_polled. }
  erewrite bind_Ok by (apply insl_eq; [exact Ed|by rewrite slice_length by lia]).
  apply store_bytes_run; [rewrite slice_length by lia; exact Hm|].
  intros b. apply slice_bytes. apply (dr_bytes _ Hdrive).
Qed.

(** The loop of [readseg], for [n] sectors. *)
Definition seg_step (epa : Z) : Z * Z → K (Z * Z + unit) := λ '(pa, offset),
  if negb (pa <? epa) then ret (inr tt)
  else
    readsect pa offset ;;
    ret (inl (u32 (pa + SECTSIZE), u32 (offset + 1))).

Lemma readseg_loop epa n : ∀ fuel s pa off,
  (n < fuel)%nat → 0 ≤ pa → 0 ≤ off → off + Z.of_nat n < 2 ^ 28 →
  epa ≤ pa + 512 * Z.of_nat n → (n ≠ 0%nat → pa + 512 * (Z.of_nat n - 1) < epa) →
  pa + 512 * Z.of_nat n < 2 ^ 32 → mapped (k_mem s) pa (512 * Z.of_nat n) →
  ∃ io, loop fuel (seg_step epa) (pa, off) s =
    Ok tt (write pa (slice img ((off - 1) * 512) (512 * Z.of_nat n)) (set_k_io io s)).
Proof using Hdrive.
  induction n as [|n IH]; intros fuel s pa off Hf Hpa Hoff Hoff2 He He2 Hend Hm;
    (destruct fuel as [|fuel]; [lia|]).
  - exists (k_io s). apply loop_Ok. unfold seg_step. replace (pa <? epa) with false by lia.
    unfold ret, write, slice. cbn [seqZ]. by destruct s.
  - destruct (readsect_run s pa off) as [io1 E1]; [lia|intros x Hx; apply Hm; lia|].
    set (l1 := slice img ((off - 1) * 512) 512) in *. set (s1 := write pa l1 (set_k_io io1 s)) in *.
    destruct (IH fuel s1 (pa + 512) (off + 1)) as [io2 E2]; [lia|lia|lia|lia|lia|lia|lia| |].
    { apply mapped_write. intros x Hx. apply Hm. lia. }
    exists io2. erewrite loop_next.
    2:{ unfold seg_step. replace (pa <? epa) with true by (assert (pa + 512 * (Z.of_nat (S n) - 1) < epa) by auto; lia).
        cbn [negb]. erewrite bind_Ok by exact E1. rewrite !u32_small by lia. reflexivity. }
    rewrite E2. unfold s1, write. cbn [k_mem set_k_mem set_k_io].
    replace (512 * Z.of_nat (S n)) with (512 + 512 * Z.of_nat n) by lia.
    rewrite slice_app by lia. rewrite mem_write_app_r, slice_length by lia. fold l1.
    replace ((off - 1) * 512 + 512) with ((off + 1 - 1) * 512) by lia. clearbody l1. reflexivity.
Qed.

(** The sectors that [readseg] reads. *)
Definition nsect (count off : Z) : Z := (count + off mod 512 + 511) / 512.

Lemma readseg_run s pa count off :
  0 ≤ count → 0 ≤ off < 2 ^ 32 → off mod 512 ≤ pa → pa - off mod 512 + 512 * nsect count off < 2 ^ 32 →
  mapped (k_mem s) (pa - off mod 512) (512 * nsect count off) →
  ∃ io, readseg pa count off s =
    Ok tt (write (pa - off mod 512) (slice img (off - off mod 512) (512 * nsect count off)) (set_k_io io s)).
Proof using Hdrive.
  intros Hc Hoff Hpa Hend Hm. pose proof (Z.mod_pos_bound off 512 ltac:(lia)) as Hd.
  pose proof (Z.div_mod off 512 ltac:(lia)) as Hdm.
  assert (Hn : 0 ≤ nsect count off) by (apply Z.div_pos; lia).
  pose proof (Z.div_mod (count + off mod 512 + 511) 512 ltac:(lia)) as Hnm. fold (nsect count off) in Hnm.
  pose proof (Z.mod_pos_bound (count + off mod 512 + 511) 512 ltac:(lia)) as Hnb.
  unfold readseg. rewrite (u32_small (pa + count)) by lia. rewrite (u32_small (pa - off mod 512)) by lia.
  assert (Ho : 0 ≤ off / 512 < 2 ^ 23) by (split; [apply Z.div_pos; lia|apply Z.div_lt_upper_bound; lia]).
  rewrite (u32_small (off / 512 + 1)) by lia.
  destruct (readseg_loop (pa + count) (Z.to_nat (nsect count off)) (S (S (S (Z.to_nat (count / 512))))) s
    (pa - off mod 512) (off / 512 + 1)) as [io E].
  - assert (nsect count off ≤ count / 512 + 2); [|pose proof (Z.div_pos count 512 Hc ltac:(lia)); lia].
    unfold nsect. rewrite <-(Z.div_add count 2 512) by lia. apply Z.div_le_mono; lia.
  - lia.
  - lia.
  - rewrite Z2Nat.id by lia. assert (nsect count off ≤ 2 ^ 23); [|lia].
    apply Z.lt_le_incl. apply Z.div_lt_upper_bound; lia.
  - rewrite Z2Nat.id by lia. lia.
  - rewrite Z2Nat.id by lia. lia.
  - rewrite Z2Nat.id by lia. lia.
  - rewrite Z2Nat.id by lia. exact Hm.
  - exists io. rewrite Z2Nat.id in E by lia.
    replace ((off / 512 + 1 - 1) * 512) with (off - off mod 512) in E by lia. exact E.
Qed.

(** ** Segments *)

Record seg := mk_seg { sg_off : Z; sg_paddr : Z; sg_filesz : Z; sg_memsz : Z }.

(** What [readseg] and [stosb] write for a segment. *)
Definition seg_lo (g : seg) : Z := sg_paddr g - sg_off g mod 512.
Definition seg_hi (g : seg) : Z :=
  Z.max (seg_lo g + 512 * nsect (sg_filesz g) (sg_off g)) (sg_paddr g + sg_memsz g).
Definition touches (g : seg) (x : Z) : Prop := seg_lo g ≤ x < seg_hi g.
(** The segment is in memory. *)
Definition loaded (m : gmap Z Z) (g : seg) : Prop :=
  ∀ i, 0 ≤ i < sg_memsz g →
    m !! (sg_paddr g + i) = Some (if i <? sg_filesz g then img (sg_off g + i) else 0).

Definition img32 (a : Z) : Z := img a + 2 ^ 8 * img (a + 1) + 2 ^ 16 * img (a + 2) + 2 ^ 24 * img (a + 3).
(** The first page of the image is in the scratch space. *)
Definition header (m : gmap Z Z) : Prop := ∀ x, 0x10000 ≤ x < 0x11000 → m !! x = Some (img (x - 0x10000)).

Record seg_ok (m : gmap Z Z) (g : seg) : Prop := {
  so_off : 0 ≤ sg_off g < 2 ^ 32;
  so_size : 0 ≤ sg_filesz g ≤ sg_memsz g;
  so_lo : 0 ≤ seg_lo g;
  so_hi : seg_hi g < 2 ^ 32;
  so_mem x : touches g x → is_Some (m !! x);
  so_scratch : seg_hi g ≤ 0x10000 ∨ 0x11000 ≤ seg_lo g;
}.
(** The program header at offset [p] of the image. *)
Record phdr (p : Z) (g : seg) : Prop := {
  ph_off : img32 (p + 4) = sg_off g;
  ph_paddr : img32 (p + 12) = sg_paddr g;
  ph_filesz : img32 (p + 16) = sg_filesz g;
  ph_memsz : img32 (p + 20) = sg_memsz g;
}.

Lemma header_word s p :
  header (k_mem s) → 0 ≤ p → p + 4 ≤ 4096 → load32 (0x10000 + p) s = Ok (img32 p) s.
Proof using Type.
  intros Hh H0 H1. apply load32_eq. unfold word. rewrite !Hh by lia. cbn [mbind option_bind].
  unfold img32. replace (0x10000 + p - 0x10000) with p by lia.
  replace (0x10000 + p + 1 - 0x10000) with (p + 1) by lia.
  replace (0x10000 + p + 2 - 0x10000) with (p + 2) by lia.
  by replace (0x10000 + p + 3 - 0x10000) with (p + 3) by lia.
Qed.

Definition load_seg (eph ph : Z) : K (Z + unit) :=
  if negb (ph <? eph) then ret (inr tt)
  else
    let! pa := load32 (ph + 12) in
    let! filesz := load32 (ph + 16) in
    let! off := load32 (ph + 4) in
    readseg pa filesz off ;;
    let! memsz := load32 (ph + 20) in
    let! filesz := load32 (ph + 16) in
    when (filesz <? memsz) (stosb (u32 (pa + filesz)) 0 (u32 (memsz - filesz))) ;;
    ret (inl (u32 (ph + 32))).

(** The two writes, as one change of the memory. *)
Lemma seg_written m g :
  seg_ok m g →
  let m1 := mem_write (seg_lo g) (slice img (sg_off g - sg_off g mod 512) (512 * nsect (sg_filesz g) (sg_off g))) m in
  let m2 := mem_write (sg_paddr g + sg_filesz g) (replicate (Z.to_nat (sg_memsz g - sg_filesz g)) 0) m1 in
  loaded m2 g ∧ (∀ x, ¬ touches g x → m2 !! x = m !! x) ∧ (∀ x, is_Some (m !! x) → is_Some (m2 !! x)).
Proof using Type.
  intros [Hoff Hsz Hlo Hhi Hm Hsc] m1 m2. pose proof (Z.mod_pos_bound (sg_off g) 512 ltac:(lia)) as Hd.
  assert (Hn : 0 ≤ nsect (sg_filesz g) (sg_off g)) by (apply Z.div_pos; lia).
  assert (Hcover : sg_filesz g + sg_off g mod 512 ≤ 512 * nsect (sg_filesz g) (sg_off g)).
  { unfold nsect. pose proof (Z.div_mod (sg_filesz g + sg_off g mod 512 + 511) 512 ltac:(lia)).
    pose proof (Z.mod_pos_bound (sg_filesz g + sg_off g mod 512 + 511) 512 ltac:(lia)). lia. }
  assert (L1 : ∀ x, m1 !! x = if decide (seg_lo g ≤ x < seg_lo g + 512 * nsect (sg_filesz g) (sg_off g))
    then Some (img (sg_off g - sg_off g mod 512 + (x - seg_lo g))) else m !! x).
  { intros x. unfold m1. rewrite lookup_mem_write, slice_length by lia. case_decide; [|done].
    rewrite slice_lookup by lia. do 3 f_equal. lia. }
  assert (L2 : ∀ x, m2 !! x = if decide (sg_paddr g + sg_filesz g ≤ x < sg_paddr g + sg_memsz g)
    then Some 0 else m1 !! x).
  { intros x. unfold m2. rewrite lookup_mem_write, length_replicate, Z2Nat.id by lia.
    replace (sg_paddr g + sg_filesz g + (sg_memsz g - sg_filesz g)) with (sg_paddr g + sg_memsz g) by lia.
    case_decide; [|done]. apply lookup_replicate_2. lia. }
  clearbody m1 m2. split_and!.
  - intros i Hi. rewrite L2. destruct (Z.ltb_spec i (sg_filesz g)).
    + rewrite decide_False, L1, decide_True by (unfold seg_lo; lia). do 2 f_equal. unfold seg_lo. lia.
    + by rewrite decide_True by lia.
  - intros x Hx. unfold touches, seg_hi in Hx. rewrite L2, decide_False by (unfold seg_lo in *; lia).
    by rewrite L1, decide_False by lia.
  - intros x Hx. rewrite L2. case_decide; [by eexists|]. rewrite L1. case_decide; [by eexists|done].
Qed.

Lemma load_seg_run s p eph g :
  header (k_mem s) → seg_ok (k_mem s) g → phdr p g → 0 ≤ p → p + 32 ≤ 4096 → 0x10000 + p < eph →
  ∃ s', load_seg eph (0x10000 + p) s = Ok (inl (0x10000 + (p + 32))) s' ∧ loaded (k_mem s') g ∧
    (∀ x, ¬ touches g x → k_mem s' !! x = k_mem s !! x) ∧
    (∀ x, is_Some (k_mem s !! x) → is_Some (k_mem s' !! x)).
Proof using Hdrive.
  intros Hh Hok [P1 P2 P3 P4] Hp0 Hp1 Hlt. pose proof Hok as [Hoff Hsz Hlo Hhi Hm Hsc].
  pose proof (Z.mod_pos_bound (sg_off g) 512 ltac:(lia)) as Hd.
  destruct (seg_written (k_mem s) g Hok) as (Hl & Hsame & Hmap). unfold seg_lo in Hl, Hsame, Hmap.
  set (l1 := slice img (sg_off g - sg_off g mod 512) (512 * nsect (sg_filesz g) (sg_off g))) in *.
  assert (Hn : 0 ≤ nsect (sg_filesz g) (sg_off g)) by (apply Z.div_pos; lia).
  destruct (readseg_run s (sg_paddr g) (sg_filesz g) (sg_off g)) as [io E];
    [lia|done|unfold seg_lo in Hlo; lia|unfold seg_hi, seg_lo in Hhi; lia| |].
  { intros x Hx. apply Hm. unfold touches, seg_hi, seg_lo. lia. }
  fold l1 in E. set (s1 := write (sg_paddr g - sg_off g mod 512) l1 (set_k_io io s)) in *.
  assert (Hl1 : Z.of_nat (length l1) = 512 * nsect (sg_filesz g) (sg_off g)) by (apply slice_length; lia).
  assert (Hh1 : header (k_mem s1)).
  { intros x Hx. change (k_mem s1) with (mem_write (sg_paddr g - sg_off g mod 512) l1 (k_mem s)).
    rewrite lookup_mem_write, Hl1, decide_False; [by apply Hh|].
    unfold seg_hi, seg_lo in *. lia. }
  set (z := replicate (Z.to_nat (sg_memsz g - sg_filesz g)) 0) in *.
  set (s2 := write (sg_paddr g + sg_filesz g) z s1).
  assert (Ez : when (sg_filesz g <? sg_memsz g)
    (stosb (u32 (sg_paddr g + sg_filesz g)) 0 (u32 (sg_memsz g - sg_filesz g))) s1 = Ok tt s2).
  { destruct (Z.ltb_spec (sg_filesz g) (sg_memsz g)) as [Hz|Hz]; cbn [when].
    - unfold seg_hi, seg_lo in Hlo, Hhi. rewrite !u32_small by lia.
      rewrite <-(Z2Nat.id (sg_memsz g - sg_filesz g)) by lia. apply stosb_eq.
      rewrite Z2Nat.id by lia. apply mapped_write. intros x Hx. apply Hm. unfold touches, seg_hi, seg_lo. lia.
    - unfold s2, z. replace (Z.to_nat (sg_memsz g - sg_filesz g)) with 0%nat by lia. cbn [replicate].
      by rewrite write_nil. }
  exists s2. split_and!; [|exact Hl|exact Hsame|exact Hmap].
  unfold load_seg. replace (0x10000 + p <? eph) with true by lia. cbn [negb].
  rewrite <-!Z.add_assoc. erewrite bind_Ok by (apply header_word; [done|lia|lia]).
  erewrite bind_Ok by (apply header_word; [done|lia|lia]).
  erewrite bind_Ok by (apply header_word; [done|lia|lia]). rewrite P1, P2, P3.
  erewrite bind_Ok by exact E. erewrite bind_Ok by (apply header_word; [done|lia|lia]).
  erewrite bind_Ok by (apply header_word; [done|lia|lia]). rewrite P3, P4.
  erewrite bind_Ok by exact Ez. rewrite u32_small by lia. reflexivity.
Qed.

(** Later segments do not overwrite earlier ones. *)
Fixpoint in_order (segs : list seg) : Prop :=
  match segs with
  | [] => True
  | g :: segs => Forall (λ h, seg_hi h ≤ sg_paddr g ∨ sg_paddr g + sg_memsz g ≤ seg_lo h) segs ∧ in_order segs
  end.

Lemma load_segs segs : ∀ s p eph fuel,
  header (k_mem s) → Forall (seg_ok (k_mem s)) segs → in_order segs →
  (∀ i g, segs !! i = Some g → phdr (p + 32 * Z.of_nat i) g) →
  0 ≤ p → p + 32 * Z.of_nat (length segs) ≤ 4096 → eph = 0x10000 + p + 32 * Z.of_nat (length segs) →
  (length segs < fuel)%nat →
  ∃ s', loop fuel (load_seg eph) (0x10000 + p) s = Ok tt s' ∧ Forall (loaded (k_mem s')) segs ∧
    (∀ x, Forall (λ g, ¬ touches g x) segs → k_mem s' !! x = k_mem s !! x).
Proof using Hdrive.
  induction segs as [|g segs IH]; intros s p eph fuel Hh Hok Hord Hph Hp0 Hp1 He Hf;
    (destruct fuel as [|fuel]; [cbn in *; lia|]).
  { exists s. split_and!; [|constructor|done]. apply loop_Ok. unfold load_seg. cbn [length] in He.
    replace (0x10000 + p <? eph) with false by lia. done. }
  apply Forall_cons in Hok as [Hg Hok]. destruct Hord as [Hgo Hord]. cbn [length] in *.
  destruct (load_seg_run s p eph g Hh Hg) as (s1 & E1 & Hl1 & Hsame1 & Hmap1); [|lia|lia|lia|].
  { pose proof (Hph 0%nat g eq_refl) as H0. by rewrite Z.mul_0_r, Z.add_0_r in H0. }
  destruct (IH s1 (p + 32) eph fuel) as (s' & E & Hl & Hsame); [| |done| |lia|lia|lia|lia|].
  - intros x Hx. rewrite Hsame1; [by apply Hh|]. destruct (so_scratch _ _ Hg); unfold touches; lia.
  - eapply Forall_impl; [exact Hok|]. intros h [O1 O2 O3 O4 O5 O6]. split; auto.
  - intros i h Hi. pose proof (Hph (S i) h Hi) as Hp. by replace (p + 32 + 32 * Z.of_nat i) with (p + 32 * Z.of_nat (S i)) by lia.
  - exists s'. split_and!; [by erewrite loop_next by exact E1| |].
    + constructor; [|done]. intros i Hi. rewrite Hsame; [by apply Hl1|].
      eapply Forall_impl; [exact Hgo|]. intros h Hsep. unfold touches. cbn in Hsep. lia.
    + intros x [Hx Hxs]%Forall_cons. rewrite Hsame by done. by apply Hsame1.
Qed.

(** An ELF image whose headers are in its first page. *)
Record elf_image (entry : Z) (segs : list seg) : Prop := {
  ei_magic : img32 0 = ELF_MAGIC;
  ei_entry : img32 24 = entry;
  ei_phnum : img 44 + 2 ^ 8 * img 45 = Z.of_nat (length segs);
  ei_fits : img32 28 + 32 * Z.of_nat (length segs) ≤ 4096;
  ei_phdr i g : segs !! i = Some g → phdr (img32 28 + 32 * Z.of_nat i) g;
}.

Lemma img32_nonneg a : 0 ≤ img32 a.
Proof using Hdrive.
  unfold img32. pose proof (dr_bytes _ Hdrive a). pose proof (dr_bytes _ Hdrive (a + 1)).
  pose proof (dr_bytes _ Hdrive (a + 2)). pose proof (dr_bytes _ Hdrive (a + 3)). lia.
Qed.

(** The first page. *)
Lemma read_header s :
  mapped (k_mem s) 0x10000 4096 →
  ∃ s1, readseg 0x10000 4096 0 s = Ok tt s1 ∧ header (k_mem s1) ∧
    ∀ x, ¬ (0x10000 ≤ x < 0x11000) → k_mem s1 !! x = k_mem s !! x.
Proof using Hdrive.
  intros Hm. destruct (readseg_run s 0x10000 4096 0) as [io E]; [lia|lia|done|done|exact Hm|].
  eexists. split; [exact E|]. change (512 * nsect 4096 0) with 4096. change (0x10000 - 0 mod 512) with 0x10000.
  change (0 - 0 mod 512) with 0. unfold write. cbn [k_mem set_k_mem set_k_io]. split.
  - intros x Hx. rewrite lookup_mem_write, slice_length, decide_True by lia.
    rewrite slice_lookup by lia. do 2 f_equal. lia.
  - intros x Hx. by rewrite lookup_mem_write, slice_length, decide_False by lia.
Qed.

(** C23.  bootmain loads the kernel.  Given a drive that is ready within the fuel of a poll and
    answers the ATA read command, and from sector 1 on an ELF image with its headers in
    the first 4096 bytes, it returns the entry point with every segment in memory: the
    bytes of the file, then zeroes up to the size in memory.  What it reads comes in whole
    sectors, so it also writes from the sector boundary before a segment to the end of the
    last sector; it writes nothing else but the scratch page at 0x10000.  The segments are
    in memory that exists, clear of the scratch page and without wrapping at 2^32, and what
    is read for a segment does not reach into one that was loaded before. *)
Theorem bootmain_loads s entry segs :
  elf_image entry segs → mapped (k_mem s) 0x10000 4096 → Forall (seg_ok (k_mem s)) segs → in_order segs →
  ∃ s', bootmain s = Ok (Some entry) s' ∧ Forall (loaded (k_mem s')) segs ∧
    ∀ x, ¬ (0x10000 ≤ x < 0x11000) → Forall (λ g, ¬ touches g x) segs → k_mem s' !! x = k_mem s !! x.
Proof using Hdrive.
  intros [E1 E2 E3 E4 E5] Hm Hok Hord. destruct (read_header s Hm) as (s1 & Er & Hh & Hsame1).
  pose proof (img32_nonneg 28) as H28. set (phoff := img32 28) in *.
  assert (Hok1 : Forall (seg_ok (k_mem s1)) segs).
  { eapply Forall_impl; [exact Hok|]. intros g [O1 O2 O3 O4 O5 O6]. split; [done..| |done].
    intros x Hx. rewrite Hsame1; [by apply O5|]. unfold touches in Hx. lia. }
  destruct (load_segs segs s1 phoff (0x10000 + phoff + 32 * Z.of_nat (length segs)) (S (length segs)))
    as (s' & El & Hl & Hsame); [done|done|done|done|lia|lia|done|lia|].
  exists s'. split_and!; [|done|].
  - unfold bootmain. erewrite bind_Ok by exact Er.
    erewrite bind_Ok by (apply (header_word s1 0); [done|lia|lia]). rewrite E1. cbn [negb Z.eqb Pos.eqb].
    erewrite bind_Ok by (apply (header_word s1 28); [done|lia|lia]). fold phoff.
    erewrite bind_Ok by (apply load8_eq; apply Hh; lia). erewrite bind_Ok by (apply load8_eq; apply Hh; lia).
    change (0x10000 + 44 - 0x10000) with 44. change (0x10000 + 45 - 0x10000) with 45. rewrite E3, Nat2Z.id.
    rewrite (u32_small (0x10000 + phoff)) by lia. rewrite u32_small by lia.
    erewrite bind_Ok by exact El. erewrite bind_Ok; [reflexivity|]. rewrite <-E2.
    apply header_word; [|lia|lia]. intros x Hx. rewrite Hsame; [by apply Hh|].
    eapply Forall_impl; [exact Hok|]. intros g Hg. destruct (so_scratch _ _ Hg); unfold touches; lia.
  - intros x Hx Hxs. rewrite Hsame by done. by apply Hsame1.
Qed.

(** An image without the magic number is not entered. *)
Lemma bootmain_rejects s :
  mapped (k_mem s) 0x10000 4096 → img32 0 ≠ ELF_MAGIC → ∃ s', bootmain s = Ok None s'.
Proof using Hdrive.
  intros Hm Hne. destruct (read_header s Hm) as (s1 & Er & Hh & _). exists s1. unfold bootmain.
  erewrite bind_Ok by exact Er. erewrite bind_Ok by (apply (header_word s1 0); [done|lia|lia]).
  apply Z.eqb_neq in Hne. by rewrite Hne.
Qed.
End drive.
End env.

(** ** A concrete image

    One segment of six bytes in the file and ten in memory, at 1 MB. *)
Definition sample_words : list Z :=
  [0x7F; 0x45; 0x4C; 0x46] ++ replicate 20 0 ++ bytes32 0x100002 ++ bytes32 52 ++ replicate 12 0 ++ [1; 0] ++
  replicate 6 0 ++ bytes32 1 ++ bytes32 1026 ++ bytes32 0 ++ bytes32 0x100002 ++ bytes32 6 ++ bytes32 10.
Definition sample_img (i : Z) : Z :=
  if decide (1026 ≤ i < 1032) then i - 1000
  else if decide (0 ≤ i) then default 0 (sample_words !! Z.to_nat i) else 0.
Definition sample_seg : seg := mk_seg 1026 0x100002 6 10.

#[local] Instance boot_env : Env := {|
  SCHEDULER := RR; swtch_env := id; FUEL := 100; KEND := 0x80110000; KDATA := 0x80108000;
  INITCODE := 0x8010b4e0; INITCODE_SIZE := 44; TRAPRET := 0x80105c80; FORKRET := 0x80103a20;
  DRIVER := MEMIDE; port_in _ _ := 0x40; port_insl _ io := sector sample_img (lba io); mmio_in _ _ := 0;
  spin_env := id; IDT := 0x80114c80; vectors := (λ i, 0x80105ca0 + 9 * i) <$> seqZ 0 256;
  MPENTER := 0x80102e60; ENTRYOTHER := 0x8010b48c; ENTRYOTHER_SIZE := 0x8a; ENTRYPGDIR := 0x80109000 |}.

Lemma sample_drive : drive sample_img.
Proof.
  split.
  - intros io. exists 0%nat. split_and!; [cbn; lia|reflexivity|lia].
  - done.
  - intros i. unfold sample_img. case_decide; [lia|]. case_decide; [|lia].
    destruct (sample_words !! Z.to_nat i) as [b|] eqn:E; [|cbn; lia]. cbn.
    assert (Hf : Forall (λ b, 0 ≤ b < 256) sample_words) by (apply (bool_decide_unpack _); vm_compute; exact I).
    rewrite Forall_forall in Hf. apply Hf. by eapply list_elem_of_lookup_2.
Qed.

Definition empty_memory : kernel :=
  set_k_mem (mem_write 0x10000 (replicate 4096 0) (mem_write 0x100000 (replicate 512 0) ∅)) zero_kernel.

Lemma bootmain_loads_witness :
  ∃ s', bootmain empty_memory = Ok (Some 0x100002) s' ∧ k_mem s' !! 0x100002 = Some 26 ∧
    k_mem s' !! 0x10000b = Some 0.
Proof.
  destruct (bootmain_loads sample_img sample_drive empty_memory 0x100002 [sample_seg]) as (s' & E & Hl & _).
  - split; [reflexivity|reflexivity|reflexivity|discriminate|].
    intros [|[|i]] g [= <-]. split; reflexivity.
  - intros x Hx. cbn [k_mem empty_memory set_k_mem]. rewrite lookup_mem_write, length_replicate, decide_True by lia.
    apply lookup_lt_is_Some_2. rewrite length_replicate. lia.
  - constructor; [|constructor]. split; [done|done|done|reflexivity| |right; discriminate].
    intros x Hx. unfold touches in Hx. change (seg_lo sample_seg) with 0x100000 in Hx.
    change (seg_hi sample_seg) with 0x100200 in Hx.
    cbn [k_mem empty_memory set_k_mem]. rewrite lookup_mem_write, length_replicate, decide_False by lia.
    rewrite lookup_mem_write, length_replicate, decide_True by lia.
    apply lookup_lt_is_Some_2. rewrite length_replicate. lia.
  - split; [constructor|exact I].
  - exists s'. split; [exact E|]. apply Forall_cons in Hl as [Hl _]. split.
    + pose proof (Hl 0) as H0. apply H0. split; [discriminate|reflexivity].
    + pose proof (Hl 9) as H9. apply H9. split; [discriminate|reflexivity].
Defined.
