(* ===== verification/Ide.v ===== *)
(** * Ide: the two disk drivers, ide.c and memide.c

    memide.c copies blocks to and from a disk in memory ([k_disk]).  ide.c drives
    the controller through I/O ports and waits for its interrupt. *)

From stdpp Require Import base numbers gmap strings option list.
From S2P Require Import Prelude Format Machine Mlfq ProcCore Sleeplock Apic.
Local Open Scope kernel_scope.
Local Open Scope Z_scope.

Definition B_VALID : Z := 0x2.
Definition B_DIRTY : Z := 0x4.

Definition buf_at (b : nat) : K buf := λ s,
  match k_bcache s !! b with
  | Some r => Ok r s
  | None => Undef "buffer pointer"
  end.
Definition upd_buf (b : nat) (f : buf → buf) : K unit := λ s,
  match k_bcache s !! b with
  | Some r => Ok tt (set_k_bcache (<[b := f r]> (k_bcache s)) s)
  | None => Undef "buffer pointer"
  end.
(** [(b->flags & bit) != 0], [b->flags |= bit], [b->flags &= ~bit] *)
Definition flag_is (bit : Z) (b : buf) : bool := negb (Z.land (b_flags b) bit =? 0).
Definition flag_set (bit : Z) (b : buf) : buf := set_b_flags (Z.lor (b_flags b) bit) b.
Definition flag_clear (bit : Z) (b : buf) : buf := set_b_flags (Z.land (b_flags b) (Z.lnot bit)) b.

Abbreviation SECTOR_SIZE := (512)%Z (only parsing).
Abbreviation IDE_BSY := (0x80)%Z (only parsing).
Abbreviation IDE_DRDY := (0x40)%Z (only parsing).
Abbreviation IDE_DF := (0x20)%Z (only parsing).
Abbreviation IDE_ERR := (0x01)%Z (only parsing).
Abbreviation IDE_CMD_READ := (0x20)%Z (only parsing).
Abbreviation IDE_CMD_WRITE := (0x30)%Z (only parsing).

Section env.
Context `{Env}.

(** ** memide.c *)

(** [disksize] is the number of blocks of the image. *)
Definition memide_iderw (b : nat) : K unit :=
  let! h := holdingsleep (SL_buf b) in
  if negb h then panic "iderw: buf not locked"
  else
    let! bp := buf_at b in
    if Z.land (b_flags bp) (Z.lor B_VALID B_DIRTY) =? B_VALID then panic "iderw: nothing to do"
    else if negb (b_dev bp =? 1) then panic "iderw: request not for disk 1"
    else
      let! disk := gets k_disk in
      if Z.of_nat (length disk) <=? b_blockno bp then panic "iderw: block out of range"
      else
        (if flag_is B_DIRTY bp then
           upd_buf b (flag_clear B_DIRTY) ;;
           modify (λ s, set_k_dwrites ((b_blockno bp, b_data bp) :: k_dwrites s)
             (set_k_disk (<[Z.to_nat (b_blockno bp) := b_data bp]> (k_disk s)) s))
         else
           let! data := arr_get disk (b_blockno bp) in
           upd_buf b (set_b_data data)) ;;
        upd_buf b (flag_set B_VALID).

(** ** ide.c *)


Definition idewait (checkerr : bool) : K Z :=
  loop FUEL (λ _ : unit,
    let! r := inb 0x1f7 in
    if negb (Z.land r (Z.lor IDE_BSY IDE_DRDY) =? IDE_DRDY) then ret (inl tt)
    else if checkerr && negb (Z.land r (Z.lor IDE_DF IDE_ERR) =? 0) then ret (inr (-1))
    else ret (inr 0)) tt.

Definition ide_ideinit : K unit :=
  let! h := gets k_hw in
  ioapicenable IRQ_IDE (h_ncpu h - 1) ;;
  idewait false ;;
  outb 0x1f6 (Z.lor 0xe0 (Z.shiftl 1 4)) ;;
  for_find (seqZ 0 1000) (λ _,
    let! r := inb 0x1f7 in
    if negb (r =? 0) then
      modify (set_k_havedisk1 true) ;;
      ret (Some tt)
    else ret None) ;;
  outb 0x1f6 (Z.lor 0xe0 (Z.shiftl 0 4)).

Definition idestart (b : option nat) : K unit :=
  match b with
  | None => panic "idestart"
  | Some b =>
      let! bp := buf_at b in
      if FSSIZE <=? b_blockno bp then panic "incorrect blockno"
      else
        let sector_per_block := BSIZE / SECTOR_SIZE in
        let sector := i32 (b_blockno bp * sector_per_block) in
        if 7 <? sector_per_block then panic "idestart"
        else
          idewait false ;;
          outb 0x3f6 0 ;;
          outb 0x1f2 sector_per_block ;;
          outb 0x1f3 (Z.land sector 0xff) ;;
          outb 0x1f4 (Z.land (Z.shiftr sector 8) 0xff) ;;
          outb 0x1f5 (Z.land (Z.shiftr sector 16) 0xff) ;;
          outb 0x1f6 (Z.lor (Z.lor 0xe0 (Z.shiftl (Z.land (b_dev bp) 1) 4))
                            (Z.land (Z.shiftr sector 24) 0x0f)) ;;
          if flag_is B_DIRTY bp then
            outb 0x1f7 IDE_CMD_WRITE ;;
            outsl 0x1f0 (b_data bp) (BSIZE / 4)
          else outb 0x1f7 IDE_CMD_READ
  end.

Definition ideintr : K unit :=
  acquire LK_ide ;;
  let! q := gets k_idequeue in
  match q with
  | None => release LK_ide
  | Some b =>
      let! bp := buf_at b in
      modify (set_k_idequeue (b_qnext bp)) ;;
      (if negb (flag_is B_DIRTY bp) then
         let! r := idewait true in
         when (0 <=? r) (
           let! data := insl 0x1f0 (BSIZE / 4) in
           upd_buf b (set_b_data data))
       else ret tt) ;;
      upd_buf b (flag_set B_VALID) ;;
      upd_buf b (flag_clear B_DIRTY) ;;
      wakeup (CH_buf b) ;;
      let! q := gets k_idequeue in
      match q with
      | Some _ => idestart q
      | None => ret tt
      end ;;
      release LK_ide
  end.

(** [for(pp=&idequeue; *pp; pp=&( *pp )->qnext) ; *pp = b;] *)
Definition ide_append (b : nat) : K unit :=
  let! q := gets k_idequeue in
  match q with
  | None => modify (set_k_idequeue (Some b))
  | Some q0 =>
      loop (S NBUF) (λ c,
        let! bp := buf_at c in
        match b_qnext bp with
        | Some c' => ret (inl c')
        | None => upd_buf c (set_b_qnext (Some b)) ;; ret (inr tt)
        end) q0
  end.

Definition ide_iderw (b : nat) : K unit :=
  let! h := holdingsleep (SL_buf b) in
  if negb h then panic "iderw: buf not locked"
  else
    let! bp := buf_at b in
    if Z.land (b_flags bp) (Z.lor B_VALID B_DIRTY) =? B_VALID then panic "iderw: nothing to do"
    else
      let! havedisk1 := gets k_havedisk1 in
      if negb (b_dev bp =? 0) && negb havedisk1 then panic "iderw: ide disk 1 not present"
      else
        acquire LK_ide ;;
        upd_buf b (set_b_qnext None) ;;
        ide_append b ;;
        let! q := gets k_idequeue in
        when (bool_decide (q = Some b)) (idestart (Some b)) ;;
        loop FUEL (λ _ : unit,
          let! bp := buf_at b in
          if negb (Z.land (b_flags bp) (Z.lor B_VALID B_DIRTY) =? B_VALID) then
            sleep (CH_buf b) (Some LK_ide) ;;
            ret (inl tt)
          else ret (inr tt)) tt ;;
        release LK_ide.

(** The driver the image is linked with.  memide.c's [ideinit] only notes where the
    linker put the image, which is [k_disk]. *)
Definition ideinit : K unit :=
  match DRIVER with
  | IDE => ide_ideinit
  | MEMIDE => ret tt
  end.
Definition iderw (b : nat) : K unit :=
  match DRIVER with
  | IDE => ide_iderw b
  | MEMIDE => memide_iderw b
  end.
End env.
