(* ===== verification/Bio.v ===== *)
(** * Bio: the buffer cache of bio.c

    [bcache.buf[NBUF]] and [bcache.head] are the elements of [k_bcache], the head
    last; [prev] and [next] are indices, and the list operations are the pointer
    assignments of the source. *)

From stdpp Require Import base numbers gmap strings option list.
From S2P Require Import Prelude Format Machine Mlfq ProcCore Sleeplock Ide.
Local Open Scope kernel_scope.
Local Open Scope Z_scope.

(** [&bcache.head] *)
Definition bhead : nat := NBUF.

Definition binit : K unit :=
  upd_buf bhead (set_b_prev bhead) ;;
  upd_buf bhead (set_b_next bhead) ;;
  for_each (seq 0 NBUF) (λ b,
    let! h := buf_at bhead in
    upd_buf b (set_b_next (b_next h)) ;;
    upd_buf b (set_b_prev bhead) ;;
    initsleeplock (SL_buf b) ;;
    let! h := buf_at bhead in
    upd_buf (b_next h) (set_b_prev b) ;;
    upd_buf bhead (set_b_next b)).

(** [for(b = step(head); b != &bcache.head; b = step(b)) if(test(b)) break;] *)
Definition bscan (step : buf → nat) (test : buf → bool) : K (option nat) :=
  let! h := buf_at bhead in
  loop (S NBUF) (λ b,
    if bool_decide (b = bhead) then ret (inr None)
    else
      let! bp := buf_at b in
      if test bp then ret (inr (Some b)) else ret (inl (step bp))) (step h).

Section env.
Context `{Env}.

Definition bget (dev blockno : Z) : K nat :=
  acquire LK_bcache ;;
  let! r := bscan b_next (λ b, (b_dev b =? dev) && (b_blockno b =? blockno)) in
  match r with
  | Some b =>
      upd_buf b (λ b, set_b_refcnt (b_refcnt b + 1) b) ;;
      release LK_bcache ;;
      acquiresleep (SL_buf b) ;;
      ret b
  | None =>
      let! r := bscan b_prev (λ b, (b_refcnt b =? 0) && negb (flag_is B_DIRTY b)) in
      match r with
      | Some b =>
          upd_buf b (set_b_dev dev) ;;
          upd_buf b (set_b_blockno blockno) ;;
          upd_buf b (set_b_flags 0) ;;
          upd_buf b (set_b_refcnt 1) ;;
          release LK_bcache ;;
          acquiresleep (SL_buf b) ;;
          ret b
      | None => panic "bget: no buffers"
      end
  end.

Definition bread (dev blockno : Z) : K nat :=
  let! b := bget dev blockno in
  let! bp := buf_at b in
  when (negb (flag_is B_VALID bp)) (iderw b) ;;
  ret b.

Definition bwrite (b : nat) : K unit :=
  let! h := holdingsleep (SL_buf b) in
  if negb h then panic "bwrite"
  else
    upd_buf b (flag_set B_DIRTY) ;;
    iderw b.

Definition brelse (b : nat) : K unit :=
  let! h := holdingsleep (SL_buf b) in
  if negb h then panic "brelse"
  else
    releasesleep (SL_buf b) ;;
    acquire LK_bcache ;;
    upd_buf b (λ b, set_b_refcnt (b_refcnt b - 1) b) ;;
    let! bp := buf_at b in
    when (b_refcnt bp =? 0) (
      upd_buf (b_next bp) (set_b_prev (b_prev bp)) ;;
      upd_buf (b_prev bp) (set_b_next (b_next bp)) ;;
      let! h := buf_at bhead in
      upd_buf b (set_b_next (b_next h)) ;;
      upd_buf b (set_b_prev bhead) ;;
      let! h := buf_at bhead in
      upd_buf (b_next h) (set_b_prev b) ;;
      upd_buf bhead (set_b_next b)) ;;
    release LK_bcache.
End env.

(** ** Words in a block *)

Definition get32 (l : list Z) (off : nat) : Z :=
  nth off l 0 + 2 ^ 8 * nth (off + 1) l 0 + 2 ^ 16 * nth (off + 2) l 0 + 2 ^ 24 * nth (off + 3) l 0.
Definition get16 (l : list Z) (off : nat) : Z := nth off l 0 + 2 ^ 8 * nth (off + 1) l 0.

(** [l] with the bytes [bs] written at [off]; [memmove(l + off, bs, ...)]. *)
Definition splice (off : nat) (bs l : list Z) : list Z :=
  take off l ++ bs ++ drop (off + length bs) l.
Definition put32 (l : list Z) (off : nat) (v : Z) : list Z :=
  splice off [u8 v; u8 (Z.shiftr v 8); u8 (Z.shiftr v 16); u8 (Z.shiftr v 24)] l.
Definition put16 (l : list Z) (off : nat) (v : Z) : list Z :=
  splice off [u8 v; u8 (Z.shiftr v 8)] l.
