(* ===== verification/Log.v ===== *)
(** * Log: the write-ahead log of log.c

    System calls bracket their disk updates with [begin_op] and [end_op]; the
    last one to finish commits: it copies the modified blocks to the log, writes
    the header (the commit point), installs the blocks at their home locations,
    and erases the header. *)

From stdpp Require Import base numbers gmap strings option list.
From S2P Require Import Prelude Format Machine Mlfq ProcCore Sleeplock Ide Bio.
Local Open Scope kernel_scope.
Local Open Scope Z_scope.

Definition upd_log (f : log → log) : K unit := modify (λ s, set_k_log (f (k_log s)) s).

(** The on-disk header: [struct logheader] at the start of a block. *)
Definition hdr_n (data : list Z) : Z := i32 (get32 data 0).
Definition hdr_block (data : list Z) (i : Z) : Z := i32 (get32 data (Z.to_nat (4 + 4 * i))).
Definition hdr_put_n (v : Z) (data : list Z) : list Z := put32 data 0 v.
Definition hdr_put_block (i v : Z) (data : list Z) : list Z :=
  put32 data (Z.to_nat (4 + 4 * i)) v.
(** [log.lh.block[i] = v] *)
Definition set_lh_entry (i v : Z) : K unit :=
  let! l := gets k_log in
  let! _ := arr_get (lh_block l) i in
  upd_log (λ l, set_lh_block (<[Z.to_nat i := v]> (lh_block l)) l).

(** [sizeof(struct logheader)] *)
Definition sizeof_logheader : Z := 4 + 4 * LOGSIZE.

Section env.
Context `{Env}.

(** [readsb] of fs.c *)
Definition readsb (dev : Z) : K superblock :=
  let! b := bread dev 1 in
  let! bp := buf_at b in
  let d := b_data bp in
  let sb := mk_superblock (get32 d 0) (get32 d 4) (get32 d 8) (get32 d 12) (get32 d 16)
              (get32 d 20) (get32 d 24) in
  brelse b ;;
  ret sb.

(** [for (tail = 0; tail < log.lh.n; tail++)]: [log.lh.n] is read before every iteration.
    The fuel is enough: [log.lh.block[tail]] is out of range for [tail = LOGSIZE]. *)
Definition for_tail (body : Z → K unit) : K unit :=
  loop (2 + Z.to_nat LOGSIZE) (λ tail,
    let! l := gets k_log in
    if negb (tail <? lh_n l) then ret (inr tt)
    else
      body tail ;;
      ret (inl (tail + 1))) 0.

Definition install_trans : K unit :=
  for_tail (λ tail,
    let! l := gets k_log in
    let! lbuf := bread (l_dev l) (u32 (l_start l + tail + 1)) in
    let! l := gets k_log in
    let! blk := arr_get (lh_block l) tail in
    let! dbuf := bread (l_dev l) (u32 blk) in
    let! lb := buf_at lbuf in
    upd_buf dbuf (set_b_data (b_data lb)) ;;
    bwrite dbuf ;;
    brelse lbuf ;;
    brelse dbuf).

Definition read_head : K unit :=
  let! l := gets k_log in
  let! buf := bread (l_dev l) (u32 (l_start l)) in
  let! bp := buf_at buf in
  upd_log (set_lh_n (hdr_n (b_data bp))) ;;
  for_each (seqZ 0 (hdr_n (b_data bp))) (λ i, set_lh_entry i (hdr_block (b_data bp) i)) ;;
  brelse buf.

Definition write_head : K unit :=
  let! l := gets k_log in
  let! buf := bread (l_dev l) (u32 (l_start l)) in
  let! l := gets k_log in
  upd_buf buf (λ b, set_b_data (hdr_put_n (lh_n l) (b_data b)) b) ;;
  for_each (seqZ 0 (lh_n l)) (λ i,
    let! v := arr_get (lh_block l) i in
    upd_buf buf (λ b, set_b_data (hdr_put_block i v (b_data b)) b)) ;;
  bwrite buf ;;
  brelse buf.

Definition recover_from_log : K unit :=
  read_head ;;
  install_trans ;;
  upd_log (set_lh_n 0) ;;
  write_head.

Definition initlog (dev : Z) : K unit :=
  if BSIZE <=? sizeof_logheader then panic "initlog: too big logheader"
  else
    let! sb := readsb dev in
    upd_log (set_l_start (i32 (sb_logstart sb))) ;;
    upd_log (set_l_size (i32 (sb_nlog sb))) ;;
    upd_log (set_l_dev dev) ;;
    recover_from_log.

Definition begin_op : K unit :=
  acquire LK_log ;;
  loop FUEL (λ _ : unit,
    let! l := gets k_log in
    if l_committing l then
      sleep CH_log (Some LK_log) ;;
      ret (inl tt)
    else if LOGSIZE <? lh_n l + (l_outstanding l + 1) * MAXOPBLOCKS then
      sleep CH_log (Some LK_log) ;;
      ret (inl tt)
    else
      upd_log (set_l_outstanding (l_outstanding l + 1)) ;;
      release LK_log ;;
      ret (inr tt)) tt.

Definition write_log : K unit :=
  for_tail (λ tail,
    let! l := gets k_log in
    let! to := bread (l_dev l) (u32 (l_start l + tail + 1)) in
    let! l := gets k_log in
    let! blk := arr_get (lh_block l) tail in
    let! from := bread (l_dev l) (u32 blk) in
    let! fb := buf_at from in
    upd_buf to (set_b_data (b_data fb)) ;;
    bwrite to ;;
    brelse from ;;
    brelse to).

Definition commit : K unit :=
  let! l := gets k_log in
  when (0 <? lh_n l) (
    write_log ;;
    write_head ;;
    install_trans ;;
    upd_log (set_lh_n 0) ;;
    write_head).

Definition end_op : K unit :=
  acquire LK_log ;;
  upd_log (λ l, set_l_outstanding (l_outstanding l - 1) l) ;;
  let! l := gets k_log in
  if l_committing l then panic "log.committing"
  else
    let do_commit := l_outstanding l =? 0 in
    (if do_commit then upd_log (set_l_committing true)
     else wakeup CH_log) ;;
    release LK_log ;;
    when do_commit (
      commit ;;
      acquire LK_log ;;
      upd_log (set_l_committing false) ;;
      wakeup CH_log ;;
      release LK_log).

(** The absorption loop: the position of [blockno] in the header, or [n]. *)
Definition log_slot (blockno : Z) : K Z :=
  let! l := gets k_log in
  let! r := for_find (seqZ 0 (lh_n l)) (λ i,
    let! v := arr_get (lh_block l) i in
    ret (if u32 v =? blockno then Some i else None)) in
  ret (default (lh_n l) r).

Definition log_write (b : nat) : K unit :=
  let! l := gets k_log in
  if (LOGSIZE <=? lh_n l) || (l_size l - 1 <=? lh_n l) then panic "too big a transaction"
  else if l_outstanding l <? 1 then panic "log_write outside of trans"
  else
    acquire LK_log ;;
    let! bp := buf_at b in
    let! i := log_slot (b_blockno bp) in
    set_lh_entry i (i32 (b_blockno bp)) ;;
    let! l := gets k_log in
    when (i =? lh_n l) (upd_log (set_lh_n (lh_n l + 1))) ;;
    upd_buf b (flag_set B_DIRTY) ;;
    release LK_log.
End env.
