(* ===== verification/Inode.v ===== *)
(** * Inode: blocks and inodes (the first half of fs.c)

    The free-block bitmap ([balloc], [bfree]), inode allocation, the inode cache
    ([iget], [ilock], [iput], ...), and the mapping from file blocks to disk
    blocks ([bmap], [itrunc]).  Pointers to inodes are indices into [k_icache]. *)

From stdpp Require Import base numbers gmap strings option list.
From S2P Require Import Prelude Format Machine Mlfq ProcCore Sleeplock Ide Bio Log.
Local Open Scope kernel_scope.
Local Open Scope Z_scope.

Definition T_DIR : Z := 1.
Definition T_FILE : Z := 2.
Definition T_DEV : Z := 3.
(** fs.h: bitmap bits per block, inodes per block, and where they live. *)
Definition BPB : Z := BSIZE * 8.
Definition sizeof_dinode : Z := 64.
Definition IPB : Z := BSIZE / sizeof_dinode.
Definition IBLOCK (i : Z) (sb : superblock) : Z := u32 (i / IPB + sb_inodestart sb).
Definition BBLOCK (b : Z) (sb : superblock) : Z := u32 (b / BPB + sb_bmapstart sb).
Definition MAXFILE : Z := Z.of_nat (NDIRECT + NINDIRECT).

Definition inode_at (ip : nat) : K inode := λ s,
  match k_icache s !! ip with
  | Some r => Ok r s
  | None => Undef "inode pointer"
  end.
Definition upd_inode (ip : nat) (f : inode → inode) : K unit := λ s,
  match k_icache s !! ip with
  | Some r => Ok tt (set_k_icache (<[ip := f r]> (k_icache s)) s)
  | None => Undef "inode pointer"
  end.

(** The inode fields of [struct dinode] at byte [off] of a block. *)
Definition dinode_off (inum : Z) : nat := Z.to_nat (inum mod IPB * sizeof_dinode).
Definition read_dinode (d : list Z) (off : nat) (ip : inode) : inode :=
  set_i_type (i16 (get16 d off))
    (set_i_major (i16 (get16 d (off + 2)))
      (set_i_minor (i16 (get16 d (off + 4)))
        (set_i_nlink (i16 (get16 d (off + 6)))
          (set_i_size (get32 d (off + 8))
            (set_i_addrs ((λ k, get32 d (off + 12 + 4 * k)) <$> seq 0 (NDIRECT + 1)) ip))))).
Definition write_dinode (ip : inode) (off : nat) (d : list Z) : list Z :=
  let d := put16 d off (i_type ip) in
  let d := put16 d (off + 2) (i_major ip) in
  let d := put16 d (off + 4) (i_minor ip) in
  let d := put16 d (off + 6) (i_nlink ip) in
  let d := put32 d (off + 8) (i_size ip) in
  foldl (λ d '(k, a), put32 d (off + 12 + 4 * k) a) d (imap pair (i_addrs ip)).

(** [bp->data[bi/8] & m] with [m = 1 << (bi % 8)] *)
Definition bit_mask (bi : Z) : Z := Z.shiftl 1 (bi mod 8).
Definition bitmap_get (d : list Z) (bi : Z) : bool :=
  negb (Z.land (nth (Z.to_nat (bi / 8)) d 0) (bit_mask bi) =? 0).
Definition bitmap_set (bi : Z) (d : list Z) : list Z :=
  <[Z.to_nat (bi / 8) := Z.lor (nth (Z.to_nat (bi / 8)) d 0) (bit_mask bi)]> d.
Definition bitmap_clear (bi : Z) (d : list Z) : list Z :=
  <[Z.to_nat (bi / 8) := Z.land (nth (Z.to_nat (bi / 8)) d 0) (Z.lnot (bit_mask bi))]> d.

Section env.
Context `{Env}.

Definition bzero (dev bno : Z) : K unit :=
  let! b := bread dev bno in
  upd_buf b (set_b_data (replicate (Z.to_nat BSIZE) 0)) ;;
  log_write b ;;
  brelse b.

(** The body of the loop over the bitmap blocks: the first clear bit of the block
    that holds the bits from [b] on. *)
Definition balloc_block (dev : Z) (sb : superblock) (b : Z) : K (option Z) :=
  let! bp := bread dev (BBLOCK b sb) in
  let! r := for_find (seqZ 0 (Z.min BPB (sb_size sb - b))) (λ bi,
    let! d := buf_at bp in
    if negb (bitmap_get (b_data d) bi) then
      upd_buf bp (λ d, set_b_data (bitmap_set bi (b_data d)) d) ;;
      log_write bp ;;
      brelse bp ;;
      bzero dev (b + bi) ;;
      ret (Some (b + bi))
    else ret None) in
  match r with
  | Some a => ret (Some a)
  | None => brelse bp ;; ret None
  end.
Definition balloc (dev : Z) : K Z :=
  let! sb := gets k_sb in
  let! r := for_find ((λ k, k * BPB) <$> seqZ 0 ((sb_size sb + BPB - 1) / BPB)) (balloc_block dev sb) in
  match r with
  | Some a => ret a
  | None => panic "balloc: out of blocks"
  end.

Definition bfree (dev b : Z) : K unit :=
  let! sb := gets k_sb in
  let! bp := bread dev (BBLOCK b sb) in
  let bi := b mod BPB in
  let! d := buf_at bp in
  if negb (bitmap_get (b_data d) bi) then panic "freeing free block"
  else
    upd_buf bp (λ d, set_b_data (bitmap_clear bi (b_data d)) d) ;;
    log_write bp ;;
    brelse bp.

Definition iinit (dev : Z) : K unit :=
  for_each (seq 0 NINODE) (λ i, initsleeplock (SL_inode i)) ;;
  let! sb := readsb dev in
  modify (set_k_sb sb) ;;
  cprintf "sb: size %d nblocks %d ninodes %d nlog %d logstart %d inodestart %d bmap start %d\n"
    [PInt (sb_size sb); PInt (sb_nblocks sb); PInt (sb_ninodes sb); PInt (sb_nlog sb);
     PInt (sb_logstart sb); PInt (sb_inodestart sb); PInt (sb_bmapstart sb)].

(** The scan of [iget]: the entry for (dev, inum), or the first free entry. *)
Fixpoint iget_scan (dev inum : Z) (l : list nat) (empty : option nat) : K (nat + option nat) :=
  match l with
  | [] => ret (inr empty)
  | ip :: l' =>
      let! i := inode_at ip in
      if (0 <? i_ref i) && (i_dev i =? dev) && (i_inum i =? inum) then ret (inl ip)
      else iget_scan dev inum l'
             (if bool_decide (empty = None) && (i_ref i =? 0) then Some ip else empty)
  end.

Definition iget (dev inum : Z) : K nat :=
  acquire LK_icache ;;
  let! r := iget_scan dev inum (seq 0 NINODE) None in
  match r with
  | inl ip =>
      upd_inode ip (λ i, set_i_ref (i_ref i + 1) i) ;;
      release LK_icache ;;
      ret ip
  | inr None => panic "iget: no inodes"
  | inr (Some ip) =>
      upd_inode ip (set_i_dev dev) ;;
      upd_inode ip (set_i_inum inum) ;;
      upd_inode ip (set_i_ref 1) ;;
      upd_inode ip (set_i_valid false) ;;
      release LK_icache ;;
      ret ip
  end.

Definition ialloc (dev type : Z) : K nat :=
  let! sb := gets k_sb in
  let! r := for_find (seqZ 1 (sb_ninodes sb - 1)) (λ inum,
    let! bp := bread dev (IBLOCK inum sb) in
    let! d := buf_at bp in
    let off := dinode_off inum in
    if get16 (b_data d) off =? 0 then
      upd_buf bp (λ d, set_b_data (put16
        (splice off (replicate (Z.to_nat sizeof_dinode) 0) (b_data d)) off type) d) ;;
      log_write bp ;;
      brelse bp ;;
      let! ip := iget dev inum in
      ret (Some ip)
    else
      brelse bp ;;
      ret None) in
  match r with
  | Some ip => ret ip
  | None => panic "ialloc: no inodes"
  end.

Definition iupdate (ip : nat) : K unit :=
  let! i := inode_at ip in
  let! sb := gets k_sb in
  let! bp := bread (i_dev i) (IBLOCK (i_inum i) sb) in
  let! i := inode_at ip in
  upd_buf bp (λ d, set_b_data (write_dinode i (dinode_off (i_inum i)) (b_data d)) d) ;;
  log_write bp ;;
  brelse bp.

Definition idup (ip : option nat) : K (option nat) :=
  acquire LK_icache ;;
  let! i := deref ip in
  upd_inode i (λ i, set_i_ref (i_ref i + 1) i) ;;
  release LK_icache ;;
  ret ip.

Definition ilock (ip : option nat) : K unit :=
  match ip with
  | None => panic "ilock"
  | Some ip =>
      let! i := inode_at ip in
      if i_ref i <? 1 then panic "ilock"
      else
        acquiresleep (SL_inode ip) ;;
        let! i := inode_at ip in
        when (negb (i_valid i)) (
          let! sb := gets k_sb in
          let! bp := bread (i_dev i) (IBLOCK (i_inum i) sb) in
          let! d := buf_at bp in
          upd_inode ip (read_dinode (b_data d) (dinode_off (i_inum i))) ;;
          brelse bp ;;
          upd_inode ip (set_i_valid true) ;;
          let! i := inode_at ip in
          if i_type i =? 0 then panic "ilock: no type" else ret tt)
  end.

Definition iunlock (ip : option nat) : K unit :=
  match ip with
  | None => panic "iunlock"
  | Some ip =>
      let! h := holdingsleep (SL_inode ip) in
      if negb h then panic "iunlock"
      else
        let! i := inode_at ip in
        if i_ref i <? 1 then panic "iunlock"
        else releasesleep (SL_inode ip)
  end.

(** [ip->addrs[k]] and its assignment *)
Definition addr_at (ip : nat) (k : Z) : K Z :=
  let! i := inode_at ip in arr_get (i_addrs i) k.
Definition set_addr (ip : nat) (k a : Z) : K unit :=
  upd_inode ip (λ i, set_i_addrs (<[Z.to_nat k := a]> (i_addrs i)) i).

Definition bmap (ip : nat) (bn : Z) : K Z :=
  let! i := inode_at ip in
  if bn <? Z.of_nat NDIRECT then
    let! addr := addr_at ip bn in
    if addr =? 0 then
      let! addr := balloc (i_dev i) in
      set_addr ip bn addr ;;
      ret addr
    else ret addr
  else
    let bn := bn - Z.of_nat NDIRECT in
    if bn <? Z.of_nat NINDIRECT then
      let! addr := addr_at ip (Z.of_nat NDIRECT) in
      let! addr := (if addr =? 0 then
                      let! addr := balloc (i_dev i) in
                      set_addr ip (Z.of_nat NDIRECT) addr ;;
                      ret addr
                    else ret addr) in
      let! bp := bread (i_dev i) addr in
      let! d := buf_at bp in
      let addr := get32 (b_data d) (Z.to_nat (4 * bn)) in
      let! addr := (if addr =? 0 then
                      let! addr := balloc (i_dev i) in
                      upd_buf bp (λ d, set_b_data (put32 (b_data d) (Z.to_nat (4 * bn)) addr) d) ;;
                      log_write bp ;;
                      ret addr
                    else ret addr) in
      brelse bp ;;
      ret addr
    else panic "bmap: out of range".

Definition itrunc (ip : nat) : K unit :=
  let! i := inode_at ip in
  let dev := i_dev i in
  for_each (seqZ 0 (Z.of_nat NDIRECT)) (λ k,
    let! a := addr_at ip k in
    when (negb (a =? 0)) (
      bfree dev a ;;
      set_addr ip k 0)) ;;
  let! ind := addr_at ip (Z.of_nat NDIRECT) in
  when (negb (ind =? 0)) (
    let! bp := bread dev ind in
    for_each (seqZ 0 (Z.of_nat NINDIRECT)) (λ j,
      let! d := buf_at bp in
      let a := get32 (b_data d) (Z.to_nat (4 * j)) in
      when (negb (a =? 0)) (bfree dev a)) ;;
    brelse bp ;;
    bfree dev ind ;;
    set_addr ip (Z.of_nat NDIRECT) 0) ;;
  upd_inode ip (set_i_size 0) ;;
  iupdate ip.

Definition iput (ip : option nat) : K unit :=
  let! ip := deref ip in
  acquiresleep (SL_inode ip) ;;
  let! i := inode_at ip in
  when (i_valid i && (i_nlink i =? 0)) (
    acquire LK_icache ;;
    let! i := inode_at ip in
    let r := i_ref i in
    release LK_icache ;;
    when (r =? 1) (
      itrunc ip ;;
      upd_inode ip (set_i_type 0) ;;
      iupdate ip ;;
      upd_inode ip (set_i_valid false))) ;;
  releasesleep (SL_inode ip) ;;
  acquire LK_icache ;;
  upd_inode ip (λ i, set_i_ref (i_ref i - 1) i) ;;
  release LK_icache.

Definition iunlockput (ip : option nat) : K unit :=
  iunlock ip ;;
  iput ip.

(** [struct stat]: type, dev, ino, nlink, size *)
Definition stati (ip : nat) : K (Z * Z * Z * Z * Z) :=
  let! i := inode_at ip in
  ret (i_type i, i32 (i_dev i), i_inum i, i_nlink i, i_size i).
End env.
