(* ===== verification/Console.v ===== *)
(** * Console: console.c, kbd.c and the printing functions

    Line-edited console input ([consoleintr], [consoleread]), console output, the
    keyboard translation of kbd.c, and [procdump].  A character that goes to the screen
    and the serial line is an entry of [k_out]; [Screen] has the register accesses of
    [cgaputc] and [uartputc]. *)

From stdpp Require Import base numbers gmap strings option list.
From S2P Require Import Prelude Format Machine Mem Mlfq ProcCore Sleeplock Apic Ide Bio Log Inode.
Local Open Scope kernel_scope.
Local Open Scope Z_scope.

(** ** Output *)

Definition BACKSPACE : Z := 0x100.
(** [consputc]: the character reaches the screen and the serial line. *)
Definition consputc (c : Z) : K unit := modify (λ s, set_k_out (c :: k_out s) s).

(** ** procdump *)

(** [getcallerpcs] of spinlock.c: follow the saved %ebp chain. *)
Definition getcallerpcs (v : Z) : K (list Z) :=
  let! r := loop 11 (λ '(i, ebp, pcs),
    if (i =? 10) || (ebp =? 0) || (ebp <? KERNBASE) || (ebp =? 0xffffffff) then ret (inr pcs)
    else
      let! pc := load32 (ebp + 4) in
      let! ebp' := load32 ebp in
      ret (inl (i + 1, ebp', pcs ++ [pc]))) (0, v - 8, []) in
  ret (r ++ replicate (10 - length r) 0).

Definition state_name (st : procstate) : string :=
  match st with
  | UNUSED => "unused"
  | EMBRYO => "embryo"
  | SLEEPING => "sleep "
  | RUNNABLE => "runble"
  | RUNNING => "run   "
  | ZOMBIE => "zombie"
  end.

Definition procdump : K unit :=
  for_each slots (λ i,
    let! p := proc_at i in
    if bool_decide (p_state p = UNUSED) then ret tt
    else
      cprintf "%d %s %s" [PInt (p_pid p); PCStr (state_name (p_state p)); PStr (p_name p)] ;;
      when (bool_decide (p_state p = SLEEPING)) (
        let! pc := getcallerpcs (cx_ebp (p_context p) + 8) in
        for_each (take (default 10%nat (fst <$> list_find (λ v, v = 0) pc)) pc) (λ v,
          cprintf " %p" [PInt v])) ;;
      cprintf "\n" []).

(** ** Input *)

Definition upd_input (f : input → input) : K unit := modify (λ s, set_k_input (f (k_input s)) s).
(** [C('P')], [C('U')], [C('H')], [C('D')] *)
Abbreviation CTRL_P := (16)%Z (only parsing).
Abbreviation CTRL_U := (21)%Z (only parsing).
Abbreviation CTRL_H := (8)%Z (only parsing).
Abbreviation CTRL_D := (4)%Z (only parsing).
Definition in_at (i : input) (k : Z) : Z := nth (Z.to_nat (k mod INPUT_BUF)) (in_buf i) 0.

(** The loop of ^U: back to the start of the line, at most INPUT_BUF characters. *)
Definition kill_line : K unit :=
  loop (S (Z.to_nat INPUT_BUF)) (λ _ : unit,
    let! i := gets k_input in
    if negb (in_e i =? in_w i) && negb (in_at i (u32 (in_e i - 1)) =? 10) then
      upd_input (set_in_e (u32 (in_e i - 1))) ;;
      consputc BACKSPACE ;;
      ret (inl tt)
    else ret (inr tt)) tt.

Abbreviation SHIFT := (1)%Z (only parsing).
Abbreviation CTL := (2)%Z (only parsing).
Abbreviation ALT := (4)%Z (only parsing).
Abbreviation CAPSLOCK := (8)%Z (only parsing).
Abbreviation NUMLOCK := (16)%Z (only parsing).
Abbreviation SCROLLLOCK := (32)%Z (only parsing).
Abbreviation E0ESC := (64)%Z (only parsing).

Section env.
Context `{Env}.

(** What [consoleintr] does with one character; the result is [doprocdump]. *)
Definition console_char (c : Z) (doprocdump : bool) : K bool :=
  if c =? CTRL_P then ret true
  else if c =? CTRL_U then kill_line ;; ret doprocdump
  else if (c =? CTRL_H) || (c =? 0x7f) then
    let! i := gets k_input in
    when (negb (in_e i =? in_w i)) (
      upd_input (set_in_e (u32 (in_e i - 1))) ;;
      consputc BACKSPACE) ;;
    ret doprocdump
  else
    let! i := gets k_input in
    when (negb (c =? 0) && (u32 (in_e i - in_r i) <? INPUT_BUF)) (
      let c := if c =? 13 then 10 else c in
      upd_input (λ i, set_in_e (u32 (in_e i + 1))
        (set_in_buf (<[Z.to_nat (in_e i mod INPUT_BUF) := u8 c]> (in_buf i)) i)) ;;
      consputc c ;;
      let! i := gets k_input in
      when ((c =? 10) || (c =? CTRL_D) || (in_e i =? u32 (in_r i + INPUT_BUF))) (
        upd_input (set_in_w (in_e i)) ;;
        wakeup CH_input)) ;;
    ret doprocdump.

Definition consoleintr (getc : K Z) : K unit :=
  acquire LK_cons ;;
  let! doprocdump := loop FUEL (λ d,
    let! c := getc in
    if 0 <=? c then
      let! d := console_char c d in
      ret (inl d)
    else ret (inr d)) false in
  release LK_cons ;;
  when doprocdump procdump.

(** [consoleread]: the count it returns and the bytes stored at [dst]. *)
Definition consoleread (ip : option nat) (n : Z) : K (Z * list Z) :=
  iunlock ip ;;
  let target := n in
  acquire LK_cons ;;
  let! r := loop (FUEL + S (Z.to_nat n)) (λ '(n, got),
    if negb (0 <? n) then ret (inr (Some (n, got)))
    else
      let! i := gets k_input in
      if in_r i =? in_w i then
        let! op := myproc in
        let! p := deref op in
        let! pp := proc_at p in
        if p_killed pp then
          release LK_cons ;;
          ilock ip ;;
          ret (inr None)
        else
          sleep CH_input (Some LK_cons) ;;
          ret (inl (n, got))
      else
        let c := in_at i (in_r i) in
        upd_input (set_in_r (u32 (in_r i + 1))) ;;
        if c =? CTRL_D then
          when (n <? target) (upd_input (set_in_r (in_r i))) ;;
          ret (inr (Some (n, got)))
        else if c =? 10 then ret (inr (Some (n - 1, got ++ [c])))
        else ret (inl (n - 1, got ++ [c]))) (n, []) in
  match r with
  | None => ret (-1, [])
  | Some (n, got) =>
      release LK_cons ;;
      ilock ip ;;
      ret (target - n, got)
  end.

Definition consolewrite (ip : option nat) (buf : list Z) : K Z :=
  iunlock ip ;;
  acquire LK_cons ;;
  for_each buf (λ c, consputc (Z.land c 0xff)) ;;
  release LK_cons ;;
  ilock ip ;;
  ret (Z.of_nat (length buf)).

Definition CONSOLE : nat := 1.
Definition consoleinit : K unit :=
  modify (λ s, set_k_devsw (<[CONSOLE := true]> (k_devsw s)) s) ;;
  modify (set_k_locking true) ;;
  ioapicenable IRQ_KBD 0.

(** ** kbd.c *)

Definition shiftcode (d : Z) : Z :=
  if (d =? 0x1D) || (d =? 0x9D) then CTL
  else if (d =? 0x2A) || (d =? 0x36) then SHIFT
  else if (d =? 0x38) || (d =? 0xB8) then ALT else 0.
Definition togglecode (d : Z) : Z :=
  if d =? 0x3A then CAPSLOCK else if d =? 0x45 then NUMLOCK
  else if d =? 0x46 then SCROLLLOCK else 0.

(** [normalmap[256]] of kbd.h *)
Definition normalmap : list Z :=
  [0; 27; 49; 50; 51; 52; 53; 54; 55; 56; 57; 48; 45; 61; 8; 9;
   113; 119; 101; 114; 116; 121; 117; 105; 111; 112; 91; 93; 10; 0; 97; 115;
   100; 102; 103; 104; 106; 107; 108; 59; 39; 96; 0; 92; 122; 120; 99; 118;
   98; 110; 109; 44; 46; 47; 0; 42; 0; 32; 0; 0; 0; 0; 0; 0;
   0; 0; 0; 0; 0; 0; 0; 55; 56; 57; 45; 52; 53; 54; 43; 49;
   50; 51; 48; 46; 0; 0; 0; 0; 0; 0; 0; 0; 0; 0; 0; 0;
   0; 0; 0; 0; 0; 0; 0; 0; 0; 0; 0; 0; 0; 0; 0; 0;
   0; 0; 0; 0; 0; 0; 0; 0; 0; 0; 0; 0; 0; 0; 0; 0;
   0; 0; 0; 0; 0; 0; 0; 0; 0; 0; 0; 0; 0; 0; 0; 0;
   0; 0; 0; 0; 0; 0; 0; 224; 0; 0; 0; 0; 10; 0; 0; 0;
   0; 0; 0; 0; 0; 0; 0; 0; 0; 0; 0; 0; 0; 0; 0; 0;
   0; 0; 0; 0; 0; 47; 0; 0; 0; 0; 0; 0; 0; 0; 0; 0;
   0; 0; 0; 0; 0; 0; 0; 0; 226; 230; 0; 228; 0; 229; 0; 225;
   227; 231; 232; 233; 0; 0; 0; 0; 0; 0; 0; 0; 0; 0; 0; 0;
   0; 0; 0; 0; 0; 0; 0; 0; 0; 0; 0; 0; 0; 0; 0; 0;
   0; 0; 0; 0; 0; 0; 0; 0; 0; 0; 0; 0; 0; 0; 0; 0].

(** [shiftmap[256]] *)
Definition shiftmap : list Z :=
  [0; 27; 33; 64; 35; 36; 37; 94; 38; 42; 40; 41; 95; 43; 8; 9;
   81; 87; 69; 82; 84; 89; 85; 73; 79; 80; 123; 125; 10; 0; 65; 83;
   68; 70; 71; 72; 74; 75; 76; 58; 34; 126; 0; 124; 90; 88; 67; 86;
   66; 78; 77; 60; 62; 63; 0; 42; 0; 32; 0; 0; 0; 0; 0; 0;
   0; 0; 0; 0; 0; 0; 0; 55; 56; 57; 45; 52; 53; 54; 43; 49;
   50; 51; 48; 46; 0; 0; 0; 0; 0; 0; 0; 0; 0; 0; 0; 0;
   0; 0; 0; 0; 0; 0; 0; 0; 0; 0; 0; 0; 0; 0; 0; 0;
   0; 0; 0; 0; 0; 0; 0; 0; 0; 0; 0; 0; 0; 0; 0; 0;
   0; 0; 0; 0; 0; 0; 0; 0; 0; 0; 0; 0; 0; 0; 0; 0;
   0; 0; 0; 0; 0; 0; 0; 224; 0; 0; 0; 0; 10; 0; 0; 0;
   0; 0; 0; 0; 0; 0; 0; 0; 0; 0; 0; 0; 0; 0; 0; 0;
   0; 0; 0; 0; 0; 47; 0; 0; 0; 0; 0; 0; 0; 0; 0; 0;
   0; 0; 0; 0; 0; 0; 0; 0; 226; 230; 0; 228; 0; 229; 0; 225;
   227; 231; 232; 233; 0; 0; 0; 0; 0; 0; 0; 0; 0; 0; 0; 0;
   0; 0; 0; 0; 0; 0; 0; 0; 0; 0; 0; 0; 0; 0; 0; 0;
   0; 0; 0; 0; 0; 0; 0; 0; 0; 0; 0; 0; 0; 0; 0; 0].

(** [ctlmap[256]] *)
Definition ctlmap : list Z :=
  [0; 0; 0; 0; 0; 0; 0; 0; 0; 0; 0; 0; 0; 0; 0; 0;
   17; 23; 5; 18; 20; 25; 21; 9; 15; 16; 0; 0; 13; 0; 1; 19;
   4; 6; 7; 8; 10; 11; 12; 0; 0; 0; 0; 28; 26; 24; 3; 22;
   2; 14; 13; 0; 0; 239; 0; 0; 0; 0; 0; 0; 0; 0; 0; 0;
   0; 0; 0; 0; 0; 0; 0; 0; 0; 0; 0; 0; 0; 0; 0; 0;
   0; 0; 0; 0; 0; 0; 0; 0; 0; 0; 0; 0; 0; 0; 0; 0;
   0; 0; 0; 0; 0; 0; 0; 0; 0; 0; 0; 0; 0; 0; 0; 0;
   0; 0; 0; 0; 0; 0; 0; 0; 0; 0; 0; 0; 0; 0; 0; 0;
   0; 0; 0; 0; 0; 0; 0; 0; 0; 0; 0; 0; 0; 0; 0; 0;
   0; 0; 0; 0; 0; 0; 0; 224; 0; 0; 0; 0; 13; 0; 0; 0;
   0; 0; 0; 0; 0; 0; 0; 0; 0; 0; 0; 0; 0; 0; 0; 0;
   0; 0; 0; 0; 0; 239; 0; 0; 0; 0; 0; 0; 0; 0; 0; 0;
   0; 0; 0; 0; 0; 0; 0; 0; 226; 230; 0; 228; 0; 229; 0; 225;
   227; 231; 232; 233; 0; 0; 0; 0; 0; 0; 0; 0; 0; 0; 0; 0;
   0; 0; 0; 0; 0; 0; 0; 0; 0; 0; 0; 0; 0; 0; 0; 0;
   0; 0; 0; 0; 0; 0; 0; 0; 0; 0; 0; 0; 0; 0; 0; 0].

Definition charcode (k : Z) : list Z :=
  if k =? 0 then normalmap else if k =? 1 then shiftmap else ctlmap.

Definition kbdgetc : K Z :=
  let! st := inb 0x64 in
  if Z.land st 0x01 =? 0 then ret (-1)
  else
    let! data := inb 0x60 in
    let! shift := gets k_kbdshift in
    if data =? 0xE0 then
      modify (set_k_kbdshift (Z.lor shift E0ESC)) ;;
      ret 0
    else if negb (Z.land data 0x80 =? 0) then
      let data := if negb (Z.land shift E0ESC =? 0) then data else Z.land data 0x7F in
      modify (set_k_kbdshift (Z.land shift (Z.lnot (Z.lor (shiftcode data) E0ESC)))) ;;
      ret 0
    else
      let '(data, shift) :=
        if negb (Z.land shift E0ESC =? 0) then (Z.lor data 0x80, Z.land shift (Z.lnot E0ESC))
        else (data, shift) in
      let shift := Z.lxor (Z.lor shift (shiftcode data)) (togglecode data) in
      modify (set_k_kbdshift shift) ;;
      let c := nth (Z.to_nat data) (charcode (Z.land shift (Z.lor CTL SHIFT))) 0 in
      ret (if negb (Z.land shift CAPSLOCK =? 0) then
             if (97 <=? c) && (c <=? 122) then c + (65 - 97)
             else if (65 <=? c) && (c <=? 90) then c + (97 - 65) else c
           else c).

Definition kbdintr : K unit := consoleintr kbdgetc.

(** ** The receiving half of uart.c *)

Definition COM1 : Z := 0x3f8.
Definition uartgetc : K Z :=
  let! uart := gets k_uart in
  if negb uart then ret (-1)
  else
    let! st := inb (COM1 + 5) in
    if Z.land st 0x01 =? 0 then ret (-1) else inb (COM1 + 0).
Definition uartintr : K unit := consoleintr uartgetc.
End env.
