(* ===== verification/Screen.v ===== *)
(** * Screen: the display and the serial port (console.c, uart.c)

    The rest of the development takes a character as printed when it is in [k_out].
    Here is the code below that: [cgaputc] on the controller's cursor registers and
    the 80x25 cells of display memory, [uartputc] on the serial port, and [consputc]
    over both.  On a controller whose cursor registers can be read back, [cgaputc] is
    a terminal of 24 lines that scrolls: it writes display memory only, and cannot
    panic. *)

From stdpp Require Import base numbers gmap strings option list.
From S2P Require Import Prelude Format Machine Boot Mem Mlfq ProcCore Sleeplock Apic Console.
Local Open Scope kernel_scope.
Local Open Scope Z_scope.

Definition CRTPORT : Z := 0x3d4.
Definition crt : Z := P2V 0xb8000.

Section env.
Context `{Env}.

(** ** uart.c *)

Definition uartputc (c : Z) : K unit :=
  let! uart := gets k_uart in
  if negb uart then ret tt
  else
    for_find (seqZ 0 128) (λ _,
      let! st := inb (COM1 + 5) in
      if Z.land st 0x20 =? 0 then microdelay 10 ;; ret None else ret (Some tt)) ;;
    outb (COM1 + 0) c.

Definition uartinit : K unit :=
  outb (COM1 + 2) 0 ;;
  outb (COM1 + 3) 0x80 ;;
  outb (COM1 + 0) (115200 / 9600) ;;
  outb (COM1 + 1) 0 ;;
  outb (COM1 + 3) 0x03 ;;
  outb (COM1 + 4) 0 ;;
  outb (COM1 + 1) 0x01 ;;
  let! st := inb (COM1 + 5) in
  if st =? 0xFF then ret tt
  else
    modify (set_k_uart true) ;;
    inb (COM1 + 2) ;;
    inb (COM1 + 0) ;;
    ioapicenable IRQ_COM1 0 ;;
    for_each (chars "xv6...\n") uartputc.

(** ** console.c *)

Definition cgaputc (c : Z) : K unit :=
  outb CRTPORT 14 ;;
  let! hi := inb (CRTPORT + 1) in
  let pos := Z.shiftl hi 8 in
  outb CRTPORT 15 ;;
  let! lo := inb (CRTPORT + 1) in
  let pos := Z.lor pos lo in
  let! pos :=
    if c =? 10 then ret (pos + (80 - Z.rem pos 80))
    else if c =? BACKSPACE then ret (if 0 <? pos then pos - 1 else pos)
    else
      store16 (crt + 2 * pos) (Z.lor (Z.land c 0xff) 0x0700) ;;
      ret (pos + 1) in
  if (pos <? 0) || (25 * 80 <? pos) then panic "pos under/overflow"
  else
    let! pos :=
      if 24 <=? Z.quot pos 80 then
        memmove crt (crt + 2 * 80) (2 * 23 * 80) ;;
        let pos := pos - 80 in
        memset (crt + 2 * pos) 0 (2 * (24 * 80 - pos)) ;;
        ret pos
      else ret pos in
    outb CRTPORT 14 ;;
    outb (CRTPORT + 1) (Z.shiftr pos 8) ;;
    outb CRTPORT 15 ;;
    outb (CRTPORT + 1) pos ;;
    store16 (crt + 2 * pos) (Z.lor 32 0x0700).

(** [consputc] down to the devices. *)
Definition consputc_devices (c : Z) : K unit :=
  let! h := gets k_hw in
  if h_panicked h then cli ;; out_of_fuel
  else
    (if c =? BACKSPACE then uartputc 8 ;; uartputc 32 ;; uartputc 8
     else uartputc c) ;;
    cgaputc c.
End env.

(** ** The terminal

    [t_cells] is display memory, a character and its colour per cell; [t_pos] the
    cursor. *)
Record terminal := mk_terminal {
  t_cells : list Z;
  t_pos : nat
}.
Definition cell (c : Z) : Z := Z.lor (Z.land c 0xff) 0x0700.
Definition ROW : nat := 80.
Definition LAST : nat := 24 * ROW.

(** One line up: the lines below the first, and cleared cells from the cursor on. *)
Definition scroll (t : terminal) : terminal :=
  let pos := (t_pos t - ROW)%nat in
  let cells := take (LAST - ROW) (drop ROW (t_cells t)) ++ drop (LAST - ROW) (t_cells t) in
  mk_terminal (take pos cells ++ replicate (LAST - pos) 0 ++ drop LAST cells) pos.

Definition term_move (t : terminal) (c : Z) : terminal :=
  if c =? 10 then mk_terminal (t_cells t) (t_pos t + (ROW - t_pos t mod ROW))
  else if c =? BACKSPACE then mk_terminal (t_cells t) (t_pos t - 1)
  else mk_terminal (<[t_pos t := cell c]> (t_cells t)) (t_pos t + 1).

Definition term_put (t : terminal) (c : Z) : terminal :=
  let t := term_move t c in
  let t := if decide (LAST ≤ t_pos t)%nat then scroll t else t in
  mk_terminal (<[t_pos t := cell 32]> (t_cells t)) (t_pos t).

(** 25 lines of cells, with the cursor on one of the first 24. *)
Record term_ok (t : terminal) : Prop := {
  tk_len : length (t_cells t) = (25 * ROW)%nat;
  tk_pos : (t_pos t < LAST)%nat;
}.

Lemma term_move_pos t c : (t_pos t < LAST)%nat → (t_pos (term_move t c) ≤ LAST)%nat.
Proof.
  unfold LAST. change ROW with 80%nat. intros Hp. unfold term_move. change ROW with 80%nat.
  pose proof (Nat.div_mod (t_pos t) 80). pose proof (Nat.mod_upper_bound (t_pos t) 80).
  destruct (c =? 10); [cbn [t_pos]; lia|]. destruct (c =? BACKSPACE); cbn [t_pos]; lia.
Qed.

Lemma term_ok_put t c : term_ok t → term_ok (term_put t c).
Proof.
  intros [Hl Hp]. unfold term_put. pose proof (term_move_pos t c Hp) as Hm.
  assert (Hl' : length (t_cells (term_move t c)) = (25 * ROW)%nat).
  { unfold term_move. destruct (c =? 10), (c =? BACKSPACE); simpl; rewrite ?length_insert; done. }
  unfold LAST in *. change ROW with 80%nat in *.
  destruct (decide _); split; simpl; rewrite ?length_insert, ?length_app, ?length_take,
    ?length_replicate, ?length_drop, ?length_app, ?length_take, ?length_drop; unfold LAST;
    change ROW with 80%nat; lia.
Qed.

(** ** Display memory *)

Definition bytes16 (v : Z) : list Z := [u8 v; u8 (Z.shiftr v 8)].
Definition cell_bytes (cells : list Z) : list Z := cells ≫= bytes16.

Lemma length_cell_bytes cells : length (cell_bytes cells) = (2 * length cells)%nat.
Proof.
  unfold cell_bytes. induction cells as [|c cells IH]; [done|].
  rewrite bind_cons, length_app, IH. simpl. lia.
Qed.
Lemma cell_bytes_app l l' : cell_bytes (l ++ l') = cell_bytes l ++ cell_bytes l'.
Proof. apply bind_app. Qed.
Lemma cell_bytes_range l b : b ∈ cell_bytes l → 0 ≤ b < 256.
Proof.
  intros (v & Hb & _)%list_elem_of_bind. unfold bytes16 in Hb.
  apply elem_of_cons in Hb as [->|Hb]; [apply u8_range|].
  apply list_elem_of_singleton in Hb as ->. apply u8_range.
Qed.

(** The kernel [s] with [cells] on the display of memory [m]. *)
Definition scr (m : gmap Z Z) (cells : list Z) (s : kernel) : kernel :=
  set_k_mem (mem_write crt (cell_bytes cells) m) s.

(** Cells that are overwritten. *)
Lemma scr_write m s pre l old post n :
  length l = length old → n = Z.of_nat (length pre) →
  write (crt + 2 * n) (cell_bytes l) (scr m (pre ++ old ++ post) s) = scr m (pre ++ l ++ post) s.
Proof.
  intros Hl ->. unfold write, scr. cbn [k_mem set_k_mem]. rewrite !cell_bytes_app.
  pose proof (mem_write_sub m crt (cell_bytes pre) (cell_bytes l) (cell_bytes old) (cell_bytes post))
    as E. rewrite !length_cell_bytes, Nat2Z.inj_mul in E. change (Z.of_nat 2) with 2 in E.
  rewrite E by lia. done.
Qed.

Lemma store16_scr m s cells pos v :
  (Z.to_nat pos < length cells)%nat → 0 ≤ pos →
  store16 (crt + 2 * pos) v (scr m cells s) = Ok tt (scr m (<[Z.to_nat pos := v]> cells) s).
Proof.
  intros Hp Hp0. destruct (lookup_lt_is_Some_2 cells _ Hp) as [c Hc].
  assert (Hw : write (crt + 2 * pos) (bytes16 v) (scr m cells s) =
    scr m (<[Z.to_nat pos := v]> cells) s).
  { rewrite insert_take_drop by done. rewrite <-(take_drop_middle cells _ _ Hc) at 1.
    change (bytes16 v) with (cell_bytes [v]).
    apply (scr_write m s _ [v] [c]); [done|]. rewrite length_take. lia. }
  unfold store16.
  assert (Hm : ∀ x, crt + 2 * pos ≤ x < crt + 2 * pos + 2 → is_Some (k_mem (scr m cells s) !! x)).
  { intros x Hx. cbn [k_mem scr set_k_mem].
    eapply (has_bytes_mapped _ crt); [apply has_bytes_write|]. rewrite length_cell_bytes. lia. }
  pose proof (store8_snoc (scr m cells s) (crt + 2 * pos) [] v) as E1.
  rewrite write_nil in E1. cbn [length Z.of_nat] in E1. rewrite Z.add_0_r in E1.
  erewrite bind_Ok by (apply E1, Hm; lia).
  pose proof (store8_snoc (scr m cells s) (crt + 2 * pos) [u8 v] (Z.shiftr v 8)) as E2.
  change (Z.of_nat (length [u8 v])) with 1 in E2.
  rewrite app_nil_l, E2 by (apply Hm; lia). by rewrite <-Hw.
Qed.

Lemma split3 {A} (l : list A) a b : (a ≤ b)%nat → l = take a l ++ take (b - a) (drop a l) ++ drop b l.
Proof.
  intros Hab. rewrite <-(take_drop a l) at 1. f_equal.
  rewrite <-(take_drop (b - a) (drop a l)) at 1. f_equal. rewrite drop_drop. f_equal. lia.
Qed.

Lemma memmove_scr m s cells :
  length cells = (25 * ROW)%nat →
  memmove crt (crt + 2 * 80) (2 * 23 * 80) (scr m cells s) =
    Ok crt (scr m (take (LAST - ROW) (drop ROW cells) ++ drop (LAST - ROW) cells) s).
Proof.
  intros Hl. unfold LAST. change ROW with 80%nat in *. change (24 * 80 - 80)%nat with 1840%nat.
  set (mid := take 1840 (drop 80 cells)).
  assert (Hlm : length mid = 1840%nat) by (subst mid; rewrite length_take, length_drop; lia).
  assert (Hm : has_bytes (k_mem (scr m cells s)) (crt + 2 * 80) (cell_bytes mid)).
  { assert (Hb : has_bytes (k_mem (scr m cells s)) crt
      (cell_bytes (take 80 cells ++ mid ++ drop 1920 cells))).
    { assert (Ec : cells = take 80 cells ++ mid ++ drop 1920 cells)
        by exact (split3 cells 80 1920 ltac:(lia)).
      rewrite <-Ec. apply has_bytes_write. }
    rewrite !cell_bytes_app in Hb. apply has_bytes_app in Hb as [_ Hb]. apply has_bytes_app in Hb as [Hb _].
    rewrite length_cell_bytes, length_take in Hb. replace (80 `min` length cells)%nat with 80%nat in Hb by lia.
    exact Hb. }
  change (2 * 23 * 80) with (Z.of_nat (2 * 1840)).
  rewrite (memmove_eq _ _ _ _ (cell_bytes mid)).
  - f_equal. pose proof (scr_write m s [] mid (take 1840 cells) (drop 1840 cells) 0) as E.
    rewrite Z.add_0_r, take_drop, !app_nil_l in E. apply E; [|done].
    rewrite Hlm, length_take. lia.
  - intros x Hx. cbn [k_mem scr set_k_mem].
    eapply (has_bytes_mapped _ crt); [apply has_bytes_write|]. rewrite length_cell_bytes. lia.
  - unfold has_bytes in Hm. rewrite length_cell_bytes, Hlm in Hm. exact Hm.
  - apply cell_bytes_range.
Qed.

Lemma memset_scr m s cells pos :
  length cells = (25 * ROW)%nat → 0 ≤ pos ≤ Z.of_nat LAST →
  memset (crt + 2 * pos) 0 (2 * (24 * 80 - pos)) (scr m cells s) =
    Ok (crt + 2 * pos) (scr m (take (Z.to_nat pos) cells ++
      replicate (LAST - Z.to_nat pos) 0 ++ drop LAST cells) s).
Proof.
  unfold LAST. change ROW with 80%nat. change (24 * 80)%nat with 1920%nat. intros Hl Hp.
  replace (2 * (24 * 80 - pos)) with (Z.of_nat (2 * (1920 - Z.to_nat pos))) by lia.
  rewrite memset_eq.
  - f_equal. rewrite (split3 cells (Z.to_nat pos) 1920) at 1 by lia.
    replace (replicate (2 * (1920 - Z.to_nat pos)) (u8 0))
      with (cell_bytes (replicate (1920 - Z.to_nat pos) 0)).
    + apply scr_write; [|rewrite length_take; lia].
      rewrite length_replicate, length_take, length_drop. lia.
    + generalize (1920 - Z.to_nat pos)%nat as n. induction n as [|n IH]; [done|].
      replace (2 * S n)%nat with (S (S (2 * n))) by lia. cbn [replicate].
      unfold cell_bytes in *. rewrite bind_cons, IH. done.
  - intros x Hx. cbn [k_mem scr set_k_mem].
    eapply (has_bytes_mapped _ crt); [apply has_bytes_write|]. rewrite length_cell_bytes. lia.
Qed.

(** ** The controller

    Port 0x3d4 selects a register of the display controller, port 0x3d5 accesses it;
    registers 14 and 15 are the cursor, and read back what was written. *)
Fixpoint crtc_index (io : list ioevent) : Z :=
  match io with
  | [] => 0
  | IoOut port v :: io' => if port =? CRTPORT then v else crtc_index io'
  | _ :: io' => crtc_index io'
  end.
Fixpoint crtc_reg (init : Z → Z) (r : Z) (io : list ioevent) : Z :=
  match io with
  | [] => u8 (init r)
  | IoOut port v :: io' =>
      if (port =? CRTPORT + 1) && (crtc_index io' =? r) then u8 v else crtc_reg init r io'
  | _ :: io' => crtc_reg init r io'
  end.
Definition cursor (init : Z → Z) (io : list ioevent) : Z :=
  2 ^ 8 * crtc_reg init 14 io + crtc_reg init 15 io.

Lemma crtc_reg_range init r io : 0 ≤ crtc_reg init r io < 2 ^ 8.
Proof.
  induction io as [|[port v|port v| | | |] io IH]; simpl; try done; [apply u8_range|].
  destruct (_ && _); [apply u8_range|done].
Qed.

(** The bytes that the serial port was given to send, in order. *)
Definition sent_by (e : ioevent) : option Z :=
  match e with IoOut port v => if port =? COM1 then Some v else None | _ => None end.
Definition sent (io : list ioevent) : list Z := omap sent_by (rev io).
Definition serial_bytes (c : Z) : list Z := if c =? BACKSPACE then [8; 32; 8] else [u8 c].

Lemma sent_cons e io : sent (e :: io) = sent io ++ option_list (sent_by e).
Proof. unfold sent. simpl. rewrite omap_app. simpl. by destruct (sent_by e). Qed.

(** *** Accesses to the serial port *)

Definition com1_event (e : ioevent) : Prop :=
  match e with IoIn port _ | IoOut port _ => COM1 ≤ port < COM1 + 8 | _ => False end.

Lemma com1_crtc init evs io r :
  Forall com1_event evs →
  crtc_index (evs ++ io) = crtc_index io ∧ crtc_reg init r (evs ++ io) = crtc_reg init r io.
Proof.
  induction 1 as [|e evs He _ [IH1 IH2]]; [done|].
  destruct e as [port v|port v| | | |]; simpl in He |- *; try done.
  unfold COM1, CRTPORT in *. rewrite (proj2 (Z.eqb_neq port _)) by lia.
  rewrite (proj2 (Z.eqb_neq port _)) by lia. done.
Qed.

Lemma com1_cursor init evs io :
  Forall com1_event evs → cursor init (evs ++ io) = cursor init io.
Proof. intros He. unfold cursor. by rewrite !(proj2 (com1_crtc _ _ _ _ He)). Qed.

Lemma sent_app evs io : sent (evs ++ io) = sent io ++ omap sent_by (rev evs).
Proof. unfold sent. by rewrite rev_app_distr, omap_app. Qed.

Section uart.
Context `{Env}.

Lemma uart_wait l s :
  ∃ r evs, for_find l (λ _ : Z,
      let! st := inb (COM1 + 5) in
      if Z.land st 0x20 =? 0 then microdelay 10 ;; ret None else ret (Some tt)) s =
    Ok r (set_k_io (evs ++ k_io s) s) ∧ Forall com1_event evs ∧ omap sent_by (rev evs) = [].
Proof.
  revert s. induction l as [|x l IH]; intros s.
  - exists None, []. split; [by destruct s|done].
  - set (v := u8 (port_in (COM1 + 5) (k_io s))).
    set (s1 := set_k_io (IoIn (COM1 + 5) v :: k_io s) s).
    destruct (Z.land v 0x20 =? 0) eqn:E.
    + destruct (IH s1) as (r & evs & Er & Hc & Hs). exists r, (evs ++ [IoIn (COM1 + 5) v]).
      rewrite <-app_assoc. erewrite for_find_next; [split_and!; [exact Er| |]|].
      * apply Forall_app; split; [done|]. by repeat constructor.
      * by rewrite rev_app_distr.
      * erewrite bind_Ok by apply inb_eq. fold v. by rewrite E.
    + exists (Some tt), [IoIn (COM1 + 5) v].
      erewrite for_find_stop; [split_and!; [reflexivity|by repeat constructor|done]|].
      erewrite bind_Ok by apply inb_eq. fold v. by rewrite E.
Qed.

Lemma uartputc_eq c s :
  ∃ evs, uartputc c s = Ok tt (set_k_io (evs ++ k_io s) s) ∧ Forall com1_event evs ∧
    omap sent_by (rev evs) = if k_uart s then [u8 c] else [].
Proof.
  unfold uartputc. erewrite bind_Ok by reflexivity. destruct (k_uart s) eqn:Eu; cbn [negb].
  - destruct (uart_wait (seqZ 0 128) s) as (r & evs & E & Hc & Hs).
    exists (IoOut COM1 (u8 c) :: evs). rewrite (bind_Ok _ _ _ _ _ E).
    split_and!; [done|by constructor|]. simpl. by rewrite omap_app, Hs.
  - exists []. split; [by destruct s|done].
Qed.

Lemma uart_text l s :
  ∃ evs, for_each l uartputc s = Ok tt (set_k_io (evs ++ k_io s) s) ∧ Forall com1_event evs ∧
    omap sent_by (rev evs) = if k_uart s then u8 <$> l else [].
Proof.
  revert s. induction l as [|c l IH]; intros s.
  - exists []. split; [by destruct s|]. split; [done|]. by destruct (k_uart s).
  - destruct (uartputc_eq c s) as (evs & E & He & Hs). rewrite (for_each_Ok _ _ _ _ _ E).
    destruct (IH (set_k_io (evs ++ k_io s) s)) as (evs' & E' & He' & Hs').
    exists (evs' ++ evs). rewrite <-app_assoc. split_and!; [exact E'|by apply Forall_app|].
    rewrite rev_app_distr, omap_app, Hs, Hs'. cbn [k_uart set_k_io]. by destruct (k_uart s).
Qed.

Lemma uart_char c s :
  ∃ evs, (if c =? BACKSPACE then uartputc 8 ;; uartputc 32 ;; uartputc 8 else uartputc c) s =
      Ok tt (set_k_io (evs ++ k_io s) s) ∧ Forall com1_event evs ∧
    omap sent_by (rev evs) = if k_uart s then serial_bytes c else [].
Proof.
  unfold serial_bytes. destruct (c =? BACKSPACE); [|apply uartputc_eq].
  destruct (uart_text [8; 32; 8] s) as (evs & E & He & Hs). exists evs.
  split_and!; [|done|done]. rewrite <-E. cbn [for_each]. unfold bind.
  destruct (uartputc 8 s) as [[] s1| | |]; [|done..].
  destruct (uartputc 32 s1) as [[] s2| | |]; [|done..].
  by destruct (uartputc 8 s2) as [[] s3| | |].
Qed.
End uart.

Section controller.
Context `{Env} (init : Z → Z).
Hypothesis controller : ∀ io, port_in (CRTPORT + 1) io = crtc_reg init (crtc_index io) io.

(** The states of the console: the terminal [t] is on the display. *)
Definition shows (t : terminal) (s : kernel) : Prop :=
  has_bytes (k_mem s) crt (cell_bytes (t_cells t)) ∧
  cursor init (k_io s) = Z.of_nat (t_pos t).

(** Selecting a register and reading it. *)
Lemma crt_read r s :
  ∃ io, (outb CRTPORT r ;; inb (CRTPORT + 1)) s = Ok (crtc_reg init (u8 r) (k_io s)) (set_k_io io s) ∧
    (∀ r', crtc_reg init r' io = crtc_reg init r' (k_io s)) ∧ sent io = sent (k_io s).
Proof.
  exists (IoIn (CRTPORT + 1) (crtc_reg init (u8 r) (k_io s)) :: IoOut CRTPORT (u8 r) :: k_io s).
  split; [|split; [done|by rewrite !sent_cons, !app_nil_r]].
  erewrite bind_Ok by reflexivity. unfold inb. erewrite bind_Ok by reflexivity.
  cbn [k_io set_k_io outb]. rewrite controller.
  assert (E : crtc_reg init (crtc_index (IoOut CRTPORT (u8 r) :: k_io s)) (IoOut CRTPORT (u8 r) :: k_io s)
    = crtc_reg init (u8 r) (k_io s)) by done.
  rewrite E, u8_small by apply crtc_reg_range. reflexivity.
Qed.

Lemma bind_both {A B} (m : K unit) (n : K A) (k : A → K B) s a s' :
  (m ;; n) s = Ok a s' → (m ;; let! x := n in k x) s = k a s'.
Proof. unfold bind. destruct (m s); [|done..]. by intros ->. Qed.

(** The three parts of [cgaputc]: move the cursor, scroll, set the cursor. *)
Lemma cga_move m s t c :
  term_ok t →
  (if c =? 10 then ret (Z.of_nat (t_pos t) + (80 - Z.rem (Z.of_nat (t_pos t)) 80))
   else if c =? BACKSPACE then
     ret (if 0 <? Z.of_nat (t_pos t) then Z.of_nat (t_pos t) - 1 else Z.of_nat (t_pos t))
   else
     store16 (crt + 2 * Z.of_nat (t_pos t)) (Z.lor (Z.land c 0xff) 0x0700) ;;
     ret (Z.of_nat (t_pos t) + 1)) (scr m (t_cells t) s) =
  Ok (Z.of_nat (t_pos (term_move t c))) (scr m (t_cells (term_move t c)) s).
Proof.
  intros [Hl Hp]. unfold term_move, LAST in *. change ROW with 80%nat in *.
  destruct (c =? 10); [|destruct (c =? BACKSPACE)]; cbn [t_pos t_cells].
  - unfold ret. f_equal. rewrite Z.rem_mod_nonneg by lia.
    pose proof (Nat.mod_upper_bound (t_pos t) 80). pose proof (Nat2Z.inj_mod (t_pos t) 80). lia.
  - unfold ret. f_equal. destruct (Z.ltb_spec 0 (Z.of_nat (t_pos t))); lia.
  - erewrite bind_Ok by (apply store16_scr; lia). unfold ret. rewrite Nat2Z.id. f_equal. lia.
Qed.

Lemma cga_scroll m s t :
  length (t_cells t) = (25 * ROW)%nat → (t_pos t ≤ LAST)%nat →
  (if 24 <=? Z.quot (Z.of_nat (t_pos t)) 80 then
     memmove crt (crt + 2 * 80) (2 * 23 * 80) ;;
     let pos := Z.of_nat (t_pos t) - 80 in
     memset (crt + 2 * pos) 0 (2 * (24 * 80 - pos)) ;;
     ret pos
   else ret (Z.of_nat (t_pos t))) (scr m (t_cells t) s) =
  let t' := if decide (LAST ≤ t_pos t)%nat then scroll t else t in
  Ok (Z.of_nat (t_pos t')) (scr m (t_cells t') s).
Proof.
  intros Hl Hp. rewrite Z.quot_div_nonneg by lia.
  assert (El : Z.of_nat LAST = 24 * 80) by done. assert (Er : Z.of_nat ROW = 80) by done.
  pose proof (Z.div_mod (Z.of_nat (t_pos t)) 80). pose proof (Z.mod_pos_bound (Z.of_nat (t_pos t)) 80).
  destruct (decide (LAST ≤ t_pos t)%nat).
  - rewrite (proj2 (Z.leb_le _ _)) by lia. erewrite bind_Ok by by apply memmove_scr.
    cbv zeta. erewrite bind_Ok.
    2:{ apply memset_scr; [|lia].
        rewrite length_app, length_take, !length_drop. unfold LAST. change ROW with 80%nat in *. lia. }
    unfold ret, scroll. cbn [t_pos t_cells].
    replace (Z.to_nat (Z.of_nat (t_pos t) - 80)) with (t_pos t - ROW)%nat by lia.
    f_equal. lia.
  - rewrite (proj2 (Z.leb_gt _ _)) by lia. done.
Qed.

Lemma cga_set m s t :
  length (t_cells t) = (25 * ROW)%nat → (t_pos t ≤ LAST)%nat →
  ∃ io, (outb CRTPORT 14 ;; outb (CRTPORT + 1) (Z.shiftr (Z.of_nat (t_pos t)) 8) ;;
         outb CRTPORT 15 ;; outb (CRTPORT + 1) (Z.of_nat (t_pos t)) ;;
         store16 (crt + 2 * Z.of_nat (t_pos t)) (Z.lor 32 0x0700)) (scr m (t_cells t) s) =
    Ok tt (scr m (<[t_pos t := cell 32]> (t_cells t)) (set_k_io io s)) ∧
    cursor init io = Z.of_nat (t_pos t) ∧ sent io = sent (k_io s).
Proof.
  intros Hl Hp. assert (El : Z.of_nat LAST = 1920) by done.
  exists (IoOut (CRTPORT + 1) (u8 (Z.of_nat (t_pos t))) :: IoOut CRTPORT (u8 15) ::
    IoOut (CRTPORT + 1) (u8 (Z.shiftr (Z.of_nat (t_pos t)) 8)) :: IoOut CRTPORT (u8 14) :: k_io s).
  split_and!.
  - do 4 (erewrite bind_Ok by reflexivity).
    match goal with |- store16 _ _ ?s' = _ => change s' with (scr m (t_cells t) (set_k_io
      (IoOut (CRTPORT + 1) (u8 (Z.of_nat (t_pos t))) :: IoOut CRTPORT (u8 15) ::
       IoOut (CRTPORT + 1) (u8 (Z.shiftr (Z.of_nat (t_pos t)) 8)) :: IoOut CRTPORT (u8 14) :: k_io s) s)) end.
    rewrite store16_scr by (unfold LAST in *; change ROW with 80%nat in *; lia).
    by rewrite Nat2Z.id.
  - change (2 ^ 8 * u8 (u8 (Z.shiftr (Z.of_nat (t_pos t)) 8)) + u8 (u8 (Z.of_nat (t_pos t)))
      = Z.of_nat (t_pos t)).
    unfold u8. rewrite Z.shiftr_div_pow2, !Z.mod_mod by lia.
    pose proof (Z.div_mod (Z.of_nat (t_pos t)) (2 ^ 8)). rewrite (Z.mod_small (_ / _)); [lia|].
    split; [apply Z.div_pos; lia|apply Z.div_lt_upper_bound; lia].
  - rewrite !sent_cons. by rewrite !app_nil_r.
Qed.

Lemma cgaputc_eq s t c :
  term_ok t → shows t s →
  ∃ io, cgaputc c s = Ok tt (scr (k_mem s) (t_cells (term_put t c)) (set_k_io io s)) ∧
    cursor init io = Z.of_nat (t_pos (term_put t c)) ∧ sent io = sent (k_io s).
Proof.
  intros Hok [Hm Hcur]. pose proof (term_move_pos t c (tk_pos _ Hok)) as Hp.
  pose proof (tk_len _ (term_ok_put t c Hok)) as Hl'. unfold cgaputc.
  destruct (crt_read 14 s) as (io1 & E1 & Hr1 & Hs1).
  rewrite (bind_both _ _ _ _ _ _ E1). clear E1.
  destruct (crt_read 15 (set_k_io io1 s)) as (io2 & E2 & Hr2 & Hs2).
  cbv zeta. rewrite (bind_both _ _ _ _ _ _ E2). clear E2. cbn [k_io set_k_io] in *.
  change (set_k_io io2 (set_k_io io1 s)) with (set_k_io io2 s).
  change (u8 14) with 14. change (u8 15) with 15. rewrite Hr1.
  rewrite lor_shiftl by (lia || apply crtc_reg_range).
  replace (crtc_reg init 14 (k_io s) * 2 ^ 8 + crtc_reg init 15 (k_io s))
    with (Z.of_nat (t_pos t)) by (rewrite <-Hcur; unfold cursor; lia).
  replace (set_k_io io2 s) with (scr (k_mem s) (t_cells t) (set_k_io io2 s))
    by (unfold scr; rewrite mem_write_same by done; by destruct s).
  erewrite bind_Ok by by apply cga_move.
  set (t1 := term_move t c) in *. assert (El : Z.of_nat LAST = 1920) by done.
  rewrite (proj2 (Z.ltb_ge _ _)), (proj2 (Z.ltb_ge _ _)) by lia. cbn [orb].
  assert (Hl1 : length (t_cells t1) = (25 * ROW)%nat).
  { subst t1. unfold term_move.
    destruct (c =? 10), (c =? BACKSPACE); cbn [t_cells]; rewrite ?length_insert; apply Hok. }
  erewrite bind_Ok by by apply cga_scroll. cbv zeta.
  unfold term_put in *. fold t1 in Hl' |- *. cbn [t_cells t_pos] in *. rewrite length_insert in Hl'.
  set (t2 := if decide _ then _ else t1) in *.
  assert (Hp2 : (t_pos t2 ≤ LAST)%nat) by (subst t2; destruct (decide _); simpl; lia).
  destruct (cga_set (k_mem s) (set_k_io io2 s) t2 Hl' Hp2) as (io3 & E3 & Hc3 & Hs3).
  exists io3. split_and!; [exact E3|exact Hc3|]. rewrite Hs3. cbn [k_io set_k_io]. congruence.
Qed.

Lemma consputc_devices_eq s t c :
  term_ok t → shows t s → h_panicked (k_hw s) = false →
  ∃ io, consputc_devices c s = Ok tt (scr (k_mem s) (t_cells (term_put t c)) (set_k_io io s)) ∧
    cursor init io = Z.of_nat (t_pos (term_put t c)) ∧
    sent io = sent (k_io s) ++ (if k_uart s then serial_bytes c else []).
Proof.
  intros Hok [Hm Hc] Hp. unfold consputc_devices. erewrite bind_Ok by reflexivity. rewrite Hp.
  destruct (uart_char c s) as (evs & E1 & He & Hs1). erewrite bind_Ok by exact E1.
  destruct (cgaputc_eq (set_k_io (evs ++ k_io s) s) t c Hok) as (io2 & E2 & Hc2 & Hs2).
  { split; [exact Hm|]. cbn [k_io set_k_io]. by rewrite com1_cursor. }
  exists io2. split_and!; [exact E2|exact Hc2|]. rewrite Hs2. cbn [k_io set_k_io].
  by rewrite sent_app, Hs1.
Qed.
End controller.

(** ** Claims *)

(** C30.  What [consputc] does with a text, down to the device registers, is what a
    terminal does: on a display controller whose cursor registers read back, it
    returns whatever the text, the display shows the text ([term_put]: wrapping,
    scrolling and erasing), the serial port, if there is one, is given the bytes in
    order, and no memory but the display's is written. *)
Theorem console_shows `{Env} init s t text :
  (∀ io, port_in (CRTPORT + 1) io = crtc_reg init (crtc_index io) io) →
  term_ok t → shows init t s → h_panicked (k_hw s) = false →
  let t' := foldl term_put t text in
  ∃ io m, for_each text consputc_devices s = Ok tt (set_k_io io (set_k_mem m s)) ∧
    term_ok t' ∧ shows init t' (set_k_io io (set_k_mem m s)) ∧
    m = mem_write crt (cell_bytes (t_cells t')) (k_mem s) ∧
    sent io = sent (k_io s) ++ (if k_uart s then text ≫= serial_bytes else []).
Proof.
  intros Hdev. revert s t. induction text as [|c text IH]; intros s t Hok Hsh Hp; cbn [foldl].
  - exists (k_io s), (k_mem s). cbv zeta. replace (set_k_io _ (set_k_mem _ s)) with s by by destruct s.
    split_and!; [done|done|done|by rewrite mem_write_same by apply Hsh|].
    destruct (k_uart s); by rewrite ?app_nil_r.
  - destruct (consputc_devices_eq init Hdev s t c Hok Hsh Hp) as (io1 & E1 & Hc1 & Hs1).
    set (s1 := scr (k_mem s) (t_cells (term_put t c)) (set_k_io io1 s)) in *.
    assert (Hsh1 : shows init (term_put t c) s1) by (split; [apply has_bytes_write|exact Hc1]).
    destruct (IH s1 (term_put t c) (term_ok_put t c Hok) Hsh1 Hp) as (io2 & m2 & E2 & Hok2 & Hsh2 & Em & Hs2).
    exists io2, m2. rewrite (for_each_Ok _ _ _ _ _ E1). unfold s1, scr in *. cbn [k_io k_mem k_uart k_hw set_k_io set_k_mem] in *.
    split_and!; [exact E2|exact Hok2|exact Hsh2| |].
    + rewrite Em. apply mem_write_over. rewrite !length_cell_bytes.
      by rewrite (tk_len _ Hok2), (tk_len _ (term_ok_put t c Hok)).
    + rewrite Hs2, Hs1, bind_cons. destruct (k_uart s); by rewrite <-?app_assoc, ?app_nil_r.
Qed.

(** A machine with a display controller and a cleared display, and no serial port. *)
Definition crt_env : Env := {|
  SCHEDULER := RR; swtch_env := id; FUEL := 100; KEND := 0x80110000; KDATA := 0x80108000;
  INITCODE := 0x8010b4e0; INITCODE_SIZE := 44; TRAPRET := 0x80105c80; FORKRET := 0x80103a20;
  DRIVER := MEMIDE;
  port_in port io := if port =? CRTPORT + 1 then crtc_reg (λ _, 0) (crtc_index io) io else 0xFF;
  port_insl _ _ := []; mmio_in _ _ := 0; spin_env := id; IDT := 0x80114c80; vectors := [];
  MPENTER := 0x80102e60; ENTRYOTHER := 0x8010b48c; ENTRYOTHER_SIZE := 0x8a;
  ENTRYPGDIR := 0x80109000;
|}.
Definition clear_display : terminal := mk_terminal (replicate (25 * ROW) 0) 0.
Definition display_kernel : kernel :=
  set_k_mem (mem_write crt (cell_bytes (t_cells clear_display)) ∅) zero_kernel.

Lemma console_shows_witness :
  ∃ io m, for_each (chars "xv6\n") (@consputc_devices crt_env) display_kernel =
      Ok tt (set_k_io io (set_k_mem m display_kernel)) ∧
    cursor (λ _, 0) io = 80 ∧
    has_bytes m crt (cell_bytes [cell 120; cell 118; cell 54; cell 32]).
Proof.
  destruct (@console_shows crt_env (λ _, 0) display_kernel clear_display (chars "xv6\n"))
    as (io & m & E & _ & [Hb Hc] & _ & _).
  - reflexivity.
  - split; [reflexivity|]. apply Nat.lt_0_succ.
  - split; [apply has_bytes_write|reflexivity].
  - reflexivity.
  - exists io, m. split; [exact E|]. split; [exact Hc|].
    change (t_cells _) with ([cell 120; cell 118; cell 54; cell 32] ++ drop 4 (t_cells (foldl term_put clear_display (chars "xv6\n")))) in Hb.
    rewrite cell_bytes_app in Hb. apply has_bytes_app in Hb. exact (proj1 Hb).
Defined.
