(* ===== verification/Fs.v ===== *)
(** * Fs: file contents, directories and path names (the second half of fs.c)

    A destination pointer is a result: [readi] returns the count and the bytes it
    copied.  A C string is the list of its bytes without the terminator. *)

From stdpp Require Import base numbers gmap strings option list.
From S2P Require Import Prelude Format Machine Mem Mlfq ProcCore Sleeplock Ide Bio Log Inode.
From S2P Require Import Console.
Local Open Scope kernel_scope.
Local Open Scope Z_scope.

Definition DIRSIZ : nat := 14.
Definition sizeof_dirent : Z := 16.

(** [strncmp] of string.c on strings held in C arrays. *)
Fixpoint strncmp_l (n : nat) (p q : list Z) : Z :=
  match n with
  | O => 0
  | S n =>
      let a := hd 0 p in
      let b := hd 0 q in
      if negb (a =? 0) && (a =? b) then strncmp_l n (tl p) (tl q) else a - b
  end.
Definition namecmp (s t : list Z) : Z := strncmp_l DIRSIZ s t.

(** [struct dirent]: inum, then name[DIRSIZ] filled by [strncpy]. *)
Definition dirent_inum (de : list Z) : Z := get16 de 0.
Definition dirent_name (de : list Z) : list Z := take DIRSIZ (drop 2 de).
Definition mk_dirent (inum : Z) (name : list Z) : list Z :=
  let n := take DIRSIZ name in
  [u8 inum; u8 (Z.shiftr inum 8)] ++ n ++ replicate (DIRSIZ - length n) 0.

(** [skipelem]: the rest of the path and the element, or NULL. *)
Fixpoint skip_slash (path : list Z) : list Z :=
  match path with
  | c :: path' => if c =? 47 then skip_slash path' else path
  | [] => []
  end.
Fixpoint split_elem (path : list Z) : list Z * list Z :=
  match path with
  | c :: path' =>
      if c =? 47 then ([], path)
      else let '(e, rest) := split_elem path' in (c :: e, rest)
  | [] => ([], [])
  end.
Definition skipelem (path : list Z) : option (list Z * list Z) :=
  match skip_slash path with
  | [] => None
  | p => let '(e, rest) := split_elem p in Some (skip_slash rest, take DIRSIZ e)
  end.

(** [min(n - tot, BSIZE - off%BSIZE)] *)
Definition chunk (n tot off : Z) : Z := Z.min (n - tot) (BSIZE - off mod BSIZE).

Section env.
Context `{Env}.

(** [devsw[major].read] and [.write], when the console is installed there. *)
Definition has_dev (major : Z) : K bool :=
  if (major <? 0) || (NDEV <=? major) then ret false
  else
    let! d := gets k_devsw in
    arr_get d major.

Definition readi (ip : nat) (off n : Z) : K (Z * list Z) :=
  let! i := inode_at ip in
  if i_type i =? T_DEV then
    let! d := has_dev (i_major i) in
    if negb d then ret (-1, []) else consoleread (Some ip) (i32 n)
  else if (i_size i <? off) || (u32 (off + n) <? off) then ret (-1, [])
  else
    let n := if i_size i <? u32 (off + n) then i_size i - off else n in
    let! data := loop (3 + Z.to_nat (n / BSIZE)) (λ '(tot, off, acc),
      if negb (tot <? n) then ret (inr acc)
      else
        let! a := bmap ip (off / BSIZE) in
        let! i := inode_at ip in
        let! bp := bread (i_dev i) a in
        let! b := buf_at bp in
        let m := chunk n tot off in
        let bytes := take (Z.to_nat m) (drop (Z.to_nat (off mod BSIZE)) (b_data b)) in
        brelse bp ;;
        ret (inl (tot + m, off + m, acc ++ bytes))) (0, off, []) in
    ret (i32 n, data).

Definition writei (ip : nat) (src : list Z) (off : Z) : K Z :=
  let n := Z.of_nat (length src) in
  let! i := inode_at ip in
  if i_type i =? T_DEV then
    let! d := has_dev (i_major i) in
    if negb d then ret (-1) else consolewrite (Some ip) src
  else if (i_size i <? off) || (u32 (off + n) <? off) then ret (-1)
  else if MAXFILE * BSIZE <? u32 (off + n) then ret (-1)
  else
    let! off := loop (3 + Z.to_nat (n / BSIZE)) (λ '(tot, off, src),
      if negb (tot <? n) then ret (inr off)
      else
        let! a := bmap ip (off / BSIZE) in
        let! i := inode_at ip in
        let! bp := bread (i_dev i) a in
        let m := chunk n tot off in
        upd_buf bp (λ b, set_b_data
          (splice (Z.to_nat (off mod BSIZE)) (take (Z.to_nat m) src) (b_data b)) b) ;;
        log_write bp ;;
        brelse bp ;;
        ret (inl (tot + m, off + m, drop (Z.to_nat m) src))) (0, off, src) in
    let! i := inode_at ip in
    when ((0 <? n) && (i_size i <? off)) (
      upd_inode ip (set_i_size off) ;;
      iupdate ip) ;;
    ret (i32 n).

(** [for(off = 0; off < dp->size; off += sizeof(de)) { readi(...); ... }]: [test]
    says what to do with an entry, [msg] is the panic message. *)
Definition dirscan {R} (dp : nat) (msg : string) (test : Z → list Z → K (option R)) : K (Z + R) :=
  let! d := inode_at dp in
  loop (S (S (Z.to_nat (i_size d / sizeof_dirent)))) (λ off,
    let! d := inode_at dp in
    if negb (off <? i_size d) then ret (inr (inl off))
    else
      let! r := readi dp off sizeof_dirent in
      let '(k, de) := r in
      if negb (k =? sizeof_dirent) then panic msg
      else
        let! t := test off de in
        match t with
        | Some r => ret (inr (inr r))
        | None => ret (inl (off + sizeof_dirent))
        end) 0.

Definition dirlookup (dp : nat) (name : list Z) : K (option (nat * Z)) :=
  let! d := inode_at dp in
  if negb (i_type d =? T_DIR) then panic "dirlookup not DIR"
  else
    let! r := dirscan dp "dirlookup read" (λ off de,
      if dirent_inum de =? 0 then ret None
      else if namecmp name (dirent_name de) =? 0 then
        let! d := inode_at dp in
        let! ip := iget (i_dev d) (dirent_inum de) in
        ret (Some (ip, off))
      else ret None) in
    ret (match r with inl _ => None | inr x => Some x end).

Definition dirlink (dp : nat) (name : list Z) (inum : Z) : K Z :=
  let! r := dirlookup dp name in
  match r with
  | Some (ip, _) =>
      iput (Some ip) ;;
      ret (-1)
  | None =>
      let! r := dirscan dp "dirlink read" (λ off de,
        ret (if dirent_inum de =? 0 then Some off else None)) in
      let off := match r with inl off => off | inr off => off end in
      let! n := writei dp (mk_dirent (u16 inum) name) off in
      if negb (n =? sizeof_dirent) then panic "dirlink" else ret 0
  end.

(** [namex]: the inode, and the last path element for [nameiparent]. *)
Definition namex (path : list Z) (nameiparent : bool) : K (option (nat * list Z)) :=
  let! ip :=
    (if bool_decide (head path = Some 47) then
       iget ROOTDEV ROOTINO
     else
       let! op := myproc in
       let! p := deref op in
       let! pp := proc_at p in
       let! ip := idup (p_cwd pp) in
       deref ip) in
  loop (S (length path)) (λ '(ip, path, name),
    match skipelem path with
    | None =>
        if nameiparent then
          iput (Some ip) ;;
          ret (inr None)
        else ret (inr (Some (ip, name)))
    | Some (path, name) =>
        ilock (Some ip) ;;
        let! i := inode_at ip in
        if negb (i_type i =? T_DIR) then
          iunlockput (Some ip) ;;
          ret (inr None)
        else if nameiparent && bool_decide (path = []) then
          iunlock (Some ip) ;;
          ret (inr (Some (ip, name)))
        else
          let! next := dirlookup ip name in
          match next with
          | None =>
              iunlockput (Some ip) ;;
              ret (inr None)
          | Some (next, _) =>
              iunlockput (Some ip) ;;
              ret (inl (next, path, name))
          end
    end) (ip, path, []).

Definition namei (path : list Z) : K (option nat) :=
  let! r := namex path false in
  ret (fst <$> r).

Definition nameiparent (path : list Z) : K (option (nat * list Z)) := namex path true.
End env.
