(* ===== verification/FsThm.v ===== *)
(** * FsThm: on-disk encodings and path names (fs.c)

    What [iupdate] writes is what [ilock] reads back, and [skipelem] enumerates the
    components of a path. *)

From stdpp Require Import base numbers gmap strings option list.
From S2P Require Import Prelude Format Machine Boot Mem Mlfq ProcCore Sleeplock Ide Bio Log Inode Console Fs.
Local Open Scope Z_scope.

(** ** Bytes of a block *)

Lemma nth_splice (off : nat) bs l i :
  (off + length bs ≤ length l)%nat →
  nth i (splice off bs l) 0 =
    if decide (off ≤ i < off + length bs)%nat then nth (i - off) bs 0 else nth i l 0.
Proof.
  intros Hl. unfold splice. assert (Ht : length (take off l) = off) by (rewrite length_take; lia).
  destruct (decide (i < off)%nat) as [Hi|Hi].
  - rewrite app_nth1, decide_False by lia.
    rewrite <-(take_drop off l) at 2. by rewrite app_nth1 by lia.
  - rewrite app_nth2, Ht by lia. case_decide as Hd.
    + by rewrite app_nth1 by lia.
    + rewrite app_nth2 by lia. rewrite <-(take_drop (off + length bs) l) at 2.
      rewrite (app_nth2 (take _ _)) by (rewrite length_take; lia).
      f_equal. rewrite length_take. lia.
Qed.

Lemma length_splice (off : nat) bs l :
  (off + length bs ≤ length l)%nat → length (splice off bs l) = length l.
Proof. intros Hl. unfold splice. rewrite !length_app, length_take, length_drop. lia. Qed.

(** Two blocks that agree on the bytes from [a] to [a + n]. *)
Definition agree (a n : nat) (l l' : list Z) : Prop :=
  ∀ i, (a ≤ i < a + n)%nat → nth i l 0 = nth i l' 0.

#[export] Instance agree_preorder a n : PreOrder (agree a n).
Proof. split; [done|]. intros l1 l2 l3 H1 H2 i Hi. by rewrite H1, H2. Qed.

Lemma get32_agree a l l' : agree a 4 l l' → get32 l a = get32 l' a.
Proof. intros H. unfold get32. rewrite !H by lia. done. Qed.
Lemma get16_agree a l l' : agree a 2 l l' → get16 l a = get16 l' a.
Proof. intros H. unfold get16. rewrite !H by lia. done. Qed.

Lemma splice_agree (off : nat) bs l a n :
  (off + length bs ≤ length l)%nat → (a + n ≤ off ∨ off + length bs ≤ a)%nat →
  agree a n (splice off bs l) l.
Proof. intros Hl Hd i Hi. rewrite nth_splice by done. by rewrite decide_False by lia. Qed.

Lemma put32_length l off v : (off + 4 ≤ length l)%nat → length (put32 l off v) = length l.
Proof. intros Hl. unfold put32. by rewrite length_splice. Qed.
Lemma put16_length l off v : (off + 2 ≤ length l)%nat → length (put16 l off v) = length l.
Proof. intros Hl. unfold put16. by rewrite length_splice. Qed.

Lemma get32_put32 l off v : (off + 4 ≤ length l)%nat → get32 (put32 l off v) off = u32 v.
Proof.
  intros Hl. unfold get32, put32. rewrite !nth_splice by (simpl; lia). cbn [length].
  rewrite !decide_True by lia. rewrite Nat.sub_diag.
  replace (off + 1 - off)%nat with 1%nat by lia. replace (off + 2 - off)%nat with 2%nat by lia.
  replace (off + 3 - off)%nat with 3%nat by lia. cbn [nth].
  apply bytes32_word.
Qed.

Lemma get16_put16 l off v : (off + 2 ≤ length l)%nat → get16 (put16 l off v) off = u16 v.
Proof.
  intros Hl. unfold get16, put16. rewrite !nth_splice by (simpl; lia). cbn [length].
  rewrite !decide_True by lia. rewrite Nat.sub_diag.
  replace (off + 1 - off)%nat with 1%nat by lia. cbn [nth].
  unfold u8, u16. rewrite !Z.shiftr_div_pow2 by lia.
  change (2 ^ 8) with 256. change (2 ^ 16) with (256 * 256).
  rewrite !Z.rem_mul_r by lia. lia.
Qed.

(** ** struct dinode *)

Lemma i16_u16 v : - 2 ^ 15 ≤ v < 2 ^ 15 → i16 (u16 v) = v.
Proof.
  intros Hv. unfold i16, u16. rewrite Z.mod_mod by lia. destruct (decide (0 ≤ v)) as [H0|H0].
  - rewrite Z.mod_small by lia. destruct (Z.ltb_spec v (2 ^ 15)); lia.
  - assert (E : v mod 2 ^ 16 = v + 2 ^ 16) by (symmetry; apply (Z.mod_unique _ _ (-1)); lia).
    rewrite E. destruct (Z.ltb_spec (v + 2 ^ 16) (2 ^ 15)); lia.
Qed.

(** The block addresses, one word after the other. *)
Definition put_words (b : nat) (d : list Z) (ws : list Z) : list Z :=
  foldl (λ d '(k, a), put32 d (b + 4 * k) a) d (imap pair ws).

Lemma put_words_spec b d ws :
  (b + 4 * length ws ≤ length d)%nat →
  length (put_words b d ws) = length d ∧
  (∀ k a, ws !! k = Some a → get32 (put_words b d ws) (b + 4 * k) = u32 a) ∧
  (∀ a n, (a + n ≤ b ∨ b + 4 * length ws ≤ a)%nat → agree a n (put_words b d ws) d).
Proof.
  induction ws as [|a ws IH] using rev_ind; intros Hl; [done|].
  rewrite length_app in Hl. simpl in Hl. destruct IH as (IHl & IHg & IHa); [lia|].
  assert (E : put_words b d (ws ++ [a]) = put32 (put_words b d ws) (b + 4 * length ws) a).
  { unfold put_words. rewrite imap_app, foldl_app. simpl. f_equal. lia. }
  rewrite E. clear E. set (d1 := put_words b d ws) in *.
  remember (b + 4 * length ws)%nat as o eqn:Ho. split_and!.
  - rewrite put32_length; lia.
  - intros k x Hk. apply lookup_app_Some in Hk as [Hk|[Hge Hk]].
    + rewrite <-(IHg k x Hk). apply get32_agree, splice_agree; apply lookup_lt_Some in Hk; simpl; lia.
    + assert (k = length ws ∧ x = a) as [-> ->].
      { destruct (k - length ws)%nat eqn:E; [|done]. simpl in Hk. split; [lia|congruence]. }
      rewrite <-Ho. apply get32_put32. lia.
  - intros x n Hx. rewrite length_app in Hx. simpl in Hx. intros i Hi.
    transitivity (nth i d1 0); [apply (splice_agree o _ d1 x n)|apply (IHa x n)]; simpl; lia.
Qed.

(** The fields of an inode fit the fields of [struct dinode]. *)
Record dinode_ok (ip : inode) : Prop := {
  di_type : - 2 ^ 15 ≤ i_type ip < 2 ^ 15;
  di_major : - 2 ^ 15 ≤ i_major ip < 2 ^ 15;
  di_minor : - 2 ^ 15 ≤ i_minor ip < 2 ^ 15;
  di_nlink : - 2 ^ 15 ≤ i_nlink ip < 2 ^ 15;
  di_size : 0 ≤ i_size ip < 2 ^ 32;
  di_len : length (i_addrs ip) = S NDIRECT;
  di_addrs a : a ∈ i_addrs ip → 0 ≤ a < 2 ^ 32;
}.

(** The fields [ilock] reads, as one value. *)
Definition disk_fields (ip : inode) : Z * Z * Z * Z * Z * list Z :=
  (i_type ip, i_major ip, i_minor ip, i_nlink ip, i_size ip, i_addrs ip).

Lemma read_dinode_fields d off ip :
  disk_fields (read_dinode d off ip) =
    (i16 (get16 d off), i16 (get16 d (off + 2)), i16 (get16 d (off + 4)), i16 (get16 d (off + 6)),
     get32 d (off + 8), (λ k, get32 d (off + 12 + 4 * k)) <$> seq 0 (NDIRECT + 1)).
Proof. done. Qed.

Lemma read_dinode_agree d d' off ip :
  agree off 64 d d' → read_dinode d off ip = read_dinode d' off ip.
Proof.
  intros Ha. assert (Hs : ∀ a n, (off ≤ a)%nat → (a + n ≤ off + 64)%nat → agree a n d d').
  { intros a n Ha1 Ha2 i Hi. apply Ha. lia. }
  unfold read_dinode. rewrite !(get16_agree _ d d') by (apply Hs; lia).
  rewrite (get32_agree _ d d') by (apply Hs; lia). do 5 f_equal.
  f_equal. apply list_fmap_ext. intros i k [-> Hk]%lookup_seq. apply get32_agree, Hs; simpl in *; lia.
Qed.

Local Ltac agree_by A := etrans; [apply A; lia|].

Lemma write_dinode_spec ip off d :
  dinode_ok ip → (off + 64 ≤ length d)%nat →
  length (write_dinode ip off d) = length d ∧
  (∀ ip', disk_fields (read_dinode (write_dinode ip off d) off ip') = disk_fields ip) ∧
  (∀ a n, (a + n ≤ off ∨ off + 64 ≤ a)%nat → agree a n (write_dinode ip off d) d).
Proof.
  intros [H1 H2 H3 H4 H5 H6 H7] Hl. unfold write_dinode.
  set (d1 := put16 d off _). set (d2 := put16 d1 _ _). set (d3 := put16 d2 _ _).
  set (d4 := put16 d3 _ _). set (d5 := put32 d4 _ _). fold (put_words (off + 12) d5 (i_addrs ip)).
  assert (L1 : length d1 = length d) by (apply put16_length; lia).
  assert (L2 : length d2 = length d) by (rewrite <-L1; apply put16_length; lia).
  assert (L3 : length d3 = length d) by (rewrite <-L2; apply put16_length; lia).
  assert (L4 : length d4 = length d) by (rewrite <-L3; apply put16_length; lia).
  assert (L5 : length d5 = length d) by (rewrite <-L4; apply put32_length; lia).
  destruct (put_words_spec (off + 12) d5 (i_addrs ip)) as (Lw & Gw & Aw); [rewrite H6; simpl; lia|].
  set (d6 := put_words _ _ _) in *. rewrite H6 in Aw. change (4 * S NDIRECT)%nat with 52%nat in Aw.
  assert (A5 : ∀ a n, (a + n ≤ off + 8 ∨ off + 12 ≤ a)%nat → agree a n d5 d4)
    by (intros a n Ha; apply splice_agree; simpl; lia).
  assert (A4 : ∀ a n, (a + n ≤ off + 6 ∨ off + 8 ≤ a)%nat → agree a n d4 d3)
    by (intros a n Ha; apply splice_agree; simpl; lia).
  assert (A3 : ∀ a n, (a + n ≤ off + 4 ∨ off + 6 ≤ a)%nat → agree a n d3 d2)
    by (intros a n Ha; apply splice_agree; simpl; lia).
  assert (A2 : ∀ a n, (a + n ≤ off + 2 ∨ off + 4 ≤ a)%nat → agree a n d2 d1)
    by (intros a n Ha; apply splice_agree; simpl; lia).
  assert (A1 : ∀ a n, (a + n ≤ off ∨ off + 2 ≤ a)%nat → agree a n d1 d)
    by (intros a n Ha; apply splice_agree; simpl; lia).
  split_and!; [congruence| |].
  2:{ intros a n Ha. by agree_by Aw; agree_by A5; agree_by A4; agree_by A3; agree_by A2; agree_by A1. }
  assert (T1 : get16 d6 off = get16 d1 off)
    by (apply get16_agree; by agree_by Aw; agree_by A5; agree_by A4; agree_by A3; agree_by A2).
  assert (T2 : get16 d6 (off + 2) = get16 d2 (off + 2))
    by (apply get16_agree; by agree_by Aw; agree_by A5; agree_by A4; agree_by A3).
  assert (T3 : get16 d6 (off + 4) = get16 d3 (off + 4))
    by (apply get16_agree; by agree_by Aw; agree_by A5; agree_by A4).
  assert (T4 : get16 d6 (off + 6) = get16 d4 (off + 6))
    by (apply get16_agree; by agree_by Aw; agree_by A5).
  assert (T5 : get32 d6 (off + 8) = get32 d5 (off + 8)) by (apply get32_agree; by agree_by Aw).
  intros ip'. rewrite read_dinode_fields, T1, T2, T3, T4, T5.
  unfold d1 at 1, d2 at 1, d3 at 1, d4 at 1, d5 at 1.
  rewrite !get16_put16, get32_put32, !i16_u16, u32_small by lia.
  unfold disk_fields. f_equal.
  apply list_eq. intros k. rewrite list_lookup_fmap.
  destruct (decide (k < S NDIRECT)%nat) as [Hk|Hk].
  - rewrite lookup_seq_lt by (rewrite Nat.add_1_r; done).
    destruct (lookup_lt_is_Some_2 (i_addrs ip) k) as [a Ha]; [lia|].
    rewrite Ha. change (Some (get32 d6 (off + 12 + 4 * k)) = Some a). f_equal. rewrite (Gw k a Ha). apply u32_small, H7.
    by eapply list_elem_of_lookup_2.
  - rewrite !lookup_ge_None_2; [done|lia|rewrite length_seq, Nat.add_1_r; lia].
Qed.

(** ** Path names *)

(** Reference: the pieces of a path between slashes, without the empty ones. *)
Fixpoint split_slash (path : list Z) : list (list Z) :=
  match path with
  | [] => [[]]
  | c :: path' =>
      let es := split_slash path' in
      if c =? 47 then [] :: es else (c :: hd [] es) :: tl es
  end.
Definition components (path : list Z) : list (list Z) :=
  filter (λ e, e ≠ []) (split_slash path).

(** The elements that the loop of [namex] visits. *)
Fixpoint elems (fuel : nat) (path : list Z) : option (list (list Z)) :=
  match fuel with
  | O => None
  | S fuel =>
      match skipelem path with
      | None => Some []
      | Some (rest, e) => cons e <$> elems fuel rest
      end
  end.

Lemma components_skip path : components (skip_slash path) = components path.
Proof.
  induction path as [|c path IH]; [done|]. cbn [skip_slash].
  destruct (Z.eqb_spec c 47) as [->|Hc]; [|done]. rewrite IH. unfold components.
  cbn [split_slash]. by rewrite Z.eqb_refl, filter_cons_False by naive_solver.
Qed.

Lemma split_slash_nonempty path : split_slash path ≠ [].
Proof. destruct path as [|c path]; simpl; [done|]. by destruct (c =? 47). Qed.

Lemma split_elem_spec path e rest :
  split_elem path = (e, rest) →
  path = e ++ rest ∧ (rest = [] ∨ ∃ r, rest = 47 :: r) ∧
  split_slash path = e :: tl (split_slash rest).
Proof.
  revert e rest. induction path as [|c path IH]; intros e rest; cbn [split_elem].
  { intros [= <- <-]. split_and!; [done|by left|done]. }
  destruct (Z.eqb_spec c 47) as [->|Hc].
  - intros [= <- <-]. split_and!; [done|eauto|done].
  - destruct (split_elem path) as [e' rest'] eqn:E. intros [= <- <-].
    destruct (IH e' rest' eq_refl) as (-> & Hr & Hs). split_and!; [done|done|].
    cbn [split_slash app]. rewrite (proj2 (Z.eqb_neq _ _) Hc), Hs. done.
Qed.

Lemma components_rest rest :
  rest = [] ∨ (∃ r, rest = 47 :: r) →
  filter (λ e, e ≠ []) (tl (split_slash rest)) = components rest.
Proof.
  unfold components. intros [->|[r ->]]; [done|]. cbn [split_slash]. rewrite Z.eqb_refl.
  by rewrite filter_cons_False by naive_solver.
Qed.

Lemma skip_slash_head path c path' : skip_slash path = c :: path' → c ≠ 47.
Proof.
  induction path as [|x path IH]; [done|]. cbn [skip_slash].
  destruct (Z.eqb_spec x 47); [done|congruence].
Qed.
Lemma skip_slash_length path : (length (skip_slash path) ≤ length path)%nat.
Proof. induction path as [|x path IH]; simpl; [lia|]. destruct (x =? 47); simpl; lia. Qed.

(** One step: the first component, cut to DIRSIZ, and the others. *)
Lemma skipelem_spec path :
  match skipelem path with
  | None => components path = []
  | Some (rest, e) => ∃ e', e = take DIRSIZ e' ∧ components path = e' :: components rest ∧
      head rest ≠ Some 47 ∧ (length rest < length path)%nat
  end.
Proof.
  unfold skipelem. rewrite <-(components_skip path). pose proof (skip_slash_length path) as Hlen.
  destruct (skip_slash path) as [|c p] eqn:Ep; [done|].
  pose proof (skip_slash_head _ _ _ Ep) as Hc.
  destruct (split_elem (c :: p)) as [e rest] eqn:E.
  destruct (split_elem_spec _ _ _ E) as (Happ & Hrest & Hs).
  destruct e as [|c' e].
  { simpl in Happ. destruct Hrest as [->|[r ->]]; congruence. }
  exists (c' :: e). split_and!; [done| | |].
  - unfold components at 1. rewrite Hs, filter_cons_True by done.
    by rewrite components_rest, components_skip.
  - destruct (skip_slash rest) as [|x r] eqn:Er; [done|]. simpl. intros [= ->].
    by apply skip_slash_head in Er.
  - pose proof (skip_slash_length rest). apply (f_equal length) in Happ. simpl in *.
    rewrite length_app in Happ. lia.
Qed.

(** ** The claims *)

(** Path resolution visits the components of the path in order, each cut to
    DIRSIZ characters, whatever the number and place of the slashes, and ends. *)
Theorem path_elements path :
  elems (S (length path)) path = Some (take DIRSIZ <$> components path).
Proof.
  assert (Hgen : ∀ fuel path, (length path < fuel)%nat →
    elems fuel path = Some (take DIRSIZ <$> components path)); [|apply Hgen; lia].
  clear path. induction fuel as [|fuel IH]; intros path Hf; [lia|]. cbn [elems].
  pose proof (skipelem_spec path) as Hs. destruct (skipelem path) as [[rest e]|]; [|by rewrite Hs].
  destruct Hs as (e' & -> & -> & _ & Hlen). rewrite IH by lia. done.
Qed.

(** What iupdate stores for an inode is what ilock reads back, and the other
    inodes of the block are untouched. *)
Theorem dinode_round_trip ip ip' inum d :
  dinode_ok ip → length d = Z.to_nat BSIZE →
  disk_fields (read_dinode (write_dinode ip (dinode_off inum) d) (dinode_off inum) ip') =
    disk_fields ip ∧
  ∀ j, j mod IPB ≠ inum mod IPB →
    read_dinode (write_dinode ip (dinode_off inum) d) (dinode_off j) ip' =
    read_dinode d (dinode_off j) ip'.
Proof.
  intros Hok Hl.
  assert (Hoff : ∀ i, ∃ k, dinode_off i = (64 * k)%nat ∧ Z.of_nat k = i mod IPB ∧ (k < 8)%nat).
  { intros i. exists (Z.to_nat (i mod IPB)). unfold dinode_off, IPB, sizeof_dinode, BSIZE.
    change (512 / 64) with 8. pose proof (Z.mod_pos_bound i 8). lia. }
  destruct (Hoff inum) as (k & Ek & Hk & Hlt). rewrite Ek.
  destruct (write_dinode_spec ip (64 * k) d Hok) as (_ & Hf & Ha).
  { rewrite Hl. change (Z.to_nat BSIZE) with 512%nat. lia. }
  split; [apply Hf|]. intros j Hj. destruct (Hoff j) as (k' & Ek' & Hk' & Hlt'). rewrite Ek'.
  apply read_dinode_agree, Ha. assert (k ≠ k') by (intros ->; congruence). lia.
Qed.

Definition one_file : inode :=
  set_i_type T_FILE (set_i_nlink 1 (set_i_size 700 (set_i_addrs
    ([59; 60] ++ replicate 11 0) zero_inode))).
Lemma dinode_round_trip_witness :
  disk_fields (read_dinode (write_dinode one_file (dinode_off 19) (replicate 512 7))
    (dinode_off 19) zero_inode) = disk_fields one_file.
Proof.
  apply (dinode_round_trip one_file zero_inode 19 (replicate 512 7)).
  - split; [by vm_compute; split..|by vm_compute|]. intros a Ha.
    change (i_addrs one_file) with ([59; 60] ++ replicate 11 0) in Ha. simpl in Ha.
    repeat (apply elem_of_cons in Ha as [->|Ha]; [lia|]). by apply not_elem_of_nil in Ha.
  - rewrite length_replicate. reflexivity.
Defined.
