(* ===== verification/Pipe.v ===== *)
(** * Pipe: the bounded byte queue of pipe.c

    A [struct pipe] fills the page that [kalloc] returned for it; [k_pipes] holds
    the live pipes by the address of that page. *)

From stdpp Require Import base numbers gmap strings option list.
From S2P Require Import Prelude Format Machine Mem Mlfq ProcCore Kalloc.
Local Open Scope kernel_scope.
Local Open Scope Z_scope.

Definition pipe_at (p : Z) : K pipe := λ s,
  match k_pipes s !! p with
  | Some r => Ok r s
  | None => Undef "pipe pointer"
  end.
Definition upd_pipe (p : Z) (f : pipe → pipe) : K unit := λ s,
  match k_pipes s !! p with
  | Some r => Ok tt (set_k_pipes (<[p := f r]> (k_pipes s)) s)
  | None => Undef "pipe pointer"
  end.

(** [p->nwrite == p->nread + PIPESIZE], [p->nread == p->nwrite] *)
Definition pipe_full (p : pipe) : bool := pi_nwrite p =? u32 (pi_nread p + PIPESIZE).
Definition pipe_empty (p : pipe) : bool := pi_nread p =? pi_nwrite p.
(** [p->data[p->nwrite++ % PIPESIZE] = b] *)
Definition pipe_put (b : Z) (p : pipe) : pipe :=
  set_pi_nwrite (u32 (pi_nwrite p + 1))
    (set_pi_data (<[Z.to_nat (pi_nwrite p mod PIPESIZE) := b]> (pi_data p)) p).
(** [p->data[p->nread++ % PIPESIZE]] *)
Definition pipe_first (p : pipe) : Z := nth (Z.to_nat (pi_nread p mod PIPESIZE)) (pi_data p) 0.
Definition pipe_drop (p : pipe) : pipe := set_pi_nread (u32 (pi_nread p + 1)) p.

(** [myproc()->killed] *)
Definition mykilled : K bool :=
  let! op := myproc in
  let! p := deref op in
  let! pp := proc_at p in
  ret (p_killed pp).

Section env.
Context `{Env}.

Definition pipeclose (p : Z) (writable : bool) : K unit :=
  acquire (LK_pipe p) ;;
  (if writable then
     upd_pipe p (set_pi_writeopen false) ;;
     wakeup (CH_nread p)
   else
     upd_pipe p (set_pi_readopen false) ;;
     wakeup (CH_nwrite p)) ;;
  let! pp := pipe_at p in
  if negb (pi_readopen pp) && negb (pi_writeopen pp) then
    release (LK_pipe p) ;;
    kfree p ;;
    modify (λ s, set_k_pipes (delete p (k_pipes s)) s)
  else release (LK_pipe p).

(** The loops over [i] and over the full buffer; an iteration sleeps or stores. *)
Definition pipewrite (p : Z) (addr : list Z) : K Z :=
  let n := Z.of_nat (length addr) in
  acquire (LK_pipe p) ;;
  let! r := loop (FUEL + S (length addr)) (λ bytes,
    match bytes with
    | [] => ret (inr true)
    | b :: bytes' =>
        let! pp := pipe_at p in
        if pipe_full pp then
          let! killed := (if negb (pi_readopen pp) then ret true else mykilled) in
          if killed then
            release (LK_pipe p) ;;
            ret (inr false)
          else
            wakeup (CH_nread p) ;;
            sleep (CH_nwrite p) (Some (LK_pipe p)) ;;
            ret (inl bytes)
        else
          upd_pipe p (pipe_put b) ;;
          ret (inl bytes')
    end) addr in
  if negb r then ret (-1)
  else
    wakeup (CH_nread p) ;;
    release (LK_pipe p) ;;
    ret n.

(** The copy loop of [piperead]. *)
Definition pipe_copy (p n : Z) : K (list Z) :=
  loop (S (Z.to_nat n)) (λ '(i, got),
    if negb (i <? n) then ret (inr got)
    else
      let! pp := pipe_at p in
      if pipe_empty pp then ret (inr got)
      else
        upd_pipe p pipe_drop ;;
        ret (inl (i + 1, got ++ [pipe_first pp]))) (0, []).

(** The result and the bytes stored at [addr]. *)
Definition piperead (p n : Z) : K (Z * list Z) :=
  acquire (LK_pipe p) ;;
  let! r := loop FUEL (λ _ : unit,
    let! pp := pipe_at p in
    if pipe_empty pp && pi_writeopen pp then
      let! killed := mykilled in
      if killed then
        release (LK_pipe p) ;;
        ret (inr false)
      else
        sleep (CH_nread p) (Some (LK_pipe p)) ;;
        ret (inl tt)
    else ret (inr true)) tt in
  if negb r then ret (-1, [])
  else
    let! got := pipe_copy p n in
    wakeup (CH_nwrite p) ;;
    release (LK_pipe p) ;;
    ret (Z.of_nat (length got), got).
End env.
