(* ===== verification/File.v ===== *)
(** * File: open files (file.c) and pipe creation *)

From stdpp Require Import base numbers gmap strings option list.
From S2P Require Import Prelude Format Machine Mem Mlfq ProcCore Kalloc Sleeplock Ide Bio Log Inode.
From S2P Require Import Console Fs Pipe.
Local Open Scope kernel_scope.
Local Open Scope Z_scope.

Definition file_at (f : nat) : K file := λ s,
  match k_ftable s !! f with
  | Some r => Ok r s
  | None => Undef "file pointer"
  end.
Definition upd_file (f : nat) (g : file → file) : K unit := λ s,
  match k_ftable s !! f with
  | Some r => Ok tt (set_k_ftable (<[f := g r]> (k_ftable s)) s)
  | None => Undef "file pointer"
  end.

Section env.
Context `{Env}.

Definition filealloc : K (option nat) :=
  acquire LK_ftable ;;
  let! r := for_find (seq 0 NFILE) (λ f,
    let! fp := file_at f in
    if f_ref fp =? 0 then
      upd_file f (set_f_ref 1) ;;
      release LK_ftable ;;
      ret (Some f)
    else ret None) in
  match r with
  | Some f => ret (Some f)
  | None => release LK_ftable ;; ret None
  end.

Definition filedup (f : nat) : K nat :=
  acquire LK_ftable ;;
  let! fp := file_at f in
  if f_ref fp <? 1 then panic "filedup"
  else
    upd_file f (set_f_ref (f_ref fp + 1)) ;;
    release LK_ftable ;;
    ret f.

Definition fileclose (f : nat) : K unit :=
  acquire LK_ftable ;;
  let! fp := file_at f in
  if f_ref fp <? 1 then panic "fileclose"
  else
    upd_file f (set_f_ref (f_ref fp - 1)) ;;
    if 0 <? f_ref fp - 1 then release LK_ftable
    else
      let! ff := file_at f in
      upd_file f (set_f_ref 0) ;;
      upd_file f (set_f_type FD_NONE) ;;
      release LK_ftable ;;
      match f_type ff with
      | FD_PIPE => pipeclose (f_pipe ff) (f_writable ff)
      | FD_INODE =>
          begin_op ;;
          iput (f_ip ff) ;;
          end_op
      | FD_NONE => ret tt
      end.

Definition filestat (f : nat) : K (option (Z * Z * Z * Z * Z)) :=
  let! fp := file_at f in
  match f_type fp with
  | FD_INODE =>
      ilock (f_ip fp) ;;
      let! ip := deref (f_ip fp) in
      let! st := stati ip in
      iunlock (f_ip fp) ;;
      ret (Some st)
  | _ => ret None
  end.

Definition fileread (f : nat) (n : Z) : K (Z * list Z) :=
  let! fp := file_at f in
  if negb (f_readable fp) then ret (-1, [])
  else
    match f_type fp with
    | FD_PIPE => piperead (f_pipe fp) n
    | FD_INODE =>
        ilock (f_ip fp) ;;
        let! ip := deref (f_ip fp) in
        let! fp' := file_at f in
        let! r := readi ip (f_off fp') (u32 n) in
        when (0 <? fst r) (upd_file f (λ g, set_f_off (u32 (f_off g + fst r)) g)) ;;
        iunlock (f_ip fp) ;;
        ret r
    | FD_NONE => panic "fileread"
    end.

Definition filewrite (f : nat) (addr : list Z) : K Z :=
  let n := Z.of_nat (length addr) in
  let! fp := file_at f in
  if negb (f_writable fp) then ret (-1)
  else
    match f_type fp with
    | FD_PIPE => pipewrite (f_pipe fp) addr
    | FD_INODE =>
        let max := ((MAXOPBLOCKS - 1 - 1 - 2) / 2) * 512 in
        let! i := loop (2 + Z.to_nat (n / max)) (λ i,
          if negb (i <? n) then ret (inr i)
          else
            let n1 := Z.min (n - i) max in
            begin_op ;;
            ilock (f_ip fp) ;;
            let! ip := deref (f_ip fp) in
            let! fp' := file_at f in
            let! r := writei ip (take (Z.to_nat n1) (drop (Z.to_nat i) addr)) (f_off fp') in
            when (0 <? r) (upd_file f (λ g, set_f_off (u32 (f_off g + r)) g)) ;;
            iunlock (f_ip fp) ;;
            end_op ;;
            if r <? 0 then ret (inr i)
            else if negb (r =? n1) then panic "short filewrite"
            else ret (inl (i + r))) 0 in
        ret (if i =? n then n else -1)
    | FD_NONE => panic "filewrite"
    end.

(** [pipealloc]: the read end and the write end. *)
Definition pipe_bad (p : Z) (f0 f1 : option nat) : K (option (nat * nat)) :=
  when (negb (p =? 0)) (kfree p) ;;
  match f0 with Some f => fileclose f | None => ret tt end ;;
  match f1 with Some f => fileclose f | None => ret tt end ;;
  ret None.

Definition pipealloc : K (option (nat * nat)) :=
  let! f0 := filealloc in
  match f0 with
  | None => pipe_bad 0 None None
  | Some r =>
      let! f1 := filealloc in
      match f1 with
      | None => pipe_bad 0 f0 None
      | Some w =>
          let! p := kalloc in
          if p =? 0 then pipe_bad 0 f0 f1
          else
            modify (λ s, set_k_pipes
              (<[p := mk_pipe (replicate (Z.to_nat PIPESIZE) 1) 0 0 true true]> (k_pipes s)) s) ;;
            upd_file r (set_f_type FD_PIPE) ;;
            upd_file r (set_f_readable true) ;;
            upd_file r (set_f_writable false) ;;
            upd_file r (set_f_pipe p) ;;
            upd_file w (set_f_type FD_PIPE) ;;
            upd_file w (set_f_readable false) ;;
            upd_file w (set_f_writable true) ;;
            upd_file w (set_f_pipe p) ;;
            ret (Some (r, w))
      end
  end.
End env.
