(* ===== verification/Proc.v ===== *)
(** * Proc: the life of a process (proc.c)

    Creation ([allocproc], [userinit], [fork]), growth, exit, and the two ways a
    parent collects a child ([wait], [waitx]); the process listing [getps].  What
    runs inside one critical section of ptable.lock is a definition of its own. *)

From stdpp Require Import base numbers gmap strings option list.
From S2P Require Import Prelude Format Machine Mem Mlfq ProcCore Kalloc Vm Sleeplock Ide Bio Log.
From S2P Require Import Inode Console Fs Pipe File.
Local Open Scope kernel_scope.
Local Open Scope Z_scope.

Definition sizeof_trapframe : Z := 76.
Definition sizeof_context : Z := 20.

(** [safestrcpy] of string.c between C arrays. *)
Definition safestrcpy_l (dst t : list Z) (n : nat) : list Z :=
  match n with
  | O => dst
  | S n =>
      let len := default (length t) (fst <$> list_find (λ b, b = 0) t) in
      let copied := take (min n (S len)) (t ++ [0]) in
      take (length dst) (copied ++ [0]) ++ drop (S (length copied)) dst
  end.

Section env.
Context `{Env}.

(** ** allocproc *)

(** The first critical section: an UNUSED slot becomes EMBRYO with a new pid. *)
Definition allocproc_enter : K (option nat) :=
  acquire LK_ptable ;;
  let! r := for_find slots (λ i,
    let! p := proc_at i in
    ret (if bool_decide (p_state p = UNUSED) then Some i else None)) in
  match r with
  | None =>
      release LK_ptable ;;
      ret None
  | Some i =>
      upd_proc i (set_p_state EMBRYO) ;;
      let! pid := gets k_nextpid in
      upd_proc i (set_p_pid pid) ;;
      modify (set_k_nextpid (i32 (pid + 1))) ;;
      release LK_ptable ;;
      ret (Some i)
  end.

(** The rest: the kernel stack, the first context, the accounting fields. *)
Definition allocproc_init (i : nat) : K (option nat) :=
  let! kstack := kalloc in
  upd_proc i (set_p_kstack kstack) ;;
  if kstack =? 0 then
    upd_proc i (set_p_state UNUSED) ;;
    ret None
  else
    let sp := kstack + KSTACKSIZE - sizeof_trapframe in
    upd_proc i (set_p_tfp sp) ;;
    let sp := sp - 4 in
    store32 sp TRAPRET ;;
    let sp := sp - sizeof_context in
    upd_proc i (set_p_contextp sp) ;;
    upd_proc i (set_p_context (mk_context 0 0 0 0 0)) ;;
    upd_proc i (λ p, set_p_context (set_cx_eip FORKRET (p_context p)) p) ;;
    acquire LK_ticks ;;
    let! t := gets k_ticks in
    upd_proc i (set_p_ctime (i32 t)) ;;
    release LK_ticks ;;
    upd_proc i (set_p_etime 0) ;;
    upd_proc i (set_p_rtime 0) ;;
    upd_proc i (set_p_iotime 0) ;;
    upd_proc i (set_p_n_run 0) ;;
    upd_proc i (set_p_priority 60) ;;
    when (is_sched MLFQ) (
      upd_proc i (set_p_cur_q 0) ;;
      for_each (seq 0 5) (λ k, upd_proc i (λ p, set_p_q (<[k := 0]> (p_q p)) p)) ;;
      upd_proc i (set_p_qtime 0) ;;
      upd_proc i (set_p_flg 0)) ;;
    ret (Some i).

Definition allocproc : K (option nat) :=
  let! r := allocproc_enter in
  match r with
  | None => ret None
  | Some i => allocproc_init i
  end.

(** ** userinit, growproc, fork *)

Definition userinit : K unit :=
  let! op := allocproc in
  modify (set_k_initproc op) ;;
  let! d := setupkvm in
  let! p := deref op in
  upd_proc p (set_p_pgdir d) ;;
  if d =? 0 then panic "userinit: out of memory?"
  else
    inituvm d INITCODE INITCODE_SIZE ;;
    upd_proc p (set_p_sz PGSIZE) ;;
    upd_proc p (set_p_tf zero_trapframe) ;;
    let upd_tf f := upd_proc p (λ p, set_p_tf (f (p_tf p)) p) in
    upd_tf (set_tf_cs (Z.lor (SEG_UCODE * 8) DPL_USER)) ;;
    upd_tf (set_tf_ds (Z.lor (SEG_UDATA * 8) DPL_USER)) ;;
    upd_tf (λ tf, set_tf_es (tf_ds tf) tf) ;;
    upd_tf (λ tf, set_tf_ss (tf_ds tf) tf) ;;
    upd_tf (set_tf_eflags FL_IF) ;;
    upd_tf (set_tf_esp PGSIZE) ;;
    upd_tf (set_tf_eip 0) ;;
    upd_proc p (λ p, set_p_name (safestrcpy_l (p_name p) (chars "initcode") 16) p) ;;
    let! cwd := namei (chars "/") in
    upd_proc p (set_p_cwd cwd) ;;
    acquire LK_ptable ;;
    upd_proc p (set_p_state RUNNABLE) ;;
    when (is_sched MLFQ) (
      let! pp := proc_at p in
      let! found := mlfq_find 0 (p_pid pp) in
      match found with
      | Some _ => ret tt
      | None =>
          upd_proc p (set_p_cur_q 0) ;;
          mlfq_push 0 p
      end) ;;
    release LK_ptable.

Definition growproc (n : Z) : K Z :=
  let! op := myproc in
  let! cur := deref op in
  let! p := proc_at cur in
  let sz := p_sz p in
  let! r :=
    (if 0 <? n then
       let! r := allocuvm (p_pgdir p) sz (u32 (sz + n)) in
       ret (if r =? 0 then None else Some (u32 r))
     else if n <? 0 then
       let! r := deallocuvm (p_pgdir p) sz (u32 (sz + n)) in
       ret (if r =? 0 then None else Some (u32 r))
     else ret (Some sz)) in
  match r with
  | None => ret (-1)
  | Some sz =>
      upd_proc cur (set_p_sz sz) ;;
      switchuvm (Some cur) ;;
      ret 0
  end.

(** The critical section that lets other processors run the child. *)
Definition fork_ready (np : nat) : K unit :=
  acquire LK_ptable ;;
  upd_proc np (set_p_state RUNNABLE) ;;
  when (is_sched MLFQ) (
    let! p := proc_at np in
    mlfq_enqueue (p_cur_q p) np) ;;
  release LK_ptable.

Definition fork : K Z :=
  let! op := myproc in
  let! onp := allocproc in
  match onp with
  | None => ret (-1)
  | Some np =>
      let! cur := deref op in
      let! cp := proc_at cur in
      let! d := copyuvm (p_pgdir cp) (p_sz cp) in
      upd_proc np (set_p_pgdir d) ;;
      if d =? 0 then
        let! npp := proc_at np in
        kfree (p_kstack npp) ;;
        upd_proc np (set_p_kstack 0) ;;
        upd_proc np (set_p_state UNUSED) ;;
        ret (-1)
      else
        let! cp := proc_at cur in
        upd_proc np (set_p_sz (p_sz cp)) ;;
        upd_proc np (set_p_parent (Some cur)) ;;
        upd_proc np (set_p_tf (p_tf cp)) ;;
        upd_proc np (λ p, set_p_tf (set_tf_eax 0 (p_tf p)) p) ;;
        for_each (seq 0 NOFILE) (λ i,
          let! cp := proc_at cur in
          let! o := arr_get (p_ofile cp) (Z.of_nat i) in
          match o with
          | None => ret tt
          | Some f =>
              let! f := filedup f in
              upd_proc np (λ p, set_p_ofile (<[i := Some f]> (p_ofile p)) p)
          end) ;;
        let! cp := proc_at cur in
        let! cwd := idup (p_cwd cp) in
        upd_proc np (set_p_cwd cwd) ;;
        let! cp := proc_at cur in
        upd_proc np (λ p, set_p_name (safestrcpy_l (p_name p) (p_name cp) 16) p) ;;
        let! npp := proc_at np in
        let pid := p_pid npp in
        fork_ready np ;;
        ret pid
  end.

(** ** exit *)

Definition exit_close (cur : nat) : K unit :=
  for_each (seq 0 NOFILE) (λ fd,
    let! p := proc_at cur in
    let! o := arr_get (p_ofile p) (Z.of_nat fd) in
    match o with
    | None => ret tt
    | Some f =>
        fileclose f ;;
        upd_proc cur (λ p, set_p_ofile (<[fd := None]> (p_ofile p)) p)
    end) ;;
  begin_op ;;
  let! p := proc_at cur in
  iput (p_cwd p) ;;
  end_op ;;
  upd_proc cur (set_p_cwd None).

(** Pass one slot, if it is a child of [cur], to init. *)
Definition exit_child (cur i : nat) : K unit :=
  let! p := proc_at i in
  when (bool_decide (p_parent p = Some cur)) (
    let! initproc := gets k_initproc in
    upd_proc i (set_p_parent initproc) ;;
    let! p := proc_at i in
    when (bool_decide (p_state p = ZOMBIE)) (wakeup1 (CH_proc <$> initproc))).

(** From [acquire(&ptable.lock)] to the call of [sched]. *)
Definition exit_enter (cur : nat) : K unit :=
  acquire LK_ptable ;;
  let! p := proc_at cur in
  wakeup1 (CH_proc <$> p_parent p) ;;
  for_each slots (exit_child cur) ;;
  upd_proc cur (set_p_state ZOMBIE) ;;
  let! t := gets k_ticks in
  upd_proc cur (set_p_etime (i32 t)) ;;
  let! p := proc_at cur in
  cprintf "Time taken by the process pid %d time %d\nRun time %d IO time %d end time %d create time %d priority %d\n"
    [PInt (p_pid p); PInt (i32 (p_etime p - p_ctime p)); PInt (p_rtime p); PInt (p_iotime p);
     PInt (p_etime p); PInt (p_ctime p); PInt (p_priority p)].

Definition exit : K unit :=
  let! op := myproc in
  let! initproc := gets k_initproc in
  if bool_decide (op = initproc) then panic "init exiting"
  else
    let! cur := deref op in
    exit_close cur ;;
    exit_enter cur ;;
    sched ;;
    panic "zombie exit".

(** ** wait, waitx *)

(** What both do with a ZOMBIE child [i], up to the return. *)
Definition reap (i : nat) : K Z :=
  let! p := proc_at i in
  let pid := p_pid p in
  kfree (p_kstack p) ;;
  upd_proc i (set_p_kstack 0) ;;
  freevm (p_pgdir p) ;;
  upd_proc i (set_p_pid 0) ;;
  upd_proc i (set_p_parent None) ;;
  upd_proc i (λ p, set_p_name (<[0%nat := 0]> (p_name p)) p) ;;
  upd_proc i (set_p_killed false) ;;
  upd_proc i (set_p_state UNUSED) ;;
  when (is_sched MLFQ) (
    let! p := proc_at i in
    let! found := mlfq_find (p_cur_q p) (p_pid p) in
    match found with
    | Some ind => mlfq_remove (p_cur_q p) ind
    | None => ret tt
    end) ;;
  release LK_ptable ;;
  ret pid.

(** One scan of the table: the first ZOMBIE child, and [havekids] if none. *)
Fixpoint wait_scan (cur : nat) (l : list nat) (havekids : bool) : K (nat + bool) :=
  match l with
  | [] => ret (inr havekids)
  | i :: l' =>
      let! p := proc_at i in
      if bool_decide (p_parent p ≠ Some cur) then wait_scan cur l' havekids
      else if bool_decide (p_state p = ZOMBIE) then ret (inl i)
      else wait_scan cur l' true
  end.

(** The endless loop of [wait] and [waitx]; [None] is the return of -1. *)
Definition wait_loop (cur : nat) : K (option (nat * Z)) :=
  loop FUEL (λ _ : unit,
    let! r := wait_scan cur slots false in
    match r with
    | inl i =>
        let! pid := reap i in
        ret (inr (Some (i, pid)))
    | inr havekids =>
        let! p := proc_at cur in
        if negb havekids || p_killed p then
          release LK_ptable ;;
          ret (inr None)
        else
          sleep (CH_proc cur) (Some LK_ptable) ;;
          ret (inl tt)
    end) tt.

Definition wait : K Z :=
  let! op := myproc in
  acquire LK_ptable ;;
  let! cur := deref op in
  let! r := wait_loop cur in
  ret (match r with None => -1 | Some (_, pid) => pid end).

(** [waitx]; [wtime] and [rtime] store to the caller's two variables.  The reads of
    [p] come after [reap] has released ptable.lock and marked the slot UNUSED. *)
Definition waitx (wtime rtime : Z → K unit) : K Z :=
  let! op := myproc in
  acquire LK_ptable ;;
  let! cur := deref op in
  let! r := wait_loop cur in
  match r with
  | None => ret (-1)
  | Some (i, pid) =>
      let! p := proc_at i in
      rtime (p_rtime p) ;;
      let! p := proc_at i in
      wtime (i32 (p_etime p - p_ctime p - p_rtime p - p_iotime p)) ;;
      let! p := proc_at i in
      cprintf "\netime %d  ctime %d    rtime %d  iotime %d priority %d\n"
        [PInt (p_etime p); PInt (p_ctime p); PInt (p_rtime p); PInt (p_iotime p);
         PInt (p_priority p)] ;;
      ret pid
  end.

(** ** getps *)

Definition ps_state (st : procstate) : string :=
  match st with
  | SLEEPING => "SLEEPING\t"
  | RUNNING => "RUNNING \t"
  | RUNNABLE => "RUNNABLE\t"
  | ZOMBIE => if is_sched MLFQ then "ZOMBIE  \t" else "ZOMBIE \t"
  | _ => ""
  end.

Definition getps_slot (i : nat) : K unit :=
  let! p := proc_at i in
  when (bool_decide (p_state p ∈ [SLEEPING; RUNNING; RUNNABLE; ZOMBIE])) (
    cprintf "%d\t\t" [PInt (p_pid p)] ;;
    cprintf "%d\t\t" [PInt (p_priority p)] ;;
    cprintf (ps_state (p_state p)) [] ;;
    cprintf "%d\t\t" [PInt (p_ctime p)] ;;
    cprintf "%d\t\t" [PInt (p_rtime p)] ;;
    let! t := gets k_ticks in
    (if is_sched MLFQ then cprintf "%d\t\t" [PInt (i32 (t - p_qtime p))]
     else cprintf "%d\t\t" [PInt (i32 (t - p_ctime p - p_rtime p - p_iotime p))]) ;;
    cprintf "%d\t\t" [PInt (p_n_run p)] ;;
    when (is_sched MLFQ) (
      cprintf "%d\t" [PInt (p_cur_q p)] ;;
      for_each (seqZ 0 5) (λ k,
        let! v := arr_get (p_q p) k in
        cprintf "%d\t" [PInt v])) ;;
    cprintf "%s\n" [PStr (p_name p)]).

Definition getps : K Z :=
  cprintf (if is_sched MLFQ
    then "PID\t\tPriority\tState\t\tc_time\t\tr_time\t\tw_time\t\tn_run\t\tcur_q\tq0\tq1\tq2\tq3\tq04\tName\n"
    else "PID\t\tPriority\tState\t\tc_time\t\tr_time\t\tw_time\t\tn_run\t\tName\n") [] ;;
  acquire LK_ptable ;;
  for_each slots getps_slot ;;
  release LK_ptable ;;
  ret 0.

(** ** forkret *)

Definition forkret : K unit :=
  release LK_ptable ;;
  let! first := gets k_first in
  when first (
    modify (set_k_first false) ;;
    iinit ROOTDEV ;;
    initlog ROOTDEV).
End env.
