(* ===== verification/Syscall.v ===== *)
(** * Syscall: system call arguments (syscall.c) and process system calls (sysproc.c)

    A system call runs with the caller's page table installed, so a dereferenced
    user pointer goes through the page directory in %cr3.  A fault there is a trap
    from kernel mode, which [trap] answers with [panic("trap")]. *)

From stdpp Require Import base numbers gmap strings option list.
From S2P Require Import Prelude Format Machine Mem Mlfq ProcCore Kalloc Vm Sleeplock Ide Bio Log.
From S2P Require Import Inode Console Fs Pipe File Proc.
Local Open Scope kernel_scope.
Local Open Scope Z_scope.

(** ** User memory *)

(** The MMU: the kernel address of user virtual address [va]. *)
Definition translate (va : Z) : K Z :=
  let! c := gets k_cpu in
  let! pde := load32 (P2V (c_cr3 c) + 4 * PDX va) in
  if negb (has pde PTE_P) then panic "trap"
  else
    let! pte := load32 (P2V (PTE_ADDR pde) + 4 * PTX va) in
    if negb (has pte PTE_P) then panic "trap"
    else ret (P2V (PTE_ADDR pte) + va mod PGSIZE).

Definition uload8 (va : Z) : K Z := let! a := translate va in load8 a.
Definition ustore8 (va v : Z) : K unit := let! a := translate va in store8 a v.
Definition uload32 (va : Z) : K Z :=
  let! b0 := uload8 va in
  let! b1 := uload8 (va + 1) in
  let! b2 := uload8 (va + 2) in
  let! b3 := uload8 (va + 3) in
  ret (b0 + 2 ^ 8 * b1 + 2 ^ 16 * b2 + 2 ^ 24 * b3).
Definition ustore32 (va v : Z) : K unit :=
  ustore8 va v ;;
  ustore8 (va + 1) (Z.shiftr v 8) ;;
  ustore8 (va + 2) (Z.shiftr v 16) ;;
  ustore8 (va + 3) (Z.shiftr v 24).
(** [n] bytes at a user address, and a string of bytes to it. *)
Fixpoint uload_bytes (va : Z) (n : nat) : K (list Z) :=
  match n with
  | O => ret []
  | S n =>
      let! b := uload8 va in
      let! l := uload_bytes (va + 1) n in
      ret (b :: l)
  end.
Fixpoint ustore_bytes (va : Z) (l : list Z) : K unit :=
  match l with
  | [] => ret tt
  | b :: l =>
      ustore8 va b ;;
      ustore_bytes (va + 1) l
  end.

(** [myproc()], dereferenced. *)
Definition curproc : K (nat * proc) :=
  let! op := myproc in
  let! p := deref op in
  let! pp := proc_at p in
  ret (p, pp).

(** ** Arguments; [None] is the return of -1 *)

Definition fetchint (addr : Z) : K (option Z) :=
  let! r := curproc in
  let sz := p_sz (snd r) in
  if (sz <=? addr) || (sz <? u32 (addr + 4)) then ret None
  else
    let! v := uload32 addr in
    ret (Some (i32 v)).

(** The string and so its length; the scan stops at [curproc->sz]. *)
Definition fetchstr (addr : Z) : K (option (list Z)) :=
  let! r := curproc in
  let sz := p_sz (snd r) in
  if sz <=? addr then ret None
  else
    loop (S (Z.to_nat (sz - addr))) (λ '(s, acc),
      if negb (s <? sz) then ret (inr None)
      else
        let! b := uload8 s in
        if b =? 0 then ret (inr (Some acc)) else ret (inl (s + 1, acc ++ [b]))) (addr, []).

Definition argint (n : Z) : K (option Z) :=
  let! r := curproc in
  fetchint (u32 (tf_esp (p_tf (snd r)) + 4 + 4 * n)).

Definition argptr (n size : Z) : K (option Z) :=
  let! r := curproc in
  let! i := argint n in
  match i with
  | None => ret None
  | Some i =>
      let sz := p_sz (snd r) in
      if (size <? 0) || (sz <=? u32 i) || (sz <? u32 (u32 i + size)) then ret None
      else ret (Some (u32 i))
  end.

Definition argstr (n : Z) : K (option (list Z)) :=
  let! addr := argint n in
  match addr with
  | None => ret None
  | Some addr => fetchstr (u32 addr)
  end.

Section env.
Context `{Env}.

(** ** sysproc.c *)

Definition sys_fork : K Z := fork.

Definition sys_exit : K Z :=
  exit ;;
  ret 0.

Definition sys_wait : K Z := wait.

Definition sys_kill : K Z :=
  let! pid := argint 0 in
  match pid with
  | None => ret (-1)
  | Some pid => kill pid
  end.

Definition sys_getpid : K Z := mypid.

Definition sys_sbrk : K Z :=
  let! n := argint 0 in
  match n with
  | None => ret (-1)
  | Some n =>
      let! r := curproc in
      let addr := i32 (p_sz (snd r)) in
      let! g := growproc n in
      if g <? 0 then ret (-1) else ret addr
  end.

(** [ticks - ticks0 < n] is a comparison of unsigned numbers. *)
Definition sys_sleep : K Z :=
  let! n := argint 0 in
  match n with
  | None => ret (-1)
  | Some n =>
      acquire LK_ticks ;;
      let! ticks0 := gets k_ticks in
      loop FUEL (λ _ : unit,
        let! t := gets k_ticks in
        if u32 (t - ticks0) <? u32 n then
          let! killed := mykilled in
          if killed then
            release LK_ticks ;;
            ret (inr (-1))
          else
            sleep CH_ticks (Some LK_ticks) ;;
            ret (inl tt)
        else
          release LK_ticks ;;
          ret (inr 0)) tt
  end.

Definition sys_uptime : K Z :=
  acquire LK_ticks ;;
  let! xticks := gets k_ticks in
  release LK_ticks ;;
  ret (i32 xticks).

Definition sys_waitx : K Z :=
  let! wtime := argptr 0 4 in
  match wtime with
  | None => ret (-1)
  | Some wtime =>
      let! rtime := argptr 1 4 in
      match rtime with
      | None => ret (-1)
      | Some rtime =>
          waitx (ustore32 wtime) (ustore32 rtime)
      end
  end.

Definition sys_getps : K Z :=
  getps ;;
  ret 0.

Definition sys_set_priority : K Z :=
  let! new_priority := argint 0 in
  match new_priority with
  | None => ret (-1)
  | Some new_priority =>
      let! pid := argint 1 in
      match pid with
      | None => ret (-1)
      | Some pid => set_priority new_priority pid
      end
  end.
End env.
