(* ===== verification/Exec.v ===== *)
(** * Exec: loading a program (exec.c, and [loaduvm] of vm.c) *)

From stdpp Require Import base numbers gmap strings option list.
From S2P Require Import Prelude Format Machine Mem Mlfq ProcCore Kalloc Vm Sleeplock Ide Bio Log.
From S2P Require Import Inode Console Fs Pipe File Proc Syscall.
Local Open Scope kernel_scope.
Local Open Scope Z_scope.

Abbreviation ELF_MAGIC := (0x464C457F)%Z (only parsing).
Abbreviation ELF_PROG_LOAD := (1)%Z (only parsing).
Definition sizeof_elfhdr : Z := 52.
Definition sizeof_proghdr : Z := 32.

(** The part of [path] behind its last slash. *)
Fixpoint basename (last : list Z) (s : list Z) : list Z :=
  match s with
  | [] => last
  | c :: s' => if c =? 47 then basename s' s' else basename last s'
  end.

(** A uint array as bytes. *)
Definition words (l : list Z) : list Z := concat (bytes32 <$> l).

Section env.
Context `{Env}.

Definition loaduvm (pgdir addr : Z) (ip : nat) (offset sz : Z) : K Z :=
  if negb (addr mod PGSIZE =? 0) then panic "loaduvm: addr must be page aligned"
  else
    loop (2 + Z.to_nat (sz / PGSIZE)) (λ i,
      if negb (i <? sz) then ret (inr 0)
      else
        let! pte := walkpgdir pgdir (u32 (addr + i)) false in
        if pte =? 0 then panic "loaduvm: address should exist"
        else
          let! e := load32 pte in
          let pa := PTE_ADDR e in
          let n := if sz - i <? PGSIZE then sz - i else PGSIZE in
          let! r := readi ip (u32 (offset + i)) n in
          let '(k, data) := r in
          store_bytes (P2V pa) data ;;
          if negb (k =? n) then ret (inr (-1)) else ret (inl (u32 (i + PGSIZE)))) 0.

(** The loop over the program headers; [None] is [goto bad]. *)
Definition exec_load (pgdir : Z) (ip : nat) (phoff phnum : Z) : K (option Z) :=
  loop (S (Z.to_nat phnum)) (λ '(i, off, sz),
    if negb (i <? phnum) then ret (inr (Some sz))
    else
      let! r := readi ip (u32 off) sizeof_proghdr in
      let '(k, ph) := r in
      if negb (k =? sizeof_proghdr) then ret (inr None)
      else
        let type := get32 ph 0 in
        let poff := get32 ph 4 in
        let vaddr := get32 ph 8 in
        let filesz := get32 ph 16 in
        let memsz := get32 ph 20 in
        let next := (i + 1, i32 (off + sizeof_proghdr)) in
        if negb (type =? ELF_PROG_LOAD) then ret (inl (next, sz))
        else if memsz <? filesz then ret (inr None)
        else if u32 (vaddr + memsz) <? vaddr then ret (inr None)
        else
          let! sz := allocuvm pgdir sz (u32 (vaddr + memsz)) in
          if sz =? 0 then ret (inr None)
          else if negb (vaddr mod PGSIZE =? 0) then ret (inr None)
          else
            let! r := loaduvm pgdir vaddr ip poff filesz in
            if r <? 0 then ret (inr None) else ret (inl (next, u32 sz))) (0, i32 phoff, 0).

(** Push the argument strings: the stack pointer and the string addresses. *)
Definition exec_args (pgdir sz : Z) (argv : list (list Z)) : K (option (Z * list Z)) :=
  loop (S (length argv)) (λ '(argv, sp, ustack),
    match argv with
    | [] => ret (inr (Some (sp, ustack)))
    | arg :: argv' =>
        if MAXARG <=? Z.of_nat (length ustack) then ret (inr None)
        else
          let sp := Z.land (u32 (sp - (Z.of_nat (length arg) + 1))) (Z.lnot 3) in
          let! r := copyout pgdir sp (arg ++ [0]) in
          if r <? 0 then ret (inr None)
          else ret (inl (argv', sp, ustack ++ [sp]))
    end) (argv, sz, []).

Definition exec_bad (pgdir : Z) (ip : option nat) : K Z :=
  when (negb (pgdir =? 0)) (freevm pgdir) ;;
  match ip with
  | Some _ =>
      iunlockput ip ;;
      end_op
  | None => ret tt
  end ;;
  ret (-1).

Definition exec (path : list Z) (argv : list (list Z)) : K Z :=
  let! r := curproc in
  let cur := fst r in
  begin_op ;;
  let! oip := namei path in
  match oip with
  | None =>
      end_op ;;
      cprintf "exec: fail\n" [] ;;
      ret (-1)
  | Some ip =>
      ilock oip ;;
      let! r := readi ip 0 sizeof_elfhdr in
      let '(k, elf) := r in
      if negb (k =? sizeof_elfhdr) then exec_bad 0 oip
      else if negb (get32 elf 0 =? ELF_MAGIC) then exec_bad 0 oip
      else
        let! pgdir := setupkvm in
        if pgdir =? 0 then exec_bad 0 oip
        else
          let! osz := exec_load pgdir ip (get32 elf 28) (get16 elf 44) in
          match osz with
          | None => exec_bad pgdir oip
          | Some sz =>
              iunlockput oip ;;
              end_op ;;
              let sz := PGROUNDUP sz in
              let! sz := allocuvm pgdir sz (u32 (sz + 2 * PGSIZE)) in
              if sz =? 0 then exec_bad pgdir None
              else
                clearpteu pgdir (u32 (sz - 2 * PGSIZE)) ;;
                let! r := exec_args pgdir sz argv in
                match r with
                | None => exec_bad pgdir None
                | Some (sp, args) =>
                    let argc := Z.of_nat (length args) in
                    let ustack := [0xffffffff; argc; u32 (sp - (argc + 1) * 4)] ++ args ++ [0] in
                    let sp := u32 (sp - (3 + argc + 1) * 4) in
                    let! r := copyout pgdir sp (words ustack) in
                    if r <? 0 then exec_bad pgdir None
                    else
                      upd_proc cur (λ p, set_p_name
                        (safestrcpy_l (p_name p) (basename path path) 16) p) ;;
                      let! p := proc_at cur in
                      let oldpgdir := p_pgdir p in
                      upd_proc cur (set_p_pgdir pgdir) ;;
                      upd_proc cur (set_p_sz sz) ;;
                      upd_proc cur (λ p, set_p_tf (set_tf_eip (get32 elf 24) (p_tf p)) p) ;;
                      upd_proc cur (λ p, set_p_tf (set_tf_esp sp (p_tf p)) p) ;;
                      switchuvm (Some cur) ;;
                      freevm oldpgdir ;;
                      ret 0
                end
          end
  end.
End env.
