(* ===== verification/Sysfile.v ===== *)
(** * Sysfile: file system calls (sysfile.c) *)

From stdpp Require Import base numbers gmap strings option list.
From S2P Require Import Prelude Format Machine Mem Mlfq ProcCore Kalloc Vm Sleeplock Ide Bio Log.
From S2P Require Import Inode Console Fs Pipe File Proc Syscall Exec.
Local Open Scope kernel_scope.
Local Open Scope Z_scope.

Abbreviation O_RDONLY := (0x000)%Z (only parsing).
Abbreviation O_WRONLY := (0x001)%Z (only parsing).
Abbreviation O_RDWR := (0x002)%Z (only parsing).
Abbreviation O_CREATE := (0x200)%Z (only parsing).

(** [struct stat] as the user program sees it (20 bytes with padding). *)
Definition sizeof_stat : Z := 20.
Definition store_stat (va : Z) (st : Z * Z * Z * Z * Z) : K unit :=
  let '(type, dev, ino, nlink, size) := st in
  ustore32 (va + 4) dev ;;
  ustore32 (va + 8) ino ;;
  ustore8 va type ;;
  ustore8 (va + 1) (Z.shiftr type 8) ;;
  ustore8 (va + 12) nlink ;;
  ustore8 (va + 13) (Z.shiftr nlink 8) ;;
  ustore32 (va + 16) size.

(** The descriptor and the file; [None] is the return of -1. *)
Definition argfd (n : Z) : K (option (Z * nat)) :=
  let! fd := argint n in
  match fd with
  | None => ret None
  | Some fd =>
      if (fd <? 0) || (Z.of_nat NOFILE <=? fd) then ret None
      else
        let! r := curproc in
        let! f := arr_get (p_ofile (snd r)) fd in
        match f with
        | None => ret None
        | Some f => ret (Some (fd, f))
        end
  end.

Definition fdalloc (f : nat) : K Z :=
  let! r := curproc in
  let cur := fst r in
  let! o := for_find (seqZ 0 (Z.of_nat NOFILE)) (λ fd,
    let! p := proc_at cur in
    let! o := arr_get (p_ofile p) fd in
    match o with
    | None =>
        upd_proc cur (λ p, set_p_ofile (<[Z.to_nat fd := Some f]> (p_ofile p)) p) ;;
        ret (Some fd)
    | Some _ => ret None
    end) in
  ret (default (-1) o).

(** [myproc()->ofile[fd] = 0] *)
Definition fdclear (fd : Z) : K unit :=
  let! r := curproc in
  upd_proc (fst r) (λ p, set_p_ofile (<[Z.to_nat fd := None]> (p_ofile p)) p).

Section env.
Context `{Env}.

Definition sys_dup : K Z :=
  let! a := argfd 0 in
  match a with
  | None => ret (-1)
  | Some (_, f) =>
      let! fd := fdalloc f in
      if fd <? 0 then ret (-1)
      else
        filedup f ;;
        ret fd
  end.

(** [argfd(0, 0, &f) < 0 || argint(2, &n) < 0 || argptr(1, &p, n) < 0] *)
Definition rw_args : K (option (nat * Z * Z)) :=
  let! a := argfd 0 in
  match a with
  | None => ret None
  | Some (_, f) =>
      let! n := argint 2 in
      match n with
      | None => ret None
      | Some n =>
          let! p := argptr 1 n in
          match p with
          | None => ret None
          | Some p => ret (Some (f, n, p))
          end
      end
  end.

Definition sys_read : K Z :=
  let! a := rw_args in
  match a with
  | None => ret (-1)
  | Some (f, n, p) =>
      let! r := fileread f n in
      ustore_bytes p (snd r) ;;
      ret (fst r)
  end.

Definition sys_write : K Z :=
  let! a := rw_args in
  match a with
  | None => ret (-1)
  | Some (f, n, p) =>
      let! data := uload_bytes p (Z.to_nat n) in
      filewrite f data
  end.

Definition sys_close : K Z :=
  let! a := argfd 0 in
  match a with
  | None => ret (-1)
  | Some (fd, f) =>
      fdclear fd ;;
      fileclose f ;;
      ret 0
  end.

Definition sys_fstat : K Z :=
  let! a := argfd 0 in
  match a with
  | None => ret (-1)
  | Some (_, f) =>
      let! st := argptr 1 sizeof_stat in
      match st with
      | None => ret (-1)
      | Some st =>
          let! r := filestat f in
          match r with
          | None => ret (-1)
          | Some v =>
              store_stat st v ;;
              ret 0
          end
      end
  end.

(** The label [bad] of [sys_link]. *)
Definition link_bad (ip : nat) : K Z :=
  ilock (Some ip) ;;
  upd_inode ip (λ i, set_i_nlink (i16 (i_nlink i - 1)) i) ;;
  iupdate ip ;;
  iunlockput (Some ip) ;;
  end_op ;;
  ret (-1).

Definition sys_link : K Z :=
  let! old := argstr 0 in
  match old with
  | None => ret (-1)
  | Some old =>
      let! new := argstr 1 in
      match new with
      | None => ret (-1)
      | Some new =>
          begin_op ;;
          let! oip := namei old in
          match oip with
          | None => end_op ;; ret (-1)
          | Some ip =>
              ilock oip ;;
              let! i := inode_at ip in
              if i_type i =? T_DIR then
                iunlockput oip ;;
                end_op ;;
                ret (-1)
              else
                upd_inode ip (λ i, set_i_nlink (i16 (i_nlink i + 1)) i) ;;
                iupdate ip ;;
                iunlock oip ;;
                let! odp := nameiparent new in
                match odp with
                | None => link_bad ip
                | Some (dp, name) =>
                    ilock (Some dp) ;;
                    let! d := inode_at dp in
                    let! i := inode_at ip in
                    let! r := (if negb (i_dev d =? i_dev i) then ret (-1)
                               else dirlink dp name (i_inum i)) in
                    if r <? 0 then
                      iunlockput (Some dp) ;;
                      link_bad ip
                    else
                      iunlockput (Some dp) ;;
                      iput oip ;;
                      end_op ;;
                      ret 0
                end
          end
      end
  end.

Definition isdirempty (dp : nat) : K bool :=
  let! d := inode_at dp in
  loop (S (S (Z.to_nat (i_size d / sizeof_dirent)))) (λ off,
    let! d := inode_at dp in
    if negb (off <? i_size d) then ret (inr true)
    else
      let! r := readi dp off sizeof_dirent in
      let '(k, de) := r in
      if negb (k =? sizeof_dirent) then panic "isdirempty: readi"
      else if negb (dirent_inum de =? 0) then ret (inr false)
      else ret (inl (off + sizeof_dirent))) (2 * sizeof_dirent).

(** The label [bad] of [sys_unlink]. *)
Definition unlink_bad (dp : nat) : K Z :=
  iunlockput (Some dp) ;;
  end_op ;;
  ret (-1).

Definition sys_unlink : K Z :=
  let! path := argstr 0 in
  match path with
  | None => ret (-1)
  | Some path =>
      begin_op ;;
      let! odp := nameiparent path in
      match odp with
      | None => end_op ;; ret (-1)
      | Some (dp, name) =>
          ilock (Some dp) ;;
          if (namecmp name (chars ".") =? 0) || (namecmp name (chars "..") =? 0) then unlink_bad dp
          else
            let! r := dirlookup dp name in
            match r with
            | None => unlink_bad dp
            | Some (ip, off) =>
                ilock (Some ip) ;;
                let! i := inode_at ip in
                if i_nlink i <? 1 then panic "unlink: nlink < 1"
                else
                  let! e := (if i_type i =? T_DIR then isdirempty ip else ret true) in
                  if negb e then
                    iunlockput (Some ip) ;;
                    unlink_bad dp
                  else
                    let! n := writei dp (replicate (Z.to_nat sizeof_dirent) 0) off in
                    if negb (n =? sizeof_dirent) then panic "unlink: writei"
                    else
                      let! i := inode_at ip in
                      when (i_type i =? T_DIR) (
                        upd_inode dp (λ d, set_i_nlink (i16 (i_nlink d - 1)) d) ;;
                        iupdate dp) ;;
                      iunlockput (Some dp) ;;
                      upd_inode ip (λ i, set_i_nlink (i16 (i_nlink i - 1)) i) ;;
                      iupdate ip ;;
                      iunlockput (Some ip) ;;
                      end_op ;;
                      ret 0
            end
      end
  end.

(** [create]: a locked inode, or NULL. *)
Definition create (path : list Z) (type major minor : Z) : K (option nat) :=
  let! odp := nameiparent path in
  match odp with
  | None => ret None
  | Some (dp, name) =>
      ilock (Some dp) ;;
      let! r := dirlookup dp name in
      match r with
      | Some (ip, _) =>
          iunlockput (Some dp) ;;
          ilock (Some ip) ;;
          let! i := inode_at ip in
          if (type =? T_FILE) && (i_type i =? T_FILE) then ret (Some ip)
          else
            iunlockput (Some ip) ;;
            ret None
      | None =>
          let! d := inode_at dp in
          let! ip := ialloc (i_dev d) type in
          ilock (Some ip) ;;
          upd_inode ip (set_i_major (i16 major)) ;;
          upd_inode ip (set_i_minor (i16 minor)) ;;
          upd_inode ip (set_i_nlink 1) ;;
          iupdate ip ;;
          when (type =? T_DIR) (
            upd_inode dp (λ d, set_i_nlink (i16 (i_nlink d + 1)) d) ;;
            iupdate dp ;;
            let! i := inode_at ip in
            let! r := dirlink ip (chars ".") (i_inum i) in
            if r <? 0 then panic "create dots"
            else
              let! d := inode_at dp in
              let! r := dirlink ip (chars "..") (i_inum d) in
              if r <? 0 then panic "create dots" else ret tt) ;;
          let! i := inode_at ip in
          let! r := dirlink dp name (i_inum i) in
          if r <? 0 then panic "create: dirlink"
          else
            iunlockput (Some dp) ;;
            ret (Some ip)
      end
  end.

(** The two ways [sys_open] finds its inode; [None] is the return of -1. *)
Definition open_inode (path : list Z) (omode : Z) : K (option nat) :=
  if has omode O_CREATE then
    let! oip := create path T_FILE 0 0 in
    match oip with
    | None => end_op ;; ret None
    | Some _ => ret oip
    end
  else
    let! oip := namei path in
    match oip with
    | None => end_op ;; ret None
    | Some ip =>
        ilock oip ;;
        let! i := inode_at ip in
        if (i_type i =? T_DIR) && negb (omode =? O_RDONLY) then
          iunlockput oip ;;
          end_op ;;
          ret None
        else ret oip
    end.

Definition sys_open : K Z :=
  let! path := argstr 0 in
  match path with
  | None => ret (-1)
  | Some path =>
      let! omode := argint 1 in
      match omode with
      | None => ret (-1)
      | Some omode =>
          begin_op ;;
          let! oip := open_inode path omode in
          match oip with
          | None => ret (-1)
          | Some ip =>
              let! o := filealloc in
              let! fd := match o with None => ret (-1) | Some f => fdalloc f end in
              match o with
              | Some f =>
                  if fd <? 0 then
                    fileclose f ;;
                    iunlockput oip ;;
                    end_op ;;
                    ret (-1)
                  else
                    iunlock oip ;;
                    end_op ;;
                    upd_file f (set_f_type FD_INODE) ;;
                    upd_file f (set_f_ip oip) ;;
                    upd_file f (set_f_off 0) ;;
                    upd_file f (set_f_readable (negb (has omode O_WRONLY))) ;;
                    upd_file f (set_f_writable (has omode O_WRONLY || has omode O_RDWR)) ;;
                    ret fd
              | None =>
                  iunlockput oip ;;
                  end_op ;;
                  ret (-1)
              end
          end
      end
  end.

(** The common end of [sys_mkdir] and [sys_mknod]. *)
Definition made (oip : option nat) : K Z :=
  match oip with
  | None => end_op ;; ret (-1)
  | Some _ =>
      iunlockput oip ;;
      end_op ;;
      ret 0
  end.

Definition sys_mkdir : K Z :=
  begin_op ;;
  let! path := argstr 0 in
  let! oip := match path with
              | None => ret None
              | Some path => create path T_DIR 0 0
              end in
  made oip.

Definition sys_mknod : K Z :=
  begin_op ;;
  let! path := argstr 0 in
  let! oip := match path with
              | None => ret None
              | Some path =>
                  let! major := argint 1 in
                  match major with
                  | None => ret None
                  | Some major =>
                      let! minor := argint 2 in
                      match minor with
                      | None => ret None
                      | Some minor => create path T_DEV major minor
                      end
                  end
              end in
  made oip.

Definition sys_chdir : K Z :=
  let! r := curproc in
  let cur := fst r in
  begin_op ;;
  let! path := argstr 0 in
  let! oip := match path with None => ret None | Some path => namei path end in
  match oip with
  | None => end_op ;; ret (-1)
  | Some ip =>
      ilock oip ;;
      let! i := inode_at ip in
      if negb (i_type i =? T_DIR) then
        iunlockput oip ;;
        end_op ;;
        ret (-1)
      else
        iunlock oip ;;
        let! p := proc_at cur in
        iput (p_cwd p) ;;
        end_op ;;
        upd_proc cur (set_p_cwd oip) ;;
        ret 0
  end.

Definition sys_exec : K Z :=
  let! path := argstr 0 in
  match path with
  | None => ret (-1)
  | Some path =>
      let! uargv := argint 1 in
      match uargv with
      | None => ret (-1)
      | Some uargv =>
          let! argv := loop (S (Z.to_nat MAXARG)) (λ '(i, argv),
            if MAXARG <=? i then ret (inr None)
            else
              let! uarg := fetchint (u32 (u32 uargv + 4 * i)) in
              match uarg with
              | None => ret (inr None)
              | Some uarg =>
                  if uarg =? 0 then ret (inr (Some argv))
                  else
                    let! a := fetchstr (u32 uarg) in
                    match a with
                    | None => ret (inr None)
                    | Some a => ret (inl (i + 1, argv ++ [a]))
                    end
              end) (0, []) in
          match argv with
          | None => ret (-1)
          | Some argv => exec path argv
          end
      end
  end.

Definition sys_pipe : K Z :=
  let! fd := argptr 0 8 in
  match fd with
  | None => ret (-1)
  | Some fd =>
      let! r := pipealloc in
      match r with
      | None => ret (-1)
      | Some (rf, wf) =>
          let! fd0 := fdalloc rf in
          let! fd1 := (if fd0 <? 0 then ret (-1) else fdalloc wf) in
          if (fd0 <? 0) || (fd1 <? 0) then
            when (0 <=? fd0) (fdclear fd0) ;;
            fileclose rf ;;
            fileclose wf ;;
            ret (-1)
          else
            ustore32 fd fd0 ;;
            ustore32 (fd + 4) fd1 ;;
            ret 0
      end
  end.
End env.
