(* ===== verification/Trap.v ===== *)
(** * Trap: interrupts, exceptions and system call dispatch (trap.c, syscall.c) *)

From stdpp Require Import base numbers gmap strings option list.
From S2P Require Import Prelude Format Machine Mem Mlfq ProcCore Kalloc Vm Sleeplock Apic Ide Bio Log.
From S2P Require Import Inode Console Fs Pipe File Proc Syscall Exec Sysfile.
Local Open Scope kernel_scope.
Local Open Scope Z_scope.

Definition max_queue_tick : list Z := [2; 4; 8; 16; 32].

(** [cpuid()] of proc.c *)
Definition cpuid : K Z :=
  let! c := mycpu in
  ret (c_id c).

(** [myproc() && cond(myproc())] *)
Definition myproc_is (cond : proc → bool) : K bool :=
  let! op := myproc in
  match op with
  | None => ret false
  | Some p =>
      let! pp := proc_at p in
      ret (cond pp)
  end.

(** One slot of the accounting loop of the timer interrupt. *)
Definition account_slot (i : nat) : K unit :=
  let! p := proc_at i in
  match p_state p with
  | RUNNING => upd_proc i (set_p_rtime (i32 (p_rtime p + 1)))
  | SLEEPING => upd_proc i (set_p_iotime (i32 (p_iotime p + 1)))
  | _ => ret tt
  end.

Section env.
Context `{Env}.

(** ** Descriptor tables *)

Definition tvinit : K unit :=
  for_each (seqZ 0 256) (λ i,
    let! v := arr_get vectors i in
    upd_hw (λ h, set_h_idt (<[Z.to_nat i := SETGATE false (Z.shiftl SEG_KCODE 3) v 0]> (h_idt h)) h)) ;;
  let! v := arr_get vectors T_SYSCALL in
  upd_hw (λ h, set_h_idt
    (<[Z.to_nat T_SYSCALL := SETGATE true (Z.shiftl SEG_KCODE 3) v DPL_USER]> (h_idt h)) h).

(** [lidt] of x86.h; a gate is 8 bytes. *)
Definition lidt (p size : Z) : K unit :=
  upd_cpu (set_c_idtr [u16 (size - 1); u16 p; u16 (Z.shiftr p 16)]).
Definition idtinit : K unit := lidt IDT (8 * 256).

(** ** Interrupts *)

(** The timer interrupt on processor 0. *)
Definition timer_tick : K unit :=
  acquire LK_ticks ;;
  modify (λ s, set_k_ticks (u32 (k_ticks s + 1)) s) ;;
  acquire LK_ptable ;;
  for_each slots account_slot ;;
  release LK_ptable ;;
  wakeup CH_ticks ;;
  release LK_ticks.

(** The system call table; [None] is an empty entry. *)
Definition syscalls (num : Z) : option (K Z) :=
  match num with
  | 1 => Some sys_fork
  | 2 => Some sys_exit
  | 3 => Some sys_wait
  | 4 => Some sys_pipe
  | 5 => Some sys_read
  | 6 => Some sys_kill
  | 7 => Some sys_exec
  | 8 => Some sys_fstat
  | 9 => Some sys_chdir
  | 10 => Some sys_dup
  | 11 => Some sys_getpid
  | 12 => Some sys_sbrk
  | 13 => Some sys_sleep
  | 14 => Some sys_uptime
  | 15 => Some sys_open
  | 16 => Some sys_write
  | 17 => Some sys_mknod
  | 18 => Some sys_unlink
  | 19 => Some sys_link
  | 20 => Some sys_mkdir
  | 21 => Some sys_close
  | 22 => Some sys_waitx
  | 23 => Some sys_getps
  | 24 => Some sys_set_priority
  | _ => None
  end.

Definition syscall : K unit :=
  let! r := curproc in
  let '(cur, p) := r in
  let num := i32 (tf_eax (p_tf p)) in
  match syscalls num with
  | Some f =>
      let! v := f in
      upd_proc cur (λ p, set_p_tf (set_tf_eax (u32 v) (p_tf p)) p)
  | None =>
      cprintf "%d %s: unknown sys call %d\n" [PInt (p_pid p); PStr (p_name p); PInt num] ;;
      upd_proc cur (λ p, set_p_tf (set_tf_eax (u32 (-1)) (p_tf p)) p)
  end.

(** The switch over device interrupts and exceptions. *)
Definition trap_irq (tf : trapframe) : K unit :=
  let n := tf_trapno tf in
  if n =? T_IRQ0 + IRQ_TIMER then
    let! id := cpuid in
    when (id =? 0) timer_tick ;;
    lapiceoi
  else if n =? T_IRQ0 + IRQ_IDE then
    match DRIVER with
    | IDE => ideintr
    | MEMIDE => ret tt
    end ;;
    lapiceoi
  else if n =? T_IRQ0 + IRQ_IDE + 1 then ret tt
  else if n =? T_IRQ0 + IRQ_KBD then kbdintr ;; lapiceoi
  else if n =? T_IRQ0 + IRQ_COM1 then uartintr ;; lapiceoi
  else if (n =? T_IRQ0 + 7) || (n =? T_IRQ0 + IRQ_SPURIOUS) then
    let! id := cpuid in
    cprintf "cpu%d: spurious interrupt at %x:%x\n" [PInt id; PInt (tf_cs tf); PInt (tf_eip tf)] ;;
    lapiceoi
  else
    let! op := myproc in
    let! c := gets k_cpu in
    match op with
    | None =>
        cprintf "unexpected trap %d from cpu %d eip %x (cr2=0x%x)\n"
          [PInt n; PInt (c_id c); PInt (tf_eip tf); PInt (c_cr2 c)] ;;
        panic "trap"
    | Some p =>
        if Z.land (tf_cs tf) 3 =? 0 then
          cprintf "unexpected trap %d from cpu %d eip %x (cr2=0x%x)\n"
            [PInt n; PInt (c_id c); PInt (tf_eip tf); PInt (c_cr2 c)] ;;
          panic "trap"
        else
          let! pp := proc_at p in
          cprintf "pid %d %s: trap %d err %d on cpu %d eip 0x%x addr 0x%x--kill proc\n"
            [PInt (p_pid pp); PStr (p_name pp); PInt n; PInt (tf_err tf); PInt (c_id c);
             PInt (tf_eip tf); PInt (c_cr2 c)] ;;
          upd_proc p (set_p_killed true)
    end.

(** [if(myproc() && myproc()->killed && (tf->cs&3) == DPL_USER) exit();] *)
Definition trap_killed (tf : trapframe) : K unit :=
  let! k := myproc_is p_killed in
  when (k && (Z.land (tf_cs tf) 3 =? DPL_USER)) exit.

(** What the clock tick makes the running process do: in the MLFQ build it
    yields when its time slice is used up, and is charged a tick otherwise. *)
Definition tick_proc (p : nat) : K unit :=
  match SCHEDULER with
  | MLFQ =>
      let! pp := proc_at p in
      let! v := arr_get (p_q pp) (p_cur_q pp) in
      let! m := arr_get max_queue_tick (p_cur_q pp) in
      if m <=? v then
        upd_proc p (set_p_flg 1) ;;
        yield
      else
        upd_proc p (λ pp, set_p_q (<[Z.to_nat (p_cur_q pp) := i32 (v + 1)]> (p_q pp)) pp)
  | FCFS => ret tt
  | _ => yield
  end.

Definition trap (tf : trapframe) : K unit :=
  if tf_trapno tf =? T_SYSCALL then
    let! r := curproc in
    when (p_killed (snd r)) exit ;;
    let! r := curproc in
    upd_proc (fst r) (set_p_tf tf) ;;
    syscall ;;
    let! r := curproc in
    when (p_killed (snd r)) exit
  else
    trap_irq tf ;;
    trap_killed tf ;;
    let! op := myproc in
    match op with
    | None => ret tt
    | Some p =>
        let! pp := proc_at p in
        when (bool_decide (p_state pp = RUNNING) && (tf_trapno tf =? T_IRQ0 + IRQ_TIMER))
          (tick_proc p)
    end ;;
    trap_killed tf.
End env.
