(* ===== verification/Scheduler.v ===== *)
(** * Scheduler: the four schedulers of proc.c

    [scheduler] in its RR, FCFS, PBS and MLFQ builds.  A pass is one iteration of
    its [for(;;)] loop.  Each [swtch(&c->scheduler, p->context)] is [swtch] of
    [Machine]: the code before it and the code after it are definitions of their
    own, so that the interleaving semantics of [System] can run them separately. *)

From stdpp Require Import base numbers gmap strings option list.
From S2P Require Import Prelude Format Machine Mlfq ProcCore.
Local Open Scope kernel_scope.

(** [c->proc = p; switchuvm(p); p->n_run++; p->state = RUNNING;] *)
Definition dispatch (p : nat) : K unit :=
  upd_cpu (set_c_proc (Some p)) ;;
  switchuvm (Some p) ;;
  upd_proc p (λ pp, set_p_n_run (i32 (p_n_run pp + 1)) pp) ;;
  upd_proc p (set_p_state RUNNING).

(** [switchkvm(); c->proc = 0;] *)
Definition undispatch : K unit :=
  switchkvm ;;
  upd_cpu (set_c_proc None).

(** The selection loop of the FCFS and PBS builds: [replace cur cand] is the
    condition under which [cand] takes the place of the current choice. *)
Fixpoint select_proc (replace : proc → proc → bool) (l : list nat) (best : option nat)
    : K (option nat) :=
  match l with
  | [] => ret best
  | i :: l' =>
      let! p := proc_at i in
      if bool_decide (p_state p ≠ RUNNABLE) then select_proc replace l' best
      else match best with
           | None => select_proc replace l' (Some i)
           | Some f =>
               let! pf := proc_at f in
               select_proc replace l' (if replace pf p then Some i else Some f)
           end
  end.

(** [first_process->ctime < p->ctime] *)
Definition fcfs_replace (cur cand : proc) : bool := (p_ctime cur <? p_ctime cand)%Z.
(** [(high_priority_process->priority)>(p->priority)] *)
Definition pbs_replace (cur cand : proc) : bool := (p_priority cand <? p_priority cur)%Z.

Definition fcfs_select : K (option nat) := select_proc fcfs_replace slots None.
Definition pbs_select : K (option nat) := select_proc pbs_replace slots None.

(** ** MLFQ: aging *)

(** The body of the aging loop for the process at position [j] of queue [i].
    The pair is the C variables [alread] and [ind], which outlive the body. *)
Definition mlfq_age_one (i j : Z) (st : bool * Z) : K (bool * Z) :=
  let! e := qu_get i j in
  let! p := deref e in
  let! pp := proc_at p in
  let! t := gets k_ticks in
  let aged := i32 (t - p_qtime pp) in
  if (25 <? aged)%Z then
    let! found := mlfq_find i (p_pid pp) in
    let '(alread, ind) := match found with Some ii => (true, ii) | None => st end in
    when alread (mlfq_remove i ind) ;;
    let! found := mlfq_find (i - 1)%Z (p_pid pp) in
    match found with
    | Some _ => ret (true, ind)
    | None =>
        upd_proc p (set_p_cur_q (i - 1)%Z) ;;
        mlfq_push (i - 1)%Z p ;;
        ret (false, ind)
    end
  else ret st.

(** [for(int j=0;j<=q_index[i];j++)]; a queue holds at most NPROC entries. *)
Definition mlfq_age_queue (i : Z) (st : bool * Z) : K (bool * Z) :=
  loop (S NPROC) (λ '(j, st),
    let! n := q_index i in
    if (j <=? n)%Z then
      let! st' := mlfq_age_one i j st in
      ret (inl ((j + 1)%Z, st'))
    else ret (inr st)) (0%Z, st).

(** [for(int i=1;i<5;i++)] *)
Definition mlfq_age : K unit :=
  let! st := mlfq_age_queue 1 (false, 0%Z) in
  let! st := mlfq_age_queue 2 st in
  let! st := mlfq_age_queue 3 st in
  let! st := mlfq_age_queue 4 st in
  ret tt.

(** ** MLFQ: dispatch *)

(** [p->q[i]++] *)
Definition bump_q (p : nat) (i : Z) : K Z :=
  let! pp := proc_at p in
  let! v := arr_get (p_q pp) i in
  upd_proc p (λ pp, set_p_q (<[Z.to_nat i := i32 (v + 1)]> (p_q pp)) pp) ;;
  ret (i32 (v + 1)).

(** What happens to the RUNNABLE head [p] of queue [i], up to [swtch]. *)
Definition mlfq_take (i : Z) (p : nat) : K unit :=
  let! v := bump_q p i in
  let! m := arr_get max_queue_ticks i in
  when (m <=? v)%Z (upd_proc p (set_p_flg 1%Z)) ;;
  let! pp := proc_at p in
  let! found := mlfq_find i (p_pid pp) in
  match found with
  | Some ind => mlfq_remove i ind
  | None => ret tt
  end ;;
  upd_proc p (λ pp, set_p_n_run (i32 (p_n_run pp + 1)) pp) ;;
  upd_cpu (set_c_proc (Some p)) ;;
  switchuvm (Some p) ;;
  upd_proc p (set_p_state RUNNING).

(** [for(int i=0;i<5;i++) if(q_index[i]>=0) { ...; break; }], up to [swtch]: the
    process that was dispatched, if any. *)
Definition mlfq_pick : K (option nat) :=
  let! r := for_find [0; 1; 2; 3; 4]%Z (λ i,
    let! n := q_index i in
    if (0 <=? n)%Z then
      let! e := qu_get i 0 in
      match e with
      | None => ret (Some None)
      | Some p =>
          let! pp := proc_at p in
          if bool_decide (p_state pp = RUNNABLE) then
            mlfq_take i p ;;
            ret (Some (Some p))
          else ret (Some None)
      end
    else ret None) in
  ret (match r with Some o => o | None => None end).

(** After [swtch] returns: [switchkvm], [c->proc = 0], and if [p] is still
    RUNNABLE the demotion and the return to the tail of its queue. *)
Definition mlfq_requeue (p : nat) : K unit :=
  undispatch ;;
  let! pp := proc_at p in
  when (bool_decide (p_state pp = RUNNABLE)) (
    let! v := arr_get (p_q pp) (p_cur_q pp) in
    let! m := arr_get max_queue_ticks (p_cur_q pp) in
    when (m <=? v)%Z (upd_proc p (set_p_flg 1%Z)) ;;
    let! pp := proc_at p in
    when (p_flg pp =? 1)%Z (
      upd_proc p (set_p_flg 0%Z) ;;
      when (p_cur_q pp <? 4)%Z (upd_proc p (set_p_cur_q (p_cur_q pp + 1)%Z))) ;;
    let! pp := proc_at p in
    mlfq_enqueue (p_cur_q pp) p).

Section env.
Context `{Env}.

(** The body of the RR loop. *)
Definition rr_slot (i : nat) : K unit :=
  let! p := proc_at i in
  when (bool_decide (p_state p = RUNNABLE)) (
    dispatch i ;;
    swtch ;;
    undispatch).

Definition scheduler_rr : K unit :=
  sti ;;
  acquire LK_ptable ;;
  for_each slots rr_slot ;;
  release LK_ptable.

Definition scheduler_fcfs : K unit :=
  sti ;;
  acquire LK_ptable ;;
  let! first := fcfs_select in
  match first with
  | None => ret tt
  | Some p =>
      let! pp := proc_at p in
      when (bool_decide (p_state pp = RUNNABLE)) (
        dispatch p ;;
        swtch ;;
        undispatch)
  end ;;
  release LK_ptable.

(** The inner loop over [s] of the PBS build: is a RUNNABLE process of strictly
    higher priority than [high_priority_process] around? *)
Definition pbs_higher (hp : nat) : K bool :=
  let! r := for_find slots (λ s,
    let! ps := proc_at s in
    if bool_decide (p_state ps ≠ RUNNABLE) then ret None
    else
      let! ph := proc_at hp in
      ret (if (p_priority ps <? p_priority ph)%Z then Some tt else None)) in
  ret (bool_decide (r = Some tt)).

(** The body of the outer loop over [p] up to [swtch]. *)
Inductive pbs_decision := PbsBreak | PbsContinue | PbsRun.
Definition pbs_decide (hp i : nat) : K pbs_decision :=
  let! higher := pbs_higher hp in
  if higher then ret PbsBreak
  else
    let! p := proc_at i in
    if bool_decide (p_state p ≠ RUNNABLE) then ret PbsContinue
    else
      let! ph := proc_at hp in
      ret (if (p_priority p =? p_priority ph)%Z then PbsRun else PbsContinue).

Definition pbs_slot (hp i : nat) : K (option unit) :=
  let! d := pbs_decide hp i in
  match d with
  | PbsBreak => ret (Some tt)
  | PbsContinue => ret None
  | PbsRun => dispatch i ;; swtch ;; undispatch ;; ret None
  end.

Definition scheduler_pbs : K unit :=
  sti ;;
  acquire LK_ptable ;;
  let! hp := pbs_select in
  match hp with
  | None => release LK_ptable
  | Some hp => for_find slots (pbs_slot hp) ;; release LK_ptable
  end.

Definition scheduler_mlfq : K unit :=
  sti ;;
  acquire LK_ptable ;;
  mlfq_age ;;
  let! r := mlfq_pick in
  match r with
  | None => ret tt
  | Some p => swtch ;; mlfq_requeue p
  end ;;
  release LK_ptable.

Definition scheduler_pass : K unit :=
  match SCHEDULER with
  | RR => scheduler_rr
  | FCFS => scheduler_fcfs
  | PBS => scheduler_pbs
  | MLFQ => scheduler_mlfq
  end.

(** [n] iterations of [scheduler]'s endless loop. *)
Definition scheduler (n : nat) : K unit :=
  let! _ := mycpu in
  upd_cpu (set_c_proc None) ;;
  for_each (seq 0 n) (λ _, scheduler_pass).
End env.
