(* ===== verification/Main.v ===== *)
(** * Main: starting the kernel (main.c)

    [main] runs once on the boot processor, [mpenter] on every other one, both ending
    in the scheduler.  The locks that [pinit], [fileinit] and the other initialisers
    set up are free when [k_held] starts empty, so that an [initlock] does not
    appear. *)

From stdpp Require Import base numbers gmap strings option list.
From S2P Require Import Prelude Format Machine Mem Mlfq ProcCore Kalloc Vm Sleeplock Apic Mp Ide Bio Log.
From S2P Require Import Inode Console Screen Fs Pipe File Proc Syscall Exec Sysfile Trap Scheduler.
Local Open Scope kernel_scope.
Local Open Scope Z_scope.

Abbreviation PTE_PS := (0x080)%Z (only parsing).
(** The page directory of entry.S and entryother.S: two pages of 4 MB. *)
Definition entrypgdir : list Z :=
  <[Z.to_nat 0 := Z.lor (Z.lor (Z.lor 0 PTE_P) PTE_W) PTE_PS]>
    (<[Z.to_nat (Z.shiftr KERNBASE 22) := Z.lor (Z.lor (Z.lor 0 PTE_P) PTE_W) PTE_PS]>
       (replicate (Z.to_nat NPDENTRIES) 0)).

(** Where entryother.S is copied to. *)
Definition code : Z := P2V 0x7000.

(** [xchg(&(mycpu()->started), 1)] on processor [i]. *)
Definition set_started (i : nat) (h : hw) : hw :=
  set_h_cpus (alter (λ c, mk_acpu (a_apicid c) 1) i (h_cpus h)) h.

Section env.
Context `{Env}.

(** Common set-up; [n] is the number of passes of the scheduler's endless loop. *)
Definition mpmain (n : nat) : K unit :=
  let! i := mycpu_search in
  let! j := mycpu_search in
  cprintf "cpu%d: starting %d\n" [PInt j; PInt i] ;;
  idtinit ;;
  let! i := mycpu_search in
  upd_hw (set_started (Z.to_nat i)) ;;
  scheduler n.

Definition mpenter (n : nat) : K unit :=
  switchkvm ;;
  seginit ;;
  lapicinit ;;
  mpmain n.

(** The loop body of [startothers]: start processor [c] and wait for it. *)
Definition startap (c : Z) : K unit :=
  let! me := mycpu_search in
  if c =? me then ret tt
  else
    let! stack := kalloc in
    store32 (code - 4) (stack + KSTACKSIZE) ;;
    store32 (code - 8) MPENTER ;;
    store32 (code - 12) (V2P ENTRYPGDIR) ;;
    let! h := gets k_hw in
    let! cp := arr_get (h_cpus h) c in
    lapicstartap (a_apicid cp) (V2P code) ;;
    loop FUEL (λ _ : unit,
      let! h := gets k_hw in
      let! cp := arr_get (h_cpus h) c in
      if a_started cp =? 0 then
        modify spin_env ;;
        ret (inl tt)
      else ret (inr tt)) tt.

Definition startothers : K unit :=
  memmove code ENTRYOTHER ENTRYOTHER_SIZE ;;
  let! h := gets k_hw in
  for_each (seqZ 0 (h_ncpu h)) startap.

(** The middle of [main]: the devices and the tables that their drivers use. *)
Definition main_devices : K unit :=
  picinit ;;
  ioapicinit ;;
  consoleinit ;;
  uartinit ;;
  tvinit ;;
  binit ;;
  ideinit.

Definition main (n : nat) : K unit :=
  kinit1 KEND (P2V (4 * 1024 * 1024)) ;;
  kvmalloc ;;
  mpinit ;;
  lapicinit ;;
  seginit ;;
  main_devices ;;
  startothers ;;
  kinit2 (P2V (4 * 1024 * 1024)) (P2V PHYSTOP) ;;
  userinit ;;
  mpmain n.
End env.
