(* ===== verification/MlfqInv.v ===== *)
(** * MlfqInv: the invariant that ties the feedback queues to the process table

    At every moment ptable.lock is free the five queues hold exactly the RUNNABLE
    processes, each once, in the queue its [cur_q] names.  The lemmas here show
    how the queue operations and the state changes of proc.c preserve it. *)

From stdpp Require Import base numbers gmap strings option list.
From S2P Require Import Prelude Format Machine Mlfq ProcCore Scheduler.
Local Open Scope kernel_scope.

(** What a process slot must satisfy on its own. *)
Record proc_wf (nextpid : Z) (p : proc) : Prop := {
  wf_cur_q : (0 ≤ p_cur_q p < 5)%Z;
  wf_q : length (p_q p) = 5;
  wf_pid : (0 ≤ p_pid p < nextpid)%Z;
  wf_live : p_state p ≠ UNUSED → (0 < p_pid p)%Z;
  wf_mem : p_state p ∈ [RUNNABLE; RUNNING; SLEEPING] → p_kstack p ≠ 0%Z ∧ p_pgdir p ≠ 0%Z;
}.

(** [X] is the set of RUNNABLE processes that are not in a queue yet: empty
    whenever ptable.lock is free. *)
Record mlfq_inv (X : nat → Prop) (s : kernel) (qs : list (list nat)) : Prop := {
  mi_rep : qrep s qs;
  mi_len : length (k_ptable s) = NPROC;
  mi_wf i p : k_ptable s !! i = Some p → proc_wf (k_nextpid s) p;
  mi_uniq i j p p' :
    k_ptable s !! i = Some p → k_ptable s !! j = Some p' →
    p_pid p = p_pid p' → (0 < p_pid p)%Z → i = j;
  mi_sound k q i : qs !! k = Some q → i ∈ q →
    ∃ p, k_ptable s !! i = Some p ∧ p_state p = RUNNABLE ∧ p_cur_q p = Z.of_nat k;
  mi_complete i p :
    k_ptable s !! i = Some p → p_state p = RUNNABLE → ¬ X i →
    ∃ q, qs !! Z.to_nat (p_cur_q p) = Some q ∧ i ∈ q;
  mi_nodup k q : qs !! k = Some q → NoDup q;
}.

(** Two states that agree on everything the invariant reads. *)
Record same_sched (s s' : kernel) : Prop := {
  ss_ptable : k_ptable s' = k_ptable s;
  ss_qu : k_qu s' = k_qu s;
  ss_qindex : k_qindex s' = k_qindex s;
  ss_nextpid : k_nextpid s' = k_nextpid s;
}.

Lemma qrep_same s s' qs :
  k_qu s' = k_qu s → k_qindex s' = k_qindex s → qrep s qs → qrep s' qs.
Proof. intros E1 E2 [? ? ? Hr]. split; by rewrite ?E1, ?E2. Qed.

Lemma mlfq_inv_same X s s' qs : same_sched s s' → mlfq_inv X s qs → mlfq_inv X s' qs.
Proof.
  intros [E1 E2 E3 E4] [H1 H2 H3 H4 H5 H6 H7].
  split; rewrite ?E1, ?E4; eauto using qrep_same.
Qed.

Lemma mlfq_inv_weaken (X Y : nat → Prop) s qs :
  (∀ i, X i → Y i) → mlfq_inv X s qs → mlfq_inv Y s qs.
Proof. intros HXY [H1 H2 H3 H4 H5 H6 H7]. split; eauto 10. Qed.

Section inv.
Implicit Types (s : kernel) (qs : list (list nat)) (q : list nat) (X : nat → Prop).

Lemma mlfq_inv_queue X s qs (k : nat) :
  mlfq_inv X s qs → k < 5 → ∃ q, qs !! k = Some q.
Proof. intros Hi Hk. apply lookup_lt_is_Some_2. by rewrite (qr_qs _ _ (mi_rep _ _ _ Hi)). Qed.

Lemma mlfq_inv_valid X s qs k q i :
  mlfq_inv X s qs → qs !! k = Some q → i ∈ q → i < length (k_ptable s).
Proof.
  intros Hi Hq Hin. destruct (mi_sound _ _ _ Hi _ _ _ Hq Hin) as (p & Hp & _).
  by eapply lookup_lt_Some.
Qed.

(** A queue has room for every process that is not in it. *)
Lemma mlfq_inv_room X s qs k q i :
  mlfq_inv X s qs → qs !! k = Some q → i < NPROC → i ∉ q → length q < NPROC.
Proof.
  intros Hi Hq Hlt Hni.
  assert (Hle : length (i :: q) ≤ length (seq 0 NPROC)).
  { apply submseteq_length, NoDup_submseteq.
    - constructor; [done|]. eauto using mi_nodup.
    - intros j [->|Hj]%elem_of_cons; apply elem_of_seq; [lia|].
      pose proof (mlfq_inv_valid _ _ _ _ _ _ Hi Hq Hj) as Hv.
      rewrite (mi_len _ _ _ Hi) in Hv. lia. }
  rewrite length_seq in Hle. simpl in *. lia.
Qed.

(** Looking a live process up by pid finds the process itself. *)
Lemma find_pid_self X s qs k q i p :
  mlfq_inv X s qs → qs !! k = Some q → k_ptable s !! i = Some p → (0 < p_pid p)%Z →
  match find_pid (k_ptable s) (p_pid p) q with
  | Some n => q !! n = Some i
  | None => i ∉ q
  end.
Proof.
  intros Hi Hq Hp Hpos. unfold find_pid.
  destruct (list_find _ q) as [[n j]|] eqn:E; simpl.
  - apply list_find_Some in E as (Hn & Hj & _).
    destruct (k_ptable s !! j) as [p'|] eqn:Hp'; [|done]. simpl in Hj. simplify_eq.
    by rewrite (mi_uniq _ _ _ Hi _ _ _ _ Hp' Hp) in Hn by congruence.
  - apply list_find_None in E. intros Hin. rewrite Forall_forall in E.
    apply (E i); [done|]. by rewrite Hp.
Qed.

(** Changing fields other than [state], [pid] and [cur_q]. *)
Lemma mlfq_inv_fields X s qs i p p' :
  mlfq_inv X s qs → k_ptable s !! i = Some p →
  p_state p' = p_state p → p_pid p' = p_pid p → p_cur_q p' = p_cur_q p →
  proc_wf (k_nextpid s) p' →
  mlfq_inv X (set_k_ptable (<[i := p']> (k_ptable s)) s) qs.
Proof.
  intros Hi Hp Hst Hpid Hcq Hwf. pose proof (lookup_lt_Some _ _ _ Hp) as Hlt.
  assert (Hlk : ∀ j r, <[i:=p']> (k_ptable s) !! j = Some r →
    ∃ r0, k_ptable s !! j = Some r0 ∧ p_state r = p_state r0 ∧
          p_pid r = p_pid r0 ∧ p_cur_q r = p_cur_q r0).
  { intros j r [(-> & -> & _)|[? ?]]%list_lookup_insert_Some; eauto. }
  destruct Hi as [H1 H2 H3 H4 H5 H6 H7]. split; simpl.
  - by eapply qrep_same, H1.
  - by rewrite length_insert.
  - intros j r [(-> & -> & _)|[? ?]]%list_lookup_insert_Some; eauto.
  - intros j1 j2 r1 r2 (r1' & ? & ? & E1 & ?)%Hlk (r2' & ? & ? & E2 & ?)%Hlk.
    rewrite E1, E2. eauto.
  - intros k q j Hq Hj. destruct (H5 _ _ _ Hq Hj) as (r & Hr & ? & ?).
    destruct (decide (j = i)) as [->|Hne].
    + rewrite list_lookup_insert_eq by done. simplify_eq. exists p'. split_and!; congruence.
    + rewrite list_lookup_insert_ne by done. eauto.
  - intros j r (r' & Hr' & E1 & E2 & E3)%Hlk Hrun HX. rewrite E3. rewrite E1 in Hrun. eauto.
  - done.
Qed.

(** [i] is in no queue. *)
Definition unqueued (qs : list (list nat)) (i : nat) : Prop :=
  ∀ k q, qs !! k = Some q → i ∉ q.

Lemma unqueued_state X s qs i p :
  mlfq_inv X s qs → k_ptable s !! i = Some p → p_state p ≠ RUNNABLE → unqueued qs i.
Proof.
  intros Hi Hp Hst k q Hq Hin.
  destruct (mi_sound _ _ _ Hi _ _ _ Hq Hin) as (p' & ? & ? & ?). by simplify_eq.
Qed.

(** A process that is in no queue may change in any way that keeps pids unique;
    it then counts as not queued yet. *)
Lemma mlfq_inv_replace X s qs i p p' :
  mlfq_inv X s qs → k_ptable s !! i = Some p → unqueued qs i →
  proc_wf (k_nextpid s) p' →
  (∀ j r, k_ptable s !! j = Some r → j ≠ i → (0 < p_pid p')%Z → p_pid r ≠ p_pid p') →
  mlfq_inv (λ j, X j ∨ j = i) (set_k_ptable (<[i := p']> (k_ptable s)) s) qs.
Proof.
  intros Hi Hp Hun Hwf Hfresh. pose proof (lookup_lt_Some _ _ _ Hp) as Hlt.
  destruct Hi as [H1 H2 H3 H4 H5 H6 H7]. split; simpl.
  - by eapply qrep_same, H1.
  - by rewrite length_insert.
  - intros j r [(-> & -> & _)|[? ?]]%list_lookup_insert_Some; eauto.
  - intros j1 j2 r1 r2 [(-> & -> & _)|[Hn1 Hr1]]%list_lookup_insert_Some
      [(-> & -> & _)|[Hn2 Hr2]]%list_lookup_insert_Some E Hpos; [done| | |by eauto].
    + exfalso. by apply (Hfresh _ _ Hr2).
    + exfalso. apply (Hfresh _ _ Hr1); congruence.
  - intros k q j Hq Hj. destruct (H5 _ _ _ Hq Hj) as (r & Hr & ? & ?).
    rewrite list_lookup_insert_ne; [by eauto|]. intros <-. by eapply Hun.
  - intros j r [(-> & -> & _)|[? ?]]%list_lookup_insert_Some Hrun HX; [naive_solver|].
    eapply H6; naive_solver.
  - done.
Qed.

Lemma mlfq_inv_drop X s qs i p :
  mlfq_inv (λ j, X j ∨ j = i) s qs → k_ptable s !! i = Some p → p_state p ≠ RUNNABLE →
  mlfq_inv X s qs.
Proof.
  intros [H1 H2 H3 H4 H5 H6 H7] Hp Hst. split; [done..| |done].
  intros j r Hr Hrun HX. apply (H6 j r); [done..|]. intros [?| ->]; [done|]. by simplify_eq.
Qed.

(** The common case: [p]'s pid is kept. *)
Lemma mlfq_inv_keep_pid X s qs i p p' :
  mlfq_inv X s qs → k_ptable s !! i = Some p → unqueued qs i →
  proc_wf (k_nextpid s) p' → p_pid p' = p_pid p →
  mlfq_inv (λ j, X j ∨ j = i) (set_k_ptable (<[i := p']> (k_ptable s)) s) qs.
Proof.
  intros Hi Hp Hun Hwf E. eapply mlfq_inv_replace; [done..|].
  intros j r Hr Hne Hpos Heq. apply Hne.
  eapply (mi_uniq _ _ _ Hi); [done..|congruence|congruence].
Qed.

(** ** Push, remove, enqueue *)

Lemma mlfq_push_inv X s qs k q i p :
  mlfq_inv (λ j, X j ∨ j = i) s qs → qs !! k = Some q → i ∉ q →
  k_ptable s !! i = Some p → p_state p = RUNNABLE → p_cur_q p = Z.of_nat k →
  ∃ qu' qi', let s' := set_k_ptable (<[i := set_p_qtime (i32 (k_ticks s)) p]> (k_ptable s))
                         (set_k_qindex qi' (set_k_qu qu' s)) in
    mlfq_push (Z.of_nat k) i s = Ok tt s' ∧ mlfq_inv X s' (<[k := q ++ [i]]> qs).
Proof.
  intros Hi Hq Hni Hp Hst Hcq.
  assert (Hlt : i < NPROC).
  { rewrite <-(mi_len _ _ _ Hi). by eapply lookup_lt_Some. }
  assert (Hk : k < length qs) by by eapply lookup_lt_Some.
  destruct (mlfq_push_eq s qs k q i p (mi_rep _ _ _ Hi) Hq
              (mlfq_inv_room _ _ _ _ _ _ Hi Hq Hlt Hni) Hp) as (qu' & qi' & Heq & Hrep).
  exists qu', qi'. split; [exact Heq|].
  assert (Hwf : proc_wf (k_nextpid s) (set_p_qtime (i32 (k_ticks s)) p)).
  { destruct (mi_wf _ _ _ Hi _ _ Hp) as [? ? ? ? ?]. by split. }
  pose proof (mlfq_inv_fields _ _ _ i p (set_p_qtime (i32 (k_ticks s)) p) Hi Hp
                eq_refl eq_refl eq_refl Hwf) as [H1 H2 H3 H4 H5 H6 H7].
  split; [by eapply qrep_same, Hrep|done|done|done| | |].
  - intros k' q' j Hq' Hj. destruct (decide (k' = k)) as [->|Hne].
    + rewrite list_lookup_insert_eq in Hq' by done. simplify_eq.
      apply elem_of_app in Hj as [Hj| ->%list_elem_of_singleton]; [by eauto|].
      eexists. simpl. by rewrite list_lookup_insert_eq by (rewrite (mi_len _ _ _ Hi); lia).
    + rewrite list_lookup_insert_ne in Hq' by done. eauto.
  - intros j r Hr Hrun HX. destruct (decide (j = i)) as [->|Hne].
    + simpl in Hr. rewrite list_lookup_insert_eq in Hr by (rewrite (mi_len _ _ _ Hi); lia).
      simplify_eq. simpl. exists (q ++ [i]). rewrite Hcq, Nat2Z.id.
      rewrite list_lookup_insert_eq by done. set_solver.
    + destruct (H6 j r Hr Hrun) as (q' & Hq' & Hj); [naive_solver|].
      destruct (decide (Z.to_nat (p_cur_q r) = k)) as [E|Hk'].
      * rewrite E in *. assert (q' = q) as -> by congruence. exists (q ++ [i]).
        rewrite list_lookup_insert_eq by done. set_solver.
      * exists q'. by rewrite list_lookup_insert_ne by done.
  - intros k' q' Hq'. destruct (decide (k' = k)) as [->|Hne].
    + rewrite list_lookup_insert_eq in Hq' by done. simplify_eq.
      apply NoDup_app. split_and!; [by eauto| |apply NoDup_singleton].
      intros j Hj ->%list_elem_of_singleton. done.
    + rewrite list_lookup_insert_ne in Hq' by done. eauto.
Qed.

Lemma delete_elem_of (q : list nat) n i j :
  NoDup q → q !! n = Some i → (j ∈ delete n q ↔ j ∈ q ∧ j ≠ i).
Proof.
  intros Hnd Hn. pose proof (delete_Permutation q n i Hn) as HP.
  rewrite HP in Hnd. apply NoDup_cons in Hnd as [Hni _].
  assert (Hq : j ∈ q ↔ j ∈ i :: delete n q) by by rewrite <-HP.
  rewrite Hq, elem_of_cons. split; [|naive_solver].
  intros Hj. split; [by right|]. by intros ->.
Qed.

Lemma mlfq_remove_inv X s qs k q n i :
  mlfq_inv X s qs → qs !! k = Some q → q !! n = Some i →
  ∃ qu' qi', let s' := set_k_qindex qi' (set_k_qu qu' s) in
    mlfq_remove (Z.of_nat k) (Z.of_nat n) s = Ok tt s' ∧
    mlfq_inv (λ j, X j ∨ j = i) s' (<[k := delete n q]> qs) ∧
    unqueued (<[k := delete n q]> qs) i.
Proof.
  intros Hi Hq Hn. pose proof (lookup_lt_Some _ _ _ Hn) as Hlt.
  assert (Hk : k < length qs) by by eapply lookup_lt_Some.
  destruct (mlfq_remove_eq s qs k q n (mi_rep _ _ _ Hi) Hq Hlt) as (qu' & qi' & Heq & Hrep).
  exists qu', qi'. split; [exact Heq|].
  pose proof (mi_nodup _ _ _ Hi _ _ Hq) as Hnd.
  assert (Hun : unqueued (<[k := delete n q]> qs) i).
  { intros k' q' Hq' Hin. destruct (decide (k' = k)) as [->|Hne].
    - rewrite list_lookup_insert_eq in Hq' by done. simplify_eq.
      by apply (delete_elem_of q n i i Hnd Hn) in Hin as [_ []].
    - rewrite list_lookup_insert_ne in Hq' by done.
      apply list_elem_of_lookup_2 in Hn.
      destruct (mi_sound _ _ _ Hi _ _ _ Hq Hn) as (p & Hp & _ & E).
      destruct (mi_sound _ _ _ Hi _ _ _ Hq' Hin) as (p' & Hp' & _ & E').
      simplify_eq. apply Hne. lia. }
  split; [|exact Hun].
  destruct Hi as [H1 H2 H3 H4 H5 H6 H7]. split; simpl; [done..| | |].
  - intros k' q' j Hq' Hj. destruct (decide (k' = k)) as [->|Hne].
    + rewrite list_lookup_insert_eq in Hq' by done. simplify_eq.
      apply (delete_elem_of q n i j Hnd Hn) in Hj as [Hj _]. eauto.
    + rewrite list_lookup_insert_ne in Hq' by done. eauto.
  - intros j r Hr Hrun HX. destruct (H6 j r Hr Hrun) as (q' & Hq' & Hj); [naive_solver|].
    destruct (decide (Z.to_nat (p_cur_q r) = k)) as [E|Hne].
    + rewrite E in *. assert (q' = q) as -> by congruence. exists (delete n q).
      rewrite list_lookup_insert_eq by done. split; [done|].
      apply (delete_elem_of q n i j Hnd Hn). naive_solver.
    + exists q'. by rewrite list_lookup_insert_ne by done.
  - intros k' q' Hq'. destruct (decide (k' = k)) as [->|Hne].
    + rewrite list_lookup_insert_eq in Hq' by done. simplify_eq.
      rewrite (delete_Permutation q n i Hn) in Hnd. by apply NoDup_cons in Hnd as [_ ?].
    + rewrite list_lookup_insert_ne in Hq' by done. eauto.
Qed.

(** The queues after [mlfq_enqueue]. *)
Definition enqueued (qs : list (list nat)) (k i : nat) : list (list nat) :=
  match qs !! k with
  | Some q => if decide (i ∈ q) then qs else <[k := q ++ [i]]> qs
  | None => qs
  end.

Lemma mlfq_enqueue_inv X s qs i p :
  mlfq_inv (λ j, X j ∨ j = i) s qs → k_ptable s !! i = Some p → p_state p = RUNNABLE →
  ∃ qu' qi' t, let s' := set_k_ptable (<[i := set_p_qtime t p]> (k_ptable s))
                           (set_k_qindex qi' (set_k_qu qu' s)) in
    mlfq_enqueue (p_cur_q p) i s = Ok tt s' ∧
    mlfq_inv X s' (enqueued qs (Z.to_nat (p_cur_q p)) i).
Proof.
  intros Hi Hp Hst. destruct (mi_wf _ _ _ Hi _ _ Hp) as [Hcq _ Hpid Hlive _].
  specialize (Hlive ltac:(by rewrite Hst)).
  destruct (mlfq_inv_queue _ _ _ (Z.to_nat (p_cur_q p)) Hi) as [q Hq]; [lia|].
  assert (Hz : p_cur_q p = Z.of_nat (Z.to_nat (p_cur_q p))) by lia.
  pose proof (mlfq_find_eq s qs _ q (p_pid p) (mi_rep _ _ _ Hi) Hq
                (λ j, mlfq_inv_valid _ _ _ _ _ j Hi Hq)) as Hfind.
  rewrite <-Hz in Hfind.
  pose proof (find_pid_self _ _ _ _ _ _ _ Hi Hq Hp Hlive) as Hf.
  assert (Henq : ∀ r, match find_pid (k_ptable s) (p_pid p) q with
                      | Some _ => ret tt
                      | None => mlfq_push (p_cur_q p) i
                      end s = r → mlfq_enqueue (p_cur_q p) i s = r).
  { intros r <-. unfold mlfq_enqueue. erewrite bind_Ok by (unfold proc_at; by rewrite Hp).
    erewrite bind_Ok by exact Hfind. by destruct (find_pid _ _ q). }
  unfold enqueued. rewrite Hq.
  destruct (find_pid (k_ptable s) (p_pid p) q) as [n|]; simpl in Henq.
  - assert (Hin : i ∈ q) by by eapply list_elem_of_lookup_2.
    rewrite decide_True by done.
    exists (k_qu s), (k_qindex s), (p_qtime p). simpl.
    replace (set_p_qtime (p_qtime p) p) with p by by destruct p.
    rewrite list_insert_id by done. split; [apply Henq; by destruct s|].
    destruct Hi as [H1 H2 H3 H4 H5 H6 H7].
    split; simpl; [by eapply qrep_same, H1|done..| |done].
    intros j r Hr Hrun HX. destruct (decide (j = i)) as [->|Hne].
    + simplify_eq. eauto.
    + apply (H6 j r); [done..|]. naive_solver.
  - rewrite decide_False by done.
    destruct (mlfq_push_inv X s qs _ q i p Hi Hq Hf Hp Hst Hz) as (qu' & qi' & Heq & Hinv).
    rewrite <-Hz in Heq.
    exists qu', qi', (i32 (k_ticks s)). split; [by apply Henq|exact Hinv].
Qed.
End inv.
