(* ===== verification/MlfqOps.v ===== *)
(** * MlfqOps: the operations of proc.c preserve the queue invariant

    wakeup, kill, the scheduler's aging, dispatch and requeue, and the state
    changes of yield, sleep and exit, run on states that satisfy [mlfq_inv]:
    each returns (no panic, no undefined behaviour) and re-establishes it. *)

From stdpp Require Import base numbers gmap strings option list.
From S2P Require Import Prelude Format Machine Mlfq ProcCore Scheduler MlfqInv.
Local Open Scope kernel_scope.

(** Only the process table and the queues differ. *)
Definition ps_only (s s' : kernel) : Prop :=
  s' = set_k_ptable (k_ptable s') (set_k_qindex (k_qindex s') (set_k_qu (k_qu s') s)).

Lemma ps_only_refl s : ps_only s s.
Proof. by destruct s. Qed.
Lemma ps_only_trans s1 s2 s3 : ps_only s1 s2 → ps_only s2 s3 → ps_only s1 s3.
Proof. unfold ps_only. intros E1 E2. rewrite E2, E1. done. Qed.
Lemma ps_only_set s pt qi qu : ps_only s (set_k_ptable pt (set_k_qindex qi (set_k_qu qu s))).
Proof. done. Qed.
Lemma ps_only_ptable s pt : ps_only s (set_k_ptable pt s).
Proof. by destruct s. Qed.
#[export] Instance ps_only_preorder : PreOrder ps_only.
Proof. split; [exact ps_only_refl|exact ps_only_trans]. Qed.

(** No process is exempt from being queued. *)
Definition none : nat → Prop := λ _, False.

Lemma none_or i j : none j ∨ j = i ↔ j = i.
Proof. unfold none. naive_solver. Qed.

Lemma proc_wf_state n p st :
  proc_wf n p → p_state p ≠ UNUSED →
  (p_state p ∈ [RUNNABLE; RUNNING; SLEEPING] ∨ st ∉ [RUNNABLE; RUNNING; SLEEPING]) →
  proc_wf n (set_p_state st p).
Proof. intros [? ? ? ? ?] Hst Hm. split; simpl; [done..|auto|]. set_solver. Qed.

Lemma proc_wf_same n p p' :
  proc_wf n p → p_state p' = p_state p → p_pid p' = p_pid p → p_cur_q p' = p_cur_q p →
  length (p_q p') = length (p_q p) → p_kstack p' = p_kstack p → p_pgdir p' = p_pgdir p →
  proc_wf n p'.
Proof. intros [? ? ? ? ?] E1 E2 E3 E4 E5 E6. split; by rewrite ?E1, ?E2, ?E3, ?E4, ?E5, ?E6. Qed.

Lemma upd_proc_eq s i p f :
  k_ptable s !! i = Some p →
  upd_proc i f s = Ok tt (set_k_ptable (<[i := f p]> (k_ptable s)) s).
Proof. unfold upd_proc. by intros ->. Qed.

Lemma proc_at_eq s i p : k_ptable s !! i = Some p → proc_at i s = Ok p s.
Proof. unfold proc_at. by intros ->. Qed.

(** ** Searches of the process table *)

Lemma slots_find_Some {R} (P : proc → Prop) `{∀ p, Decision (P p)} (body : nat → K (option R))
    s i p r s' :
  length (k_ptable s) = NPROC → list_find P (k_ptable s) = Some (i, p) →
  (∀ j q, k_ptable s !! j = Some q → ¬ P q → body j s = Ok None s) →
  body i s = Ok (Some r) s' → for_find slots body s = Ok (Some r) s'.
Proof.
  intros Hl (Hi & _ & Hmin)%list_find_Some Hno Hb.
  assert (Hlt : i < NPROC) by (rewrite <-Hl; by eapply lookup_lt_Some).
  apply (for_find_states_Some slots body (λ _, s) i i r s'); [|done|].
  - unfold slots. by rewrite lookup_seq_lt.
  - intros j y Hj Hy. unfold slots in Hy. rewrite lookup_seq_lt in Hy by lia.
    assert (y = j) as -> by (simpl in Hy; congruence).
    destruct (lookup_lt_is_Some_2 (k_ptable s) j) as [q Hq]; [lia|].
    apply (Hno _ q); [done|]. by eapply Hmin.
Qed.

Lemma slots_find_None {R} (P : proc → Prop) `{∀ p, Decision (P p)} (body : nat → K (option R)) s :
  length (k_ptable s) = NPROC → list_find P (k_ptable s) = None →
  (∀ j q, k_ptable s !! j = Some q → ¬ P q → body j s = Ok None s) →
  for_find slots body s = Ok None s.
Proof.
  intros Hl Hf%list_find_None Hno. apply (for_find_states_None slots body (λ _, s)).
  intros j y Hy. apply lookup_seq in Hy as [-> Hj].
  destruct (lookup_lt_is_Some_2 (k_ptable s) j) as [q Hq]; [lia|].
  apply (Hno _ q); [done|]. rewrite Forall_lookup in Hf. by eapply Hf.
Qed.

(** [myproc] and [switchuvm] with a lock held leave the processor's lock
    bookkeeping as it is. *)
Lemma myproc_eq s :
  cpu_ok s → myproc s = Ok (c_proc (k_cpu s)) (touched s).
Proof.
  intros [Hn _ _]. unfold myproc. erewrite bind_Ok by apply pushcli_eq.
  erewrite bind_Ok by done. erewrite bind_Ok by done.
  erewrite bind_Ok by (apply popcli_eq; [done|simpl; lia]). done.
Qed.

Lemma myproc_held s :
  cpu_ok s → k_held s ≠ [] → myproc s = Ok (c_proc (k_cpu s)) s.
Proof. intros Hok Hh. by rewrite myproc_eq, touched_held. Qed.

Definition cpu_user (p : proc) (c : cpu) : cpu :=
  set_c_cr3 (V2P (p_pgdir p)) (set_c_tr (SEG_TSS * 8)%Z (set_c_iomb 0xFFFF%Z
    (set_c_esp0 (u32 (p_kstack p + KSTACKSIZE)) (set_c_ss0 (SEG_KDATA * 8)%Z
      (set_gdt SEG_TSS (set_sd_s0 (SEG16 STS_T32A (c_tsaddr c) (sizeof_ts - 1) 0)) c))))).

Lemma switchuvm_eq s i p :
  cpu_ok s → k_held s ≠ [] → k_ptable s !! i = Some p →
  p_kstack p ≠ 0%Z → p_pgdir p ≠ 0%Z →
  switchuvm (Some i) s = Ok tt (set_k_cpu (cpu_user p (k_cpu s)) s).
Proof.
  intros Hok Hh Hp Hk Hd. pose proof Hok as [Hn Hi _]. specialize (Hi Hh).
  unfold switchuvm. erewrite bind_Ok by by apply proc_at_eq.
  destruct (Z.eqb_spec (p_kstack p) 0); [done|].
  destruct (Z.eqb_spec (p_pgdir p) 0); [done|].
  erewrite bind_Ok by apply pushcli_eq. do 7 (erewrite bind_Ok by done).
  rewrite popcli_eq; [|done|simpl; lia].
  assert (Hlen : (0 < c_ncli (k_cpu s))%Z).
  { rewrite Hn. destruct (k_held s); [done|]. simpl. lia. }
  pose proof (cpu_pop_push _ Hlen Hi) as E. f_equal. simpl.
  enough (Hc : cpu_pop (cpu_user p (cpu_push (k_cpu s))) = cpu_user p (k_cpu s)) by (by rewrite <-Hc).
  apply cpu_ext; simpl; try done.
  - lia.
  - by destruct (Z.eqb_spec (c_ncli (k_cpu s)) 0); [lia|].
  - by destruct (Z.eqb_spec (c_ncli (k_cpu s) + 1) 1); [lia|].
Qed.

Section ops.
Context `{Env}.
Implicit Types (s : kernel) (qs : list (list nat)).

(** What waking slot [p] up makes of it; [t] is its new [qtime]. *)
Definition woken (ch : option chan) (t : Z) (p : proc) : proc :=
  if decide (p_state p = SLEEPING ∧ p_chan p = ch)
  then set_p_qtime t (set_p_state RUNNABLE p) else p.

(** A process made RUNNABLE and queued, as wakeup1, kill and fork do. *)
Lemma ready_inv_gen s qs i p :
  mlfq_inv none s qs → k_ptable s !! i = Some p → p_state p ≠ RUNNABLE →
  proc_wf (k_nextpid s) (set_p_state RUNNABLE p) →
  let s1 := set_k_ptable (<[i := set_p_state RUNNABLE p]> (k_ptable s)) s in
  ∃ qu' qi' t, let s' := set_k_ptable (<[i := set_p_qtime t (set_p_state RUNNABLE p)]> (k_ptable s))
                           (set_k_qindex qi' (set_k_qu qu' s)) in
    mlfq_enqueue (p_cur_q p) i s1 = Ok tt s' ∧
    mlfq_inv none s' (enqueued qs (Z.to_nat (p_cur_q p)) i).
Proof.
  intros Hi Hp Hst Hwf s1. pose proof (lookup_lt_Some _ _ _ Hp) as Hlt.
  assert (Hi1 : mlfq_inv (λ j, none j ∨ j = i) s1 qs).
  { eapply mlfq_inv_keep_pid; [done..| |done|done]. by eapply unqueued_state. }
  destruct (mlfq_enqueue_inv none s1 qs i (set_p_state RUNNABLE p) Hi1)
    as (qu' & qi' & t & Heq & Hinv).
  { simpl. by apply list_lookup_insert_eq. }
  { done. }
  exists qu', qi', t. simpl in *. rewrite list_insert_insert_eq in Heq, Hinv.
  split; [exact Heq|exact Hinv].
Qed.

Lemma ready_inv s qs i p :
  mlfq_inv none s qs → k_ptable s !! i = Some p → p_state p = SLEEPING →
  let s1 := set_k_ptable (<[i := set_p_state RUNNABLE p]> (k_ptable s)) s in
  ∃ qu' qi' t, let s' := set_k_ptable (<[i := set_p_qtime t (set_p_state RUNNABLE p)]> (k_ptable s))
                           (set_k_qindex qi' (set_k_qu qu' s)) in
    mlfq_enqueue (p_cur_q p) i s1 = Ok tt s' ∧
    mlfq_inv none s' (enqueued qs (Z.to_nat (p_cur_q p)) i).
Proof.
  intros Hi Hp Hst. apply ready_inv_gen; [done..|by rewrite Hst|].
  apply proc_wf_state; [by eapply mi_wf|by rewrite Hst|]. left. rewrite Hst. set_solver.
Qed.

Lemma wakeup_slot_mlfq s qs ch i p :
  SCHEDULER = MLFQ → mlfq_inv none s qs → k_ptable s !! i = Some p →
  ∃ s' qs' t, wakeup_slot ch i s = Ok tt s' ∧ mlfq_inv none s' qs' ∧ ps_only s s' ∧
    k_ptable s' = <[i := woken ch t p]> (k_ptable s).
Proof.
  intros Hm Hi Hp. unfold wakeup_slot. erewrite bind_Ok by by apply proc_at_eq.
  case_bool_decide as Hc; simpl.
  2:{ exists s, qs, 0%Z. unfold woken. rewrite decide_False by done.
      split_and!; [done|done|reflexivity|]. by rewrite list_insert_id. }
  destruct Hc as [Hst Hch].
  destruct (ready_inv s qs i p Hi Hp Hst) as (qu' & qi' & t & Heq & Hinv).
  erewrite bind_Ok by by apply upd_proc_eq.
  unfold is_sched. rewrite bool_decide_eq_true_2 by done. simpl.
  erewrite bind_Ok by exact Heq. erewrite bind_Ok by done.
  pose proof (lookup_lt_Some _ _ _ Hp) as Hlt.
  erewrite upd_proc_eq by (simpl; by apply list_lookup_insert_eq).
  simpl. rewrite list_insert_insert_eq.
  eexists _, _, (i32 (k_ticks s)). unfold woken. rewrite decide_True by done.
  split_and!; [done| |done|done].
  eapply mlfq_inv_same; [|eapply (mlfq_inv_fields _ _ _ i _ (set_p_qtime (i32 (k_ticks s))
    (set_p_state RUNNABLE p)) Hinv); simpl; [by apply list_lookup_insert_eq|done..|]].
  - split; simpl; try done. by rewrite list_insert_insert_eq.
  - eapply proc_wf_same; [eapply (mi_wf _ _ _ Hinv i); simpl; by apply list_lookup_insert_eq|done..].
Qed.

(** The woken processes of a prefix of the table. *)
Lemma wakeup1_mlfq_loop s qs ch l :
  SCHEDULER = MLFQ → mlfq_inv none s qs → NoDup l → (∀ i, i ∈ l → i < NPROC) →
  ∃ s' qs', for_each l (wakeup_slot ch) s = Ok tt s' ∧ mlfq_inv none s' qs' ∧ ps_only s s' ∧
    ∀ i p, k_ptable s !! i = Some p →
      ∃ t, k_ptable s' !! i = Some (if decide (i ∈ l) then woken ch t p else p).
Proof.
  intros Hm. revert s qs. induction l as [|i l IH]; intros s qs Hi Hnd Hl.
  { exists s, qs. split_and!; [done|done|reflexivity|]. intros j p Hp. exists 0%Z.
    by rewrite decide_False by set_solver. }
  apply NoDup_cons in Hnd as [Hni Hnd].
  destruct (lookup_lt_is_Some_2 (k_ptable s) i) as [p Hp].
  { rewrite (mi_len _ _ _ Hi). apply Hl. set_solver. }
  destruct (wakeup_slot_mlfq s qs ch i p Hm Hi Hp) as (s1 & qs1 & t & E1 & Hi1 & Hf1 & Hpt1).
  destruct (IH s1 qs1 Hi1 Hnd) as (s2 & qs2 & E2 & Hi2 & Hf2 & Hpt2).
  { intros j Hj. apply Hl. set_solver. }
  exists s2, qs2. erewrite for_each_Ok by done.
  split_and!; [done|done|by etrans|].
  intros j r Hr. destruct (decide (j = i)) as [->|Hne].
  - destruct (Hpt2 i (woken ch t p)) as [t' Ht'].
    { rewrite Hpt1. apply list_lookup_insert_eq. by eapply lookup_lt_Some. }
    exists t. rewrite Ht', decide_False by done.
    rewrite decide_True by set_solver. by simplify_eq.
  - destruct (Hpt2 j r) as [t' Ht']; [by rewrite Hpt1, list_lookup_insert_ne by done|].
    exists t'. rewrite Ht'. f_equal. repeat case_decide; set_solver.
Qed.

Lemma wakeup1_mlfq s qs ch :
  SCHEDULER = MLFQ → mlfq_inv none s qs →
  ∃ s' qs', wakeup1 ch s = Ok tt s' ∧ mlfq_inv none s' qs' ∧ ps_only s s' ∧
    ∀ i p, k_ptable s !! i = Some p → ∃ t, k_ptable s' !! i = Some (woken ch t p).
Proof.
  intros Hm Hi.
  destruct (wakeup1_mlfq_loop s qs ch slots Hm Hi) as (s' & qs' & E & Hi' & Hf & Hpt).
  { apply NoDup_seq. } { intros i Hin%elem_of_seq. lia. }
  exists s', qs'. split_and!; [done..|]. intros i p Hp. destruct (Hpt i p Hp) as [t Ht].
  exists t. rewrite Ht, decide_True; [done|]. apply elem_of_seq.
  apply lookup_lt_Some in Hp. rewrite (mi_len _ _ _ Hi) in Hp. lia.
Qed.
End ops.
