(* ===== verification/MlfqBoot.v ===== *)
(** * MlfqBoot: concrete states that satisfy the queue invariant

    [mlfq_check] decides [mlfq_inv] by evaluation.  [sample] builds a process table
    and the queue arrays from a list of processes and the five queues. *)

From stdpp Require Import base numbers gmap strings option list.
From S2P Require Import Prelude Format Machine Boot Mlfq ProcCore Scheduler MlfqInv MlfqOps.
Local Open Scope kernel_scope.

(** ** Deciding the invariant *)

Definition row_check (row : list (option nat)) (idx : Z) (q : list nat) : bool :=
  bool_decide (length row = NPROC) && (idx =? Z.of_nat (length q) - 1)%Z &&
  bool_decide (take (length q) row = Some <$> q).

Definition proc_check (nextpid : Z) (p : proc) : bool :=
  (0 <=? p_cur_q p)%Z && (p_cur_q p <? 5)%Z && bool_decide (length (p_q p) = 5) &&
  (0 <=? p_pid p)%Z && (p_pid p <? nextpid)%Z &&
  (bool_decide (p_state p = UNUSED) || (0 <? p_pid p)%Z) &&
  (bool_decide (p_state p ∉ [RUNNABLE; RUNNING; SLEEPING]) ||
   (negb (p_kstack p =? 0)%Z && negb (p_pgdir p =? 0)%Z)).

Definition queued_check (s : kernel) (k : nat) (q : list nat) : bool :=
  bool_decide (NoDup q) &&
  forallb (λ i, match k_ptable s !! i with
                | Some p => bool_decide (p_state p = RUNNABLE) && (p_cur_q p =? Z.of_nat k)%Z
                | None => false
                end) q.

Definition mlfq_check (s : kernel) (qs : list (list nat)) : bool :=
  bool_decide (length (k_qu s) = 5) && bool_decide (length (k_qindex s) = 5) &&
  bool_decide (length qs = 5) && bool_decide (length (k_ptable s) = NPROC) &&
  forallb (λ k, match k_qu s !! k, k_qindex s !! k, qs !! k with
                | Some row, Some idx, Some q => row_check row idx q && queued_check s k q
                | _, _, _ => false
                end) (seq 0 5) &&
  forallb (proc_check (k_nextpid s)) (k_ptable s) &&
  bool_decide (NoDup (filter (λ z, (0 < z)%Z) (p_pid <$> k_ptable s))) &&
  forallb (λ i, match k_ptable s !! i with
                | Some p => negb (bool_decide (p_state p = RUNNABLE)) ||
                    bool_decide (i ∈ default [] (qs !! Z.to_nat (p_cur_q p)))
                | None => true
                end) (seq 0 NPROC).

Ltac checks H :=
  repeat match type of H with
  | (_ && _) = true => apply andb_true_iff in H as [H ?]
  end;
  rewrite ?orb_true_iff, ?bool_decide_eq_true, ?Z.eqb_eq, ?Z.leb_le, ?Z.ltb_lt in *.

Lemma row_check_sound row idx q : row_check row idx q = true → row_rep row idx q.
Proof. unfold row_check. intros H. checks H. by split. Qed.

Lemma proc_check_sound n p : proc_check n p = true → proc_wf n p.
Proof.
  unfold proc_check. intros H. checks H. split; [lia|done|lia| |].
  - destruct H1 as [H1|H1]; [done|by intros _].
  - intros Hst. destruct H0 as [H0|H0]; [done|].
    rewrite andb_true_iff, !negb_true_iff, !Z.eqb_neq in H0. done.
Qed.

(** Distinct positive elements of a list are at distinct positions. *)
Lemma filter_pos_inj (l : list Z) i j z :
  NoDup (filter (λ z, (0 < z)%Z) l) → l !! i = Some z → l !! j = Some z → (0 < z)%Z → i = j.
Proof.
  revert i j. induction l as [|x l IH]; intros i j Hnd Hi Hj Hz; [done|].
  rewrite filter_cons in Hnd.
  assert (Hin : ∀ k, l !! k = Some z → z ∈ filter (λ z, (0 < z)%Z) l).
  { intros k Hk. apply list_elem_of_filter. split; [done|]. by eapply list_elem_of_lookup_2. }
  destruct i as [|i], j as [|j]; simpl in *; [done| | |].
  - simplify_eq. rewrite decide_True in Hnd by done. apply NoDup_cons in Hnd as [Hn _].
    by apply Hin in Hj.
  - simplify_eq. rewrite decide_True in Hnd by done. apply NoDup_cons in Hnd as [Hn _].
    by apply Hin in Hi.
  - f_equal. apply IH; [|done..]. case_decide; [by apply NoDup_cons in Hnd as [_ ?]|done].
Qed.

Lemma mlfq_check_sound s qs : mlfq_check s qs = true → mlfq_inv none s qs.
Proof.
  unfold mlfq_check. intros H. checks H. rename H0 into Hcompl, H1 into Huniq, H2 into Hwf,
    H3 into Hrows, H4 into Hlen, H5 into Hqs, H6 into Hqi, H into Hqu.
  rewrite !forallb_forall in *.
  assert (Hrow : ∀ k q, qs !! k = Some q → ∃ row idx, k_qu s !! k = Some row ∧
    k_qindex s !! k = Some idx ∧ row_rep row idx q ∧ queued_check s k q = true).
  { intros k q Hq. pose proof (lookup_lt_Some _ _ _ Hq) as Hlt.
    specialize (Hrows k ltac:(apply in_seq; lia)). rewrite Hq in Hrows.
    destruct (k_qu s !! k) as [row|], (k_qindex s !! k) as [idx|]; try done.
    apply andb_true_iff in Hrows as [?%row_check_sound ?]. eauto 10. }
  split; [split; [done..|]|done| | | | |].
  - intros k q (row & idx & ? & ? & ? & _)%Hrow. eauto.
  - intros i p Hp. apply proc_check_sound, Hwf, list_elem_of_In. by eapply list_elem_of_lookup_2.
  - intros i j p p' Hp Hp' E Hpos. apply (filter_pos_inj _ i j (p_pid p) Huniq); [| |done];
      rewrite list_lookup_fmap, ?Hp, ?Hp'; simpl; congruence.
  - intros k q i (_ & _ & _ & _ & _ & Hc)%Hrow Hi. unfold queued_check in Hc.
    apply andb_true_iff in Hc as [_ Hc]. rewrite forallb_forall in Hc.
    specialize (Hc i ltac:(by apply list_elem_of_In)).
    destruct (k_ptable s !! i) as [p|]; [|done]. checks Hc. eauto.
  - intros i p Hp Hst _. assert (Hi : In i (seq 0 NPROC)).
    { apply in_seq. rewrite <-Hlen. split; [lia|]. by eapply lookup_lt_Some. }
    specialize (Hcompl i Hi). rewrite Hp, (bool_decide_eq_true_2 _ Hst) in Hcompl.
    simpl in Hcompl. apply bool_decide_eq_true in Hcompl as Hin.
    destruct (qs !! Z.to_nat (p_cur_q p)) as [q|]; [eauto|by apply not_elem_of_nil in Hin].
  - intros k q (_ & _ & _ & _ & _ & Hc)%Hrow. unfold queued_check in Hc.
    apply andb_true_iff in Hc as [Hc _]. by apply bool_decide_eq_true in Hc.
Qed.

(** ** Samples *)

(** A live process, in queue [q], that entered its state at time [t]. *)
Definition sample_proc (st : procstate) (pid q t : Z) : proc :=
  set_p_state st (set_p_pid pid (set_p_kstack 0x8dfff000%Z (set_p_pgdir 0x8dffe000%Z
    (set_p_cur_q q (set_p_qtime t (set_p_priority 60%Z zero_proc)))))).

(** The processes [ps] in the first slots, the queues [qs], the clock at [now]. *)
Definition sample (now : Z) (ps : list proc) (qs : list (list nat)) : kernel :=
  set_k_ptable (ps ++ replicate (NPROC - length ps) zero_proc)
    (set_k_qu ((λ q, (Some <$> q) ++ replicate (NPROC - length q) None) <$> qs)
      (set_k_qindex ((λ q, (Z.of_nat (length q) - 1)%Z) <$> qs)
        (set_k_nextpid (Z.of_nat (length ps) + 1)%Z (set_k_ticks now zero_kernel)))).

(** The same with ptable.lock held by this processor. *)
Definition sample_locked (now : Z) (ps : list proc) (qs : list (list nat)) : kernel :=
  locked LK_ptable (sample now ps qs).

(** Just after boot: [init] alone, RUNNABLE. *)
Definition boot_mem : kernel := sample 0 [sample_proc RUNNABLE 1 0 0] [[0]; []; []; []; []].

(** A busy machine at tick 100: slots 0 and 3 wait in queue 0 and 2, slot 1 has
    been waiting in queue 2 since tick 10, slot 2 sleeps. *)
Definition busy_queues : list (list nat) := [[0]; []; [1; 3]; []; []].
Definition busy : kernel :=
  sample 100 [sample_proc RUNNABLE 1 0 90; sample_proc RUNNABLE 2 2 10;
              set_p_chan (Some CH_ticks) (sample_proc SLEEPING 3 1 0);
              sample_proc RUNNABLE 4 2 20] busy_queues.
Definition busy_locked : kernel := locked LK_ptable busy.

Lemma boot_inv : mlfq_inv none boot_mem [[0]; []; []; []; []].
Proof. apply mlfq_check_sound. by vm_compute. Qed.
Lemma busy_inv : mlfq_inv none busy busy_queues.
Proof. apply mlfq_check_sound. by vm_compute. Qed.
Lemma busy_locked_inv : mlfq_inv none busy_locked busy_queues.
Proof. apply mlfq_check_sound. by vm_compute. Qed.

Lemma busy_cpu : cpu_ok busy.
Proof. split; [done|done|constructor]. Qed.
Lemma busy_locked_cpu : cpu_ok busy_locked.
Proof. apply cpu_ok_locked; [apply busy_cpu|]. apply not_elem_of_nil. Qed.
