(* ===== verification/MlfqSched.v ===== *)
(** * MlfqSched: one pass of the MLFQ scheduler

    The three parts of the MLFQ branch of [scheduler]: aging, dispatch of the head
    of the first non-empty queue, and the return of a preempted process to a
    queue.  Each is proved to compute a function of the five lists, and to
    preserve [mlfq_inv]. *)

From stdpp Require Import base numbers gmap strings option list.
From S2P Require Import Prelude Format Machine Mlfq ProcCore Scheduler MlfqInv MlfqOps.
Local Open Scope kernel_scope.

(** ** Requeue *)

(** What [p] looks like after the demotion test. *)
Definition flagged (p : proc) : bool :=
  bool_decide (p_flg p = 1%Z) ||
  match p_q p !! Z.to_nat (p_cur_q p), max_queue_ticks !! Z.to_nat (p_cur_q p) with
  | Some v, Some m => (m <=? v)%Z
  | _, _ => false
  end.
Definition demoted (p : proc) : proc :=
  if flagged p then
    let p1 := set_p_flg 0%Z p in
    if (p_cur_q p <? 4)%Z then set_p_cur_q (p_cur_q p + 1)%Z p1 else p1
  else p.

Lemma proc_wf_demoted n p : proc_wf n p → proc_wf n (demoted p).
Proof.
  intros [? ? ? ? ?]. unfold demoted. destruct (flagged p); [|by split].
  destruct (Z.ltb_spec (p_cur_q p) 4); split; simpl; try done; lia.
Qed.

Lemma demoted_pid p : p_pid (demoted p) = p_pid p.
Proof. unfold demoted. by repeat case_match. Qed.
Lemma demoted_state p : p_state (demoted p) = p_state p.
Proof. unfold demoted. by repeat case_match. Qed.

(** The demotion code of the scheduler computes [demoted]. *)
Lemma demote_eq s i p :
  k_ptable s !! i = Some p → proc_wf (k_nextpid s) p →
  (let! v := arr_get (p_q p) (p_cur_q p) in
   let! m := arr_get max_queue_ticks (p_cur_q p) in
   when (m <=? v)%Z (upd_proc i (set_p_flg 1%Z)) ;;
   let! pp := proc_at i in
   when (p_flg pp =? 1)%Z (
     upd_proc i (set_p_flg 0%Z) ;;
     when (p_cur_q pp <? 4)%Z (upd_proc i (set_p_cur_q (p_cur_q pp + 1)%Z))) ;;
   let! pp := proc_at i in
   mlfq_enqueue (p_cur_q pp) i) s =
  mlfq_enqueue (p_cur_q (demoted p)) i (set_k_ptable (<[i := demoted p]> (k_ptable s)) s).
Proof.
  intros Hp [Hcq Hq _ _ _]. pose proof (lookup_lt_Some _ _ _ Hp) as Hlt.
  destruct (lookup_lt_is_Some_2 (p_q p) (Z.to_nat (p_cur_q p))) as [v Hv]; [lia|].
  destruct (lookup_lt_is_Some_2 max_queue_ticks (Z.to_nat (p_cur_q p))) as [m Hm].
  { simpl. lia. }
  assert (Hz : p_cur_q p = Z.of_nat (Z.to_nat (p_cur_q p))) by lia.
  erewrite bind_Ok by (rewrite Hz; by apply arr_get_eq).
  erewrite bind_Ok by (rewrite Hz; by apply arr_get_eq).
  unfold demoted, flagged. rewrite Hv, Hm.
  set (pt' f := set_k_ptable (<[i := f p]> (k_ptable s)) s).
  assert (Hpt' : ∀ f g, upd_proc i f (pt' g) = Ok tt (pt' (f ∘ g))).
  { intros f g. erewrite upd_proc_eq by (simpl; by apply list_lookup_insert_eq).
    unfold pt'. simpl. by rewrite list_insert_insert_eq. }
  assert (Hat : ∀ g, proc_at i (pt' g) = Ok (g p) (pt' g)).
  { intros g. apply proc_at_eq. simpl. by apply list_lookup_insert_eq. }
  assert (Hid : s = pt' id).
  { unfold pt'. simpl. rewrite list_insert_id by done. by destruct s. }
  assert (Hfl : ∀ b, (when b (upd_proc i (set_p_flg 1%Z))) s =
    Ok tt (pt' (if b then set_p_flg 1%Z else id))).
  { intros []; simpl; [by apply upd_proc_eq|by rewrite <-Hid]. }
  erewrite bind_Ok by apply Hfl. erewrite bind_Ok by apply Hat.
  destruct (m <=? v)%Z; simpl; rewrite ?orb_true_r, ?orb_false_r.
  - destruct (p_cur_q p <? 4)%Z eqn:E4; cbn.
    + erewrite bind_Ok by (erewrite bind_Ok by apply Hpt'; apply Hpt').
      by erewrite bind_Ok by apply Hat.
    + erewrite bind_Ok by (erewrite bind_Ok by apply Hpt'; done).
      by erewrite bind_Ok by apply Hat.
  - destruct (Z.eqb_spec (p_flg p) 1) as [Ef|Ef].
    + rewrite bool_decide_eq_true_2 by done.
      destruct (p_cur_q p <? 4)%Z eqn:E4; cbn.
      * erewrite bind_Ok by (erewrite bind_Ok by apply Hpt'; apply Hpt').
        by erewrite bind_Ok by apply Hat.
      * erewrite bind_Ok by (erewrite bind_Ok by apply Hpt'; done).
        by erewrite bind_Ok by apply Hat.
    + rewrite bool_decide_eq_false_2 by done. cbn.
      by erewrite bind_Ok by apply Hat.
Qed.

Definition undispatched (s : kernel) : kernel :=
  set_k_cpu (set_c_proc None (set_c_cr3 (V2P (k_kpgdir s)) (k_cpu s))) s.

Lemma undispatch_eq s : undispatch s = Ok tt (undispatched s).
Proof. done. Qed.

(** The process that comes back from [swtch] is queued again iff it is RUNNABLE. *)
Lemma mlfq_requeue_inv s qs i p :
  mlfq_inv (λ j, none j ∨ j = i) s qs → unqueued qs i → k_ptable s !! i = Some p →
  ∃ s' t, mlfq_requeue i s = Ok tt s' ∧
    ps_only (undispatched s) s' ∧
    k_ptable s' = <[i := if decide (p_state p = RUNNABLE)
                         then set_p_qtime t (demoted p) else p]> (k_ptable s) ∧
    mlfq_inv none s' (if decide (p_state p = RUNNABLE)
                      then enqueued qs (Z.to_nat (p_cur_q (demoted p))) i else qs).
Proof.
  intros Hi Hun Hp. unfold mlfq_requeue. erewrite bind_Ok by apply undispatch_eq.
  pose proof (lookup_lt_Some _ _ _ Hp) as Hlt.
  assert (Hi0 : mlfq_inv (λ j, none j ∨ j = i) (undispatched s) qs).
  { eapply mlfq_inv_same; [|done]. by split. }
  erewrite bind_Ok by (apply proc_at_eq; exact Hp).
  destruct (decide (p_state p = RUNNABLE)) as [Hst|Hst].
  - rewrite bool_decide_eq_true_2 by done. simpl.
    rewrite demote_eq by (done || by eapply (mi_wf _ _ _ Hi0)).
    assert (Hi1 : mlfq_inv (λ j, none j ∨ j = i)
      (set_k_ptable (<[i := demoted p]> (k_ptable (undispatched s))) (undispatched s)) qs).
    { eapply mlfq_inv_weaken; [|eapply (mlfq_inv_keep_pid _ _ _ i p); [done..| |]].
      - naive_solver.
      - apply proc_wf_demoted. by eapply (mi_wf _ _ _ Hi0).
      - apply demoted_pid. }
    destruct (mlfq_enqueue_inv none _ qs i (demoted p) Hi1) as (qu' & qi' & t & Heq & Hinv).
    { simpl. by apply list_lookup_insert_eq. }
    { by rewrite demoted_state. }
    simpl in *. rewrite list_insert_insert_eq in *.
    eexists _, t. split_and!; [exact Heq|done|done|exact Hinv].
  - rewrite bool_decide_eq_false_2 by done. simpl.
    exists (undispatched s), 0%Z. split_and!; [done|reflexivity| |].
    + simpl. by rewrite list_insert_id.
    + by eapply mlfq_inv_drop.
Qed.

(** ** Dispatch *)

(** What the dispatch from queue [k] makes of [p]. *)
Definition charged (k : nat) (p : proc) : proc :=
  let v := i32 (default 0%Z (p_q p !! k) + 1) in
  let p1 := set_p_q (<[k := v]> (p_q p)) p in
  if (default 0%Z (max_queue_ticks !! k) <=? v)%Z then set_p_flg 1%Z p1 else p1.
Definition taken (k : nat) (p : proc) : proc :=
  let p1 := charged k p in
  set_p_state RUNNING (set_p_n_run (i32 (p_n_run p1 + 1)) p1).

Lemma charged_same k p :
  p_state (charged k p) = p_state p ∧ p_pid (charged k p) = p_pid p ∧
  p_cur_q (charged k p) = p_cur_q p ∧ length (p_q (charged k p)) = length (p_q p) ∧
  p_kstack (charged k p) = p_kstack p ∧ p_pgdir (charged k p) = p_pgdir p.
Proof. unfold charged. case_match; simpl; by rewrite length_insert. Qed.

Lemma charge_eq s (k : nat) i p :
  k < 5 → k_ptable s !! i = Some p → length (p_q p) = 5 →
  ∀ (rest : K unit), (let! v := bump_q i (Z.of_nat k) in
    let! m := arr_get max_queue_ticks (Z.of_nat k) in
    when (m <=? v)%Z (upd_proc i (set_p_flg 1%Z)) ;; rest) s =
  rest (set_k_ptable (<[i := charged k p]> (k_ptable s)) s).
Proof.
  intros Hk Hp Hq rest. pose proof (lookup_lt_Some _ _ _ Hp) as Hlt.
  destruct (lookup_lt_is_Some_2 (p_q p) k) as [v Hv]; [lia|].
  destruct (lookup_lt_is_Some_2 max_queue_ticks k) as [m Hm]; [simpl; lia|].
  unfold charged. rewrite Hv, Hm. cbn [default id].
  erewrite bind_Ok.
  2:{ unfold bump_q. erewrite bind_Ok by by apply proc_at_eq.
      erewrite bind_Ok by by apply arr_get_eq.
      by erewrite bind_Ok by by apply upd_proc_eq. }
  erewrite bind_Ok by by apply arr_get_eq. rewrite Nat2Z.id.
  destruct (m <=? i32 (v + 1))%Z; simpl.
  - erewrite bind_Ok by (apply upd_proc_eq; simpl; by apply list_lookup_insert_eq).
    simpl. by rewrite list_insert_insert_eq.
  - by erewrite bind_Ok by done.
Qed.

Lemma find_pid_head s qs k q i p X :
  mlfq_inv X s qs → qs !! k = Some (i :: q) → k_ptable s !! i = Some p →
  find_pid (k_ptable s) (p_pid p) (i :: q) = Some 0.
Proof. intros Hi Hq Hp. rewrite find_pid_cons, Hp. by rewrite decide_True. Qed.

Lemma mlfq_inv_dispatchable s qs k q i X :
  mlfq_inv X s qs → qs !! k = Some q → i ∈ q →
  ∃ p, k_ptable s !! i = Some p ∧ p_state p = RUNNABLE ∧ p_cur_q p = Z.of_nat k ∧
       length (p_q p) = 5 ∧ p_kstack p ≠ 0%Z ∧ p_pgdir p ≠ 0%Z.
Proof.
  intros Hi Hq Hin. destruct (mi_sound _ _ _ Hi _ _ _ Hq Hin) as (p & Hp & Hst & Hcq).
  destruct (mi_wf _ _ _ Hi _ _ Hp) as [_ Hl _ _ Hm].
  exists p. split_and!; try done; apply Hm; rewrite Hst; set_solver.
Qed.

Lemma mlfq_take_inv s qs k q i p :
  mlfq_inv none s qs → qs !! k = Some (i :: q) → k_ptable s !! i = Some p →
  cpu_ok s → k_held s ≠ [] →
  ∃ s', mlfq_take (Z.of_nat k) i s = Ok tt s' ∧
    ps_only (set_k_cpu (cpu_user p (set_c_proc (Some i) (k_cpu s))) s) s' ∧
    k_ptable s' = <[i := taken k p]> (k_ptable s) ∧
    mlfq_inv none s' (<[k := q]> qs).
Proof.
  intros Hi Hq Hp Hok Hh. pose proof (lookup_lt_Some _ _ _ Hp) as Hlt.
  destruct (mlfq_inv_dispatchable _ _ _ _ i _ Hi Hq) as (p' & ? & Hst & Hcq & Hl & Hks & Hpd).
  { set_solver. }
  assert (p' = p) as -> by congruence.
  assert (Hk : k < 5).
  { rewrite <-(qr_qs _ _ (mi_rep _ _ _ Hi)). by eapply lookup_lt_Some. }
  destruct (charged_same k p) as (E1 & E2 & E3 & E4 & E5 & E6).
  assert (Hwf1 : proc_wf (k_nextpid s) (charged k p)).
  { eapply proc_wf_same; [by eapply (mi_wf _ _ _ Hi)|done..]. }
  pose proof (mlfq_inv_fields _ _ _ i p (charged k p) Hi Hp E1 E2 E3 Hwf1) as Hi1.
  unfold mlfq_take. rewrite (charge_eq s k i p) by done.
  set (s1 := set_k_ptable _ s) in *.
  assert (Hp1 : k_ptable s1 !! i = Some (charged k p)) by (simpl; by apply list_lookup_insert_eq).
  erewrite bind_Ok by by apply proc_at_eq.
  erewrite bind_Ok.
  2:{ eapply mlfq_find_eq; [apply Hi1|done|]. intros j Hj. by eapply mlfq_inv_valid. }
  erewrite find_pid_head by done. cbn [fmap option_fmap option_map].
  destruct (mlfq_remove_inv _ s1 qs k (i :: q) 0 i Hi1 Hq eq_refl) as (qu' & qi' & Heq & Hi2 & Hun).
  simpl in Hi2, Hun.
  erewrite bind_Ok by exact Heq.
  erewrite bind_Ok by (apply upd_proc_eq; exact Hp1).
  erewrite bind_Ok by done.
  erewrite bind_Ok.
  2:{ eapply switchuvm_eq; [| done |simpl; rewrite list_insert_insert_eq;
        by apply list_lookup_insert_eq|simpl; congruence..].
      destruct Hok as [? ? ?]. by split. }
  erewrite upd_proc_eq by (simpl; rewrite list_insert_insert_eq; by apply list_lookup_insert_eq).
  simpl. rewrite !list_insert_insert_eq.
  eexists. split_and!; [done| |done|].
  - unfold ps_only, cpu_user. simpl. rewrite E5, E6. done.
  - eapply mlfq_inv_same; [|eapply mlfq_inv_drop;
      [eapply mlfq_inv_weaken; [|eapply (mlfq_inv_keep_pid _ _ _ i (charged k p)
         (taken k p) Hi2 Hp1 Hun)]|simpl; apply list_lookup_insert_eq; by rewrite length_insert|done]].
    + split; simpl; [|done..]. rewrite list_insert_insert_eq. done.
    + unfold none. naive_solver.
    + simpl. apply proc_wf_state.
      * eapply proc_wf_same; [exact Hwf1|done..].
      * simpl. by rewrite E1, Hst.
      * left. simpl. rewrite E1, Hst. set_solver.
    + done.
Qed.

(** The first non-empty queue and its head. *)
Fixpoint first_queue (k : nat) (qs : list (list nat)) : option (nat * nat * list nat) :=
  match qs with
  | [] => None
  | [] :: qs' => first_queue (S k) qs'
  | (i :: q) :: _ => Some (k, i, q)
  end.

Lemma first_queue_Some k0 qs k i q :
  first_queue k0 qs = Some (k, i, q) →
  k0 ≤ k ∧ qs !! (k - k0) = Some (i :: q) ∧ ∀ k', k' < k - k0 → qs !! k' = Some [].
Proof.
  revert k0. induction qs as [|[|i' q'] qs IH]; intros k0 E; simpl in E; [done| |].
  - apply IH in E as (Hk & Hq & Hl). replace (k - k0) with (S (k - S k0)) by lia.
    split_and!; [lia|done|]. intros [|k'] Hk'; [done|]. simpl. apply Hl. lia.
  - simplify_eq. rewrite Nat.sub_diag. split_and!; [lia|done|lia].
Qed.

Lemma first_queue_None k0 qs k q : first_queue k0 qs = None → qs !! k = Some q → q = [].
Proof.
  revert k0 k. induction qs as [|[|i' q'] qs IH]; intros k0 k E Hq; simpl in E; [done| |done].
  destruct k; simpl in Hq; [by simplify_eq|by eapply IH].
Qed.

Lemma pick_body_eq s qs k q :
  mlfq_inv none s qs → qs !! k = Some q →
  (let! n := q_index (Z.of_nat k) in
   if (0 <=? n)%Z then
     let! e := qu_get (Z.of_nat k) 0 in
     match e with
     | None => ret (Some None)
     | Some p =>
         let! pp := proc_at p in
         if bool_decide (p_state pp = RUNNABLE) then
           mlfq_take (Z.of_nat k) p ;;
           ret (Some (Some p))
         else ret (Some None)
     end
   else ret None) s =
  match q with
  | [] => Ok None s
  | i :: _ => (mlfq_take (Z.of_nat k) i ;; ret (Some (Some i))) s
  end.
Proof.
  intros Hi Hq. erewrite bind_Ok by (eapply q_index_eq; [apply Hi|done]).
  destruct q as [|i q]; [done|].
  destruct (Z.leb_spec 0 (Z.of_nat (length (i :: q)) - 1)); [|simpl in *; lia].
  destruct (qr_row _ _ (mi_rep _ _ _ Hi) _ _ Hq) as (row & idx & Hrow & _ & Hrr).
  erewrite bind_Ok.
  2:{ apply (qu_get_eq s k row 0); [done|]. by eapply row_rep_lookup. }
  destruct (mi_sound _ _ _ Hi _ _ i Hq) as (p & Hp & Hst & _); [set_solver|].
  erewrite bind_Ok by by apply proc_at_eq. by rewrite bool_decide_eq_true_2.
Qed.

(** The scheduler picks the head of the first non-empty queue. *)
Lemma mlfq_pick_inv s qs :
  mlfq_inv none s qs → cpu_ok s → k_held s ≠ [] →
  match first_queue 0 qs with
  | None => mlfq_pick s = Ok None s
  | Some (k, i, q) =>
      ∃ p s', k_ptable s !! i = Some p ∧ mlfq_pick s = Ok (Some i) s' ∧
        p_state p = RUNNABLE ∧ p_cur_q p = Z.of_nat k ∧
        ps_only (set_k_cpu (cpu_user p (set_c_proc (Some i) (k_cpu s))) s) s' ∧
        k_ptable s' = <[i := taken k p]> (k_ptable s) ∧
        mlfq_inv none s' (<[k := q]> qs)
  end.
Proof.
  intros Hi Hok Hh. unfold mlfq_pick.
  set (body := λ i : Z, _) at 1.
  assert (Hbody : ∀ k q, qs !! k = Some q → body (Z.of_nat k) s = match q with
    | [] => Ok None s
    | i :: _ => (mlfq_take (Z.of_nat k) i ;; ret (Some (Some i))) s end).
  { intros k q Hq. by apply (pick_body_eq s qs). }
  assert (Hfind : ∀ rest k0, drop k0 qs = rest →
    for_find (Z.of_nat <$> seq k0 (length rest)) body s =
    match first_queue k0 rest with
    | None => Ok None s
    | Some (k, i, _) => (mlfq_take (Z.of_nat k) i ;; ret (Some (Some i))) s
    end).
  { induction rest as [|q rest IH]; intros k0 Hdrop; [done|].
    assert (Hq : qs !! k0 = Some q).
    { rewrite <-(Nat.add_0_r k0), <-lookup_drop, Hdrop. done. }
    cbn [length seq fmap list_fmap for_find]. pose proof (Hbody k0 q Hq) as Hb.
    destruct q as [|i q]; simpl.
    - erewrite bind_Ok by exact Hb. apply IH. rewrite (drop_S _ _ _ Hq) in Hdrop. by simplify_eq.
    - unfold bind at 1. rewrite Hb. unfold bind. by destruct (mlfq_take _ i s). }
  specialize (Hfind qs 0 eq_refl). rewrite (qr_qs _ _ (mi_rep _ _ _ Hi)) in Hfind.
  change (Z.of_nat <$> seq 0 5) with [0; 1; 2; 3; 4]%Z in Hfind.
  destruct (first_queue 0 qs) as [[[k i] q]|] eqn:Ef.
  - apply first_queue_Some in Ef as (_ & Hq & _). rewrite Nat.sub_0_r in Hq.
    destruct (mlfq_inv_dispatchable _ _ _ _ i _ Hi Hq) as (p & Hp & Hst & Hcq & _);
      [set_solver|].
    destruct (mlfq_take_inv s qs k q i p) as (s' & Ht & Hf & Hpt & Hi'); [done..|].
    exists p, s'. split_and!; try done.
    rewrite (bind_Ok _ _ s (Some (Some i)) s'); [done|].
    rewrite Hfind. by erewrite bind_Ok by done.
  - by rewrite (bind_Ok _ _ s None s).
Qed.

(** ** Aging *)

(** Slot [i] has waited for more than 25 ticks. *)
Definition aged (s : kernel) (i : nat) : bool :=
  match k_ptable s !! i with
  | Some p => (25 <? i32 (k_ticks s - p_qtime p))%Z
  | None => false
  end.

(** One scan of a queue: the processes that stay and those that are promoted.
    The process behind a promoted one moves into the place that was just
    examined, so the scan passes over it. *)
Fixpoint age_pass (old : nat → bool) (q : list nat) : list nat * list nat :=
  match q with
  | [] => ([], [])
  | i :: q' =>
      if old i then
        match q' with
        | [] => ([], [i])
        | i' :: q'' => let '(kept, moved) := age_pass old q'' in (i' :: kept, i :: moved)
        end
      else let '(kept, moved) := age_pass old q' in (i :: kept, moved)
  end.

Lemma age_pass_ind (P : list nat → Prop) :
  P [] → (∀ i, P [i]) → (∀ i i' q, P q → P (i' :: q) → P (i :: i' :: q)) → ∀ q, P q.
Proof.
  intros H0 H1 H2. cut (∀ q, P q ∧ ∀ i, P (i :: q)); [naive_solver|].
  induction q as [|i q [IH1 IH2]]; [naive_solver|]. split; [done|]. intros j. by apply H2.
Qed.

Lemma age_pass_ext f g q : (∀ i, i ∈ q → f i = g i) → age_pass f q = age_pass g q.
Proof.
  induction q as [|i|i i' q IH1 IH2] using age_pass_ind; intros Hfg; [done| |].
  - simpl. by rewrite (Hfg i) by set_solver.
  - pose proof (Hfg i ltac:(set_solver)) as E.
    assert (IH1' : age_pass f q = age_pass g q) by (apply IH1; set_solver).
    assert (IH2' : age_pass f (i' :: q) = age_pass g (i' :: q)) by (apply IH2; set_solver).
    cbn [age_pass] in *. rewrite E, IH1'. rewrite IH1' in IH2'. by rewrite IH2'.
Qed.

Lemma age_pass_Permutation f q kept moved :
  age_pass f q = (kept, moved) → kept ++ moved ≡ₚ q ∧ ∀ i, i ∈ moved → f i = true.
Proof.
  revert kept moved.
  induction q as [|i|i i' q IH1 IH2] using age_pass_ind; intros kept moved E.
  - simpl in E. simplify_eq. set_solver.
  - simpl in E. destruct (f i) eqn:Ei; simplify_eq; set_solver.
  - destruct (f i) eqn:Ei.
    + cbn [age_pass] in E. rewrite Ei in E. destruct (age_pass f q) as [k m]. simplify_eq.
      destruct (IH1 _ _ eq_refl) as [HP Hm]. split; [|set_solver].
      simpl. rewrite (Permutation_app_comm k), <-HP. simpl.
      rewrite (Permutation_app_comm k). by constructor.
    + assert (E' : age_pass f (i :: i' :: q) =
        let '(k, m) := age_pass f (i' :: q) in (i :: k, m)).
      { cbn [age_pass]. by rewrite Ei. }
      rewrite E' in E. destruct (age_pass f (i' :: q)) as [k m]. simplify_eq.
      destruct (IH2 _ _ eq_refl) as [HP Hm]. split; [|done]. simpl. by rewrite HP.
Qed.

(** What promotion to queue [k] at time [t] makes of a process. *)
Definition promoted (k : nat) (t : Z) (p : proc) : proc :=
  set_p_qtime (i32 t) (set_p_cur_q (Z.of_nat k) p).

Lemma mlfq_inv_elsewhere X s qs k k' q q' i :
  mlfq_inv X s qs → qs !! k = Some q → i ∈ q → qs !! k' = Some q' → k' ≠ k → i ∉ q'.
Proof.
  intros Hi Hq Hin Hq' Hne Hin'.
  destruct (mi_sound _ _ _ Hi _ _ _ Hq Hin) as (p & Hp & _ & E).
  destruct (mi_sound _ _ _ Hi _ _ _ Hq' Hin') as (p' & Hp' & _ & E').
  simplify_eq. lia.
Qed.

Lemma find_pid_at X s qs k q n i p :
  mlfq_inv X s qs → qs !! k = Some q → q !! n = Some i → k_ptable s !! i = Some p →
  find_pid (k_ptable s) (p_pid p) q = Some n.
Proof.
  intros Hi Hq Hn Hp.
  destruct (mi_sound _ _ _ Hi _ _ i Hq) as (p' & ? & Hst & _);
    [by eapply list_elem_of_lookup_2|]. assert (p' = p) as -> by congruence.
  destruct (mi_wf _ _ _ Hi _ _ Hp) as [_ _ _ Hlive _].
  pose proof (find_pid_self _ _ _ _ _ _ _ Hi Hq Hp (Hlive ltac:(by rewrite Hst))) as Hf.
  destruct (find_pid _ _ q) as [m|].
  - f_equal. by eapply NoDup_lookup; [eapply (mi_nodup _ _ _ Hi)| |].
  - by destruct Hf; eapply list_elem_of_lookup_2.
Qed.

Lemma mlfq_age_one_young s qs k q j i st :
  mlfq_inv none s qs → qs !! k = Some q → q !! j = Some i → aged s i = false →
  mlfq_age_one (Z.of_nat k) (Z.of_nat j) st s = Ok st s.
Proof.
  intros Hi Hq Hj Ha. unfold aged in Ha.
  destruct (qr_row _ _ (mi_rep _ _ _ Hi) _ _ Hq) as (row & idx & Hrow & _ & Hrr).
  destruct (mi_sound _ _ _ Hi _ _ i Hq) as (p & Hp & _); [by eapply list_elem_of_lookup_2|].
  rewrite Hp in Ha. unfold mlfq_age_one.
  erewrite bind_Ok by (eapply qu_get_eq; [done|by eapply row_rep_lookup]).
  erewrite bind_Ok by done. erewrite bind_Ok by by apply proc_at_eq.
  erewrite bind_Ok by done. by rewrite Ha.
Qed.

Lemma find_pid_unqueued X s qs k q i p :
  mlfq_inv X s qs → unqueued qs i → qs !! k = Some q → k_ptable s !! i = Some p →
  (0 < p_pid p)%Z → find_pid (k_ptable s) (p_pid p) q = None.
Proof.
  intros Hi Hun Hq Hp Hpos. pose proof (find_pid_self _ _ _ _ _ _ _ Hi Hq Hp Hpos) as Hf.
  destruct (find_pid _ _ q) as [n|]; [|done].
  destruct (Hun k q Hq). by eapply list_elem_of_lookup_2.
Qed.

Lemma mlfq_age_one_old s qs k q lower j i p st :
  mlfq_inv none s qs → qs !! S k = Some q → qs !! k = Some lower → q !! j = Some i →
  k_ptable s !! i = Some p → aged s i = true →
  ∃ s', mlfq_age_one (Z.of_nat (S k)) (Z.of_nat j) st s = Ok (false, Z.of_nat j) s' ∧
    ps_only s s' ∧
    k_ptable s' = <[i := promoted k (k_ticks s) p]> (k_ptable s) ∧
    mlfq_inv none s' (<[k := lower ++ [i]]> (<[S k := delete j q]> qs)).
Proof.
  intros Hi Hq Hlow Hj Hp Ha. unfold aged in Ha. rewrite Hp in Ha.
  pose proof (lookup_lt_Some _ _ _ Hp) as Hlt.
  assert (Hin : i ∈ q) by by eapply list_elem_of_lookup_2.
  destruct (mlfq_inv_dispatchable _ _ _ _ i _ Hi Hq Hin) as (p' & ? & Hst & Hcq & _).
  assert (p' = p) as -> by congruence.
  destruct (mi_wf _ _ _ Hi _ _ Hp) as [? ? ? Hlive ?].
  specialize (Hlive ltac:(by rewrite Hst)).
  destruct (qr_row _ _ (mi_rep _ _ _ Hi) _ _ Hq) as (row & idx & Hrow & _ & Hrr).
  unfold mlfq_age_one.
  erewrite bind_Ok by (eapply qu_get_eq; [done|by eapply row_rep_lookup]).
  erewrite bind_Ok by done. erewrite bind_Ok by by apply proc_at_eq.
  erewrite bind_Ok by done. rewrite Ha.
  erewrite bind_Ok.
  2:{ eapply mlfq_find_eq; [apply Hi|done|]. intros j' Hj'. exact (mlfq_inv_valid _ _ _ _ _ _ Hi Hq Hj'). }
  erewrite find_pid_at by done. cbn [fmap option_fmap option_map].
  destruct (mlfq_remove_inv _ s qs (S k) q j i Hi Hq Hj) as (qu1 & qi1 & Hrem & Hi1 & Hun).
  cbv zeta in Hi1. set (qs1 := <[S k := delete j q]> qs) in *.
  cbn [when]. erewrite bind_Ok by exact Hrem.
  set (s1 := set_k_qindex qi1 _) in *.
  assert (Hlow1 : qs1 !! k = Some lower) by (unfold qs1; by rewrite list_lookup_insert_ne by lia).
  replace (Z.of_nat (S k) - 1)%Z with (Z.of_nat k) by lia.
  erewrite bind_Ok.
  2:{ eapply mlfq_find_eq; [apply Hi1|done|]. intros j' Hj'. exact (mlfq_inv_valid _ _ _ _ _ _ Hi1 Hlow1 Hj'). }
  erewrite (find_pid_unqueued _ s1) by done. cbn [fmap option_fmap option_map].
  erewrite bind_Ok by (apply upd_proc_eq; exact Hp).
  assert (Hk : S k < 5).
  { rewrite <-(qr_qs _ _ (mi_rep _ _ _ Hi)). by eapply lookup_lt_Some. }
  assert (Hi2 : mlfq_inv (λ j, none j ∨ j = i)
    (set_k_ptable (<[i := set_p_cur_q (Z.of_nat k) p]> (k_ptable s1)) s1) qs1).
  { eapply mlfq_inv_weaken; [|eapply (mlfq_inv_keep_pid _ _ _ i p); [done..| |done]].
    - unfold none; naive_solver.
    - split; simpl; try done; lia. }
  destruct (mlfq_push_inv none _ qs1 k lower i (set_p_cur_q (Z.of_nat k) p) Hi2 Hlow1)
    as (qu' & qi' & Hpush & Hi3); [by eapply Hun|apply list_lookup_insert_eq; exact Hlt|done..|].
  simpl in Hi3. erewrite bind_Ok by exact Hpush. simpl.
  rewrite list_insert_insert_eq in *. eexists. split_and!; [done..|exact Hi3].
Qed.

(** The table after a scan of queue [k+1]. *)
Definition age_table (k : nat) (moved : list nat) (s s' : kernel) : Prop :=
  ∀ i p, k_ptable s !! i = Some p →
    k_ptable s' !! i = Some (if decide (i ∈ moved) then promoted k (k_ticks s) p else p).

Lemma age_table_cons k moved i p s s1 s2 :
  ps_only s s1 → k_ptable s !! i = Some p →
  k_ptable s1 = <[i := promoted k (k_ticks s) p]> (k_ptable s) →
  i ∉ moved → age_table k moved s1 s2 → age_table k (i :: moved) s s2.
Proof.
  intros Hps Hp Hpt Hni Ht j r Hr.
  assert (Htk : k_ticks s1 = k_ticks s) by by rewrite Hps.
  destruct (decide (j = i)) as [->|Hne].
  - rewrite decide_True by set_solver. assert (r = p) as -> by congruence.
    rewrite (Ht i (promoted k (k_ticks s) p)).
    + by rewrite decide_False.
    + rewrite Hpt. apply list_lookup_insert_eq. by eapply lookup_lt_Some.
  - rewrite (Ht j r) by (rewrite Hpt; by rewrite list_lookup_insert_ne).
    rewrite Htk. do 2 f_equal. repeat case_decide; set_solver.
Qed.

Lemma ps_only_ticks s s' : ps_only s s' → k_ticks s' = k_ticks s.
Proof. by intros ->. Qed.

Lemma aged_insert_ne s s' i p j :
  ps_only s s' → k_ptable s' = <[i := p]> (k_ptable s) → j ≠ i → aged s' j = aged s j.
Proof.
  intros Hf Hpt Hne. unfold aged. rewrite Hpt, (ps_only_ticks _ _ Hf).
  by rewrite list_lookup_insert_ne.
Qed.

Definition age_body (k : Z) : Z * (bool * Z) → K (Z * (bool * Z) + bool * Z) :=
  λ '(j, st),
    let! n := q_index k in
    if (j <=? n)%Z then
      let! st' := mlfq_age_one k j st in
      ret (inl ((j + 1)%Z, st'))
    else ret (inr st).

Lemma age_loop_end fuel s qs k q j st :
  mlfq_inv none s qs → qs !! k = Some q → length q ≤ j →
  loop (S fuel) (age_body (Z.of_nat k)) (Z.of_nat j, st) s = Ok st s.
Proof.
  intros Hi Hq Hj. simpl. erewrite bind_Ok.
  2:{ simpl. erewrite bind_Ok by (eapply q_index_eq; [apply Hi|done]).
      destruct (Z.leb_spec (Z.of_nat j) (Z.of_nat (length q) - 1)); [lia|done]. }
  done.
Qed.

Lemma age_loop_step fuel s s' qs k q j st st' :
  mlfq_inv none s qs → qs !! k = Some q → j < length q →
  mlfq_age_one (Z.of_nat k) (Z.of_nat j) st s = Ok st' s' →
  loop (S fuel) (age_body (Z.of_nat k)) (Z.of_nat j, st) s =
  loop fuel (age_body (Z.of_nat k)) (Z.of_nat (S j), st') s'.
Proof.
  intros Hi Hq Hj Hone. cbn [loop].
  erewrite (bind_Ok _ _ _ (inl (Z.of_nat (S j), st')) s'); [done|]. simpl.
  erewrite bind_Ok by (eapply q_index_eq; [apply Hi|done]).
  destruct (Z.leb_spec (Z.of_nat j) (Z.of_nat (length q) - 1)); [|lia].
  erewrite bind_Ok by exact Hone. unfold ret. do 3 f_equal. lia.
Qed.

Lemma delete_middle' {A} (pre suf : list A) x :
  delete (length pre) (pre ++ x :: suf) = pre ++ suf.
Proof. by rewrite delete_middle. Qed.

(** The queues after scanning queue [k+1] from position [length pre] on. *)
Definition aged_queues (old : nat → bool) (k : nat) (pre suf lower : list nat)
    (qs : list (list nat)) : list (list nat) :=
  let '(kept, moved) := age_pass old suf in <[k := lower ++ moved]> (<[S k := pre ++ kept]> qs).

Lemma aged_queues_nil old k pre lower qs :
  qs !! S k = Some pre → qs !! k = Some lower → aged_queues old k pre [] lower qs = qs.
Proof.
  intros Hq Hlow. unfold aged_queues. simpl.
  by rewrite !app_nil_r, !list_insert_id by (rewrite ?list_lookup_insert_ne by lia; done).
Qed.

Lemma aged_queues_young old k pre i suf lower qs :
  old i = false →
  aged_queues old k pre (i :: suf) lower qs = aged_queues old k (pre ++ [i]) suf lower qs.
Proof.
  intros E. unfold aged_queues. cbn [age_pass]. rewrite E.
  destruct (age_pass old suf). by rewrite <-app_assoc.
Qed.

Lemma aged_queues_old old k pre i i' suf lower qs :
  old i = true →
  aged_queues old k pre (i :: i' :: suf) lower qs =
  aged_queues old k (pre ++ [i']) suf (lower ++ [i])
    (<[k := lower ++ [i]]> (<[S k := pre ++ i' :: suf]> qs)).
Proof.
  intros E. unfold aged_queues. cbn [age_pass]. rewrite E.
  destruct (age_pass old suf). rewrite <-!app_assoc.
  by rewrite (list_insert_insert_ne _ (S k) k), !list_insert_insert_eq by lia.
Qed.

Lemma aged_queues_ext f g k pre suf lower qs :
  age_pass f suf = age_pass g suf →
  aged_queues f k pre suf lower qs = aged_queues g k pre suf lower qs.
Proof. unfold aged_queues. by intros ->. Qed.

Lemma age_table_nil k s : age_table k [] s s.
Proof. intros j p Hp. by rewrite decide_False by set_solver. Qed.

Lemma age_loop_spec fuel s qs k pre suf lower st :
  mlfq_inv none s qs → qs !! S k = Some (pre ++ suf) → qs !! k = Some lower →
  length suf < fuel →
  ∃ s' st', loop fuel (age_body (Z.of_nat (S k))) (Z.of_nat (length pre), st) s = Ok st' s' ∧
    ps_only s s' ∧ age_table k (age_pass (aged s) suf).2 s s' ∧
    mlfq_inv none s' (aged_queues (aged s) k pre suf lower qs).
Proof.
  revert s qs pre suf lower st.
  induction fuel as [|fuel IH]; intros s qs pre suf lower st Hi Hq Hlow Hf; [lia|].
  destruct suf as [|i suf].
  { rewrite app_nil_r in Hq. exists s, st. rewrite aged_queues_nil by done.
    split_and!; [by eapply age_loop_end|reflexivity|apply age_table_nil|done]. }
  assert (Hj : (pre ++ i :: suf) !! length pre = Some i) by by apply list_lookup_middle.
  assert (Hlt : length pre < length (pre ++ i :: suf)) by by eapply lookup_lt_Some.
  assert (Hni : i ∉ suf).
  { pose proof (mi_nodup _ _ _ Hi _ _ Hq) as (_ & _ & Hnd)%NoDup_app.
    by apply NoDup_cons in Hnd as [? _]. }
  destruct (mi_sound _ _ _ Hi _ _ i Hq) as (p & Hp & _); [set_solver|].
  assert (Hl5 : length qs = 5) by apply (qr_qs _ _ (mi_rep _ _ _ Hi)).
  assert (HSk : S k < 5) by (rewrite <-Hl5; by eapply lookup_lt_Some).
  simpl in Hf. destruct (aged s i) eqn:Ha.
  2:{ erewrite age_loop_step by (done || by eapply mlfq_age_one_young).
      destruct (IH s qs (pre ++ [i]) suf lower st Hi) as (s2 & st2 & Hloop & Hps2 & Ht2 & Hi2);
        [by rewrite <-app_assoc|done|lia|].
      rewrite aged_queues_young by done. cbn [age_pass]. rewrite Ha.
      destruct (age_pass (aged s) suf) as [kept moved].
      exists s2, st2. rewrite length_app, Nat.add_1_r in Hloop. done. }
  destruct (mlfq_age_one_old s qs k _ lower (length pre) i p st Hi Hq Hlow Hj Hp Ha)
    as (s1 & Hone & Hps & Hpt & Hi1).
  rewrite delete_middle' in Hi1. erewrite age_loop_step by done.
  destruct suf as [|i' suf].
  { unfold aged_queues. cbn [age_pass]. rewrite Ha. destruct fuel as [|fuel]; [lia|].
    exists s1, (false, Z.of_nat (length pre)). split_and!; [|done| |done].
    - eapply (age_loop_end _ _ _ _ (pre ++ [])); [done| |rewrite app_nil_r; lia].
      rewrite list_lookup_insert_ne by lia. apply list_lookup_insert_eq. lia.
    - by eapply age_table_cons; [..|apply age_table_nil]. }
  destruct (IH s1 _ (pre ++ [i']) suf (lower ++ [i]) (false, Z.of_nat (length pre)) Hi1)
    as (s2 & st2 & Hloop & Hps2 & Ht2 & Hi2).
  { rewrite <-app_assoc, list_lookup_insert_ne by lia. apply list_lookup_insert_eq. lia. }
  { apply list_lookup_insert_eq. rewrite length_insert. lia. }
  { simpl in Hf. lia. }
  assert (Hext : age_pass (aged s1) suf = age_pass (aged s) suf).
  { apply age_pass_ext. intros j Hjs. eapply aged_insert_ne; [done..|set_solver]. }
  rewrite (aged_queues_ext _ _ _ _ _ _ _ Hext), <-aged_queues_old in Hi2 by done.
  rewrite Hext in Ht2. exists s2, st2. rewrite length_app, Nat.add_1_r in Hloop.
  split_and!; [done|by etrans| |done].
  cbn [age_pass]. rewrite Ha. destruct (age_pass (aged s) suf) as [kept moved] eqn:Eap.
  eapply age_table_cons; try done. simpl.
  apply age_pass_Permutation in Eap as [HP _]. intros Hm. apply Hni. right. rewrite <-HP. set_solver.
Qed.

(** Scanning queue [k+1]: [age_pass] of that queue, promotions to the tail of
    queue [k]. *)
Lemma mlfq_age_queue_spec s qs k q lower st :
  mlfq_inv none s qs → qs !! S k = Some q → qs !! k = Some lower →
  ∃ s' st', mlfq_age_queue (Z.of_nat (S k)) st s = Ok st' s' ∧
    ps_only s s' ∧ age_table k (age_pass (aged s) q).2 s s' ∧
    mlfq_inv none s' (aged_queues (aged s) k [] q lower qs).
Proof.
  intros Hi Hq Hlow. apply (age_loop_spec (S NPROC) s qs k [] q lower st Hi Hq Hlow).
  destruct (qr_row _ _ (mi_rep _ _ _ Hi) _ _ Hq) as (row & idx & _ & _ & Hrr).
  apply row_rep_length in Hrr. lia.
Qed.

(** Aging changes nothing of a process but its queue and its queue entry time. *)
Definition aging_only (s s' : kernel) : Prop :=
  ps_only s s' ∧
  ∀ i p, k_ptable s !! i = Some p →
    ∃ c t, k_ptable s' !! i = Some (set_p_qtime t (set_p_cur_q c p)).

Lemma aging_only_trans s1 s2 s3 : aging_only s1 s2 → aging_only s2 s3 → aging_only s1 s3.
Proof.
  intros [Hp1 H1] [Hp2 H2]. split; [by etrans|]. intros i p Hp.
  destruct (H1 i p Hp) as (c & t & Hp'). destruct (H2 _ _ Hp') as (c' & t' & Hp'').
  by exists c', t'.
Qed.

Lemma mlfq_age_queue_inv s qs k st :
  mlfq_inv none s qs → S k < 5 →
  ∃ s' st' qs', mlfq_age_queue (Z.of_nat (S k)) st s = Ok st' s' ∧
    aging_only s s' ∧ mlfq_inv none s' qs'.
Proof.
  intros Hi Hk. destruct (mlfq_inv_queue _ _ _ (S k) Hi Hk) as [q Hq].
  destruct (mlfq_inv_queue _ _ _ k Hi) as [lower Hlow]; [lia|].
  destruct (mlfq_age_queue_spec s qs k q lower st Hi Hq Hlow) as (s' & st' & E & Hps & Ht & Hi').
  eexists s', st', _. split_and!; [done| |done]. split; [done|].
  intros i p Hp. specialize (Ht i p Hp). case_decide; [by eexists _, _|].
  exists (p_cur_q p), (p_qtime p). rewrite Ht. by destruct p.
Qed.

Lemma mlfq_age_inv s qs :
  mlfq_inv none s qs →
  ∃ s' qs', mlfq_age s = Ok tt s' ∧ aging_only s s' ∧ mlfq_inv none s' qs'.
Proof.
  intros Hi. unfold mlfq_age.
  destruct (mlfq_age_queue_inv s qs 0 (false, 0%Z) Hi) as (s1 & st1 & qs1 & E1 & Ha1 & Hi1); [lia|].
  destruct (mlfq_age_queue_inv s1 qs1 1 st1 Hi1) as (s2 & st2 & qs2 & E2 & Ha2 & Hi2); [lia|].
  destruct (mlfq_age_queue_inv s2 qs2 2 st2 Hi2) as (s3 & st3 & qs3 & E3 & Ha3 & Hi3); [lia|].
  destruct (mlfq_age_queue_inv s3 qs3 3 st3 Hi3) as (s4 & st4 & qs4 & E4 & Ha4 & Hi4); [lia|].
  exists s4, qs4. do 4 (erewrite bind_Ok by eassumption).
  split_and!; [done| |done]. by eauto using aging_only_trans.
Qed.
