(* ===== verification/SchedThm.v ===== *)
(** * SchedThm: the policies of the four schedulers

    What each build of [scheduler] runs next.  The MLFQ claims speak of the five
    queues that the arrays represent ([mlfq_inv]); the FCFS and PBS claims speak of
    the process table. *)

From stdpp Require Import base numbers gmap strings option list.
From S2P Require Import Prelude Format Machine Boot Mlfq ProcCore Scheduler.
From S2P Require Import MlfqInv MlfqOps MlfqBoot MlfqSched.
Local Open Scope kernel_scope.

(** ** The selection loop of FCFS and PBS *)

(** The loop on the table itself. *)
Fixpoint select (pt : list proc) (replace : proc → proc → bool) (l : list nat)
    (best : option nat) : option nat :=
  match l with
  | [] => best
  | i :: l' =>
      match pt !! i with
      | Some p =>
          if decide (p_state p = RUNNABLE) then
            match best with
            | None => select pt replace l' (Some i)
            | Some f =>
                match pt !! f with
                | Some pf => select pt replace l' (if replace pf p then Some i else Some f)
                | None => None
                end
            end
          else select pt replace l' best
      | None => None
      end
  end.

Lemma select_proc_eq replace l best s :
  (∀ i, i ∈ l → i < length (k_ptable s)) → (∀ f, best = Some f → f < length (k_ptable s)) →
  select_proc replace l best s = Ok (select (k_ptable s) replace l best) s.
Proof.
  revert best. induction l as [|i l IH]; intros best Hl Hb; simpl; [done|].
  destruct (lookup_lt_is_Some_2 (k_ptable s) i) as [p Hp]; [apply Hl; by left|]. rewrite Hp.
  erewrite bind_Ok by by apply proc_at_eq.
  assert (Hl' : ∀ j, j ∈ l → j < length (k_ptable s)) by (intros; apply Hl; by right).
  destruct (decide (p_state p = RUNNABLE)) as [Hst|Hst].
  - rewrite bool_decide_eq_false_2 by tauto. destruct best as [f|].
    + destruct (lookup_lt_is_Some_2 (k_ptable s) f) as [pf Hpf]; [by apply Hb|].
      rewrite Hpf. erewrite bind_Ok by by apply proc_at_eq.
      apply IH; [done|]. intros f' Ef. destruct (replace pf p); simplify_eq; [|by apply Hb].
      by eapply lookup_lt_Some.
    + apply IH; [done|]. intros f' [= <-]. by eapply lookup_lt_Some.
  - rewrite bool_decide_eq_true_2 by done. by apply IH.
Qed.

(** The choice that a key defines: the first RUNNABLE slot of least key. *)
Definition is_choice (key : proc → Z) (pt : list proc) (dom : nat → Prop) (o : option nat) : Prop :=
  match o with
  | None => ∀ j q, dom j → pt !! j = Some q → p_state q ≠ RUNNABLE
  | Some i => ∃ p, pt !! i = Some p ∧ p_state p = RUNNABLE ∧ dom i ∧
      ∀ j q, dom j → pt !! j = Some q → p_state q = RUNNABLE →
        (key p ≤ key q)%Z ∧ (j < i → (key p < key q)%Z)
  end.

Lemma is_choice_ext key pt (d d' : nat → Prop) o :
  (∀ i, d i ↔ d' i) → is_choice key pt d o → is_choice key pt d' o.
Proof.
  intros E. destruct o as [i|]; simpl.
  - intros (p & ? & ? & ? & H). exists p. split_and!; [done|done|by apply E|].
    intros j q Hj. apply H. by apply E.
  - intros H j q Hj. apply H. by apply E.
Qed.

(** The loop, from slot [n] on, keeps the choice among the slots seen so far. *)
Lemma select_choice key replace pt m n best :
  (∀ a b, replace a b = (key b <? key a)%Z) → n + m ≤ length pt →
  is_choice key pt (λ j, j < n) best →
  is_choice key pt (λ j, j < n + m) (select pt replace (seq n m) best).
Proof.
  intros Hrep. revert n best. induction m as [|m IH]; intros n best Hlen Hb; simpl.
  { eapply is_choice_ext; [|exact Hb]. intros; simpl; lia. }
  destruct (lookup_lt_is_Some_2 pt n) as [p Hp]; [lia|]. rewrite Hp.
  assert (Hgo : ∀ b, is_choice key pt (λ j, j < S n) b →
    is_choice key pt (λ j, j < n + S m) (select pt replace (seq (S n) m) b)).
  { intros b Hb'. eapply is_choice_ext; [|apply IH; [lia|exact Hb']]. intros; simpl; lia. }
  destruct (decide (p_state p = RUNNABLE)) as [Hst|Hst].
  - destruct best as [f|].
    + destruct Hb as (pf & Hpf & Hstf & Hf & Hmin). rewrite Hpf. apply Hgo. rewrite Hrep.
      destruct (Z.ltb_spec (key p) (key pf)).
      * exists p. split_and!; [done|done|lia|]. intros j q Hj Hq Hrun.
        destruct (decide (j = n)) as [->|Hne]; [simplify_eq; split; lia|].
        destruct (Hmin j q) as [? _]; [lia|done|done|]. split; lia.
      * exists pf. split_and!; [done|done|lia|]. intros j q Hj Hq Hrun.
        destruct (decide (j = n)) as [->|Hne]; [simplify_eq; split; lia|].
        apply Hmin; [lia|done|done].
    + apply Hgo. exists p. split_and!; [done|done|lia|]. intros j q Hj Hq Hrun.
      destruct (decide (j = n)) as [->|Hne]; [simplify_eq; split; lia|].
      exfalso. eapply (Hb j q); [simpl; lia|done|done].
  - apply Hgo. destruct best as [f|].
    + destruct Hb as (pf & Hpf & Hstf & Hf & Hmin). exists pf. split_and!; [done|done|lia|].
      intros j q Hj Hq Hrun. destruct (decide (j = n)) as [->|Hne]; [congruence|].
      apply Hmin; [lia|done|done].
    + intros j q Hj Hq. destruct (decide (j = n)) as [->|Hne]; [congruence|].
      apply (Hb j q); [simpl; lia|done].
Qed.

Lemma select_proc_choice key replace s :
  (∀ a b, replace a b = (key b <? key a)%Z) → length (k_ptable s) = NPROC →
  ∃ o, select_proc replace slots None s = Ok o s ∧
    is_choice key (k_ptable s) (λ j, j < NPROC) o.
Proof.
  intros Hrep Hlen. eexists. split.
  - apply select_proc_eq; [|done]. intros i Hi%elem_of_seq. rewrite Hlen. lia.
  - apply (select_choice key replace (k_ptable s) NPROC 0 None); [done|lia|].
    intros j q Hj. lia.
Qed.

(** ** PBS: the decision for one slot *)

(** Is a RUNNABLE process of strictly smaller [priority] in the table? *)
Definition outranked (pt : list proc) (ph : proc) : Prop :=
  ∃ j q, pt !! j = Some q ∧ p_state q = RUNNABLE ∧ (p_priority q < p_priority ph)%Z.

Lemma pbs_higher_eq s hp ph :
  length (k_ptable s) = NPROC → k_ptable s !! hp = Some ph →
  ∃ b, pbs_higher hp s = Ok b s ∧ (b = true ↔ outranked (k_ptable s) ph).
Proof.
  intros Hlen Hph. unfold pbs_higher. set (body := λ j : nat, _).
  assert (Hb : ∀ j q, k_ptable s !! j = Some q → body j s = Ok
    (if decide (p_state q = RUNNABLE ∧ (p_priority q < p_priority ph)%Z)
     then Some tt else None) s).
  { intros j q Hq. unfold body. erewrite bind_Ok by by apply proc_at_eq.
    case_bool_decide as Hst; [by rewrite decide_False by tauto|].
    erewrite bind_Ok by by apply proc_at_eq. unfold ret. f_equal.
    destruct (Z.ltb_spec (p_priority q) (p_priority ph)).
    - by rewrite decide_True.
    - rewrite decide_False; [done|lia]. }
  destruct (list_find (λ q, p_state q = RUNNABLE ∧ (p_priority q < p_priority ph)%Z) (k_ptable s))
    as [[j q]|] eqn:Ef.
  - pose proof Ef as (Hq & Hlt & _)%list_find_Some. exists true.
    rewrite (bind_Ok _ _ s (Some tt) s); [split; [done|]; split; [|done]; intros _; exists j, q; naive_solver|].
    eapply (slots_find_Some (λ q, p_state q = RUNNABLE ∧ (p_priority q < p_priority ph)%Z));
      [done|exact Ef| |].
    + intros j' q' Hq' Hn. by rewrite (Hb j' q'), decide_False.
    + by rewrite (Hb j q), decide_True.
  - exists false. rewrite (bind_Ok _ _ s None s).
    + split; [done|]. split; [done|]. intros (j & q & Hq & Hst & Hlt).
      apply list_find_None in Ef. rewrite Forall_lookup in Ef. by destruct (Ef j q Hq).
    + eapply (slots_find_None (λ q, p_state q = RUNNABLE ∧ (p_priority q < p_priority ph)%Z));
        [done|exact Ef|].
      intros j' q' Hq' Hn. by rewrite (Hb j' q'), decide_False.
Qed.

(** ** MLFQ *)

Lemma first_queue_intro k0 qs k i q :
  qs !! k = Some (i :: q) → (∀ k', k' < k → qs !! k' = Some []) →
  first_queue k0 qs = Some (k0 + k, i, q).
Proof.
  revert k0 k. induction qs as [|q0 qs IH]; intros k0 k Hk Hlow; [done|].
  destruct k as [|k]; simpl in *.
  - injection Hk as ->. by rewrite Nat.add_0_r.
  - pose proof (Hlow 0 ltac:(lia)) as [= ->]. rewrite (IH (S k0) k); [f_equal; f_equal; f_equal; lia|done|].
    intros k' Hk'. apply (Hlow (S k')). lia.
Qed.

Lemma first_queue_empty k0 qs : (∀ q, q ∈ qs → q = []) → first_queue k0 qs = None.
Proof.
  revert k0. induction qs as [|q qs IH]; intros k0 Hq; [done|].
  rewrite (Hq q) by (by left). simpl. apply IH. intros q' ?. apply Hq. by right.
Qed.

Lemma ps_only_proc s s' : ps_only s s' → k_cpu s' = k_cpu s.
Proof. by intros ->. Qed.

(** The first aged process of a queue is promoted by the scan. *)
Lemma age_pass_first old pre i suf :
  old i = true → (∀ j, j ∈ pre → old j = false) → i ∈ (age_pass old (pre ++ i :: suf)).2.
Proof.
  intros Hi. induction pre as [|j pre IH]; intros Hpre; simpl.
  - rewrite Hi. destruct suf as [|i' suf]; [by left|].
    destruct (age_pass old suf). by left.
  - rewrite (Hpre j) by (by left). destruct (age_pass old (pre ++ i :: suf)) eqn:E. simpl in *.
    apply IH. intros j' ?. apply Hpre. by right.
Qed.

Section claims.
Implicit Types (s : kernel) (qs : list (list nat)).

(** C6.  MLFQ: the scheduler dispatches the head of the first non-empty queue.  It
    leaves the queue, is charged one unit in its queue, counts one more run and is
    RUNNING on this processor; nothing else in the table changes. *)
Theorem mlfq_runs_head s qs k i q :
  mlfq_inv none s qs → cpu_ok s → k_held s ≠ [] →
  qs !! k = Some (i :: q) → (∀ k', k' < k → qs !! k' = Some []) →
  ∃ p s', k_ptable s !! i = Some p ∧ p_state p = RUNNABLE ∧
    mlfq_pick s = Ok (Some i) s' ∧ k_ptable s' = <[i := taken k p]> (k_ptable s) ∧
    c_proc (k_cpu s') = Some i ∧ mlfq_inv none s' (<[k := q]> qs).
Proof.
  intros Hi Hok Hh Hk Hlow. pose proof (mlfq_pick_inv s qs Hi Hok Hh) as Hp.
  rewrite (first_queue_intro 0 qs k i q Hk Hlow) in Hp. simpl in Hp.
  destruct Hp as (p & s' & Hp & E & Hst & _ & Hps & Hpt & Hi').
  exists p, s'. split_and!; try done. by rewrite (ps_only_proc _ _ Hps).
Qed.

(** MLFQ: when all five queues are empty the pass changes nothing. *)
Theorem mlfq_idle s qs :
  mlfq_inv none s qs → cpu_ok s → k_held s ≠ [] → (∀ q, q ∈ qs → q = []) →
  mlfq_pick s = Ok None s.
Proof.
  intros Hi Hok Hh Hq. pose proof (mlfq_pick_inv s qs Hi Hok Hh) as Hp.
  by rewrite first_queue_empty in Hp.
Qed.

(** C7.  MLFQ aging: the scan of queue k+1 with its in-place removals is [age_pass]:
    it moves processes that have waited more than 25 ticks to the tail of queue k
    with a new entry time, keeps the order of the others, and passes over the
    process right behind each one it moves. *)
Theorem mlfq_aging s qs k q lower st :
  mlfq_inv none s qs → qs !! S k = Some q → qs !! k = Some lower →
  ∃ s' st' kept moved, mlfq_age_queue (Z.of_nat (S k)) st s = Ok st' s' ∧
    age_pass (aged s) q = (kept, moved) ∧
    mlfq_inv none s' (<[k := lower ++ moved]> (<[S k := kept]> qs)) ∧
    ∀ i p, k_ptable s !! i = Some p →
      k_ptable s' !! i = Some (if decide (i ∈ moved) then promoted k (k_ticks s) p else p).
Proof.
  intros Hi Hq Hlow.
  destruct (mlfq_age_queue_spec s qs k q lower st Hi Hq Hlow) as (s' & st' & E & _ & Ht & Hi').
  unfold aged_queues in Hi'. destruct (age_pass (aged s) q) as [kept moved] eqn:Ep.
  by exists s', st', kept, moved.
Qed.

(** C8.  MLFQ aging makes progress: the first process of queue k+1 that has waited
    more than 25 ticks is in queue k after the scan. *)
Theorem mlfq_aged_promoted s qs k pre i suf lower st p :
  mlfq_inv none s qs → qs !! S k = Some (pre ++ i :: suf) → qs !! k = Some lower →
  k_ptable s !! i = Some p → aged s i = true → (∀ j, j ∈ pre → aged s j = false) →
  ∃ s' st' qs' q', mlfq_age_queue (Z.of_nat (S k)) st s = Ok st' s' ∧
    mlfq_inv none s' qs' ∧ qs' !! k = Some q' ∧ i ∈ q' ∧
    k_ptable s' !! i = Some (promoted k (k_ticks s) p).
Proof.
  intros Hi Hq Hlow Hp Hage Hpre.
  destruct (mlfq_age_queue_spec s qs k _ lower st Hi Hq Hlow) as (s' & st' & E & _ & Ht & Hi').
  pose proof (age_pass_first (aged s) pre i suf Hage Hpre) as Hin.
  unfold aged_queues in Hi'. specialize (Ht i p Hp).
  destruct (age_pass (aged s) (pre ++ i :: suf)) as [kept moved] eqn:Ep. simpl in *.
  rewrite decide_True in Ht by done. eexists s', st', _, (lower ++ moved). split_and!; [done|exact Hi'| | |done].
  - apply list_lookup_insert_eq. rewrite length_insert. by eapply lookup_lt_Some.
  - apply elem_of_app. by right.
Qed.

(** C9.  MLFQ: a process that gives the processor up while still RUNNABLE drops one
    queue (down to queue 4) iff it has used up its queue's ticks or is flagged, and
    goes to the tail of its queue; a process in another state is not queued. *)
Theorem mlfq_demotion s qs i p :
  mlfq_inv (λ j, none j ∨ j = i) s qs → unqueued qs i → k_ptable s !! i = Some p →
  ∃ s' t, mlfq_requeue i s = Ok tt s' ∧ c_proc (k_cpu s') = None ∧
    (p_state p = RUNNABLE →
       k_ptable s' = <[i := set_p_qtime t (demoted p)]> (k_ptable s) ∧
       mlfq_inv none s' (enqueued qs (Z.to_nat (p_cur_q (demoted p))) i)) ∧
    (p_state p ≠ RUNNABLE → k_ptable s' = k_ptable s ∧ mlfq_inv none s' qs).
Proof.
  intros Hi Hun Hp. destruct (mlfq_requeue_inv s qs i p Hi Hun Hp) as (s' & t & E & Hps & Hpt & Hi').
  exists s', t. split_and!; [done|by rewrite (ps_only_proc _ _ Hps)| |].
  - intros Hst. by rewrite !(decide_True _ _ Hst) in *.
  - intros Hst. rewrite !(decide_False _ _ Hst) in *. split; [|done].
    by rewrite Hpt, list_insert_id.
Qed.

(** C38.  FCFS: the build runs, among the RUNNABLE processes, the one that was
    created last (the first such slot), not the one created first. *)
Theorem fcfs_runs_latest s :
  length (k_ptable s) = NPROC →
  ∃ o, fcfs_select s = Ok o s ∧
    match o with
    | Some i => ∃ p, k_ptable s !! i = Some p ∧ p_state p = RUNNABLE ∧
        ∀ j q, k_ptable s !! j = Some q → p_state q = RUNNABLE →
          (p_ctime q ≤ p_ctime p)%Z ∧ (j < i → (p_ctime q < p_ctime p)%Z)
    | None => ∀ j q, k_ptable s !! j = Some q → p_state q ≠ RUNNABLE
    end.
Proof.
  intros Hlen. destruct (select_proc_choice (λ p, (- p_ctime p)%Z) fcfs_replace s) as (o & E & Ho);
    [|done|].
  { intros a b. unfold fcfs_replace. apply eq_true_iff_eq. rewrite !Z.ltb_lt. lia. }
  exists o. split; [exact E|]. destruct o as [i|]; simpl in Ho.
  - destruct Ho as (p & Hp & Hst & _ & Hmin). exists p. split_and!; [done|done|].
    intros j q Hq Hrun. destruct (Hmin j q) as [H1 H2]; [|done|done|split; [lia|intros; specialize (H2 ltac:(done)); lia]].
    rewrite <-Hlen. by eapply lookup_lt_Some.
  - intros j q Hq. apply (Ho j q); [|done]. rewrite <-Hlen. by eapply lookup_lt_Some.
Qed.

(** PBS: the build looks for the RUNNABLE process of the smallest [priority]
    value, the first such slot on a tie. *)
Theorem pbs_selects_smallest s :
  length (k_ptable s) = NPROC →
  ∃ o, pbs_select s = Ok o s ∧
    match o with
    | Some i => ∃ p, k_ptable s !! i = Some p ∧ p_state p = RUNNABLE ∧
        ∀ j q, k_ptable s !! j = Some q → p_state q = RUNNABLE →
          (p_priority p ≤ p_priority q)%Z ∧ (j < i → (p_priority p < p_priority q)%Z)
    | None => ∀ j q, k_ptable s !! j = Some q → p_state q ≠ RUNNABLE
    end.
Proof.
  intros Hlen. destruct (select_proc_choice p_priority pbs_replace s) as (o & E & Ho); [done|done|].
  exists o. split; [exact E|]. destruct o as [i|]; simpl in Ho.
  - destruct Ho as (p & Hp & Hst & _ & Hmin). exists p. split_and!; [done|done|].
    intros j q Hq Hrun. apply Hmin; [|done|done]. rewrite <-Hlen. by eapply lookup_lt_Some.
  - intros j q Hq. apply (Ho j q); [|done]. rewrite <-Hlen. by eapply lookup_lt_Some.
Qed.

(** PBS: in its round over the table the build runs slot i exactly when i is
    RUNNABLE, has the chosen priority, and no RUNNABLE process has a smaller value;
    it stops the round as soon as one has. *)
Theorem pbs_round s hp ph i p :
  length (k_ptable s) = NPROC → k_ptable s !! hp = Some ph → k_ptable s !! i = Some p →
  ∃ d, pbs_decide hp i s = Ok d s ∧
    (d = PbsBreak ↔ outranked (k_ptable s) ph) ∧
    (d = PbsRun ↔ ¬ outranked (k_ptable s) ph ∧ p_state p = RUNNABLE ∧
                  p_priority p = p_priority ph).
Proof.
  intros Hlen Hph Hp. destruct (pbs_higher_eq s hp ph Hlen Hph) as (b & E & Hb).
  unfold pbs_decide. erewrite bind_Ok by exact E. destruct b.
  { exists PbsBreak. naive_solver. }
  assert (Hn : ¬ outranked (k_ptable s) ph) by naive_solver.
  erewrite bind_Ok by by apply proc_at_eq. case_bool_decide as Hst.
  { exists PbsContinue. naive_solver. }
  erewrite bind_Ok by by apply proc_at_eq. eexists. split; [done|].
  destruct (Z.eqb_spec (p_priority p) (p_priority ph)); naive_solver.
Qed.
End claims.

Lemma mlfq_runs_head_witness :
  ∃ p s', k_ptable busy_locked !! 0 = Some p ∧ p_state p = RUNNABLE ∧
    mlfq_pick busy_locked = Ok (Some 0) s' ∧
    k_ptable s' = <[0 := taken 0 p]> (k_ptable busy_locked) ∧
    c_proc (k_cpu s') = Some 0 ∧ mlfq_inv none s' [[]; []; [1; 3]; []; []].
Proof.
  apply (mlfq_runs_head busy_locked busy_queues 0 0 [] busy_locked_inv busy_locked_cpu).
  - discriminate.
  - reflexivity.
  - intros k' Hk'. lia.
Defined.

(** All slots asleep. *)
Definition asleep : kernel :=
  sample_locked 5 [sample_proc SLEEPING 1 0 0] [[]; []; []; []; []].

Lemma mlfq_idle_witness : mlfq_pick asleep = Ok None asleep.
Proof.
  apply (mlfq_idle asleep [[]; []; []; []; []]).
  - apply mlfq_check_sound. vm_compute. reflexivity.
  - apply cpu_ok_locked; [split; [done|done|constructor]|apply not_elem_of_nil].
  - discriminate.
  - intros q. rewrite !elem_of_cons. intros [?|[?|[?|[?|[?|?%not_elem_of_nil]]]]]; done.
Defined.

Lemma mlfq_aging_witness :
  ∃ s' st' kept moved, mlfq_age_queue 2 (false, 0%Z) busy_locked = Ok st' s' ∧
    age_pass (aged busy_locked) [1; 3] = (kept, moved) ∧
    mlfq_inv none s' (<[1 := [] ++ moved]> (<[2 := kept]> busy_queues)) ∧
    ∀ i p, k_ptable busy_locked !! i = Some p →
      k_ptable s' !! i = Some (if decide (i ∈ moved) then promoted 1 100 p else p).
Proof.
  apply (mlfq_aging busy_locked busy_queues 1 [1; 3] [] (false, 0%Z) busy_locked_inv).
  - reflexivity.
  - reflexivity.
Defined.

Lemma mlfq_aged_promoted_witness :
  ∃ s' st' qs' q', mlfq_age_queue 2 (false, 0%Z) busy_locked = Ok st' s' ∧
    mlfq_inv none s' qs' ∧ qs' !! 1 = Some q' ∧ 1 ∈ q' ∧
    k_ptable s' !! 1 = Some (promoted 1 100 (sample_proc RUNNABLE 2 2 10)).
Proof.
  apply (mlfq_aged_promoted busy_locked busy_queues 1 [] 1 [3] [] (false, 0%Z)
    (sample_proc RUNNABLE 2 2 10) busy_locked_inv).
  - reflexivity.
  - reflexivity.
  - reflexivity.
  - vm_compute. reflexivity.
  - intros j Hj. by apply not_elem_of_nil in Hj.
Defined.

(** Slot 0 has run for the two ticks queue 0 allows and yields. *)
Definition spent : proc := set_p_q [2; 0; 0; 0; 0]%Z (sample_proc RUNNABLE 1 0 90).
Definition yielding : kernel :=
  set_k_ptable (<[0 := spent]> (k_ptable asleep)) asleep.

Lemma yielding_inv : mlfq_inv (λ j, none j ∨ j = 0) yielding [[]; []; []; []; []].
Proof.
  apply (mlfq_inv_keep_pid none asleep _ 0 (sample_proc SLEEPING 1 0 0)).
  - apply mlfq_check_sound. by vm_compute.
  - done.
  - intros k q Hq. do 5 (destruct k as [|k]; [simpl in Hq; injection Hq as <-; apply not_elem_of_nil|]). done.
  - apply proc_check_sound. by vm_compute.
  - done.
Qed.

Lemma mlfq_demotion_witness :
  ∃ s' t, mlfq_requeue 0 yielding = Ok tt s' ∧ c_proc (k_cpu s') = None ∧
    (p_state spent = RUNNABLE →
       k_ptable s' = <[0 := set_p_qtime t (demoted spent)]> (k_ptable yielding) ∧
       mlfq_inv none s' (enqueued [[]; []; []; []; []] 1 0)) ∧
    (p_state spent ≠ RUNNABLE → k_ptable s' = k_ptable yielding ∧
       mlfq_inv none s' [[]; []; []; []; []]).
Proof.
  apply (mlfq_demotion yielding [[]; []; []; []; []] 0 spent yielding_inv).
  - intros k q Hq. do 5 (destruct k as [|k]; [simpl in Hq; injection Hq as <-; apply not_elem_of_nil|]). done.
  - reflexivity.
Defined.

(** Two processes created at ticks 3 and 7, with priorities 60 and 40. *)
Definition two : kernel :=
  sample_locked 9 [set_p_ctime 3%Z (sample_proc RUNNABLE 1 0 0);
                   set_p_ctime 7%Z (set_p_priority 40%Z (sample_proc RUNNABLE 2 0 0))]
    [[0; 1]; []; []; []; []].

Lemma fcfs_runs_latest_witness :
  fcfs_select two = Ok (Some 1) two ∧ ∃ o, fcfs_select two = Ok o two.
Proof.
  split; [vm_compute; reflexivity|].
  destruct (fcfs_runs_latest two) as (o & E & _); [reflexivity|]. exists o. exact E.
Defined.

Lemma pbs_selects_smallest_witness :
  pbs_select two = Ok (Some 1) two ∧ ∃ o, pbs_select two = Ok o two.
Proof.
  split; [vm_compute; reflexivity|].
  destruct (pbs_selects_smallest two) as (o & E & _); [reflexivity|]. exists o. exact E.
Defined.

Lemma pbs_round_witness :
  pbs_decide 1 0 two = Ok PbsContinue two ∧ ∃ d, pbs_decide 1 0 two = Ok d two.
Proof.
  split; [vm_compute; reflexivity|].
  destruct (pbs_round two 1 (set_p_ctime 7%Z (set_p_priority 40%Z (sample_proc RUNNABLE 2 0 0))) 0
    (set_p_ctime 3%Z (sample_proc RUNNABLE 1 0 0))) as (d & E & _); [reflexivity..|]. exists d. exact E.
Defined.
