(* ===== verification/BioThm.v ===== *)
(** * BioThm: the buffer cache against its specification (bio.c, sleeplock.c, memide.c)

    The cache is a map from block numbers to contents, [val], over the disk: a
    buffer that nobody holds has the contents [val] gives its block, and a block
    that is not dirty has them on disk too.  Each operation of bio.c is a step of
    that specification; the pointer manipulation of the LRU list keeps a list of
    the buffers. *)

From stdpp Require Import base numbers gmap strings option list.
From S2P Require Import Prelude Format Machine Boot Mem Mlfq ProcCore Sleeplock Ide Bio.
From S2P Require Import MlfqInv MlfqOps.
Local Open Scope kernel_scope.
Local Open Scope Z_scope.

(** ** Critical sections that leave no trace *)

(** [intena] is what [pushcli] would save: a [pushcli]/[popcli] pair changes nothing. *)
Record calm (s : kernel) : Prop := {
  calm_ok : cpu_ok s;
  calm_touched : touched s = s;
}.

Lemma touched_calm s : cpu_ok s → calm (touched s).
Proof.
  intros Hok. split; [by apply cpu_ok_touched|].
  destruct (decide (k_held s = [])) as [E|E]; [|by rewrite !(touched_held s)].
  destruct Hok as [Hn _ _]. rewrite E in Hn. simpl in Hn.
  assert (Ec : cpu_pop (cpu_push (cpu_pop (cpu_push (k_cpu s)))) = cpu_pop (cpu_push (k_cpu s))).
  { apply cpu_ext; simpl; try done; rewrite ?Hn; done. }
  unfold touched at 1. simpl. rewrite Ec. by destruct s.
Qed.

Lemma calm_locked l s : cpu_ok s → l ∉ k_held s → calm (locked l s).
Proof. intros Hok Hl. split; [by apply cpu_ok_locked|]. apply touched_held; [by apply cpu_ok_locked|done]. Qed.

Lemma calm_same s s' : calm s → k_cpu s' = k_cpu s → k_held s' = k_held s → calm s'.
Proof.
  intros [Hok Ht] Ec Eh. split; [by eapply cpu_ok_same|].
  assert (E : cpu_pop (cpu_push (k_cpu s)) = k_cpu s) by (by apply (f_equal k_cpu) in Ht).
  unfold touched. rewrite Ec, E, <-Ec. apply set_k_cpu_id.
Qed.

(** The end of a critical section that [acquire l] opened in [s]. *)
Lemma release_calm l s s' :
  calm s → l ∉ k_held s → k_cpu s' = k_cpu (locked l s) → k_held s' = l :: k_held s →
  release l s' = Ok tt (set_k_held (k_held s) (set_k_cpu (k_cpu s) s')).
Proof.
  intros [Hok Ht] Hl Ec Eh. erewrite release_top; [|by eapply cpu_ok_same; [by apply cpu_ok_locked|..]|done].
  assert (E : cpu_pop (cpu_push (k_cpu s)) = k_cpu s) by (by apply (f_equal k_cpu) in Ht).
  rewrite Ec. simpl. by rewrite E.
Qed.

Lemma acquire_calm l s : calm s → l ∉ k_held s → acquire l s = Ok tt (locked l s).
Proof. intros [Hok _]. by apply acquire_eq. Qed.

Lemma myproc_calm s : calm s → myproc s = Ok (c_proc (k_cpu s)) s.
Proof. intros [Hok Ht]. rewrite myproc_eq by done. by rewrite Ht. Qed.

#[export] Hint Resolve calm_locked calm_ok : kernel.

Section bio.
Context `{Env}.

(** ** Sleep locks *)

(** Process [pid] runs, with no spin lock held, and nobody waits for a buffer or for
    the log. *)
Record alone (pid : Z) (s : kernel) : Prop := {
  qu_calm : calm s;
  qu_held : k_held s = [];
  qu_proc : ∃ i p, c_proc (k_cpu s) = Some i ∧ k_ptable s !! i = Some p ∧ p_pid p = pid;
  qu_len : length (k_ptable s) = NPROC;
  qu_sleep i p b : k_ptable s !! i = Some p → p_state p = SLEEPING →
    p_chan p ≠ Some (CH_sleep (SL_buf b));
  qu_log i p : k_ptable s !! i = Some p → p_state p = SLEEPING → p_chan p ≠ Some CH_log;
}.

Lemma alone_same pid s s' :
  alone pid s → k_cpu s' = k_cpu s → k_held s' = k_held s → k_ptable s' = k_ptable s → alone pid s'.
Proof.
  intros [Hc Hh Hp Hl Hs Hg] E1 E2 E3. split; rewrite ?E1, ?E2, ?E3; try done. by eapply calm_same.
Qed.

(** [wakeup] with nobody waiting. *)
Lemma wakeup_nobody ch s :
  calm s → LK_ptable ∉ k_held s → length (k_ptable s) = NPROC →
  (∀ i p, k_ptable s !! i = Some p → p_state p = SLEEPING → p_chan p ≠ Some ch) →
  wakeup ch s = Ok tt s.
Proof.
  intros Hc Hl Hn Hno. unfold wakeup. run (by apply acquire_calm).
  erewrite bind_Ok.
  2:{ unfold wakeup1. apply (for_each_states slots _ (λ _, locked LK_ptable s)).
      intros i x Hx. apply lookup_seq in Hx as [-> Hi]. unfold wakeup_slot.
      destruct (lookup_lt_is_Some_2 (k_ptable s) (0 + i)%nat) as [p Hp]; [lia|].
      run (by apply proc_at_eq). rewrite bool_decide_eq_false_2; [done|].
      intros [Hs Hch]. by eapply Hno. }
  cbv beta. rewrite (release_calm _ s) by done. by destruct s.
Qed.

Lemma mypid_calm s i p : calm s → c_proc (k_cpu s) = Some i → k_ptable s !! i = Some p →
  mypid s = Ok (p_pid p) s.
Proof.
  intros Hc Hi Hp. unfold mypid. run (by apply myproc_calm). rewrite Hi. run done.
  by run (by apply proc_at_eq).
Qed.

(** The cache with buffer [b] changed by [f]. *)
Definition bset (b : nat) (f : buf → buf) (s : kernel) : kernel :=
  set_k_bcache (alter f b (k_bcache s)) s.
Definition lock_buf (pid : Z) : buf → buf := set_b_lock (mk_sleeplock true pid).
Definition unlock_buf : buf → buf := set_b_lock (mk_sleeplock false 0).

Lemma alter_insert_eq {A} (f : A → A) (l : list A) i x : l !! i = Some x → alter f i l = <[i := f x]> l.
Proof. revert i. induction l as [|y l IH]; intros [|i] Hx; simplify_eq/=; [done|]. f_equal. by apply IH. Qed.

Lemma upd_buf_eq s b r f : k_bcache s !! b = Some r → upd_buf b f s = Ok tt (bset b f s).
Proof. intros Hb. unfold upd_buf, bset. rewrite Hb. by erewrite alter_insert_eq. Qed.
Lemma buf_at_eq s b r : k_bcache s !! b = Some r → buf_at b s = Ok r s.
Proof. unfold buf_at. by intros ->. Qed.

Lemma upd_sl_eq s b r f :
  k_bcache s !! b = Some r → upd_sl (SL_buf b) f s = Ok tt (bset b (λ r, set_b_lock (f (b_lock r)) r) s).
Proof. intros Hb. unfold upd_sl, bset. rewrite Hb. by erewrite alter_insert_eq. Qed.

Lemma lookup_bset s b f r : k_bcache s !! b = Some r → k_bcache (bset b f s) !! b = Some (f r).
Proof. intros Hb. unfold bset. simpl. by rewrite list_lookup_alter_eq, Hb. Qed.

Lemma alter_alter {A} (f g : A → A) (l : list A) i : alter f i (alter g i l) = alter (λ x, f (g x)) i l.
Proof. revert i. induction l as [|y l IH]; intros [|i]; simpl; [done..|]. f_equal. apply IH. Qed.
Lemma bset_bset s b f g : bset b f (bset b g s) = bset b (λ r, f (g r)) s.
Proof. unfold bset. simpl. by rewrite alter_alter. Qed.

Lemma bset_locked b f l s : bset b f (locked l s) = locked l (bset b f s).
Proof. done. Qed.

(** An update of the cache inside a critical section. *)
Lemma release_bset pid l s b f :
  alone pid s → release l (bset b f (locked l s)) = Ok tt (bset b f s).
Proof.
  intros [Hc Hh _ _ _]. rewrite (release_calm _ s) by (done || by rewrite Hh; apply not_elem_of_nil).
  by destruct s.
Qed.
Lemma acquire_alone pid l s : alone pid s → acquire l s = Ok tt (locked l s).
Proof. intros [Hc Hh _ _ _]. apply acquire_calm; [done|]. rewrite Hh. apply not_elem_of_nil. Qed.
Lemma locked_calm pid l s : alone pid s → calm (locked l s).
Proof. intros [Hc Hh _ _ _]. apply calm_locked; [apply Hc|]. rewrite Hh. apply not_elem_of_nil. Qed.

Lemma acquiresleep_eq pid s b r :
  (0 < FUEL)%nat → alone pid s → k_bcache s !! b = Some r → sl_locked (b_lock r) = false →
  acquiresleep (SL_buf b) s = Ok tt (bset b (lock_buf pid) s).
Proof.
  intros Hf Hq Hb Hl. pose proof (locked_calm pid (LK_sleep (SL_buf b)) s Hq) as Hc.
  pose proof (qu_proc _ _ Hq) as (i & p & Hi & Hp & <-).
  unfold acquiresleep. run (by eapply acquire_alone). destruct FUEL as [|n]; [lia|].
  run (apply loop_Ok; unfold bind, get_sl; simpl; rewrite Hb, Hl; done).
  run (by apply upd_sl_eq with (r := r)).
  run (by apply (mypid_calm _ i p); [eapply calm_same; [exact Hc|..]|..]).
  run (eapply upd_sl_eq; by apply lookup_bset).
  rewrite bset_bset. erewrite release_bset by done. done.
Qed.

Lemma holdingsleep_eq pid s b r :
  alone pid s → k_bcache s !! b = Some r → b_lock r = mk_sleeplock true pid →
  holdingsleep (SL_buf b) s = Ok true s.
Proof.
  intros Hq Hb Hl. pose proof (locked_calm pid (LK_sleep (SL_buf b)) s Hq) as Hc.
  pose proof (qu_proc _ _ Hq) as (i & p & Hi & Hp & <-).
  unfold holdingsleep. run (by eapply acquire_alone).
  run (unfold get_sl; simpl; by rewrite Hb). rewrite Hl. cbn [sl_locked sl_pid].
  run (run (by apply (mypid_calm _ i p)); done). rewrite Z.eqb_refl.
  run (apply (release_calm _ s); [apply Hq| |done..]; rewrite (qu_held _ _ Hq); apply not_elem_of_nil).
  by destruct s.
Qed.

Lemma releasesleep_eq pid s b r :
  alone pid s → k_bcache s !! b = Some r →
  releasesleep (SL_buf b) s = Ok tt (bset b unlock_buf s).
Proof.
  intros Hq Hb. pose proof (locked_calm pid (LK_sleep (SL_buf b)) s Hq) as Hc.
  assert (Hw : ∀ f, wakeup (CH_sleep (SL_buf b)) (bset b f (locked (LK_sleep (SL_buf b)) s)) =
                Ok tt (bset b f (locked (LK_sleep (SL_buf b)) s))).
  { intros f. apply wakeup_nobody; [by eapply calm_same; [exact Hc|..]| |apply Hq|].
    - simpl. rewrite (qu_held _ _ Hq). by intros ?%list_elem_of_singleton.
    - intros i p. apply (qu_sleep _ _ Hq). }
  unfold releasesleep. run (by eapply acquire_alone).
  run (by apply upd_sl_eq with (r := r)).
  run (eapply upd_sl_eq; by apply lookup_bset).
  rewrite bset_bset. run (apply Hw). by erewrite release_bset by done.
Qed.
End bio.

(** ** Linked lists as functions *)

Definition fupd `{EqDecision X} {A} (x : X) (v : A) (f : X → A) : X → A :=
  λ y, if decide (y = x) then v else f y.
Lemma fupd_eq `{EqDecision X} {A} (x : X) (v : A) f : fupd x v f x = v.
Proof. unfold fupd. by rewrite decide_True. Qed.
Lemma fupd_ne `{EqDecision X} {A} (x y : X) (v : A) f : y ≠ x → fupd x v f y = f y.
Proof. intros. unfold fupd. by rewrite decide_False. Qed.

(** From [x] the links [f] lead through [L] to [y]. *)
Fixpoint chain (f : nat → nat) (x : nat) (L : list nat) (y : nat) : Prop :=
  match L with
  | [] => f x = y
  | z :: L' => f x = z ∧ chain f z L' y
  end.

Lemma chain_app f x A z B y : chain f x (A ++ z :: B) y ↔ chain f x A z ∧ chain f z B y.
Proof. revert x. induction A as [|a A IH]; intros x; simpl; [done|]. rewrite IH. tauto. Qed.

Lemma chain_ext f g x L y : (∀ z, z ∈ x :: L → f z = g z) → chain f x L y → chain g x L y.
Proof.
  revert x. induction L as [|a L IH]; intros x Hfg; simpl.
  - intros <-. symmetry. apply Hfg. by left.
  - intros [Ha Hc]. split; [rewrite <-(Hfg x); [done|by left]|]. apply IH; [|done].
    intros z Hz. apply Hfg. by right.
Qed.
Lemma chain_fupd f x L y z v : z ∉ x :: L → chain f x L y → chain (fupd z v f) x L y.
Proof. intros Hz. apply chain_ext. intros w Hw. symmetry. apply fupd_ne. by intros ->. Qed.

(** Another start with the same successor; another end. *)
Lemma chain_start f x x' L y : f x' = f x → chain f x L y → chain f x' L y.
Proof. destruct L; simpl; [by intros ->|]. by intros ->. Qed.
Lemma chain_last f x L y : chain f x L y → f (default x (last L)) = y.
Proof.
  revert x. induction L as [|a L IH]; intros x; simpl; [done|]. intros [_ Hc].
  rewrite last_cons. specialize (IH _ Hc). by destruct (last L).
Qed.
Lemma chain_end f x L y z :
  NoDup (x :: L) → chain f x L y → chain (fupd (default x (last L)) z f) x L z.
Proof.
  revert x. induction L as [|a L IH]; intros x Hnd; simpl; [intros _; apply fupd_eq|].
  apply NoDup_cons in Hnd as [Hx Hnd]. intros [Ha Hc]. rewrite last_cons.
  replace (from_option _ _ _) with (default a (last L)) by by destruct (last L).
  split; [|by apply IH]. rewrite fupd_ne; [done|]. intros ->. apply Hx.
  destruct (last L) as [w|] eqn:E; simpl; [right; by apply last_Some_elem_of|by left].
Qed.

(** Unlinking [b]: its predecessor takes over its successor. *)
Lemma chain_unlink f x A b B y :
  NoDup (x :: A ++ b :: B) → chain f x (A ++ b :: B) y →
  chain (fupd (default x (last A)) (f b) f) x (A ++ B) y.
Proof.
  intros Hnd [HA HB]%chain_app.
  assert (HndA : NoDup (x :: A)).
  { rewrite app_comm_cons in Hnd. by apply NoDup_app in Hnd as [? _]. }
  assert (Hp : default x (last A) ∈ x :: A).
  { destruct (last A) as [w|] eqn:E; simpl; [right; by apply last_Some_elem_of|by left]. }
  assert (Hdis : default x (last A) ∉ b :: B).
  { rewrite app_comm_cons in Hnd. apply NoDup_app in Hnd as (_ & Hd & _). by apply Hd. }
  destruct B as [|c B]; simpl in HB.
  - rewrite app_nil_r, HB. by eapply chain_end.
  - destruct HB as [-> HB]. apply chain_app. split; [by eapply chain_end|].
    apply chain_fupd; [|done]. intros Hin. apply Hdis. by right.
Qed.

(** ** The LRU list *)

Definition nx (bc : list buf) (b : nat) : nat := default 0%nat (b_next <$> bc !! b).
Definition pv (bc : list buf) (b : nat) : nat := default 0%nat (b_prev <$> bc !! b).

(** [L] is the list from [bcache.head.next]; [prev] goes through it backwards. *)
Record lru (bc : list buf) (L : list nat) : Prop := {
  lru_len : length bc = S NBUF;
  lru_perm : L ≡ₚ seq 0 NBUF;
  lru_next : chain (nx bc) bhead L bhead;
  lru_prev : chain (pv bc) bhead (reverse L) bhead;
}.

Lemma lru_elem bc L b : lru bc L → b ∈ L ↔ (b < NBUF)%nat.
Proof. intros Hl. rewrite (lru_perm _ _ Hl), elem_of_seq. lia. Qed.
Lemma lru_NoDup bc L : lru bc L → NoDup (bhead :: L).
Proof.
  intros Hl. constructor; [rewrite (lru_elem bc) by done; unfold bhead; lia|].
  rewrite (lru_perm _ _ Hl). apply NoDup_seq.
Qed.
Lemma lru_buf bc L b : lru bc L → b ∈ bhead :: L → ∃ r, bc !! b = Some r.
Proof.
  intros Hl Hb. apply lookup_lt_is_Some_2. rewrite (lru_len _ _ Hl).
  apply elem_of_cons in Hb as [->|Hb]; [unfold bhead; lia|]. rewrite (lru_elem bc) in Hb by done. lia.
Qed.

(** The first buffer of [L] that passes the test. *)
Fixpoint first_buf (bc : list buf) (test : buf → bool) (L : list nat) : option nat :=
  match L with
  | [] => None
  | b :: L' => if from_option test false (bc !! b) then Some b else first_buf bc test L'
  end.

Lemma first_buf_Some bc test L b :
  first_buf bc test L = Some b → b ∈ L ∧ ∃ r, bc !! b = Some r ∧ test r = true.
Proof.
  induction L as [|c L IH]; simpl; [done|]. destruct (bc !! c) as [r|] eqn:E; simpl.
  - destruct (test r) eqn:Et.
    + intros [= <-]. split; [by left|]. by exists r.
    + intros [? ?]%IH. split; [by right|done].
  - intros [? ?]%IH. split; [by right|done].
Qed.
Lemma first_buf_None bc test L b r :
  first_buf bc test L = None → b ∈ L → bc !! b = Some r → test r = false.
Proof.
  induction L as [|c L IH]; simpl; intros Hn Hb Hr; [by apply not_elem_of_nil in Hb|].
  apply elem_of_cons in Hb as [->|Hb].
  - rewrite Hr in Hn. simpl in Hn. by destruct (test r).
  - apply IH; try done. by destruct (from_option test false (bc !! c)).
Qed.

Lemma bscan_loop (step : buf → nat) (test : buf → bool) s x L fuel :
  chain (λ b, default 0%nat (step <$> k_bcache s !! b)) x L bhead → bhead ∉ L →
  (∀ b, b ∈ L → is_Some (k_bcache s !! b)) → (length L < fuel)%nat →
  loop fuel (λ b,
    if bool_decide (b = bhead) then ret (inr None)
    else
      let! bp := buf_at b in
      if test bp then ret (inr (Some b)) else ret (inl (step bp)))
    (default 0%nat (step <$> k_bcache s !! x)) s
  = Ok (first_buf (k_bcache s) test L) s.
Proof.
  revert x fuel. induction L as [|b L IH]; intros x fuel Hc Hh Hs Hf;
    (destruct fuel as [|fuel]; [simpl in Hf; lia|]).
  - simpl in Hc. rewrite Hc. by apply loop_Ok.
  - destruct Hc as [-> Hc]. apply not_elem_of_cons in Hh as [Hb Hh].
    destruct (Hs b) as [r Hr]; [by left|]. cbn [first_buf]. rewrite Hr. cbn [from_option].
    destruct (test r) eqn:Et.
    + apply loop_Ok. rewrite bool_decide_eq_false_2 by done. run (by apply buf_at_eq). by rewrite Et.
    + erewrite loop_next.
      2:{ rewrite bool_decide_eq_false_2 by done. run (by apply buf_at_eq). by rewrite Et. }
      replace (step r) with (default 0%nat (step <$> k_bcache s !! b)) by by rewrite Hr.
      apply IH; [done|done| |simpl in Hf; lia]. intros c Hc'. apply Hs. by right.
Qed.

Lemma bscan_next test s L :
  lru (k_bcache s) L → bscan b_next test s = Ok (first_buf (k_bcache s) test L) s.
Proof.
  intros Hl. pose proof (lru_NoDup _ _ Hl) as [Hh Hnd]%NoDup_cons.
  destruct (lru_buf _ _ bhead Hl) as [r Hr]; [by left|].
  unfold bscan. run (by apply buf_at_eq).
  replace (b_next r) with (nx (k_bcache s) bhead) by (unfold nx; by rewrite Hr).
  apply (bscan_loop b_next); [apply Hl|done| |].
  - intros b Hb. eapply lru_buf; [done|by right].
  - rewrite (lru_perm _ _ Hl), length_seq. lia.
Qed.
Lemma bscan_prev test s L :
  lru (k_bcache s) L → bscan b_prev test s = Ok (first_buf (k_bcache s) test (reverse L)) s.
Proof.
  intros Hl. pose proof (lru_NoDup _ _ Hl) as [Hh Hnd]%NoDup_cons.
  destruct (lru_buf _ _ bhead Hl) as [r Hr]; [by left|].
  unfold bscan. run (by apply buf_at_eq).
  replace (b_prev r) with (pv (k_bcache s) bhead) by (unfold pv; by rewrite Hr).
  apply (bscan_loop b_prev); [apply Hl|by rewrite elem_of_reverse| |].
  - intros b Hb. rewrite elem_of_reverse in Hb. eapply lru_buf; [done|by right].
  - rewrite length_reverse, (lru_perm _ _ Hl), length_seq. lia.
Qed.

(** Only the links of the buffers differ. *)
Definition core (r : buf) := (b_flags r, b_dev r, b_blockno r, b_lock r, b_refcnt r, b_data r).
Definition same_core (bc bc' : list buf) : Prop := core <$> bc' = core <$> bc.

Lemma same_core_lookup bc bc' b r' :
  same_core bc bc' → bc' !! b = Some r' → ∃ r, bc !! b = Some r ∧ core r' = core r.
Proof.
  intros E Hb. assert (Hc : (core <$> bc') !! b = Some (core r')) by by rewrite list_lookup_fmap, Hb.
  rewrite E, list_lookup_fmap in Hc. apply fmap_Some in Hc as (r & Hr & Ec). eauto.
Qed.
Lemma core_alter f b bc : (∀ r, core (f r) = core r) → same_core bc (alter f b bc).
Proof.
  intros Hf. unfold same_core. apply list_eq. intros i. rewrite !list_lookup_fmap.
  destruct (decide (i = b)) as [->|Hi].
  - rewrite list_lookup_alter_eq. destruct (bc !! b); simpl; by rewrite ?Hf.
  - by rewrite list_lookup_alter_ne.
Qed.
Lemma same_core_trans bc1 bc2 bc3 : same_core bc1 bc2 → same_core bc2 bc3 → same_core bc1 bc3.
Proof. unfold same_core. congruence. Qed.

Lemma nx_alter f b bc y r :
  bc !! b = Some r → nx (alter f b bc) y = fupd b (b_next (f r)) (nx bc) y.
Proof.
  intros Hb. unfold nx, fupd. destruct (decide (y = b)) as [->|Hy].
  - by rewrite list_lookup_alter_eq, Hb.
  - by rewrite list_lookup_alter_ne.
Qed.
Lemma pv_alter f b bc y r :
  bc !! b = Some r → pv (alter f b bc) y = fupd b (b_prev (f r)) (pv bc) y.
Proof.
  intros Hb. unfold pv, fupd. destruct (decide (y = b)) as [->|Hy].
  - by rewrite list_lookup_alter_eq, Hb.
  - by rewrite list_lookup_alter_ne.
Qed.
Lemma nx_keep f b bc y : (∀ r, b_next (f r) = b_next r) → nx (alter f b bc) y = nx bc y.
Proof.
  intros Hf. unfold nx. destruct (decide (y = b)) as [->|Hy].
  - rewrite list_lookup_alter_eq. destruct (bc !! b); simpl; by rewrite ?Hf.
  - by rewrite list_lookup_alter_ne.
Qed.
Lemma pv_keep f b bc y : (∀ r, b_prev (f r) = b_prev r) → pv (alter f b bc) y = pv bc y.
Proof.
  intros Hf. unfold pv. destruct (decide (y = b)) as [->|Hy].
  - rewrite list_lookup_alter_eq. destruct (bc !! b); simpl; by rewrite ?Hf.
  - by rewrite list_lookup_alter_ne.
Qed.

(** An update of a buffer that leaves its links alone leaves the list alone. *)
Lemma lru_keep f b bc L :
  (∀ r, b_next (f r) = b_next r) → (∀ r, b_prev (f r) = b_prev r) → lru bc L → lru (alter f b bc) L.
Proof.
  intros Hn Hp [Hl Hperm Hcn Hcp]. split; [by rewrite length_alter|done| |].
  - eapply chain_ext; [|exact Hcn]. intros z _. symmetry. by apply nx_keep.
  - eapply chain_ext; [|exact Hcp]. intros z _. symmetry. by apply pv_keep.
Qed.

(** The six assignments of [brelse]. *)
Definition unlink_buf (b : nat) (bc : list buf) : list buf :=
  alter (set_b_next (nx bc b)) (pv bc b) (alter (set_b_prev (pv bc b)) (nx bc b) bc).
Definition link_front (b : nat) (bc : list buf) : list buf :=
  alter (set_b_next b) bhead (alter (set_b_prev b) (nx bc bhead)
    (alter (set_b_prev bhead) b (alter (set_b_next (nx bc bhead)) b bc))).

Lemma chain_head f x L y : chain f x L y → f x = default y (head L).
Proof. destruct L; simpl; [done|]. by intros [? _]. Qed.
Lemma last_reverse_head {A} (l : list A) : last (reverse l) = head l.
Proof. destruct l as [|x l]; [done|]. by rewrite reverse_cons, last_snoc. Qed.

(** Linking [b] in at the front. *)
Lemma front_chains bc L b :
  length bc = S NBUF → NoDup (bhead :: L) → b ∉ bhead :: L → (∀ y, y ∈ b :: bhead :: L → (y < S NBUF)%nat) →
  chain (nx bc) bhead L bhead → chain (pv bc) bhead (reverse L) bhead →
  chain (nx (link_front b bc)) bhead (b :: L) bhead ∧
  chain (pv (link_front b bc)) bhead (reverse (b :: L)) bhead.
Proof.
  intros Hlen Hnd Hb Hlt Hn Hp.
  assert (Hq : nx bc bhead ∈ bhead :: L).
  { rewrite (chain_head _ _ _ _ Hn). destruct L as [|y L]; simpl; [by left|right; by left]. }
  apply not_elem_of_cons in Hb as [Hbh HbL].
  assert (HhL : bhead ∉ L) by by apply NoDup_cons in Hnd as [? _].
  assert (En : ∀ z, nx (link_front b bc) z = fupd bhead b (fupd b (nx bc bhead) (nx bc)) z).
  { intros z. unfold link_front.
    edestruct (λ i, lookup_lt_is_Some_2 (alter (set_b_prev b) (nx bc bhead)
      (alter (set_b_prev bhead) b (alter (set_b_next (nx bc bhead)) b bc))) i) as [r Hr].
    { rewrite !length_alter, Hlen. by apply (Hlt bhead); right; left. }
    erewrite nx_alter by exact Hr. unfold fupd at 1 2. case_decide; [done|].
    rewrite !nx_keep by done. destruct (lookup_lt_is_Some_2 bc b) as [rb Hrb].
    { rewrite Hlen. apply Hlt. by left. }
    by erewrite nx_alter by exact Hrb. }
  assert (Ep : ∀ z, pv (link_front b bc) z = fupd (nx bc bhead) b (fupd b bhead (pv bc)) z).
  { intros z. unfold link_front. rewrite pv_keep by done.
    edestruct (λ i, lookup_lt_is_Some_2 (alter (set_b_prev bhead) b
      (alter (set_b_next (nx bc bhead)) b bc)) i) as [r Hr].
    { rewrite !length_alter, Hlen. apply (Hlt (nx bc bhead)). by right. }
    erewrite pv_alter by exact Hr. unfold fupd at 1 2. case_decide; [done|].
    edestruct (λ i, lookup_lt_is_Some_2 (alter (set_b_next (nx bc bhead)) b bc) i) as [rb Hrb].
    { rewrite !length_alter, Hlen. apply (Hlt b). by left. }
    erewrite pv_alter by exact Hrb. unfold fupd. case_decide; [done|]. by apply pv_keep. }
  split.
  - split; [by rewrite En, fupd_eq|]. eapply chain_ext; [intros z _; symmetry; apply En|].
    apply chain_fupd; [by apply not_elem_of_cons|].
    eapply chain_start; [|apply chain_fupd; [|exact Hn]; by apply not_elem_of_cons].
    by rewrite fupd_eq, fupd_ne.
  - rewrite reverse_cons. apply chain_app. split.
    + eapply chain_ext; [intros z _; symmetry; apply Ep|].
      rewrite (chain_head _ _ _ _ Hn), <-last_reverse_head. eapply chain_end.
      * constructor; [by rewrite elem_of_reverse|]. rewrite reverse_Permutation.
        by apply NoDup_cons in Hnd as [_ ?].
      * apply chain_fupd; [|exact Hp]. apply not_elem_of_cons. split; [done|]. by rewrite elem_of_reverse.
    + simpl. rewrite Ep, fupd_ne, fupd_eq; [done|]. intros ->.
      apply elem_of_cons in Hq as [?|?]; done.
Qed.

Section move.
Context (bc : list buf) (L1 : list nat) (b : nat) (L2 : list nat).
Hypothesis Hl : lru bc (L1 ++ b :: L2).

Lemma move_next : nx bc b = default bhead (head L2).
Proof. pose proof (lru_next _ _ Hl) as [_ Hc]%chain_app. by apply chain_head. Qed.
Lemma move_prev : pv bc b = default bhead (last L1).
Proof.
  pose proof (lru_prev _ _ Hl) as Hc. rewrite reverse_app, reverse_cons, <-app_assoc in Hc.
  apply chain_app in Hc as [_ Hc]. apply chain_head in Hc. by rewrite head_reverse in Hc.
Qed.
Lemma move_in x (l : list nat) o : l ⊆ L1 ++ L2 → o = head l ∨ o = last l → x = default bhead o → x ∈ bhead :: L1 ++ L2.
Proof.
  intros Hs Ho ->. destruct o as [y|]; [|by left]. right. apply Hs. destruct Ho as [E|E].
  - destruct l; [done|]. injection E as ->. by left.
  - by apply last_Some_elem_of.
Qed.

Lemma move_NoDup : NoDup (bhead :: L1 ++ b :: L2) ∧ NoDup (bhead :: L1 ++ L2) ∧ b ∉ bhead :: L1 ++ L2.
Proof.
  pose proof (lru_NoDup _ _ Hl) as Hnd. split; [done|].
  rewrite <-Permutation_middle, Permutation_swap in Hnd. by apply NoDup_cons in Hnd as [? ?].
Qed.

(** Off the list: two chains through the other buffers. *)
Lemma unlink_chains :
  chain (nx (unlink_buf b bc)) bhead (L1 ++ L2) bhead ∧
  chain (pv (unlink_buf b bc)) bhead (reverse (L1 ++ L2)) bhead.
Proof.
  destruct move_NoDup as (Hnd & Hnd' & Hb).
  assert (Hp : pv bc b ∈ bhead :: L1 ++ L2).
  { eapply (move_in _ L1); [|by right|apply move_prev]. intros y Hy. apply elem_of_app. by left. }
  assert (Hn : nx bc b ∈ bhead :: L1 ++ L2).
  { eapply (move_in _ L2); [|by left|apply move_next]. intros y Hy. apply elem_of_app. by right. }
  assert (Hsub : ∀ y, y ∈ bhead :: L1 ++ L2 → y ∈ bhead :: L1 ++ b :: L2).
  { intros y. rewrite !elem_of_cons, !elem_of_app, elem_of_cons. tauto. }
  destruct (lru_buf _ _ _ Hl (Hsub _ Hn)) as [rn Hrn].
  destruct (lru_buf _ _ _ Hl (Hsub _ Hp)) as [rp Hrp].
  unfold unlink_buf. split.
  - eapply chain_ext; [|eapply chain_unlink; [exact Hnd|apply Hl]]. intros z _.
    destruct (lookup_lt_is_Some_2 (alter (set_b_prev (pv bc b)) (nx bc b) bc) (pv bc b)) as [r Hr].
    { rewrite length_alter. by eapply lookup_lt_Some. }
    erewrite nx_alter by exact Hr. simpl. rewrite <-move_prev.
    unfold fupd. case_decide; [done|]. symmetry. by apply nx_keep.
  - pose proof (lru_prev _ _ Hl) as Hc. rewrite reverse_app, reverse_cons, <-app_assoc in Hc. simpl in Hc.
    rewrite reverse_app. eapply chain_ext; [|eapply chain_unlink; [|exact Hc]].
    + intros z _. rewrite pv_keep by done. erewrite pv_alter by exact Hrn. simpl.
      by rewrite last_reverse_head, <-move_next.
    + assert (Hpm : bhead :: reverse L2 ++ b :: reverse L1 ≡ₚ bhead :: L1 ++ b :: L2).
      { rewrite !reverse_Permutation. solve_Permutation. }
      by rewrite Hpm.
Qed.

Lemma lru_front : lru (link_front b (unlink_buf b bc)) (b :: L1 ++ L2).
Proof.
  destruct unlink_chains as [Hn Hp]. destruct move_NoDup as (_ & Hnd & Hb).
  assert (Hlen : length (unlink_buf b bc) = S NBUF).
  { unfold unlink_buf. rewrite !length_alter. apply Hl. }
  destruct (front_chains (unlink_buf b bc) (L1 ++ L2) b) as [Hn' Hp']; try done.
  { intros y Hy. rewrite <-(lru_len _ _ Hl). apply lookup_lt_is_Some, (lru_buf _ _ _ Hl).
    rewrite !elem_of_cons, !elem_of_app, elem_of_cons in *. tauto. }
  split; [|rewrite <-(lru_perm _ _ Hl); solve_Permutation|done..].
  unfold link_front. by rewrite !length_alter.
Qed.
End move.

Lemma link_core b bc : same_core bc (link_front b (unlink_buf b bc)).
Proof.
  unfold link_front, unlink_buf.
  repeat (eapply same_core_trans; [|apply core_alter; by intros []]). done.
Qed.

(** ** The cache invariant *)

(** [B_VALID], or [B_VALID | B_DIRTY]. *)
Definition vflags (Ds : gset Z) (blk : Z) : Z := if decide (blk ∈ Ds) then 6 else 2.

Lemma vflags_ext Ds Ds' blk : (blk ∈ Ds' ↔ blk ∈ Ds) → vflags Ds' blk = vflags Ds blk.
Proof. intros. unfold vflags. repeat case_decide; tauto. Qed.

(** The buffers that process [pid] holds are the keys of [Hd], with the block and the
    contents each has at the moment; [Ds] are the dirty blocks. *)
Abbreviation holds := (gmap nat (Z * list Z)).

Definition buf_spec (pid : Z) (Hd : holds) (Ds : gset Z) (val : Z → list Z) (b : nat) (r : buf) : Prop :=
  match Hd !! b with
  | Some (blk, v) =>
      b_dev r = 1 ∧ b_blockno r = blk ∧ b_data r = v ∧ b_refcnt r = 1 ∧
      b_lock r = mk_sleeplock true pid ∧ b_flags r = vflags Ds blk
  | None =>
      b_refcnt r = 0 ∧ sl_locked (b_lock r) = false ∧
      ((b_dev r = 0 ∧ b_flags r = 0) ∨
       (b_dev r = 1 ∧ b_data r = val (b_blockno r) ∧ b_flags r = vflags Ds (b_blockno r)))
  end.

Record binv (pid : Z) (bc : list buf) (disk : list (list Z)) (Hd : holds) (Ds : gset Z)
    (val : Z → list Z) (L : list nat) : Prop := {
  bi_lru : lru bc L;
  bi_spec b r : (b < NBUF)%nat → bc !! b = Some r → buf_spec pid Hd Ds val b r;
  bi_held b : is_Some (Hd !! b) → (b < NBUF)%nat;
  bi_uniq b b' r r' : (b < NBUF)%nat → (b' < NBUF)%nat → bc !! b = Some r → bc !! b' = Some r' →
    b_dev r = 1 → b_dev r' = 1 → b_blockno r = b_blockno r' → b = b';
  bi_dirty blk : blk ∈ Ds → ∃ b r, (b < NBUF)%nat ∧ bc !! b = Some r ∧ b_dev r = 1 ∧ b_blockno r = blk;
  bi_range b r : (b < NBUF)%nat → bc !! b = Some r → b_dev r = 1 →
    0 ≤ b_blockno r < Z.of_nat (length disk);
  bi_disk blk : 0 ≤ blk < Z.of_nat (length disk) → blk ∉ Ds → disk !! Z.to_nat blk = Some (val blk);
}.

Lemma core_fields r r' :
  core r' = core r → b_flags r' = b_flags r ∧ b_dev r' = b_dev r ∧ b_blockno r' = b_blockno r ∧
    b_lock r' = b_lock r ∧ b_refcnt r' = b_refcnt r ∧ b_data r' = b_data r.
Proof. unfold core. intros E. by simplify_eq. Qed.

Lemma binv_relink pid bc bc' disk Hd Ds val L L' :
  same_core bc bc' → lru bc' L' → binv pid bc disk Hd Ds val L → binv pid bc' disk Hd Ds val L'.
Proof.
  intros Hc Hl [_ Hs Hh Hu Hdt Hr Hk].
  assert (Hback : ∀ b r', bc' !! b = Some r' → ∃ r, bc !! b = Some r ∧ core r' = core r).
  { intros b r'. by apply same_core_lookup. }
  split; [done| |done| | | |done].
  - intros b r' Hb Hr'. destruct (Hback _ _ Hr') as (r & Hr0 & (E1 & E2 & E3 & E4 & E5 & E6)%core_fields).
    specialize (Hs b r Hb Hr0). unfold buf_spec in *. by rewrite E1, E2, E3, E4, E5, E6.
  - intros b b' r r' Hb Hb' Hr1 Hr2.
    destruct (Hback _ _ Hr1) as (r1 & H1 & (_ & -> & -> & _)%core_fields).
    destruct (Hback _ _ Hr2) as (r2 & H2 & (_ & -> & -> & _)%core_fields). by eapply Hu.
  - intros blk Hblk. destruct (Hdt blk Hblk) as (b & r & Hb & Hr0 & Hd1 & Hd2).
    symmetry in Hc. destruct (same_core_lookup _ _ _ _ Hc Hr0) as (r' & Hr' & (_ & E2 & E3 & _)%core_fields).
    exists b, r'. by rewrite <-E2, <-E3.
  - intros b r' Hb Hr'. destruct (Hback _ _ Hr') as (r & Hr0 & (_ & -> & -> & _)%core_fields). by eapply Hr.
Qed.

(** One buffer [b] changes to [r']; what the other buffers say stays true. *)
Lemma binv_update pid bc disk Hd Ds val L b r f disk' Hd' Ds' val' :
  binv pid bc disk Hd Ds val L → (b < NBUF)%nat → bc !! b = Some r →
  (∀ r, b_next (f r) = b_next r) → (∀ r, b_prev (f r) = b_prev r) →
  buf_spec pid Hd' Ds' val' b (f r) →
  (∀ b', b' ≠ b → Hd' !! b' = Hd !! b') →
  (∀ b' r', (b' < NBUF)%nat → b' ≠ b → bc !! b' = Some r' → b_dev r' = 1 →
     b_blockno r' ≠ b_blockno (f r) ∧ (b_blockno r' ∈ Ds' ↔ b_blockno r' ∈ Ds) ∧
     val' (b_blockno r') = val (b_blockno r')) →
  b_dev (f r) = 1 → 0 ≤ b_blockno (f r) < Z.of_nat (length disk) →
  (∀ blk, blk ∈ Ds' → blk = b_blockno (f r) ∨ blk ∈ Ds ∧ (b_dev r = 1 → blk ≠ b_blockno r)) →
  length disk' = length disk →
  (∀ blk, 0 ≤ blk < Z.of_nat (length disk) → blk ∉ Ds' → disk' !! Z.to_nat blk = Some (val' blk)) →
  binv pid (alter f b bc) disk' Hd' Ds' val' L.
Proof.
  intros [Hl Hs Hh Hu Hdt Hr Hk] Hb Hbr Hfn Hfp Hsp Ho Hoth Hdev Hrng Hds Hlen Hdisk.
  assert (Hlk : ∀ b' r', alter f b bc !! b' = Some r' → b' = b ∧ r' = f r ∨ b' ≠ b ∧ bc !! b' = Some r').
  { intros b' r'. destruct (decide (b' = b)) as [->|Hne].
    - rewrite list_lookup_alter_eq, Hbr. intros [= <-]. by left.
    - rewrite list_lookup_alter_ne by done. by right. }
  split; [by apply lru_keep| | | | | |by rewrite Hlen].
  - intros b' r' Hb' [[-> ->]|[Hne Hr']]%Hlk; [done|].
    specialize (Hs b' r' Hb' Hr'). unfold buf_spec in *. rewrite Ho by done.
    destruct (Hd !! b') as [[blk v]|].
    + destruct Hs as (H1 & H2 & H3 & H4 & H5 & H6). destruct (Hoth b' r' Hb' Hne Hr' H1) as (_ & Hin & _).
      split_and!; try done. rewrite H6, <-H2. symmetry. by apply vflags_ext.
    + destruct Hs as (H1 & H2 & H3). split_and!; try done. destruct H3 as [?|(H3 & H4 & H5)]; [by left|].
      right. destruct (Hoth b' r' Hb' Hne Hr' H3) as (_ & Hin & Hv). rewrite Hv. split_and!; try done.
      rewrite H5. symmetry. by apply vflags_ext.
  - intros b' Hb'. destruct (decide (b' = b)) as [->|Hne]; [done|]. apply Hh. by rewrite <-Ho.
  - intros b1 b2 r1 r2 Hb1 Hb2 [[-> ->]|[Hne1 Hr1]]%Hlk [[-> ->]|[Hne2 Hr2]]%Hlk Hd1 Hd2 E; [done| | |by eapply Hu].
    + destruct (Hoth b2 r2 Hb2 Hne2 Hr2 Hd2) as [? _]. congruence.
    + destruct (Hoth b1 r1 Hb1 Hne1 Hr1 Hd1) as [? _]. congruence.
  - intros blk [->|[Hblk Hne]]%Hds.
    + exists b, (f r). split_and!; try done. by rewrite list_lookup_alter_eq, Hbr.
    + destruct (Hdt blk Hblk) as (b1 & r1 & Hb1 & Hr1 & Hd1 & Hk1).
      exists b1, r1. split_and!; try done. rewrite list_lookup_alter_ne; [done|]. intros <-.
      assert (r1 = r) as -> by congruence. by apply Hne.
  - intros b' r' Hb' [[-> ->]|[Hne Hr']]%Hlk Hd1; rewrite Hlen; [done|]. by eapply Hr.
Qed.

(** ** The operations *)

(** The blocks in the buffers that are held. *)
Definition hblks (Hd : holds) : gset Z := list_to_set ((λ x, fst (snd x)) <$> map_to_list Hd).
Lemma elem_of_hblks Hd blk : blk ∈ hblks Hd ↔ ∃ b v, Hd !! b = Some (blk, v).
Proof.
  unfold hblks. rewrite elem_of_list_to_set, list_elem_of_fmap. split.
  - intros ([b [k v]] & -> & Hb%elem_of_map_to_list). by exists b, v.
  - intros (b & v & Hb). exists (b, (blk, v)). by rewrite elem_of_map_to_list.
Qed.

Lemma size_list_to_set_le (l : list Z) : (size (list_to_set l : gset Z) ≤ length l)%nat.
Proof.
  induction l as [|x xs IH]; simpl; [done|]. rewrite size_union_alt.
  pose proof (subseteq_size ((list_to_set xs : gset Z) ∖ {[x]}) (list_to_set xs) ltac:(set_solver)) as Hd.
  rewrite size_singleton. lia.
Qed.
Lemma size_hblks Hd : (size (hblks Hd) ≤ size Hd)%nat.
Proof. unfold hblks. etrans; [apply size_list_to_set_le|]. by rewrite length_fmap, length_map_to_list. Qed.

Lemma flag_is_dirty Ds r : b_flags r = vflags Ds (b_blockno r) →
  flag_is B_DIRTY r = bool_decide (b_blockno r ∈ Ds) ∧ flag_is B_VALID r = true.
Proof. intros E. unfold flag_is. rewrite E. unfold vflags. by case_decide; [rewrite bool_decide_eq_true_2|rewrite bool_decide_eq_false_2]. Qed.

(** With fewer dirty and held blocks than buffers there is a buffer to reuse. *)
Lemma victim pid bc disk Hd Ds val L :
  binv pid bc disk Hd Ds val L → (size (Ds ∪ hblks Hd) < NBUF)%nat →
  ∃ b r, first_buf bc (λ b, (b_refcnt b =? 0) && negb (flag_is B_DIRTY b)) (reverse L) = Some b ∧
    (b < NBUF)%nat ∧ bc !! b = Some r ∧ Hd !! b = None ∧ (b_dev r = 1 → b_blockno r ∉ Ds).
Proof.
  intros Hi Hsz. pose proof (bi_lru _ _ _ _ _ _ _ Hi) as Hl.
  destruct (first_buf _ _ _) as [b|] eqn:E.
  { exists b. apply first_buf_Some in E as (Hb & r & Hr & [Ht1 Ht2]%andb_true_iff).
    rewrite elem_of_reverse, (lru_elem bc) in Hb by done. exists r. split_and!; try done.
    - pose proof (bi_spec _ _ _ _ _ _ _ Hi b r Hb Hr) as Hs. unfold buf_spec in Hs.
      destruct (Hd !! b) as [[blk v]|]; [|done]. destruct Hs as (_ & _ & _ & Hrc & _). by rewrite Hrc in Ht1.
    - intros Hdev. pose proof (bi_spec _ _ _ _ _ _ _ Hi b r Hb Hr) as Hs. unfold buf_spec in Hs.
      assert (Hf : b_flags r = vflags Ds (b_blockno r)).
      { destruct (Hd !! b) as [[blk v]|]; [by destruct Hs as (_ & -> & _ & _ & _ & ?)|].
        destruct Hs as (_ & _ & [[? _]|(_ & _ & ?)]); [congruence|done]. }
      destruct (flag_is_dirty _ _ Hf) as [Hd' _]. rewrite Hd' in Ht2.
      by apply negb_true_iff, bool_decide_eq_false in Ht2. }
  exfalso. set (blk_of := λ b, default 0 (b_blockno <$> bc !! b)).
  assert (Hall : ∀ b, (b < NBUF)%nat → ∃ r, bc !! b = Some r ∧ b_dev r = 1 ∧ b_blockno r ∈ Ds ∪ hblks Hd).
  { intros b Hb. destruct (lru_buf bc L b Hl) as [r Hr]; [right; by apply (lru_elem bc)|]. exists r.
    assert (Ht : (b_refcnt r =? 0) && negb (flag_is B_DIRTY r) = false).
    { eapply (first_buf_None bc (λ b, (b_refcnt b =? 0) && negb (flag_is B_DIRTY b)));
        [exact E| |done]. by rewrite elem_of_reverse, (lru_elem bc) by done. }
    pose proof (bi_spec _ _ _ _ _ _ _ Hi b r Hb Hr) as Hs. unfold buf_spec in Hs.
    destruct (Hd !! b) as [[blk v]|] eqn:Eh.
    - destruct Hs as (H1 & H2 & _). split_and!; try done. rewrite H2. apply elem_of_union_r, elem_of_hblks. eauto.
    - destruct Hs as (H1 & _ & H3). rewrite H1 in Ht. simpl in Ht. apply negb_false_iff in Ht.
      destruct H3 as [[_ H3]|(H3 & _ & H4)]; [unfold flag_is in Ht; by rewrite H3 in Ht|].
      split_and!; try done. apply elem_of_union_l. destruct (flag_is_dirty _ _ H4) as [Hd' _].
      rewrite Hd' in Ht. by apply bool_decide_eq_true in Ht. }
  assert (Hsub : list_to_set (blk_of <$> seq 0 NBUF) ⊆ Ds ∪ hblks Hd).
  { intros x (b & -> & Hb)%elem_of_list_to_set%list_elem_of_fmap. rewrite elem_of_seq in Hb.
    destruct (Hall b) as (r & Hr & _ & ?); [lia|]. unfold blk_of. by rewrite Hr. }
  apply subseteq_size in Hsub. rewrite size_list_to_set, length_fmap, length_seq in Hsub; [lia|].
  apply NoDup_fmap_2_strong; [|apply NoDup_seq]. intros b1 b2 H1 H2 E12. rewrite elem_of_seq in H1, H2.
  destruct (Hall b1) as (r1 & Hr1 & Hd1 & _); [lia|]. destruct (Hall b2) as (r2 & Hr2 & Hd2 & _); [lia|].
  unfold blk_of in E12. rewrite Hr1, Hr2 in E12. simpl in E12.
  eapply (bi_uniq _ _ _ _ _ _ _ Hi b1 b2); eauto; lia.
Qed.

Section ops.
Context `{Env} (pid : Z).
Hypothesis Hdrv : DRIVER = MEMIDE.
Hypothesis Hfuel : (0 < FUEL)%nat.

(** The state of the cache as its users see it. *)
Definition cache (s : kernel) (Hd : holds) (Ds : gset Z) (val : Z → list Z) : Prop :=
  alone pid s ∧ ∃ L, binv pid (k_bcache s) (k_disk s) Hd Ds val L.

(** What the operations leave alone, the disk apart. *)
Definition same_io (s s' : kernel) : Prop :=
  s' = set_k_bcache (k_bcache s') (set_k_disk (k_disk s') (set_k_dwrites (k_dwrites s') s)).
(** ... the disk included. *)
Definition same_disk (s s' : kernel) : Prop :=
  same_io s s' ∧ k_disk s' = k_disk s ∧ k_dwrites s' = k_dwrites s.

Lemma alone_bset b f s : alone pid s → alone pid (bset b f s).
Proof. intros Hq. by eapply alone_same. Qed.
Lemma same_disk_set bc s : same_disk s (set_k_bcache bc s).
Proof. split_and!; [by destruct s|done..]. Qed.

(** memide.c reads a buffer that is not valid... *)
Lemma iderw_read s b r data :
  alone pid s → k_bcache s !! b = Some r → b_lock r = mk_sleeplock true pid →
  b_flags r = 0 → b_dev r = 1 → 0 ≤ b_blockno r →
  k_disk s !! Z.to_nat (b_blockno r) = Some data →
  iderw b s = Ok tt (bset b (λ r, flag_set B_VALID (set_b_data data r)) s).
Proof.
  intros Hq Hb Hl Hf Hdev H0 Hdisk. unfold iderw. rewrite Hdrv. unfold memide_iderw.
  run (by eapply holdingsleep_eq). cbn [negb]. run (by apply buf_at_eq). unfold flag_is.
  rewrite Hf, Hdev.
  change (Z.land 0 (Z.lor B_VALID B_DIRTY) =? B_VALID) with false.
  change (negb (1 =? 1)) with false. cbv iota. run done.
  pose proof (lookup_lt_Some _ _ _ Hdisk) as Hlt.
  rewrite (proj2 (Z.leb_gt _ _)) by lia. change (negb (Z.land 0 B_DIRTY =? 0)) with false. cbv iota.
  run (unfold arr_get; rewrite (proj2 (Z.ltb_ge _ _)) by lia; rewrite Hdisk;
       run done; by eapply upd_buf_eq).
  erewrite upd_buf_eq by by apply lookup_bset. by rewrite bset_bset.
Qed.

(** ... and writes one that is dirty. *)
Lemma iderw_write s b r :
  alone pid s → k_bcache s !! b = Some r → b_lock r = mk_sleeplock true pid →
  b_flags r = 6 → b_dev r = 1 → 0 ≤ b_blockno r < Z.of_nat (length (k_disk s)) →
  iderw b s = Ok tt (bset b (set_b_flags 2) (set_k_dwrites ((b_blockno r, b_data r) :: k_dwrites s)
    (set_k_disk (<[Z.to_nat (b_blockno r) := b_data r]> (k_disk s)) s))).
Proof.
  intros Hq Hb Hl Hf Hdev H0. unfold iderw. rewrite Hdrv. unfold memide_iderw.
  run (by eapply holdingsleep_eq). cbn [negb]. run (by apply buf_at_eq). unfold flag_is.
  rewrite Hf, Hdev. change (Z.land 6 (Z.lor B_VALID B_DIRTY) =? B_VALID) with false.
  change (negb (1 =? 1)) with false. cbv iota. run done. rewrite (proj2 (Z.leb_gt _ _)) by lia.
  change (negb (Z.land 6 B_DIRTY =? 0)) with true. cbv iota.
  run (run (by eapply upd_buf_eq); reflexivity).
  erewrite upd_buf_eq; [|simpl; by erewrite list_lookup_alter_eq, Hb]. unfold bset. simpl.
  rewrite alter_alter.
  assert (E : flag_set B_VALID (flag_clear B_DIRTY r) = set_b_flags 2 r).
  { unfold flag_set, flag_clear. simpl. by rewrite Hf. }
  rewrite !(alter_insert_eq _ (k_bcache s) _ _ Hb), E. by destruct s.
Qed.

(** [bget] of a block that is cached, and of one that is not. *)
Definition hit_buf (r : buf) : buf := lock_buf pid (set_b_refcnt (b_refcnt r + 1) r).
Definition miss_buf (blk : Z) (r : buf) : buf :=
  lock_buf pid (set_b_refcnt 1 (set_b_flags 0 (set_b_blockno blk (set_b_dev 1 r)))).

Definition is_blk (blk : Z) (r : buf) : bool := (b_dev r =? 1) && (b_blockno r =? blk).

Lemma bget_hit s L blk b r :
  alone pid s → lru (k_bcache s) L → first_buf (k_bcache s) (is_blk blk) L = Some b →
  k_bcache s !! b = Some r → sl_locked (b_lock r) = false →
  bget 1 blk s = Ok b (bset b hit_buf s).
Proof.
  intros Hq Hl Hfb Hb Hlk. unfold bget. run (by eapply acquire_alone).
  run (by apply (bscan_next (is_blk blk) (locked LK_bcache s))).
  change (k_bcache (locked LK_bcache s)) with (k_bcache s). rewrite Hfb. cbv iota.
  run (by eapply upd_buf_eq). run (by eapply release_bset).
  run (by eapply acquiresleep_eq; [done|apply alone_bset|apply lookup_bset|]). by rewrite bset_bset.
Qed.

Lemma bget_miss s L blk b r :
  alone pid s → lru (k_bcache s) L → first_buf (k_bcache s) (is_blk blk) L = None →
  first_buf (k_bcache s) (λ b, (b_refcnt b =? 0) && negb (flag_is B_DIRTY b)) (reverse L) = Some b →
  k_bcache s !! b = Some r → sl_locked (b_lock r) = false →
  bget 1 blk s = Ok b (bset b (miss_buf blk) s).
Proof.
  intros Hq Hl Hfb Hv Hb Hlk. unfold bget. run (by eapply acquire_alone).
  run (by apply (bscan_next (is_blk blk) (locked LK_bcache s))).
  change (k_bcache (locked LK_bcache s)) with (k_bcache s). rewrite Hfb. cbv iota.
  run (by apply (bscan_prev (λ b, (b_refcnt b =? 0) && negb (flag_is B_DIRTY b)) (locked LK_bcache s))).
  change (k_bcache (locked LK_bcache s)) with (k_bcache s). rewrite Hv. cbv iota.
  run (by eapply upd_buf_eq). run (eapply upd_buf_eq; by apply lookup_bset). rewrite bset_bset.
  run (eapply upd_buf_eq; by apply lookup_bset). rewrite bset_bset.
  run (eapply upd_buf_eq; by apply lookup_bset). rewrite bset_bset.
  run (by eapply release_bset).
  run (by eapply acquiresleep_eq; [done|apply alone_bset|apply lookup_bset|]). by rewrite bset_bset.
Qed.


Lemma cached_unheld s Hd Ds val L blk b r :
  binv pid (k_bcache s) (k_disk s) Hd Ds val L → (b < NBUF)%nat → k_bcache s !! b = Some r →
  is_blk blk r = true → blk ∉ hblks Hd →
  Hd !! b = None ∧ b_refcnt r = 0 ∧ sl_locked (b_lock r) = false ∧ b_dev r = 1 ∧ b_blockno r = blk ∧
    b_data r = val blk ∧ b_flags r = vflags Ds blk.
Proof.
  intros Hi Hb Hr [Hdev%Z.eqb_eq Hblk%Z.eqb_eq]%andb_true_iff Hh.
  pose proof (bi_spec _ _ _ _ _ _ _ Hi b r Hb Hr) as Hs. unfold buf_spec in Hs.
  destruct (Hd !! b) as [[k v]|] eqn:E.
  - destruct Hs as (_ & Hk & _). exfalso. apply Hh, elem_of_hblks. exists b, v. congruence.
  - destruct Hs as (H1 & H2 & [[H3 _]|(H3 & H4 & H5)]); [congruence|]. rewrite Hblk in *. done.
Qed.

Lemma bread_hit s Hd Ds val L blk b r :
  alone pid s → binv pid (k_bcache s) (k_disk s) Hd Ds val L → blk ∉ hblks Hd →
  first_buf (k_bcache s) (is_blk blk) L = Some b → k_bcache s !! b = Some r → is_blk blk r = true →
  (b < NBUF)%nat →
  bread 1 blk s = Ok b (bset b hit_buf s) ∧ Hd !! b = None ∧
  binv pid (k_bcache (bset b hit_buf s)) (k_disk s) (<[b := (blk, val blk)]> Hd) Ds val L.
Proof.
  intros Hq Hi Hh Hf Hb Ht Hlt.
  destruct (cached_unheld s Hd Ds val L blk b r Hi Hlt Hb Ht Hh) as (Hn & Hrc & Hlk & Hdev & Hblk & Hdat & Hfl).
  split_and!; [|done|].
  - unfold bread. run (by eapply bget_hit; [..|apply Hi| | |]). run (apply buf_at_eq; by apply lookup_bset).
    assert (Hv : flag_is B_VALID (hit_buf r) = true).
    { rewrite <-Hblk in Hfl. unfold flag_is. simpl. rewrite Hfl. unfold vflags. by case_decide. }
    rewrite Hv. done.
  - eapply binv_update; [exact Hi|done|exact Hb|done|done|..]; simpl; try done.
    + unfold buf_spec. rewrite lookup_insert_eq. simpl. rewrite Hrc. done.
    + intros b' Hne. by rewrite lookup_insert_ne.
    + intros b' r' Hb' Hne Hr' Hdev'. split; [|done]. intros E. apply Hne.
      eapply (bi_uniq _ _ _ _ _ _ _ Hi b' b r' r); eauto.
    + by eapply (bi_range _ _ _ _ _ _ _ Hi).
    + intros k Hk. destruct (decide (k = blk)) as [->|]; [by left|]. right. split; [done|]. congruence.
    + intros k Hk Hnk. by apply (bi_disk _ _ _ _ _ _ _ Hi).
Qed.

Lemma bread_miss s Hd Ds val L blk :
  alone pid s → binv pid (k_bcache s) (k_disk s) Hd Ds val L →
  0 ≤ blk < Z.of_nat (length (k_disk s)) → (size (Ds ∪ hblks Hd) < NBUF)%nat →
  first_buf (k_bcache s) (is_blk blk) L = None →
  ∃ b f, bread 1 blk s = Ok b (bset b f s) ∧ Hd !! b = None ∧
    binv pid (k_bcache (bset b f s)) (k_disk s) (<[b := (blk, val blk)]> Hd) Ds val L.
Proof.
  intros Hq Hi Hrng Hsz Hf. destruct (victim _ _ _ _ _ _ _ Hi Hsz) as (b & r & Hv & Hlt & Hb & Hn & Hcl).
  assert (Hno : ∀ b' r', (b' < NBUF)%nat → k_bcache s !! b' = Some r' → b_dev r' = 1 → b_blockno r' ≠ blk).
  { intros b' r' Hb' Hr' Hdev E. assert (Ht : is_blk blk r' = false).
    - eapply first_buf_None; [exact Hf| |done]. by apply (lru_elem _ _ _ (bi_lru _ _ _ _ _ _ _ Hi)).
    - unfold is_blk in Ht. by rewrite Hdev, E, !Z.eqb_refl in Ht. }
  assert (Hclean : blk ∉ Ds).
  { intros (b' & r' & ? & ? & ? & ?)%(bi_dirty _ _ _ _ _ _ _ Hi). by eapply Hno. }
  pose proof (bi_spec _ _ _ _ _ _ _ Hi b r Hlt Hb) as Hs. unfold buf_spec in Hs. rewrite Hn in Hs.
  destruct Hs as (Hrc & Hlk & _). pose proof (bi_disk _ _ _ _ _ _ _ Hi blk Hrng Hclean) as Hdisk.
  exists b, (λ r, flag_set B_VALID (set_b_data (val blk) (miss_buf blk r))). split_and!; [|done|].
  - unfold bread. run (by eapply bget_miss; [..|apply Hi| | | |]). run (apply buf_at_eq; by apply lookup_bset).
    change (flag_is B_VALID (miss_buf blk r)) with false. cbn [negb when].
    run (by eapply iderw_read; [apply alone_bset|apply lookup_bset| | | |simpl; lia|simpl]).
    by rewrite bset_bset.
  - eapply binv_update; [exact Hi|done|exact Hb|done|done|..]; simpl; try done.
    + unfold buf_spec. rewrite lookup_insert_eq. simpl. unfold vflags. by rewrite decide_False by done.
    + intros b' Hne. by rewrite lookup_insert_ne.
    + intros b' r' Hb' Hne Hr' Hdev'. split; [|done]. by eapply Hno.
    + intros k Hk. right. split; [done|]. intros Hdev ->. by apply Hcl.
    + intros k Hk Hnk. by apply (bi_disk _ _ _ _ _ _ _ Hi).
Qed.

(** bread: a locked buffer with the contents of the block. *)
Lemma bread_ok s Hd Ds val blk :
  cache s Hd Ds val → 0 ≤ blk < Z.of_nat (length (k_disk s)) → blk ∉ hblks Hd →
  blk ∈ Ds ∨ (size (Ds ∪ hblks Hd) < NBUF)%nat →
  ∃ b s', bread 1 blk s = Ok b s' ∧ Hd !! b = None ∧
    cache s' (<[b := (blk, val blk)]> Hd) Ds val ∧ same_disk s s'.
Proof.
  intros [Hq (L & Hi)] Hrng Hh Hsz. destruct (first_buf (k_bcache s) (is_blk blk) L) as [b|] eqn:Hf.
  - pose proof Hf as (Hb & r & Hr & Ht)%first_buf_Some.
    apply (lru_elem _ _ _ (bi_lru _ _ _ _ _ _ _ Hi)) in Hb.
    destruct (bread_hit s Hd Ds val L blk b r) as (E & Hn & Hi'); try done.
    eexists b, _. split_and!; [exact E|done| |done]. split; [by apply alone_bset|]. by exists L.
  - destruct Hsz as [Hdt|Hsz].
    { exfalso. destruct (bi_dirty _ _ _ _ _ _ _ Hi blk Hdt) as (b & r & Hb & Hr & Hdev & Hblk).
      assert (Ht : is_blk blk r = false).
      - eapply first_buf_None; [exact Hf| |done]. by apply (lru_elem _ _ _ (bi_lru _ _ _ _ _ _ _ Hi)).
      - unfold is_blk in Ht. by rewrite Hdev, Hblk, !Z.eqb_refl in Ht. }
    destruct (bread_miss s Hd Ds val L blk) as (b & f & E & Hn & Hi'); try done.
    eexists b, _. split_and!; [exact E|done| |done]. split; [by apply alone_bset|]. by exists L.
Qed.

(** A buffer that is held. *)
Lemma held_buf s Hd Ds val b blk v :
  cache s Hd Ds val → Hd !! b = Some (blk, v) →
  (b < NBUF)%nat ∧ ∃ r, k_bcache s !! b = Some r ∧ b_dev r = 1 ∧ b_blockno r = blk ∧ b_data r = v ∧
    b_refcnt r = 1 ∧ b_lock r = mk_sleeplock true pid ∧ b_flags r = vflags Ds blk ∧
    0 ≤ blk < Z.of_nat (length (k_disk s)).
Proof.
  intros [Hq (L & Hi)] Hb. assert (Hlt : (b < NBUF)%nat) by (apply (bi_held _ _ _ _ _ _ _ Hi); eauto).
  split; [done|]. pose proof (bi_lru _ _ _ _ _ _ _ Hi) as Hl.
  destruct (lru_buf _ _ b Hl) as [r Hr]; [right; by apply (lru_elem _ _ _ Hl)|]. exists r.
  pose proof (bi_spec _ _ _ _ _ _ _ Hi b r Hlt Hr) as Hs. unfold buf_spec in Hs. rewrite Hb in Hs.
  destruct Hs as (H1 & H2 & H3 & H4 & H5 & H6). split_and!; try done; rewrite <-H2;
    by apply (bi_range _ _ _ _ _ _ _ Hi b r Hlt Hr).
Qed.

(** The common case of an update of a held buffer: the other buffers have other blocks. *)
Lemma held_others s Hd Ds val L b r (Ds' : gset Z) (val' : Z → list Z) :
  binv pid (k_bcache s) (k_disk s) Hd Ds val L → (b < NBUF)%nat → k_bcache s !! b = Some r → b_dev r = 1 →
  (∀ k, k ≠ b_blockno r → (k ∈ Ds' ↔ k ∈ Ds) ∧ val' k = val k) →
  ∀ b' r', (b' < NBUF)%nat → b' ≠ b → k_bcache s !! b' = Some r' → b_dev r' = 1 →
    b_blockno r' ≠ b_blockno r ∧ (b_blockno r' ∈ Ds' ↔ b_blockno r' ∈ Ds) ∧ val' (b_blockno r') = val (b_blockno r').
Proof.
  intros Hi Hlt Hr Hdev Hk b' r' Hb' Hne Hr' Hdev'.
  assert (Hb : b_blockno r' ≠ b_blockno r); [|by split; [|apply Hk]].
  intros E. apply Hne. eapply (bi_uniq _ _ _ _ _ _ _ Hi b' b r' r); eauto.
Qed.

Lemma set_data_ok s Hd Ds val b blk v f (g : list Z → list Z) :
  cache s Hd Ds val → Hd !! b = Some (blk, v) → (∀ r, f r = set_b_data (g (b_data r)) r) →
  ∃ s', upd_buf b f s = Ok tt s' ∧ cache s' (<[b := (blk, g v)]> Hd) Ds val ∧ same_disk s s'.
Proof.
  intros Hc Hb Hf. destruct (held_buf _ _ _ _ _ _ _ Hc Hb) as (Hlt & r & Hr & H1 & H2 & H3 & H4 & H5 & H6 & Hrng).
  destruct Hc as [Hq (L & Hi)]. exists (bset b f s). split_and!; [by eapply upd_buf_eq| |done].
  split; [by apply alone_bset|]. exists L.
  eapply binv_update; [exact Hi|done|exact Hr|intros r0; by rewrite Hf..| | | | | | |done|];
    rewrite ?Hf; simpl; try done.
  - unfold buf_spec. rewrite lookup_insert_eq. simpl. by rewrite H3.
  - intros b' Hne. by rewrite lookup_insert_ne.
  - eapply held_others; [done..|]. intros k Hk. done.
  - by rewrite H2.
  - intros k Hk. destruct (decide (k = blk)) as [->|]; [by left|]. right. split; [done|]. congruence.
  - intros k Hk Hnk. by apply (bi_disk _ _ _ _ _ _ _ Hi).
Qed.

(** Marking a held buffer dirty makes its contents the block's contents. *)
Lemma set_dirty_ok s Hd Ds val b blk v :
  cache s Hd Ds val → Hd !! b = Some (blk, v) →
  ∃ s', upd_buf b (flag_set B_DIRTY) s = Ok tt s' ∧ cache s' Hd (Ds ∪ {[blk]}) (fupd blk v val) ∧
    same_disk s s'.
Proof.
  intros Hc Hb. destruct (held_buf _ _ _ _ _ _ _ Hc Hb) as (Hlt & r & Hr & H1 & H2 & H3 & H4 & H5 & H6 & Hrng).
  destruct Hc as [Hq (L & Hi)]. exists (bset b (flag_set B_DIRTY) s).
  split_and!; [by eapply upd_buf_eq| |done]. split; [by apply alone_bset|]. exists L.
  eapply binv_update; [exact Hi|done|exact Hr|done..| | | | | | |done|]; simpl; try done.
  - unfold buf_spec. rewrite Hb. simpl. split_and!; try done. rewrite H6. unfold vflags.
    rewrite (decide_True (P := blk ∈ Ds ∪ {[blk]})) by set_solver. by case_decide.
  - eapply held_others; [done..|]. rewrite H2. intros k Hk. split; [set_solver|by apply fupd_ne].
  - by rewrite H2.
  - intros k Hk. rewrite H2. destruct (decide (k = blk)) as [->|]; [by left|]. right. split; [set_solver|done].
  - intros k Hk Hnk. rewrite fupd_ne by set_solver. apply (bi_disk _ _ _ _ _ _ _ Hi); [done|set_solver].
Qed.

(** bwrite: the contents of a held buffer go to the disk. *)
Lemma bwrite_ok s Hd Ds val b blk v :
  cache s Hd Ds val → Hd !! b = Some (blk, v) →
  ∃ s', bwrite b s = Ok tt s' ∧ cache s' Hd (Ds ∖ {[blk]}) (fupd blk v val) ∧ same_io s s' ∧
    k_disk s' = <[Z.to_nat blk := v]> (k_disk s) ∧ k_dwrites s' = (blk, v) :: k_dwrites s.
Proof.
  intros Hc Hb. destruct (held_buf _ _ _ _ _ _ _ Hc Hb) as (Hlt & r & Hr & H1 & H2 & H3 & H4 & H5 & H6 & Hrng).
  destruct Hc as [Hq (L & Hi)].
  assert (H6' : b_flags (flag_set B_DIRTY r) = 6).
  { simpl. rewrite H6. unfold vflags. by case_decide. }
  eexists. split_and!.
  - unfold bwrite. run (by eapply holdingsleep_eq). cbn [negb]. run (by eapply upd_buf_eq).
    eapply iderw_write; [by apply alone_bset|by apply lookup_bset|done|done|done|]. simpl. by rewrite H2.
  - split; [by eapply alone_same|]. exists L. simpl. rewrite alter_alter, H2, H3.
    eapply binv_update; [exact Hi|done|exact Hr|done..| | | | | | |by rewrite length_insert|]; simpl; try done.
    + unfold buf_spec. rewrite Hb. simpl. split_and!; try done. unfold vflags. rewrite decide_False; [done|set_solver].
    + eapply held_others; [done..|]. rewrite H2. intros k Hk. split; [set_solver|by apply fupd_ne].
    + by rewrite H2.
    + intros k Hk. rewrite H2. right. split; [set_solver|]. intros _ ->. set_solver.
    + intros k Hk Hnk. destruct (decide (k = blk)) as [->|Hne].
      * rewrite list_lookup_insert_eq by lia. by rewrite fupd_eq.
      * rewrite list_lookup_insert_ne by lia. rewrite fupd_ne by done.
        apply (bi_disk _ _ _ _ _ _ _ Hi); [done|set_solver].
  - done.
  - simpl. by rewrite H2, H3.
  - simpl. by rewrite H2, H3.
Qed.

(** The pointer assignments of brelse. *)
Lemma relink_run s b bp L1 L2 :
  lru (k_bcache s) (L1 ++ b :: L2) → k_bcache s !! b = Some bp →
  (upd_buf (b_next bp) (set_b_prev (b_prev bp)) ;;
   upd_buf (b_prev bp) (set_b_next (b_next bp)) ;;
   let! h := buf_at bhead in
   upd_buf b (set_b_next (b_next h)) ;;
   upd_buf b (set_b_prev bhead) ;;
   let! h := buf_at bhead in
   upd_buf (b_next h) (set_b_prev b) ;;
   upd_buf bhead (set_b_next b)) s
  = Ok tt (set_k_bcache (link_front b (unlink_buf b (k_bcache s))) s).
Proof.
  intros Hl Hb. set (bc := k_bcache s) in *.
  assert (En : b_next bp = nx bc b) by (unfold nx; by rewrite Hb).
  assert (Ep : b_prev bp = pv bc b) by (unfold pv; by rewrite Hb).
  destruct (move_NoDup _ _ _ _ Hl) as (_ & _ & Hbh).
  assert (Hupd : ∀ i f bc', (i < S NBUF)%nat → length bc' = S NBUF →
    upd_buf i f (set_k_bcache bc' s) = Ok tt (set_k_bcache (alter f i bc') s)).
  { intros i f bc' Hi Hl'. destruct (lookup_lt_is_Some_2 bc' i) as [r Hr]; [lia|].
    rewrite (upd_buf_eq _ _ r) by done. done. }
  assert (Hat : ∀ bc', length bc' = S NBUF →
    ∃ h, buf_at bhead (set_k_bcache bc' s) = Ok h (set_k_bcache bc' s) ∧ b_next h = nx bc' bhead).
  { intros bc' Hl'. destruct (lookup_lt_is_Some_2 bc' bhead) as [h Hh]; [unfold bhead; lia|].
    exists h. split; [by apply buf_at_eq|]. unfold nx. by rewrite Hh. }
  assert (Hlt : ∀ y, y ∈ bhead :: L1 ++ L2 → (y < S NBUF)%nat).
  { intros y Hy. rewrite <-(lru_len _ _ Hl). apply lookup_lt_is_Some, (lru_buf _ _ _ Hl).
    rewrite !elem_of_cons, !elem_of_app, elem_of_cons in *. tauto. }
  assert (Hnl : (nx bc b < S NBUF)%nat).
  { apply Hlt. eapply (move_in L1 L2 _ L2); [|by left|by eapply move_next].
    intros y Hy. apply elem_of_app. by right. }
  assert (Hpl : (pv bc b < S NBUF)%nat).
  { apply Hlt. eapply (move_in L1 L2 _ L1); [|by right|by eapply move_prev].
    intros y Hy. apply elem_of_app. by left. }
  destruct (unlink_chains _ _ _ _ Hl) as [Hc1 _].
  assert (Hql : (nx (unlink_buf b bc) bhead < S NBUF)%nat).
  { apply Hlt. eapply (move_in L1 L2 _ (L1 ++ L2)); [done|by left|]. by apply chain_head. }
  assert (Hbl : (b < S NBUF)%nat) by (pose proof (lookup_lt_Some _ _ _ Hb); by rewrite <-(lru_len _ _ Hl)).
  assert (Hlen : length bc = S NBUF) by apply Hl.
  replace s with (set_k_bcache bc s) at 1 by by destruct s.
  rewrite En, Ep. run (by apply Hupd). run (by apply Hupd; rewrite ?length_alter).
  fold (unlink_buf b bc). set (bc2 := unlink_buf b bc) in *.
  assert (Hlen2 : length bc2 = S NBUF) by (unfold bc2, unlink_buf; by rewrite !length_alter).
  destruct (Hat bc2 Hlen2) as (h & Hh & Eh). run exact Hh. rewrite Eh.
  run (by apply Hupd). run (by apply Hupd; rewrite ?length_alter).
  destruct (Hat (alter (set_b_prev bhead) b (alter (set_b_next (nx bc2 bhead)) b bc2))) as (h' & Hh' & Eh').
  { by rewrite !length_alter. }
  run exact Hh'. assert (Enx : b_next h' = nx bc2 bhead).
  { rewrite Eh', nx_keep by done. destruct (lookup_lt_is_Some_2 bc2 b) as [r Hr]; [lia|].
    erewrite nx_alter by exact Hr. apply fupd_ne.
    apply not_elem_of_cons in Hbh as [Hbh _]. congruence. }
  rewrite Enx. run (by apply Hupd; rewrite ?length_alter). 
  rewrite Hupd; [done|unfold bhead; lia|by rewrite !length_alter].
Qed.

(** brelse: a held buffer whose contents are the block's is given back. *)
Lemma brelse_ok s Hd Ds val b blk :
  cache s Hd Ds val → Hd !! b = Some (blk, val blk) →
  ∃ s', brelse b s = Ok tt s' ∧ cache s' (delete b Hd) Ds val ∧ same_disk s s'.
Proof.
  intros Hc Hb. destruct (held_buf _ _ _ _ _ _ _ Hc Hb) as (Hlt & r & Hr & H1 & H2 & H3 & H4 & H5 & H6 & Hrng).
  destruct Hc as [Hq (L & Hi)]. set (f := λ r, set_b_refcnt (b_refcnt r - 1) (unlock_buf r)).
  assert (Hi1 : binv pid (k_bcache (bset b f s)) (k_disk s) (delete b Hd) Ds val L).
  { eapply binv_update; [exact Hi|done|exact Hr|done..| | | | | | |done|]; simpl; try done.
    - unfold buf_spec. rewrite lookup_delete_eq. simpl. rewrite H4. split_and!; try done.
      right. rewrite H2. done.
    - intros b' Hne. by rewrite lookup_delete_ne.
    - by eapply held_others.
    - by rewrite H2.
    - intros k Hk. rewrite H2. destruct (decide (k = blk)) as [->|]; [by left|]. right. by split.
    - intros k Hk Hnk. by apply (bi_disk _ _ _ _ _ _ _ Hi). }
  pose proof (bi_lru _ _ _ _ _ _ _ Hi1) as Hl1.
  assert (HbL : b ∈ L) by by apply (lru_elem _ _ _ Hl1).
  apply list_elem_of_split in HbL as (L1 & L2 & ->).
  set (bc' := link_front b (unlink_buf b (k_bcache (bset b f s)))).
  exists (set_k_bcache bc' s). split_and!; [| |done].
  - unfold brelse. run (by eapply holdingsleep_eq). cbn [negb]. run (by eapply releasesleep_eq).
    run (by eapply acquire_alone, alone_bset). run (eapply upd_buf_eq; by apply lookup_bset).
    rewrite <-(bset_locked b unlock_buf), bset_bset. fold f.
    run (apply buf_at_eq; by apply lookup_bset). simpl b_refcnt. rewrite H4. cbn [Z.eqb Z.sub Z.add Z.opp Z.pos_sub when].
    run (apply (relink_run _ b (f r) L1 L2); [exact Hl1|by apply lookup_bset]).
    erewrite (release_calm LK_bcache s); [by destruct s|apply Hq| |done|done].
    rewrite (qu_held _ _ Hq). apply not_elem_of_nil.
  - split; [by eapply alone_same|]. eexists. eapply binv_relink; [apply link_core|by apply lru_front|exact Hi1].
Qed.

(** ** binit *)

(** The static data of bio.c, or any cache that holds no block. *)
Definition no_blocks (bc : list buf) : Prop :=
  length bc = S NBUF ∧
  ∀ b r, (b < NBUF)%nat → bc !! b = Some r → b_dev r = 0 ∧ b_flags r = 0 ∧ b_refcnt r = 0.

(** The cache after the first [i] iterations of [binit]. *)
Record binit_inv (s0 : kernel) (i : nat) (s : kernel) : Prop := {
  bn_io : s = set_k_bcache (k_bcache s) s0;
  bn_blocks : no_blocks (k_bcache s);
  bn_next : chain (nx (k_bcache s)) bhead (reverse (seq 0 i)) bhead;
  bn_prev : chain (pv (k_bcache s)) bhead (reverse (reverse (seq 0 i))) bhead;
  bn_lock b r : (b < i)%nat → k_bcache s !! b = Some r → sl_locked (b_lock r) = false;
}.

Lemma initsleeplock_eq s b r :
  k_bcache s !! b = Some r → initsleeplock (SL_buf b) s = Ok tt (bset b unlock_buf s).
Proof.
  intros Hb. unfold initsleeplock. run (by eapply upd_sl_eq).
  erewrite upd_sl_eq by by apply lookup_bset. by rewrite bset_bset.
Qed.

Lemma alter_ext_at {A} (f g : A → A) (l : list A) i :
  (∀ x, l !! i = Some x → f x = g x) → alter f i l = alter g i l.
Proof.
  intros Hfg. destruct (l !! i) as [x|] eqn:E; [by rewrite !(alter_insert_eq _ _ _ _ E), Hfg|].
  apply list_eq. intros j. destruct (decide (j = i)) as [->|Hj].
  - by rewrite !list_lookup_alter_eq, E.
  - by rewrite !list_lookup_alter_ne.
Qed.

Lemma lookup_link_front b bc y r :
  link_front b bc !! y = Some r → ∃ r0, bc !! y = Some r0 ∧ core r = core r0.
Proof.
  apply same_core_lookup. unfold link_front.
  repeat (eapply same_core_trans; [|apply core_alter; by intros []]). done.
Qed.

Lemma binit_step s0 i s :
  (i < NBUF)%nat → binit_inv s0 i s →
  ∃ s', (let! h := buf_at bhead in
    upd_buf i (set_b_next (b_next h)) ;;
    upd_buf i (set_b_prev bhead) ;;
    initsleeplock (SL_buf i) ;;
    let! h := buf_at bhead in
    upd_buf (b_next h) (set_b_prev i) ;;
    upd_buf bhead (set_b_next i)) s = Ok tt s' ∧ binit_inv s0 (S i) s'.
Proof.
  intros Hi [Eio [Hlen Hblk] Hn Hp Hlk]. set (bc := k_bcache s) in *.
  destruct (lookup_lt_is_Some_2 bc bhead) as [h Hh]; [rewrite Hlen; unfold bhead; lia|].
  destruct (lookup_lt_is_Some_2 bc i) as [r Hr]; [lia|].
  assert (Hbi : bhead ≠ i) by (unfold bhead; lia).
  assert (Enx : b_next h = nx bc bhead) by (unfold nx; by rewrite Hh).
  set (bc1 := alter unlock_buf i bc).
  assert (E1 : alter unlock_buf i (alter (set_b_prev bhead) i (alter (set_b_next (nx bc bhead)) i bc)) =
    alter (set_b_prev bhead) i (alter (set_b_next (nx bc bhead)) i bc1)).
  { unfold bc1. by rewrite !alter_alter. }
  assert (Enx1 : nx bc1 bhead = nx bc bhead) by (unfold bc1; by apply nx_keep).
  assert (Hq : (nx bc bhead < S NBUF)%nat).
  { rewrite (chain_head _ _ _ _ Hn). destruct (reverse (seq 0 i)) as [|y l] eqn:E; simpl; [unfold bhead; lia|].
    assert (Hy : y ∈ reverse (seq 0 i)) by (rewrite E; by left). rewrite elem_of_reverse, elem_of_seq in Hy. lia. }
  exists (set_k_bcache (link_front i bc1) s). split.
  - run (by apply buf_at_eq). rewrite Enx. run (by eapply upd_buf_eq).
    run (eapply upd_buf_eq; by apply lookup_bset).
    run (eapply initsleeplock_eq; rewrite bset_bset; by apply lookup_bset).
    replace (bset i unlock_buf _) with (set_k_bcache (alter (set_b_prev bhead) i (alter (set_b_next (nx bc bhead)) i bc1)) s)
      by (unfold bset; simpl; fold bc; by rewrite E1).
    set (bc2 := alter (set_b_prev bhead) i (alter (set_b_next (nx bc bhead)) i bc1)).
    assert (Hh2 : bc2 !! bhead = Some h) by (unfold bc2, bc1; by rewrite !list_lookup_alter_ne by done).
    run (by apply buf_at_eq). rewrite Enx.
    destruct (lookup_lt_is_Some_2 bc2 (nx bc bhead)) as [q Hq2]; [unfold bc2, bc1; by rewrite !length_alter, Hlen|].
    run (by eapply upd_buf_eq). destruct (lookup_lt_is_Some_2 (alter (set_b_prev i) (nx bc bhead) bc2) bhead) as [q3 Hq3].
    { unfold bc2, bc1. rewrite !length_alter, Hlen. unfold bhead. lia. }
    erewrite upd_buf_eq by exact Hq3. unfold bset, link_front. simpl. by rewrite Enx1.
  - assert (Hcore : ∀ y r', link_front i bc1 !! y = Some r' → ∃ r0, bc1 !! y = Some r0 ∧ core r' = core r0).
    { intros y r'. apply lookup_link_front. }
    assert (Hf : chain (nx (link_front i bc1)) bhead (i :: reverse (seq 0 i)) bhead ∧
      chain (pv (link_front i bc1)) bhead (reverse (i :: reverse (seq 0 i))) bhead).
    { apply front_chains.
      - unfold bc1. by rewrite length_alter.
      - constructor; [rewrite elem_of_reverse, elem_of_seq; unfold bhead; lia|].
        rewrite reverse_Permutation. apply NoDup_seq.
      - apply not_elem_of_cons. split; [done|]. rewrite elem_of_reverse, elem_of_seq. lia.
      - intros y. rewrite !elem_of_cons, elem_of_reverse, elem_of_seq. unfold bhead. lia.
      - eapply chain_ext; [|exact Hn]. intros z _. symmetry. by apply nx_keep.
      - eapply chain_ext; [|exact Hp]. intros z _. symmetry. by apply pv_keep. }
    split; cbn [k_bcache set_k_bcache].
    + rewrite Eio. by destruct s0.
    + split; [unfold link_front, bc1; by rewrite !length_alter|]. intros b r' Hb (r0 & Hr0 & (-> & -> & _ & _ & -> & _)%core_fields)%Hcore.
      unfold bc1 in Hr0. destruct (decide (b = i)) as [->|Hne].
      * rewrite list_lookup_alter_eq, Hr in Hr0. injection Hr0 as <-. simpl. by apply (Hblk i).
      * rewrite list_lookup_alter_ne in Hr0 by done. by apply (Hblk b).
    + rewrite seq_S, reverse_snoc. apply Hf.
    + rewrite seq_S, reverse_snoc. apply Hf.
    + intros b r' Hb (r0 & Hr0 & (_ & _ & _ & -> & _)%core_fields)%Hcore. unfold bc1 in Hr0.
      destruct (decide (b = i)) as [->|Hne].
      * rewrite list_lookup_alter_eq, Hr in Hr0. by injection Hr0 as <-.
      * rewrite list_lookup_alter_ne in Hr0 by done. apply (Hlk b); [lia|done].
Qed.

Lemma binit_run s : no_blocks (k_bcache s) → ∃ s', binit s = Ok tt s' ∧ binit_inv s NBUF s'.
Proof.
  intros [Hlen Hblk]. destruct (lookup_lt_is_Some_2 (k_bcache s) bhead) as [h Hh]; [rewrite Hlen; unfold bhead; lia|].
  unfold binit. run (by eapply upd_buf_eq). run (eapply upd_buf_eq; by apply lookup_bset). rewrite bset_bset.
  set (s1 := bset bhead _ s).
  eapply (for_each_inv (seq 0 NBUF) _ (binit_inv s)).
  - intros i x s2 [-> Hi]%lookup_seq. by apply binit_step.
  - assert (Hne : ∀ b r, (b < NBUF)%nat → k_bcache s1 !! b = Some r → k_bcache s !! b = Some r).
    { intros b r Hb. unfold s1, bset. simpl. rewrite list_lookup_alter_ne by (unfold bhead; lia). done. }
    split; [by destruct s| | | |lia].
    + split; [unfold s1, bset; simpl; by rewrite length_alter|]. intros b r Hb Hr. by eapply Hblk, Hne.
    + simpl. unfold s1, bset, nx. simpl. by rewrite list_lookup_alter_eq, Hh.
    + simpl. unfold s1, bset, pv. simpl. by rewrite list_lookup_alter_eq, Hh.
Qed.

(** The contents of a disk. *)
Definition contents (d : list (list Z)) (blk : Z) : list Z := default [] (d !! Z.to_nat blk).

(** binit sets up an empty cache. *)
Lemma binit_cache s :
  alone pid s → no_blocks (k_bcache s) →
  ∃ s', binit s = Ok tt s' ∧ cache s' ∅ ∅ (contents (k_disk s)) ∧ same_disk s s'.
Proof.
  intros Hq Hb. destruct (binit_run s Hb) as (s' & E & [Eio [Hlen Hblk] Hn Hp Hlk]).
  exists s'. split_and!; [done| |rewrite Eio; by apply same_disk_set].
  split; [rewrite Eio; by eapply alone_same|]. exists (reverse (seq 0 NBUF)).
  assert (Hno : ∀ b r, (b < NBUF)%nat → k_bcache s' !! b = Some r → b_dev r ≠ 1).
  { intros b r Hb' Hr. destruct (Hblk b r Hb' Hr) as (-> & _). lia. }
  split.
  - split; [done|by rewrite reverse_Permutation|done|done].
  - intros b r Hb' Hr. unfold buf_spec. rewrite lookup_empty.
    destruct (Hblk b r Hb' Hr) as (H1 & H2 & H3). split_and!; [done|by apply (Hlk b)|by left].
  - intros b [x Hx]. by rewrite lookup_empty in Hx.
  - intros b b' r r' Hb1 _ Hr _ Hd. by destruct (Hno b r Hb1 Hr).
  - intros blk Hblk'. by apply not_elem_of_empty in Hblk'.
  - intros b r Hb1 Hr Hd. by destruct (Hno b r Hb1 Hr).
  - intros blk Hr _. assert (Ed : k_disk s' = k_disk s) by by rewrite Eio. rewrite Ed in *.
    unfold contents. destruct (lookup_lt_is_Some_2 (k_disk s) (Z.to_nat blk)) as [v ->]; [lia|done].
Qed.
End ops.

(** ** What the cache promises to its clients

    The operations of bio.c, run by process [pid] with nobody else in the way, keep
    [cached]: the buffers [pid] holds with their contents, the set of dirty blocks,
    and the contents of every block. *)
Class BlockCache `{Env} (pid : Z) := {
  cached : kernel → holds → gset Z → (Z → list Z) → Prop;
  cached_alone s Hd Ds val : cached s Hd Ds val → alone pid s;
  cached_same s s' Hd Ds val :
    cached s Hd Ds val → k_bcache s' = k_bcache s → k_disk s' = k_disk s → k_cpu s' = k_cpu s →
    k_held s' = k_held s → k_ptable s' = k_ptable s → cached s' Hd Ds val;
  cached_disk s Hd Ds val blk :
    cached s Hd Ds val → 0 ≤ blk < Z.of_nat (length (k_disk s)) → blk ∉ Ds →
    k_disk s !! Z.to_nat blk = Some (val blk);
  cached_at s Hd Ds val b blk v :
    cached s Hd Ds val → Hd !! b = Some (blk, v) →
    ∃ r, buf_at b s = Ok r s ∧ b_data r = v ∧ b_blockno r = blk;
  cached_read s Hd Ds val blk :
    cached s Hd Ds val → 0 ≤ blk < Z.of_nat (length (k_disk s)) → blk ∉ hblks Hd →
    blk ∈ Ds ∨ (size (Ds ∪ hblks Hd) < NBUF)%nat →
    ∃ b s', bread 1 blk s = Ok b s' ∧ Hd !! b = None ∧
      cached s' (<[b := (blk, val blk)]> Hd) Ds val ∧ same_disk s s';
  cached_set s Hd Ds val b blk v f (g : list Z → list Z) :
    cached s Hd Ds val → Hd !! b = Some (blk, v) → (∀ r, f r = set_b_data (g (b_data r)) r) →
    ∃ s', upd_buf b f s = Ok tt s' ∧ cached s' (<[b := (blk, g v)]> Hd) Ds val ∧ same_disk s s';
  cached_dirty s Hd Ds val b blk v :
    cached s Hd Ds val → Hd !! b = Some (blk, v) →
    ∃ s', upd_buf b (flag_set B_DIRTY) s = Ok tt s' ∧ cached s' Hd (Ds ∪ {[blk]}) (fupd blk v val) ∧
      same_disk s s';
  cached_write s Hd Ds val b blk v :
    cached s Hd Ds val → Hd !! b = Some (blk, v) →
    ∃ s', bwrite b s = Ok tt s' ∧ cached s' Hd (Ds ∖ {[blk]}) (fupd blk v val) ∧ same_io s s' ∧
      k_disk s' = <[Z.to_nat blk := v]> (k_disk s) ∧ k_dwrites s' = (blk, v) :: k_dwrites s;
  cached_release s Hd Ds val b blk :
    cached s Hd Ds val → Hd !! b = Some (blk, val blk) →
    ∃ s', brelse b s = Ok tt s' ∧ cached s' (delete b Hd) Ds val ∧ same_disk s s';
}.

(** bio.c on memide.c keeps the promise. *)
Program Definition memide_cache `{Env} (pid : Z) (Hdrv : DRIVER = MEMIDE) (Hfuel : (0 < FUEL)%nat) :
    BlockCache pid := {| cached := cache pid |}.
Next Obligation. intros H pid Hdrv Hfuel s Hd Ds val [Hq _]. exact Hq. Qed.
Next Obligation.
  intros H pid Hdrv Hfuel s s' Hd Ds val [Hq (L & Hi)] E1 E2 E3 E4 E5. split; [by eapply alone_same|].
  exists L. by rewrite E1, E2.
Qed.
Next Obligation. intros H pid Hdrv Hfuel s Hd Ds val blk [_ (L & Hi)]. apply (bi_disk _ _ _ _ _ _ _ Hi). Qed.
Next Obligation.
  intros H pid Hdrv Hfuel s Hd Ds val b blk v Hc Hb.
  destruct (held_buf _ _ _ _ _ _ _ _ Hc Hb) as (_ & r & Hr & _ & H2 & H3 & _).
  exists r. split_and!; [by apply buf_at_eq|done..].
Qed.
Next Obligation. intros. by apply bread_ok. Qed.
Next Obligation. intros. by eapply set_data_ok. Qed.
Next Obligation. intros. by eapply set_dirty_ok. Qed.
Next Obligation. intros. by eapply bwrite_ok. Qed.
Next Obligation. intros. by eapply brelse_ok. Qed.
