(* ===== verification/MainThm.v ===== *)
(** * MainThm: what starting the kernel sets up (main.c and the drivers it calls)

    The gates of the interrupt table, and the routes of the I/O APIC after the drivers'
    initialisers have run. *)

From stdpp Require Import base numbers gmap strings option list.
From S2P Require Import Prelude Format Machine Boot Mem Mlfq ProcCore Kalloc Vm Sleeplock Apic Mp Ide.
From S2P Require Import Bio Log Inode Console Screen Trap Main BioThm.
Local Open Scope kernel_scope.
Local Open Scope Z_scope.

(** ** Gates *)

(** The address of a gate's handler. *)
Definition gate_offset (g : gatedesc) : Z := gd_off_31_16 g * 2 ^ 16 + gd_off_15_0 g.

Lemma gate_offset_SETGATE b sel off d : gate_offset (SETGATE b sel off d) = u32 off.
Proof.
  unfold gate_offset. cbn [gd_off_31_16 gd_off_15_0 SETGATE].
  change 0xffff with (Z.ones 16). rewrite Z.shiftr_div_pow2, Z.land_ones by lia.
  pose proof (Z.div_mod (u32 off) (2 ^ 16)). lia.
Qed.

Section gates.
Context `{Env}.

Definition idt_upto (n : nat) (idt : list gatedesc) : list gatedesc :=
  ((λ v, SETGATE false (Z.shiftl SEG_KCODE 3) v 0) <$> take n vectors) ++ drop n idt.

Lemma tvinit_eq s vsys :
  length vectors = 256%nat → length (h_idt (k_hw s)) = 256%nat →
  vectors !! Z.to_nat T_SYSCALL = Some vsys →
  tvinit s = Ok tt (set_k_hw (set_h_idt
    (<[Z.to_nat T_SYSCALL := SETGATE true (Z.shiftl SEG_KCODE 3) vsys DPL_USER]>
       (idt_upto 256 (h_idt (k_hw s)))) (k_hw s)) s).
Proof.
  intros Hv Hi Hs. unfold tvinit. set (body := λ i : Z, _).
  pose proof (for_each_states (seqZ 0 256) body
    (λ n, set_k_hw (set_h_idt (idt_upto n (h_idt (k_hw s))) (k_hw s)) s)) as G.
  rewrite length_seqZ in G. change (Z.to_nat 256) with 256%nat in G.
  replace (set_k_hw (set_h_idt (idt_upto 0 _) _) s) with s in G
    by (destruct s as [? ? ? ? ? ? ? ? ? ? ? ? ? ? ? ? ? ? ? ? ? ? ? ? ? ? ? ? ? ? ? []]; done).
  erewrite bind_Ok.
  2:{ apply G. intros i x [-> Hx]%lookup_seqZ. subst body. cbv beta. rewrite Z.add_0_l.
      destruct (lookup_lt_is_Some_2 vectors i) as [v Ev]; [lia|].
      erewrite bind_Ok by by apply arr_get_eq.
      rewrite Nat2Z.id.
      assert (Eidt : <[i := SETGATE false (Z.shiftl SEG_KCODE 3) v 0]> (idt_upto i (h_idt (k_hw s)))
        = idt_upto (S i) (h_idt (k_hw s))); [|rewrite <-Eidt; reflexivity].
      unfold idt_upto. rewrite (take_S_r _ _ _ Ev), fmap_app, <-app_assoc.
      rewrite insert_app_r_alt by (rewrite length_fmap, length_take; lia).
      rewrite length_fmap, length_take, Nat.min_l, Nat.sub_diag by lia.
      destruct (lookup_lt_is_Some_2 (h_idt (k_hw s)) i) as [g Eg]; [lia|].
      by rewrite (drop_S _ _ _ Eg). }
  erewrite bind_Ok by exact (arr_get_eq _ (Z.to_nat T_SYSCALL) _ _ Hs). reflexivity.
Qed.
End gates.

(** ** Routes

    The I/O APIC: a store to its first word selects a register, and its fifth word is
    the register.  Registers 0x10 + 2 irq and the next one route interrupt [irq]. *)
Fixpoint ioapic_sel (io : list ioevent) : Z :=
  match io with
  | [] => 0
  | IoStore a v :: io' => if a =? IOAPIC then v else ioapic_sel io'
  | _ :: io' => ioapic_sel io'
  end.
Fixpoint ioapic_reg (init : Z → Z) (r : Z) (io : list ioevent) : Z :=
  match io with
  | [] => init r
  | IoStore a v :: io' =>
      if (a =? IOAPIC + 16) && (ioapic_sel io' =? r) then v else ioapic_reg init r io'
  | _ :: io' => ioapic_reg init r io'
  end.

Definition port_event (e : ioevent) : Prop :=
  match e with IoIn _ _ | IoOut _ _ => True | _ => False end.
Lemma ioapic_ports init r evs io :
  Forall port_event evs → ioapic_reg init r (evs ++ io) = ioapic_reg init r io.
Proof. induction 1 as [|e evs He _ IH]; [done|]. by destruct e. Qed.

Section routes.
Context `{Env} (init : Z → Z).

Definition low (irq : Z) (io : list ioevent) : Z := ioapic_reg init (REG_TABLE + 2 * irq) io.
Definition high (irq : Z) (io : list ioevent) : Z := ioapic_reg init (REG_TABLE + 2 * irq + 1) io.

(** The accesses of [ioapicwrite]. *)
Definition wrote (r d : Z) (io : list ioevent) : list ioevent :=
  IoStore (IOAPIC + 16) (u32 d) :: IoStore IOAPIC (u32 r) :: io.

Lemma ioapicwrite_eq r d s :
  h_ioapic (k_hw s) = IOAPIC → ioapicwrite r d s = Ok tt (set_k_io (wrote r d (k_io s)) s).
Proof.
  intros Hi. unfold ioapicwrite. erewrite bind_Ok by reflexivity. rewrite Hi.
  erewrite bind_Ok by apply mmio_write_eq. by rewrite mmio_write_eq.
Qed.

Lemma ioapic_wrote r r' d io :
  0 ≤ r < 2 ^ 32 → ioapic_reg init r' (wrote r d io) = if r =? r' then u32 d else ioapic_reg init r' io.
Proof.
  intros Hr. unfold wrote. cbn [ioapic_reg ioapic_sel].
  rewrite !Z.eqb_refl, (u32_small r) by done. cbn [andb].
  destruct (r =? r'); [done|]. by change (IOAPIC =? IOAPIC + 16) with false.
Qed.

(** The two registers of [irq] are set, the others are not touched. *)
Definition routed (irq lo hi : Z) (io : list ioevent) : list ioevent :=
  wrote (REG_TABLE + 2 * irq + 1) hi (wrote (REG_TABLE + 2 * irq) lo io).

Lemma low_routed irq irq' lo hi io :
  0 ≤ irq < 2 ^ 16 → 0 ≤ lo < 2 ^ 32 →
  low irq' (routed irq lo hi io) = if irq =? irq' then lo else low irq' io.
Proof.
  intros Hi Hlo. unfold low, routed. rewrite !ioapic_wrote by lia.
  rewrite (proj2 (Z.eqb_neq (16 + 2 * irq + 1) _)) by lia.
  destruct (Z.eqb_spec irq irq') as [->|]; [by rewrite Z.eqb_refl, u32_small|].
  by rewrite (proj2 (Z.eqb_neq _ _)) by lia.
Qed.

Lemma high_routed irq irq' lo hi io :
  0 ≤ irq < 2 ^ 16 →
  high irq' (routed irq lo hi io) = if irq =? irq' then u32 hi else high irq' io.
Proof.
  intros Hi. unfold high, routed. rewrite !ioapic_wrote by lia.
  rewrite (proj2 (Z.eqb_neq (16 + 2 * irq) _)) by lia.
  destruct (Z.eqb_spec irq irq') as [->|]; [by rewrite Z.eqb_refl|].
  by rewrite (proj2 (Z.eqb_neq _ _)) by lia.
Qed.

Lemma ioapicenable_eq irq cpu s :
  h_ioapic (k_hw s) = IOAPIC →
  ioapicenable irq cpu s = Ok tt (set_k_io (routed irq (T_IRQ0 + irq) (Z.shiftl cpu 24) (k_io s)) s).
Proof.
  intros Hi. unfold ioapicenable. erewrite bind_Ok by by apply ioapicwrite_eq.
  by rewrite ioapicwrite_eq.
Qed.

Definition masked (irq : Z) : Z := Z.lor INT_DISABLED (T_IRQ0 + irq).
Lemma masked_range irq : 0 ≤ irq < 2 ^ 8 → 0 ≤ masked irq < 2 ^ 32.
Proof.
  intros Hi.
  assert (G : Forall (λ irq, 0 ≤ masked irq < 2 ^ 32) (seqZ 0 256)).
  { apply (bool_decide_unpack _). by vm_compute. }
  rewrite Forall_forall in G. apply G, elem_of_seqZ. lia.
Qed.
Lemma vector_of irq :
  0 ≤ irq < 224 → Z.land (masked irq) INT_DISABLED ≠ 0 ∧ Z.land (masked irq) 0xff = T_IRQ0 + irq ∧
    Z.land (T_IRQ0 + irq) 0xff = T_IRQ0 + irq ∧ Z.land (T_IRQ0 + irq) INT_DISABLED = 0.
Proof.
  intros Hi.
  assert (G : Forall (λ irq, Z.land (masked irq) INT_DISABLED ≠ 0 ∧ Z.land (masked irq) 0xff = T_IRQ0 + irq ∧
    Z.land (T_IRQ0 + irq) 0xff = T_IRQ0 + irq ∧ Z.land (T_IRQ0 + irq) INT_DISABLED = 0) (seqZ 0 224)).
  { apply (bool_decide_unpack _). by vm_compute. }
  rewrite Forall_forall in G. apply G, elem_of_seqZ. lia.
Qed.

(** The version register tells the number of routes. *)
Definition reports (maxintr : Z) : Prop :=
  ∀ io, ioapic_sel io = REG_VER →
    Z.land (Z.shiftr (u32 (mmio_in (IOAPIC + 16) io)) 16) 0xFF = maxintr.

(** The registers after [ioapicinit]: every interrupt is masked. *)
Definition all_masked (n : Z) (io : list ioevent) : Prop :=
  ∀ irq, 0 ≤ irq < n → low irq io = masked irq ∧ high irq io = 0.

Lemma mask_loop s n :
  h_ioapic (k_hw s) = IOAPIC → 0 ≤ n ≤ 256 →
  ∃ io, for_each (seqZ 0 n) (λ i,
      ioapicwrite (REG_TABLE + 2 * i) (Z.lor INT_DISABLED (T_IRQ0 + i)) ;;
      ioapicwrite (REG_TABLE + 2 * i + 1) 0) s = Ok tt (set_k_io io s) ∧ all_masked n io.
Proof.
  intros Hi Hn.
  destruct (for_each_inv (seqZ 0 n) (λ i,
      ioapicwrite (REG_TABLE + 2 * i) (Z.lor INT_DISABLED (T_IRQ0 + i)) ;;
      ioapicwrite (REG_TABLE + 2 * i + 1) 0)
    (λ k s', ∃ io, s' = set_k_io io s ∧ all_masked (Z.of_nat k) io) s) as (s' & E & io & -> & Hm).
  - intros k x s' [-> Hk]%lookup_seqZ (io & -> & Hm). rewrite Z.add_0_l.
    exists (set_k_io (routed (Z.of_nat k) (masked (Z.of_nat k)) 0 io) s). split.
    + erewrite bind_Ok by by apply ioapicwrite_eq. by rewrite ioapicwrite_eq.
    + eexists. split; [reflexivity|]. intros irq Hirq.
      pose proof (masked_range (Z.of_nat k) ltac:(lia)) as Hr.
      rewrite low_routed, high_routed by lia.
      destruct (Z.eqb_spec (Z.of_nat k) irq) as [<-|]; [done|]. apply Hm. lia.
  - exists (k_io s). split; [by destruct s|]. intros irq Hirq. lia.
  - exists io. rewrite length_seqZ, Z2Nat.id in Hm by lia. done.
Qed.

Lemma ioapicinit_ok s maxintr :
  reports maxintr → 0 ≤ maxintr < 256 → k_locking s = false →
  ∃ out io, ioapicinit s = Ok tt (set_k_io io (set_k_out out
      (set_k_hw (set_h_ioapic IOAPIC (k_hw s)) s))) ∧ all_masked (maxintr + 1) io.
Proof.
  intros Hv Hmax Hlock. unfold ioapicinit. erewrite bind_Ok by reflexivity.
  set (s1 := set_k_hw _ s).
  assert (Er : ∀ r s0, h_ioapic (k_hw s0) = IOAPIC → ∃ v io, ioapicread r s0 = Ok v (set_k_io io s0) ∧
    v = u32 (mmio_in (IOAPIC + 16) (IoStore IOAPIC (u32 r) :: k_io s0))).
  { intros r s0 Hi. unfold ioapicread. eexists _, _. erewrite bind_Ok by reflexivity. rewrite Hi.
    erewrite bind_Ok by apply mmio_write_eq. rewrite mmio_read_eq. done. }
  destruct (Er REG_VER s1 eq_refl) as (ver & io1 & E1 & Ever). erewrite bind_Ok by exact E1.
  assert (Emax : Z.land (Z.shiftr ver 16) 0xFF = maxintr) by (rewrite Ever; by apply Hv).
  rewrite Emax. destruct (Er REG_ID (set_k_io io1 s1) eq_refl) as (id & io2 & E2 & _).
  cbv zeta. erewrite bind_Ok by exact E2. change (set_k_io io2 (set_k_io io1 s1)) with (set_k_io io2 s1).
  erewrite bind_Ok by reflexivity.
  assert (Ep : ∃ out, when (negb (Z.shiftr id 24 =? h_ioapicid (k_hw (set_k_io io2 s1))))
    (cprintf "ioapicinit: id isn't equal to ioapicid; not a MP\n" []) (set_k_io io2 s1) =
    Ok tt (set_k_out out (set_k_io io2 s1))).
  { destruct (negb _); [|exists (k_out s); by destruct s]. eexists. cbn [when]. unfold cprintf.
    erewrite bind_Ok by reflexivity. cbn [k_locking set_k_io s1 set_k_hw]. rewrite Hlock. reflexivity. }
  destruct Ep as (out & Ep). erewrite bind_Ok by exact Ep.
  destruct (mask_loop (set_k_out out (set_k_io io2 s1)) (maxintr + 1) eq_refl ltac:(lia)) as (io & E & Hm).
  exists out, io. split; [|done]. rewrite E. reflexivity.
Qed.

(** [uartinit] uses the ports, and routes the serial interrupt if it finds the port. *)
Lemma uartinit_ok s :
  h_ioapic (k_hw s) = IOAPIC → k_uart s = false →
  ∃ uart io, uartinit s = Ok tt (set_k_io io (set_k_uart uart s)) ∧
    ∀ irq, 0 ≤ irq →
      low irq io = (if uart && (irq =? IRQ_COM1) then T_IRQ0 + irq else low irq (k_io s)) ∧
      high irq io = (if uart && (irq =? IRQ_COM1) then 0 else high irq (k_io s)).
Proof.
  intros Hi Hu.
  set (setup := [IoOut (COM1 + 1) 1; IoOut (COM1 + 4) 0; IoOut (COM1 + 3) 3; IoOut (COM1 + 1) 0;
    IoOut (COM1 + 0) 12; IoOut (COM1 + 3) 0x80; IoOut (COM1 + 2) 0] ++ k_io s).
  set (st := u8 (port_in (COM1 + 5) setup)).
  set (io1 := IoIn (COM1 + 5) st :: setup). set (v2 := u8 (port_in (COM1 + 2) io1)).
  set (io2 := IoIn (COM1 + 2) v2 :: io1). set (io3 := IoIn (COM1 + 0) (u8 (port_in (COM1 + 0) io2)) :: io2).
  assert (Eio : ∀ r, ioapic_reg init r io1 = ioapic_reg init r (k_io s) ∧
    ioapic_reg init r io3 = ioapic_reg init r (k_io s)) by done.
  assert (E : uartinit s = (if st =? 0xFF then ret tt else
    modify (set_k_uart true) ;; inb (COM1 + 2) ;; inb (COM1 + 0) ;; ioapicenable IRQ_COM1 0 ;;
    for_each (chars "xv6...\n") uartputc) (set_k_io io1 s)) by reflexivity.
  rewrite E. destruct (st =? 0xFF).
  - exists false, io1. split; [by rewrite <-Hu; destruct s|]. intros irq Hirq. unfold low, high.
    cbn [andb]. by rewrite !(proj1 (Eio _)).
  - set (s3 := set_k_io io3 (set_k_uart true s)).
    erewrite bind_Ok by reflexivity. do 2 (erewrite bind_Ok by apply inb_eq).
    erewrite bind_Ok by exact (ioapicenable_eq IRQ_COM1 0 s3 Hi).
    destruct (uart_text (chars "xv6...\n") (set_k_io (routed IRQ_COM1 (T_IRQ0 + IRQ_COM1) (Z.shiftl 0 24) io3) s3))
      as (evs & Et & He & _).
    exists true, (evs ++ routed IRQ_COM1 (T_IRQ0 + IRQ_COM1) (Z.shiftl 0 24) io3).
    split; [exact Et|]. intros irq Hirq.
    assert (Hpe : Forall port_event evs) by (eapply Forall_impl; [exact He|]; by intros []).
    assert (Elow : low irq (evs ++ routed IRQ_COM1 (T_IRQ0 + IRQ_COM1) (Z.shiftl 0 24) io3) =
      low irq (routed IRQ_COM1 (T_IRQ0 + IRQ_COM1) (Z.shiftl 0 24) io3)) by by apply ioapic_ports.
    assert (Ehigh : high irq (evs ++ routed IRQ_COM1 (T_IRQ0 + IRQ_COM1) (Z.shiftl 0 24) io3) =
      high irq (routed IRQ_COM1 (T_IRQ0 + IRQ_COM1) (Z.shiftl 0 24) io3)) by by apply ioapic_ports.
    rewrite Elow, Ehigh, low_routed, high_routed by done. rewrite (Z.eqb_sym irq). cbn [andb].
    destruct (Z.eqb_spec IRQ_COM1 irq) as [<-|_]; [done|]. unfold low, high. by rewrite !(proj2 (Eio _)).
Qed.

(** [ideinit] with a controller that is ready. *)
Lemma ideinit_ok s :
  h_ioapic (k_hw s) = IOAPIC → (0 < FUEL)%nat →
  (DRIVER = IDE → ∀ io, Z.land (u8 (port_in 0x1f7 io)) (Z.lor IDE_BSY IDE_DRDY) = IDE_DRDY) →
  ∃ b io, ideinit s = Ok tt (set_k_io io (set_k_havedisk1 b s)) ∧
    ∀ irq, 0 ≤ irq →
      low irq io = (match DRIVER with IDE => if irq =? IRQ_IDE then T_IRQ0 + irq else low irq (k_io s)
                    | MEMIDE => low irq (k_io s) end) ∧
      high irq io = (match DRIVER with IDE => if irq =? IRQ_IDE then u32 (Z.shiftl (h_ncpu (k_hw s) - 1) 24)
                       else high irq (k_io s)
                     | MEMIDE => high irq (k_io s) end).
Proof.
  intros Hi Hf Hready. unfold ideinit. destruct DRIVER.
  2:{ exists (k_havedisk1 s), (k_io s). split; [by destruct s|done]. }
  specialize (Hready eq_refl). unfold ide_ideinit. erewrite bind_Ok by reflexivity.
  erewrite bind_Ok by by apply ioapicenable_eq.
  set (io1 := routed _ _ _ _). set (s1 := set_k_io io1 s).
  assert (Ew : idewait false s1 = Ok 0 (set_k_io (IoIn 0x1f7 (u8 (port_in 0x1f7 io1)) :: io1) s)).
  { unfold idewait. destruct FUEL as [|f]; [lia|]. apply loop_Ok.
    erewrite bind_Ok by apply inb_eq. cbn [k_io s1 set_k_io]. rewrite Hready. reflexivity. }
  erewrite bind_Ok by exact Ew. erewrite bind_Ok by apply outb_eq.
  set (io2 := IoOut _ _ :: _). cbn [k_io set_k_io].
  match goal with |- context [(_ ;; outb ?p ?v) ?st] => change st with (set_k_io io2 s) end.
  assert (Hne : (u8 (port_in 0x1f7 io2) =? 0) = false).
  { apply Z.eqb_neq. intros E. specialize (Hready io2). rewrite E in Hready. discriminate. }
  rewrite (seqZ_cons 0 1000) by done.
  erewrite bind_Ok.
  2:{ apply for_find_stop. erewrite bind_Ok by apply inb_eq. cbn [k_io set_k_io]. rewrite Hne.
      cbn [negb]. erewrite bind_Ok by reflexivity. reflexivity. }
  rewrite outb_eq. cbn [k_io set_k_io set_k_havedisk1].
  exists true. eexists. split; [reflexivity|]. intros irq Hirq.
  match goal with |- low irq ?io = _ ∧ _ => assert (Eio : ∀ r, ioapic_reg init r io = ioapic_reg init r io1) by done end.
  unfold low, high at 1. rewrite !Eio. fold (low irq io1) (high irq io1). unfold io1.
  rewrite low_routed, high_routed by done. by rewrite (Z.eqb_sym irq); destruct (Z.eqb_spec IRQ_IDE irq) as [<-|].
Qed.
End routes.

(** ** Claims *)

(** C32.  After [tvinit] every interrupt and exception enters the kernel at its entry
    point of vectors.S in the kernel's code segment; a user program can invoke the
    system call gate and no other, and interrupts stay enabled through that gate
    only. *)
Theorem tvinit_gates `{Env} s :
  length vectors = 256%nat → length (h_idt (k_hw s)) = 256%nat →
  ∃ idt, tvinit s = Ok tt (set_k_hw (set_h_idt idt (k_hw s)) s) ∧ length idt = 256%nat ∧
    ∀ i g, idt !! i = Some g →
      (∃ v, vectors !! i = Some v ∧ gate_offset g = u32 v) ∧
      gd_p g = 1 ∧ gd_cs g = 8 * SEG_KCODE ∧
      (gd_dpl g = DPL_USER ↔ Z.of_nat i = T_SYSCALL) ∧ (gd_dpl g = 0 ∨ Z.of_nat i = T_SYSCALL) ∧
      (gd_type g = STS_TG32 ↔ Z.of_nat i = T_SYSCALL).
Proof.
  intros Hv Hi. destruct (lookup_lt_is_Some_2 vectors (Z.to_nat T_SYSCALL)) as [vs Hs];
    [rewrite Hv; apply (bool_decide_unpack _); by vm_compute|].
  eexists. split; [by apply tvinit_eq|]. unfold idt_upto.
  rewrite (take_ge vectors) by lia. rewrite (drop_ge (h_idt _)), app_nil_r by lia.
  split; [by rewrite length_insert, length_fmap|]. intros i g Hg.
  destruct (decide (i = Z.to_nat T_SYSCALL)) as [->|Hne].
  - rewrite list_lookup_insert_eq in Hg by (rewrite length_fmap, Hv; apply (bool_decide_unpack _); by vm_compute).
    injection Hg as <-. rewrite gate_offset_SETGATE. split; [by exists vs|]. split_and!; (done || by right).
  - rewrite list_lookup_insert_ne in Hg by done. rewrite list_lookup_fmap in Hg.
    destruct (vectors !! i) as [v|] eqn:Ev; [|done]. injection Hg as <-.
    rewrite gate_offset_SETGATE. split; [by exists v|].
    assert (Z.of_nat i ≠ T_SYSCALL) by (intros E; apply Hne; rewrite <-E; lia).
    split_and!; [done|done|split; [done|done]|by left|split; [done|done]].
Qed.

Lemma tvinit_gates_witness :
  ∃ idt, @tvinit (sample_env MLFQ) zero_kernel = Ok tt (set_k_hw (set_h_idt idt zero_hw) zero_kernel) ∧
    (gd_dpl <$> idt !! 64%nat) = Some DPL_USER ∧ (gd_dpl <$> idt !! 14%nat) = Some 0.
Proof.
  destruct (@tvinit_gates (sample_env MLFQ) zero_kernel ltac:(vm_compute; reflexivity)
    ltac:(vm_compute; reflexivity)) as (idt & E & Hl & Hg).
  exists idt. split; [exact E|].
  destruct (lookup_lt_is_Some_2 idt 64) as [g Eg]; [lia|].
  destruct (lookup_lt_is_Some_2 idt 14) as [g' Eg']; [lia|].
  rewrite Eg, Eg'. destruct (Hg _ _ Eg) as (_ & _ & _ & [_ Hd] & _).
  destruct (Hg _ _ Eg') as (_ & _ & _ & _ & [Hd'|Hd'] & _); [|discriminate].
  cbn [fmap option_fmap option_map]. rewrite Hd by reflexivity. rewrite Hd'. split; reflexivity.
Defined.

(** C33.  After the device part of [main] the I/O APIC delivers the interrupts of the
    keyboard, of the serial port if there is one and of the IDE disk if the kernel
    is built with its driver, and no other; each has the vector that [trap] tests
    for, and the disk's goes to the last processor. *)
Theorem boot_routes `{Env} init s maxintr :
  reports maxintr → IRQ_IDE ≤ maxintr < 224 → (0 < FUEL)%nat →
  (DRIVER = IDE → ∀ io, Z.land (u8 (port_in 0x1f7 io)) (Z.lor IDE_BSY IDE_DRDY) = IDE_DRDY) →
  length vectors = 256%nat → length (h_idt (k_hw s)) = 256%nat → no_blocks (k_bcache s) →
  k_locking s = false → k_uart s = false →
  ∃ s', main_devices s = Ok tt s' ∧
    ∀ irq, 0 ≤ irq ≤ maxintr →
      Z.land (low init irq (k_io s')) 0xff = T_IRQ0 + irq ∧
      (Z.land (low init irq (k_io s')) INT_DISABLED = 0 ↔
         irq = IRQ_KBD ∨ (irq = IRQ_COM1 ∧ k_uart s' = true) ∨ (irq = IRQ_IDE ∧ DRIVER = IDE)) ∧
      high init irq (k_io s') =
        match DRIVER with
        | IDE => if irq =? IRQ_IDE then u32 (Z.shiftl (h_ncpu (k_hw s') - 1) 24) else 0
        | MEMIDE => 0
        end.
Proof.
  intros Hrep Hmax Hf Hready Hv Hidt Hbc Hlock Hu. unfold main_devices.
  assert (Ep : ∃ io, picinit s = Ok tt (set_k_io io s)) by (eexists; reflexivity).
  destruct Ep as (io0 & Ep). erewrite bind_Ok by exact Ep.
  assert (Hmax2 : 0 ≤ maxintr < 256) by lia.
  destruct (ioapicinit_ok init (set_k_io io0 s) maxintr Hrep Hmax2 Hlock) as (out & io1 & E1 & Hm).
  erewrite bind_Ok by exact E1. set (s1 := set_k_io io1 _).
  set (s2 := set_k_io (routed IRQ_KBD (T_IRQ0 + IRQ_KBD) (Z.shiftl 0 24) io1)
    (set_k_locking true (set_k_devsw (<[CONSOLE := true]> (k_devsw s)) s1))).
  assert (E2 : consoleinit s1 = Ok tt s2).
  { unfold consoleinit. do 2 (erewrite bind_Ok by reflexivity). by rewrite ioapicenable_eq. }
  erewrite bind_Ok by exact E2.
  destruct (uartinit_ok init s2 eq_refl Hu) as (uart & io3 & E3 & H3).
  erewrite bind_Ok by exact E3. set (s3 := set_k_io io3 _).
  destruct (lookup_lt_is_Some_2 vectors (Z.to_nat T_SYSCALL)) as [vs Hs];
    [rewrite Hv; apply (bool_decide_unpack _); by vm_compute|].
  erewrite bind_Ok by (by apply tvinit_eq). set (s4 := set_k_hw _ s3).
  destruct (binit_run Hf s4 Hbc) as (s5 & E5 & Hb5). erewrite bind_Ok by exact E5.
  pose proof (bn_io _ _ _ Hb5) as Es5.
  assert (Hio5 : k_io s5 = io3) by (by rewrite Es5).
  assert (Hhw5 : k_hw s5 = k_hw s4) by (by rewrite Es5).
  destruct (ideinit_ok init s5) as (b & io6 & E6 & H6); [by rewrite Hhw5|done|done|].
  exists (set_k_io io6 (set_k_havedisk1 b s5)). split; [exact E6|]. intros irq Hirq.
  cbn [k_io k_uart k_hw set_k_io set_k_havedisk1].
  assert (Euart : k_uart s5 = uart) by (by rewrite Es5). rewrite Euart.
  destruct (H6 irq ltac:(lia)) as [El6 Eh6]. destruct (H3 irq ltac:(lia)) as [El3 Eh3].
  destruct (Hm irq ltac:(lia)) as [El1 Eh1].
  rewrite Hio5, El3 in El6. rewrite Hio5, Eh3 in Eh6. cbn [k_io s2 set_k_io] in El6, Eh6.
  rewrite low_routed, El1 in El6 by done. rewrite high_routed, Eh1 in Eh6 by done.
  rewrite (Z.eqb_sym IRQ_KBD irq) in El6, Eh6. rewrite El6, Eh6.
  destruct (vector_of irq ltac:(lia)) as (Hmk & Hv1 & Hv2 & Hen).
  destruct DRIVER, uart; cbn [andb];
    destruct (Z.eqb_spec irq 14), (Z.eqb_spec irq 4), (Z.eqb_spec irq 1); try lia;
    subst; (split_and!; [done|split; [intros; (done || tauto)|intros; (done || intuition (discriminate || lia))]|]);
    try done.
Qed.

(** A machine with 24 I/O APIC routes and an IDE disk that is always ready. *)
Definition pc_env : Env := {|
  SCHEDULER := MLFQ; swtch_env := id; FUEL := 100; KEND := 0x80110000; KDATA := 0x80108000;
  INITCODE := 0x8010b4e0; INITCODE_SIZE := 44; TRAPRET := 0x80105c80; FORKRET := 0x80103a20;
  DRIVER := IDE;
  port_in port _ := if port =? 0x1f7 then 0x40 else 0;
  port_insl _ _ := [];
  mmio_in a io := if (a =? IOAPIC + 16) && (ioapic_sel io =? REG_VER) then 0x170011 else 0;
  spin_env := id; IDT := 0x80114c80; vectors := (λ i, 0x80105ca0 + 9 * i) <$> seqZ 0 256;
  MPENTER := 0x80102e60; ENTRYOTHER := 0x8010b48c; ENTRYOTHER_SIZE := 0x8a;
  ENTRYPGDIR := 0x80109000;
|}.

Lemma zero_no_blocks : no_blocks (k_bcache zero_kernel).
Proof.
  split; [apply length_replicate|]. intros b r _ Hr.
  apply lookup_replicate in Hr as [-> _]. done.
Qed.

Lemma boot_routes_witness :
  ∃ s', @main_devices pc_env zero_kernel = Ok tt s' ∧
    Z.land (low (λ _, 0) IRQ_IDE (k_io s')) INT_DISABLED = 0 ∧
    Z.land (low (λ _, 0) IRQ_TIMER (k_io s')) INT_DISABLED ≠ 0.
Proof.
  destruct (@boot_routes pc_env (λ _, 0) zero_kernel 23) as (s' & E & Hr).
  - intros io Hsel. cbn [mmio_in pc_env]. rewrite Hsel. reflexivity.
  - split; [discriminate|reflexivity].
  - apply Nat.lt_0_succ.
  - reflexivity.
  - vm_compute. reflexivity.
  - vm_compute. reflexivity.
  - exact zero_no_blocks.
  - reflexivity.
  - reflexivity.
  - exists s'. split; [exact E|]. split.
    + destruct (Hr IRQ_IDE) as (_ & [_ Hen] & _); [split; discriminate|].
      apply Hen. right. right. split; reflexivity.
    + destruct (Hr IRQ_TIMER) as (_ & [Hen _] & _); [split; discriminate|].
      intros E0. apply Hen in E0 as [?|[[? _]|[? _]]]; discriminate.
Defined.
