(* ===== verification/FileRep.v ===== *)
(** * FileRep: a file as a list of blocks

    The addresses of an inode, with its indirect block, name the blocks of a file in
    order; its contents are the first [size] bytes of their data.  mkfs writes files
    in this form and the kernel reads them. *)

From stdpp Require Import base numbers gmap strings option list.
From S2P Require Import Prelude Format Machine Mlfq ProcCore Sleeplock Ide Bio Log Inode Fs FsThm BioThm.
Local Open Scope Z_scope.

(** ** Lists of blocks of one length *)

Lemma length_concat_same (n : nat) (ls : list (list Z)) :
  Forall (λ l, length l = n) ls → length (concat ls) = (length ls * n)%nat.
Proof. induction 1 as [|l ls Hl _ IH]; simpl; [done|]. rewrite length_app, IH, Hl. lia. Qed.

(** The bytes from [k * n + r] on start in block [k]. *)
Lemma take_drop_concat (n : nat) (ls : list (list Z)) k r m l :
  Forall (λ l, length l = n) ls → ls !! k = Some l → (r + m ≤ n)%nat →
  take m (drop (k * n + r) (concat ls)) = take m (drop r l).
Proof.
  intros Hall. revert k. induction Hall as [|l' ls Hl' Hall IH]; intros k Hk Hm; [done|].
  destruct k as [|k]; simpl in *.
  - injection Hk as ->. rewrite drop_app_le by lia. rewrite take_app_le; [done|]. rewrite length_drop. lia.
  - rewrite <-Nat.add_assoc, drop_app_add' by done. by apply IH.
Qed.

(** Bytes written into the block where a file ends make the file longer. *)
Lemma take_concat_splice (n : nat) (ls : list (list Z)) k r c l :
  Forall (λ l, length l = n) ls → ls !! k = Some l → (r + length c ≤ n)%nat →
  take (k * n + r + length c) (concat (<[k := splice r c l]> ls)) = take (k * n + r) (concat ls) ++ c.
Proof.
  intros Hall. revert k. induction Hall as [|l' ls Hl' Hall IH]; intros k Hk Hc; [done|].
  destruct k as [|k]; simpl in *.
  - injection Hk as ->. unfold splice. rewrite <-app_assoc, (take_app_le l) by lia.
    rewrite (take_app_add' (take r l)) by (rewrite length_take; lia). by rewrite <-app_assoc, take_app_length.
  - rewrite <-!Nat.add_assoc, !take_app_add', (Nat.add_assoc (k * n)), IH by done. apply app_assoc.
Qed.

Lemma nth_zeroes (n k : nat) : nth k (replicate n 0) 0 = 0.
Proof. rewrite nth_lookup. by destruct (replicate n 0 !! k) as [z|] eqn:E; [apply lookup_replicate in E as [-> _]|]. Qed.

(** ** The blocks of a file *)

(** [addr k] is the [k]-th word of the inode's addresses, [bs] the blocks they name;
    a block that is not there has address zero. *)
Record file_rep (val : Z → list Z) (addr : nat → Z) (bs : list Z) : Prop := {
  fr_max : (length bs ≤ NDIRECT + NINDIRECT)%nat;
  fr_direct k : (k < NDIRECT)%nat → addr k = default 0 (bs !! k);
  fr_no_indirect : (length bs ≤ NDIRECT)%nat → addr NDIRECT = 0;
  fr_has_indirect : (NDIRECT < length bs)%nat → addr NDIRECT ≠ 0;
  fr_indirect j : (NDIRECT < length bs)%nat → (j < NINDIRECT)%nat →
    get32 (val (addr NDIRECT)) (4 * j) = default 0 (bs !! (NDIRECT + j)%nat);
}.

(** The blocks that the file occupies, its indirect block included. *)
Definition file_blocks (addr : nat → Z) (bs : list Z) : list Z :=
  bs ++ (if decide (NDIRECT < length bs)%nat then [addr NDIRECT] else []).

Definition file_data (val : Z → list Z) (bs : list Z) (size : Z) : list Z :=
  take (Z.to_nat size) (concat (val <$> bs)).

(** Nothing but the file's own blocks matters. *)
Lemma file_rep_ext val val' addr bs :
  (∀ b, b ∈ file_blocks addr bs → val' b = val b) → file_rep val addr bs → file_rep val' addr bs.
Proof.
  intros Hv [H1 H2 H3 H4 H5]. split; try done. intros j Hb Hj. rewrite Hv; [by apply H5|].
  unfold file_blocks. rewrite decide_True by done. apply elem_of_app. right. by left.
Qed.

Lemma file_rep_same val val' addr bs :
  ((NDIRECT < length bs)%nat → val' (addr NDIRECT) = val (addr NDIRECT)) → file_rep val addr bs → file_rep val' addr bs.
Proof. intros Hv [H1 H2 H3 H4 H5]. split; try done. intros j Hb Hj. rewrite Hv by done. by apply H5. Qed.

Lemma file_rep_addr val addr addr' bs :
  (∀ k, (k ≤ NDIRECT)%nat → addr' k = addr k) → file_rep val addr bs →
  file_rep val addr' bs ∧ file_blocks addr' bs = file_blocks addr bs.
Proof.
  intros Ha [H1 H2 H3 H4 H5]. pose proof (Ha NDIRECT ltac:(lia)) as E. split.
  - split; rewrite ?E; try done. intros k Hk. rewrite Ha by lia. by apply H2.
  - unfold file_blocks. by rewrite E.
Qed.

Lemma file_data_ext val val' bs size :
  (∀ b, b ∈ bs → val' b = val b) → file_data val' bs size = file_data val bs size.
Proof.
  intros Hv. unfold file_data. f_equal. f_equal. apply list_fmap_ext. intros i b Hb.
  by eapply Hv, list_elem_of_lookup_2.
Qed.

Lemma length_file_data val bs size :
  (∀ b, b ∈ bs → length (val b) = Z.to_nat BSIZE) → 0 ≤ size ≤ BSIZE * Z.of_nat (length bs) →
  length (file_data val bs size) = Z.to_nat size.
Proof.
  intros Hl Hs. unfold file_data. rewrite length_take, (length_concat_same (Z.to_nat BSIZE)), length_fmap.
  - unfold BSIZE in *. lia.
  - apply Forall_fmap, Forall_forall. exact Hl.
Qed.

Lemma fmap_fupd (val : Z → list Z) bs k x v :
  NoDup bs → bs !! k = Some x → fupd x v val <$> bs = <[k := v]> (val <$> bs).
Proof.
  intros Hnd Hk. apply list_eq. intros j. rewrite list_lookup_fmap. destruct (decide (k = j)) as [<-|Hj].
  - rewrite Hk, list_lookup_insert_eq; [simpl; by rewrite fupd_eq|]. rewrite length_fmap. by eapply lookup_lt_Some.
  - rewrite list_lookup_insert_ne, list_lookup_fmap by done. destruct (bs !! j) as [y|] eqn:Ej; [|done]. simpl.
    rewrite fupd_ne; [done|]. intros ->. apply Hj. by eapply NoDup_lookup.
Qed.

(** Bytes put at the end of a file, in the block where it ends. *)
Lemma file_data_append val bs (k r : nat) c x :
  NoDup bs → (∀ b, b ∈ bs → length (val b) = Z.to_nat BSIZE) → bs !! k = Some x → (r + length c ≤ Z.to_nat BSIZE)%nat →
  file_data (fupd x (splice r c (val x)) val) bs (BSIZE * Z.of_nat k + Z.of_nat r + Z.of_nat (length c)) =
    file_data val bs (BSIZE * Z.of_nat k + Z.of_nat r) ++ c.
Proof.
  intros Hnd Hl Hk Hc. unfold file_data. rewrite (fmap_fupd _ _ k) by done.
  replace (Z.to_nat (_ + Z.of_nat r + _)) with (k * Z.to_nat BSIZE + r + length c)%nat by (unfold BSIZE; lia).
  replace (Z.to_nat (_ + Z.of_nat r)) with (k * Z.to_nat BSIZE + r)%nat by (unfold BSIZE; lia).
  apply take_concat_splice; [|by rewrite list_lookup_fmap, Hk|done]. apply Forall_fmap, Forall_forall. exact Hl.
Qed.

Lemma file_data_app val bs bs' size :
  (∀ b, b ∈ bs → length (val b) = Z.to_nat BSIZE) → size ≤ BSIZE * Z.of_nat (length bs) →
  file_data val (bs ++ bs') size = file_data val bs size.
Proof.
  intros Hl Hs. unfold file_data. rewrite fmap_app, concat_app. apply take_app_le.
  rewrite (length_concat_same (Z.to_nat BSIZE)), length_fmap; [unfold BSIZE in *; lia|].
  apply Forall_fmap, Forall_forall. exact Hl.
Qed.

(** ** A file grows by one block *)

Section grow.
Context (val : Z → list Z) (addr : nat → Z) (bs : list Z) (x : Z).
Hypothesis Hrep : file_rep val addr bs.
Hypothesis Hx : 0 < x < 2 ^ 32.

Lemma push_lookup k : default 0 ((bs ++ [x]) !! k) = if decide (k = length bs) then x else default 0 (bs !! k).
Proof.
  case_decide as Hk.
  - subst. by rewrite lookup_app_r, Nat.sub_diag by lia.
  - destruct (decide (k < length bs)%nat); [by rewrite lookup_app_l by lia|].
    rewrite !lookup_ge_None_2; [done|lia|rewrite length_app; simpl; lia].
Qed.

Lemma file_rep_direct addr' :
  (length bs < NDIRECT)%nat → (∀ k, (k ≤ NDIRECT)%nat → addr' k = if decide (k = length bs) then x else addr k) →
  file_rep val addr' (bs ++ [x]).
Proof.
  intros Hl Ha. destruct Hrep as [H1 H2 H3 H4 H5]. unfold NDIRECT, NINDIRECT in *.
  split; unfold NDIRECT, NINDIRECT; rewrite ?length_app; cbn [length]; try lia.
  - intros k Hk. rewrite push_lookup, Ha by lia. case_decide; [done|by apply H2].
  - intros _. rewrite Ha, decide_False by lia. apply H3. lia.
Qed.

Lemma file_rep_first_indirect val' addr' ind :
  length bs = NDIRECT → ind ≠ 0 → (∀ k, (k ≤ NDIRECT)%nat → addr' k = if decide (k = NDIRECT) then ind else addr k) →
  val' ind = put32 (replicate (Z.to_nat BSIZE) 0) 0 x → file_rep val' addr' (bs ++ [x]).
Proof.
  intros Hl Hi Ha Hv. destruct Hrep as [H1 H2 H3 H4 H5]. unfold NDIRECT, NINDIRECT in *.
  assert (Ei : addr' 12%nat = ind) by (rewrite Ha, decide_True by lia; done).
  split; unfold NDIRECT, NINDIRECT; rewrite ?length_app; cbn [length]; try lia.
  - intros k Hk. rewrite push_lookup, Ha, !decide_False by lia. by apply H2.
  - intros j _ Hj. rewrite Ei, Hv, push_lookup. case_decide as Hk.
    + replace (4 * j)%nat with 0%nat by lia. rewrite get32_put32 by (simpl; lia). by apply u32_small; lia.
    + rewrite (lookup_ge_None_2 bs) by lia. rewrite (get32_agree _ _ (replicate (Z.to_nat BSIZE) 0)).
      * unfold get32. by rewrite !nth_zeroes.
      * apply splice_agree; simpl; lia.
Qed.

Lemma file_rep_indirect val' addr' :
  (NDIRECT < length bs < NDIRECT + NINDIRECT)%nat → (∀ k, (k ≤ NDIRECT)%nat → addr' k = addr k) →
  length (val (addr NDIRECT)) = Z.to_nat BSIZE →
  val' (addr NDIRECT) = put32 (val (addr NDIRECT)) (4 * (length bs - NDIRECT)) x → file_rep val' addr' (bs ++ [x]).
Proof.
  intros Hl Ha Hlen Hv. destruct Hrep as [H1 H2 H3 H4 H5]. unfold NDIRECT, NINDIRECT in *.
  change (Z.to_nat BSIZE) with 512%nat in Hlen.
  assert (Ei : addr' 12%nat = addr 12%nat) by (apply Ha; lia).
  split; unfold NDIRECT, NINDIRECT; rewrite ?length_app; cbn [length]; try lia.
  - intros k Hk. rewrite push_lookup, Ha, decide_False by lia. by apply H2.
  - intros j _ Hj. rewrite Ei, Hv, push_lookup. case_decide as Hk.
    + replace (length bs - 12)%nat with j by lia. rewrite get32_put32 by lia. by apply u32_small; lia.
    + rewrite <-H5 by lia. apply get32_agree, splice_agree; simpl; lia.
Qed.
End grow.
