(* ===== verification/LogThm.v ===== *)
(** * LogThm: the log makes a transaction atomic (log.c)

    Proved against the promises of [BlockCache].  The trace [k_dwrites] has every
    block write in order, so a crash is a prefix of the trace: whatever the prefix,
    recovery at the next boot leaves on the disk either none or all of the updates
    of the transaction. *)

From stdpp Require Import base numbers gmap strings option list.
From S2P Require Import Prelude Format Machine Boot Mem Mlfq ProcCore Sleeplock Ide Bio Log.
From S2P Require Import Inode Fs FsThm MlfqInv MlfqOps BioThm.
Local Open Scope kernel_scope.
Local Open Scope Z_scope.

(** ** Sequences of block writes *)

Definition apply_writes (W : list (Z * list Z)) (d : list (list Z)) : list (list Z) :=
  foldl (λ d w, <[Z.to_nat (fst w) := snd w]> d) d W.

Lemma apply_writes_app W1 W2 d : apply_writes (W1 ++ W2) d = apply_writes W2 (apply_writes W1 d).
Proof. apply foldl_app. Qed.
Lemma length_apply_writes W d : length (apply_writes W d) = length d.
Proof. revert d. induction W as [|w W IH]; intros d; simpl; [done|]. by rewrite IH, length_insert. Qed.

(** A block that is not written keeps its contents. *)
Lemma apply_writes_other W d k :
  (∀ w, w ∈ W → Z.to_nat (fst w) ≠ k) → apply_writes W d !! k = d !! k.
Proof.
  revert d. induction W as [|w W IH]; intros d Hw; simpl; [done|]. rewrite IH.
  - rewrite list_lookup_insert_ne; [done|]. apply Hw. by left.
  - intros w' Hw'. apply Hw. by right.
Qed.

(** A block all of whose writes have the same contents. *)
Lemma apply_writes_same W d k v :
  (k < length d)%nat → (∃ w, w ∈ W ∧ Z.to_nat (fst w) = k) →
  (∀ w, w ∈ W → Z.to_nat (fst w) = k → snd w = v) → apply_writes W d !! k = Some v.
Proof.
  revert d. induction W as [|w W IH]; intros d Hk (w0 & Hw0 & E0) Hv; [by apply not_elem_of_nil in Hw0|].
  simpl. destruct (decide (Exists (λ w, Z.to_nat (fst w) = k) W)) as [He|He].
  - apply IH; [by rewrite length_insert| |].
    + apply Exists_exists in He as (w1 & ? & ?). by exists w1.
    + intros w1 Hw1. apply Hv. by right.
  - rewrite apply_writes_other.
    + apply elem_of_cons in Hw0 as [->|Hw0].
      * rewrite E0, list_lookup_insert_eq by done. f_equal. apply Hv; [by left|done].
      * exfalso. apply He, Exists_exists. by exists w0.
    + intros w1 Hw1 E1. apply He, Exists_exists. by exists w1.
Qed.

(** ** The header block *)

Definition hdr_ok (h : list Z) (n : Z) (blks : list Z) : Prop :=
  length h = Z.to_nat BSIZE ∧ hdr_n h = n ∧ ∀ i b, blks !! i = Some b → hdr_block h (Z.of_nat i) = b.

Lemma hdr_put_n_ok h n :
  length h = Z.to_nat BSIZE → - 2 ^ 31 ≤ n < 2 ^ 31 → hdr_ok (hdr_put_n n h) n [].
Proof.
  intros Hl Hn. unfold hdr_ok, hdr_put_n, hdr_n.
  split_and!; [rewrite put32_length; [done|rewrite Hl; unfold BSIZE; lia]| |done].
  rewrite get32_put32 by (rewrite Hl; unfold BSIZE; lia). unfold i32, u32. rewrite Z.mod_mod by done.
  by apply i32_small.
Qed.

Lemma hdr_put_block_ok h n blks b :
  hdr_ok h n blks → (length blks < Z.to_nat LOGSIZE)%nat → - 2 ^ 31 ≤ b < 2 ^ 31 →
  hdr_ok (hdr_put_block (Z.of_nat (length blks)) b h) n (blks ++ [b]).
Proof.
  intros (Hl & Hn & Hb) Hlen Hr. unfold hdr_put_block. set (off := Z.to_nat (4 + 4 * Z.of_nat (length blks))).
  assert (Hoff : (off + 4 ≤ length h)%nat) by (rewrite Hl; unfold off, BSIZE, LOGSIZE in *; lia).
  assert (Hag : ∀ a, (a + 4 ≤ off)%nat → get32 (put32 h off b) a = get32 h a).
  { intros a Ha. apply get32_agree, splice_agree; simpl; lia. }
  split_and!.
  - by rewrite put32_length.
  - rewrite <-Hn. unfold hdr_n. rewrite Hag; [done|]. unfold off. lia.
  - intros i c Hi. unfold hdr_block. apply lookup_app_Some in Hi as [Hi|[Hge Hi]].
    + rewrite <-(Hb _ _ Hi). unfold hdr_block. rewrite Hag; [done|].
      apply lookup_lt_Some in Hi. unfold off. lia.
    + assert (i = length blks ∧ c = b) as [-> ->].
      { destruct (i - length blks)%nat eqn:E; [|done]. simpl in Hi. split; [lia|congruence]. }
      fold off. rewrite get32_put32 by done. unfold i32, u32. rewrite Z.mod_mod by done. by apply i32_small.
Qed.

(** ** Where things are on the disk *)

(** The log occupies blocks [start .. start + nlog - 1] of a disk of [N] blocks; the
    first of them is the header. *)
Definition in_log (start nlog blk : Z) : Prop := start ≤ blk < start + nlog.
Record geometry (start nlog : Z) (N : nat) : Prop := {
  ge_start : 0 ≤ start;
  ge_size : 1 ≤ nlog ≤ LOGSIZE;
  ge_disk : start + nlog ≤ Z.of_nat N;
  ge_width : Z.of_nat N < 2 ^ 31;
}.
Definition home (start nlog : Z) (N : nat) (blk : Z) : Prop :=
  0 ≤ blk < Z.of_nat N ∧ ¬ in_log start nlog blk.

(** The header [l] of log.c in memory says: the log is at [start], and the blocks
    [blks] are in the transaction. *)
Record log_is (start nlog : Z) (blks : list Z) (l : log) : Prop := {
  li_start : l_start l = start;
  li_size : l_size l = nlog;
  li_dev : l_dev l = 1;
  li_n : lh_n l = Z.of_nat (length blks);
  li_blks i b : blks !! i = Some b → lh_block l !! i = Some b;
}.

Section log.
Context `{Env} (pid : Z) `{!BlockCache pid}.
Context (start nlog : Z) (N : nat).
Hypothesis Hgeo : geometry start nlog N.

(** The state between two operations of log.c: no buffer held; [W] has been written
    since the disk was [d0]. *)
Record logst (d0 : list (list Z)) (w0 W : list (Z * list Z)) (l : log) (Ds : gset Z) (val : Z → list Z)
    (s : kernel) : Prop := {
  ls_cached : cached s ∅ Ds val;
  ls_log : k_log s = l;
  ls_disk : k_disk s = apply_writes W d0;
  ls_writes : k_dwrites s = reverse W ++ w0;
  ls_len : length d0 = N;
}.

Lemma logst_len d0 w0 W l Ds val s : logst d0 w0 W l Ds val s → length (k_disk s) = N.
Proof. intros [_ _ E _ El]. by rewrite E, length_apply_writes. Qed.

Lemma hblks_empty : hblks ∅ = ∅.
Proof. done. Qed.
Lemma hblks_insert b blk v Hd : Hd !! b = None → hblks (<[b := (blk, v)]> Hd) = {[blk]} ∪ hblks Hd.
Proof.
  intros Hb. apply set_eq. intros x. rewrite elem_of_union, elem_of_singleton, !elem_of_hblks. split.
  - intros (b' & v' & E). destruct (decide (b' = b)) as [->|Hne].
    + rewrite lookup_insert_eq in E. left. congruence.
    + rewrite lookup_insert_ne in E by done. right. eauto.
  - intros [->|(b' & v' & E)]; [exists b, v; by rewrite lookup_insert_eq|].
    exists b', v'. rewrite lookup_insert_ne; [done|]. intros ->. congruence.
Qed.

Lemma same_io_log s s' : same_io s s' → k_log s' = k_log s.
Proof. intros ->. done. Qed.
Lemma same_io_trans s1 s2 s3 : same_io s1 s2 → same_io s2 s3 → same_io s1 s3.
Proof. unfold same_io. intros E1 E2. rewrite E2, E1. done. Qed.
Lemma same_disk_trans s1 s2 s3 : same_disk s1 s2 → same_disk s2 s3 → same_disk s1 s3.
Proof. intros (H1 & H2 & H3) (H4 & H5 & H6). split_and!; [by eapply same_io_trans|congruence..]. Qed.

(** Two blocks are read, one after the other. *)
Lemma two_reads s Ds val A B :
  cached s ∅ Ds val → A ≠ B →
  0 ≤ A < Z.of_nat (length (k_disk s)) → 0 ≤ B < Z.of_nat (length (k_disk s)) →
  (size Ds < NBUF)%nat → B ∈ Ds ∨ (S (size Ds) < NBUF)%nat →
  ∃ a b s1 s2, bread 1 A s = Ok a s1 ∧ bread 1 B s1 = Ok b s2 ∧ a ≠ b ∧
    cached s2 (<[b := (B, val B)]> (<[a := (A, val A)]> ∅)) Ds val ∧ same_disk s s2 ∧ same_disk s s1.
Proof.
  intros Hc HAB HA HB Hsz HszB.
  destruct (cached_read s ∅ Ds val A Hc HA) as (a & s1 & E1 & _ & Hc1 & Hs1).
  { by rewrite hblks_empty. }
  { right. rewrite hblks_empty. by rewrite union_empty_r_L. }
  destruct Hs1 as (Hio1 & Hd1 & Hw1).
  destruct (cached_read s1 (<[a := (A, val A)]> ∅) Ds val B Hc1) as (b & s2 & E2 & Hb & Hc2 & Hs2).
  { by rewrite Hd1. }
  { rewrite hblks_insert, hblks_empty by done. rewrite union_empty_r_L. by intros ?%elem_of_singleton. }
  { destruct HszB as [?|Hlt]; [by left|right]. rewrite hblks_insert, hblks_empty by done.
    rewrite union_empty_r_L, size_union_alt.
    pose proof (subseteq_size ({[A]} ∖ Ds) ({[A]} : gset Z)) as Hle. rewrite size_singleton in Hle.
    specialize (Hle ltac:(set_solver)). lia. }
  exists a, b, s1, s2. split_and!; try done.
  - intros ->. by rewrite lookup_insert_eq in Hb.
  - by eapply same_disk_trans.
Qed.

(** The contents of one held buffer are copied to the other, which is written; both
    are given back. *)
Lemma copy_block s Hd Ds val src dst S D :
  cached s Hd Ds val → src ≠ dst → S ≠ D → Hd !! src = Some (S, val S) → Hd !! dst = Some (D, val D) →
  delete dst (delete src Hd) = ∅ →
  ∃ s', (let! r := buf_at src in
         upd_buf dst (set_b_data (b_data r)) ;;
         bwrite dst ;;
         brelse src ;;
         brelse dst) s = Ok tt s' ∧
    cached s' ∅ (Ds ∖ {[D]}) (fupd D (val S) val) ∧ same_io s s' ∧
    k_disk s' = <[Z.to_nat D := val S]> (k_disk s) ∧ k_dwrites s' = (D, val S) :: k_dwrites s.
Proof.
  intros Hc Hne HSD Hs Hd0 Hdel.
  destruct (cached_at _ _ _ _ _ _ _ Hc Hs) as (r & Hr & Hrd & _).
  destruct (cached_set s Hd Ds val dst D _ (set_b_data (b_data r)) (λ _, b_data r) Hc Hd0)
    as (s1 & E1 & Hc1 & (Hio1 & Hk1 & Hw1)); [done|].
  destruct (cached_write _ _ _ _ _ _ _ Hc1 (lookup_insert_eq _ _ _)) as (s2 & E2 & Hc2 & Hio2 & Hk2 & Hw2).
  rewrite Hrd in *.
  destruct (cached_release s2 _ _ _ src S Hc2) as (s3 & E3 & Hc3 & (Hio3 & Hk3 & Hw3)).
  { rewrite lookup_insert_ne by done. by rewrite fupd_ne. }
  destruct (cached_release s3 _ _ _ dst D Hc3) as (s4 & E4 & Hc4 & (Hio4 & Hk4 & Hw4)).
  { rewrite lookup_delete_ne, lookup_insert_eq by done. by rewrite fupd_eq. }
  exists s4. split_and!.
  - run exact Hr. rewrite Hrd. run exact E1. run exact E2. run exact E3. exact E4.
  - rewrite delete_insert_ne in Hc4 by done. by rewrite delete_insert_eq, Hdel in Hc4.
  - do 3 (eapply same_io_trans; [eassumption|]). done.
  - by rewrite Hk4, Hk3, Hk2, Hk1.
  - by rewrite Hw4, Hw3, Hw2, Hw1.
Qed.

(** ** The writes of a transaction *)

Section trans.
Context (blks : list Z) (l : log).
Hypothesis Hl : log_is start nlog blks l.
Hypothesis Hhome : Forall (home start nlog N) blks.
Hypothesis Hroom : Z.of_nat (length blks) < nlog.

Lemma blk_home i b : blks !! i = Some b → home start nlog N b.
Proof. intros Hi. by eapply Forall_lookup_1. Qed.
Lemma slot_in_log i : (i < length blks)%nat → in_log start nlog (start + 1 + Z.of_nat i) ∧
  0 ≤ start + 1 + Z.of_nat i < Z.of_nat N.
Proof. intros Hi. destruct Hgeo. unfold in_log. lia. Qed.
Lemma size_blks l' : l' ⊆ blks → (size (list_to_set l' : gset Z) < NBUF)%nat.
Proof.
  intros Hsub. assert (Hss : (list_to_set l' : gset Z) ⊆ list_to_set blks).
  { intros x Hx%elem_of_list_to_set. apply elem_of_list_to_set. auto. }
  apply subseteq_size in Hss. pose proof (ge_size _ _ _ Hgeo) as Hn. unfold LOGSIZE, NBUF in *.
  pose proof (size_list_to_set_le blks). lia.
Qed.

(** What [write_log] writes: the new contents of the blocks, in the log. *)
Definition log_writes (val : Z → list Z) : list (Z * list Z) :=
  imap (λ i b, (start + 1 + Z.of_nat i, val b)) blks.

Lemma log_writes_lookup val i b :
  blks !! i = Some b → log_writes val !! i = Some (start + 1 + Z.of_nat i, val b).
Proof. intros Hi. unfold log_writes. by rewrite list_lookup_imap, Hi. Qed.
Lemma length_log_writes val : length (log_writes val) = length blks.
Proof. apply length_imap. Qed.

(** The loops of [write_log] and [install_trans]. *)
Lemma for_tail_inv (body : Z → K unit) (I : nat → kernel → Prop) s :
  (∀ i s, I i s → k_log s = l) →
  (∀ i b s, blks !! i = Some b → I i s → ∃ s', body (Z.of_nat i) s = Ok tt s' ∧ I (S i) s') →
  I 0%nat s → ∃ s', for_tail body s = Ok tt s' ∧ I (length blks) s'.
Proof.
  intros Hlog Hstep HI. unfold for_tail. set (f := λ tail : Z, _).
  pose proof (ge_size _ _ _ Hgeo) as Hsz.
  assert (Hgen : ∀ n i fuel s, (i + n = length blks)%nat → (n < fuel)%nat → I i s →
    ∃ s', loop fuel f (Z.of_nat i) s = Ok tt s' ∧ I (length blks) s').
  { induction n as [|n IH]; intros i fuel s1 Hi Hf H1; (destruct fuel as [|fuel]; [lia|]);
      pose proof (Hlog _ _ H1) as El.
    - exists s1. assert (i = length blks) as -> by lia. split; [|done]. apply loop_Ok. unfold f. run done.
      by rewrite El, (li_n _ _ _ _ Hl), Z.ltb_irrefl.
    - destruct (lookup_lt_is_Some_2 blks i) as [b Hb]; [lia|].
      destruct (Hstep i b s1 Hb H1) as (s2 & E & H2).
      destruct (IH (S i) fuel s2) as (s' & E' & H'); [lia|lia|done|]. exists s'. split; [|done].
      rewrite <-E'. apply loop_next. unfold f. run done.
      rewrite El, (li_n _ _ _ _ Hl), (proj2 (Z.ltb_lt _ _)) by lia. cbn [negb]. run exact E.
      by replace (Z.of_nat (S i)) with (Z.of_nat i + 1) by lia. }
  apply (Hgen (length blks) 0%nat); [lia|unfold LOGSIZE in *; lia|done].
Qed.

Lemma seqZ_blks i x :
  seqZ 0 (lh_n l) !! i = Some x → ∃ b, x = Z.of_nat i ∧ blks !! i = Some b ∧ (i < length blks)%nat ∧
    arr_get (S := kernel) (lh_block l) x = ret b.
Proof.
  intros [-> Hi]%lookup_seqZ. rewrite (li_n _ _ _ _ Hl) in Hi. assert (Hlt : (i < length blks)%nat) by lia.
  destruct (lookup_lt_is_Some_2 _ _ Hlt) as [b Hb]. exists b. split_and!; try done.
  unfold arr_get. rewrite Z.add_0_l, (proj2 (Z.ltb_ge _ _)), Nat2Z.id by lia.
  by rewrite (li_blks _ _ _ _ Hl _ _ Hb).
Qed.

(** [log.lh.block[i]], and the two reads of [log] in an iteration. *)
Lemma blk_entry i b (s : kernel) : blks !! i = Some b → arr_get (lh_block l) (Z.of_nat i) s = Ok b s.
Proof.
  intros Hb. unfold arr_get. rewrite (proj2 (Z.ltb_ge _ _)), Nat2Z.id by lia.
  by rewrite (li_blks _ _ _ _ Hl _ _ Hb).
Qed.
Lemma gets_log {d0 w0 W Ds val s} : logst d0 w0 W l Ds val s → gets k_log s = Ok l s.
Proof. intros Hst. unfold gets. by rewrite (ls_log _ _ _ _ _ _ _ Hst). Qed.
Lemma gets_log' {d0 w0 W Ds val s s'} : logst d0 w0 W l Ds val s → same_disk s s' → gets k_log s' = Ok l s'.
Proof. intros Hst [Hio _]. unfold gets. by rewrite (same_io_log _ _ Hio), (ls_log _ _ _ _ _ _ _ Hst). Qed.

Record wl_inv (d0 : list (list Z)) (w0 W : list (Z * list Z)) (Ds : gset Z) (val : Z → list Z)
    (i : nat) (s : kernel) (val' : Z → list Z) : Prop := {
  wl_st : logst d0 w0 (W ++ take i (log_writes val)) l Ds val' s;
  wl_home k : ¬ in_log start nlog k ∨ k = start → val' k = val k;
  wl_log j b : (j < i)%nat → blks !! j = Some b → val' (start + 1 + Z.of_nat j) = val b;
}.

Lemma write_log_step d0 w0 W val i s val' b :
  let Ds := list_to_set blks in
  wl_inv d0 w0 W Ds val i s val' → blks !! i = Some b →
  ∃ s' val'', (let! l := gets k_log in
    let! to := bread (l_dev l) (u32 (l_start l + Z.of_nat i + 1)) in
    let! l := gets k_log in
    let! blk := arr_get (lh_block l) (Z.of_nat i) in
    let! from := bread (l_dev l) (u32 blk) in
    let! fb := buf_at from in
    upd_buf to (set_b_data (b_data fb)) ;;
    bwrite to ;;
    brelse from ;;
    brelse to) s = Ok tt s' ∧ wl_inv d0 w0 W Ds val (S i) s' val''.
Proof.
  intros Ds [Hst Hv Hlog] Hb. pose proof (lookup_lt_Some _ _ _ Hb) as Hi.
  destruct (blk_home i b Hb) as [Hbr Hbl]. destruct (slot_in_log i Hi) as [HA HAr].
  pose proof (ge_width _ _ _ Hgeo) as Hw. pose proof (logst_len _ _ _ _ _ _ _ Hst) as HN.
  assert (EA : l_start l + Z.of_nat i + 1 = start + 1 + Z.of_nat i) by (rewrite (li_start _ _ _ _ Hl); lia). set (A := start + 1 + Z.of_nat i) in *.
  assert (HAb : A ≠ b) by (intros E; apply Hbl; by rewrite <-E).
  assert (HbD : b ∈ Ds) by (apply elem_of_list_to_set; by eapply list_elem_of_lookup_2).
  assert (HAD : A ∉ Ds).
  { intros Hin%elem_of_list_to_set. apply list_elem_of_lookup in Hin as [j Hj].
    by destruct (blk_home _ _ Hj) as [_ Hn]. }
  destruct (two_reads s Ds val' A b) as (to & from & s1 & s2 & E1 & E2 & Hne & Hc2 & Hs2 & Hs1);
    [apply Hst|done|by rewrite HN|by rewrite HN|by apply size_blks|by left|].
  destruct (copy_block s2 _ Ds val' from to b A Hc2) as (s' & E3 & Hc' & Hio & Hd & Hwr).
  { done. } { done. }
  { by rewrite lookup_insert_eq. } { by rewrite lookup_insert_ne, lookup_insert_eq. }
  { rewrite delete_insert_eq, (delete_id (<[to:=_]> ∅)); [|by rewrite lookup_insert_ne].
    by rewrite delete_insert_eq. }
  destruct Hs2 as (Hio2 & Hd2 & Hw2).
  exists s', (fupd A (val' b) val'). split.
  - run (by apply (gets_log Hst)). rewrite EA, (li_dev _ _ _ _ Hl), u32_small by lia. run exact E1.
    run (by apply (gets_log' Hst Hs1)). run (by apply blk_entry). rewrite (li_dev _ _ _ _ Hl), u32_small by lia.
    run exact E2. exact E3.
  - assert (Evb : val' b = val b) by (apply Hv; by left).
    assert (Et : take (S i) (log_writes val) = take i (log_writes val) ++ [(A, val b)]).
    { by rewrite (take_S_r _ _ (A, val b)) by by apply log_writes_lookup. }
    split.
    + rewrite Et, app_assoc. split; [|by rewrite (same_io_log _ _ Hio), (same_io_log _ _ Hio2); apply Hst| | |apply Hst].
      * replace Ds with (Ds ∖ {[A]}); [done|]. apply set_eq. set_solver.
      * rewrite apply_writes_app, Hd, Hd2, (ls_disk _ _ _ _ _ _ _ Hst), Evb. done.
      * rewrite reverse_snoc, Hwr, Hw2, (ls_writes _ _ _ _ _ _ _ Hst), Evb. done.
    + intros k Hk. rewrite fupd_ne; [by apply Hv|]. intros ->. destruct Hk as [Hk|Hk]; [done|lia].
    + intros j c Hj Hc. destruct (decide (j = i)) as [->|Hji].
      * rewrite fupd_eq, Evb. congruence.
      * rewrite fupd_ne by lia. apply Hlog; [lia|done].
Qed.

Lemma write_log_ok d0 w0 W val s :
  logst d0 w0 W l (list_to_set blks) val s →
  ∃ s' val', write_log s = Ok tt s' ∧ wl_inv d0 w0 W (list_to_set blks) val (length blks) s' val'.
Proof.
  intros Hst.
  assert (∃ s', write_log s = Ok tt s' ∧ ∃ val', wl_inv d0 w0 W (list_to_set blks) val (length blks) s' val')
    as (s' & E & val' & Hi); [|by exists s', val'].
  apply (for_tail_inv _ (λ i s, ∃ val', wl_inv d0 w0 W (list_to_set blks) val i s val')).
  - intros i s1 (v1 & [Hs1 _ _]). apply Hs1.
  - intros i b s1 Hb (v1 & Hi). destruct (write_log_step d0 w0 W val i s1 v1 b Hi Hb) as (s2 & v2 & E & Hi2).
    exists s2. split; [exact E|]. by exists v2.
  - exists val. split; [by rewrite take_0, app_nil_r|done|lia].
Qed.

(** [write_head]: the header block gets the number and the list of the blocks. *)
Lemma write_head_ok d0 w0 W Ds val s :
  logst d0 w0 W l Ds val s → start ∉ Ds → (size Ds < NBUF)%nat → length (val start) = Z.to_nat BSIZE →
  ∃ s' h, write_head s = Ok tt s' ∧ logst d0 w0 (W ++ [(start, h)]) l Ds (fupd start h val) s' ∧
    hdr_ok h (Z.of_nat (length blks)) blks.
Proof.
  intros Hst Hs Hsz Hlen. pose proof (logst_len _ _ _ _ _ _ _ Hst) as HN. destruct Hgeo as [G1 G2 G3 G4].
  destruct (cached_read s ∅ Ds val start (ls_cached _ _ _ _ _ _ _ Hst)) as (b & s1 & E1 & _ & Hc1 & (Hio1 & Hd1 & Hw1)).
  { rewrite HN. lia. } { done. } { right. by rewrite hblks_empty, union_empty_r_L. }
  destruct (cached_set s1 _ Ds val b start _ (λ b, set_b_data (hdr_put_n (lh_n l) (b_data b)) b)
    (hdr_put_n (lh_n l)) Hc1 (lookup_insert_eq _ _ _)) as (s2 & E2 & Hc2 & (Hio2 & Hd2 & Hw2)); [done|].
  rewrite insert_insert_eq in Hc2.
  edestruct (for_each_inv (seqZ 0 (lh_n l)) (λ i,
    let! v := arr_get (lh_block l) i in
    upd_buf b (λ r, set_b_data (hdr_put_block i v (b_data r)) r))
    (λ i s, ∃ h, cached s (<[b := (start, h)]> ∅) Ds val ∧ same_disk s2 s ∧
       hdr_ok h (Z.of_nat (length blks)) (take i blks))) as (s3 & E3 & h & Hc3 & (Hio3 & Hd3 & Hw3) & Hh).
  { intros i x s' Hx (h & Hc & Hsd & Hh). destruct (seqZ_blks i x Hx) as (c & -> & Hb & Hi & ->).
    destruct (cached_set s' _ Ds val b start _ (λ r, set_b_data (hdr_put_block (Z.of_nat i) c (b_data r)) r)
      (hdr_put_block (Z.of_nat i) c) Hc (lookup_insert_eq _ _ _)) as (s'' & E & Hc'' & Hsd''); [done|].
    rewrite insert_insert_eq in Hc''. exists s''. split; [by run done|]. eexists. split_and!; [exact Hc''|by eapply same_disk_trans|].
    rewrite (take_S_r _ _ c) by done. replace (Z.of_nat i) with (Z.of_nat (length (take i blks))) by (rewrite length_take; lia).
    apply hdr_put_block_ok; [done|rewrite length_take; unfold LOGSIZE in *; lia|].
    destruct (blk_home _ _ Hb) as [? _]. lia. }
  { eexists. split_and!; [exact Hc2|by split_and!; [destruct s2|..]|]. rewrite take_0, (li_n _ _ _ _ Hl).
    apply hdr_put_n_ok; [done|unfold LOGSIZE in *; lia]. }
  destruct (cached_write _ _ _ _ _ _ _ Hc3 (lookup_insert_eq _ _ _)) as (s4 & E4 & Hc4 & Hio4 & Hd4 & Hw4).
  destruct (cached_release s4 _ _ _ b start Hc4) as (s5 & E5 & Hc5 & (Hio5 & Hd5 & Hw5)).
  { by rewrite lookup_insert_eq, fupd_eq. }
  exists s5, h. split_and!.
  - unfold write_head. run done. rewrite (ls_log _ _ _ _ _ _ _ Hst), (li_dev _ _ _ _ Hl), (li_start _ _ _ _ Hl), u32_small by lia.
    run exact E1. run (by apply (gets_log' Hst (conj Hio1 (conj Hd1 Hw1)))).
    run exact E2. run exact E3. run exact E4. exact E5.
  - split.
    + rewrite delete_insert_eq, (delete_id ∅) in Hc5 by done. replace (Ds ∖ {[start]}) with Ds in Hc5; [done|].
      apply set_eq. set_solver.
    + rewrite <-(ls_log _ _ _ _ _ _ _ Hst). apply same_io_log.
      eauto 10 using same_io_trans.
    + rewrite apply_writes_app, Hd5, Hd4, Hd3, Hd2, Hd1, (ls_disk _ _ _ _ _ _ _ Hst). done.
    + rewrite reverse_snoc, Hw5, Hw4, Hw3, Hw2, Hw1, (ls_writes _ _ _ _ _ _ _ Hst). done.
    + apply Hst.
  - by rewrite length_seqZ, (li_n _ _ _ _ Hl), Nat2Z.id, firstn_all in Hh.
Qed.

(** What [install_trans] writes: the logged contents, at the blocks' homes. *)
Definition home_writes (val : Z → list Z) : list (Z * list Z) :=
  imap (λ i b, (b, val (start + 1 + Z.of_nat i))) blks.

Lemma home_writes_lookup val i b :
  blks !! i = Some b → home_writes val !! i = Some (b, val (start + 1 + Z.of_nat i)).
Proof. intros Hi. unfold home_writes. by rewrite list_lookup_imap, Hi. Qed.
Lemma length_home_writes val : length (home_writes val) = length blks.
Proof. apply length_imap. Qed.

(** In a commit the blocks are dirty until they are installed, in a recovery none is. *)
Definition still_dirty (dirty : bool) (i : nat) : gset Z :=
  if dirty then list_to_set (drop i blks) else ∅.

Record in_inv (dirty : bool) (d0 : list (list Z)) (w0 W : list (Z * list Z)) (val : Z → list Z)
    (i : nat) (s : kernel) (val' : Z → list Z) : Prop := {
  in_st : logst d0 w0 (W ++ take i (home_writes val)) l (still_dirty dirty i) val' s;
  in_log_same k : in_log start nlog k → val' k = val k;
}.

Lemma still_dirty_step dirty i b :
  (dirty = true → NoDup blks) → blks !! i = Some b →
  still_dirty dirty i ∖ {[b]} = still_dirty dirty (S i) ∧ (dirty = true → b ∈ still_dirty dirty i) ∧
  (∀ x, x ∈ still_dirty dirty i → home start nlog N x) ∧ (size (still_dirty dirty i) < NBUF)%nat ∧
  (dirty = false → still_dirty dirty i = ∅).
Proof.
  intros Hnd Hb. unfold still_dirty. destruct dirty.
  - specialize (Hnd eq_refl). rewrite (drop_S _ _ _ Hb). rewrite <-(take_drop_middle _ _ _ Hb) in Hnd.
    apply NoDup_app in Hnd as (_ & _ & [Hnb _]%NoDup_cons). split_and!; [|simpl; set_solver| | |done].
    + apply set_eq. intros x. simpl. rewrite elem_of_difference, elem_of_union, !elem_of_singleton, elem_of_list_to_set.
      split; [tauto|]. intros Hx. split; [by right|]. by intros ->.
    + intros x Hx%elem_of_list_to_set. rewrite <-(drop_S _ _ _ Hb) in Hx.
      apply list_elem_of_lookup in Hx as [j Hj]. rewrite lookup_drop in Hj. by eapply blk_home.
    + apply size_blks. rewrite <-(drop_S _ _ _ Hb). intros x Hx.
      rewrite <-(take_drop i blks). apply elem_of_app. by right.
  - split_and!; try done; [set_solver|rewrite size_empty; unfold NBUF; lia].
Qed.

Lemma install_step dirty d0 w0 W val i s val' b :
  (dirty = true → NoDup blks) → in_inv dirty d0 w0 W val i s val' → blks !! i = Some b →
  ∃ s' val'', (let! l := gets k_log in
    let! lbuf := bread (l_dev l) (u32 (l_start l + Z.of_nat i + 1)) in
    let! l := gets k_log in
    let! blk := arr_get (lh_block l) (Z.of_nat i) in
    let! dbuf := bread (l_dev l) (u32 blk) in
    let! lb := buf_at lbuf in
    upd_buf dbuf (set_b_data (b_data lb)) ;;
    bwrite dbuf ;;
    brelse lbuf ;;
    brelse dbuf) s = Ok tt s' ∧ in_inv dirty d0 w0 W val (S i) s' val''.
Proof.
  intros Hnd [Hst Hlog] Hb. pose proof (lookup_lt_Some _ _ _ Hb) as Hi.
  destruct (still_dirty_step dirty i b Hnd Hb) as (Eds & HbD & Hhm & Hsz & Hemp).
  destruct (blk_home i b Hb) as [Hbr Hbl]. destruct (slot_in_log i Hi) as [HA HAr].
  pose proof (ge_width _ _ _ Hgeo) as Hw. pose proof (logst_len _ _ _ _ _ _ _ Hst) as HN.
  assert (EA : l_start l + Z.of_nat i + 1 = start + 1 + Z.of_nat i) by (rewrite (li_start _ _ _ _ Hl); lia).
  pose proof (home_writes_lookup val i b Hb) as Hwl. set (A := start + 1 + Z.of_nat i) in *.
  assert (HAb : A ≠ b) by (intros E; apply Hbl; by rewrite <-E).
  destruct (two_reads s (still_dirty dirty i) val' A b) as (lb & db & s1 & s2 & E1 & E2 & Hne & Hc2 & Hs2 & Hs1);
    [apply Hst|done|by rewrite HN|by rewrite HN|done| |].
  { destruct dirty; [left; by apply HbD|right]. rewrite Hemp by done. rewrite size_empty. unfold NBUF. lia. }
  destruct (copy_block s2 _ (still_dirty dirty i) val' lb db A b Hc2) as (s' & E3 & Hc' & Hio & Hd & Hwr).
  { done. } { done. }
  { by rewrite lookup_insert_ne, lookup_insert_eq. } { by rewrite lookup_insert_eq. }
  { rewrite delete_insert_ne by done. rewrite delete_insert_eq. by rewrite delete_insert_eq. }
  destruct Hs2 as (Hio2 & Hd2 & Hw2).
  exists s', (fupd b (val' A) val'). split.
  - run (by apply (gets_log Hst)). rewrite EA, (li_dev _ _ _ _ Hl), u32_small by lia. run exact E1.
    run (by apply (gets_log' Hst Hs1)). run (by apply blk_entry). rewrite (li_dev _ _ _ _ Hl), u32_small by lia.
    run exact E2. exact E3.
  - rewrite Hlog in Hd, Hwr by done. split.
    + rewrite (take_S_r _ _ _ Hwl), app_assoc.
      split; [by rewrite <-Eds|by rewrite (same_io_log _ _ Hio), (same_io_log _ _ Hio2); apply Hst| | |apply Hst].
      * rewrite apply_writes_app, Hd, Hd2, (ls_disk _ _ _ _ _ _ _ Hst). done.
      * rewrite reverse_snoc, Hwr, Hw2, (ls_writes _ _ _ _ _ _ _ Hst). done.
    + intros k Hk. rewrite fupd_ne; [by apply Hlog|]. by intros ->.
Qed.

Lemma install_ok dirty d0 w0 W val s :
  (dirty = true → NoDup blks) → logst d0 w0 W l (still_dirty dirty 0) val s →
  ∃ s' val', install_trans s = Ok tt s' ∧ logst d0 w0 (W ++ home_writes val) l ∅ val' s' ∧
    ∀ k, in_log start nlog k → val' k = val k.
Proof.
  intros Hnd Hst.
  assert (∃ s', install_trans s = Ok tt s' ∧ ∃ val', in_inv dirty d0 w0 W val (length blks) s' val')
    as (s' & E & val' & [Hi Hlog]); [apply (for_tail_inv _ (λ i s, ∃ val', in_inv dirty d0 w0 W val i s val'))|].
  - intros i s1 (v1 & [Hs1 _]). apply Hs1.
  - intros i b s1 Hb (v1 & Hi). destruct (install_step dirty d0 w0 W val i s1 v1 b Hnd Hi Hb) as (s2 & v2 & E & Hi2).
    exists s2. split; [exact E|]. by exists v2.
  - exists val. split; [by rewrite take_0, app_nil_r|done].
  - exists s', val'. split_and!; [exact E| |exact Hlog].
    rewrite <-(length_home_writes val), firstn_all, length_home_writes in Hi.
    replace (still_dirty dirty (length blks)) with (∅ : gset Z) in Hi; [done|].
    unfold still_dirty. destruct dirty; [|done]. by rewrite drop_all.
Qed.

(** The new contents of the blocks, at their homes. *)
Definition new_writes (val : Z → list Z) : list (Z * list Z) := (λ b, (b, val b)) <$> blks.
Lemma home_new_writes val val' :
  (∀ i b, blks !! i = Some b → val' (start + 1 + Z.of_nat i) = val b) → home_writes val' = new_writes val.
Proof.
  intros Hv. apply list_eq. intros i. unfold home_writes, new_writes.
  rewrite list_lookup_imap, list_lookup_fmap. destruct (blks !! i) as [b|] eqn:E; simpl; [|done].
  by rewrite (Hv _ _ E).
Qed.

(** The writes of [commit]: the log, the header (the commit point), the homes, and
    the header again. *)
Definition commit_writes (val : Z → list Z) (h1 h2 : list Z) : list (Z * list Z) :=
  log_writes val ++ [(start, h1)] ++ new_writes val ++ [(start, h2)].
End trans.

Lemma log_is_erased blks l : log_is start nlog blks l → log_is start nlog [] (set_lh_n 0 l).
Proof. intros [H1 H2 H3 H4 H5]. by split. Qed.

Lemma commit_ok blks l d0 w0 val s :
  log_is start nlog blks l → Forall (home start nlog N) blks → Z.of_nat (length blks) < nlog →
  NoDup blks → blks ≠ [] → logst d0 w0 [] l (list_to_set blks) val s → length (val start) = Z.to_nat BSIZE →
  ∃ s' h1 h2 val', commit s = Ok tt s' ∧
    logst d0 w0 (commit_writes blks val h1 h2) (set_lh_n 0 l) ∅ val' s' ∧ val' start = h2 ∧
    hdr_ok h1 (Z.of_nat (length blks)) blks ∧ hdr_ok h2 0 [].
Proof.
  intros Hl Hhome Hroom Hnd Hne Hst Hlen. pose proof Hgeo as [G1 G2 G3 G4].
  destruct (write_log_ok blks l Hl Hhome Hroom d0 w0 [] val s Hst) as (s1 & v1 & E1 & [Hst1 Hv1 Hlg1]).
  rewrite <-(length_log_writes blks val), firstn_all in Hst1. simpl in Hst1.
  destruct (write_head_ok blks l Hl Hhome Hroom d0 w0 _ _ v1 s1 Hst1) as (s2 & h1 & E2 & Hst2 & Hh1).
  { intros (j & Hj)%elem_of_list_to_set%list_elem_of_lookup.
    destruct (blk_home blks Hhome j _ Hj) as [_ Hn]. apply Hn. unfold in_log. lia. }
  { by apply (size_blks blks Hroom). } { rewrite Hv1; [done|by right]. }
  destruct (install_ok blks l Hl Hhome Hroom true d0 w0 _ (fupd start h1 v1) s2 (λ _, Hnd) Hst2)
    as (s3 & v3 & E3 & Hst3 & Hlg3).
  rewrite (home_new_writes blks val) in Hst3.
  2:{ intros i b Hi. pose proof (lookup_lt_Some _ _ _ Hi). rewrite fupd_ne by lia. by apply Hlg1. }
  set (s3' := set_k_log (set_lh_n 0 l) s3).
  assert (Hst3' : logst d0 w0 ((log_writes blks val ++ [(start, h1)]) ++ new_writes blks val) (set_lh_n 0 l) ∅ v3 s3').
  { destruct Hst3 as [Hc _ Hd Hw Hn]. split; try done. by eapply cached_same. }
  destruct (write_head_ok [] (set_lh_n 0 l) (log_is_erased _ _ Hl) ltac:(done) ltac:(simpl; lia) d0 w0 _ _ v3 s3' Hst3')
    as (s4 & h2 & E4 & Hst4 & Hh2); [done|by rewrite size_empty; unfold NBUF; lia| |].
  { rewrite Hlg3 by (unfold in_log; lia). rewrite fupd_eq. apply Hh1. }
  exists s4, h1, h2, (fupd start h2 v3). split_and!; [|by unfold commit_writes; rewrite <-!app_assoc in Hst4|apply fupd_eq|done..].
  unfold commit. run done. rewrite (ls_log _ _ _ _ _ _ _ Hst), (li_n _ _ _ _ Hl).
  rewrite (proj2 (Z.ltb_lt _ _)) by (destruct blks; [done|simpl; lia]). cbn [when].
  run exact E1. run exact E2. run exact E3.
  run (unfold upd_log, modify; rewrite (ls_log _ _ _ _ _ _ _ Hst3); reflexivity). exact E4.
Qed.

(** ** Recovery *)

(** Recovery does not touch the count of system calls. *)
Definition log_kept (l l' : log) : Prop :=
  l_outstanding l' = l_outstanding l ∧ l_committing l' = l_committing l ∧ length (lh_block l') = Z.to_nat LOGSIZE.

(** The log as [read_head] fills it in. *)
Record rh_inv (s0 : kernel) (b : nat) (blks : list Z) (val : Z → list Z) (i : nat) (s : kernel) : Prop := {
  rh_cached : cached s (<[b := (start, val start)]> ∅) ∅ val;
  rh_io : s = set_k_log (k_log s) s0;
  rh_start : l_start (k_log s) = start;
  rh_size : l_size (k_log s) = nlog;
  rh_dev : l_dev (k_log s) = 1;
  rh_n : lh_n (k_log s) = Z.of_nat (length blks);
  rh_len : log_kept (k_log s0) (k_log s);
  rh_blks j c : (j < i)%nat → blks !! j = Some c → lh_block (k_log s) !! j = Some c;
}.

Lemma read_head_step s0 b blks val i s :
  Z.of_nat (length blks) < nlog → hdr_ok (val start) (Z.of_nat (length blks)) blks →
  rh_inv s0 b blks val i s → (i < length blks)%nat →
  ∃ s', set_lh_entry (Z.of_nat i) (hdr_block (val start) (Z.of_nat i)) s = Ok tt s' ∧
    rh_inv s0 b blks val (S i) s'.
Proof.
  intros Hroom (_ & _ & Hh) [Hc Hio H1 H2 H3 H4 (H5a & H5b & H5) H6] Hi. pose proof (ge_size _ _ _ Hgeo) as Hn.
  destruct (lookup_lt_is_Some_2 _ _ Hi) as [c Hcc]. rewrite (Hh _ _ Hcc).
  destruct (lookup_lt_is_Some_2 (lh_block (k_log s)) i) as [o Ho]; [unfold LOGSIZE in *; lia|].
  eexists. split.
  - unfold set_lh_entry. run done. run (unfold arr_get; rewrite (proj2 (Z.ltb_ge _ _)), Nat2Z.id, Ho by lia; reflexivity).
    reflexivity.
  - cbn [upd_log]. rewrite Nat2Z.id. split; simpl; try done.
    + by eapply cached_same.
    + rewrite Hio. by destruct s0.
    + unfold log_kept. simpl. by rewrite length_insert.
    + intros j d Hj Hd. destruct (decide (j = i)) as [->|Hne].
      * rewrite list_lookup_insert_eq by (eapply lookup_lt_Some; exact Ho). congruence.
      * rewrite list_lookup_insert_ne by done. apply H6; [lia|done].
Qed.

Record log_blank (l : log) : Prop := {
  lb_start : l_start l = start;
  lb_size : l_size l = nlog;
  lb_dev : l_dev l = 1;
  lb_len : length (lh_block l) = Z.to_nat LOGSIZE;
}.

Lemma read_head_ok d0 w0 l blks val s :
  logst d0 w0 [] l ∅ val s → log_blank l → Z.of_nat (length blks) < nlog →
  hdr_ok (val start) (Z.of_nat (length blks)) blks →
  ∃ s' l', read_head s = Ok tt s' ∧ logst d0 w0 [] l' ∅ val s' ∧ log_is start nlog blks l' ∧ log_kept l l'.
Proof.
  intros Hst [B1 B2 B3 B4] Hroom Hh. pose proof (logst_len _ _ _ _ _ _ _ Hst) as HN. pose proof Hgeo as [G1 G2 G3 G4].
  destruct (cached_read s ∅ ∅ val start (ls_cached _ _ _ _ _ _ _ Hst)) as (b & s1 & E1 & _ & Hc1 & (Hio1 & Hd1 & Hw1)).
  { rewrite HN. lia. } { done. } { right. rewrite hblks_empty, union_empty_r_L, size_empty. unfold NBUF. lia. }
  destruct (cached_at _ _ _ _ _ _ _ Hc1 (lookup_insert_eq _ _ _)) as (r & Hr & Hrd & _).
  pose proof Hh as (_ & Hhn & _).
  assert (El : k_log s1 = l) by (rewrite (same_io_log _ _ Hio1); apply Hst).
  set (s2 := set_k_log (set_lh_n (Z.of_nat (length blks)) l) s1).
  destruct (for_each_inv (seqZ 0 (Z.of_nat (length blks))) (λ i, set_lh_entry i (hdr_block (val start) i))
    (rh_inv s1 b blks val) s2) as (s3 & E3 & [Hc3 Hio3 H1 H2 H3 H4 H5 H6]).
  { intros i x s' [-> Hi]%lookup_seqZ Hinv. rewrite Z.add_0_l. apply read_head_step; try done. lia. }
  { split; simpl; try done; [by eapply cached_same|by rewrite El|lia]. }
  destruct (cached_release s3 _ _ _ b start Hc3 (lookup_insert_eq _ _ _)) as (s4 & E4 & Hc4 & (Hio4 & Hd4 & Hw4)).
  exists s4, (k_log s3). split_and!.
  - unfold read_head. run done. rewrite (ls_log _ _ _ _ _ _ _ Hst), B3, B1, u32_small by lia.
    run exact E1. run exact Hr. rewrite Hrd, Hhn.
    run (unfold upd_log, modify; rewrite El; reflexivity). run exact E3. exact E4.
  - split.
    + by rewrite delete_insert_eq, delete_empty in Hc4.
    + by apply same_io_log.
    + rewrite Hd4, Hio3. simpl. rewrite Hd1. apply Hst.
    + rewrite Hw4, Hio3. simpl. rewrite Hw1. apply Hst.
    + apply Hst.
  - split; try done. intros i c Hi. apply H6; [|done]. rewrite length_seqZ, Nat2Z.id. by eapply lookup_lt_Some.
  - by rewrite El in H5.
Qed.

Lemma recover_ok d0 w0 l blks val s :
  logst d0 w0 [] l ∅ val s → log_blank l → Forall (home start nlog N) blks → Z.of_nat (length blks) < nlog →
  hdr_ok (val start) (Z.of_nat (length blks)) blks →
  ∃ s' h l' val', recover_from_log s = Ok tt s' ∧ hdr_ok h 0 [] ∧
    logst d0 w0 (home_writes blks val ++ [(start, h)]) l' ∅ val' s' ∧
    val' start = h ∧ log_is start nlog [] l' ∧ log_kept l l'.
Proof.
  intros Hst Hb Hhome Hroom Hh. pose proof Hgeo as [G1 G2 G3 G4].
  destruct (read_head_ok d0 w0 l blks val s Hst Hb Hroom Hh) as (s1 & l1 & E1 & Hst1 & Hl1 & Hlk1).
  destruct (install_ok blks l1 Hl1 Hhome Hroom false d0 w0 [] val s1 ltac:(done) Hst1) as (s2 & v2 & E2 & Hst2 & Hlg2).
  set (s2' := set_k_log (set_lh_n 0 l1) s2).
  assert (Hst2' : logst d0 w0 (home_writes blks val) (set_lh_n 0 l1) ∅ v2 s2').
  { destruct Hst2 as [Hc _ Hd Hw Hn]. split; try done. by eapply cached_same. }
  destruct (write_head_ok [] (set_lh_n 0 l1) (log_is_erased _ _ Hl1) ltac:(done) ltac:(simpl; lia) d0 w0 _ _ v2 s2' Hst2')
    as (s3 & h & E3 & Hst3 & Hh3); [done|rewrite size_empty; unfold NBUF; lia| |].
  { rewrite Hlg2 by (unfold in_log; lia). apply Hh. }
  exists s3, h, (set_lh_n 0 l1), (fupd start h v2). split_and!; [|done|done|apply fupd_eq|by apply log_is_erased with blks|apply Hlk1..].
  unfold recover_from_log. run exact E1. run exact E2.
  run (unfold upd_log, modify; rewrite (ls_log _ _ _ _ _ _ _ Hst2); reflexivity). exact E3.
Qed.

(** [initlog], on a disk whose superblock [v1] places the log. *)
Definition sb_ok (v1 : list Z) : Prop := i32 (get32 v1 16) = start ∧ i32 (get32 v1 12) = nlog.

Lemma readsb_ok d0 w0 l val s :
  logst d0 w0 [] l ∅ val s → 1 < Z.of_nat N →
  ∃ s' sb, readsb 1 s = Ok sb s' ∧ logst d0 w0 [] l ∅ val s' ∧
    sb_logstart sb = get32 (val 1) 16 ∧ sb_nlog sb = get32 (val 1) 12.
Proof.
  intros Hst H1. pose proof (logst_len _ _ _ _ _ _ _ Hst) as HN.
  destruct (cached_read s ∅ ∅ val 1 (ls_cached _ _ _ _ _ _ _ Hst)) as (b & s1 & E1 & _ & Hc1 & (Hio1 & Hd1 & Hw1)).
  { rewrite HN. lia. } { done. } { right. rewrite hblks_empty, union_empty_r_L, size_empty. unfold NBUF. lia. }
  destruct (cached_at _ _ _ _ _ _ _ Hc1 (lookup_insert_eq _ _ _)) as (r & Hr & Hrd & _).
  destruct (cached_release s1 _ _ _ b 1 Hc1 (lookup_insert_eq _ _ _)) as (s2 & E2 & Hc2 & (Hio2 & Hd2 & Hw2)).
  eexists s2, _. split_and!; [unfold readsb; run exact E1; run exact Hr; cbv zeta; run exact E2; reflexivity| |by rewrite <-Hrd..].
  split; [by rewrite delete_insert_eq, delete_empty in Hc2| | | |apply Hst].
  - rewrite (same_io_log _ _ Hio2), (same_io_log _ _ Hio1). apply Hst.
  - rewrite Hd2, Hd1. apply Hst.
  - rewrite Hw2, Hw1. apply Hst.
Qed.

Lemma logst_upd_log d0 w0 W l Ds val s f :
  logst d0 w0 W l Ds val s → ∃ s', upd_log f s = Ok tt s' ∧ logst d0 w0 W (f l) Ds val s'.
Proof.
  intros [Hc Hl Hd Hw Hn]. eexists. split; [reflexivity|]. split; simpl; try done; [by eapply cached_same|by rewrite Hl].
Qed.

Lemma initlog_ok d0 w0 l blks val s :
  logst d0 w0 [] l ∅ val s → length (lh_block l) = Z.to_nat LOGSIZE → 1 < Z.of_nat N → sb_ok (val 1) →
  Forall (home start nlog N) blks → Z.of_nat (length blks) < nlog →
  hdr_ok (val start) (Z.of_nat (length blks)) blks →
  ∃ s' h l' val', initlog 1 s = Ok tt s' ∧ hdr_ok h 0 [] ∧
    logst d0 w0 (home_writes blks val ++ [(start, h)]) l' ∅ val' s' ∧
    val' start = h ∧ log_is start nlog [] l' ∧ log_kept l l'.
Proof.
  intros Hst Hlen H1 [Hs1 Hs2] Hhome Hroom Hh.
  destruct (readsb_ok d0 w0 l val s Hst H1) as (s1 & sb & E1 & Hst1 & Eb1 & Eb2).
  destruct (logst_upd_log _ _ _ _ _ _ _ (set_l_start start) Hst1) as (s2 & E2 & Hst2).
  destruct (logst_upd_log _ _ _ _ _ _ _ (set_l_size nlog) Hst2) as (s3 & E3 & Hst3).
  destruct (logst_upd_log _ _ _ _ _ _ _ (set_l_dev 1) Hst3) as (s4 & E4 & Hst4).
  destruct (recover_ok d0 w0 _ blks val s4 Hst4) as (s5 & h & l' & v' & E5 & Hh5 & Hst5 & Hvs & Hl' & Hlk); [by split|done..|].
  exists s5, h, l', v'. split_and!; [|done|done|done|done|apply Hlk..].
  unfold initlog. change (BSIZE <=? sizeof_logheader) with false. cbv iota. run exact E1.
  rewrite Eb1, Hs1, Eb2, Hs2. run exact E2. run exact E3. run exact E4. exact E5.
Qed.

(** ** Crashes *)

(** What recovery makes of a disk [d] whose header names [bs]. *)
Lemma recovered_home (val : Z → list Z) bs d vd h b :
  length d = N → Forall (home start nlog N) bs → home start nlog N b →
  (∀ i c, bs !! i = Some c → vd (start + 1 + Z.of_nat i) = val c) →
  apply_writes (home_writes bs vd ++ [(start, h)]) d !! Z.to_nat b =
    if decide (b ∈ bs) then Some (val b) else d !! Z.to_nat b.
Proof.
  intros Hd Hbs [Hr Hn] Hv.
  assert (Hkey : ∀ w, w ∈ home_writes bs vd ++ [(start, h)] → Z.to_nat (fst w) = Z.to_nat b → b ∈ bs ∧ snd w = val b).
  { pose proof Hgeo as [G1 G2 _ _]. intros w [(i & Hi)%list_elem_of_lookup| ->%list_elem_of_singleton]%elem_of_app E.
    - unfold home_writes in Hi. rewrite list_lookup_imap in Hi. apply fmap_Some in Hi as (c & Hc & ->). simpl in *.
      destruct (Forall_lookup_1 _ _ _ _ Hbs Hc) as [Hcr _]. assert (c = b) as -> by lia.
      split; [by eapply list_elem_of_lookup_2|by apply Hv].
    - simpl in E. destruct Hn. unfold in_log. lia. }
  destruct (decide (b ∈ bs)) as [Hb|Hb].
  - apply apply_writes_same; [lia| |by intros w ? ?; apply Hkey].
    apply list_elem_of_lookup in Hb as [i Hi]. exists (b, vd (start + 1 + Z.of_nat i)).
    split; [|done]. apply elem_of_app. left. eapply list_elem_of_lookup_2. by apply home_writes_lookup.
  - apply apply_writes_other. intros w Hw E. by destruct (Hkey w Hw E).
Qed.

Section crash.
Context (blks : list Z) (val : Z → list Z) (h1 h2 : list Z) (d0 : list (list Z)).
Hypothesis Hhome : Forall (home start nlog N) blks.
Hypothesis Hroom : Z.of_nat (length blks) < nlog.
Hypothesis Hd0 : length d0 = N.
Hypothesis Hclean : ∀ k, 0 ≤ k < Z.of_nat N → k ∉ blks → d0 !! Z.to_nat k = Some (val k).

Lemma log_write_key w : w ∈ log_writes blks val → 
  ∃ i b, blks !! i = Some b ∧ w = (start + 1 + Z.of_nat i, val b) ∧ in_log start nlog (fst w).
Proof.
  intros (i & Hi)%list_elem_of_lookup. unfold log_writes in Hi. rewrite list_lookup_imap in Hi.
  apply fmap_Some in Hi as (b & Hb & ->). exists i, b. split_and!; try done.
  apply (slot_in_log blks Hroom). by eapply lookup_lt_Some.
Qed.
Lemma new_write_key w : w ∈ new_writes blks val → w = (fst w, val (fst w)) ∧ fst w ∈ blks ∧ home start nlog N (fst w).
Proof.
  intros (b & -> & Hb)%list_elem_of_fmap. simpl. split_and!; try done. by eapply Forall_forall.
Qed.

(** Before the commit point only the log has changed. *)
Lemma crash_before k :
  (k ≤ length (log_writes blks val))%nat →
  let d := apply_writes (take k (commit_writes blks val h1 h2)) d0 in
  ∀ b, (home start nlog N b ∨ b = start) → d !! Z.to_nat b = d0 !! Z.to_nat b.
Proof.
  intros Hk d b Hb. unfold d, commit_writes. rewrite take_app_le by done. apply apply_writes_other.
  intros w Hw. assert (Hw' : w ∈ log_writes blks val).
  { rewrite <-(take_drop k (log_writes _ _)). apply elem_of_app. by left. }
  apply log_write_key in Hw' as (i & c & Hi & -> & Hin). simpl in *. pose proof Hgeo as [G1 _ _ _].
  destruct Hb as [[? Hn]| ->]; [|lia]. intros E. apply Hn. replace b with (start + 1 + Z.of_nat i) by lia. done.
Qed.

(** After it the header names the blocks, the log has their new contents, and every
    other block is as it should be. *)
Lemma crash_after j :
  let d := apply_writes (log_writes blks val ++ [(start, h1)] ++ take j (new_writes blks val)) d0 in
  d !! Z.to_nat start = Some h1 ∧
  (∀ i b, blks !! i = Some b → d !! Z.to_nat (start + 1 + Z.of_nat i) = Some (val b)) ∧
  ∀ b, home start nlog N b → b ∉ blks → d !! Z.to_nat b = Some (val b).
Proof.
  intros d. pose proof Hgeo as [G1 G2 G3 G4].
  assert (Hnew : ∀ w, w ∈ take j (new_writes blks val) → w = (fst w, val (fst w)) ∧ fst w ∈ blks ∧ home start nlog N (fst w)).
  { intros w Hw. apply new_write_key. rewrite <-(take_drop j (new_writes _ _)). apply elem_of_app. by left. }
  assert (Hnl : ∀ b w, in_log start nlog b → w ∈ take j (new_writes blks val) → Z.to_nat (fst w) ≠ Z.to_nat b).
  { intros b w Hb (_ & _ & [Hw Hn])%Hnew E. apply Hn. unfold in_log in *. lia. }
  split_and!.
  - unfold d. rewrite !apply_writes_app, apply_writes_other.
    + simpl. rewrite list_lookup_insert_eq; [done|]. rewrite length_apply_writes. lia.
    + intros w. apply Hnl. unfold in_log. lia.
  - intros i b Hi. pose proof (lookup_lt_Some _ _ _ Hi) as Hlt.
    destruct (slot_in_log blks Hroom i Hlt) as [Hin Hr]. unfold d. rewrite !apply_writes_app, apply_writes_other.
    2:{ intros w. by apply Hnl. }
    rewrite apply_writes_other. 2:{ intros w ->%list_elem_of_singleton. simpl. lia. }
    apply apply_writes_same; [lia| |].
    + eexists. split; [eapply list_elem_of_lookup_2; by apply log_writes_lookup|done].
    + intros w (i' & b' & Hi' & -> & _)%log_write_key. simpl. intros E.
      assert (i' = i) as -> by lia. congruence.
  - intros b [Hr Hn] Hnb. unfold d. rewrite apply_writes_other; [by apply Hclean|].
    intros w [Hw|[->%list_elem_of_singleton|Hw]%elem_of_app]%elem_of_app E.
    + apply log_write_key in Hw as (i & c & Hi & -> & Hin). simpl in *. apply Hn.
      replace b with (start + 1 + Z.of_nat i) by lia. done.
    + simpl in E. apply Hn. unfold in_log. lia.
    + apply Hnew in Hw as (_ & Hin & [Hw _]). apply Hnb. by replace b with (fst w) by lia.
Qed.

(** The whole transaction is on the disk. *)
Lemma crash_done :
  let d := apply_writes (commit_writes blks val h1 h2) d0 in
  d !! Z.to_nat start = Some h2 ∧ ∀ b, home start nlog N b → d !! Z.to_nat b = Some (val b).
Proof.
  intros d. pose proof Hgeo as [G1 G2 G3 G4]. split.
  - unfold d, commit_writes. rewrite !apply_writes_app. simpl.
    rewrite list_lookup_insert_eq; [done|]. rewrite !length_apply_writes, length_insert, length_apply_writes. lia.
  - intros b [Hr Hn]. destruct (decide (b ∈ blks)) as [Hb|Hb].
    + unfold d, commit_writes. apply apply_writes_same; [lia| |].
      * exists (b, val b). split; [|done]. rewrite !elem_of_app. right. right. left.
        apply list_elem_of_fmap. by exists b.
      * intros w [Hw|[->%list_elem_of_singleton|[Hw| ->%list_elem_of_singleton]%elem_of_app]%elem_of_app]%elem_of_app E.
        -- apply log_write_key in Hw as (i & c & Hi & -> & Hin). simpl in *. destruct Hn.
           replace b with (start + 1 + Z.of_nat i) by lia. done.
        -- simpl in E. destruct Hn. unfold in_log. lia.
        -- apply new_write_key in Hw as (Ew & Hin & [Hw _]). rewrite Ew. simpl. f_equal. lia.
        -- simpl in E. destruct Hn. unfold in_log. lia.
    + unfold d, commit_writes. rewrite (app_assoc [(start, h1)]), app_assoc, apply_writes_app, apply_writes_other.
      * pose proof (crash_after (length (new_writes blks val))) as (_ & _ & H3). rewrite firstn_all in H3. by apply H3.
      * intros w ->%list_elem_of_singleton. simpl. intros E. apply Hn. unfold in_log. lia.
Qed.
End crash.

(** A disk on which no transaction is committed: the superblock places the log, the
    header is empty. *)
Record disk_quiet (blks : list Z) (val : Z → list Z) : Prop := {
  dq_sb : sb_ok (val 1);
  dq_one : home start nlog N 1;
  dq_notone : 1 ∉ blks;
  dq_hdr : hdr_ok (val start) 0 [];
}.

(** The next boot, [sb], finds the disk as the first [k] writes of the commit left it. *)
Lemma crash_recovers blks val h1 h2 d0 k sb vb lb wb :
  Forall (home start nlog N) blks → Z.of_nat (length blks) < nlog → length d0 = N →
  (∀ b, 0 ≤ b < Z.of_nat N → b ∉ blks → d0 !! Z.to_nat b = Some (val b)) →
  disk_quiet blks val → hdr_ok h1 (Z.of_nat (length blks)) blks → hdr_ok h2 0 [] →
  logst (apply_writes (take k (commit_writes blks val h1 h2)) d0) wb [] lb ∅ vb sb →
  length (lh_block lb) = Z.to_nat LOGSIZE →
  ∃ sb', initlog 1 sb = Ok tt sb' ∧ ∀ b, home start nlog N b →
    k_disk sb' !! Z.to_nat b = if decide (k ≤ length blks)%nat then d0 !! Z.to_nat b else Some (val b).
Proof.
  intros Hhome Hroom Hd0 Hclean [Q1 Q2 Q3 Q4] Hh1 Hh2 Hst Hlb. pose proof Hgeo as [G1 G2 G3 G4].
  set (d := apply_writes _ d0) in Hst.
  assert (Hd : ∀ b, 0 ≤ b < Z.of_nat N → d !! Z.to_nat b = Some (vb b)).
  { intros b Hb. assert (Ek : k_disk sb = d) by apply (ls_disk _ _ _ _ _ _ _ Hst). rewrite <-Ek.
    eapply cached_disk; [apply Hst|by rewrite (logst_len _ _ _ _ _ _ _ Hst)|done]. }
  assert (Hld : length d = N) by (unfold d; by rewrite length_apply_writes).
  assert (Hs0 : d0 !! Z.to_nat start = Some (val start)).
  { apply Hclean; [lia|]. intros Hin. eapply Forall_forall in Hhome as [_ Hn]; [|done]. apply Hn. unfold in_log. lia. }
  assert (Hgo : ∀ bs, Forall (home start nlog N) bs → Z.of_nat (length bs) < nlog →
    hdr_ok (vb start) (Z.of_nat (length bs)) bs → vb 1 = val 1 →
    (∀ i c, bs !! i = Some c → vb (start + 1 + Z.of_nat i) = val c) →
    ∃ sb', initlog 1 sb = Ok tt sb' ∧ ∀ b, home start nlog N b → k_disk sb' !! Z.to_nat b =
      if decide (b ∈ bs) then Some (val b) else d !! Z.to_nat b).
  { intros bs Hbs Hbr Hbh H1 Hbv. destruct (initlog_ok d wb lb bs vb sb) as (sb' & h & l' & v' & E & _ & Hst' & _);
      [done|done|destruct Q2; lia|by rewrite H1|done..|].
    exists sb'. split; [done|]. intros b Hb. rewrite (ls_disk _ _ _ _ _ _ _ Hst'). by apply recovered_home. }
  assert (Hsome : ∀ b v, 0 ≤ b < Z.of_nat N → d !! Z.to_nat b = Some v → vb b = v).
  { intros b v Hb Hv. rewrite Hd in Hv by done. congruence. }
  destruct (decide (k ≤ length blks)%nat) as [Hk|Hk].
  - pose proof (crash_before blks val h1 h2 d0 Hroom Hd0 k ltac:(by rewrite length_log_writes)) as Hb. fold d in Hb.
    destruct (Hgo []) as (sb' & E & Hsb); try done; try (simpl; lia).
    + rewrite (Hsome start (val start)); [done|lia|]. rewrite Hb by by right. done.
    + apply Hsome; [apply Q2|]. rewrite Hb by by left. apply Hclean; [apply Q2|done].
    + exists sb'. split; [done|]. intros b Hbh. rewrite Hsb by done. by apply Hb; left.
  - destruct (decide (k ≤ S (length blks + length blks))%nat) as [Hk2|Hk2].
    + assert (Ed : d = apply_writes (log_writes blks val ++ [(start, h1)] ++ take (k - S (length blks)) (new_writes blks val)) d0).
      { unfold d, commit_writes. f_equal. rewrite take_app_ge by (rewrite length_log_writes; lia). f_equal.
        rewrite length_log_writes. destruct (k - length blks)%nat as [|m] eqn:Em; [lia|]. simpl. f_equal.
        rewrite take_app_le by (unfold new_writes; rewrite length_fmap; lia). f_equal. lia. }
      pose proof (crash_after blks val h1 d0 Hhome Hroom Hd0 Hclean (k - S (length blks))) as (C1 & C2 & C3).
      rewrite <-Ed in C1, C2, C3.
      destruct (Hgo blks) as (sb' & E & Hsb); try done.
      * by rewrite (Hsome start h1) by (done || lia).
      * apply Hsome; [apply Q2|by apply C3].
      * intros i c Hi. apply Hsome; [|by apply C2]. apply (slot_in_log blks Hroom). by eapply lookup_lt_Some.
      * exists sb'. split; [done|]. intros b Hb. rewrite Hsb by done. case_decide; [done|by apply C3].
    + assert (Ed : d = apply_writes (commit_writes blks val h1 h2) d0).
      { unfold d. f_equal. apply take_ge. unfold commit_writes, new_writes.
        rewrite !length_app, length_log_writes, length_fmap. simpl. lia. }
      pose proof (crash_done blks val h1 h2 d0 Hhome Hroom Hd0 Hclean) as (C1 & C2). rewrite <-Ed in C1, C2.
      destruct (Hgo []) as (sb' & E & Hsb); try done; try (simpl; lia).
      * by rewrite (Hsome start h2) by (done || lia).
      * apply Hsome; [apply Q2|by apply C2].
      * exists sb'. split; [done|]. intros b Hb. rewrite Hsb by done. by apply C2.
Qed.

(** ** Transactions *)

(** A transaction under way: [blks] are the blocks it has changed so far, [val] the
    contents of every block as the file system sees them, [Hd] the buffers held. *)
Record txn (s : kernel) (Hd : holds) (blks : list Z) (val : Z → list Z) : Prop := {
  tx_cached : cached s Hd (list_to_set blks) val;
  tx_log : log_is start nlog blks (k_log s);
  tx_cap : length (lh_block (k_log s)) = Z.to_nat LOGSIZE;
  tx_home : Forall (home start nlog N) blks;
  tx_nodup : NoDup blks;
  tx_room : Z.of_nat (length blks) < nlog;
  tx_disk : length (k_disk s) = N;
  tx_quiet : disk_quiet blks val;
}.

(** What the system calls of a transaction leave alone: all but the cache and the
    log, the disk included. *)
Definition kept (s s' : kernel) : Prop :=
  s' = set_k_bcache (k_bcache s') (set_k_log (k_log s') s) ∧
  l_outstanding (k_log s') = l_outstanding (k_log s) ∧ l_committing (k_log s') = l_committing (k_log s).

#[export] Instance kept_preorder : PreOrder kept.
Proof.
  split; [intros s; by destruct s|]. intros s1 s2 s3 (E1 & O1 & C1) (E2 & O2 & C2).
  split; [|by rewrite O2, C2]. rewrite E2, E1. by destruct s3.
Qed.

Lemma same_disk_kept s s' : same_disk s s' → kept s s'.
Proof.
  intros (E & Ed & Ew). unfold same_io in E. rewrite Ed, Ew in E. split; rewrite E; [by destruct s|done].
Qed.

(** The transaction after [blk] has been logged: a block is logged once. *)
Definition logged (blks : list Z) (blk : Z) : list Z := if decide (blk ∈ blks) then blks else blks ++ [blk].

(** The absorption loop finds the slot of a logged block, or the end. *)
Lemma log_slot_eq blks l s blk :
  k_log s = l → log_is start nlog blks l → Forall (home start nlog N) blks → 0 ≤ blk < Z.of_nat N →
  ∃ i, log_slot blk s = Ok (Z.of_nat i) s ∧
    (blk ∈ blks ∧ blks !! i = Some blk ∨ (blk ∉ blks) ∧ i = length blks).
Proof.
  intros El Hl Hhome Hr. pose proof (ge_width _ _ _ Hgeo) as Hw. unfold log_slot. run done. rewrite El.
  assert (Hbody : ∀ i b, blks !! i = Some b →
    (let! v := arr_get (lh_block l) (Z.of_nat i) in ret (if (u32 v =? blk) then Some (Z.of_nat i) else None)) s =
    Ok (if decide (b = blk) then Some (Z.of_nat i) else None) s).
  { intros i b Hi. run (unfold arr_get; rewrite (proj2 (Z.ltb_ge _ _)), Nat2Z.id, (li_blks _ _ _ _ Hl _ _ Hi) by lia; reflexivity).
    destruct (Forall_lookup_1 _ _ _ _ Hhome Hi) as [Hb _]. rewrite u32_small by lia.
    case_decide as E; [by rewrite E, Z.eqb_refl|by rewrite (proj2 (Z.eqb_neq _ _))]. }
  assert (Hseq : ∀ i, (i < length blks)%nat → seqZ 0 (lh_n l) !! i = Some (Z.of_nat i)).
  { intros i Hi. apply lookup_seqZ. rewrite (li_n _ _ _ _ Hl). lia. }
  destruct (list_find (λ b, b = blk) blks) as [[i b]|] eqn:Ef.
  - apply list_find_Some in Ef as (Hi & -> & Hmin). exists i.
    assert (Hlt : (i < length blks)%nat) by by eapply lookup_lt_Some.
    split; [|left; split; [by eapply list_elem_of_lookup_2|done]].
    rewrite (bind_Ok _ _ _ (Some (Z.of_nat i)) s); [done|].
    eapply (for_find_states_Some _ _ (λ _, s) i (Z.of_nat i)); [by apply Hseq| |].
    + rewrite (Hbody _ _ Hi). by rewrite decide_True.
    + intros j y Hj Hy. rewrite Hseq in Hy by lia. injection Hy as <-.
      destruct (lookup_lt_is_Some_2 blks j) as [c Hc]; [lia|]. rewrite (Hbody _ _ Hc).
      rewrite decide_False; [done|]. by eapply Hmin.
  - exists (length blks). assert (Hn : blk ∉ blks).
    { intros Hin. apply list_find_None in Ef. eapply Forall_forall in Ef; [|done]. done. }
    split; [|by right]. rewrite (bind_Ok _ _ _ None s).
    + by rewrite (li_n _ _ _ _ Hl).
    + apply (for_find_states_None _ _ (λ _, s)). intros i y Hy. pose proof Hy as [-> Hi]%lookup_seqZ. rewrite (li_n _ _ _ _ Hl) in Hi. rewrite Z.add_0_l.
      destruct (lookup_lt_is_Some_2 blks i) as [c Hc]; [lia|]. rewrite (Hbody _ _ Hc).
      rewrite decide_False; [done|]. intros ->. apply Hn. by eapply list_elem_of_lookup_2.
Qed.

Lemma buf_at_inv b s r s' : buf_at b s = Ok r s' → k_bcache s !! b = Some r.
Proof. unfold buf_at. destruct (k_bcache s !! b); congruence. Qed.

(** The log record after [log_write] of [blk] at slot [i]. *)
Definition logged_rec (i : nat) (blk : Z) (l : log) : log :=
  let l1 := set_lh_block (<[i := blk]> (lh_block l)) l in
  if decide (Z.of_nat i = lh_n l) then set_lh_n (lh_n l + 1) l1 else l1.

Lemma logged_rec_is blks l i blk :
  log_is start nlog blks l → (length blks < length (lh_block l))%nat →
  (blk ∈ blks ∧ blks !! i = Some blk ∨ (blk ∉ blks) ∧ i = length blks) →
  log_is start nlog (logged blks blk) (logged_rec i blk l) ∧
  length (lh_block (logged_rec i blk l)) = length (lh_block l).
Proof.
  intros [H1 H2 H3 H4 H5] Hlen Hi. unfold logged_rec, logged. rewrite H4.
  destruct Hi as [[Hin Hi]|[Hin ->]].
  - rewrite (decide_True (P := blk ∈ blks)) by done. pose proof (lookup_lt_Some _ _ _ Hi).
    rewrite decide_False by lia. split; [|simpl; by rewrite length_insert]. split; simpl; try done.
    intros j c Hj. destruct (decide (j = i)) as [->|Hne]; [|by rewrite list_lookup_insert_ne; [apply H5|]].
    rewrite list_lookup_insert_eq; [congruence|lia].
  - rewrite (decide_False (P := blk ∈ blks)) by done. rewrite decide_True by done.
    split; [|simpl; by rewrite length_insert]. split; simpl; try done.
    + rewrite length_app. simpl. lia.
    + intros j c [Hj|[Hge Hj]]%lookup_app_Some.
      * pose proof (lookup_lt_Some _ _ _ Hj). rewrite list_lookup_insert_ne by lia. by apply H5.
      * destruct (j - length blks)%nat as [|m] eqn:E; [|done]. simpl in Hj. injection Hj as ->.
        replace j with (length blks) by lia. by apply list_lookup_insert_eq.
Qed.

Lemma set_log_rec {A} (rest : K A) s i blk :
  (i < length (lh_block (k_log s)))%nat →
  (set_lh_entry (Z.of_nat i) blk ;;
   let! l := gets k_log in
   when (Z.of_nat i =? lh_n l) (upd_log (set_lh_n (lh_n l + 1))) ;;
   rest) s = rest (set_k_log (logged_rec i blk (k_log s)) s).
Proof.
  intros Hi. destruct (lookup_lt_is_Some_2 _ _ Hi) as [o Ho]. unfold set_lh_entry, logged_rec.
  erewrite bind_Ok.
  2:{ run done. run (unfold arr_get; rewrite (proj2 (Z.ltb_ge _ _)), Nat2Z.id, Ho by lia; reflexivity). reflexivity. }
  rewrite Nat2Z.id. cbv beta. run done. cbn [k_log set_k_log lh_n set_lh_block].
  destruct (Z.eqb_spec (Z.of_nat i) (lh_n (k_log s))) as [E|E].
  - rewrite decide_True by done. by run done.
  - rewrite decide_False by done. by run done.
Qed.

Lemma log_write_ok s Hd blks val b blk v :
  txn s Hd blks val → Hd !! b = Some (blk, v) → home start nlog N blk → blk ≠ 1 →
  1 ≤ l_outstanding (k_log s) → Z.of_nat (length blks) < nlog - 1 →
  ∃ s', log_write b s = Ok tt s' ∧ txn s' Hd (logged blks blk) (fupd blk v val) ∧
    kept s s'.
Proof.
  intros [T1 T2 T3 T4 T5 T6 T7 [Q1 Q2 Q3 Q4]] Hb Hbh Hb1 Hout Hfull.
  pose proof Hgeo as [G1 G2 G3 G4]. pose proof (cached_alone _ _ _ _ T1) as Hal.
  destruct (cached_at _ _ _ _ _ _ _ T1 Hb) as (r & Hr%buf_at_inv & _ & Hrb).
  destruct (log_slot_eq blks (k_log s) (locked LK_log s) blk) as (i & Ei & Hi); [done..|destruct Hbh; lia|].
  assert (Hil : (i < length (lh_block (k_log s)))%nat).
  { unfold LOGSIZE in *. destruct Hi as [[_ Hi%lookup_lt_Some]|[_ ->]]; lia. }
  destruct (logged_rec_is blks (k_log s) i blk T2) as [Hl' Hcap]; [unfold LOGSIZE in *; lia|done|].
  set (l' := logged_rec i blk (k_log s)) in *. set (s1 := set_k_log l' s).
  assert (Hc1 : cached s1 Hd (list_to_set blks) val) by by eapply cached_same.
  destruct (cached_dirty s1 Hd _ val b blk v Hc1 Hb) as (s' & E & Hc' & _).
  rewrite (upd_buf_eq s1 b r) in E by done. injection E as Es'.
  exists s'. split_and!.
  - unfold log_write. run done. rewrite (li_n _ _ _ _ T2), (li_size _ _ _ _ T2).
    rewrite (proj2 (Z.leb_gt _ _)), (proj2 (Z.leb_gt _ _)), (proj2 (Z.ltb_ge _ _)) by lia. cbn [orb].
    run (by eapply acquire_alone). run (by apply buf_at_eq). rewrite Hrb. run exact Ei.
    rewrite i32_small by (destruct Hbh; lia).
    rewrite set_log_rec by done. run (by apply (upd_buf_eq _ b r)).
    erewrite (release_calm LK_log s); [|apply Hal|rewrite (qu_held _ _ Hal); apply not_elem_of_nil|done|done].
    rewrite <-Es'. by destruct s.
  - subst s'. split; try done.
    + unfold logged. replace (list_to_set _) with (list_to_set blks ∪ {[blk]} : gset Z); [done|].
      apply set_eq. intros x. case_decide; [|rewrite list_to_set_app; simpl]; set_solver.
    + simpl. by rewrite Hcap.
    + unfold logged. case_decide; [done|]. apply Forall_app. split; [done|by constructor].
    + unfold logged. case_decide; [done|]. apply NoDup_app. split_and!; [done| |apply NoDup_singleton].
      intros x Hx ->%list_elem_of_singleton. done.
    + unfold logged. case_decide; [lia|]. rewrite length_app. simpl. lia.
    + split; [rewrite fupd_ne by done; done|done| |].
      * unfold logged. case_decide; [done|]. intros [?|?%list_elem_of_singleton]%elem_of_app; congruence.
      * rewrite fupd_ne; [done|]. destruct Hbh as [_ Hn]. intros E. apply Hn. rewrite <-E. unfold in_log. lia.
  - subst s'. split; [by destruct s|]. simpl. unfold l', logged_rec. by case_decide.
Qed.

(** A full log, or no transaction: [log_write] panics before it changes anything. *)
Lemma log_write_full s Hd blks val b :
  txn s Hd blks val → nlog - 1 ≤ Z.of_nat (length blks) → log_write b s = Panic "too big a transaction" s.
Proof.
  intros Ht Hn. unfold log_write. run done. rewrite (li_n _ _ _ _ (tx_log _ _ _ _ Ht)), (li_size _ _ _ _ (tx_log _ _ _ _ Ht)).
  rewrite (proj2 (Z.leb_le (nlog - 1) _)) by done. by rewrite orb_true_r.
Qed.

(** ** The end of a transaction *)

Lemma not_held l s : alone pid s → l ∉ k_held s.
Proof. intros Hal. rewrite (qu_held _ _ Hal). apply not_elem_of_nil. Qed.

(** Around [commit], end_op only counts the operation out and keeps others off. *)
Lemma end_op_run s s1 :
  alone pid s → l_outstanding (k_log s) = 1 → l_committing (k_log s) = false →
  commit (set_k_log (set_l_committing true (set_l_outstanding 0 (k_log s))) s) = Ok tt s1 →
  alone pid s1 → end_op s = Ok tt (set_k_log (set_l_committing false (k_log s1)) s1).
Proof.
  intros Hal Hout Hcom Hc Hal1. unfold end_op. run (by eapply acquire_alone). run done. run done.
  cbn [k_log set_k_log locked set_k_held set_k_cpu l_committing l_outstanding set_l_outstanding].
  rewrite Hcom, Hout. change (1 - 1 =? 0) with true. cbv iota zeta. run done.
  run (apply (release_calm LK_log s); [apply Hal|by apply not_held|done|done]).
  cbn [when]. erewrite bind_Ok by (etrans; [|exact Hc]; f_equal; by destruct s). cbv beta.
  run (by eapply acquire_alone). run done.
  assert (Hcl : calm (locked LK_log s1)) by (by eapply locked_calm).
  assert (Hw : ∀ l', wakeup CH_log (set_k_log l' (locked LK_log s1)) = Ok tt (set_k_log l' (locked LK_log s1))).
  { intros l'. apply wakeup_nobody; [by eapply calm_same; [exact Hcl|..]| |apply Hal1|].
    - simpl. rewrite (qu_held _ _ Hal1). by intros ?%list_elem_of_singleton.
    - apply (qu_log _ _ Hal1). }
  run (apply Hw). erewrite (release_calm LK_log s1); [by destruct s1|apply Hal1|by apply not_held|done|done].
Qed.

(** The first [k] writes of [W] have reached the disk [d]: whoever boots from it
    recovers the old contents, or the new ones. *)
Definition recovers (d : list (list Z)) (W : list (Z * list Z)) (k c : nat) (val : Z → list Z) : Prop :=
  ∀ sb vb, cached sb ∅ ∅ vb → k_disk sb = apply_writes (take k W) d →
    length (lh_block (k_log sb)) = Z.to_nat LOGSIZE →
    ∃ sb', initlog 1 sb = Ok tt sb' ∧ ∀ b, home start nlog N b →
      k_disk sb' !! Z.to_nat b = if decide (k < c)%nat then d !! Z.to_nat b else Some (val b).

Lemma cached_boot sb vb d W k :
  cached sb ∅ ∅ vb → k_disk sb = apply_writes (take k W) d → length d = N →
  logst (apply_writes (take k W) d) (k_dwrites sb) [] (k_log sb) ∅ vb sb.
Proof. intros Hc Hk Hd. split; try done. by rewrite length_apply_writes. Qed.

Lemma commit_nothing s l : k_log s = l → lh_n l = 0 → commit s = Ok tt s.
Proof. intros El En. unfold commit. run done. by rewrite El, En. Qed.

Lemma txn_clean s Hd blks val b :
  txn s Hd blks val → 0 ≤ b < Z.of_nat N → b ∉ blks → k_disk s !! Z.to_nat b = Some (val b).
Proof.
  intros Ht Hb Hn. eapply cached_disk; [apply Ht|by rewrite (tx_disk _ _ _ _ Ht)|].
  by rewrite elem_of_list_to_set.
Qed.

(** A transaction without blocks writes nothing, so the next boot finds the disk as it is. *)
Lemma quiet_recovers s val k : txn s ∅ [] val → recovers (k_disk s) [] k 0 val.
Proof.
  intros Ht sb vb Hcb Hk Hlb. rewrite take_nil in Hk. simpl in Hk. pose proof Ht as [T1 T2 T3 T4 T5 T6 T7 [Q1 Q2 Q3 Q4]].
  pose proof Hgeo as [G1 G2 G3 G4].
  assert (Hv : ∀ b, 0 ≤ b < Z.of_nat N → vb b = val b).
  { intros b Hb. pose proof (cached_disk _ _ _ _ b Hcb) as Hd. rewrite Hk, T7 in Hd. specialize (Hd Hb ltac:(set_solver)).
    rewrite (txn_clean _ _ _ _ b Ht Hb (not_elem_of_nil b)) in Hd. congruence. }
  destruct (initlog_ok (k_disk s) (k_dwrites sb) (k_log sb) [] vb sb) as (sb' & h & l' & v' & E & _ & Hst' & _);
    [split; try done|done|destruct Q2; lia|rewrite Hv; [done|apply Q2]|done|simpl; lia|by rewrite Hv by lia|].
  exists sb'. split; [done|]. intros b Hb. rewrite (ls_disk _ _ _ _ _ _ _ Hst').
  rewrite (recovered_home val []); try done. rewrite !decide_False by (apply not_elem_of_nil || lia).
  apply (txn_clean _ _ _ _ b Ht); [apply Hb|apply not_elem_of_nil].
Qed.

(** What a commit leaves behind is an empty transaction over the new contents. *)
Lemma commit_txn s l blks val h1 h2 val' s1 :
  txn s ∅ blks val → log_is start nlog blks l → length (lh_block l) = Z.to_nat LOGSIZE →
  logst (k_disk s) (k_dwrites s) (commit_writes blks val h1 h2) (set_lh_n 0 l) ∅ val' s1 →
  val' start = h2 → hdr_ok h2 0 [] →
  txn (set_k_log (set_l_committing false (k_log s1)) s1) ∅ [] val' ∧ ∀ b, home start nlog N b → val' b = val b.
Proof.
  intros Ht Hl Hcap Hst Hs Hh2. pose proof Ht as [T1 T2 T3 T4 T5 T6 T7 [Q1 Q2 Q3 Q4]]. pose proof Hst as [C1 C2 C3 C4 C5].
  destruct (crash_done blks val h1 h2 (k_disk s) T4 T6 T7 (λ b, txn_clean _ _ _ _ b Ht)) as [_ Hnew].
  assert (Hv : ∀ b, home start nlog N b → val' b = val b).
  { intros b Hb. specialize (Hnew b Hb). rewrite <-C3 in Hnew.
    rewrite (cached_disk _ _ _ _ b C1) in Hnew; [congruence| |set_solver].
    rewrite (logst_len _ _ _ _ _ _ _ Hst). apply Hb. }
  split; [|done]. split; simpl; try done.
  - by eapply cached_same.
  - rewrite C2. destruct (log_is_erased _ _ Hl). by split.
  - by rewrite C2.
  - constructor.
  - lia.
  - by rewrite C3, length_apply_writes.
  - split; [by rewrite Hv|done|by apply not_elem_of_nil|by rewrite Hs].
Qed.

(** end_op of the last system call of a transaction commits it. *)
Lemma end_op_ok s blks val :
  txn s ∅ blks val → l_outstanding (k_log s) = 1 → l_committing (k_log s) = false →
  ∃ s' val' W, end_op s = Ok tt s' ∧ k_dwrites s' = reverse W ++ k_dwrites s ∧
    k_disk s' = apply_writes W (k_disk s) ∧
    txn s' ∅ [] val' ∧ (∀ b, home start nlog N b → val' b = val b) ∧
    l_outstanding (k_log s') = 0 ∧ l_committing (k_log s') = false ∧
    ∀ k, recovers (k_disk s) W k (if decide (blks = []) then 0 else S (length blks)) val.
Proof.
  intros Ht Hout Hcom. pose proof Ht as [T1 T2 T3 T4 T5 T6 T7 T8]. pose proof (cached_alone _ _ _ _ T1) as Hal.
  set (l0 := set_l_committing true (set_l_outstanding 0 (k_log s))). set (s0 := set_k_log l0 s).
  assert (Hl0 : log_is start nlog blks l0) by (destruct T2; by split).
  destruct (decide (blks = [])) as [->|Hne].
  - assert (Hc0 : commit s0 = Ok tt s0) by (apply (commit_nothing _ l0); [done|apply Hl0]).
    eexists _, val, []. split; [apply (end_op_run s s0 Hal Hout Hcom Hc0); by eapply alone_same|].
    split_and!; try done; [|intros k; by apply quiet_recovers].
    split; simpl; try done; [by eapply cached_same|by destruct Hl0].
  - destruct (commit_ok blks l0 (k_disk s) (k_dwrites s) val s0 Hl0 T4 T6 T5 Hne) as (s1 & h1 & h2 & v' & E & Hst & Hvs & Hh1 & Hh2).
    { split; try done. by eapply cached_same. } { apply T8. }
    destruct (commit_txn s l0 blks val h1 h2 v' s1 Ht Hl0 T3 Hst Hvs Hh2) as [Ht' Hv].
    eexists _, v', (commit_writes blks val h1 h2). pose proof Hst as [C1 C2 C3 C4 C5].
    split_and!; [apply (end_op_run s s1 Hal Hout Hcom E); by eapply cached_alone|done..| | |].
    + simpl. by rewrite C2.
    + done.
    + intros k sb vb Hcb Hk Hlb. pose proof (cached_boot sb vb _ _ k Hcb Hk T7) as Hsb.
      destruct (crash_recovers blks val h1 h2 (k_disk s) k sb vb _ _ T4 T6 T7 (λ b, txn_clean _ _ _ _ b Ht) T8 Hh1 Hh2 Hsb Hlb)
        as (sb' & Eb & Hb). exists sb'. split; [done|]. intros b Hbh. rewrite Hb by done.
      repeat case_decide; try done; lia.
Qed.

(** begin_op with an idle log lets the system call in. *)
Lemma begin_op_ok s val :
  (0 < FUEL)%nat → txn s ∅ [] val → l_outstanding (k_log s) = 0 → l_committing (k_log s) = false →
  begin_op s = Ok tt (set_k_log (set_l_outstanding 1 (k_log s)) s).
Proof.
  intros Hf Ht Hout Hcom. pose proof (cached_alone _ _ _ _ (tx_cached _ _ _ _ Ht)) as Hal.
  destruct FUEL as [|n] eqn:Ef; [lia|]. unfold begin_op. rewrite Ef. run (by eapply acquire_alone).
  apply loop_Ok. run done. cbn [k_log locked set_k_held set_k_cpu]. rewrite Hcom, Hout, (li_n _ _ _ _ (tx_log _ _ _ _ Ht)).
  simpl Z.of_nat. change (LOGSIZE <? _) with false. cbv iota. run done.
  run (apply (release_calm LK_log s); [apply Hal|by apply not_held|done|done]). simpl. by destruct s.
Qed.

(** After a clean shutdown, initlog leaves an idle log over the same contents. *)
Lemma initlog_idle s val :
  cached s ∅ ∅ val → length (k_disk s) = N → length (lh_block (k_log s)) = Z.to_nat LOGSIZE → disk_quiet [] val →
  ∃ s' val', initlog 1 s = Ok tt s' ∧ txn s' ∅ [] val' ∧ (∀ b, home start nlog N b → val' b = val b) ∧
    l_outstanding (k_log s') = l_outstanding (k_log s) ∧ l_committing (k_log s') = l_committing (k_log s).
Proof.
  intros Hc HN Hl [Q1 Q2 Q3 Q4]. pose proof Hgeo as [G1 G2 G3 G4].
  destruct (initlog_ok (k_disk s) (k_dwrites s) (k_log s) [] val s) as (s' & h & l' & v' & E & Hh & Hst & Hvs & Hl' & (K1 & K2 & K3));
    [by split|done|destruct Q2; lia|done|done|simpl; lia|done|].
  pose proof Hst as [C1 C2 C3 C4 C5].
  assert (Hv : ∀ b, home start nlog N b → v' b = val b).
  { intros b Hb. pose proof (cached_disk _ _ _ _ b C1) as Hd. rewrite (logst_len _ _ _ _ _ _ _ Hst) in Hd.
    specialize (Hd (proj1 Hb) ltac:(set_solver)). rewrite C3 in Hd. rewrite (recovered_home val [] _ val) in Hd by done.
    rewrite decide_False in Hd by apply not_elem_of_nil.
    pose proof (cached_disk _ _ _ _ b Hc) as Hd0. rewrite HN in Hd0. specialize (Hd0 (proj1 Hb) ltac:(set_solver)). congruence. }
  exists s', v'. rewrite C2. split_and!; try done. split; try done.
  - by rewrite C2.
  - by rewrite C2.
  - constructor.
  - simpl. lia.
  - by rewrite C3, length_apply_writes.
  - split; [by rewrite Hv|done|done|by rewrite Hvs].
Qed.
End log.
