(* ===== verification/TxnThm.v ===== *)
(** * TxnThm: file system operations inside a transaction (fs.c over log.c over bio.c)

    A system call sees the disk through [bread], changes blocks in the cache, and
    hands them to [log_write].  Against the promises of the cache and of the log,
    [balloc] and [bfree] keep the bitmap and the contents of the blocks; with
    memide.c's disk below, end_op makes all of it durable at once. *)

From stdpp Require Import base numbers gmap strings option list.
From S2P Require Import Prelude Format Machine Boot Mem Mlfq ProcCore Sleeplock Ide Bio Log.
From S2P Require Import Inode Fs FsThm MlfqInv MlfqOps BioThm LogThm.
Local Open Scope kernel_scope.
Local Open Scope Z_scope.

(** ** The bitmap *)

Lemma bit_mask_testbit bi i : 0 ≤ i → Z.testbit (bit_mask bi) i = (i =? bi mod 8).
Proof.
  intros Hi. unfold bit_mask. pose proof (Z.mod_pos_bound bi 8 ltac:(lia)).
  rewrite Z.shiftl_spec by done. rewrite Z.eqb_sym. destruct (Z.eqb_spec (bi mod 8) i) as [->|Hne].
  - by rewrite Z.sub_diag.
  - destruct (Z.ltb_spec i (bi mod 8)); [by rewrite Z.testbit_neg_r by lia|].
    apply Z.bits_above_log2; simpl; lia.
Qed.

Lemma bitmap_get_testbit d bi : bitmap_get d bi = Z.testbit (nth (Z.to_nat (bi / 8)) d 0) (bi mod 8).
Proof.
  unfold bitmap_get. pose proof (Z.mod_pos_bound bi 8 ltac:(lia)) as Hm. set (v := nth _ d 0).
  destruct (Z.eqb_spec (Z.land v (bit_mask bi)) 0) as [E|E]; simpl; symmetry.
  - assert (Hb : Z.testbit (Z.land v (bit_mask bi)) (bi mod 8) = false) by (rewrite E; apply Z.bits_0).
    rewrite Z.land_spec, bit_mask_testbit, Z.eqb_refl, andb_true_r in Hb by lia. done.
  - apply not_false_is_true. intros Hf. apply E, Z.bits_inj'. intros i Hi.
    rewrite Z.land_spec, bit_mask_testbit, Z.bits_0 by done.
    destruct (Z.eqb_spec i (bi mod 8)) as [->|]; [by rewrite Hf|apply andb_false_r].
Qed.

Lemma nth_upd (d : list Z) i j v :
  (i < length d)%nat → nth j (<[i := v]> d) 0 = if decide (i = j) then v else nth j d 0.
Proof.
  intros Hi. rewrite !nth_lookup. case_decide as Hd.
  - subst. by rewrite list_lookup_insert_eq.
  - by rewrite list_lookup_insert_ne.
Qed.

(** Setting a bit or clearing it leaves every other bit. *)
Lemma bitmap_get_set d bi bj :
  0 ≤ bi → 0 ≤ bj → (Z.to_nat (bi / 8) < length d)%nat →
  bitmap_get (bitmap_set bi d) bj = (bi =? bj) || bitmap_get d bj.
Proof.
  intros Hi Hj Hl. rewrite !bitmap_get_testbit. unfold bitmap_set. rewrite nth_upd by done.
  pose proof (Z.mod_pos_bound bj 8 ltac:(lia)). pose proof (Z.div_mod bi 8 ltac:(lia)). pose proof (Z.div_mod bj 8 ltac:(lia)).
  assert (0 ≤ bi / 8) by (apply Z.div_pos; lia). assert (0 ≤ bj / 8) by (apply Z.div_pos; lia).
  case_decide as Hd.
  - apply Z2Nat.inj in Hd; [|done..]. rewrite Hd, Z.lor_spec, bit_mask_testbit, orb_comm by lia. f_equal.
    destruct (Z.eqb_spec (bj mod 8) (bi mod 8)), (Z.eqb_spec bi bj); try done; lia || congruence.
  - destruct (Z.eqb_spec bi bj); [congruence|done].
Qed.

Lemma bitmap_get_clear d bi bj :
  0 ≤ bi → 0 ≤ bj → (Z.to_nat (bi / 8) < length d)%nat →
  bitmap_get (bitmap_clear bi d) bj = negb (bi =? bj) && bitmap_get d bj.
Proof.
  intros Hi Hj Hl. rewrite !bitmap_get_testbit. unfold bitmap_clear. rewrite nth_upd by done.
  pose proof (Z.mod_pos_bound bj 8 ltac:(lia)). pose proof (Z.div_mod bi 8 ltac:(lia)). pose proof (Z.div_mod bj 8 ltac:(lia)).
  assert (0 ≤ bi / 8) by (apply Z.div_pos; lia). assert (0 ≤ bj / 8) by (apply Z.div_pos; lia).
  case_decide as Hd.
  - apply Z2Nat.inj in Hd; [|done..].
    rewrite Hd, Z.land_spec, Z.lnot_spec, bit_mask_testbit, andb_comm by lia. f_equal. f_equal.
    destruct (Z.eqb_spec (bj mod 8) (bi mod 8)), (Z.eqb_spec bi bj); try done; lia || congruence.
  - destruct (Z.eqb_spec bi bj); [congruence|done].
Qed.

Lemma length_bitmap_set bi d : length (bitmap_set bi d) = length d.
Proof. apply length_insert. Qed.
Lemma length_bitmap_clear bi d : length (bitmap_clear bi d) = length d.
Proof. apply length_insert. Qed.

Section txn.
Context `{Env} (pid : Z) `{!BlockCache pid}.
Context (start nlog : Z) (N : nat).
Hypothesis Hgeo : geometry start nlog N.

Abbreviation txn := (txn pid start nlog N).

(** ** Blocks in a transaction *)

Lemma txn_frame s s' Hd Hd' blks val :
  txn s Hd blks val → same_disk s s' → cached s' Hd' (list_to_set blks) val → txn s' Hd' blks val.
Proof.
  intros [T1 T2 T3 T4 T5 T6 T7 T8] (E & Ed & _) Hc. unfold same_io in E.
  assert (El : k_log s' = k_log s) by (rewrite E; done). split; rewrite ?El, ?Ed; done.
Qed.

Lemma size_txn blks (Hd : holds) :
  (length blks + size Hd < NBUF)%nat → (size (list_to_set blks ∪ hblks Hd) < NBUF)%nat.
Proof.
  intros Hs. rewrite size_union_alt. pose proof (size_list_to_set_le blks). pose proof (size_hblks Hd).
  pose proof (subseteq_size (hblks Hd ∖ list_to_set blks) (hblks Hd) ltac:(set_solver)). lia.
Qed.

Lemma txn_read s Hd blks val blk :
  txn s Hd blks val → 0 ≤ blk < Z.of_nat N → blk ∉ hblks Hd → (length blks + size Hd < NBUF)%nat →
  ∃ b s' r, bread 1 blk s = Ok b s' ∧ buf_at b s' = Ok r s' ∧ b_data r = val blk ∧ Hd !! b = None ∧
    txn s' (<[b := (blk, val blk)]> Hd) blks val ∧ kept s s'.
Proof.
  intros Ht Hb Hn Hs. destruct (cached_read s Hd (list_to_set blks) val blk) as (b & s' & E & Hbn & Hc & Hk).
  - apply Ht.
  - by rewrite (tx_disk _ _ _ _ _ _ _ _ Ht).
  - done.
  - right. by apply size_txn.
  - destruct (cached_at _ _ _ _ _ _ _ Hc (lookup_insert_eq _ _ _)) as (r & Hr & Hrd & _).
    exists b, s', r. split_and!; try done; [by eapply txn_frame|by apply same_disk_kept].
Qed.

Lemma txn_release s Hd blks val b blk :
  txn s Hd blks val → Hd !! b = Some (blk, val blk) →
  ∃ s', brelse b s = Ok tt s' ∧ txn s' (delete b Hd) blks val ∧ kept s s'.
Proof.
  intros Ht Hb. destruct (cached_release s Hd (list_to_set blks) val b blk (tx_cached _ _ _ _ _ _ _ _ Ht) Hb) as (s' & E & Hc & Hk).
  exists s'. split_and!; [done|by eapply txn_frame|by apply same_disk_kept].
Qed.

(** Change a held block, log it, release it: the idiom of every update. *)
Lemma txn_put s Hd blks val b blk v f (g : list Z → list Z) :
  txn s Hd blks val → Hd !! b = Some (blk, v) → home start nlog N blk → blk ≠ 1 →
  1 ≤ l_outstanding (k_log s) → Z.of_nat (length blks) < nlog - 1 →
  (∀ r, f r = set_b_data (g (b_data r)) r) →
  ∃ s1 s2 s3, upd_buf b f s = Ok tt s1 ∧ log_write b s1 = Ok tt s2 ∧ brelse b s2 = Ok tt s3 ∧
    txn s3 (delete b Hd) (logged blks blk) (fupd blk (g v) val) ∧ kept s s3.
Proof.
  intros Ht Hb Hh H1 Ho Hr Hf.
  destruct (cached_set s Hd _ val b blk v f g (tx_cached _ _ _ _ _ _ _ _ Ht) Hb Hf) as (s1 & E1 & Hc1 & Hk1).
  pose proof (txn_frame _ _ _ _ _ _ Ht Hk1 Hc1) as Ht1. apply same_disk_kept in Hk1.
  destruct (log_write_ok pid start nlog N Hgeo s1 _ _ _ b blk (g v) Ht1 (lookup_insert_eq _ _ _)) as (s2 & E2 & Ht2 & Hk2); try done.
  { destruct Hk1 as (_ & -> & _). done. }
  destruct (txn_release _ _ _ _ b blk Ht2) as (s3 & E3 & Ht3 & Hk3); [by rewrite lookup_insert_eq, fupd_eq|].
  rewrite delete_insert_eq in Ht3. exists s1, s2, s3. split_and!; [done..|]. by transitivity s2; [transitivity s1|].
Qed.

Lemma bzero_ok s Hd blks val blk :
  txn s Hd blks val → home start nlog N blk → blk ≠ 1 → blk ∉ hblks Hd → (length blks + size Hd < NBUF)%nat →
  1 ≤ l_outstanding (k_log s) → Z.of_nat (length blks) < nlog - 1 →
  ∃ s', bzero 1 blk s = Ok tt s' ∧
    txn s' Hd (logged blks blk) (fupd blk (replicate (Z.to_nat BSIZE) 0) val) ∧ kept s s'.
Proof.
  intros Ht Hh H1 Hn Hs Ho Hr.
  destruct (txn_read s Hd blks val blk Ht) as (b & s1 & r & E1 & _ & _ & Hb & Ht1 & Hk1); [apply Hh|done..|].
  destruct (txn_put s1 _ _ _ b blk _ (set_b_data (replicate (Z.to_nat BSIZE) 0)) (λ _, replicate (Z.to_nat BSIZE) 0)
    Ht1 (lookup_insert_eq _ _ _)) as (s2 & s3 & s4 & E2 & E3 & E4 & Ht4 & Hk4); try done.
  { destruct Hk1 as (_ & -> & _). done. }
  exists s4. split_and!; [unfold bzero; run exact E1; run exact E2; run exact E3; exact E4| |by transitivity s1].
  by rewrite delete_insert_id in Ht4.
Qed.

(** ** The free-block bitmap *)

Section bitmap.
Context (sb : superblock).

(** The bit of block [a]. *)
Definition used (val : Z → list Z) (a : Z) : bool := bitmap_get (val (BBLOCK a sb)) (a mod BPB).

(** A disk whose bitmap is outside the log, and marks every block that is not a
    data block as used. *)
Record bitmap_ok (val : Z → list Z) : Prop := {
  bm_size : sb_size sb ≤ Z.of_nat N;
  bm_home a : 0 ≤ a < sb_size sb → home start nlog N (BBLOCK a sb) ∧ BBLOCK a sb ≠ 1;
  bm_len a : 0 ≤ a < sb_size sb → length (val (BBLOCK a sb)) = Z.to_nat BSIZE;
  bm_data a : 0 ≤ a < sb_size sb → used val a = false →
    home start nlog N a ∧ a ≠ 1 ∧ ∀ a', 0 ≤ a' < sb_size sb → BBLOCK a' sb ≠ a;
}.

(** The disk after the block [a] has been allocated, and after it has been freed. *)
Definition allocated (a : Z) (val : Z → list Z) : Z → list Z :=
  fupd a (replicate (Z.to_nat BSIZE) 0)
    (fupd (BBLOCK a sb) (bitmap_set (a mod BPB) (val (BBLOCK a sb))) val).
Definition freed (a : Z) (val : Z → list Z) : Z → list Z :=
  fupd (BBLOCK a sb) (bitmap_clear (a mod BPB) (val (BBLOCK a sb))) val.

Lemma BPB_pos : 0 < BPB.
Proof. done. Qed.

Lemma BBLOCK_add k bi : 0 ≤ bi < BPB → BBLOCK (k * BPB + bi) sb = BBLOCK (k * BPB) sb.
Proof.
  intros Hb. unfold BBLOCK. pose proof BPB_pos. rewrite Z.div_add_l, Z.div_mul, (Z.div_small bi) by lia. do 2 f_equal. lia.
Qed.

Lemma bit_in_block val a :
  bitmap_ok val → 0 ≤ a < sb_size sb → (Z.to_nat (a mod BPB / 8) < length (val (BBLOCK a sb)))%nat.
Proof.
  intros Hok Ha. rewrite (bm_len _ Hok a Ha). pose proof (Z.mod_pos_bound a BPB BPB_pos).
  assert (a mod BPB / 8 < BSIZE) by (apply Z.div_lt_upper_bound; unfold BPB in *; lia).
  assert (0 ≤ a mod BPB / 8) by (apply Z.div_pos; lia). lia.
Qed.

(** Two blocks with the same bit are the same block. *)
Lemma bit_inj val a a' :
  bitmap_ok val → 0 ≤ a < sb_size sb → 0 ≤ a' < sb_size sb → BBLOCK a sb = BBLOCK a' sb → a mod BPB = a' mod BPB → a = a'.
Proof.
  intros Hok Ha Ha' Hb Hm. pose proof (bm_size _ Hok). pose proof (ge_width _ _ _ Hgeo).
  unfold BBLOCK, u32 in Hb. pose proof (Z.div_mod a BPB ltac:(done)). pose proof (Z.div_mod a' BPB ltac:(done)).
  assert (0 ≤ a / BPB < 2 ^ 31) by (split; [by apply Z.div_pos; [lia|]|apply Z.div_lt_upper_bound; unfold BPB, BSIZE in *; lia]).
  assert (0 ≤ a' / BPB < 2 ^ 31) by (split; [by apply Z.div_pos; [lia|]|apply Z.div_lt_upper_bound; unfold BPB, BSIZE in *; lia]).
  pose proof (Z.div_mod (a / BPB + sb_bmapstart sb) (2 ^ 32) ltac:(done)).
  pose proof (Z.div_mod (a' / BPB + sb_bmapstart sb) (2 ^ 32) ltac:(done)).
  assert (a / BPB = a' / BPB) by lia. congruence.
Qed.

Lemma used_fupd val a g a' :
  bitmap_ok val → 0 ≤ a < sb_size sb → 0 ≤ a' < sb_size sb →
  used (fupd (BBLOCK a sb) g val) a' =
    if decide (BBLOCK a' sb = BBLOCK a sb) then bitmap_get g (a' mod BPB) else used val a'.
Proof.
  intros Hok Ha Ha'. unfold used. case_decide as E; [by rewrite E, fupd_eq|]. by rewrite fupd_ne.
Qed.

Lemma used_freed val a a' :
  bitmap_ok val → 0 ≤ a < sb_size sb → 0 ≤ a' < sb_size sb →
  used (freed a val) a' = negb (a =? a') && used val a'.
Proof.
  intros Hok Ha Ha'. unfold freed. rewrite used_fupd by done.
  pose proof (Z.mod_pos_bound a BPB BPB_pos). pose proof (Z.mod_pos_bound a' BPB BPB_pos). case_decide as E.
  - rewrite bitmap_get_clear by (lia || by apply bit_in_block). unfold used. rewrite E. f_equal. f_equal.
    destruct (Z.eqb_spec (a mod BPB) (a' mod BPB)), (Z.eqb_spec a a'); try done; [|congruence].
    by destruct n; eapply bit_inj.
  - destruct (Z.eqb_spec a a'); [congruence|done].
Qed.

Lemma used_allocated val a a' :
  bitmap_ok val → 0 ≤ a < sb_size sb → used val a = false → 0 ≤ a' < sb_size sb →
  used (allocated a val) a' = (a =? a') || used val a'.
Proof.
  intros Hok Ha Hf Ha'. destruct (bm_data _ Hok a Ha Hf) as (_ & _ & Hd). unfold allocated.
  unfold used at 1. rewrite fupd_ne by (by apply Hd). fold (used (fupd (BBLOCK a sb) (bitmap_set (a mod BPB) (val (BBLOCK a sb))) val) a').
  rewrite used_fupd by done.
  pose proof (Z.mod_pos_bound a BPB BPB_pos). pose proof (Z.mod_pos_bound a' BPB BPB_pos). case_decide as E.
  - rewrite bitmap_get_set by (lia || by apply bit_in_block). unfold used. rewrite E. f_equal.
    destruct (Z.eqb_spec (a mod BPB) (a' mod BPB)), (Z.eqb_spec a a'); try done; [|congruence].
    by destruct n; eapply bit_inj.
  - destruct (Z.eqb_spec a a'); [congruence|done].
Qed.

Lemma bitmap_ok_allocated val a :
  bitmap_ok val → 0 ≤ a < sb_size sb → used val a = false → bitmap_ok (allocated a val).
Proof.
  intros Hok Ha Hf. destruct (bm_data _ Hok a Ha Hf) as (_ & _ & Hd). split; [apply Hok|apply Hok| |].
  - intros a' Ha'. unfold allocated. rewrite fupd_ne by (by apply Hd).
    unfold fupd. case_decide; [rewrite length_bitmap_set|]; by apply (bm_len _ Hok).
  - intros a' Ha' Hu. rewrite used_allocated in Hu by done. apply orb_false_iff in Hu as [_ Hu]. by apply (bm_data _ Hok).
Qed.

Lemma bitmap_ok_freed val a :
  bitmap_ok val → 0 ≤ a < sb_size sb → home start nlog N a → a ≠ 1 → (∀ a', 0 ≤ a' < sb_size sb → BBLOCK a' sb ≠ a) →
  bitmap_ok (freed a val).
Proof.
  intros Hok Ha Hh H1 Hd. split; [apply Hok|apply Hok| |].
  - intros a' Ha'. unfold freed, fupd. case_decide; [rewrite length_bitmap_clear|]; by apply (bm_len _ Hok).
  - intros a' Ha' Hu. rewrite used_freed in Hu by done. destruct (Z.eqb_spec a a') as [->|]; [done|]. by apply (bm_data _ Hok).
Qed.

Lemma length_logged blks blk : (length blks ≤ length (logged blks blk) ≤ length blks + 1)%nat.
Proof. unfold logged. case_decide; [lia|]. rewrite length_app. simpl. lia. Qed.

Lemma bit_of val k bi : 0 ≤ bi < BPB → bitmap_get (val (BBLOCK (k * BPB) sb)) bi = used val (k * BPB + bi).
Proof.
  intros Hb. unfold used. rewrite BBLOCK_add by done. by rewrite Z.add_comm, Z.mod_add, Z.mod_small.
Qed.

Section alloc.
Context (Hd : holds) (blks : list Z) (val : Z → list Z).
Hypothesis Hok : bitmap_ok val.
Hypothesis Hfree : ∀ a, 0 ≤ a < sb_size sb → BBLOCK a sb ∉ hblks Hd.
Hypothesis Hbufs : (length blks + size Hd + 1 < NBUF)%nat.

(** The state between two bitmap blocks: nothing but the cache has changed. *)
Definition scanned (s s' : kernel) : Prop := txn s' Hd blks val ∧ kept s s'.

Lemma balloc_block_full s k s' :
  0 ≤ k → k * BPB < sb_size sb → (∀ a, 0 ≤ a < sb_size sb → k * BPB ≤ a < (k + 1) * BPB → used val a = true) →
  scanned s s' → ∃ s'', balloc_block 1 sb (k * BPB) s' = Ok None s'' ∧ scanned s s''.
Proof.
  intros Hk Hks Hall [Ht Hke]. assert (Ha : 0 ≤ k * BPB < sb_size sb) by (pose proof BPB_pos; nia).
  destruct (txn_read s' Hd blks val (BBLOCK (k * BPB) sb) Ht) as (b & s1 & r & E1 & Hr & Hrd & Hb & Ht1 & Hk1).
  { apply (bm_home _ Hok _ Ha). } { by apply Hfree. } { lia. }
  destruct (txn_release s1 _ blks val b _ Ht1 (lookup_insert_eq _ _ _)) as (s2 & E2 & Ht2 & Hk2).
  rewrite delete_insert_id in Ht2 by done. exists s2. split; [|split; [done|by transitivity s1; [transitivity s'|]]].
  unfold balloc_block. run exact E1.
  run (eapply (for_find_states_None _ _ (λ _, s1)); intros i bi [-> Hbi]%lookup_seqZ; run exact Hr;
    rewrite Hrd, bit_of by lia; rewrite Hall by lia; done).
  cbv iota. run exact E2. done.
Qed.

Lemma balloc_block_found s k bi s' :
  0 ≤ k → 0 ≤ bi < BPB → k * BPB + bi < sb_size sb → used val (k * BPB + bi) = false →
  (∀ a', 0 ≤ a' < k * BPB + bi → used val a' = true) → k * BPB + bi ∉ hblks Hd →
  1 ≤ l_outstanding (k_log s) → Z.of_nat (length blks) < nlog - 2 → scanned s s' →
  let a := k * BPB + bi in
  ∃ s'', balloc_block 1 sb (k * BPB) s' = Ok (Some a) s'' ∧
    txn s'' Hd (logged (logged blks (BBLOCK a sb)) a) (allocated a val) ∧ kept s s''.
Proof.
  intros Hk Hbi Hs Hu Hfirst Hah Ho Hr [Ht Hke] a. pose proof BPB_pos as HB.
  assert (Ha : 0 ≤ a < sb_size sb) by (unfold a; nia). assert (Hkb : 0 ≤ k * BPB < sb_size sb) by nia.
  destruct (bm_home _ Hok _ Hkb) as [Hh1 Hn1]. destruct (bm_data _ Hok a Ha Hu) as (Hh2 & Hn2 & Hd2).
  destruct (txn_read s' Hd blks val (BBLOCK (k * BPB) sb) Ht) as (b & s1 & r & E1 & Hrb & Hrd & Hb & Ht1 & Hk1).
  { apply Hh1. } { by apply Hfree. } { lia. }
  assert (Ho1 : 1 ≤ l_outstanding (k_log s1)) by (destruct Hk1 as (_ & -> & _), Hke as (_ & -> & _); done).
  destruct (txn_put s1 _ _ _ b _ _ (λ d, set_b_data (bitmap_set bi (b_data d)) d) (bitmap_set bi) Ht1 (lookup_insert_eq _ _ _))
    as (s2 & s3 & s4 & E2 & E3 & E4 & Ht4 & Hk4); [done..|lia|done|].
  rewrite delete_insert_id in Ht4 by done. pose proof (length_logged blks (BBLOCK (k * BPB) sb)) as Hl.
  destruct (bzero_ok s4 Hd _ _ a Ht4) as (s5 & E5 & Ht5 & Hk5); [done..|lia| |lia|].
  { destruct Hk4 as (_ & -> & _). done. }
  exists s5. split_and!.
  - unfold balloc_block. run exact E1.
    run (eapply (for_find_states_Some _ _ (λ _, s1) (Z.to_nat bi) bi a s5);
      [rewrite lookup_seqZ; lia
      |run exact Hrb; rewrite Hrd, bit_of, Hu by lia; cbn [negb]; run exact E2; run exact E3; run exact E4; run exact E5; done
      |intros i y Hi [-> Hy]%lookup_seqZ; run exact Hrb; rewrite Hrd, bit_of, Hfirst by lia; done]).
    done.
  - unfold allocated, a. rewrite (BBLOCK_add k bi), Z.add_comm, Z.mod_add, (Z.mod_small bi) by (done || lia).
    by rewrite (Z.add_comm bi).
  - transitivity s4; [|done]. transitivity s1; [|done]. by transitivity s'.
Qed.

(** balloc takes the first block whose bit is clear: it sets the bit and clears
    the block. *)
Lemma balloc_ok s a :
  txn s Hd blks val → k_sb s = sb → 1 ≤ l_outstanding (k_log s) → Z.of_nat (length blks) < nlog - 2 →
  0 ≤ a < sb_size sb → used val a = false → (∀ a', 0 ≤ a' < a → used val a' = true) → a ∉ hblks Hd →
  ∃ s', balloc 1 s = Ok a s' ∧
    txn s' Hd (logged (logged blks (BBLOCK a sb)) a) (allocated a val) ∧ kept s s'.
Proof.
  intros Ht Esb Ho Hr Ha Hu Hfirst Hah. set (k := a / BPB).
  pose proof (Z.div_mod a BPB ltac:(done)) as Ea. pose proof (Z.mod_pos_bound a BPB BPB_pos) as Hm.
  assert (Hk : 0 ≤ k) by (apply Z.div_pos; [lia|done]). fold k in Ea.
  assert (Hlt : k < (sb_size sb + BPB - 1) / BPB).
  { apply Z.lt_le_trans with (m := k + 1); [lia|]. apply Z.div_le_lower_bound; [done|]. lia. }
  destruct (for_find_inv_Some ((λ k, k * BPB) <$> seqZ 0 ((sb_size sb + BPB - 1) / BPB)) (balloc_block 1 sb)
    (scanned s) (λ s', txn s' Hd (logged (logged blks (BBLOCK a sb)) a) (allocated a val) ∧ kept s s')
    (Z.to_nat k) (k * BPB) a s) as (s' & E & HQ).
  - rewrite list_lookup_fmap, lookup_seqZ_lt by lia. simpl. by rewrite Z2Nat.id by done.
  - intros s1 Hs1. assert (Ea' : a = k * BPB + a mod BPB) by lia. rewrite Ea'.
    apply balloc_block_found; rewrite <-?Ea'; try done; lia.
  - intros i y s1 Hi Hy Hs1. rewrite list_lookup_fmap, lookup_seqZ_lt in Hy by lia. simplify_eq/=.
    pose proof BPB_pos. apply balloc_block_full; [lia|nia| |done]. intros a' _ Ha'. apply Hfirst. nia.
  - done.
  - exists s'. split; [|done]. unfold balloc. run done. rewrite Esb. run exact E. done.
Qed.

(** No clear bit: the panic. *)
Lemma balloc_full s :
  txn s Hd blks val → k_sb s = sb → (∀ a, 0 ≤ a < sb_size sb → used val a = true) →
  ∃ s', balloc 1 s = Panic "balloc: out of blocks" s' ∧ txn s' Hd blks val ∧ kept s s'.
Proof.
  intros Ht Esb Hall. destruct (for_find_inv_None ((λ k, k * BPB) <$> seqZ 0 ((sb_size sb + BPB - 1) / BPB))
    (balloc_block 1 sb) (scanned s) s) as (s' & E & HQ); [|done|].
  - intros x s1 (k & -> & Hk%elem_of_seqZ)%list_elem_of_fmap Hs1. pose proof BPB_pos as HB.
    assert (k * BPB < sb_size sb).
    { assert (k + 1 ≤ (sb_size sb + BPB - 1) / BPB) as Hle by lia. apply (Z.mul_le_mono_pos_l _ _ BPB HB) in Hle.
      pose proof (Z.mul_div_le (sb_size sb + BPB - 1) BPB HB). lia. }
    apply balloc_block_full; [lia|done| |done]. intros a Ha _. by apply Hall.
  - exists s'. split; [|done]. unfold balloc. run done. rewrite Esb. run exact E. done.
Qed.

(** bfree clears the bit, or panics when it is clear. *)
Lemma bfree_ok s a :
  txn s Hd blks val → k_sb s = sb → 1 ≤ l_outstanding (k_log s) → Z.of_nat (length blks) < nlog - 1 →
  0 ≤ a < sb_size sb → used val a = true →
  ∃ s', bfree 1 a s = Ok tt s' ∧ txn s' Hd (logged blks (BBLOCK a sb)) (freed a val) ∧ kept s s'.
Proof.
  intros Ht Esb Ho Hr Ha Hu. destruct (bm_home _ Hok _ Ha) as [Hh Hn].
  destruct (txn_read s Hd blks val (BBLOCK a sb) Ht) as (b & s1 & r & E1 & Hrb & Hrd & Hb & Ht1 & Hk1).
  { apply Hh. } { by apply Hfree. } { lia. }
  destruct (txn_put s1 _ _ _ b _ _ (λ d, set_b_data (bitmap_clear (a mod BPB) (b_data d)) d) (bitmap_clear (a mod BPB)) Ht1
    (lookup_insert_eq _ _ _)) as (s2 & s3 & s4 & E2 & E3 & E4 & Ht4 & Hk4); [done..| |lia|done|].
  { destruct Hk1 as (_ & -> & _). done. }
  rewrite delete_insert_id in Ht4 by done. exists s4. split_and!; [|done|by transitivity s1].
  unfold bfree. run done. rewrite Esb. run exact E1. cbv zeta. run exact Hrb. rewrite Hrd.
  change (bitmap_get _ _) with (used val a). rewrite Hu. cbn [negb]. run exact E2. run exact E3. exact E4.
Qed.

Lemma bfree_twice s a :
  txn s Hd blks val → k_sb s = sb → 0 ≤ a < sb_size sb → used val a = false →
  ∃ s', bfree 1 a s = Panic "freeing free block" s'.
Proof.
  intros Ht Esb Ha Hu. destruct (bm_home _ Hok _ Ha) as [Hh Hn].
  destruct (txn_read s Hd blks val (BBLOCK a sb) Ht) as (b & s1 & r & E1 & Hrb & Hrd & Hb & Ht1 & Hk1).
  { apply Hh. } { by apply Hfree. } { lia. }
  exists s1. unfold bfree. run done. rewrite Esb. run exact E1. cbv zeta. run exact Hrb. rewrite Hrd.
  change (bitmap_get _ _) with (used val a). by rewrite Hu.
Qed.
End alloc.
End bitmap.
End txn.

(** ** A small file system

    Ten blocks: the boot block, the superblock, four blocks of log from block 2, an
    inode block, the bitmap in block 7, and two data blocks, both free. *)

Definition tiny_sb : superblock := mk_superblock 10 2 8 4 2 6 7.
Definition tiny_block1 : list Z :=
  put32 (put32 (put32 (put32 (put32 (put32 (put32 (replicate (Z.to_nat BSIZE) 0) 0 10) 4 2) 8 8) 12 4) 16 2) 20 6) 24 7.
Definition tiny_bitmap : list Z := 255 :: replicate 511 0.
Definition tiny_disk : list (list Z) :=
  let z := replicate (Z.to_nat BSIZE) 0 in [z; tiny_block1; z; z; z; z; z; tiny_bitmap; z; z].

(** Process 1 runs, inside one transaction. *)
Definition tiny_kernel : kernel :=
  set_k_disk tiny_disk
    (set_k_sb tiny_sb
      (set_k_log (mk_log 2 4 1 false 1 0 (replicate (Z.to_nat LOGSIZE) 0))
        (set_k_ptable (<[0%nat := set_p_state RUNNING (set_p_pid 1 zero_proc)]> (replicate NPROC zero_proc))
          (set_k_cpu (set_c_proc (Some 0%nat) zero_cpu) zero_kernel)))).

Lemma tiny_geometry : geometry 2 4 10.
Proof. split; unfold LOGSIZE; lia. Qed.

Lemma tiny_procs i p : k_ptable tiny_kernel !! i = Some p → p_state p ≠ SLEEPING.
Proof.
  unfold tiny_kernel. cbn [k_ptable set_k_disk set_k_sb set_k_log set_k_ptable].
  intros [(_ & <- & _)|(_ & [-> _]%lookup_replicate)]%list_lookup_insert_Some; done.
Qed.

Lemma tiny_alone : alone 1 tiny_kernel.
Proof.
  split.
  - split; [split; [reflexivity|by intros []|constructor]|]. unfold touched.
    replace (cpu_pop _) with (k_cpu tiny_kernel) by reflexivity. by destruct tiny_kernel.
  - reflexivity.
  - by eexists 0%nat, _.
  - reflexivity.
  - intros i p b Hi Hs. by destruct (tiny_procs i p Hi).
  - intros i p Hi Hs. by destruct (tiny_procs i p Hi).
Qed.

Lemma tiny_quiet : disk_quiet 2 4 10 [] (contents tiny_disk).
Proof.
  split.
  - split; vm_compute; reflexivity.
  - split; [lia|]. unfold in_log. lia.
  - apply not_elem_of_nil.
  - split_and!; [vm_compute; reflexivity..|]. intros i b Hi. by rewrite lookup_nil in Hi.
Qed.

Section tiny.
Context `{Env} (Hdrv : DRIVER = MEMIDE) (Hfuel : (0 < FUEL)%nat).

Lemma tiny_txn :
  let BC := memide_cache 1 Hdrv Hfuel in
  ∃ s, binit tiny_kernel = Ok tt s ∧ txn 1 2 4 10 s ∅ [] (contents tiny_disk) ∧ k_log s = k_log tiny_kernel ∧ k_sb s = tiny_sb.
Proof.
  intros BC. destruct (binit_cache 1 Hfuel tiny_kernel tiny_alone) as (s & E & Hc & Hk).
  { split; [reflexivity|]. intros b r _ [-> _]%lookup_replicate. done. }
  exists s. split; [done|]. assert (El : k_log s = k_log tiny_kernel) by (rewrite (proj1 Hk); reflexivity).
  assert (Ed : k_disk s = tiny_disk) by (destruct Hk as (_ & -> & _); reflexivity).
  split_and!; [|exact El|rewrite (proj1 Hk); reflexivity].
  split; [exact Hc|rewrite El|rewrite El; reflexivity|constructor|constructor|done|by rewrite Ed|apply tiny_quiet].
  by split.
Qed.

(** A transaction that has filled block 8 with sevens. *)
Lemma tiny_one_block :
  let BC := memide_cache 1 Hdrv Hfuel in
  ∃ s, txn 1 2 4 10 s ∅ [8] (fupd 8 (replicate 512 7) (contents tiny_disk)) ∧
    l_outstanding (k_log s) = 1 ∧ l_committing (k_log s) = false.
Proof.
  intros BC. destruct tiny_txn as (s0 & _ & Ht & El & _). fold BC in Ht.
  assert (Hh : home 2 4 10 8) by (split; [lia|]; unfold in_log; lia).
  destruct (txn_read 1 2 4 10 tiny_geometry s0 ∅ [] _ 8 Ht) as (b & s1 & r & _ & _ & _ & Hb & Ht1 & Hk1);
    [lia|set_solver|rewrite map_size_empty; unfold NBUF; simpl; lia|].
  destruct (txn_put 1 2 4 10 tiny_geometry s1 _ _ _ b 8 _ (λ d, set_b_data (replicate 512 7) d) (λ _, replicate 512 7) Ht1 (lookup_insert_eq _ _ _))
    as (s2 & s3 & s4 & _ & _ & _ & Ht4 & Hk4); [done|done| |simpl; lia|done|].
  { destruct Hk1 as (_ & -> & _). by rewrite El. }
  exists s4. rewrite delete_insert_id in Ht4 by done. split; [exact Ht4|].
  destruct Hk4 as (_ & -> & ->), Hk1 as (_ & -> & ->). by rewrite El.
Qed.
End tiny.


Lemma tiny_bitmap_ok : bitmap_ok 2 4 10 tiny_sb (contents tiny_disk).
Proof.
  assert (Hb : ∀ a, 0 ≤ a < 10 → BBLOCK a tiny_sb = 7).
  { intros a Ha. unfold BBLOCK. rewrite Z.div_small by (unfold BPB, BSIZE; lia). done. }
  split; cbn [sb_size tiny_sb].
  - done.
  - intros a Ha. rewrite Hb by done. split; [|done]. split; [done|]. unfold in_log. lia.
  - intros a Ha. rewrite Hb by done. vm_compute. reflexivity.
  - intros a Ha Hu. assert (a = 8 ∨ a = 9) as Ha'.
    { unfold used in Hu. rewrite Hb, Z.mod_small in Hu by (unfold BPB, BSIZE; lia).
      assert (a = 0 ∨ a = 1 ∨ a = 2 ∨ a = 3 ∨ a = 4 ∨ a = 5 ∨ a = 6 ∨ a = 7 ∨ a = 8 ∨ a = 9) as Hc by lia.
      repeat destruct Hc as [->|Hc]; try (vm_compute in Hu; discriminate); lia. }
    split_and!; [split; [lia|unfold in_log; lia]|lia|]. intros a' Ha''. rewrite Hb by done. lia.
Qed.

(** ** The claims *)

Section claims.
Context `{Env} (pid start nlog : Z) (N : nat) (Hdrv : DRIVER = MEMIDE) (Hfuel : (0 < FUEL)%nat).
Hypothesis Hgeo : geometry start nlog N.
#[local] Instance disk_cache : BlockCache pid := memide_cache pid Hdrv Hfuel.

(** C5.  In a build with the memory disk (memide.c, the kernelmemfs image), when the last
    transaction ends while one thread runs and no buffer is held: [end_op] returns with
    every block outside the log on the disk as the transaction left it in the cache.
    Whatever prefix of its block writes reaches the disk before a crash, [initlog] of the
    next boot, with no buffer held or dirty, leaves every home block as it was before the
    transaction, or every home block as the transaction left it.  A block is written
    whole or not at all, in the order of the writes. *)
Theorem end_op_atomic s blks val :
  txn pid start nlog N s ∅ blks val → l_outstanding (k_log s) = 1 → l_committing (k_log s) = false →
  ∃ s' W, end_op s = Ok tt s' ∧ k_dwrites s' = reverse W ++ k_dwrites s ∧
    (∀ b, home start nlog N b → k_disk s' !! Z.to_nat b = Some (val b)) ∧
    ∀ k sb vb, cached sb ∅ ∅ vb → k_disk sb = apply_writes (take k W) (k_disk s) →
      length (lh_block (k_log sb)) = Z.to_nat LOGSIZE →
      ∃ sb', initlog 1 sb = Ok tt sb' ∧
        ((∀ b, home start nlog N b → k_disk sb' !! Z.to_nat b = k_disk s !! Z.to_nat b) ∨
         (∀ b, home start nlog N b → k_disk sb' !! Z.to_nat b = Some (val b))).
Proof.
  intros Ht Ho Hc. destruct (end_op_ok pid start nlog N Hgeo s blks val Ht Ho Hc) as (s' & v' & W & E & Hw & _ & Ht' & Hv & _ & _ & Hr).
  exists s', W. split_and!; [done..| |].
  - intros b Hb. rewrite <-Hv by done. apply (txn_clean _ _ _ _ _ _ _ _ b Ht'); [apply Hb|apply not_elem_of_nil].
  - intros k sb vb H1 H2 H3. destruct (Hr k sb vb H1 H2 H3) as (sb' & Eb & Hb). exists sb'. split; [done|].
    case_decide; [left|right]; intros b Hbh; by apply Hb.
Qed.

(** Inside a transaction [log_write] notes the block of a held buffer in the log,
    once however often it is written, and the new contents are what the file system
    sees; nothing reaches the disk. *)
Theorem log_write_logs s Hd blks val b blk v :
  txn pid start nlog N s Hd blks val → Hd !! b = Some (blk, v) → home start nlog N blk → blk ≠ 1 →
  1 ≤ l_outstanding (k_log s) → Z.of_nat (length blks) < nlog - 1 →
  ∃ s', log_write b s = Ok tt s' ∧
    txn pid start nlog N s' Hd (if decide (blk ∈ blks) then blks else blks ++ [blk]) (fupd blk v val) ∧
    k_disk s' = k_disk s ∧ k_dwrites s' = k_dwrites s ∧ kept s s'.
Proof.
  intros Ht Hb Hh H1 Ho Hr.
  destruct (log_write_ok pid start nlog N Hgeo s Hd blks val b blk v Ht Hb Hh H1 Ho Hr) as (s' & E & Ht' & Hk).
  exists s'. split_and!; try done; rewrite (proj1 Hk); done.
Qed.

Section bitmap.
Context (sb : superblock) (blks : list Z) (val : Z → list Z).
Hypothesis Hok : bitmap_ok start nlog N sb val.
Hypothesis Hlen : (length blks + 1 < NBUF)%nat.

Lemma nothing_held a : a ∉ hblks ∅.
Proof. rewrite hblks_empty. apply not_elem_of_empty. Qed.
Lemma no_bufs : (length blks + size (∅ : holds) + 1 < NBUF)%nat.
Proof. rewrite map_size_empty. lia. Qed.

(** C20.  In a build with the memory disk (memide.c), inside a transaction, while one thread
    runs and no buffer is held: [balloc] returns the first free block of the bitmap,
    zeroed and marked; every other bit and every other block stay.  The log has room for
    two more blocks, the cache for the buffers of the transaction, and log and bitmap lie
    on the disk where the superblock says. *)
Theorem balloc_allocates s a :
  txn pid start nlog N s ∅ blks val → k_sb s = sb → 1 ≤ l_outstanding (k_log s) →
  Z.of_nat (length blks) < nlog - 2 → 0 ≤ a < sb_size sb →
  used sb val a = false → (∀ a', 0 ≤ a' < a → used sb val a' = true) →
  ∃ s' blks' val', balloc 1 s = Ok a s' ∧ txn pid start nlog N s' ∅ blks' val' ∧ bitmap_ok start nlog N sb val' ∧
    val' a = replicate (Z.to_nat BSIZE) 0 ∧
    (∀ a', 0 ≤ a' < sb_size sb → used sb val' a' = (a =? a') || used sb val a') ∧
    (∀ b, b ≠ a → b ≠ BBLOCK a sb → val' b = val b) ∧ kept s s'.
Proof.
  intros Ht Esb Ho Hr Ha Hu Hf.
  destruct (balloc_ok pid start nlog N Hgeo sb ∅ blks val Hok (λ _ _, nothing_held _) no_bufs s a Ht Esb Ho Hr Ha Hu Hf
    (nothing_held a)) as (s' & E & Ht' & Hk).
  eexists s', _, _. split_and!; [exact E|exact Ht'|by apply bitmap_ok_allocated|apply fupd_eq| | |done].
  - intros a' Ha'. by apply used_allocated with start nlog N.
  - intros b H1 H2. unfold allocated. by rewrite !fupd_ne.
Qed.

(** [bfree] of a block in use clears its bit and nothing else. *)
Theorem bfree_frees s a :
  txn pid start nlog N s ∅ blks val → k_sb s = sb → 1 ≤ l_outstanding (k_log s) →
  Z.of_nat (length blks) < nlog - 1 → 0 ≤ a < sb_size sb → used sb val a = true →
  ∃ s' blks' val', bfree 1 a s = Ok tt s' ∧ txn pid start nlog N s' ∅ blks' val' ∧
    (∀ a', 0 ≤ a' < sb_size sb → used sb val' a' = negb (a =? a') && used sb val a') ∧
    (∀ b, b ≠ BBLOCK a sb → val' b = val b) ∧ kept s s'.
Proof.
  intros Ht Esb Ho Hr Ha Hu.
  destruct (bfree_ok pid start nlog N Hgeo sb ∅ blks val Hok (λ _ _, nothing_held _) no_bufs s a Ht Esb Ho Hr Ha Hu)
    as (s' & E & Ht' & Hk).
  eexists s', _, _. split_and!; [exact E|exact Ht'| | |done].
  - intros a' Ha'. by apply used_freed with start nlog N.
  - intros b Hb. unfold freed. by rewrite fupd_ne.
Qed.
End bitmap.
End claims.

(** ** Witnesses *)

#[local] Instance tiny_env : Env := sample_env RR.
Lemma tiny_drv : DRIVER = MEMIDE.
Proof. reflexivity. Qed.
Lemma tiny_fuel : (0 < FUEL)%nat.
Proof. simpl. lia. Qed.

Lemma end_op_atomic_witness :
  ∃ s s', end_op s = Ok tt s' ∧ k_disk s' !! 8%nat = Some (replicate 512 7).
Proof.
  destruct (tiny_one_block tiny_drv tiny_fuel) as (s & Ht & Ho & Hc).
  destruct (end_op_atomic 1 2 4 10 tiny_drv tiny_fuel tiny_geometry s [8] _ Ht Ho Hc) as (s' & W & E & _ & Hd & _).
  exists s, s'. split; [exact E|]. apply (Hd 8). split; [lia|]. unfold in_log. lia.
Defined.

Lemma log_write_logs_witness : ∃ b s s', log_write b s = Ok tt s' ∧ k_dwrites s' = k_dwrites s.
Proof.
  destruct (tiny_txn tiny_drv tiny_fuel) as (s0 & _ & Ht & El & _).
  destruct (txn_read 1 2 4 10 tiny_geometry s0 ∅ [] _ 8 Ht) as (b & s1 & r & _ & _ & _ & Hb & Ht1 & Hk1);
    [lia|apply nothing_held|rewrite map_size_empty; unfold NBUF; simpl; lia|].
  destruct (log_write_logs 1 2 4 10 tiny_drv tiny_fuel tiny_geometry s1 _ [] _ b 8 _ Ht1 (lookup_insert_eq _ _ _))
    as (s' & E & _ & _ & Hw & _); [split; [lia|unfold in_log; lia]|lia| |simpl; lia|by exists b, s1, s'].
  destruct Hk1 as (_ & -> & _). rewrite El. done.
Defined.

Lemma tiny_used a : 0 ≤ a < 8 → used tiny_sb (contents tiny_disk) a = true.
Proof.
  intros Ha. assert (a = 0 ∨ a = 1 ∨ a = 2 ∨ a = 3 ∨ a = 4 ∨ a = 5 ∨ a = 6 ∨ a = 7) as Hc by lia.
  repeat destruct Hc as [->|Hc]; [..|subst a]; vm_compute; reflexivity.
Qed.

Lemma balloc_allocates_witness : ∃ s s', balloc 1 s = Ok 8 s'.
Proof.
  destruct (tiny_txn tiny_drv tiny_fuel) as (s & _ & Ht & El & Esb).
  destruct (balloc_allocates 1 2 4 10 tiny_drv tiny_fuel tiny_geometry tiny_sb [] (contents tiny_disk) tiny_bitmap_ok
    ltac:(unfold NBUF; simpl; lia) s 8 Ht Esb) as (s' & _ & _ & E & _);
    [by rewrite El|simpl; lia|simpl; lia|vm_compute; reflexivity|apply tiny_used|by exists s, s'].
Defined.

Lemma bfree_frees_witness : ∃ s s', bfree 1 7 s = Ok tt s'.
Proof.
  destruct (tiny_txn tiny_drv tiny_fuel) as (s & _ & Ht & El & Esb).
  destruct (bfree_frees 1 2 4 10 tiny_drv tiny_fuel tiny_geometry tiny_sb [] (contents tiny_disk) tiny_bitmap_ok
    ltac:(unfold NBUF; simpl; lia) s 7 Ht Esb) as (s' & _ & _ & E & _);
    [by rewrite El|simpl; lia|simpl; lia|by apply tiny_used|by exists s, s'].
Defined.
