(* ===== verification/ReadThm.v ===== *)
(** * ReadThm: reading a file (readi and bmap of fs.c)

    Against the promises of the buffer cache: [bmap] finds the blocks that an inode
    names, directly or through its indirect block, and [readi] returns the bytes of
    the file that were asked for and exist. *)

From stdpp Require Import base numbers gmap strings option list.
From S2P Require Import Prelude Format Machine Mem Mlfq ProcCore Sleeplock Ide Bio Log Inode Console Fs FsThm.
From S2P Require Import BioThm FileRep LogThm TxnThm.
Local Open Scope kernel_scope.
Local Open Scope Z_scope.

Lemma inode_at_eq s ip i : k_icache s !! ip = Some i → inode_at ip s = Ok i s.
Proof. intros Hi. unfold inode_at. by rewrite Hi. Qed.

Lemma same_disk_icache s s' : same_disk s s' → k_icache s' = k_icache s.
Proof. intros (E & _ & _). unfold same_io in E. rewrite E. done. Qed.
Lemma same_disk_len s s' : same_disk s s' → length (k_disk s') = length (k_disk s).
Proof. by intros (_ & -> & _). Qed.

Definition addr_in (i : inode) (k : nat) : Z := nth k (i_addrs i) 0.

(** The file of an inode in memory: its blocks are on the disk. *)
Record inode_file (len : nat) (val : Z → list Z) (i : inode) (bs : list Z) : Prop := {
  if_dev : i_dev i = 1;
  if_type : i_type i ≠ T_DEV;
  if_addrs : length (i_addrs i) = S NDIRECT;
  if_rep : file_rep val (addr_in i) bs;
  if_range b : b ∈ file_blocks (addr_in i) bs → 0 < b < Z.of_nat len;
  if_data b : b ∈ bs → length (val b) = Z.to_nat BSIZE;
  if_size : 0 ≤ i_size i ≤ BSIZE * Z.of_nat (length bs);
}.

Section read.
Context `{Env} (pid : Z) `{!BlockCache pid}.
Context (Ds : gset Z) (val : Z → list Z) (ip : nat) (i : inode) (bs : list Z).
Hypothesis Hds : (size Ds < NBUF)%nat.

(** Read a block and let go of it. *)
Lemma read_block s b :
  cached s ∅ Ds val → 0 ≤ b < Z.of_nat (length (k_disk s)) →
  ∃ x s1 r s2, bread 1 b s = Ok x s1 ∧ buf_at x s1 = Ok r s1 ∧ b_data r = val b ∧ brelse x s1 = Ok tt s2 ∧
    k_icache s1 = k_icache s ∧ cached s2 ∅ Ds val ∧ same_disk s s2.
Proof.
  intros Hc Hb. destruct (cached_read s ∅ Ds val b Hc Hb) as (x & s1 & E1 & Hx & Hc1 & Hk1).
  - rewrite hblks_empty. apply not_elem_of_empty.
  - right. by rewrite hblks_empty, union_empty_r_L.
  - destruct (cached_at _ _ _ _ _ _ _ Hc1 (lookup_insert_eq _ _ _)) as (r & Hr & Hrd & _).
    destruct (cached_release s1 _ Ds val x b Hc1 (lookup_insert_eq _ _ _)) as (s2 & E2 & Hc2 & Hk2).
    rewrite delete_insert_id in Hc2 by done. exists x, s1, r, s2.
    split_and!; try done; [by apply same_disk_icache|by eapply same_disk_trans].
Qed.

Lemma addr_at_eq s k : k_icache s !! ip = Some i → length (i_addrs i) = S NDIRECT → 0 ≤ k ≤ Z.of_nat NDIRECT →
  addr_at ip k s = Ok (addr_in i (Z.to_nat k)) s.
Proof.
  intros Hi Hl Hk. unfold addr_at. run (by apply inode_at_eq). unfold arr_get, addr_in.
  rewrite (proj2 (Z.ltb_ge _ _)) by lia. destruct (lookup_lt_is_Some_2 (i_addrs i) (Z.to_nat k)) as [a Ha]; [lia|].
  rewrite Ha. by rewrite (nth_lookup_Some _ _ _ _ Ha).
Qed.

(** [bmap] of a block that the file has. *)
Lemma bmap_there s k b :
  cached s ∅ Ds val → k_icache s !! ip = Some i → inode_file (length (k_disk s)) val i bs → bs !! k = Some b →
  ∃ s', bmap ip (Z.of_nat k) s = Ok b s' ∧ cached s' ∅ Ds val ∧ same_disk s s'.
Proof.
  intros Hc Hi [F1 F2 F3 F4 F5 F6 F7] Hk. pose proof F4 as [R1 R2 R3 R4 R5]. pose proof (lookup_lt_Some _ _ _ Hk) as Hlt.
  assert (Hb : 0 < b) by (apply F5; unfold file_blocks; apply elem_of_app; left; by eapply list_elem_of_lookup_2).
  unfold bmap. destruct (Z.ltb_spec (Z.of_nat k) (Z.of_nat NDIRECT)) as [Hd|Hd].
  - exists s. split; [|split; [done|by split_and!; [destruct s|..]]].
    run (by apply inode_at_eq). run (apply addr_at_eq; [done|done|lia]).
    rewrite Nat2Z.id, R2, Hk by lia. simpl. by rewrite (proj2 (Z.eqb_neq _ _)) by lia.
  - assert (HL : (NDIRECT < length bs)%nat) by lia.
    assert (Ha : 0 < addr_in i NDIRECT < Z.of_nat (length (k_disk s))).
    { apply F5. unfold file_blocks. rewrite decide_True by done. apply elem_of_app. right. by left. }
    destruct (read_block s (addr_in i NDIRECT) Hc ltac:(lia)) as (x & s1 & r & s2 & E1 & Hr & Hrd & E2 & _ & Hc2 & Hk2).
    exists s2. split; [|done]. run (by apply inode_at_eq). cbv zeta.
    rewrite (proj2 (Z.ltb_lt _ _)) by lia. run (apply addr_at_eq; [done|done|lia]). rewrite Nat2Z.id.
    rewrite (proj2 (Z.eqb_neq _ _)) by lia. run done. rewrite F1. run exact E1. run exact Hr. cbv zeta.
    replace (Z.to_nat (4 * (Z.of_nat k - Z.of_nat NDIRECT))) with (4 * (k - NDIRECT))%nat by lia.
    rewrite Hrd, R5 by lia. replace (NDIRECT + (k - NDIRECT))%nat with k by lia. rewrite Hk. cbn [default from_option id].
    rewrite (proj2 (Z.eqb_neq _ _)) by lia. run done. run exact E2. done.
Qed.

(** ** The loop of [readi] *)

Lemma chunk_range n tot off : tot < n → 0 ≤ off → 0 < chunk n tot off ≤ n - tot ∧ off mod BSIZE + chunk n tot off ≤ BSIZE.
Proof. intros Hn Ho. unfold chunk, BSIZE. pose proof (Z.mod_pos_bound off 512 ltac:(done)). lia. Qed.

(** The bytes of one chunk. *)
Lemma chunk_data len off m b :
  inode_file len val i bs → 0 ≤ off → 0 < m → off + m ≤ i_size i → off mod BSIZE + m ≤ BSIZE → bs !! Z.to_nat (off / BSIZE) = Some b →
  take (Z.to_nat m) (drop (Z.to_nat (off mod BSIZE)) (val b)) = take (Z.to_nat m) (drop (Z.to_nat off) (file_data val bs (i_size i))).
Proof.
  intros Hf Ho Hm Hsz Hr Hb. unfold file_data. pose proof (Z.mod_pos_bound off BSIZE ltac:(done)) as Hmod.
  pose proof (Z.div_mod off BSIZE ltac:(done)) as Hdm. assert (0 ≤ off / BSIZE) by (apply Z.div_pos; [lia|done]).
  rewrite (take_drop_commute (take _ _)), take_take, Nat.min_l, <-take_drop_commute by lia.
  replace (Z.to_nat off) with (Z.to_nat (off / BSIZE) * Z.to_nat BSIZE + Z.to_nat (off mod BSIZE))%nat by (unfold BSIZE in *; lia).
  symmetry. apply take_drop_concat; [|by rewrite list_lookup_fmap, Hb|unfold BSIZE in *; lia].
  apply Forall_fmap, Forall_forall. apply Hf.
Qed.

Lemma readi_loop n off0 :
  0 ≤ off0 → off0 + n ≤ i_size i → ∀ fuel tot s,
  cached s ∅ Ds val → k_icache s !! ip = Some i → inode_file (length (k_disk s)) val i bs →
  0 ≤ tot ≤ n → (0 < fuel)%nat → (tot < n → (off0 + n + 511) / 512 - (off0 + tot) / 512 < Z.of_nat fuel) →
  ∃ s', loop fuel (λ '(tot, off, acc),
      if negb (tot <? n) then ret (inr acc)
      else
        let! a := bmap ip (off / BSIZE) in
        let! i := inode_at ip in
        let! bp := bread (i_dev i) a in
        let! b := buf_at bp in
        let m := chunk n tot off in
        let bytes := take (Z.to_nat m) (drop (Z.to_nat (off mod BSIZE)) (b_data b)) in
        brelse bp ;;
        ret (inl (tot + m, off + m, acc ++ bytes)))
      (tot, off0 + tot, take (Z.to_nat tot) (drop (Z.to_nat off0) (file_data val bs (i_size i)))) s =
    Ok (take (Z.to_nat n) (drop (Z.to_nat off0) (file_data val bs (i_size i)))) s' ∧
    cached s' ∅ Ds val ∧ same_disk s s'.
Proof.
  intros Ho Hn. induction fuel as [|fuel IH]; intros tot s Hc Hi Hf Htot Hpos Hfuel; [lia|].
  destruct (decide (tot = n)) as [->|Hne].
  { exists s. split; [|split; [done|by split_and!; [destruct s|..]]]. apply loop_Ok. by rewrite Z.ltb_irrefl. }
  specialize (Hfuel ltac:(lia)). remember (off0 + tot) as off eqn:Eoff.
  destruct (chunk_range n tot off) as [Hm Hmo]; [lia|lia|]. remember (chunk n tot off) as m eqn:Em.
  assert (Hk : (Z.to_nat (off / BSIZE) < length bs)%nat).
  { pose proof (if_size _ _ _ _ Hf) as Hs. assert (off / BSIZE < Z.of_nat (length bs)) by (apply Z.div_lt_upper_bound; [done|lia]).
    pose proof (Z.div_pos off BSIZE). lia. }
  destruct (lookup_lt_is_Some_2 _ _ Hk) as [b Hb].
  assert (Hbr : 0 < b < Z.of_nat (length (k_disk s))).
  { apply (if_range _ _ _ _ Hf). unfold file_blocks. apply elem_of_app. left. by eapply list_elem_of_lookup_2. }
  destruct (bmap_there s (Z.to_nat (off / BSIZE)) b Hc Hi Hf Hb) as (s1 & E1 & Hc1 & Hk1).
  rewrite Z2Nat.id in E1 by (apply Z.div_pos; [lia|done]).
  rewrite <-(same_disk_len _ _ Hk1) in Hbr, Hf. rewrite <-(same_disk_icache _ _ Hk1) in Hi.
  destruct (read_block s1 b Hc1 ltac:(lia)) as (x & s2 & r & s3 & E2 & Hr & Hrd & E3 & Ei & Hc3 & Hk3).
  rewrite <-(same_disk_len _ _ Hk3) in Hf. assert (Hi3 : k_icache s3 !! ip = Some i) by (rewrite (same_disk_icache _ _ Hk3); done).
  pose proof (chunk_data _ off m b Hf ltac:(lia) ltac:(lia) ltac:(lia) Hmo Hb) as Hdata.
  assert (Hdec : (0 < fuel)%nat ∧ (tot + m < n → (off0 + n + 511) / 512 - (off0 + (tot + m)) / 512 < Z.of_nat fuel)).
  { unfold chunk, BSIZE in *. pose proof (Z.div_mod off 512 ltac:(done)). pose proof (Z.mod_pos_bound off 512 ltac:(done)).
    pose proof (Z.div_mod (off0 + n + 511) 512 ltac:(done)). pose proof (Z.mod_pos_bound (off0 + n + 511) 512 ltac:(done)).
    split; [lia|]. intros Hlt. assert (Eq : (off0 + (tot + m)) / 512 = off / 512 + 1); [|lia].
    symmetry. apply (Z.div_unique _ _ _ 0); lia. }
  destruct (IH (tot + m) s3 Hc3 Hi3 Hf ltac:(lia) (proj1 Hdec) (proj2 Hdec)) as (s' & E & Hc' & Hk').
  exists s'. split; [|split; [done|by eapply same_disk_trans; [|eapply same_disk_trans]]].
  rewrite <-E. apply loop_next. rewrite (proj2 (Z.ltb_lt _ _)) by lia. cbn [negb].
  run exact E1. run (by apply inode_at_eq). rewrite (if_dev _ _ _ _ Hf). run exact E2. run exact Hr. cbv zeta. run exact E3.
  rewrite <-Em, Hrd, Hdata. replace (off + m) with (off0 + (tot + m)) by lia.
  replace (Z.to_nat off) with (Z.to_nat off0 + Z.to_nat tot)%nat by lia.
  rewrite <-drop_drop, take_take_drop. by replace (Z.to_nat tot + Z.to_nat m)%nat with (Z.to_nat (tot + m)) by lia.
Qed.

(** [readi] returns the bytes of the file from [off] on, at most [n]. *)
Lemma readi_ok s off n :
  cached s ∅ Ds val → k_icache s !! ip = Some i → inode_file (length (k_disk s)) val i bs →
  0 ≤ off ≤ i_size i → 0 ≤ n → off + n < 2 ^ 32 → i_size i < 2 ^ 31 →
  let m := Z.min n (i_size i - off) in
  ∃ s', readi ip off n s = Ok (m, take (Z.to_nat m) (drop (Z.to_nat off) (file_data val bs (i_size i)))) s' ∧
    cached s' ∅ Ds val ∧ same_disk s s'.
Proof.
  intros Hc Hi Hf Ho Hn Hlim Hsz m.
  destruct (readi_loop m off ltac:(lia) ltac:(lia) (3 + Z.to_nat (m / BSIZE)) 0 s Hc Hi Hf) as (s' & E & Hc' & Hk').
  { lia. } { lia. }
  { intros _. unfold BSIZE. rewrite Z.add_0_r. pose proof (Z.div_mod m 512 ltac:(done)). pose proof (Z.div_mod (off + m + 511) 512 ltac:(done)).
    pose proof (Z.div_mod off 512 ltac:(done)). pose proof (Z.mod_pos_bound m 512 ltac:(done)).
    pose proof (Z.mod_pos_bound off 512 ltac:(done)). pose proof (Z.mod_pos_bound (off + m + 511) 512 ltac:(done)).
    pose proof (Z.div_pos m 512). lia. }
  exists s'. split; [|done]. unfold readi. run (by apply inode_at_eq). rewrite (proj2 (Z.eqb_neq _ _)) by apply Hf.
  rewrite u32_small by lia. rewrite !(proj2 (Z.ltb_ge _ off)) by lia. cbn [orb].
  replace (if i_size i <? off + n then i_size i - off else n) with m
    by (unfold m; destruct (Z.ltb_spec (i_size i) (off + n)); lia).
  rewrite Z.add_0_r in E. cbv zeta. run exact E. by rewrite i32_small by lia.
Qed.

(** Past the end, or when [off + n] wraps: the error. *)
Lemma readi_past s off n :
  k_icache s !! ip = Some i → i_type i ≠ T_DEV → 0 ≤ off < 2 ^ 32 → 0 ≤ n < 2 ^ 32 →
  i_size i < off ∨ 2 ^ 32 ≤ off + n → readi ip off n s = Ok (-1, []) s.
Proof using Type.
  clear Hds. intros Hi Ht Ho Hn Hbad. unfold readi. run (by apply inode_at_eq). rewrite (proj2 (Z.eqb_neq _ _)) by done.
  replace ((i_size i <? off) || (u32 (off + n) <? off)) with true; [done|]. symmetry. apply orb_true_iff.
  rewrite !Z.ltb_lt. destruct Hbad as [?|Hw]; [by left|right]. unfold u32.
  rewrite <-(Z.mod_unique_pos _ _ 1 (off + n - 2 ^ 32)); lia.
Qed.
End read.

(** ** Loading an inode *)

Section lock.
Context `{Env} (pid : Z) `{!BlockCache pid}.
Context (Ds : gset Z) (val : Z → list Z) (ip : nat).
Hypothesis Hds : (size Ds < NBUF)%nat.
Hypothesis Hfuel : (0 < FUEL)%nat.

Definition iset (i : inode) (s : kernel) : kernel := set_k_icache (<[ip := i]> (k_icache s)) s.

Lemma cached_iset s i Hd : cached s Hd Ds val → cached (iset i s) Hd Ds val.
Proof. intros Hc. by eapply cached_same. Qed.
Lemma upd_inode_eq s i f : k_icache s !! ip = Some i → upd_inode ip f s = Ok tt (iset (f i) s).
Proof. intros Hi. unfold upd_inode. by rewrite Hi. Qed.
Lemma iset_lookup s i i' : k_icache s !! ip = Some i → k_icache (iset i' s) !! ip = Some i'.
Proof. intros Hi. apply list_lookup_insert_eq. by eapply lookup_lt_Some. Qed.
Lemma iset_iset s i i' : iset i' (iset i s) = iset i' s.
Proof. unfold iset. simpl. rewrite list_insert_insert_eq. by destruct s. Qed.

Lemma acquiresleep_inode s i :
  alone pid s → k_icache s !! ip = Some i → sl_locked (i_lock i) = false →
  acquiresleep (SL_inode ip) s = Ok tt (iset (set_i_lock (mk_sleeplock true pid) i) s).
Proof.
  intros Hq Hi Hl. pose proof (locked_calm pid (LK_sleep (SL_inode ip)) s Hq) as Hc.
  pose proof (qu_proc _ _ Hq) as (k & p & Hk & Hp & Epid). unfold acquiresleep. run (by eapply acquire_alone).
  destruct FUEL as [|fuel]; [lia|]. run (apply loop_Ok; unfold bind, get_sl; simpl; rewrite Hi, Hl; done).
  run (unfold upd_sl; simpl; rewrite Hi; reflexivity).
  run (by apply (mypid_calm _ k p); [eapply calm_same; [exact Hc|..]|..]).
  run (unfold upd_sl; simpl; rewrite list_lookup_insert_eq by (by eapply lookup_lt_Some); reflexivity).
  erewrite (release_calm _ s); [|apply Hq|by rewrite (qu_held _ _ Hq); apply not_elem_of_nil|done|done].
  unfold iset. simpl. rewrite list_insert_insert_eq, Epid. destruct i, s; done.
Qed.

(** What [ilock] reads from the disk. *)
Definition loaded (inum : Z) (sb : superblock) (i : inode) : inode :=
  set_i_valid true (read_dinode (val (IBLOCK inum sb)) (dinode_off inum) (set_i_lock (mk_sleeplock true pid) i)).

Lemma ilock_loads s i :
  cached s ∅ Ds val → k_icache s !! ip = Some i → sl_locked (i_lock i) = false → 1 ≤ i_ref i → i_valid i = false →
  i_dev i = 1 → 0 ≤ IBLOCK (i_inum i) (k_sb s) < Z.of_nat (length (k_disk s)) →
  i_type (loaded (i_inum i) (k_sb s) i) ≠ 0 →
  ∃ s', ilock (Some ip) s = Ok tt s' ∧ cached s' ∅ Ds val ∧ k_disk s' = k_disk s ∧ k_dwrites s' = k_dwrites s ∧
    k_icache s' = <[ip := loaded (i_inum i) (k_sb s) i]> (k_icache s).
Proof.
  intros Hc Hi Hl Hr Hv Hdev Hb Ht. pose proof (cached_alone _ _ _ _ Hc) as Hq.
  set (i1 := set_i_lock (mk_sleeplock true pid) i). set (s1 := iset i1 s).
  assert (Hi1 : k_icache s1 !! ip = Some i1) by by eapply iset_lookup.
  destruct (cached_read s1 ∅ Ds val (IBLOCK (i_inum i) (k_sb s)) (cached_iset s i1 ∅ Hc) Hb) as (x & s2 & E1 & Hx & Hc2 & Hk2).
  { rewrite hblks_empty. apply not_elem_of_empty. } { right. by rewrite hblks_empty, union_empty_r_L. }
  destruct (cached_at _ _ _ _ _ _ _ Hc2 (lookup_insert_eq _ _ _)) as (r & Hr2 & Hrd & _).
  set (i2 := read_dinode (val (IBLOCK (i_inum i) (k_sb s))) (dinode_off (i_inum i)) i1).
  assert (Hi2 : k_icache s2 !! ip = Some i1) by (by rewrite (same_disk_icache _ _ Hk2)).
  destruct (cached_release (iset i2 s2) _ Ds val x _ (cached_iset s2 i2 _ Hc2) (lookup_insert_eq _ _ _)) as (s3 & E2 & Hc3 & Hk3).
  rewrite delete_insert_id in Hc3 by done.
  assert (Hi3 : k_icache s3 !! ip = Some i2) by (rewrite (same_disk_icache _ _ Hk3); by eapply iset_lookup).
  exists (iset (set_i_valid true i2) s3). split_and!.
  - unfold ilock. run (by apply inode_at_eq). rewrite (proj2 (Z.ltb_ge _ _)) by lia. run (by apply acquiresleep_inode).
    run (by apply inode_at_eq). change (i_valid i1) with (i_valid i). rewrite Hv. cbn [negb when]. run done.
    change (i_dev i1) with (i_dev i). change (i_inum i1) with (i_inum i). change (k_sb (iset i1 s)) with (k_sb s). rewrite Hdev.
    run exact E1. run exact Hr2. rewrite Hrd. run (by apply upd_inode_eq). run exact E2. run (by apply upd_inode_eq).
    run (apply inode_at_eq; by eapply iset_lookup). by rewrite (proj2 (Z.eqb_neq _ _)) by done.
  - by apply cached_iset.
  - destruct Hk3 as (_ & D3 & _), Hk2 as (_ & D2 & _). transitivity (k_disk s3); [done|]. rewrite D3.
    transitivity (k_disk s2); [done|]. by rewrite D2.
  - destruct Hk3 as (_ & _ & D3), Hk2 as (_ & _ & D2). transitivity (k_dwrites s3); [done|]. rewrite D3.
    transitivity (k_dwrites s2); [done|]. by rewrite D2.
  - unfold iset at 1. cbn [k_icache set_k_icache]. rewrite (same_disk_icache _ _ Hk3). unfold iset at 1. cbn [k_icache set_k_icache].
    rewrite (same_disk_icache _ _ Hk2). unfold s1, iset. cbn [k_icache set_k_icache]. by rewrite !list_insert_insert_eq.
Qed.
End lock.
