(* ===== verification/Reap.v ===== *)
(** * Reap: collecting a ZOMBIE child

    [wait] and [waitx] end in [reap]: the child's stack and address space go back
    to the allocator, the slot becomes UNUSED, and the child is taken out of its
    queue.  [reap_ok] is about every run of [reap] that returns; [reap_run] says that it
    returns when the child's pages are in use. *)

From stdpp Require Import base numbers gmap strings option list.
From S2P Require Import Prelude Format Machine Mem Mlfq ProcCore Kalloc Vm Proc Scheduler MlfqInv.
From S2P Require Import VmThm UvmThm CopyThm SpaceThm MlfqOps.
Local Open Scope kernel_scope.

(** ** Code that touches memory only *)

(** The processor, its locks and what the scheduler reads are left alone. *)
Record mem_only (s s' : kernel) : Prop := {
  mo_sched : same_sched s s';
  mo_cpu : k_cpu s' = k_cpu s;
  mo_held : k_held s' = k_held s;
}.

#[export] Instance mem_only_preorder : PreOrder mem_only.
Proof.
  split; [by split|]. intros s1 s2 s3 [[? ? ? ?] ? ?] [[? ? ? ?] ? ?].
  split; [split|..]; congruence.
Qed.

#[export] Instance load8_mem_only a : Framed mem_only (load8 a).
Proof. intros s v s'. unfold load8. destruct (k_mem s !! a); [by intros [= <- <-]|done]. Qed.
#[export] Instance store8_mem_only a v : Framed mem_only (store8 a v).
Proof. intros s u s'. unfold store8. destruct (k_mem s !! a); [by intros [= <- <-]|done]. Qed.
#[export] Instance load32_mem_only a : Framed mem_only (load32 a).
Proof. unfold load32. apply _. Qed.
#[export] Instance store32_mem_only a v : Framed mem_only (store32 a v).
Proof. unfold store32. apply _. Qed.
#[export] Instance memset_mem_only d c n : Framed mem_only (memset d c n).
Proof. unfold memset, stosl, stosb. apply _. Qed.

(** The same, entered with ptable.lock held. *)
Definition mem_held (s s' : kernel) : Prop :=
  cpu_ok s → k_held s = [LK_ptable] → mem_only s s'.

#[export] Instance mem_held_preorder : PreOrder mem_held.
Proof.
  split; [by intros s _ _|]. intros s1 s2 s3 H1 H2 Hok Hh. pose proof (H1 Hok Hh) as [? Hc Hl].
  etrans; [by split|]. apply H2; [by eapply cpu_ok_same|congruence].
Qed.

Lemma mem_only_held {A} (m : K A) : Framed mem_only m → Framed mem_held m.
Proof. intros Hm s a s' E _ _. by eapply Hm. Qed.

Lemma bind_Ok_inv {S A B} (m : M S A) (f : A → M S B) s b s' :
  bind m f s = Ok b s' → ∃ a s1, m s = Ok a s1 ∧ f a s1 = Ok b s'.
Proof. unfold bind. destruct (m s); [eauto|done..]. Qed.

Section env.
Context `{Env}.

#[export] Instance kfree_mem_held v : Framed mem_held (kfree v).
Proof.
  unfold kfree. destruct (_ || _); [apply _|].
  apply framed_bind; [apply _|apply mem_only_held, _|]. intros _ s a s' E Hok Hh.
  rewrite (bind_Ok _ _ s (k_use_lock s) s) in E by done. destruct (k_use_lock s); simpl in E.
  - assert (Hl : LK_kmem ∉ k_held s) by (rewrite Hh; set_solver).
    erewrite bind_Ok in E by by apply acquire_eq. erewrite bind_Ok in E by done.
    apply bind_Ok_inv in E as ([] & s1 & [Hs Hc Hh1]%(framed (R:=mem_only)) & E).
    erewrite bind_Ok in E by done.
    rewrite (release_top LK_kmem _ (k_held s)) in E; [| |exact Hh1].
    2:{ eapply (cpu_ok_same (locked LK_kmem s)); [by apply cpu_ok_locked|done..]. }
    injection E as <- <-. destruct Hs. split; [by split| |done]. simpl. rewrite Hc. simpl.
    pose proof (touched_held s Hok ltac:(by rewrite Hh)) as Et. by rewrite <-Et at 2.
  - erewrite bind_Ok in E by done. erewrite bind_Ok in E by done.
    apply bind_Ok_inv in E as ([] & s1 & [[? ? ? ?] Hc Hh1]%(framed (R:=mem_only)) & E).
    injection E as <- <-. split; [by split|done..].
Qed.

#[export] Instance walkpgdir_mem_only pgdir va : Framed mem_only (walkpgdir pgdir va false).
Proof.
  unfold walkpgdir. apply framed_bind; [apply _..|]. intros e. apply framed_if; apply _.
Qed.

#[export] Instance deallocuvm_mem_held pgdir oldsz newsz : Framed mem_held (deallocuvm pgdir oldsz newsz).
Proof.
  unfold deallocuvm. apply framed_if; [apply _|].
  apply framed_bind; [apply _| |intros _; apply _]. apply framed_loop; [apply _|]. intros a.
  apply framed_if; [apply _|].
  apply framed_bind; [apply _|apply mem_only_held, _|]. intros pte. apply framed_if; [apply _|].
  apply framed_bind; [apply _|apply mem_only_held, _|]. intros e.
  apply framed_bind; [apply _| |intros _; apply _]. apply framed_when; [apply _|]. apply framed_if; [apply _|].
  apply framed_bind; [apply _..|]. intros _. apply mem_only_held, _.
Qed.

#[export] Instance freevm_mem_held pgdir : Framed mem_held (freevm pgdir).
Proof.
  unfold freevm. apply framed_if; [apply _|].
  apply framed_bind; [apply _..|]. intros _.
  apply framed_bind; [apply _| |intros _; apply _]. apply framed_for_each; [apply _|]. intros i.
  apply framed_bind; [apply _|apply mem_only_held, _|]. intros e. apply _.
Qed.

(** ** reap *)

(** What becomes of the child's slot. *)
Definition reaped (p : proc) : proc :=
  set_p_state UNUSED (set_p_killed false (set_p_name (<[0 := 0%Z]> (p_name p))
    (set_p_parent None (set_p_pid 0%Z (set_p_kstack 0%Z p))))).

Lemma proc_wf_reaped n p : proc_wf n p → proc_wf n (reaped p).
Proof. intros [? ? ? ? ?]. split; simpl; [done|done|lia|done|]. set_solver. Qed.

(** No queue holds a process of pid 0, so the search at the end of [wait] fails. *)
Lemma find_pid_zero X s qs k q :
  mlfq_inv X s qs → qs !! k = Some q → find_pid (k_ptable s) 0 q = None.
Proof.
  intros Hi Hq. unfold find_pid. destruct (list_find _ q) as [[n i]|] eqn:E; [|done].
  apply list_find_Some in E as (Hn & Hpid & _). apply list_elem_of_lookup_2 in Hn.
  destruct (mi_sound _ _ _ Hi _ _ _ Hq Hn) as (p & Hp & Hst & _). rewrite Hp in Hpid.
  simpl in Hpid. pose proof (wf_live _ _ (mi_wf _ _ _ Hi _ _ Hp) ltac:(by rewrite Hst)).
  injection Hpid; lia.
Qed.

Lemma reaped_inv s qs i p :
  mlfq_inv none s qs → k_ptable s !! i = Some p → p_state p ≠ RUNNABLE →
  mlfq_inv none (set_k_ptable (<[i := reaped p]> (k_ptable s)) s) qs.
Proof.
  intros Hi Hp Hst. apply (mlfq_inv_drop none _ _ i (reaped p)).
  - eapply mlfq_inv_replace; [done..|by eapply unqueued_state| |].
    + apply proc_wf_reaped. by eapply mi_wf.
    + simpl. lia.
  - simpl. apply list_lookup_insert_eq. by eapply lookup_lt_Some.
  - done.
Qed.

(** The removal from the queue is never performed: the pid it searches for has
    been cleared before. *)
Lemma reap_dequeue {A} s qs i p (k : K A) :
  mlfq_inv none s qs → k_ptable s !! i = Some p → p_pid p = 0%Z → is_sched MLFQ = true →
  (when (is_sched MLFQ) (
    let! p := proc_at i in
    let! found := mlfq_find (p_cur_q p) (p_pid p) in
    match found with
    | Some ind => mlfq_remove (p_cur_q p) ind
    | None => ret tt
    end) ;; k) s = k s.
Proof.
  intros Hi Hp Hpid Hm. rewrite Hm. simpl. erewrite bind_Ok; [done|].
  erewrite bind_Ok by by apply proc_at_eq.
  pose proof (wf_cur_q _ _ (mi_wf _ _ _ Hi _ _ Hp)) as Hcq.
  destruct (mlfq_inv_queue _ _ _ (Z.to_nat (p_cur_q p)) Hi) as [q Hq]; [lia|].
  replace (p_cur_q p) with (Z.of_nat (Z.to_nat (p_cur_q p))) at 1 by lia.
  erewrite bind_Ok.
  2:{ eapply mlfq_find_eq; [by eapply mi_rep|done|]. intros j. by apply (mlfq_inv_valid _ _ _ _ _ j Hi Hq). }
  by rewrite Hpid, (find_pid_zero _ _ _ _ _ Hi Hq).
Qed.

(** What [wait] does with the slot once the pages are free. *)
Definition reap_clear (i : nat) (pid : Z) : K Z :=
  upd_proc i (set_p_pid 0) ;;
  upd_proc i (set_p_parent None) ;;
  upd_proc i (λ p, set_p_name (<[0 := 0%Z]> (p_name p)) p) ;;
  upd_proc i (set_p_killed false) ;;
  upd_proc i (set_p_state UNUSED) ;;
  when (is_sched MLFQ) (
    let! p := proc_at i in
    let! found := mlfq_find (p_cur_q p) (p_pid p) in
    match found with
    | Some ind => mlfq_remove (p_cur_q p) ind
    | None => ret tt
    end) ;;
  release LK_ptable ;;
  ret pid.

(** [s] is the state in which [wait] has found the child, [s3] the one after [freevm]. *)
Lemma reap_clear_ok s s3 qs i p pid :
  is_sched MLFQ = true → cpu_ok s → k_held s = [LK_ptable] → mlfq_inv none s qs →
  k_ptable s !! i = Some p → p_state p = ZOMBIE →
  mem_only (set_k_ptable (<[i := set_p_kstack 0 p]> (k_ptable s)) s) s3 →
  ∃ s', reap_clear i pid s3 = Ok pid s' ∧
    k_ptable s' = <[i := reaped p]> (k_ptable s) ∧ mlfq_inv none s' qs ∧
    cpu_ok s' ∧ k_held s' = [] ∧ c_proc (k_cpu s') = c_proc (k_cpu s) ∧ k_nextpid s' = k_nextpid s.
Proof.
  intros Hm Hok Hh Hi Hp Hst [[E3 Q3 I3 N3] C3 H3]. pose proof (lookup_lt_Some _ _ _ Hp) as Hlt.
  simpl in E3, Q3, I3, N3, C3, H3. unfold reap_clear.
  assert (Hlk : ∀ (q : proc) (l : list proc), length l = length (k_ptable s) →
    <[i := q]> l !! i = Some q) by (intros q l El; apply list_lookup_insert_eq; by rewrite El).
  do 5 (erewrite bind_Ok by (apply upd_proc_eq; simpl; rewrite ?E3; apply Hlk;
    by rewrite ?length_insert)).
  simpl. rewrite E3, !list_insert_insert_eq. change (set_p_state UNUSED _) with (reaped p).
  set (s4 := set_k_ptable (<[i := reaped p]> (k_ptable s)) s3).
  assert (Hi4 : mlfq_inv none s4 qs).
  { eapply mlfq_inv_same; [|apply (reaped_inv s qs i p); [done|done|by rewrite Hst]].
    split; simpl; congruence. }
  assert (Hok4 : cpu_ok s4) by (eapply (cpu_ok_same s); [done|simpl; congruence..]).
  assert (Hh4 : k_held s4 = [LK_ptable]) by (simpl; congruence).
  rewrite (reap_dequeue s4 qs i (reaped p)); [|done|simpl; by apply Hlk|done|done].
  erewrite bind_Ok by (apply release_top; [done|exact Hh4]).
  eexists. split; [reflexivity|]. split_and!; try done.
  - eapply mlfq_inv_same; [|exact Hi4]. by split.
  - pose proof (ok_ncli _ Hok4) as En. rewrite Hh4 in En. simpl in En.
    split; simpl; [lia|done|constructor].
  - simpl. by rewrite C3.
Qed.

(** A run of [reap] that returns: the slot is [reaped], ptable.lock is released,
    the queues are as before. *)
Lemma reap_ok s qs i p pid s' :
  is_sched MLFQ = true →
  cpu_ok s → k_held s = [LK_ptable] → mlfq_inv none s qs →
  k_ptable s !! i = Some p → p_state p = ZOMBIE →
  reap i s = Ok pid s' →
  pid = p_pid p ∧ k_ptable s' = <[i := reaped p]> (k_ptable s) ∧ mlfq_inv none s' qs ∧
  cpu_ok s' ∧ k_held s' = [] ∧ c_proc (k_cpu s') = c_proc (k_cpu s) ∧
  k_nextpid s' = k_nextpid s.
Proof.
  intros Hm Hok Hh Hi Hp Hst E. unfold reap in E.
  erewrite bind_Ok in E by by apply proc_at_eq.
  apply bind_Ok_inv in E as ([] & s1 & Hk%(framed (R:=mem_held)) & E).
  destruct (Hk Hok Hh) as [[E1 Q1 I1 N1] C1 H1]. clear Hk.
  erewrite bind_Ok in E by (apply upd_proc_eq; by rewrite E1). rewrite E1 in E.
  set (s2 := set_k_ptable _ s1) in E.
  apply bind_Ok_inv in E as ([] & s3 & Hf%(framed (R:=mem_held)) & E).
  destruct (reap_clear_ok s s3 qs i p (p_pid p)) as (s4 & E4 & H4); [done..| |].
  { etrans; [|apply Hf; [by eapply (cpu_ok_same s)|simpl; congruence]]. split; [by split|done..]. }
  fold (reap_clear i (p_pid p)) in E. rewrite E4 in E. injection E as <- <-. by split.
Qed.

(** When the child's stack and address space are pages that are in use, [reap] returns, and
    every one of them is on the free list. *)
Lemma reap_run s qs i p l Q T A :
  is_sched MLFQ = true → linked →
  cpu_ok s → k_held s = [LK_ptable] → mlfq_inv none s qs →
  k_ptable s !! i = Some p → p_state p = ZOMBIE →
  space s l (p_kstack p :: Q) (p_pgdir p) (p_sz p) T A →
  ∃ s', reap i s = Ok (p_pid p) s'.
Proof.
  intros Hm (HKEND & _ & _) Hok Hh Hi Hp Hst Hsp. pose proof Hsp as [Hvm Hsz Hall Hnone _ _].
  pose proof (npages_kern _ Hsz) as HV.
  destruct (vm_kfree s l (p_kstack p) (frames A 0 (npages (p_sz p)) ++ Q) (p_pgdir p) T A)
    as (s1 & E1 & Hvm1 & _).
  { eapply vm_perm; [|exact Hvm]. symmetry. apply Permutation_middle. }
  destruct (framed (R:=mem_held) _ _ _ E1 Hok Hh) as [[Ep1 Q1 I1 N1] C1 H1].
  set (s2 := set_k_ptable (<[i := set_p_kstack 0 p]> (k_ptable s1)) s1).
  assert (Hok2 : cpu_ok s2) by by eapply (cpu_ok_same s).
  assert (Ef : frames A 0 (KERNBASE / PGSIZE) = frames A 0 (npages (p_sz p)))
    by (apply frames_trunc; [lia|lia|done]).
  destruct (freevm_run HKEND s2 (p_kstack p :: l) Q (p_pgdir p) T A) as (s3 & l3 & E3 & _).
  { rewrite Ef. by apply (vm_same s1). }
  destruct (reap_clear_ok s s3 qs i p (p_pid p)) as (s4 & E4 & _); [done..| |].
  { etrans; [|apply (framed (R:=mem_held) _ _ _ E3); [done|simpl; congruence]].
    unfold s2. rewrite Ep1. split; [by split|done..]. }
  exists s4. unfold reap. erewrite bind_Ok by by apply proc_at_eq. erewrite bind_Ok by exact E1.
  erewrite bind_Ok by (apply upd_proc_eq; by rewrite Ep1). erewrite bind_Ok by exact E3. exact E4.
Qed.
End env.
