(* ===== verification/System.v ===== *)
(** * System: several processors running the MLFQ kernel

    A configuration is the shared memory of the kernel, the processors, and where
    each process stopped when it last gave its processor up.  A step is one event
    on one processor: a pass of the scheduler, a critical section of ptable.lock
    entered by the running process or by an interrupt, or anything else the
    running process does to memory it owns.  The code of a step is the code of
    proc.c and trap.c up to, or from, a [swtch].

    [acquire] spins while another processor holds the lock, so an event is enabled
    when the locks it takes are free.

    [sinv] is shown to hold in every reachable configuration, and every enabled
    event to return, so that none of the kernel's panics in this code can happen; for
    a [wait] that collects a child this needs the child's pages to be in use. *)

From stdpp Require Import base numbers gmap strings option list.
From S2P Require Import Prelude Format Machine Mem Mlfq ProcCore Kalloc Vm Proc Trap Scheduler.
From S2P Require Import MlfqInv MlfqOps MlfqSched.
Local Open Scope kernel_scope.

(** ** Configurations *)

(** What a processor executes: the scheduler's loop, a process, or a process that
    is inside [wait] and holds ptable.lock. *)
Inductive ctl := AtSched | InProc (p : nat) | InWait (p : nat).

(** Where a process continues when [swtch] comes back to it. *)
Inductive resume := RForkret | RYield (intena : bool) | RSleep (lk : lockid) (intena : bool).

Record thread := mk_thread {
  th_resume : resume;
  th_embryo : option nat;  (** the slot [fork] is filling *)
}.
Record cpustate := mk_cpustate {
  cs_cpu : cpu;
  cs_held : list lockid;
  cs_ctl : ctl;
}.
Record config := mk_config {
  g_mem : kernel;  (** the shared globals; its [k_cpu] and [k_held] are not used *)
  g_cpus : list cpustate;
  g_thr : list thread;
}.

(** The kernel as processor [cs] sees it. *)
Definition view (cfg : config) (cs : cpustate) : kernel :=
  set_k_cpu (cs_cpu cs) (set_k_held (cs_held cs) (g_mem cfg)).
(** The configuration after processor [c] has moved to state [s]. *)
Definition put (cfg : config) (c : nat) (s : kernel) (t : ctl) (thr : list thread) : config :=
  mk_config s (<[c := mk_cpustate (k_cpu s) (k_held s) t]> (g_cpus cfg)) thr.

(** ** Events *)

Inductive event :=
| ESched  (** a pass of the scheduler *)
| EYield
| ESleep (ch : chan) (lk : lockid)
| EExit
| EWakeup (ch : chan)
| EKill (pid : Z)
| ETick  (** the timer interrupt on processor 0 *)
| ESetPriority (new_priority pid : Z)
| EAlloc  (** [fork]: the first critical section of [allocproc] *)
| EReady  (** [fork]: the child becomes RUNNABLE *)
| EFail  (** [fork]: out of memory, the slot is given back *)
| EWait  (** [wait]: acquire ptable.lock *)
| EScan  (** [wait]: collect a ZOMBIE child, return -1, or sleep *)
| EPrivate (g : kernel)  (** anything else the process does *)
| EAcquire (lk : lockid)
| ERelease (lk : lockid).

Section code.
Context `{Env}.

(** [swtch(&c->scheduler, p->context)] arrives at the process. *)
Definition resume_code (p : nat) (r : resume) : K ctl :=
  match r with
  | RForkret =>
      release LK_ptable ;;
      ret (InProc p)
  | RYield intena =>
      sched_exit intena ;;
      release LK_ptable ;;
      ret (InProc p)
  | RSleep lk intena =>
      sched_exit intena ;;
      sleep_wake p lk ;;
      ret (if bool_decide (lk = LK_ptable) then InWait p else InProc p)
  end.

(** [swtch(&p->context, mycpu()->scheduler)] arrives at the scheduler. *)
Definition back_code (p : nat) : K unit :=
  mlfq_requeue p ;;
  release LK_ptable.

Definition set_resume (p : nat) (r : resume) (thr : list thread) : list thread :=
  alter (λ t, mk_thread r (th_embryo t)) p thr.
Definition set_embryo (p : nat) (e : option nat) (thr : list thread) : list thread :=
  alter (λ t, mk_thread (th_resume t) e) p thr.

(** The code of an event on a processor whose process is [p] (unused in the
    scheduler): the new control point and the new threads. *)
Definition sched_code (thr : list thread) : K (ctl * list thread) :=
  sti ;;
  acquire LK_ptable ;;
  mlfq_age ;;
  let! r := mlfq_pick in
  match r with
  | None =>
      release LK_ptable ;;
      ret (AtSched, thr)
  | Some p =>
      let! t := deref (thr !! p) in
      let! c := resume_code p (th_resume t) in
      ret (c, thr)
  end.

(** One iteration of the loop of [wait]. *)
Definition scan_code (p : nat) (thr : list thread) : K (ctl * list thread) :=
  let! r := wait_scan p slots false in
  match r with
  | inl i =>
      reap i ;;
      ret (InProc p, thr)
  | inr havekids =>
      let! pp := proc_at p in
      if negb havekids || p_killed pp then
        release LK_ptable ;;
        ret (InProc p, thr)
      else
        sleep_enter (CH_proc p) (Some LK_ptable) ;;
        let! ie := sched_enter in
        back_code p ;;
        ret (AtSched, set_resume p (RSleep LK_ptable ie) thr)
  end.

Definition event_code (e : event) (t : ctl) (p : nat) (thr : list thread) : K (ctl * list thread) :=
  match e with
  | ESched => sched_code thr
  | EYield =>
      yield_enter ;;
      let! ie := sched_enter in
      back_code p ;;
      ret (AtSched, set_resume p (RYield ie) thr)
  | ESleep ch lk =>
      sleep_enter ch (Some lk) ;;
      let! ie := sched_enter in
      back_code p ;;
      ret (AtSched, set_resume p (RSleep lk ie) thr)
  | EExit =>
      exit_enter p ;;
      sched_enter ;;
      back_code p ;;
      ret (AtSched, thr)
  | EWakeup ch => wakeup ch ;; ret (t, thr)
  | EKill pid => kill pid ;; ret (t, thr)
  | ETick => timer_tick ;; ret (t, thr)
  | ESetPriority np pid => set_priority np pid ;; ret (t, thr)
  | EAlloc =>
      let! r := allocproc_enter in
      ret (t, match r with None => thr | Some i => set_embryo p (Some i) thr end)
  | EReady =>
      let! th := deref (thr !! p) in
      let! i := deref (th_embryo th) in
      fork_ready i ;;
      ret (t, set_resume i RForkret (set_embryo p None thr))
  | EFail =>
      let! th := deref (thr !! p) in
      let! i := deref (th_embryo th) in
      upd_proc i (set_p_state UNUSED) ;;
      ret (t, set_embryo p None thr)
  | EWait => acquire LK_ptable ;; ret (InWait p, thr)
  | EScan => scan_code p thr
  | EPrivate g => modify (λ s, set_k_cpu (k_cpu s) (set_k_held (k_held s) g)) ;; ret (t, thr)
  | EAcquire lk => acquire lk ;; ret (t, thr)
  | ERelease lk => release lk ;; ret (t, thr)
  end.
End code.

(** ** When an event can happen *)

Definition proc_of (t : ctl) : option nat :=
  match t with AtSched => None | InProc p | InWait p => Some p end.

(** No other processor holds [l]. *)
Definition lock_free (cfg : config) (c : nat) (l : lockid) : Prop :=
  ∀ c' cs', g_cpus cfg !! c' = Some cs' → c' ≠ c → l ∉ cs_held cs'.

Definition embryo_of (cfg : config) (p : nat) : option nat := g_thr cfg !! p ≫= th_embryo.

(** What the running process may do to the shared state outside ptable.lock: its
    own slot and the slot it is filling keep their state and pid, the other slots,
    the queues and [nextpid] are left alone; everything else is free. *)
Record private_ok (cfg : config) (p : nat) (g' : kernel) : Prop := {
  pv_same i : i ≠ p → embryo_of cfg p ≠ Some i → k_ptable g' !! i = k_ptable (g_mem cfg) !! i;
  pv_own i r' : k_ptable g' !! i = Some r' →
    ∃ r, k_ptable (g_mem cfg) !! i = Some r ∧ p_state r' = p_state r ∧ p_pid r' = p_pid r ∧
      (embryo_of cfg p ≠ Some i → p_cur_q r' = p_cur_q r);
  pv_wf i r : k_ptable g' !! i = Some r → proc_wf (k_nextpid g') r;
  pv_len : length (k_ptable g') = length (k_ptable (g_mem cfg));
  pv_qu : k_qu g' = k_qu (g_mem cfg);
  pv_qindex : k_qindex g' = k_qindex (g_mem cfg);
  pv_nextpid : k_nextpid g' = k_nextpid (g_mem cfg);
}.

Definition enabled (cfg : config) (c : nat) (cs : cpustate) (e : event) : Prop :=
  match e with
  | ESched => cs_ctl cs = AtSched ∧ lock_free cfg c LK_ptable
  | EYield => ∃ p, cs_ctl cs = InProc p ∧ cs_held cs = [] ∧ lock_free cfg c LK_ptable
  | ESleep _ lk =>
      ∃ p, cs_ctl cs = InProc p ∧ cs_held cs = [lk] ∧ lock_free cfg c LK_ptable
  | EExit =>
      ∃ p, cs_ctl cs = InProc p ∧ cs_held cs = [] ∧ embryo_of cfg p = None ∧
        lock_free cfg c LK_ptable
  | EWakeup _ | EKill _ | ESetPriority _ _ =>
      (LK_ptable ∉ cs_held cs) ∧ lock_free cfg c LK_ptable
  | ETick => cs_held cs = [] ∧ lock_free cfg c LK_ptable ∧ lock_free cfg c LK_ticks
  | EAlloc =>
      ∃ p, cs_ctl cs = InProc p ∧ embryo_of cfg p = None ∧
        (k_nextpid (g_mem cfg) < 2 ^ 31 - 1)%Z ∧ lock_free cfg c LK_ptable
  | EReady =>
      ∃ p i r, cs_ctl cs = InProc p ∧ embryo_of cfg p = Some i ∧
        k_ptable (g_mem cfg) !! i = Some r ∧ p_kstack r ≠ 0%Z ∧ p_pgdir r ≠ 0%Z ∧
        lock_free cfg c LK_ptable
  | EFail => (∃ p i, cs_ctl cs = InProc p ∧ embryo_of cfg p = Some i)
  | EWait => ∃ p, cs_ctl cs = InProc p ∧ cs_held cs = [] ∧ lock_free cfg c LK_ptable
  | EScan => (∃ p, cs_ctl cs = InWait p)
  | EPrivate g' => ∃ p, cs_ctl cs = InProc p ∧ private_ok cfg p g'
  | EAcquire lk =>
      (∃ p, cs_ctl cs = InProc p) ∧ lk ≠ LK_ptable ∧ (lk ∉ cs_held cs) ∧ lock_free cfg c lk
  | ERelease lk => (∃ p, cs_ctl cs = InProc p) ∧ lk ∈ cs_held cs
  end.

(** One event on processor [c]. *)
Inductive step `{Env} (cfg : config) : config → Prop :=
| step_event c cs e t thr s :
    g_cpus cfg !! c = Some cs → enabled cfg c cs e →
    event_code e (cs_ctl cs) (default 0 (proc_of (cs_ctl cs))) (g_thr cfg) (view cfg cs)
      = Ok (t, thr) s →
    step cfg (put cfg c s t thr).

(** ** The invariant *)

Definition is_running (s : kernel) (i : nat) : Prop :=
  ∃ p, k_ptable s !! i = Some p ∧ p_state p = RUNNING.
Definition is_embryo (s : kernel) (i : nat) : Prop :=
  ∃ p, k_ptable s !! i = Some p ∧ p_state p = EMBRYO.

Definition ctl_ok (cs : cpustate) : Prop :=
  c_proc (cs_cpu cs) = proc_of (cs_ctl cs) ∧
  match cs_ctl cs with
  | AtSched => cs_held cs = []
  | InProc _ => LK_ptable ∉ cs_held cs
  | InWait _ => cs_held cs = [LK_ptable]
  end.

(** Processor [c] runs process [i]. *)
Definition runs (cfg : config) (c i : nat) : Prop :=
  ∃ cs, g_cpus cfg !! c = Some cs ∧ proc_of (cs_ctl cs) = Some i.

Record embryos_ok (s : kernel) (thr : list thread) : Prop := {
  em_slot p th i : thr !! p = Some th → th_embryo th = Some i → is_embryo s i;
  em_one p p' th th' i : thr !! p = Some th → thr !! p' = Some th' →
    th_embryo th = Some i → th_embryo th' = Some i → p = p';
}.

Record sinv (cfg : config) : Prop := {
  si_mlfq : ∃ qs, mlfq_inv none (g_mem cfg) qs;
  si_pid : (0 < k_nextpid (g_mem cfg))%Z;
  si_thr : length (g_thr cfg) = NPROC;
  si_cpu c cs : g_cpus cfg !! c = Some cs → cpu_ok (view cfg cs) ∧ ctl_ok cs;
  si_lock c c' cs cs' l :
    g_cpus cfg !! c = Some cs → g_cpus cfg !! c' = Some cs' →
    l ∈ cs_held cs → l ∈ cs_held cs' → c = c';
  si_one c c' i : runs cfg c i → runs cfg c' i → c = c';
  si_run i : is_running (g_mem cfg) i ↔ ∃ c, runs cfg c i;
  si_embryo : embryos_ok (g_mem cfg) (g_thr cfg);
}.
