(* ===== verification/SystemInv.v ===== *)
(** * SystemInv: every event preserves the system invariant

    One lemma per event, from the lemmas of [MlfqOps] and [MlfqSched]. *)

From stdpp Require Import base numbers gmap strings option list.
From S2P Require Import Prelude Format Machine Mem Mlfq ProcCore Kalloc Vm Proc Trap Scheduler.
From S2P Require Import MlfqInv MlfqOps MlfqSched Reap System.
Local Open Scope kernel_scope.

(** The queue invariant of a state that differs from that of [H] elsewhere. *)
Ltac same_inv H := eapply mlfq_inv_same; [|exact H]; by split.

(** ** Rebuilding the invariant after a step *)

Lemma running_elsewhere cfg c cs i :
  sinv cfg → g_cpus cfg !! c = Some cs →
  (∃ c', c' ≠ c ∧ runs cfg c' i) ↔ is_running (g_mem cfg) i ∧ proc_of (cs_ctl cs) ≠ Some i.
Proof.
  intros Hs Hc. split.
  - intros (c' & Hne & Hr). split; [apply (si_run _ Hs); eauto|].
    intros Hp. apply Hne. apply (si_one _ Hs _ _ i); [done|]. by exists cs.
  - intros [(c' & Hr)%(si_run _ Hs) Hp]. exists c'. split; [|done].
    intros ->. destruct Hr as (cs' & ? & ?). by simplify_eq.
Qed.

Lemma runs_put cfg c cs s t thr c' i :
  g_cpus cfg !! c = Some cs →
  runs (put cfg c s t thr) c' i ↔
    (c' = c ∧ proc_of t = Some i) ∨ (c' ≠ c ∧ runs cfg c' i).
Proof.
  intros Hc. pose proof (lookup_lt_Some _ _ _ Hc) as Hlt.
  unfold runs, put; simpl. destruct (decide (c' = c)) as [->|Hne].
  - rewrite list_lookup_insert_eq by done. naive_solver.
  - rewrite list_lookup_insert_ne by done. naive_solver.
Qed.

Lemma cpus_put cfg c cs s t thr c' cs' :
  g_cpus cfg !! c = Some cs → g_cpus (put cfg c s t thr) !! c' = Some cs' →
  (c' = c ∧ cs' = mk_cpustate (k_cpu s) (k_held s) t) ∨ (c' ≠ c ∧ g_cpus cfg !! c' = Some cs').
Proof.
  intros Hc. simpl. intros [(-> & <- & _)|[? ?]]%list_lookup_insert_Some; auto.
Qed.

(** What a step owes: the queues, its own processor, the locks it holds, the set
    of RUNNING processes, and the embryos. *)
Record step_ok (cfg : config) (c : nat) (cs : cpustate) (s : kernel) (t : ctl)
    (thr : list thread) : Prop := {
  so_mlfq : ∃ qs, mlfq_inv none s qs;
  so_pid : (0 < k_nextpid s)%Z;
  so_thr : length thr = NPROC;
  so_cpu : cpu_ok s;
  so_ctl : ctl_ok (mk_cpustate (k_cpu s) (k_held s) t);
  so_lock l : l ∈ k_held s → l ∉ cs_held cs → lock_free cfg c l;
  so_run i : is_running s i ↔
    proc_of t = Some i ∨ (is_running (g_mem cfg) i ∧ proc_of (cs_ctl cs) ≠ Some i);
  so_one i : proc_of t = Some i →
    ¬ (is_running (g_mem cfg) i ∧ proc_of (cs_ctl cs) ≠ Some i);
  so_embryo : embryos_ok s thr;
}.

Lemma sinv_put cfg c cs s t thr :
  sinv cfg → g_cpus cfg !! c = Some cs → step_ok cfg c cs s t thr →
  sinv (put cfg c s t thr).
Proof.
  intros Hs Hc [H1 H2 H3 H4 H5 H6 H7 H8 H9].
  assert (Hlk : ∀ c' cs' l, c' ≠ c → g_cpus cfg !! c' = Some cs' →
    l ∈ cs_held cs' → l ∈ k_held s → False).
  { intros c' cs' l Hne Hc' Hl Hl'. destruct (decide (l ∈ cs_held cs)) as [Hin|Hni].
    - apply Hne. by eapply (si_lock _ Hs).
    - by eapply (H6 l). }
  split; [done|done|done| | | | |done].
  - intros c' cs' [[-> ->]|[Hne Hc']]%(cpus_put _ _ cs); [| |done].
    + split; [|done]. unfold view. simpl. by eapply cpu_ok_same.
    + destruct (si_cpu _ Hs _ _ Hc') as [Hok ?]. split; [|done].
      by eapply (cpu_ok_same _ _ Hok).
  - intros c1 c2 cs1 cs2 l [[-> ->]|[Hne1 Hc1]]%(cpus_put _ _ cs)
      [[-> ->]|[Hne2 Hc2]]%(cpus_put _ _ cs) Hl1 Hl2; try done; simpl in *.
    + destruct (Hlk c2 cs2 l); done.
    + destruct (Hlk c1 cs1 l); done.
    + by eapply (si_lock _ Hs).
  - intros c1 c2 i. rewrite !(runs_put _ _ cs) by done.
    intros [[-> Hi]|[Hne1 Hr1]] [[-> Hi']|[Hne2 Hr2]]; [done| | |by eapply (si_one _ Hs)].
    + destruct (H8 i Hi). apply (running_elsewhere cfg c cs); eauto.
    + destruct (H8 i Hi'). apply (running_elsewhere cfg c cs); eauto.
  - intros i. simpl. rewrite H7. split.
    + intros [Hi|(c' & Hne & Hr)%(running_elsewhere cfg c cs i)]; [| |done|done].
      * exists c. apply (runs_put _ _ cs); auto.
      * exists c'. apply (runs_put _ _ cs); auto.
    + intros (c' & [[-> Hi]|[Hne Hr]]%(runs_put _ _ cs)); [by left| |done].
      right. apply (running_elsewhere cfg c cs); eauto.
Qed.

(** The RUNNING processes, when the step neither dispatched nor stopped one. *)
Lemma run_same cfg c cs s t :
  sinv cfg → g_cpus cfg !! c = Some cs → proc_of t = proc_of (cs_ctl cs) →
  (∀ i, is_running s i ↔ is_running (g_mem cfg) i) →
  (∀ i, is_running s i ↔
    proc_of t = Some i ∨ (is_running (g_mem cfg) i ∧ proc_of (cs_ctl cs) ≠ Some i)) ∧
  (∀ i, proc_of t = Some i → ¬ (is_running (g_mem cfg) i ∧ proc_of (cs_ctl cs) ≠ Some i)).
Proof.
  intros Hs Hc E Hrun. split.
  - intros i. rewrite Hrun, E.
    destruct (decide (proc_of (cs_ctl cs) = Some i)) as [Ei|Ei]; [|naive_solver].
    split; [by left|]. intros _. apply (si_run _ Hs). exists c. by exists cs.
  - intros i Ei [_ ?]. congruence.
Qed.

(** ** Events that leave the control of the processor where it was *)

(** The only state changes are wake-ups. *)
Record wake_only (s s' : kernel) : Prop := {
  wo_len : length (k_ptable s') = length (k_ptable s);
  wo_st i p : k_ptable s !! i = Some p →
    ∃ p', k_ptable s' !! i = Some p' ∧
      (p_state p' = p_state p ∨ p_state p = SLEEPING ∧ p_state p' = RUNNABLE);
}.

#[export] Instance wake_only_preorder : PreOrder wake_only.
Proof.
  split.
  - intros s. split; [done|]. eauto.
  - intros s1 s2 s3 [L1 H1] [L2 H2]. split; [congruence|]. intros i p Hp.
    destruct (H1 i p Hp) as (p' & Hp' & E1). destruct (H2 i p' Hp') as (p'' & Hp'' & E2).
    exists p''. split; [done|]. destruct E1 as [E1|[E1 E1']], E2 as [E2|[E2 E2']];
      rewrite ?E1, ?E1' in *; auto; right; split; congruence.
Qed.

Lemma wake_only_running s s' i : wake_only s s' → is_running s' i ↔ is_running s i.
Proof.
  intros [Hl Hw]. split.
  - intros (p' & Hp' & Hst).
    destruct (lookup_lt_is_Some_2 (k_ptable s) i) as [p Hp].
    { rewrite <-Hl. by eapply lookup_lt_Some. }
    destruct (Hw i p Hp) as (p'' & Hp'' & E). simplify_eq. exists p. split; [done|].
    destruct E as [E|[_ E]]; congruence.
  - intros (p & Hp & Hst). destruct (Hw i p Hp) as (p' & Hp' & E).
    exists p'. split; [done|]. destruct E as [E|[E _]]; congruence.
Qed.

Lemma wake_only_embryos s s' thr : wake_only s s' → embryos_ok s thr → embryos_ok s' thr.
Proof.
  intros [Hl Hw] [He1 He2]. split; [|done]. intros p th i Hth Hi.
  destruct (He1 p th i Hth Hi) as (r & Hr & Hst).
  destruct (Hw i r Hr) as (r' & Hr' & E). exists r'. split; [done|].
  destruct E as [E|[E _]]; congruence.
Qed.

(** [m] ran without a change of control. *)
Record quiet (s s' : kernel) : Prop := {
  qt_inv : ∃ qs, mlfq_inv none s' qs;
  qt_wake : wake_only s s';
  qt_cpu : cpu_ok s';
  qt_held : k_held s' = k_held s;
  qt_proc : c_proc (k_cpu s') = c_proc (k_cpu s);
  qt_nextpid : k_nextpid s' = k_nextpid s;
}.

Lemma quiet_trans s1 s2 s3 : quiet s1 s2 → quiet s2 s3 → quiet s1 s3.
Proof.
  intros [_ ? _ ? ? ?] [? ? ? ? ? ?]. split; [done|by etrans|done|congruence..].
Qed.

Lemma si_view_inv cfg cs : sinv cfg → ∃ qs, mlfq_inv none (view cfg cs) qs.
Proof.
  intros Hs. destruct (si_mlfq _ Hs) as [qs Hq]. exists qs. same_inv Hq.
Qed.

Lemma quiet_sinv cfg c cs s :
  sinv cfg → g_cpus cfg !! c = Some cs → quiet (view cfg cs) s →
  sinv (put cfg c s (cs_ctl cs) (g_thr cfg)).
Proof.
  intros Hs Hc [H1 H2 H3 H4 H5 H6]. eapply sinv_put; [done..|].
  destruct (si_cpu _ Hs _ _ Hc) as [_ [Hp Hctl]].
  destruct (run_same cfg c cs s (cs_ctl cs)) as [R1 R2];
    [done..|by intros i; apply (wake_only_running (view cfg cs))|].
  split; [done| |by apply si_thr|done| | |done|done|].
  - rewrite H6. by apply si_pid.
  - split; simpl; [by rewrite H5|]. by rewrite H4.
  - intros l Hl Hn. by rewrite H4 in Hl.
  - eapply (wake_only_embryos (g_mem cfg)); [|by apply (si_embryo _ Hs)].
    destruct H2. by split.
Qed.

(** ** Critical sections *)

(** The state after the section that [acquire l] opened in [s0] ends in [s1]. *)
Definition unlock (s0 s1 : kernel) : kernel :=
  set_k_held (k_held s0) (set_k_cpu (cpu_pop (cpu_push (k_cpu s0))) s1).

Lemma unlock_ok l s0 s1 :
  cpu_ok s0 → l ∉ k_held s0 → k_cpu s1 = cpu_push (k_cpu s0) → k_held s1 = l :: k_held s0 →
  release l s1 = Ok tt (unlock s0 s1) ∧ cpu_ok (unlock s0 s1).
Proof.
  intros Hok Hl Hc Hh.
  assert (Hok1 : cpu_ok s1).
  { eapply (cpu_ok_same (locked l s0)); [by apply cpu_ok_locked|done..]. }
  split.
  - erewrite release_top by done. unfold unlock. by rewrite Hc.
  - apply (cpu_ok_same (touched s0)); [by apply cpu_ok_touched|done..].
Qed.

(** With a lock held, a nested section leaves the processor as it was. *)
Lemma nested_cpu s : cpu_ok s → k_held s ≠ [] → cpu_pop (cpu_push (k_cpu s)) = k_cpu s.
Proof. intros Hok Hh. pose proof (touched_held s Hok Hh) as E. by rewrite <-E at 2. Qed.

Lemma ps_only_cpu s s' :
  ps_only s s' → k_cpu s' = k_cpu s ∧ k_held s' = k_held s ∧ k_nextpid s' = k_nextpid s.
Proof. by intros ->. Qed.

Section events.
Context `{Env}.
Hypothesis mlfq : SCHEDULER = MLFQ.

(** A critical section of ptable.lock that only wakes processes up. *)
Lemma crit_quiet s0 s1 :
  cpu_ok s0 → LK_ptable ∉ k_held s0 →
  (∃ qs, mlfq_inv none s1 qs) → wake_only s0 s1 → ps_only (locked LK_ptable s0) s1 →
  release LK_ptable s1 = Ok tt (unlock s0 s1) ∧ quiet s0 (unlock s0 s1).
Proof.
  intros Hok Hl [qs Hinv] Hw (Hc & Hh & Hn)%ps_only_cpu.
  destruct (unlock_ok LK_ptable s0 s1) as [Hrel Hok']; [done..|].
  split; [done|]. split; [exists qs; same_inv Hinv|destruct Hw; by split|done..].
Qed.

Lemma wakeup1_wake_only s qs ch :
  mlfq_inv none s qs →
  ∃ s' qs', wakeup1 ch s = Ok tt s' ∧ mlfq_inv none s' qs' ∧ ps_only s s' ∧ wake_only s s' ∧
    ∀ i p, k_ptable s !! i = Some p → ∃ t, k_ptable s' !! i = Some (woken ch t p).
Proof.
  intros Hi. destruct (wakeup1_mlfq s qs ch mlfq Hi) as (s' & qs' & E & Hi' & Hf & Ht).
  exists s', qs'. split_and!; try done. split.
  - by rewrite (mi_len _ _ _ Hi), (mi_len _ _ _ Hi').
  - intros i p Hp. destruct (Ht i p Hp) as [t Hp']. eexists. split; [done|].
    unfold woken. case_decide as Hd; simpl; [right|by left]. naive_solver.
Qed.

Lemma wakeup_quiet s qs ch :
  mlfq_inv none s qs → cpu_ok s → LK_ptable ∉ k_held s →
  ∃ s1, wakeup ch s = Ok tt (unlock s s1) ∧ quiet s (unlock s s1) ∧
    ps_only (locked LK_ptable s) s1 ∧
    ∀ i p, k_ptable s !! i = Some p → ∃ t, k_ptable s1 !! i = Some (woken (Some ch) t p).
Proof.
  intros Hi Hok Hl. unfold wakeup. erewrite bind_Ok by by apply acquire_eq.
  assert (Hi0 : mlfq_inv none (locked LK_ptable s) qs) by same_inv Hi.
  destruct (wakeup1_wake_only _ _ (Some ch) Hi0) as (s1 & qs1 & E & Hi1 & Hf & Hw & Ht).
  erewrite bind_Ok by exact E.
  destruct (crit_quiet s s1) as [Hrel Hq]; [done|done|eauto| |done|eauto 10].
  destruct Hw as [? ?]. by split.
Qed.

(** ** kill *)

Definition killed_proc (t : Z) (p : proc) : proc :=
  let p1 := set_p_killed true p in
  if decide (p_state p = SLEEPING) then set_p_qtime t (set_p_state RUNNABLE p1) else p1.

Lemma proc_wf_killed n p : proc_wf n p → proc_wf n (set_p_killed true p).
Proof. intros [? ? ? ? ?]. by split. Qed.

Lemma kill_slot_match s qs h i p :
  mlfq_inv none s qs → k_ptable s !! i = Some p → cpu_ok s → k_held s = LK_ptable :: h →
  ∃ s1 qs1 t, kill_slot (p_pid p) i s = (release LK_ptable ;; ret (Some 0%Z)) s1 ∧
    mlfq_inv none s1 qs1 ∧ ps_only s s1 ∧
    k_ptable s1 = <[i := killed_proc t p]> (k_ptable s).
Proof.
  intros Hi Hp Hok Hh. pose proof (lookup_lt_Some _ _ _ Hp) as Hlt.
  unfold kill_slot. erewrite bind_Ok by by apply proc_at_eq. rewrite Z.eqb_refl.
  erewrite bind_Ok by by apply upd_proc_eq.
  set (s0 := set_k_ptable _ s).
  assert (Hp0 : k_ptable s0 !! i = Some (set_p_killed true p)) by by apply list_lookup_insert_eq.
  assert (Hi0 : mlfq_inv none s0 qs).
  { eapply mlfq_inv_fields; [done..|]. apply proc_wf_killed. by eapply (mi_wf _ _ _ Hi). }
  unfold killed_proc. destruct (decide (p_state p = SLEEPING)) as [Hst|Hst].
  - rewrite bool_decide_eq_true_2 by done.
    destruct (ready_inv s0 qs i _ Hi0 Hp0 Hst) as (qu' & qi' & t & Heq & Hinv).
    simpl in Heq, Hinv. rewrite !list_insert_insert_eq in Heq, Hinv.
    eexists _, _, t. split_and!; [|exact Hinv|done|done].
    unfold when at 1. erewrite bind_Ok; [done|].
    erewrite bind_Ok by by apply upd_proc_eq. unfold is_sched.
    rewrite bool_decide_eq_true_2 by done. simpl.
    rewrite list_insert_insert_eq, Heq. by rewrite list_insert_insert_eq.
  - rewrite bool_decide_eq_false_2 by done. exists s0, qs, 0%Z.
    split_and!; [done|done|apply ps_only_ptable|done].
Qed.

Lemma kill_slot_miss s pid j q :
  k_ptable s !! j = Some q → p_pid q ≠ pid → kill_slot pid j s = Ok None s.
Proof.
  intros Hq Hne. unfold kill_slot. erewrite bind_Ok by by apply proc_at_eq.
  destruct (Z.eqb_spec (p_pid q) pid); [done|]. done.
Qed.

Lemma killed_wake_only s s1 i p t :
  k_ptable s !! i = Some p → k_ptable s1 = <[i := killed_proc t p]> (k_ptable s) → wake_only s s1.
Proof.
  intros Hp Hpt. split; [by rewrite Hpt, length_insert|]. intros j q Hq.
  rewrite Hpt. destruct (decide (j = i)) as [->|Hne].
  - rewrite list_lookup_insert_eq by by eapply lookup_lt_Some. eexists. split; [done|].
    assert (q = p) as -> by congruence. unfold killed_proc. case_decide; simpl; auto.
  - rewrite list_lookup_insert_ne by done. eauto.
Qed.

(** [kill] marks the first slot with that pid, and wakes it if it sleeps. *)
Lemma kill_quiet s qs pid :
  mlfq_inv none s qs → cpu_ok s → LK_ptable ∉ k_held s →
  ∃ r s' t, kill pid s = Ok r s' ∧ quiet s s' ∧
    match list_find (λ p, p_pid p = pid) (k_ptable s) with
    | Some (i, p) => r = 0%Z ∧ k_ptable s' = <[i := killed_proc t p]> (k_ptable s)
    | None => r = (-1)%Z ∧ k_ptable s' = k_ptable s
    end.
Proof.
  intros Hi Hok Hl. unfold kill. erewrite bind_Ok by by apply acquire_eq.
  set (s0 := locked LK_ptable s).
  assert (Hi0 : mlfq_inv none s0 qs) by same_inv Hi.
  assert (Hok0 : cpu_ok s0) by by apply cpu_ok_locked.
  assert (Hlen : length (k_ptable s0) = NPROC) by apply (mi_len _ _ _ Hi0).
  destruct (list_find _ (k_ptable s)) as [[i p]|] eqn:Ef.
  - pose proof Ef as (Hp & Hpid & _)%list_find_Some. subst pid.
    destruct (kill_slot_match s0 qs (k_held s) i p Hi0 Hp Hok0 eq_refl)
      as (s1 & qs1 & t & Hk & Hi1 & Hps & Hpt).
    destruct (crit_quiet s s1) as [Hrel Hq]; [done|done|eauto|by eapply killed_wake_only|done|].
    exists 0%Z, (unlock s s1), t. split_and!; [|done|done|done].
    rewrite (bind_Ok _ _ _ (Some 0%Z) (unlock s s1)); [done|].
    eapply (slots_find_Some (λ q, p_pid q = p_pid p)); [done|exact Ef| |].
    + intros j q. apply kill_slot_miss.
    + rewrite Hk. by erewrite bind_Ok by exact Hrel.
  - destruct (crit_quiet s s0) as [Hrel Hq]; [done|done|eauto|by split; eauto|reflexivity|].
    exists (-1)%Z, (unlock s s0), 0%Z. split_and!; [|done|done|done].
    rewrite (bind_Ok _ _ _ None s0); [by erewrite bind_Ok by exact Hrel|].
    eapply (slots_find_None (λ q, p_pid q = pid)); [done|exact Ef|].
    intros j q. apply kill_slot_miss.
Qed.

(** ** set_priority *)

Lemma set_priority_slot_miss s np pid j q :
  k_ptable s !! j = Some q → p_pid q ≠ pid → set_priority_slot np pid j s = Ok None s.
Proof.
  intros Hq Hne. unfold set_priority_slot. erewrite bind_Ok by by apply proc_at_eq.
  destruct (Z.eqb_spec (p_pid q) pid); [done|]. done.
Qed.

Lemma set_priority_quiet s qs np pid :
  mlfq_inv none s qs → cpu_ok s → LK_ptable ∉ k_held s →
  ∃ s', set_priority np pid s = Ok 0%Z s' ∧ quiet s s' ∧
    k_ptable s' = match list_find (λ p, p_pid p = pid) (k_ptable s) with
                  | Some (i, p) => <[i := set_p_priority np p]> (k_ptable s)
                  | None => k_ptable s
                  end.
Proof.
  intros Hi Hok Hl. unfold set_priority. erewrite bind_Ok by by apply acquire_eq.
  set (s0 := locked LK_ptable s).
  assert (Hi0 : mlfq_inv none s0 qs) by same_inv Hi.
  assert (Hlen : length (k_ptable s0) = NPROC) by apply (mi_len _ _ _ Hi0).
  assert (Hend : ∀ r s1, (∃ qs, mlfq_inv none s1 qs) → wake_only s s1 → ps_only s0 s1 →
    (release LK_ptable ;;
     when (is_sched PBS && match r with Some b => b | None => false end) yield ;;
     ret 0%Z) s1 = Ok 0%Z (unlock s s1) ∧ quiet s (unlock s s1)).
  { intros r s1 Hinv Hw Hps. destruct (crit_quiet s s1) as [Hrel Hq]; [done..|].
    split; [|done]. erewrite bind_Ok by exact Hrel. unfold is_sched. by rewrite mlfq. }
  destruct (list_find _ (k_ptable s)) as [[i p]|] eqn:Ef.
  - pose proof Ef as (Hp & Hpid & _)%list_find_Some.
    set (s1 := set_k_ptable (<[i := set_p_priority np p]> (k_ptable s0)) s0).
    destruct (Hend (Some (np <? p_priority p)%Z) s1) as [Hrel Hq].
    + exists qs. eapply mlfq_inv_fields; [done|exact Hp|done..|].
      destruct (mi_wf _ _ _ Hi0 _ _ Hp). by split.
    + split; [simpl; by rewrite length_insert|]. intros j q Hq. simpl.
      destruct (decide (j = i)) as [->|Hne].
      * rewrite list_lookup_insert_eq by by eapply lookup_lt_Some. eexists. split; [done|].
        left. simpl. congruence.
      * rewrite list_lookup_insert_ne by done. eauto.
    + apply ps_only_ptable.
    + exists (unlock s s1). split_and!; [|done|done].
      rewrite (bind_Ok _ _ _ (Some (np <? p_priority p)%Z) s1); [exact Hrel|].
      eapply (slots_find_Some (λ q, p_pid q = pid)); [done|exact Ef| |].
      * intros j q. apply set_priority_slot_miss.
      * unfold set_priority_slot. erewrite bind_Ok by (apply proc_at_eq; exact Hp).
        rewrite (proj2 (Z.eqb_eq _ _) Hpid).
        by erewrite bind_Ok by (apply upd_proc_eq; exact Hp).
  - destruct (Hend None s0) as [Hrel Hq]; [eauto|by split; eauto|reflexivity|].
    exists (unlock s s0). split_and!; [|done|done].
    rewrite (bind_Ok _ _ _ None s0); [exact Hrel|].
    eapply (slots_find_None (λ q, p_pid q = pid)); [done|exact Ef|].
    intros j q. apply set_priority_slot_miss.
Qed.

(** ** The timer interrupt *)

(** A loop over the table that rewrites every slot on its own. *)
Lemma for_each_table (f : proc → proc) (body : nat → K unit) s :
  length (k_ptable s) = NPROC →
  (∀ i s p, k_ptable s !! i = Some p →
     body i s = Ok tt (set_k_ptable (<[i := f p]> (k_ptable s)) s)) →
  for_each slots body s = Ok tt (set_k_ptable (f <$> k_ptable s) s).
Proof.
  intros Hl Hb.
  pose proof (for_each_states slots body (λ k, set_k_ptable
    (take k (f <$> k_ptable s) ++ drop k (k_ptable s)) s)) as Hst.
  unfold slots in Hst at 3. rewrite length_seq in Hst. cbv beta in Hst.
  rewrite take_0, drop_0 in Hst. simpl app in Hst.
  rewrite (drop_ge (k_ptable s)), app_nil_r in Hst by lia.
  rewrite take_ge in Hst by (rewrite length_fmap; lia).
  replace (set_k_ptable (k_ptable s) s) with s in Hst by by destruct s.
  apply Hst. clear Hst. intros i x [-> Hi]%lookup_seq. simpl.
  destruct (lookup_lt_is_Some_2 (k_ptable s) i) as [p Hp]; [lia|].
  assert (Htl : length (take i (f <$> k_ptable s)) = i).
  { rewrite length_take, length_fmap. lia. }
  rewrite (Hb i _ p).
  2:{ simpl. rewrite lookup_app_r by lia. rewrite Htl, Nat.sub_diag, lookup_drop.
      by rewrite Nat.add_0_r. }
  simpl. rewrite insert_app_r_alt by lia. rewrite Htl, Nat.sub_diag.
  rewrite (drop_S _ p) by done. simpl.
  rewrite (take_S_r _ _ (f p)) by (rewrite list_lookup_fmap, Hp; done).
  by rewrite <-app_assoc.
Qed.

Definition accounted (p : proc) : proc :=
  match p_state p with
  | RUNNING => set_p_rtime (i32 (p_rtime p + 1)) p
  | SLEEPING => set_p_iotime (i32 (p_iotime p + 1)) p
  | _ => p
  end.

Lemma account_slot_eq i s p :
  k_ptable s !! i = Some p →
  account_slot i s = Ok tt (set_k_ptable (<[i := accounted p]> (k_ptable s)) s).
Proof.
  intros Hp. unfold account_slot. erewrite bind_Ok by by apply proc_at_eq.
  unfold accounted. destruct (p_state p); try (by apply upd_proc_eq);
    rewrite list_insert_id by done; unfold ret; f_equal; by destruct s.
Qed.

Lemma mlfq_inv_fmap X s qs (f : proc → proc) :
  (∀ p, p_state (f p) = p_state p ∧ p_pid (f p) = p_pid p ∧ p_cur_q (f p) = p_cur_q p) →
  (∀ n p, proc_wf n p → proc_wf n (f p)) →
  mlfq_inv X s qs → mlfq_inv X (set_k_ptable (f <$> k_ptable s) s) qs.
Proof.
  intros Hf Hwf [H1 H2 H3 H4 H5 H6 H7]. split; simpl.
  - by eapply qrep_same, H1.
  - by rewrite length_fmap.
  - intros i p' (p & -> & Hp)%list_lookup_fmap_Some. eauto.
  - intros i j p1 p2 (p & -> & Hp)%list_lookup_fmap_Some (q & -> & Hq)%list_lookup_fmap_Some.
    destruct (Hf p) as (_ & -> & _), (Hf q) as (_ & -> & _). eauto.
  - intros k q i Hq Hi. destruct (H5 k q i Hq Hi) as (p & Hp & Hst & Hcq).
    exists (f p). rewrite list_lookup_fmap, Hp. destruct (Hf p) as (E1 & _ & E2).
    split_and!; [done|congruence..].
  - intros i p' (p & -> & Hp)%list_lookup_fmap_Some. destruct (Hf p) as (-> & _ & ->). eauto.
  - done.
Qed.

Lemma accounted_same p :
  p_state (accounted p) = p_state p ∧ p_pid (accounted p) = p_pid p ∧
  p_cur_q (accounted p) = p_cur_q p.
Proof. unfold accounted. destruct (p_state p) eqn:E; simpl; by rewrite ?E. Qed.

Lemma accounted_wf n p : proc_wf n p → proc_wf n (accounted p).
Proof.
  intros Hwf. unfold accounted. destruct (p_state p) eqn:E; try done;
    (eapply proc_wf_same; [exact Hwf|done..]).
Qed.

Lemma timer_tick_quiet s qs :
  mlfq_inv none s qs → cpu_ok s → k_held s = [] →
  ∃ s', timer_tick s = Ok tt s' ∧ quiet s s' ∧ k_ticks s' = u32 (k_ticks s + 1) ∧
    ∀ i p, k_ptable s !! i = Some p →
      ∃ t, k_ptable s' !! i = Some (woken (Some CH_ticks) t (accounted p)).
Proof.
  intros Hi Hok Hh. assert (Hlt : LK_ticks ∉ k_held s) by (rewrite Hh; set_solver).
  unfold timer_tick. erewrite bind_Ok by by apply acquire_eq. erewrite bind_Ok by done.
  set (s1 := set_k_ticks _ _).
  assert (Hok1 : cpu_ok s1) by (eapply cpu_ok_same; [by apply (cpu_ok_locked LK_ticks)|done..]).
  assert (Hh1 : k_held s1 = [LK_ticks]) by (simpl; by rewrite Hh).
  assert (Hi1 : mlfq_inv none s1 qs) by same_inv Hi.
  assert (Hpt : LK_ptable ∉ k_held s1) by (rewrite Hh1; set_solver).
  erewrite bind_Ok by by apply acquire_eq.
  erewrite bind_Ok.
  2:{ apply (for_each_table accounted account_slot); [apply (mi_len _ _ _ Hi1)|].
      intros i s' p. apply account_slot_eq. }
  set (s2 := set_k_ptable _ _).
  destruct (crit_quiet s1 s2) as [Hrel Hq2]; [done|done| | |apply ps_only_ptable|].
  { exists qs. apply (mlfq_inv_fmap none (locked LK_ptable s1)).
    - apply accounted_same.
    - apply accounted_wf.
    - same_inv Hi1. }
  { split; [simpl; by rewrite length_fmap|]. intros i p Hp. exists (accounted p).
    split; [simpl in *; by rewrite list_lookup_fmap, Hp|]. left. apply accounted_same. }
  erewrite bind_Ok by exact Hrel. pose proof Hq2 as [[qs2 Hi2] _ Hok2 Hh2 _ _].
  destruct (wakeup_quiet (unlock s1 s2) qs2 CH_ticks) as (s3 & Hwk & Hq3 & Hps3 & Ht3);
    [done|done|by rewrite Hh2|].
  erewrite bind_Ok by exact Hwk. pose proof (quiet_trans _ _ _ Hq2 Hq3) as Hq.
  set (s4 := unlock _ s3) in *.
  assert (Hc4 : k_cpu s4 = cpu_push (k_cpu s)).
  { transitivity (cpu_pop (cpu_push (k_cpu (unlock s1 s2)))); [done|].
    rewrite nested_cpu by (done || by rewrite Hh2, Hh1). apply (nested_cpu s1 Hok1). by rewrite Hh1. }
  destruct (unlock_ok LK_ticks s s4) as [Hrel4 Hok4]; [done|done|done| |].
  { by rewrite (qt_held _ _ Hq). }
  exists (unlock s s4). split_and!; [done| | |].
  - destruct Hq as [[qs4 Hi4] [Hw1 Hw2] ? ? ? ?].
    split; [exists qs4; same_inv Hi4|by split|done..].
  - simpl. by rewrite (ps_only_ticks _ _ Hps3).
  - intros i p Hp. apply Ht3. simpl. by rewrite list_lookup_fmap, Hp.
Qed.

(** ** Events that only move locks *)

Lemma same_sched_running s s' i : same_sched s s' → is_running s' i ↔ is_running s i.
Proof. intros [E _ _ _]. unfold is_running. by rewrite E. Qed.

Lemma same_sched_embryos s s' thr : same_sched s s' → embryos_ok s thr → embryos_ok s' thr.
Proof.
  intros [E _ _ _] [H1 H2]. split; [|done]. unfold is_embryo. by rewrite E.
Qed.

Lemma lock_sinv cfg c cs s t :
  sinv cfg → g_cpus cfg !! c = Some cs → same_sched (view cfg cs) s → cpu_ok s →
  ctl_ok (mk_cpustate (k_cpu s) (k_held s) t) → proc_of t = proc_of (cs_ctl cs) →
  (∀ l, l ∈ k_held s → l ∉ cs_held cs → lock_free cfg c l) →
  sinv (put cfg c s t (g_thr cfg)).
Proof.
  intros Hs Hc Hss Hok Hctl Hpo Hl. eapply sinv_put; [done..|].
  destruct (si_view_inv cfg cs Hs) as [qs Hq].
  destruct (run_same cfg c cs s t) as [R1 R2]; [done..| |].
  { intros i. apply (same_sched_running (view cfg cs) _ i Hss). }
  split; [|by rewrite (ss_nextpid _ _ Hss); apply (si_pid _ Hs)|by apply si_thr|done|done|done|done|done|].
  - exists qs. by eapply mlfq_inv_same.
  - eapply (same_sched_embryos (g_mem cfg)); [|by apply si_embryo]. destruct Hss. by split.
Qed.

Lemma EAcquire_ok cfg c cs lk :
  sinv cfg → g_cpus cfg !! c = Some cs → enabled cfg c cs (EAcquire lk) →
  ∃ s, acquire lk (view cfg cs) = Ok tt s ∧ sinv (put cfg c s (cs_ctl cs) (g_thr cfg)).
Proof.
  intros Hs Hc ((p & Ep) & Hne & Hl & Hfree). destruct (si_cpu _ Hs _ _ Hc) as [Hok [Hp Hctl]].
  eexists. split; [by apply acquire_eq|].
  apply (lock_sinv _ _ cs); [done..|by apply cpu_ok_locked| |done|].
  - split; simpl; [done|]. rewrite Ep in *. set_solver.
  - simpl. intros l [->|?]%elem_of_cons ?; done.
Qed.

Lemma ERelease_ok cfg c cs lk :
  sinv cfg → g_cpus cfg !! c = Some cs → enabled cfg c cs (ERelease lk) →
  ∃ s, release lk (view cfg cs) = Ok tt s ∧ sinv (put cfg c s (cs_ctl cs) (g_thr cfg)).
Proof.
  intros Hs Hc ((p & Ep) & Hl). destruct (si_cpu _ Hs _ _ Hc) as [Hok [Hp Hctl]].
  eexists. split; [by apply release_eq|].
  apply (lock_sinv _ _ cs); [done..|by apply cpu_ok_unlocked| |done|].
  - split; simpl; [done|]. rewrite Ep in *. intros [_ ?]%list_elem_of_filter. done.
  - simpl. intros l [_ ?]%list_elem_of_filter ?. done.
Qed.

Lemma EWait_ok cfg c cs p :
  sinv cfg → g_cpus cfg !! c = Some cs → cs_ctl cs = InProc p → cs_held cs = [] →
  lock_free cfg c LK_ptable →
  ∃ s, acquire LK_ptable (view cfg cs) = Ok tt s ∧ sinv (put cfg c s (InWait p) (g_thr cfg)).
Proof.
  intros Hs Hc Ep Hh Hfree. destruct (si_cpu _ Hs _ _ Hc) as [Hok [Hp Hctl]].
  assert (Hl : LK_ptable ∉ k_held (view cfg cs)) by (simpl; rewrite Hh; set_solver).
  eexists. split; [by apply acquire_eq|].
  apply (lock_sinv _ _ cs); [done..|by apply cpu_ok_locked| |by rewrite Ep|].
  - split; simpl; [by rewrite Hp, Ep|by rewrite Hh].
  - simpl. rewrite Hh. intros l ->%list_elem_of_singleton ?. done.
Qed.

(** ** Giving the processor up *)

Lemma sched_enter_eq s p r :
  cpu_ok s → k_held s = [LK_ptable] → c_proc (k_cpu s) = Some p →
  k_ptable s !! p = Some r → p_state r ≠ RUNNING →
  sched_enter s = Ok (c_intena (k_cpu s)) s.
Proof.
  intros Hok Hh Hp Hr Hst. assert (Hne : k_held s ≠ []) by by rewrite Hh.
  pose proof Hok as [Hn Hi _]. specialize (Hi Hne).
  unfold sched_enter. erewrite bind_Ok by by apply myproc_held. rewrite Hp.
  erewrite bind_Ok by done.
  erewrite bind_Ok by (rewrite holding_eq by lia; by rewrite touched_held).
  rewrite bool_decide_eq_true_2 by (rewrite Hh; set_solver). cbn [negb].
  erewrite bind_Ok by by apply mycpu_eq. rewrite Hn, Hh. simpl.
  erewrite bind_Ok by by apply proc_at_eq. rewrite bool_decide_eq_false_2 by done.
  erewrite bind_Ok by done. rewrite Hi. by erewrite bind_Ok by by apply mycpu_eq.
Qed.

(** The slots other than [p] are as they were, or have been woken up. *)
Record others (p : nat) (s s' : kernel) : Prop := {
  ot_len : length (k_ptable s') = length (k_ptable s);
  ot_nextpid : k_nextpid s' = k_nextpid s;
  ot_st i r : i ≠ p → k_ptable s !! i = Some r →
    ∃ r', k_ptable s' !! i = Some r' ∧
      (p_state r' = p_state r ∨ p_state r = SLEEPING ∧ p_state r' = RUNNABLE);
}.

#[local] Instance others_preorder p : PreOrder (others p).
Proof.
  split.
  - intros s. split; [done..|]. eauto.
  - intros s1 s2 s3 [L1 N1 H1] [L2 N2 H2]. split; [congruence..|]. intros i r Hne Hr.
    destruct (H1 i r Hne Hr) as (r' & Hr' & E1). destruct (H2 i r' Hne Hr') as (r'' & Hr'' & E2).
    exists r''. split; [done|]. destruct E1 as [E1|[E1 E1']], E2 as [E2|[E2 E2']];
      rewrite ?E1, ?E1' in *; auto; right; split; congruence.
Qed.

Lemma wake_only_others p s s' : wake_only s s' → k_nextpid s' = k_nextpid s → others p s s'.
Proof. intros [? ?] ?. split; auto. Qed.

Lemma insert_others p s s' r :
  k_ptable s' = <[p := r]> (k_ptable s) → k_nextpid s' = k_nextpid s → others p s s'.
Proof.
  intros E ?. split; [by rewrite E, length_insert|done|]. intros i q Hne Hq.
  exists q. split; [|by left]. by rewrite E, list_lookup_insert_ne by done.
Qed.

(** What [p], just before its [sched], and the scheduler after it owe. *)
Record leaving (p : nat) (s s' : kernel) : Prop := {
  lv_inv : ∃ qs, mlfq_inv none s' qs;
  lv_cpu : cpu_ok s';
  lv_held : k_held s' = [];
  lv_proc : c_proc (k_cpu s') = None;
  lv_self r : k_ptable s' !! p = Some r → p_state r ≠ RUNNING;
  lv_others : others p s s';
}.

Lemma back_leaving {A} (f : bool → A) s qs p r :
  cpu_ok s → k_held s = [LK_ptable] → c_proc (k_cpu s) = Some p →
  mlfq_inv (λ j, none j ∨ j = p) s qs → unqueued qs p →
  k_ptable s !! p = Some r → p_state r ≠ RUNNING →
  ∃ s' t, (let! ie := sched_enter in back_code p ;; ret (f ie)) s =
      Ok (f (c_intena (k_cpu s))) s' ∧
    leaving p s s' ∧
    k_ptable s' = <[p := if decide (p_state r = RUNNABLE)
                         then set_p_qtime t (demoted r) else r]> (k_ptable s).
Proof.
  intros Hok Hh Hc Hi Hun Hr Hst.
  destruct (mlfq_requeue_inv s qs p r Hi Hun Hr) as (s1 & t & Heq & Hps & Hpt & Hinv).
  pose proof (ps_only_cpu _ _ Hps) as (Hcpu & Hheld & Hnp). simpl in Hcpu, Hheld, Hnp.
  assert (Hok1 : cpu_ok s1).
  { destruct Hok as [? ? ?]. split; rewrite ?Hcpu, ?Hheld; simpl; done. }
  set (s2 := set_k_held [] (set_k_cpu (cpu_pop (k_cpu s1)) s1)).
  assert (Hrel : release LK_ptable s1 = Ok tt s2) by (apply release_top; [done|congruence]).
  exists s2, t. split_and!; [|split|done].
  - erewrite bind_Ok by by eapply sched_enter_eq. unfold back_code.
    erewrite bind_Ok; [done|]. by erewrite bind_Ok by exact Heq.
  - eexists. same_inv Hinv.
  - split; simpl; [|done|constructor]. pose proof (ok_ncli _ Hok1) as E.
    rewrite E, Hheld, Hh. done.
  - done.
  - simpl. by rewrite Hcpu.
  - intros r'. simpl. rewrite Hpt. intros [(_ & <- & _)|[? ?]]%list_lookup_insert_Some; [|done].
    case_decide; simpl; [|done]. rewrite demoted_state. done.
  - by eapply insert_others.
Qed.

Lemma set_resume_embryo p q r thr :
  th_embryo <$> set_resume p r thr !! q = th_embryo <$> thr !! q.
Proof.
  unfold set_resume. destruct (decide (q = p)) as [->|Hne].
  - rewrite list_lookup_alter_eq. by destruct (thr !! p).
  - by rewrite list_lookup_alter_ne.
Qed.

Lemma embryos_ok_threads s thr thr' :
  (∀ q, th_embryo <$> thr' !! q = th_embryo <$> thr !! q) → embryos_ok s thr → embryos_ok s thr'.
Proof.
  intros E [H1 H2]. assert (Hq : ∀ q th, thr' !! q = Some th →
    ∃ th0, thr !! q = Some th0 ∧ th_embryo th0 = th_embryo th).
  { intros q th Hq. specialize (E q). rewrite Hq in E.
    destruct (thr !! q) as [th0|]; simplify_eq/=. eauto. }
  split.
  - intros p th i Hp Hi. destruct (Hq _ _ Hp) as (th0 & ? & E0).
    eapply (H1 p th0); [done|congruence].
  - intros p p' th th' i Hp Hp' Hi Hi'. destruct (Hq _ _ Hp) as (th0 & ? & E0).
    destruct (Hq _ _ Hp') as (th0' & ? & E0'). apply (H2 p p' th0 th0' i); congruence.
Qed.

Lemma leaving_sinv cfg c cs p s s' thr :
  sinv cfg → g_cpus cfg !! c = Some cs → proc_of (cs_ctl cs) = Some p →
  leaving p s s' → others p (view cfg cs) s → length thr = NPROC →
  (∀ q, th_embryo <$> thr !! q = th_embryo <$> g_thr cfg !! q) →
  sinv (put cfg c s' AtSched thr).
Proof.
  intros Hs Hc Hp [H1 H2 H3 H4 H8 H5] H6 Hthr Heq. pose proof (transitivity H6 H5) as Hot.
  clear H5 H6. destruct Hot as [H6 H5 H7].
  assert (Hrun : is_running (g_mem cfg) p) by (apply (si_run _ Hs); by exists c, cs).
  simpl in H5, H6, H7. eapply sinv_put; [done..|]. split; try done.
  - rewrite H5. apply si_pid, Hs.
  - rewrite H3. set_solver.
  - intros i. rewrite Hp. simpl. split.
    + intros (r' & Hr' & Hst). right. destruct (decide (i = p)) as [->|Hne]; [by apply H8 in Hr'|].
      split; [|congruence]. destruct (lookup_lt_is_Some_2 (k_ptable (g_mem cfg)) i) as [r Hr].
      { rewrite <-H6. by eapply lookup_lt_Some. }
      destruct (H7 i r Hne Hr) as (r'' & Hr'' & E). exists r. split; [done|].
      destruct E as [E|[_ E]]; congruence.
    + intros [?|[(r & Hr & Hst) Hne]]; [done|].
      destruct (H7 i r) as (r' & Hr' & E); [congruence|done|]. exists r'. split; [done|].
      destruct E as [E|[E _]]; congruence.
  - apply (embryos_ok_threads _ (g_thr cfg)); [done|].
    destruct (si_embryo _ Hs) as [E1 E2]. split; [|done]. intros q th i Hq Hi.
    destruct (E1 q th i Hq Hi) as (r & Hr & Hst). destruct (decide (i = p)) as [->|Hne].
    { destruct Hrun as (r0 & ? & ?). congruence. }
    destruct (H7 i r Hne Hr) as (r' & Hr' & E). exists r'. split; [done|].
    destruct E as [E|[E _]]; congruence.
Qed.

(** The process of a processor is RUNNING, hence in no queue. *)
Lemma current_running cfg c cs p :
  sinv cfg → g_cpus cfg !! c = Some cs → proc_of (cs_ctl cs) = Some p →
  ∃ r, k_ptable (g_mem cfg) !! p = Some r ∧ p_state r = RUNNING.
Proof. intros Hs Hc Hp. apply (si_run _ Hs). by exists c, cs. Qed.

(** A RUNNING process becomes RUNNABLE, SLEEPING or ZOMBIE. *)
Lemma stop_wf n r r' st :
  proc_wf n r → p_state r = RUNNING → st ≠ UNUSED →
  p_state r' = st → p_pid r' = p_pid r → p_cur_q r' = p_cur_q r →
  length (p_q r') = length (p_q r) → p_kstack r' = p_kstack r → p_pgdir r' = p_pgdir r →
  proc_wf n r'.
Proof.
  intros Hwf Hst Hu E1 E2 E3 E4 E5 E6. eapply (proc_wf_same _ (set_p_state st r)); [|done..].
  apply proc_wf_state; [done|by rewrite Hst|]. left. rewrite Hst. set_solver.
Qed.

Lemma stop_inv s qs p r r' st :
  mlfq_inv none s qs → k_ptable s !! p = Some r → p_state r = RUNNING → st ≠ UNUSED →
  p_state r' = st → p_pid r' = p_pid r → p_cur_q r' = p_cur_q r →
  length (p_q r') = length (p_q r) → p_kstack r' = p_kstack r → p_pgdir r' = p_pgdir r →
  mlfq_inv (λ j, none j ∨ j = p) (set_k_ptable (<[p := r']> (k_ptable s)) s) qs ∧ unqueued qs p.
Proof.
  intros Hi Hr Hst Hu E1 E2 E3 E4 E5 E6.
  assert (Hun : unqueued qs p) by (eapply (unqueued_state _ s); [done..|by rewrite Hst]).
  split; [|done]. eapply mlfq_inv_keep_pid; [done..| |done].
  eapply (stop_wf _ r); [by eapply (mi_wf _ _ _ Hi)|done..].
Qed.

(** A process that stops in state [st], holding only ptable.lock. *)
Lemma stop_leaving {A} (f : bool → A) s qs p r r' st :
  cpu_ok s → k_held s = [LK_ptable] → c_proc (k_cpu s) = Some p →
  mlfq_inv none s qs → k_ptable s !! p = Some r → p_state r = RUNNING →
  st ≠ UNUSED → st ≠ RUNNING →
  p_state r' = st → p_pid r' = p_pid r → p_cur_q r' = p_cur_q r →
  length (p_q r') = length (p_q r) → p_kstack r' = p_kstack r → p_pgdir r' = p_pgdir r →
  ∃ s' t, (let! ie := sched_enter in back_code p ;; ret (f ie))
      (set_k_ptable (<[p := r']> (k_ptable s)) s) = Ok (f (c_intena (k_cpu s))) s' ∧
    leaving p s s' ∧
    k_ptable s' = <[p := if decide (st = RUNNABLE)
                         then set_p_qtime t (demoted r') else r']> (k_ptable s).
Proof.
  intros Hok Hh Hc Hi Hr Hst Hu Hnr E1 E2 E3 E4 E5 E6.
  destruct (stop_inv s qs p r r' st) as [Hi1 Hun]; [done..|].
  destruct (back_leaving f (set_k_ptable (<[p := r']> (k_ptable s)) s) qs p r')
    as (s' & t & Heq & [? ? ? ? ? Hot] & Hpt); try done.
  - by eapply cpu_ok_same.
  - simpl. apply list_lookup_insert_eq. by eapply lookup_lt_Some.
  - by rewrite E1.
  - exists s', t. rewrite E1 in Hpt. simpl in Hpt. rewrite list_insert_insert_eq in Hpt.
    split_and!; [done| |done]. split; [done..|]. etrans; [|exact Hot]. by eapply insert_others.
Qed.

Lemma EYield_ok cfg c cs p :
  sinv cfg → g_cpus cfg !! c = Some cs → cs_ctl cs = InProc p → cs_held cs = [] →
  ∃ s ie, event_code EYield (InProc p) p (g_thr cfg) (view cfg cs) =
      Ok (AtSched, set_resume p (RYield ie) (g_thr cfg)) s ∧
    sinv (put cfg c s AtSched (set_resume p (RYield ie) (g_thr cfg))).
Proof.
  intros Hs Hc Ep Hh. destruct (si_cpu _ Hs _ _ Hc) as [Hok [Hp _]]. rewrite Ep in Hp.
  destruct (current_running cfg c cs p) as (r & Hr & Hst); [done|done|by rewrite Ep|].
  destruct (si_view_inv cfg cs Hs) as [qs Hq].
  assert (Hl : LK_ptable ∉ k_held (view cfg cs)) by (simpl; rewrite Hh; set_solver).
  set (s1 := locked LK_ptable (view cfg cs)).
  assert (Hh1 : k_held s1 = [LK_ptable]) by (simpl; by rewrite Hh).
  assert (Hok1 : cpu_ok s1) by by apply cpu_ok_locked.
  assert (Hp1 : c_proc (k_cpu s1) = Some p) by exact Hp.
  destruct (stop_leaving (λ ie, (AtSched, set_resume p (RYield ie) (g_thr cfg))) s1 qs p r
    (set_p_state RUNNABLE r) RUNNABLE) as (s' & t & Heq & Hlv & _); try done.
  { same_inv Hq. }
  exists s', (c_intena (k_cpu s1)). split.
  - simpl. erewrite bind_Ok; [exact Heq|]. unfold yield_enter.
    erewrite bind_Ok by by apply acquire_eq.
    rewrite (bind_Ok myproc _ s1 (Some p) s1).
    2:{ rewrite myproc_held; [by rewrite Hp1|done|by rewrite Hh1]. }
    erewrite bind_Ok by done.
    by erewrite upd_proc_eq by exact Hr.
  - eapply (leaving_sinv _ _ cs p s1); [done..|by rewrite Ep|done| | |].
    + by split; eauto.
    + unfold set_resume. rewrite length_alter. apply si_thr, Hs.
    + intros q. apply set_resume_embryo.
Qed.

Definition slept (ch : chan) (r : proc) : proc := set_p_state SLEEPING (set_p_chan (Some ch) r).

(** [sleep] trades [lk] for ptable.lock. *)
Lemma sleep_enter_eq s p r ch lk :
  cpu_ok s → k_held s = [lk] → c_proc (k_cpu s) = Some p → k_ptable s !! p = Some r →
  ∃ s1, sleep_enter ch (Some lk) s =
      Ok (p, lk) (set_k_ptable (<[p := slept ch r]> (k_ptable s1)) s1) ∧
    cpu_ok s1 ∧ k_held s1 = [LK_ptable] ∧ c_proc (k_cpu s1) = Some p ∧ same_sched s s1.
Proof.
  intros Hok Hh Hp Hr. unfold sleep_enter.
  rewrite (bind_Ok myproc _ s (Some p) s).
  2:{ rewrite myproc_held; [by rewrite Hp|done|by rewrite Hh]. }
  assert (Hend : ∀ s1, k_ptable s1 = k_ptable s →
    (upd_proc p (set_p_chan (Some ch)) ;; upd_proc p (set_p_state SLEEPING) ;; ret (p, lk)) s1 =
      Ok (p, lk) (set_k_ptable (<[p := slept ch r]> (k_ptable s1)) s1)).
  { intros s1 E. erewrite bind_Ok by (apply upd_proc_eq; by rewrite E).
    erewrite bind_Ok.
    2:{ apply upd_proc_eq. simpl. apply list_lookup_insert_eq. rewrite E.
        by eapply lookup_lt_Some. }
    simpl. by rewrite list_insert_insert_eq. }
  case_bool_decide as Hlk.
  - assert (Hl : LK_ptable ∉ k_held s) by (rewrite Hh; set_solver).
    assert (Hok1 : cpu_ok (locked LK_ptable s)) by by apply cpu_ok_locked.
    assert (Hin : lk ∈ k_held (locked LK_ptable s)) by (simpl; rewrite Hh; set_solver).
    exists (unlocked lk (locked LK_ptable s)). split_and!.
    + rewrite (bind_Ok _ _ s tt (unlocked lk (locked LK_ptable s))); [by apply Hend|].
      simpl. erewrite bind_Ok by by apply acquire_eq. by apply release_eq.
    + by apply cpu_ok_unlocked.
    + simpl. rewrite filter_cons_True by done. rewrite Hh.
      by rewrite filter_cons_False by naive_solver.
    + exact Hp.
    + by split.
  - subst lk. exists s. split_and!; [|done..|by split].
    erewrite bind_Ok by done. by apply Hend.
Qed.

Lemma sleep_leaving cfg c cs p ch lk :
  sinv cfg → g_cpus cfg !! c = Some cs → proc_of (cs_ctl cs) = Some p → cs_held cs = [lk] →
  ∃ s ie, (sleep_enter ch (Some lk) ;;
           let! ie := sched_enter in
           back_code p ;;
           ret (AtSched, set_resume p (RSleep lk ie) (g_thr cfg))) (view cfg cs) =
      Ok (AtSched, set_resume p (RSleep lk ie) (g_thr cfg)) s ∧
    sinv (put cfg c s AtSched (set_resume p (RSleep lk ie) (g_thr cfg))).
Proof.
  intros Hs Hc Ep Hh. destruct (si_cpu _ Hs _ _ Hc) as [Hok [Hp _]]. rewrite Ep in Hp.
  destruct (current_running cfg c cs p) as (r & Hr & Hst); [done..|].
  destruct (si_view_inv cfg cs Hs) as [qs Hq].
  destruct (sleep_enter_eq (view cfg cs) p r ch lk) as (s1 & E & Hok1 & Hh1 & Hp1 & Hss); [done..|].
  destruct (stop_leaving (λ ie, (AtSched, set_resume p (RSleep lk ie) (g_thr cfg))) s1 qs p r
    (slept ch r) SLEEPING) as (s' & t & Heq & Hlv & _); try done.
  { by eapply mlfq_inv_same. }
  { by rewrite (ss_ptable _ _ Hss). }
  exists s', (c_intena (k_cpu s1)). split.
  - erewrite bind_Ok by exact E. exact Heq.
  - eapply (leaving_sinv _ _ cs p s1); [done..| | |].
    + destruct Hss as [E1 _ _ E2]. split; rewrite ?E1; eauto.
    + unfold set_resume. rewrite length_alter. apply si_thr, Hs.
    + intros q. apply set_resume_embryo.
Qed.

(** ** exit *)

(** [m] returns, keeps the queues right and only wakes processes up. *)
Definition wakes {A} (m : K A) (s : kernel) : Prop :=
  ∃ a s' qs', m s = Ok a s' ∧ mlfq_inv none s' qs' ∧ ps_only s s' ∧ wake_only s s'.

Lemma wakes_bind {A B} (m : K A) (f : A → K B) s :
  wakes m s → (∀ a s' qs', mlfq_inv none s' qs' → ps_only s s' → wake_only s s' → wakes (f a) s') →
  wakes (bind m f) s.
Proof.
  intros (a & s1 & qs1 & E1 & Hi1 & Hp1 & Hw1) Hf.
  destruct (Hf a s1 qs1 Hi1 Hp1 Hw1) as (b & s2 & qs2 & E2 & Hi2 & Hp2 & Hw2).
  exists b, s2, qs2. erewrite bind_Ok by exact E1. split_and!; [done..|by etrans|by etrans].
Qed.

Lemma wakes_ret {A} (a : A) s qs : mlfq_inv none s qs → wakes (ret a) s.
Proof. intros Hi. by exists a, s, qs. Qed.

Lemma wakes_wakeup1 ch s qs : mlfq_inv none s qs → wakes (wakeup1 ch) s.
Proof.
  intros Hi. destruct (wakeup1_wake_only s qs ch Hi) as (s' & qs' & E & Hi' & Hp & Hw & _).
  by exists tt, s', qs'.
Qed.

Lemma exit_child_wakes cur i s qs :
  mlfq_inv none s qs → i < NPROC → wakes (exit_child cur i) s.
Proof.
  intros Hi Hlt. destruct (lookup_lt_is_Some_2 (k_ptable s) i) as [p Hp].
  { by rewrite (mi_len _ _ _ Hi). }
  unfold exit_child, wakes. erewrite bind_Ok by by apply proc_at_eq. fold (wakes (A:=unit)).
  case_bool_decide; simpl; [|by eapply wakes_ret].
  erewrite bind_Ok by done. erewrite bind_Ok by by apply upd_proc_eq.
  set (p' := set_p_parent _ p). set (s1 := set_k_ptable _ s).
  assert (Hi1 : mlfq_inv none s1 qs).
  { eapply mlfq_inv_fields; [done..|]. eapply proc_wf_same; [by eapply (mi_wf _ _ _ Hi)|done..]. }
  assert (Hw1 : wake_only s s1).
  { split; [simpl; by rewrite length_insert|]. intros j q Hq. simpl.
    destruct (decide (j = i)) as [->|Hne].
    - rewrite list_lookup_insert_eq by by eapply lookup_lt_Some. exists p'. split; [done|].
      left. by simplify_eq.
    - rewrite list_lookup_insert_ne by done. eauto. }
  erewrite bind_Ok.
  2:{ apply proc_at_eq. simpl. apply list_lookup_insert_eq. by eapply lookup_lt_Some. }
  assert (Hgo : wakes (when (bool_decide (p_state p' = ZOMBIE)) (wakeup1 (CH_proc <$> k_initproc s))) s1).
  { case_bool_decide; simpl; [by eapply wakes_wakeup1|by eapply wakes_ret]. }
  destruct Hgo as (a & s2 & qs2 & E & Hi2 & Hp2 & Hw2).
  exists a, s2, qs2. split_and!; [done..| |by etrans].
  etrans; [|exact Hp2]. apply ps_only_ptable.
Qed.

Lemma exit_children_wakes cur l s qs :
  mlfq_inv none s qs → (∀ i, i ∈ l → i < NPROC) → wakes (for_each l (exit_child cur)) s.
Proof.
  revert s qs. induction l as [|i l IH]; intros s qs Hi Hl; [by eapply wakes_ret|].
  simpl. apply wakes_bind; [eapply exit_child_wakes; [done|set_solver]|].
  intros _ s' qs' Hi' _ _. eapply IH; [done|set_solver].
Qed.

Definition exited (t : Z) (r : proc) : proc := set_p_etime t (set_p_state ZOMBIE r).

(** From the two wake-ups and the pass over the children to the end of the section. *)
Lemma exit_enter_run s p r s2 s3 r3 :
  cpu_ok s → k_held s = [] → k_ptable s !! p = Some r →
  wakeup1 (CH_proc <$> p_parent r) (locked LK_ptable s) = Ok tt s2 →
  for_each slots (exit_child p) s2 = Ok tt s3 → ps_only (locked LK_ptable s) s3 →
  k_ptable s3 !! p = Some r3 →
  cpu_ok s3 ∧ k_held s3 = [LK_ptable] ∧
  ∃ out, exit_enter p s = Ok tt
    (set_k_ptable (<[p := exited (i32 (k_ticks s)) r3]> (k_ptable s3)) (set_k_out out s3)).
Proof using Type.
  clear mlfq.
  intros Hok Hh Hr E2 E3 Hps Hr3. assert (Hl : LK_ptable ∉ k_held s) by (rewrite Hh; set_solver).
  destruct (ps_only_cpu _ _ Hps) as (Ec & Eh & En). pose proof (lookup_lt_Some _ _ _ Hr3) as Hlt.
  assert (Hok3 : cpu_ok s3).
  { eapply (cpu_ok_same (locked LK_ptable s)); [by apply cpu_ok_locked|done..]. }
  assert (Hh3 : k_held s3 = [LK_ptable]) by (rewrite Eh; simpl; by rewrite Hh).
  split_and!; [done|done|]. unfold exit_enter. erewrite bind_Ok by by apply acquire_eq.
  erewrite bind_Ok by (apply proc_at_eq; exact Hr).
  erewrite bind_Ok by exact E2. erewrite bind_Ok by exact E3.
  erewrite bind_Ok by by apply upd_proc_eq. erewrite bind_Ok by done.
  erewrite bind_Ok by (apply upd_proc_eq; simpl; by apply list_lookup_insert_eq).
  erewrite bind_Ok.
  2:{ apply proc_at_eq. simpl. rewrite list_lookup_insert_eq; [done|]. by rewrite length_insert. }
  match goal with
  | |- context [cprintf ?fmt ?args ?s4] => destruct (cprintf_held_ex fmt args s4) as [out Hout]
  end.
  { by eapply (cpu_ok_same s3). }
  { simpl. rewrite Hh3. by intros ?%list_elem_of_singleton. }
  { simpl. by rewrite Hh3. }
  rewrite Hout. clear Hout. exists out. f_equal. simpl.
  rewrite list_insert_insert_eq, (ps_only_ticks _ _ Hps). reflexivity.
Qed.

Lemma exit_enter_eq s qs p r :
  cpu_ok s → k_held s = [] → mlfq_inv none s qs → k_ptable s !! p = Some r →
  p_state r = RUNNING →
  ∃ s3 qs3 r3, exit_enter p s =
      Ok tt (set_k_ptable (<[p := exited (i32 (k_ticks s)) r3]> (k_ptable s3)) s3) ∧
    cpu_ok s3 ∧ k_held s3 = [LK_ptable] ∧ c_proc (k_cpu s3) = c_proc (k_cpu s) ∧
    mlfq_inv none s3 qs3 ∧ k_ptable s3 !! p = Some r3 ∧ p_state r3 = RUNNING ∧
    others p s s3.
Proof.
  intros Hok Hh Hi Hr Hst. set (s1 := locked LK_ptable s).
  assert (Hi1 : mlfq_inv none s1 qs) by same_inv Hi.
  destruct (wakes_wakeup1 (CH_proc <$> p_parent r) s1 qs Hi1)
    as ([] & s2 & qs2 & E2 & Hi2 & Hp2 & Hw2).
  destruct (exit_children_wakes p slots s2 qs2 Hi2) as ([] & s3 & qs3 & E3 & Hi3 & Hp3 & Hw3).
  { intros i ?%elem_of_seq. lia. }
  pose proof (transitivity Hp2 Hp3) as Hps. pose proof (transitivity Hw2 Hw3) as Hw.
  destruct (wo_st _ _ Hw p r Hr) as (r3 & Hr3 & Est).
  assert (Hst3 : p_state r3 = RUNNING) by (destruct Est as [?|[? _]]; congruence).
  destruct (exit_enter_run s p r s2 s3 r3) as (Hok3 & Hh3 & out & E); [done..|].
  destruct (ps_only_cpu _ _ Hps) as (Ec & Eh & En).
  exists (set_k_out out s3), qs3, r3. split_and!; try done.
  - by eapply (cpu_ok_same s3).
  - simpl. by rewrite Ec.
  - same_inv Hi3.
  - apply wake_only_others; [|done]. destruct Hw. by split.
Qed.

Lemma EExit_ok cfg c cs p :
  sinv cfg → g_cpus cfg !! c = Some cs → cs_ctl cs = InProc p → cs_held cs = [] →
  ∃ s, event_code EExit (InProc p) p (g_thr cfg) (view cfg cs) = Ok (AtSched, g_thr cfg) s ∧
    sinv (put cfg c s AtSched (g_thr cfg)).
Proof.
  intros Hs Hc Ep Hh. destruct (si_cpu _ Hs _ _ Hc) as [Hok [Hp _]]. rewrite Ep in Hp.
  destruct (current_running cfg c cs p) as (r & Hr & Hst); [done|done|by rewrite Ep|].
  destruct (si_view_inv cfg cs Hs) as [qs Hq].
  destruct (exit_enter_eq (view cfg cs) qs p r)
    as (s3 & qs3 & r3 & E & Hok3 & Hh3 & Hp3 & Hi3 & Hr3 & Hst3 & Hot); [done..|].
  destruct (stop_leaving (λ _, (AtSched, g_thr cfg)) s3 qs3 p r3
    (exited (i32 (k_ticks (view cfg cs))) r3) ZOMBIE) as (s' & t & Heq & Hlv & _); try done.
  { by rewrite Hp3. }
  exists s'. split.
  - simpl. erewrite bind_Ok by exact E. exact Heq.
  - eapply (leaving_sinv _ _ cs p s3); [done..|by rewrite Ep|done|done|apply si_thr, Hs|done].
Qed.

(** ** The scheduler *)

Definition bare (s : kernel) : kernel := set_k_held [] (set_k_cpu (cpu_pop (k_cpu s)) s).

Lemma release_ptable s :
  cpu_ok s → k_held s = [LK_ptable] →
  release LK_ptable s = Ok tt (bare s) ∧ cpu_ok (bare s).
Proof.
  intros Hok Hh. split; [by apply release_top|]. split; simpl; [|done|constructor].
  by rewrite (ok_ncli _ Hok), Hh.
Qed.

(** What a process owes when it is back: it is in the kernel, holding no lock, or
    inside [wait], holding ptable.lock. *)
Record resumed (p : nat) (r : proc) (s : kernel) (t : ctl) (s' : kernel) : Prop := {
  rs_proc : proc_of t = Some p;
  rs_ctl : ctl_ok (mk_cpustate (k_cpu s') (k_held s') t);
  rs_cpu : cpu_ok s';
  rs_held l : l ∈ k_held s' → l = LK_ptable;
  rs_nextpid : k_nextpid s' = k_nextpid s;
  rs_table : ∃ r', k_ptable s' = <[p := r']> (k_ptable s) ∧ p_state r' = p_state r;
}.

Lemma bare_resumed p r s :
  cpu_ok (bare s) → c_proc (k_cpu s) = Some p → k_ptable s !! p = Some r →
  resumed p r s (InProc p) (bare s).
Proof.
  intros Hok Hp Hr. split; try done.
  - split; simpl; [done|set_solver].
  - simpl. set_solver.
  - exists r. simpl. by rewrite list_insert_id.
Qed.

Lemma resume_ok s qs p r th :
  cpu_ok s → k_held s = [LK_ptable] → c_proc (k_cpu s) = Some p →
  mlfq_inv none s qs → k_ptable s !! p = Some r →
  ∃ t s', resume_code p th s = Ok t s' ∧ resumed p r s t s' ∧ mlfq_inv none s' qs.
Proof.
  intros Hok Hh Hp Hi Hr. pose proof (ok_intr _ Hok ltac:(by rewrite Hh)) as Hintr.
  assert (Hex : ∀ ie, sched_exit ie s = Ok tt (set_k_cpu (set_c_intena ie (k_cpu s)) s)).
  { intros ie. unfold sched_exit. by erewrite bind_Ok by by apply mycpu_eq. }
  assert (Hok1 : ∀ ie, cpu_ok (set_k_cpu (set_c_intena ie (k_cpu s)) s)) by by destruct Hok.
  destruct th as [|ie|lk ie]; simpl; rewrite ?(bind_Ok _ _ _ _ _ (Hex ie)).
  - destruct (release_ptable s Hok Hh) as [E Hok']. erewrite bind_Ok by exact E.
    exists (InProc p), (bare s). split_and!; [done|by apply bare_resumed|same_inv Hi].
  - set (s1 := set_k_cpu _ s).
    destruct (release_ptable s1 (Hok1 ie) Hh) as [E Hok']. erewrite bind_Ok by exact E.
    exists (InProc p), (bare s1). split_and!; [done| |same_inv Hi].
    destruct (bare_resumed p r s1 Hok' Hp Hr). by split.
  - set (s1 := set_k_cpu _ s). unfold sleep_wake.
    set (s2 := set_k_ptable (<[p := set_p_chan None r]> (k_ptable s1)) s1).
    assert (Hi2 : mlfq_inv none s2 qs).
    { assert (Hi1 : mlfq_inv none s1 qs) by same_inv Hi.
      eapply mlfq_inv_fields; [exact Hi1|exact Hr|done..|].
      eapply proc_wf_same; [by eapply (mi_wf _ _ _ Hi1)|done..]. }
    assert (Hok2 : cpu_ok s2) by (eapply cpu_ok_same; [exact (Hok1 ie)|done..]).
    destruct (decide (lk = LK_ptable)) as [->|Hlk].
    + exists (InWait p), s2. split_and!; [|split|done]; try done.
      * erewrite bind_Ok; [done|]. by erewrite bind_Ok by (apply upd_proc_eq; exact Hr).
      * simpl. rewrite Hh. set_solver.
      * by eexists.
    + rewrite (bool_decide_eq_true_2 (lk ≠ _)), (bool_decide_eq_false_2 (lk = _)) by done.
      destruct (release_ptable s2 Hok2 Hh) as [E Hok'].
      exists (InProc p), (bare s2). split_and!; [|split|same_inv Hi2]; try done.
      * erewrite bind_Ok; [done|]. erewrite bind_Ok by (apply upd_proc_eq; exact Hr). exact E.
      * split; simpl; [done|set_solver].
      * simpl. set_solver.
      * by eexists.
Qed.

(** The states of the processes, which aging leaves alone. *)
Lemma aging_wake_only s s' :
  aging_only s s' → length (k_ptable s') = length (k_ptable s) → wake_only s s'.
Proof.
  intros [_ Ha] Hl. split; [done|]. intros i p Hp. destruct (Ha i p Hp) as (c & t & Hp').
  eexists. split; [exact Hp'|by left].
Qed.

(** The scheduler's processor with interrupts on and ptable.lock taken. *)
Lemma sched_locked s :
  cpu_ok s → k_held s = [] →
  let s0 := locked LK_ptable (set_k_cpu (set_c_intr true (k_cpu s)) s) in
  (∀ A (k : K A), (sti ;; acquire LK_ptable ;; k) s = k s0) ∧ cpu_ok s0 ∧ k_held s0 = [LK_ptable].
Proof.
  intros Hok Hh s0.
  assert (Hok1 : cpu_ok (set_k_cpu (set_c_intr true (k_cpu s)) s)).
  { destruct Hok as [? ? ?]. split; simpl; [done| |done]. by rewrite Hh. }
  assert (Hl : LK_ptable ∉ k_held s) by (rewrite Hh; set_solver).
  split_and!.
  - intros A k. erewrite bind_Ok by done. by erewrite bind_Ok by by apply acquire_eq.
  - by apply cpu_ok_locked.
  - simpl. by rewrite Hh.
Qed.

(** A pass that dispatches slot [p], which was RUNNABLE. *)
Lemma dispatched_sinv cfg c cs s2 s' t p r k :
  sinv cfg → g_cpus cfg !! c = Some cs → cs_ctl cs = AtSched → lock_free cfg c LK_ptable →
  wake_only (g_mem cfg) s2 → k_nextpid s2 = k_nextpid (g_mem cfg) →
  k_ptable s2 !! p = Some r → p_state r = RUNNABLE →
  ∀ s3, k_ptable s3 = <[p := taken k r]> (k_ptable s2) → k_nextpid s3 = k_nextpid s2 →
  resumed p (taken k r) s3 t s' → (∃ qs, mlfq_inv none s' qs) →
  sinv (put cfg c s' t (g_thr cfg)).
Proof.
  intros Hs Hc Ec Hfree Hw En2 Hr Hst s3 Ept En3 [Hpt Hctl Hok Hh En (r' & Ept' & Hst')] Hinv.
  rewrite Ept, list_insert_insert_eq in Ept'. simpl in Hst'.
  assert (Hnr : ¬ is_running (g_mem cfg) p).
  { rewrite <-(wake_only_running _ _ p Hw). intros (r0 & ? & ?). congruence. }
  pose proof (lookup_lt_Some _ _ _ Hr) as Hlt.
  eapply sinv_put; [done..|]. split; try done.
  - rewrite En, En3, En2. apply si_pid, Hs.
  - apply si_thr, Hs.
  - intros l ->%Hh _. done.
  - intros i. rewrite Ec. simpl. rewrite Hpt. unfold is_running at 1. rewrite Ept'.
    destruct (decide (i = p)) as [->|Hne].
    + rewrite list_lookup_insert_eq by done. naive_solver.
    + rewrite list_lookup_insert_ne by done. rewrite <-(wake_only_running _ _ i Hw).
      unfold is_running. split; [intros Hx; right; by split|]. intros [?|[? _]]; [congruence|done].
  - intros i Hi [Hrun _]. rewrite Hpt in Hi. by simplify_eq.
  - pose proof (wake_only_embryos _ _ _ Hw (si_embryo _ Hs)) as [E1 E2]. split; [|done].
    intros q th i Hq Hi. destruct (E1 q th i Hq Hi) as (r0 & Hr0 & Hst0). exists r0.
    split; [|done]. rewrite Ept', list_lookup_insert_ne; [done|]. intros ->. congruence.
Qed.

Lemma ESched_ok cfg c cs :
  sinv cfg → g_cpus cfg !! c = Some cs → cs_ctl cs = AtSched → lock_free cfg c LK_ptable →
  ∃ t s, sched_code (g_thr cfg) (view cfg cs) = Ok (t, g_thr cfg) s ∧
    sinv (put cfg c s t (g_thr cfg)).
Proof.
  intros Hs Hc Ec Hfree. destruct (si_cpu _ Hs _ _ Hc) as [Hok [Hp Hh]]. rewrite Ec in Hp, Hh.
  destruct (si_view_inv cfg cs Hs) as [qs Hq].
  destruct (sched_locked (view cfg cs) Hok Hh) as (Hrun & Hok1 & Hh1).
  unfold sched_code. rewrite Hrun. clear Hrun. set (s1 := locked _ _) in *.
  assert (Hi1 : mlfq_inv none s1 qs) by same_inv Hq.
  destruct (mlfq_age_inv s1 qs Hi1) as (s2 & qs2 & E2 & Ha & Hi2).
  erewrite bind_Ok by exact E2. pose proof (proj1 Ha) as Hps.
  destruct (ps_only_cpu _ _ Hps) as (Ecpu & Eh & En).
  assert (Hw : wake_only (g_mem cfg) s2).
  { destruct (aging_wake_only s1 s2 Ha) as [? ?]; [|by split].
    by rewrite (mi_len _ _ _ Hi1), (mi_len _ _ _ Hi2). }
  assert (Hok2 : cpu_ok s2) by by eapply (cpu_ok_same s1).
  assert (Hh2 : k_held s2 = [LK_ptable]) by by rewrite Eh.
  pose proof (mlfq_pick_inv s2 qs2 Hi2 Hok2 ltac:(by rewrite Hh2)) as Hpick.
  destruct (first_queue 0 qs2) as [[[k i] q]|].
  - destruct Hpick as (r & s3 & Hr & E3 & Hst & _ & Hps3 & Hpt3 & Hi3).
    erewrite bind_Ok by exact E3. destruct (ps_only_cpu _ _ Hps3) as (Ec3 & Eh3 & En3).
    simpl in Ec3, Eh3, En3. pose proof (lookup_lt_Some _ _ _ Hr) as Hlt.
    destruct (lookup_lt_is_Some_2 (g_thr cfg) i) as [th Hth].
    { rewrite (si_thr _ Hs), <-(mi_len _ _ _ Hi2). done. }
    rewrite (bind_Ok (deref _) _ s3 th s3) by by rewrite Hth.
    destruct (resume_ok s3 (<[k:=q]> qs2) i (taken k r) (th_resume th))
      as (t & s' & E4 & Hrs & Hi4); [|congruence|by rewrite Ec3|done| |].
    { destruct Hok2. split; rewrite ?Ec3, ?Eh3; done. }
    { rewrite Hpt3. by apply list_lookup_insert_eq. }
    exists t, s'. split; [by erewrite bind_Ok by exact E4|].
    eapply (dispatched_sinv cfg c cs s2 s' t i r k); eauto.
  - erewrite bind_Ok by exact Hpick. destruct (release_ptable s2 Hok2 Hh2) as [E Hokb].
    exists AtSched, (bare s2). split; [by erewrite bind_Ok by exact E|].
    rewrite <-Ec. eapply quiet_sinv; [done..|]. split; try done.
    + exists qs2. same_inv Hi2.
    + destruct Hw. by split.
    + simpl. by rewrite Ecpu.
Qed.

(** ** fork *)

Lemma proc_wf_nextpid n n' p : (n ≤ n')%Z → proc_wf n p → proc_wf n' p.
Proof. intros Hn [? ? ? ? ?]. split; auto with lia. Qed.

Lemma mlfq_inv_nextpid X s qs n :
  mlfq_inv X s qs → (k_nextpid s ≤ n)%Z → mlfq_inv X (set_k_nextpid n s) qs.
Proof.
  intros [H1 H2 H3 H4 H5 H6 H7] Hn. split; simpl; try done.
  - by apply (qrep_same s).
  - intros i p Hp. eapply proc_wf_nextpid; [exact Hn|by eapply H3].
Qed.

(** The pid of a new slot has never been given out. *)
Definition embryo (pid : Z) (p : proc) : proc := set_p_pid pid (set_p_state EMBRYO p).

Lemma alloc_inv s qs i p :
  mlfq_inv none s qs → k_ptable s !! i = Some p → p_state p = UNUSED → (0 < k_nextpid s)%Z →
  mlfq_inv none (set_k_nextpid (k_nextpid s + 1)
    (set_k_ptable (<[i := embryo (k_nextpid s) p]> (k_ptable s)) s)) qs.
Proof.
  intros Hi Hp Hst Hn. pose proof (lookup_lt_Some _ _ _ Hp) as Hlt.
  pose proof (mi_wf _ _ _ Hi _ _ Hp) as [W1 W2 W3 W4 W5].
  assert (Hi' : mlfq_inv none (set_k_nextpid (k_nextpid s + 1) s) qs)
    by (apply mlfq_inv_nextpid; [done|lia]).
  apply (mlfq_inv_drop none _ _ i (embryo (k_nextpid s) p)); [|by apply list_lookup_insert_eq|done].
  apply (mlfq_inv_replace _ (set_k_nextpid (k_nextpid s + 1) s) qs i p); [done|done| | |].
  - eapply (unqueued_state _ s); [done..|by rewrite Hst].
  - split; simpl; [done|done|lia|done|]. intros. set_solver.
  - intros j r Hr Hne Hpos. simpl. pose proof (wf_pid _ _ (mi_wf _ _ _ Hi _ _ Hr)). lia.
Qed.

(** Nothing but the process table, the queues, [nextpid] and the processor changes. *)
Definition sched_only (s s' : kernel) : Prop :=
  s' = set_k_ptable (k_ptable s') (set_k_qindex (k_qindex s') (set_k_qu (k_qu s')
         (set_k_nextpid (k_nextpid s') (set_k_cpu (k_cpu s') s)))).

(** The slot it takes, in whatever build. *)
Definition alloc_slot (i : nat) (p : proc) (s : kernel) : kernel :=
  set_k_nextpid (k_nextpid s + 1) (set_k_ptable (<[i := embryo (k_nextpid s) p]> (k_ptable s)) s).

Lemma allocproc_enter_run s :
  length (k_ptable s) = NPROC → cpu_ok s → LK_ptable ∉ k_held s → (0 < k_nextpid s < 2 ^ 31 - 1)%Z →
  match list_find (λ p, p_state p = UNUSED) (k_ptable s) with
  | None => allocproc_enter s = Ok None (touched s)
  | Some (i, p) => allocproc_enter s = Ok (Some i) (unlock s (alloc_slot i p (locked LK_ptable s)))
  end.
Proof using Type.
  intros Hlen Hok Hl Hn. unfold allocproc_enter. set (body := λ i : nat, _).
  set (s0 := locked LK_ptable s).
  assert (Hlen0 : length (k_ptable s0) = NPROC) by exact Hlen.
  assert (Hno : ∀ j q, k_ptable s0 !! j = Some q → p_state q ≠ UNUSED → body j s0 = Ok None s0).
  { intros j q Hq Hst. unfold body. erewrite bind_Ok by by apply proc_at_eq.
    by rewrite bool_decide_eq_false_2. }
  destruct (list_find _ _) as [[i p]|] eqn:Ef.
  - pose proof Ef as (Hp & Hst & _)%list_find_Some. pose proof (lookup_lt_Some _ _ _ Hp) as Hlt.
    destruct (unlock_ok LK_ptable s (alloc_slot i p s0)) as [Hrel _]; [done..|].
    erewrite bind_Ok by by apply acquire_eq.
    rewrite (bind_Ok (for_find _ _) _ s0 (Some i) s0).
    2:{ eapply (slots_find_Some (λ p, p_state p = UNUSED)); [done|exact Ef|exact Hno|].
        unfold body. erewrite bind_Ok by (apply proc_at_eq; exact Hp).
        by rewrite bool_decide_eq_true_2. }
    erewrite bind_Ok by (apply upd_proc_eq; exact Hp). erewrite bind_Ok by done.
    erewrite bind_Ok by (apply upd_proc_eq; simpl; by apply list_lookup_insert_eq).
    erewrite bind_Ok by done. simpl. rewrite list_insert_insert_eq, (i32_small (k_nextpid s + 1)) by lia.
    by erewrite bind_Ok by exact Hrel.
  - destruct (unlock_ok LK_ptable s s0) as [Hrel _]; [done..|].
    replace (touched s) with (unlock s s0) by (by destruct s).
    erewrite bind_Ok by by apply acquire_eq.
    rewrite (bind_Ok (for_find _ _) _ s0 None s0).
    2:{ by eapply (slots_find_None (λ p, p_state p = UNUSED)). }
    by erewrite bind_Ok by exact Hrel.
Qed.

Lemma allocproc_enter_eq s qs :
  mlfq_inv none s qs → cpu_ok s → LK_ptable ∉ k_held s → (0 < k_nextpid s < 2 ^ 31 - 1)%Z →
  match list_find (λ p, p_state p = UNUSED) (k_ptable s) with
  | None => allocproc_enter s = Ok None (touched s) ∧ quiet s (touched s)
  | Some (i, p) => ∃ s', allocproc_enter s = Ok (Some i) s' ∧ cpu_ok s' ∧
      k_held s' = k_held s ∧ c_proc (k_cpu s') = c_proc (k_cpu s) ∧
      k_ptable s' = <[i := embryo (k_nextpid s) p]> (k_ptable s) ∧
      k_nextpid s' = (k_nextpid s + 1)%Z ∧ mlfq_inv none s' qs ∧ sched_only s s'
  end.
Proof.
  intros Hi Hok Hl Hn. pose proof (allocproc_enter_run s (mi_len _ _ _ Hi) Hok Hl Hn) as E.
  set (s0 := locked LK_ptable s) in *. assert (Hi0 : mlfq_inv none s0 qs) by same_inv Hi.
  destruct (list_find _ _) as [[i p]|] eqn:Ef.
  - pose proof Ef as (Hp & Hst & _)%list_find_Some.
    destruct (unlock_ok LK_ptable s (alloc_slot i p s0)) as [_ Hok1]; [done..|].
    eexists. split_and!; [exact E|exact Hok1|done..| |done].
    assert (Hi1 : mlfq_inv none (alloc_slot i p s0) qs) by (apply (alloc_inv s0); [done..|simpl; lia]).
    same_inv Hi1.
  - split; [exact E|]. destruct (crit_quiet s s0) as [_ Hq]; [done|done|eauto|by split; eauto|reflexivity|].
    by replace (unlock s s0) with (touched s) in Hq by by destruct s.
Qed.

(** The threads' claims on embryos after [p]'s has become [e]. *)
Lemma set_embryo_inv p e thr q th :
  set_embryo p e thr !! q = Some th →
  (q = p ∧ th_embryo th = e) ∨ (q ≠ p ∧ thr !! q = Some th).
Proof.
  unfold set_embryo. destruct (decide (q = p)) as [->|Hne].
  - rewrite list_lookup_alter_eq. destruct (thr !! p); [|done]. simpl. intros [= <-]. auto.
  - rewrite list_lookup_alter_ne by done. auto.
Qed.

Lemma embryos_ok_set s s' thr p e :
  embryos_ok s thr →
  (∀ i, e = Some i → is_embryo s' i ∧ ¬ is_embryo s i) →
  (∀ q th i, thr !! q = Some th → th_embryo th = Some i → q ≠ p → is_embryo s i → is_embryo s' i) →
  embryos_ok s' (set_embryo p e thr).
Proof.
  intros [H1 H2] Hnew Hold. split.
  - intros q th i [[-> E]|[Hne Hq]]%set_embryo_inv Hi; [apply Hnew; congruence|eauto].
  - intros q q' th th' i [[-> E]|[Hne Hq]]%set_embryo_inv [[-> E']|[Hne' Hq']]%set_embryo_inv Hi Hi';
      [done| | |by eauto].
    + destruct (Hnew i) as [_ Hn]; [congruence|]. destruct Hn. eauto.
    + destruct (Hnew i) as [_ Hn]; [congruence|]. destruct Hn. eauto.
Qed.

(** A slot that is RUNNING neither before nor after. *)
Lemma insert_running s s' i r r' j :
  k_ptable s !! i = Some r → k_ptable s' = <[i := r']> (k_ptable s) →
  p_state r ≠ RUNNING → p_state r' ≠ RUNNING → is_running s' j ↔ is_running s j.
Proof.
  intros Hr E Hst Hst'. unfold is_running. rewrite E. destruct (decide (j = i)) as [->|Hne].
  - rewrite list_lookup_insert_eq by by eapply lookup_lt_Some. naive_solver.
  - by rewrite list_lookup_insert_ne.
Qed.

Lemma EAlloc_ok cfg c cs p :
  sinv cfg → g_cpus cfg !! c = Some cs → cs_ctl cs = InProc p →
  (k_nextpid (g_mem cfg) < 2 ^ 31 - 1)%Z →
  ∃ thr s, event_code EAlloc (InProc p) p (g_thr cfg) (view cfg cs) = Ok (InProc p, thr) s ∧
    sinv (put cfg c s (InProc p) thr).
Proof.
  intros Hs Hc Ep Hn. destruct (si_cpu _ Hs _ _ Hc) as [Hok [Hp Hctl]].
  destruct (si_view_inv cfg cs Hs) as [qs Hq]. pose proof (si_pid _ Hs) as Hpid.
  pose proof Hctl as Hl. rewrite Ep in Hl.
  pose proof (allocproc_enter_eq (view cfg cs) qs Hq Hok Hl) as Ha.
  simpl event_code. simpl k_ptable in Ha. simpl k_nextpid in Ha. specialize (Ha ltac:(lia)).
  destruct (list_find _ _) as [[i r]|] eqn:Ef.
  - apply list_find_Some in Ef as (Hr & Hst & _). pose proof (lookup_lt_Some _ _ _ Hr) as Hlt.
    destruct Ha as (s & E & Hok' & Hh' & Hp' & Ept & En & Hi' & _).
    eexists _, s. split; [by erewrite bind_Ok by exact E|].
    destruct (run_same cfg c cs s (InProc p)) as [R1 R2]; [done|done|by rewrite Ep| |].
    { intros j. apply (insert_running _ _ i r (embryo (k_nextpid (g_mem cfg)) r)); [done..| |done].
      by rewrite Hst. }
    eapply sinv_put; [done..|]. split; [by eexists|lia| |done| | |done|done|].
    + unfold set_embryo. rewrite length_alter. apply si_thr, Hs.
    + split; simpl; [rewrite Hp'; simpl; by rewrite Hp, Ep|by rewrite Hh'].
    + intros l Hx Hy. by rewrite Hh' in Hx.
    + apply (embryos_ok_set (g_mem cfg)); [apply si_embryo, Hs| |].
      * intros j [= <-]. split; [|by intros (q & ? & ?); congruence].
        eexists. rewrite Ept, list_lookup_insert_eq by done. done.
      * intros q th j _ _ _ (q' & Hj & Hst'). exists q'. split; [|done].
        rewrite Ept, list_lookup_insert_ne; [done|]. intros ->. congruence.
  - destruct Ha as (E & Hqt). exists (g_thr cfg), (touched (view cfg cs)).
    split; [by erewrite bind_Ok by exact E|]. rewrite <-Ep. by apply (quiet_sinv _ _ cs).
Qed.

(** The slot [p] was filling becomes RUNNABLE, or UNUSED again. *)
Lemma embryo_done cfg c cs p i s r r' thr :
  sinv cfg → g_cpus cfg !! c = Some cs → cs_ctl cs = InProc p → embryo_of cfg p = Some i →
  k_ptable (g_mem cfg) !! i = Some r → k_ptable s = <[i := r']> (k_ptable (g_mem cfg)) →
  p_state r' ≠ RUNNING → (∃ qs, mlfq_inv none s qs) → k_nextpid s = k_nextpid (g_mem cfg) →
  cpu_ok s → k_held s = cs_held cs → c_proc (k_cpu s) = c_proc (cs_cpu cs) →
  length thr = NPROC →
  (∀ q, th_embryo <$> thr !! q = th_embryo <$> set_embryo p None (g_thr cfg) !! q) →
  sinv (put cfg c s (InProc p) thr).
Proof.
  intros Hs Hc Ep Hem Hr Ept Hst Hinv En Hok Hh Hp Hthr Hemb.
  destruct (si_cpu _ Hs _ _ Hc) as [_ [Hcp Hctl]]. rewrite Ep in Hcp, Hctl.
  unfold embryo_of in Hem. destruct (g_thr cfg !! p) as [th|] eqn:Hth; [|done]. simpl in Hem.
  destruct (em_slot _ _ (si_embryo _ Hs) _ _ _ Hth Hem) as (r0 & Hr0 & Hst0).
  assert (r0 = r) as -> by congruence.
  destruct (run_same cfg c cs s (InProc p)) as [R1 R2]; [done|done|by rewrite Ep| |].
  { intros j. apply (insert_running _ _ i r r'); [done..|by rewrite Hst0|done]. }
  eapply sinv_put; [done..|]. split; try done.
  - rewrite En. apply si_pid, Hs.
  - split; simpl; [by rewrite Hp|by rewrite Hh].
  - intros l Hl. by rewrite Hh in Hl.
  - eapply embryos_ok_threads; [exact Hemb|].
    apply (embryos_ok_set (g_mem cfg)); [apply si_embryo, Hs|done|].
    intros q th' j Hq Hj Hne (r1 & Hr1 & Hst1). exists r1. split; [|done].
    rewrite Ept, list_lookup_insert_ne; [done|]. intros ->. apply Hne.
    by eapply (em_one _ _ (si_embryo _ Hs)).
Qed.

Lemma EFail_ok cfg c cs p i :
  sinv cfg → g_cpus cfg !! c = Some cs → cs_ctl cs = InProc p → embryo_of cfg p = Some i →
  ∃ s, event_code EFail (InProc p) p (g_thr cfg) (view cfg cs) =
      Ok (InProc p, set_embryo p None (g_thr cfg)) s ∧
    sinv (put cfg c s (InProc p) (set_embryo p None (g_thr cfg))).
Proof.
  intros Hs Hc Ep Hem. destruct (si_cpu _ Hs _ _ Hc) as [Hok _].
  destruct (si_view_inv cfg cs Hs) as [qs Hq].
  pose proof Hem as Hem'. unfold embryo_of in Hem'.
  destruct (g_thr cfg !! p) as [th|] eqn:Hth; [|done]. simpl in Hem'.
  destruct (em_slot _ _ (si_embryo _ Hs) _ _ _ Hth Hem') as (r & Hr & Hst).
  pose proof (lookup_lt_Some _ _ _ Hr) as Hlt.
  eexists. split.
  - simpl. rewrite (bind_Ok (deref _) _ _ th (view cfg cs)) by by rewrite Hth.
    rewrite (bind_Ok (deref _) _ _ i (view cfg cs)) by by rewrite Hem'.
    erewrite bind_Ok by (apply upd_proc_eq; exact Hr). done.
  - eapply (embryo_done cfg c cs p i _ r (set_p_state UNUSED r)); try done.
    + exists qs. apply (mlfq_inv_drop none _ _ i (set_p_state UNUSED r)).
      * apply (mlfq_inv_keep_pid none (view cfg cs) qs i r); [done|done| | |done].
        -- eapply (unqueued_state _ _ _ _ _ Hq Hr). by rewrite Hst.
        -- destruct (mi_wf _ _ _ Hq _ _ Hr). split; simpl; [done..|]. set_solver.
      * simpl. by apply list_lookup_insert_eq.
      * done.
    + by eapply cpu_ok_same.
    + unfold set_embryo. rewrite length_alter. apply si_thr, Hs.
Qed.

Lemma fork_ready_eq s qs i r :
  mlfq_inv none s qs → cpu_ok s → LK_ptable ∉ k_held s →
  k_ptable s !! i = Some r → p_state r = EMBRYO → p_kstack r ≠ 0%Z → p_pgdir r ≠ 0%Z →
  ∃ s' t, fork_ready i s = Ok tt s' ∧ (∃ qs', mlfq_inv none s' qs') ∧ cpu_ok s' ∧
    k_held s' = k_held s ∧ c_proc (k_cpu s') = c_proc (k_cpu s) ∧ k_nextpid s' = k_nextpid s ∧
    k_ptable s' = <[i := set_p_qtime t (set_p_state RUNNABLE r)]> (k_ptable s) ∧ sched_only s s'.
Proof.
  intros Hi Hok Hl Hr Hst Hk Hd. set (s0 := locked LK_ptable s).
  assert (Hi0 : mlfq_inv none s0 qs) by same_inv Hi. pose proof (lookup_lt_Some _ _ _ Hr) as Hlt.
  destruct (ready_inv_gen s0 qs i r Hi0 Hr) as (qu' & qi' & t & Heq & Hinv).
  { by rewrite Hst. }
  { destruct (mi_wf _ _ _ Hi0 _ _ Hr) as [? ? ? Hlive ?]. split; simpl; [done..| |done].
    intros _. apply Hlive. by rewrite Hst. }
  simpl in Heq, Hinv. set (s1 := set_k_ptable _ _) in Hinv.
  destruct (unlock_ok LK_ptable s s1) as [Hrel Hok1]; [done..|].
  exists (unlock s s1), t. split_and!; try done; [|by eexists; same_inv Hinv].
  unfold fork_ready. erewrite bind_Ok by by apply acquire_eq.
  erewrite bind_Ok by (apply upd_proc_eq; exact Hr).
  erewrite bind_Ok; [exact Hrel|]. unfold is_sched. rewrite bool_decide_eq_true_2 by done. simpl.
  erewrite bind_Ok by (apply proc_at_eq; simpl; by apply list_lookup_insert_eq). exact Heq.
Qed.

Lemma EReady_ok cfg c cs p i r :
  sinv cfg → g_cpus cfg !! c = Some cs → cs_ctl cs = InProc p → embryo_of cfg p = Some i →
  k_ptable (g_mem cfg) !! i = Some r → p_kstack r ≠ 0%Z → p_pgdir r ≠ 0%Z →
  let thr := set_resume i RForkret (set_embryo p None (g_thr cfg)) in
  ∃ s, event_code EReady (InProc p) p (g_thr cfg) (view cfg cs) = Ok (InProc p, thr) s ∧
    sinv (put cfg c s (InProc p) thr).
Proof.
  intros Hs Hc Ep Hem Hr Hk Hd thr. destruct (si_cpu _ Hs _ _ Hc) as [Hok [_ Hctl]].
  rewrite Ep in Hctl. destruct (si_view_inv cfg cs Hs) as [qs Hq].
  pose proof Hem as Hem'. unfold embryo_of in Hem'.
  destruct (g_thr cfg !! p) as [th|] eqn:Hth; [|done]. simpl in Hem'.
  destruct (em_slot _ _ (si_embryo _ Hs) _ _ _ Hth Hem') as (r0 & Hr0 & Hst).
  assert (r0 = r) as -> by congruence.
  destruct (fork_ready_eq (view cfg cs) qs i r)
    as (s & t & E & Hinv & Hok' & Hh & Hp & En & Ept & _); [done..|].
  exists s. split.
  - simpl. rewrite (bind_Ok (deref _) _ _ th (view cfg cs)) by by rewrite Hth.
    rewrite (bind_Ok (deref _) _ _ i (view cfg cs)) by by rewrite Hem'.
    by erewrite bind_Ok by exact E.
  - eapply (embryo_done cfg c cs p i s r); try done.
    + unfold thr, set_resume, set_embryo. rewrite !length_alter. apply si_thr, Hs.
    + intros q. apply set_resume_embryo.
Qed.

(** ** What a process does on its own *)

Lemma private_inv cfg p g qs :
  mlfq_inv none (g_mem cfg) qs → private_ok cfg p g →
  (∀ i, embryo_of cfg p = Some i → is_embryo (g_mem cfg) i) → mlfq_inv none g qs.
Proof.
  intros [H1 H2 H3 H4 H5 H6 H7] [P1 P2 P3 P4 P5 P6 P7] Hem. split.
  - by eapply qrep_same.
  - by rewrite P4.
  - done.
  - intros i j r r' Hr Hr'. destruct (P2 i r Hr) as (r0 & Hr0 & _ & -> & _).
    destruct (P2 j r' Hr') as (r1 & Hr1 & _ & -> & _). eauto.
  - intros k q i Hq Hi. destruct (H5 k q i Hq Hi) as (r & Hr & Hst & Hcq).
    destruct (lookup_lt_is_Some_2 (k_ptable g) i) as [r' Hr'].
    { rewrite P4. by eapply lookup_lt_Some. }
    exists r'. destruct (P2 i r' Hr') as (r0 & Hr0 & E1 & _ & E2).
    assert (r0 = r) as -> by congruence. rewrite E1, E2; [done|].
    intros Hx. destruct (Hem i Hx) as (r1 & ? & ?). congruence.
  - intros i r' Hr' Hst Hn. destruct (P2 i r' Hr') as (r & Hr & E1 & _ & E2).
    rewrite E2; [apply H6; [done|congruence|exact Hn]|].
    intros Hx. destruct (Hem i Hx) as (r1 & ? & ?). congruence.
  - done.
Qed.

Lemma EPrivate_ok cfg c cs p g :
  sinv cfg → g_cpus cfg !! c = Some cs → cs_ctl cs = InProc p → private_ok cfg p g →
  sinv (put cfg c (set_k_cpu (cs_cpu cs) (set_k_held (cs_held cs) g)) (InProc p) (g_thr cfg)).
Proof.
  intros Hs Hc Ep Hpv. rewrite <-Ep. apply (quiet_sinv _ _ cs); [done..|].
  destruct (si_cpu _ Hs _ _ Hc) as [Hok _]. destruct (si_mlfq _ Hs) as [qs Hq].
  assert (Hi : mlfq_inv none g qs).
  { apply (private_inv cfg p); [done|done|]. intros i Hi. unfold embryo_of in Hi.
    destruct (g_thr cfg !! p) as [th|] eqn:Hth; [|done].
    by eapply (em_slot _ _ (si_embryo _ Hs)). }
  destruct Hpv as [P1 P2 P3 P4 P5 P6 P7]. split; try done.
  - exists qs. same_inv Hi.
  - split; [done|]. intros i r Hr. simpl in *.
    destruct (lookup_lt_is_Some_2 (k_ptable g) i) as [r' Hr'].
    { rewrite P4. by eapply lookup_lt_Some. }
    exists r'. split; [done|]. destruct (P2 i r' Hr') as (r0 & ? & ? & _). left. congruence.
  - by eapply cpu_ok_same.
Qed.
End events.
