(* ===== verification/BuildThm.v ===== *)
(** * BuildThm: the process operations in every build (proc.c, trap.c)

    [scheduler] differs between the RR, FCFS, PBS and MLFQ builds, and the MLFQ build
    keeps the queues as well.  [sched_ok] is what the operations of proc.c need of the
    process table in each of them: its size, and in the MLFQ build the queue invariant. *)

From stdpp Require Import base numbers gmap strings option list.
From S2P Require Import Prelude Format Machine Boot Mem Mlfq ProcCore Kalloc Vm Apic Proc Trap Scheduler.
From S2P Require Import MlfqInv MlfqOps MlfqSched Reap System SystemInv.
Local Open Scope kernel_scope.

Section env.
Context `{Env}.
Implicit Types (s : kernel) (qs : list (list nat)).

Record sched_ok (s : kernel) : Prop := {
  so_len : length (k_ptable s) = NPROC;
  so_mlfq : SCHEDULER = MLFQ → ∃ qs, mlfq_inv none s qs;
}.

Lemma sched_ok_inv s qs : mlfq_inv none s qs → sched_ok s.
Proof. intros Hi. split; [by apply (mi_len _ _ _ Hi)|by exists qs]. Qed.

Lemma sched_ok_same s s' : same_sched s s' → sched_ok s → sched_ok s'.
Proof.
  intros Hss [Hl Hm]. split; [by rewrite (ss_ptable _ _ Hss)|].
  intros Hs. destruct (Hm Hs) as [qs Hi]. exists qs. by eapply mlfq_inv_same.
Qed.

(** In the other builds only the size of the table counts. *)
Lemma sched_ok_other s s' :
  SCHEDULER ≠ MLFQ → sched_ok s → length (k_ptable s') = length (k_ptable s) → sched_ok s'.
Proof. intros Hno [Hl _] E. split; [by rewrite E|done]. Qed.

Lemma is_sched_other : SCHEDULER ≠ MLFQ → is_sched MLFQ = false.
Proof. intros Hno. by apply bool_decide_eq_false_2. Qed.

Lemma build_cases : SCHEDULER = MLFQ ∨ SCHEDULER ≠ MLFQ.
Proof. destruct SCHEDULER; (by left) || by right. Qed.

(** ** wakeup *)

Lemma set_p_qtime_id p : set_p_qtime (p_qtime p) p = p.
Proof. by destruct p. Qed.

Lemma wakeup_slot_other ch i s p :
  SCHEDULER ≠ MLFQ → k_ptable s !! i = Some p →
  wakeup_slot ch i s = Ok tt (set_k_ptable (<[i := woken ch (p_qtime p) p]> (k_ptable s)) s).
Proof.
  intros Hno Hp. unfold wakeup_slot. erewrite bind_Ok by by apply proc_at_eq.
  unfold woken. case_bool_decide as Hc; simpl.
  - rewrite decide_True by done. rewrite is_sched_other by done.
    erewrite bind_Ok by by apply upd_proc_eq. simpl.
    change (p_qtime p) with (p_qtime (set_p_state RUNNABLE p)). by rewrite set_p_qtime_id.
  - rewrite decide_False, list_insert_id by done. unfold ret. f_equal. by destruct s.
Qed.

Lemma wakeup1_any s ch :
  sched_ok s →
  ∃ s', wakeup1 ch s = Ok tt s' ∧ sched_ok s' ∧ ps_only s s' ∧
    ∀ i p, k_ptable s !! i = Some p → ∃ t, k_ptable s' !! i = Some (woken ch t p).
Proof.
  intros Hok. destruct build_cases as [Hm|Hno].
  - destruct (so_mlfq _ Hok Hm) as [qs Hi].
    destruct (wakeup1_mlfq s qs ch Hm Hi) as (s' & qs' & E & Hi' & Hps & Ht).
    exists s'. split_and!; try done. by eapply sched_ok_inv.
  - eexists. split_and!.
    + apply (for_each_table (λ p, woken ch (p_qtime p) p)); [by apply so_len|].
      intros i s' p. by apply wakeup_slot_other.
    + apply (sched_ok_other s); [done|done|]. simpl. by rewrite length_fmap.
    + apply ps_only_ptable.
    + intros i p Hp. exists (p_qtime p). simpl. by rewrite list_lookup_fmap, Hp.
Qed.

(** ** Critical sections *)

(** [s'] is [s] after code that left the locks and the running process alone. *)
Record same_control (s s' : kernel) : Prop := {
  sc_cpu : cpu_ok s';
  sc_held : k_held s' = k_held s;
  sc_proc : c_proc (k_cpu s') = c_proc (k_cpu s);
}.

Lemma crit_any s0 s1 :
  cpu_ok s0 → LK_ptable ∉ k_held s0 → sched_ok s1 → ps_only (locked LK_ptable s0) s1 →
  release LK_ptable s1 = Ok tt (unlock s0 s1) ∧ sched_ok (unlock s0 s1) ∧
    same_control s0 (unlock s0 s1).
Proof.
  intros Hok Hl Hso (Hc & Hh & Hn)%ps_only_cpu.
  destruct (unlock_ok LK_ptable s0 s1) as [Hrel Hok']; [done..|].
  split_and!; [done|by apply (sched_ok_same s1)|done].
Qed.

Lemma locked_ok l s : sched_ok s → sched_ok (locked l s).
Proof. by apply sched_ok_same. Qed.

Lemma wakeup_any s ch :
  sched_ok s → cpu_ok s → LK_ptable ∉ k_held s →
  ∃ s1, wakeup ch s = Ok tt (unlock s s1) ∧ sched_ok (unlock s s1) ∧ same_control s (unlock s s1) ∧
    ps_only (locked LK_ptable s) s1 ∧
    ∀ i p, k_ptable s !! i = Some p → ∃ t, k_ptable s1 !! i = Some (woken (Some ch) t p).
Proof.
  intros Hso Hok Hl. unfold wakeup. erewrite bind_Ok by by apply acquire_eq.
  destruct (wakeup1_any (locked LK_ptable s) (Some ch) (locked_ok _ _ Hso)) as (s1 & E & Hso1 & Hps & Ht).
  destruct (crit_any s s1) as (Hrel & ? & ?); [done..|].
  exists s1. split_and!; [by erewrite bind_Ok by exact E|done..].
Qed.

(** ** kill *)

Lemma kill_slot_any s i p h :
  sched_ok s → k_ptable s !! i = Some p → cpu_ok s → k_held s = LK_ptable :: h →
  ∃ s1 t, kill_slot (p_pid p) i s = (release LK_ptable ;; ret (Some 0%Z)) s1 ∧
    sched_ok s1 ∧ ps_only s s1 ∧ k_ptable s1 = <[i := killed_proc t p]> (k_ptable s).
Proof.
  intros Hso Hp Hok Hl. destruct build_cases as [Hm|Hno].
  - destruct (so_mlfq _ Hso Hm) as [qs Hi].
    destruct (kill_slot_match Hm s qs h i p Hi Hp Hok Hl) as (s1 & qs1 & t & E & Hi1 & Hps & Ept).
    exists s1, t. split_and!; [done|by eapply sched_ok_inv|done..].
  - unfold kill_slot. erewrite bind_Ok by by apply proc_at_eq. rewrite Z.eqb_refl.
    erewrite bind_Ok by by apply upd_proc_eq. pose proof (lookup_lt_Some _ _ _ Hp) as Hlt.
    exists (set_k_ptable (<[i := killed_proc (p_qtime p) p]> (k_ptable s)) s), (p_qtime p).
    split_and!; [|apply (sched_ok_other s); [done|done|apply length_insert]|apply ps_only_ptable|done].
    unfold killed_proc. case_decide as Hst.
    + rewrite bool_decide_eq_true_2 by done. unfold when at 1. rewrite is_sched_other by done.
      erewrite bind_Ok; [reflexivity|].
      erewrite bind_Ok by (apply upd_proc_eq; simpl; by apply list_lookup_insert_eq). simpl.
      rewrite list_insert_insert_eq. unfold ret. repeat f_equal.
    + by rewrite bool_decide_eq_false_2.
Qed.

Lemma kill_any s pid :
  sched_ok s → cpu_ok s → LK_ptable ∉ k_held s →
  ∃ r s', kill pid s = Ok r s' ∧ sched_ok s' ∧ same_control s s' ∧
    match list_find (λ p, p_pid p = pid) (k_ptable s) with
    | Some (i, p) => r = 0%Z ∧ ∃ t, k_ptable s' = <[i := killed_proc t p]> (k_ptable s)
    | None => r = (-1)%Z ∧ s' = touched s
    end.
Proof.
  intros Hso Hok Hl. unfold kill. erewrite bind_Ok by by apply acquire_eq.
  set (s0 := locked LK_ptable s). pose proof (locked_ok LK_ptable s Hso) as Hso0.
  assert (Hok0 : cpu_ok s0) by by apply cpu_ok_locked.
  assert (Hlen : length (k_ptable s0) = NPROC) by apply (so_len _ Hso).
  destruct (list_find _ (k_ptable s)) as [[i p]|] eqn:Ef.
  - pose proof Ef as (Hp & Hpid & _)%list_find_Some. subst pid.
    destruct (kill_slot_any s0 i p (k_held s) Hso0 Hp Hok0 eq_refl) as (s1 & t & Hk & Hso1 & Hps & Hpt).
    destruct (crit_any s s1) as (Hrel & ? & ?); [done..|].
    exists 0%Z, (unlock s s1). split_and!; [|done..|by exists t].
    rewrite (bind_Ok _ _ _ (Some 0%Z) (unlock s s1)); [done|].
    eapply (slots_find_Some (λ q, p_pid q = p_pid p)); [done|exact Ef| |].
    + intros j q. apply kill_slot_miss.
    + rewrite Hk. by erewrite bind_Ok by exact Hrel.
  - destruct (crit_any s s0) as (Hrel & ? & ?); [done|done|done|reflexivity|].
    exists (-1)%Z, (unlock s s0). split_and!; [|done..|by destruct s].
    rewrite (bind_Ok _ _ _ None s0); [by erewrite bind_Ok by exact Hrel|].
    eapply (slots_find_None (λ q, p_pid q = pid)); [done|exact Ef|].
    intros j q. apply kill_slot_miss.
Qed.

(** ** The timer interrupt *)

Lemma accounted_ok s : sched_ok s → sched_ok (set_k_ptable (accounted <$> k_ptable s) s).
Proof.
  intros Hso. destruct build_cases as [Hm|Hno].
  - destruct (so_mlfq _ Hso Hm) as [qs Hi]. apply (sched_ok_inv _ qs).
    apply mlfq_inv_fmap; [apply accounted_same|apply accounted_wf|done].
  - apply (sched_ok_other s); [done|done|]. apply length_fmap.
Qed.

Lemma timer_any s :
  sched_ok s → cpu_ok s → k_held s = [] →
  ∃ s', timer_tick s = Ok tt s' ∧ sched_ok s' ∧ same_control s s' ∧ k_ticks s' = u32 (k_ticks s + 1) ∧
    k_io s' = k_io s ∧ k_hw s' = k_hw s ∧
    ∀ i p, k_ptable s !! i = Some p →
      ∃ t, k_ptable s' !! i = Some (woken (Some CH_ticks) t (accounted p)).
Proof.
  intros Hso Hok Hh. assert (Hlt : LK_ticks ∉ k_held s) by (rewrite Hh; apply not_elem_of_nil).
  unfold timer_tick. erewrite bind_Ok by by apply acquire_eq. erewrite bind_Ok by done.
  set (s1 := set_k_ticks _ _).
  assert (Hok1 : cpu_ok s1) by (eapply cpu_ok_same; [by apply (cpu_ok_locked LK_ticks)|done..]).
  assert (Hh1 : k_held s1 = [LK_ticks]) by (simpl; by rewrite Hh).
  assert (Hso1 : sched_ok s1) by by apply (sched_ok_same s).
  assert (Hpt : LK_ptable ∉ k_held s1) by (rewrite Hh1; by intros ?%list_elem_of_singleton).
  erewrite bind_Ok by by apply acquire_eq.
  erewrite bind_Ok.
  2:{ apply (for_each_table accounted account_slot); [apply (so_len _ Hso1)|].
      intros i s' p. apply account_slot_eq. }
  set (s2 := set_k_ptable _ _).
  destruct (crit_any s1 s2) as (Hrel & Hso2 & [Hok2 Hh2 Hp2]); [done|done| |apply ps_only_ptable|].
  { apply (accounted_ok (locked LK_ptable s1)). by apply locked_ok. }
  erewrite bind_Ok by exact Hrel.
  destruct (wakeup_any (unlock s1 s2) CH_ticks) as (s3 & Hwk & Hso3 & [Hok3 Hh3 Hp3] & Hps3 & Ht3);
    [done|done|by rewrite Hh2|].
  erewrite bind_Ok by exact Hwk. set (s4 := unlock _ s3) in *.
  assert (Hc4 : k_cpu s4 = cpu_push (k_cpu s)).
  { transitivity (cpu_pop (cpu_push (k_cpu (unlock s1 s2)))); [done|].
    rewrite nested_cpu by (done || by rewrite Hh2, Hh1). apply (nested_cpu s1 Hok1). by rewrite Hh1. }
  destruct (unlock_ok LK_ticks s s4) as [Hrel4 Hok4]; [done|done|done|by rewrite Hh3, Hh2|].
  exists (unlock s s4). split_and!.
  - done.
  - by apply (sched_ok_same s4).
  - by split.
  - simpl. by rewrite (ps_only_ticks _ _ Hps3).
  - simpl. by rewrite Hps3.
  - simpl. by rewrite Hps3.
  - intros i p Hp. apply Ht3. simpl. by rewrite list_lookup_fmap, Hp.
Qed.

(** ** allocproc *)

Lemma alloc_any s :
  sched_ok s → cpu_ok s → LK_ptable ∉ k_held s → (0 < k_nextpid s < 2 ^ 31 - 1)%Z →
  match list_find (λ p, p_state p = UNUSED) (k_ptable s) with
  | None => allocproc_enter s = Ok None (touched s)
  | Some (i, p) => ∃ s', allocproc_enter s = Ok (Some i) s' ∧ sched_ok s' ∧ same_control s s' ∧
      k_ptable s' = <[i := embryo (k_nextpid s) p]> (k_ptable s) ∧ k_nextpid s' = (k_nextpid s + 1)%Z
  end.
Proof.
  intros Hso Hok Hl Hn. pose proof (allocproc_enter_run s (so_len _ Hso) Hok Hl Hn) as E.
  destruct (list_find _ _) as [[i p]|] eqn:Ef; [|exact E].
  pose proof Ef as (Hp & Hst & _)%list_find_Some. set (s1 := alloc_slot i p _) in *.
  destruct (unlock_ok LK_ptable s s1) as [_ Hok1]; [done..|].
  exists (unlock s s1). split_and!; [done| |by split|done..].
  apply (sched_ok_same s1); [by split|]. destruct build_cases as [Hm|Hno].
  - destruct (so_mlfq _ (locked_ok LK_ptable s Hso) Hm) as [qs Hi]. apply (sched_ok_inv _ qs).
    apply (alloc_inv Hm (locked LK_ptable s)); [done..|simpl; lia].
  - apply (sched_ok_other s); [done|done|]. apply length_insert.
Qed.

(** ** exit *)

(** What became of the parent of a slot while [cur] passed its children to [init]. *)
Definition reparented (cur : nat) (init : option nat) (p : proc) : option nat :=
  if decide (p_parent p = Some cur) then init else p_parent p.

Lemma woken_parent ch t p : p_parent (woken ch t p) = p_parent p.
Proof. unfold woken. by case_decide. Qed.

Lemma ps_only_initproc s s' : ps_only s s' → k_initproc s' = k_initproc s.
Proof. by intros ->. Qed.

Lemma parent_ok s i p q :
  sched_ok s → k_ptable s !! i = Some p →
  sched_ok (set_k_ptable (<[i := set_p_parent q p]> (k_ptable s)) s).
Proof.
  intros Hso Hp. destruct build_cases as [Hm|Hno].
  - destruct (so_mlfq _ Hso Hm) as [qs Hi]. apply (sched_ok_inv _ qs).
    eapply mlfq_inv_fields; [done..|]. eapply proc_wf_same; [by eapply (mi_wf _ _ _ Hi)|done..].
  - apply (sched_ok_other s); [done|done|]. apply length_insert.
Qed.

(** One child, then all of them. *)
Lemma exit_child_parents cur i s p :
  sched_ok s → k_ptable s !! i = Some p →
  ∃ s', exit_child cur i s = Ok tt s' ∧ sched_ok s' ∧ ps_only s s' ∧
    ∀ j q, k_ptable s !! j = Some q → ∃ q', k_ptable s' !! j = Some q' ∧
      p_parent q' = if decide (j = i) then reparented cur (k_initproc s) q else p_parent q.
Proof.
  intros Hso Hp. unfold exit_child. erewrite bind_Ok by by apply proc_at_eq.
  pose proof (lookup_lt_Some _ _ _ Hp) as Hlt.
  case_bool_decide as Hpar; simpl.
  2:{ exists s. split_and!; [done|done|reflexivity|]. intros j q Hq. exists q. split; [done|].
      case_decide; [|done]. unfold reparented. rewrite decide_False; [done|]. by simplify_eq. }
  erewrite bind_Ok by done. erewrite bind_Ok by by apply upd_proc_eq.
  set (s1 := set_k_ptable _ s). assert (Hso1 : sched_ok s1) by by apply parent_ok.
  assert (Hp1 : ∀ j q, k_ptable s !! j = Some q → ∃ q', k_ptable s1 !! j = Some q' ∧
    p_parent q' = if decide (j = i) then reparented cur (k_initproc s) q else p_parent q).
  { intros j q Hq. simpl. case_decide as Hj.
    - subst j. rewrite list_lookup_insert_eq by done. eexists. split; [done|]. simpl.
      unfold reparented. assert (q = p) as -> by congruence. by rewrite decide_True.
    - rewrite list_lookup_insert_ne by done. eauto. }
  erewrite bind_Ok by (apply proc_at_eq; simpl; by apply list_lookup_insert_eq).
  case_bool_decide as Hz.
  - destruct (wakeup1_any s1 (CH_proc <$> k_initproc s) Hso1) as (s2 & E & Hso2 & Hps & Ht).
    exists s2. split_and!; [exact E|done|etrans; [apply ps_only_ptable|exact Hps]|].
    intros j q Hq. destruct (Hp1 j q Hq) as (q' & Hq' & Epar). destruct (Ht j q' Hq') as [t Hq''].
    eexists. split; [exact Hq''|]. by rewrite woken_parent.
  - exists s1. split_and!; [done|done|apply ps_only_ptable|done].
Qed.

Lemma exit_children_parents cur l s :
  sched_ok s → NoDup l → (∀ i, i ∈ l → i < NPROC) →
  ∃ s', for_each l (exit_child cur) s = Ok tt s' ∧ sched_ok s' ∧ ps_only s s' ∧
    ∀ j q, k_ptable s !! j = Some q → ∃ q', k_ptable s' !! j = Some q' ∧
      p_parent q' = if decide (j ∈ l) then reparented cur (k_initproc s) q else p_parent q.
Proof.
  revert s. induction l as [|i l IH]; intros s Hso Hnd Hl.
  { exists s. split_and!; [done|done|reflexivity|]. intros j q Hq. exists q.
    by rewrite decide_False by apply not_elem_of_nil. }
  apply NoDup_cons in Hnd as [Hni Hnd].
  destruct (lookup_lt_is_Some_2 (k_ptable s) i) as [p Hp].
  { rewrite (so_len _ Hso). apply Hl. by left. }
  destruct (exit_child_parents cur i s p Hso Hp) as (s1 & E1 & Hso1 & Hps1 & H1).
  destruct (IH s1 Hso1 Hnd) as (s2 & E2 & Hso2 & Hps2 & H2); [intros; apply Hl; by right|].
  exists s2. split_and!; [by erewrite for_each_Ok by exact E1|done|by etrans|].
  intros j q Hq. destruct (H1 j q Hq) as (q1 & Hq1 & Ep1). destruct (H2 j q1 Hq1) as (q2 & Hq2 & Ep2).
  exists q2. split; [done|]. rewrite Ep2, (ps_only_initproc _ _ Hps1).
  destruct (decide (j = i)) as [->|Hne].
  - rewrite decide_False by done. rewrite decide_True by by left. done.
  - rewrite Ep1. destruct (decide (j ∈ l)) as [Hj|Hj].
    + rewrite (decide_True (P := j ∈ i :: l)) by by right. unfold reparented. by rewrite Ep1.
    + rewrite (decide_False (P := j ∈ i :: l)); [done|]. by intros [?|?]%elem_of_cons.
Qed.
End env.
