(* ===== verification/SystemStep.v ===== *)
(** * SystemStep: every reachable configuration satisfies the invariant

    The scan of [wait], then the two theorems on the system: [sinv] holds after
    any sequence of events, and an enabled event returns (when [wait] collects a child:
    if the child's stack and address space are pages in use). *)

From stdpp Require Import base numbers gmap strings option list.
From S2P Require Import Prelude Format Machine Boot Mem Mlfq ProcCore Kalloc Vm Proc Trap Scheduler.
From S2P Require Import VmThm UvmThm CopyThm SpaceThm MlfqInv MlfqOps MlfqSched Reap System SystemInv.
Local Open Scope kernel_scope.

Section events.
Context `{Env}.
Hypothesis mlfq : SCHEDULER = MLFQ.

(** ** wait *)

(** The scan of the table: the first ZOMBIE child of [cur], or whether there is
    any child. *)
Lemma wait_scan_eq cur l b s :
  (∀ i, i ∈ l → is_Some (k_ptable s !! i)) →
  ∃ r, wait_scan cur l b s = Ok r s ∧
    match r with
    | inl i => ∃ p, k_ptable s !! i = Some p ∧ p_parent p = Some cur ∧ p_state p = ZOMBIE
    | inr h => h = true ↔ b = true ∨
        ∃ i p, i ∈ l ∧ k_ptable s !! i = Some p ∧ p_parent p = Some cur
    end.
Proof.
  revert b. induction l as [|i l IH]; intros b Hl; simpl.
  { exists (inr b). split; [done|]. split; [by left|]. by intros [?|(? & ? & ?%elem_of_nil & _)]. }
  destruct (Hl i) as [p Hp]; [by left|]. erewrite bind_Ok by by apply proc_at_eq.
  assert (Hl' : ∀ i, i ∈ l → is_Some (k_ptable s !! i)) by (intros; apply Hl; by right).
  case_bool_decide as Hpar.
  - destruct (IH b Hl') as (r & E & Hr). exists r. split; [done|]. destruct r as [j|h]; [done|].
    rewrite Hr. split; (intros [?|(j & q & Hj & Hq & Hpq)]; [by left|right]).
    + exists j, q. split; [by right|done].
    + exists j, q. split; [|done]. apply elem_of_cons in Hj as [->|]; [congruence|done].
  - case_bool_decide as Hst; [by exists (inl i); eauto|].
    destruct (IH true Hl') as (r & E & Hr). exists r. split; [done|]. destruct r as [j|h]; [done|].
    rewrite Hr. split; [|by left]. intros _. right. exists i, p. split; [by left|done].
Qed.

Lemma reap_sinv cfg c cs p i pp pid s :
  sinv cfg → g_cpus cfg !! c = Some cs → cs_ctl cs = InWait p →
  k_ptable (g_mem cfg) !! i = Some pp → p_state pp = ZOMBIE →
  reap i (view cfg cs) = Ok pid s → sinv (put cfg c s (InProc p) (g_thr cfg)).
Proof.
  intros Hs Hc Ep Hpp Hst E. destruct (si_cpu _ Hs _ _ Hc) as [Hok [Hp Hh]]. rewrite Ep in Hp, Hh.
  destruct (si_view_inv cfg cs Hs) as [qs Hq].
  destruct (reap_ok (view cfg cs) qs i pp pid s)
    as (_ & Ept & Hi1 & Hok1 & Hh1 & Hp1 & En); [by apply bool_decide_eq_true_2|done..|].
  destruct (run_same cfg c cs s (InProc p)) as [R1 R2]; [done|done|by rewrite Ep| |].
  { intros j. eapply (insert_running _ _ i pp (reaped pp)); [done..|by rewrite Hst|done]. }
  eapply sinv_put; [done..|]. split; try done.
  - by exists qs.
  - rewrite En. apply si_pid, Hs.
  - apply si_thr, Hs.
  - split; simpl; [by rewrite Hp1|]. rewrite Hh1. apply not_elem_of_nil.
  - intros l. rewrite Hh1. by intros ?%not_elem_of_nil.
  - destruct (si_embryo _ Hs) as [E1' E2']. split; [|done]. intros q th j Hth Hj.
    destruct (E1' q th j Hth Hj) as (r & Hr & Hst'). exists r. split; [|done].
    rewrite Ept, list_lookup_insert_ne; [done|]. intros ->. simpl in Hpp. congruence.
Qed.

(** [wait] returns -1. *)
Lemma bare_sinv cfg c cs p :
  sinv cfg → g_cpus cfg !! c = Some cs → cs_ctl cs = InWait p →
  sinv (put cfg c (bare (view cfg cs)) (InProc p) (g_thr cfg)).
Proof.
  intros Hs Hc Ep. destruct (si_cpu _ Hs _ _ Hc) as [Hok [Hp Hh]]. rewrite Ep in Hp, Hh.
  destruct (release_ptable (view cfg cs) Hok Hh) as [_ Hokb].
  apply (lock_sinv _ _ cs); [exact Hs|exact Hc|by split|exact Hokb| |by rewrite Ep|].
  - split; simpl; [exact Hp|apply not_elem_of_nil].
  - simpl. intros l Hl. by apply not_elem_of_nil in Hl.
Qed.

(** A pass of [wait]'s loop collects a ZOMBIE child, or returns -1 or sleeps. *)
Lemma scan_cases cfg c cs p :
  sinv cfg → g_cpus cfg !! c = Some cs → cs_ctl cs = InWait p →
  (∃ i pp, k_ptable (g_mem cfg) !! i = Some pp ∧ p_parent pp = Some p ∧ p_state pp = ZOMBIE ∧
     scan_code p (g_thr cfg) (view cfg cs) =
       (reap i ;; ret (InProc p, g_thr cfg)) (view cfg cs)) ∨
  (∃ t thr s, scan_code p (g_thr cfg) (view cfg cs) = Ok (t, thr) s ∧ sinv (put cfg c s t thr)).
Proof.
  intros Hs Hc Ep. destruct (si_cpu _ Hs _ _ Hc) as [Hok [Hp Hh]]. rewrite Ep in Hp, Hh.
  destruct (si_view_inv cfg cs Hs) as [qs Hq].
  destruct (wait_scan_eq p slots false (view cfg cs)) as (r & Er & Hr).
  { intros i Hi%elem_of_seq. apply lookup_lt_is_Some_2. rewrite (mi_len _ _ _ Hq). lia. }
  unfold scan_code. rewrite (bind_Ok _ _ _ _ _ Er). destruct r as [i|h].
  { left. destruct Hr as (pp & Hpp & Hpar & Hst). by exists i, pp. }
  right. destruct (current_running cfg c cs p) as (pp & Hpp & Hst); [done|done|by rewrite Ep|].
  rewrite (bind_Ok _ _ _ _ _ (proc_at_eq (view cfg cs) p pp Hpp)). destruct (_ || _).
  - destruct (release_ptable (view cfg cs) Hok Hh) as [Erel _].
    rewrite (bind_Ok _ _ _ _ _ Erel). eexists _, _, _. split; [reflexivity|].
    by eapply bare_sinv.
  - destruct (sleep_leaving mlfq cfg c cs p (CH_proc p) LK_ptable) as (s & ie & E & Hs');
      [done|done|by rewrite Ep|done|]. eexists _, _, s. split; [exact E|exact Hs'].
Qed.

Lemma EScan_ok cfg c cs p t thr s :
  sinv cfg → g_cpus cfg !! c = Some cs → cs_ctl cs = InWait p →
  scan_code p (g_thr cfg) (view cfg cs) = Ok (t, thr) s → sinv (put cfg c s t thr).
Proof.
  intros Hs Hc Ep E. destruct (scan_cases cfg c cs p Hs Hc Ep)
    as [(i & pp & Hpp & _ & Hst & E')|(t' & thr' & s' & E' & Hs')]; rewrite E' in E.
  - apply bind_Ok_inv in E as (pid & s1 & E1 & E2). injection E2 as <- <- <-.
    by eapply reap_sinv.
  - by injection E as -> -> ->.
Qed.

(** ** All events *)

(** What [EScan] frees is in use: the stack and the address space of every ZOMBIE child that
    the process of [cs] may collect. *)
Definition reap_memory (cfg : config) (cs : cpustate) : Prop :=
  ∀ p i pp, cs_ctl cs = InWait p → k_ptable (g_mem cfg) !! i = Some pp →
    p_parent pp = Some p → p_state pp = ZOMBIE →
    linked ∧ ∃ l Q T A, space (view cfg cs) l (p_kstack pp :: Q) (p_pgdir pp) (p_sz pp) T A.

Definition run_event (cfg : config) (cs : cpustate) (e : event) : outcome kernel (ctl * list thread) :=
  event_code e (cs_ctl cs) (default 0 (proc_of (cs_ctl cs))) (g_thr cfg) (view cfg cs).

Lemma scan_returns cfg c cs p :
  sinv cfg → g_cpus cfg !! c = Some cs → cs_ctl cs = InWait p → reap_memory cfg cs →
  ∃ t thr s, scan_code p (g_thr cfg) (view cfg cs) = Ok (t, thr) s ∧ sinv (put cfg c s t thr).
Proof.
  intros Hs Hc Ep Hmem.
  destruct (scan_cases cfg c cs p Hs Hc Ep) as [(i & pp & Hpp & Hpar & Hst & E)|?]; [|done].
  destruct (Hmem p i pp Ep Hpp Hpar Hst) as (Hl & l & Q & T & A & Hsp).
  destruct (si_cpu _ Hs _ _ Hc) as [Hok [_ Hh]]. rewrite Ep in Hh.
  destruct (si_view_inv cfg cs Hs) as [qs Hq].
  destruct (reap_run (view cfg cs) qs i pp l Q T A) as (s & Er);
    [by apply bool_decide_eq_true_2|done..|].
  exists (InProc p), (g_thr cfg), s. rewrite E. split; [by erewrite bind_Ok by exact Er|].
  by eapply reap_sinv.
Qed.

Definition event_good (cfg : config) (c : nat) (cs : cpustate) (e : event) : Prop :=
  ∃ t thr s, run_event cfg cs e = Ok (t, thr) s ∧ sinv (put cfg c s t thr).

(** The critical sections entered by a process or an interrupt handler. *)
Lemma quiet_event cfg c cs (m : K unit) s :
  sinv cfg → g_cpus cfg !! c = Some cs → m (view cfg cs) = Ok tt s → quiet (view cfg cs) s →
  ∃ t thr s, (m ;; ret (cs_ctl cs, g_thr cfg)) (view cfg cs) = Ok (t, thr) s ∧
    sinv (put cfg c s t thr).
Proof.
  intros Hs Hc E Hq. exists (cs_ctl cs), (g_thr cfg), s. split; [by erewrite bind_Ok by exact E|].
  by apply (quiet_sinv _ _ cs).
Qed.

Lemma quiet_event_Z cfg c cs (m : K Z) r s :
  sinv cfg → g_cpus cfg !! c = Some cs → m (view cfg cs) = Ok r s → quiet (view cfg cs) s →
  ∃ t thr s, (m ;; ret (cs_ctl cs, g_thr cfg)) (view cfg cs) = Ok (t, thr) s ∧
    sinv (put cfg c s t thr).
Proof.
  intros Hs Hc E Hq. exists (cs_ctl cs), (g_thr cfg), s. split; [by erewrite bind_Ok by exact E|].
  by apply (quiet_sinv _ _ cs).
Qed.

Lemma event_ok cfg c cs e :
  sinv cfg → g_cpus cfg !! c = Some cs → enabled cfg c cs e → (e = EScan → reap_memory cfg cs) →
  event_good cfg c cs e.
Proof.
  intros Hs Hc Hen Hsc. destruct (si_cpu _ Hs _ _ Hc) as [Hok [Hp Hctl]].
  destruct (si_view_inv cfg cs Hs) as [qs Hq]. unfold event_good, run_event.
  destruct e; simpl in Hen.
  - destruct Hen as [Ec Hf]. destruct (ESched_ok mlfq cfg c cs) as (t & s & E & Hs'); [done..|].
    by exists t, (g_thr cfg), s.
  - destruct Hen as (p & Ec & Hh & _). rewrite Ec.
    destruct (EYield_ok mlfq cfg c cs p) as (s & ie & E & Hs'); [done..|]. eauto 10.
  - destruct Hen as (p & Ec & Hh & _). rewrite Ec.
    destruct (sleep_leaving mlfq cfg c cs p ch lk) as (s & ie & E & Hs'); [done|done|by rewrite Ec|done|].
    eauto 10.
  - destruct Hen as (p & Ec & Hh & _). rewrite Ec.
    destruct (EExit_ok mlfq cfg c cs p) as (s & E & Hs'); [done..|]. eauto 10.
  - destruct Hen as [Hl _]. destruct (wakeup_quiet mlfq (view cfg cs) qs ch) as (s & E & Hq' & _); [done..|].
    by eapply quiet_event.
  - destruct Hen as [Hl _]. destruct (kill_quiet mlfq (view cfg cs) qs pid) as (r & s & t & E & Hq' & _); [done..|].
    by eapply quiet_event_Z.
  - destruct Hen as [Hl _]. destruct (timer_tick_quiet mlfq (view cfg cs) qs) as (s & E & Hq' & _); [done..|].
    by eapply quiet_event.
  - destruct Hen as [Hl _].
    destruct (set_priority_quiet mlfq (view cfg cs) qs new_priority pid) as (s & E & Hq' & _); [done..|].
    by eapply quiet_event_Z.
  - destruct Hen as (p & Ec & _ & Hn & _). rewrite Ec.
    destruct (EAlloc_ok mlfq cfg c cs p) as (thr & s & E & Hs'); [done..|]. eauto 10.
  - destruct Hen as (p & i & r & Ec & Hem & Hr & Hk & Hd & _). rewrite Ec.
    destruct (EReady_ok mlfq cfg c cs p i r) as (s & E & Hs'); [done..|]. eauto 10.
  - destruct Hen as (p & i & Ec & Hem). rewrite Ec.
    destruct (EFail_ok mlfq cfg c cs p i) as (s & E & Hs'); [done..|]. eauto 10.
  - destruct Hen as (p & Ec & Hh & Hf). rewrite Ec.
    destruct (EWait_ok mlfq cfg c cs p) as (s & E & Hs'); [done..|].
    exists (InWait p), (g_thr cfg), s. split; [by simpl; erewrite bind_Ok by exact E|done].
  - destruct Hen as (p & Ec). rewrite Ec. simpl.
    by apply (scan_returns cfg c cs p); [..|apply Hsc].
  - destruct Hen as (p & Ec & Hpv). rewrite Ec. eexists _, _, _. split; [done|].
    by apply (EPrivate_ok cfg c cs p).
  - destruct (EAcquire_ok mlfq cfg c cs lk) as (s & E & Hs'); [done..|].
    exists (cs_ctl cs), (g_thr cfg), s. split; [by simpl; erewrite bind_Ok by exact E|done].
  - destruct (ERelease_ok cfg c cs lk) as (s & E & Hs'); [done..|].
    exists (cs_ctl cs), (g_thr cfg), s. split; [by simpl; erewrite bind_Ok by exact E|done].
Qed.

(** The invariant is kept by every step, the collecting of a child included. *)
Lemma run_event_det cfg c cs e t thr s :
  event_good cfg c cs e → run_event cfg cs e = Ok (t, thr) s → sinv (put cfg c s t thr).
Proof. intros (t' & thr' & s' & E' & Hs') E. rewrite E' in E. by injection E as -> -> ->. Qed.

Lemma run_event_step cfg c cs e t thr s :
  g_cpus cfg !! c = Some cs → enabled cfg c cs e → run_event cfg cs e = Ok (t, thr) s →
  step cfg (put cfg c s t thr).
Proof. apply step_event. Qed.

Lemma run_event_scan cfg cs p :
  cs_ctl cs = InWait p → run_event cfg cs EScan = scan_code p (g_thr cfg) (view cfg cs).
Proof. unfold run_event. by intros ->. Qed.

Lemma step_sinv cfg cfg' : sinv cfg → step cfg cfg' → sinv cfg'.
Proof.
  intros Hs [c cs e t thr s Hc Hen E].
  assert (e = EScan ∨ e ≠ EScan) as [->|Hne] by (destruct e; (by left) || by right).
  - destruct Hen as (p & Ec). apply (EScan_ok cfg c cs p); [done..|].
    by rewrite <-(run_event_scan cfg cs p Ec).
  - eapply (run_event_det _ _ cs e); [by apply event_ok|exact E].
Qed.
End events.

(** ** Where the system starts *)

(** [userinit] has run, every processor has entered [scheduler], no process is
    RUNNING yet. *)
Record initial (cfg : config) : Prop := {
  in_mlfq : ∃ qs, mlfq_inv none (g_mem cfg) qs;
  in_pid : (0 < k_nextpid (g_mem cfg))%Z;
  in_thr : length (g_thr cfg) = NPROC;
  in_embryo p th : g_thr cfg !! p = Some th → th_embryo th = None;
  in_cpu c cs : g_cpus cfg !! c = Some cs →
    cs_ctl cs = AtSched ∧ cs_held cs = [] ∧ c_ncli (cs_cpu cs) = 0%Z ∧ c_proc (cs_cpu cs) = None;
  in_idle i : ¬ is_running (g_mem cfg) i;
}.

Lemma initial_sinv cfg : initial cfg → sinv cfg.
Proof.
  intros [H1 H2 H3 H4 H5 H6].
  assert (Hr : ∀ c i, ¬ runs cfg c i).
  { intros c i (cs & Hc & Hp). destruct (H5 c cs Hc) as (E & _). by rewrite E in Hp. }
  split; try done.
  - intros c cs Hc. destruct (H5 c cs Hc) as (E1 & E2 & E3 & E4). split.
    + split; simpl; rewrite ?E2; [done|done|constructor].
    + split; rewrite E1; done.
  - intros c c' cs cs' l Hc Hc' Hl. destruct (H5 c cs Hc) as (_ & E & _). rewrite E in Hl.
    by apply not_elem_of_nil in Hl.
  - intros c c' i Hx. by apply Hr in Hx.
  - intros i. split; [by intros ?%H6|]. by intros (c & ?%Hr).
  - split.
    + intros p th i Hp Hi. rewrite (H4 p th Hp) in Hi. done.
    + intros p p' th th' i Hp _ Hi. rewrite (H4 p th Hp) in Hi. done.
Qed.

Section reachable.
Context `{Env}.
Hypothesis mlfq : SCHEDULER = MLFQ.

Lemma reachable_inv cfg cfg' : initial cfg → rtc step cfg cfg' → sinv cfg'.
Proof.
  intros Hi%initial_sinv Hr. induction Hr as [|x y z Hxy _ IH]; [done|].
  apply IH. by apply (step_sinv mlfq x).
Qed.
End reachable.
