(* ===== verification/SystemThm.v ===== *)
(** * SystemThm: what holds in every reachable configuration

    The claims about the running system, read off the invariant. *)

From stdpp Require Import base numbers gmap strings option list.
From S2P Require Import Prelude Format Machine Boot Mem Mlfq ProcCore Kalloc Vm Proc Trap Scheduler.
From S2P Require Import VmThm UvmThm CopyThm SpaceThm MlfqInv MlfqOps MlfqBoot MlfqSched Reap System SystemInv SystemStep.
Local Open Scope kernel_scope.

(** ** The state after boot, for concrete runs *)

(** Two processors in [scheduler]. *)
Definition boot_config : config :=
  mk_config boot_mem (replicate 2 (mk_cpustate zero_cpu [] AtSched))
    (replicate NPROC (mk_thread RForkret None)).

Lemma boot_table i p : k_ptable boot_mem !! i = Some p → p_state p ≠ RUNNING.
Proof.
  intros Hp%list_elem_of_lookup_2 Hst.
  assert (H : Forall (λ p, p_state p ≠ RUNNING) (k_ptable boot_mem)) by (repeat constructor; done).
  rewrite Forall_forall in H. by apply (H p).
Qed.

Lemma boot_initial : initial boot_config.
Proof.
  split.
  - eexists. exact boot_inv.
  - done.
  - done.
  - intros p th [-> _]%lookup_replicate. done.
  - intros c cs [-> _]%lookup_replicate. done.
  - intros i (p & Hp & Hst). by apply boot_table in Hp.
Qed.

(** One pass of the scheduler on processor 0: [init] is dispatched. *)
Definition boot_step : config :=
  match run_event (H := sample_env MLFQ) boot_config (mk_cpustate zero_cpu [] AtSched) ESched with
  | Ok (t, thr) s => put boot_config 0 s t thr
  | _ => boot_config
  end.

Lemma boot_steps : rtc (step (H := sample_env MLFQ)) boot_config boot_step.
Proof.
  unfold boot_step. set (cs := mk_cpustate zero_cpu [] AtSched).
  destruct (run_event boot_config cs ESched) as [[t thr] s| | |] eqn:E; [|done..].
  apply rtc_once. apply (run_event_step (H := sample_env MLFQ) boot_config 0 cs ESched).
  - reflexivity.
  - split; [done|]. intros c cs' [-> _]%lookup_replicate _. by apply not_elem_of_nil.
  - exact E.
Qed.

(** A parent and its ZOMBIE child, whose stack is the page [k] and whose directory is [d];
    the memory is that of [s]. *)
Definition zombie (k d : Z) : proc :=
  set_p_parent (Some 0) (set_p_sz 5000 (set_p_pgdir d (set_p_kstack k (sample_proc ZOMBIE 2 0 0)))).
Definition family (s : kernel) (k d : Z) : config :=
  mk_config (set_k_mem (k_mem s) (set_k_freelist (k_freelist s)
      (sample 0 [sample_proc RUNNABLE 1 0 0; zombie k d] [[0]; []; []; []; []])))
    (replicate 2 (mk_cpustate zero_cpu [] AtSched)) (replicate NPROC (mk_thread RForkret None)).

Lemma family_initial s k d : initial (family s k d).
Proof.
  split.
  - exists [[0]; []; []; []; []]. apply mlfq_check_sound. by vm_compute.
  - done.
  - done.
  - intros p th [-> _]%lookup_replicate. done.
  - intros c cs [-> _]%lookup_replicate. done.
  - intros i (p & Hp%list_elem_of_lookup_2 & Hst).
    assert (Hn : Forall (λ p, p_state p ≠ RUNNING) (k_ptable (g_mem (family s k d)))) by (repeat constructor; done).
    rewrite Forall_forall in Hn. by apply (Hn p).
Qed.

(** Processor 0 dispatches the parent, which enters [wait]. *)
Definition run0 (cfg : config) (e : event) : config :=
  match g_cpus cfg !! 0 with
  | Some cs =>
      match run_event (H := sample_env MLFQ) cfg cs e with
      | Ok (t, thr) s => put cfg 0 s t thr
      | _ => cfg
      end
  | None => cfg
  end.
Lemma run0_step cfg cs e :
  g_cpus cfg !! 0 = Some cs → enabled cfg 0 cs e → rtc (step (H := sample_env MLFQ)) cfg (run0 cfg e).
Proof.
  intros Hc He. unfold run0. rewrite Hc.
  destruct (run_event cfg cs e) as [[t thr] s| | |] eqn:E; [|reflexivity..].
  apply rtc_once. by apply (run_event_step (H := sample_env MLFQ) cfg 0 cs e).
Qed.

Definition family_run (s : kernel) (k d : Z) : config := run0 (family s k d) ESched.
Definition family_wait (s : kernel) (k d : Z) : config := run0 (family_run s k d) EWait.
Definition cpu0 (cfg : config) : cpustate := default (mk_cpustate zero_cpu [] AtSched) (g_cpus cfg !! 0).

Lemma family_running s k d :
  g_cpus (family_run s k d) = [cpu0 (family_run s k d); mk_cpustate zero_cpu [] AtSched] ∧
  cs_ctl (cpu0 (family_run s k d)) = InProc 0 ∧ cs_held (cpu0 (family_run s k d)) = [].
Proof. split_and!; vm_compute; reflexivity. Qed.

Lemma family_steps s k d : rtc (step (H := sample_env MLFQ)) (family s k d) (family_wait s k d).
Proof.
  transitivity (family_run s k d);
    [apply (run0_step (family s k d) (mk_cpustate zero_cpu [] AtSched) ESched)|unfold family_wait].
  - reflexivity.
  - split; [done|]. intros c cs [-> _]%lookup_replicate _. by apply not_elem_of_nil.
  - generalize (family_running s k d). generalize (cpu0 (family_run s k d)) as cs0.
    generalize (family_run s k d) as cfg. intros cfg cs0 (E & Ec & Eh).
    apply (run0_step cfg cs0 EWait); [by rewrite E|].
    exists 0. split_and!; [exact Ec|exact Eh|]. intros c cs Hc _. rewrite E in Hc.
    destruct c as [|[|c]]; [| |discriminate Hc]; injection Hc as <-.
    + rewrite Eh. apply not_elem_of_nil.
    + apply not_elem_of_nil.
Qed.

Lemma family_waiting s k d (cs := cpu0 (family_wait s k d)) :
  g_cpus (family_wait s k d) !! 0 = Some cs ∧ cs_ctl cs = InWait 0 ∧ cs_held cs = [LK_ptable] ∧
  c_ncli (cs_cpu cs) = 1%Z ∧ c_intr (cs_cpu cs) = false ∧
  k_mem (g_mem (family_wait s k d)) = k_mem s ∧ k_freelist (g_mem (family_wait s k d)) = k_freelist s ∧
  filter (λ p, p_parent p = Some 0) (k_ptable (g_mem (family_wait s k d))) = [zombie k d].
Proof. split_and!; vm_compute; reflexivity. Qed.

Lemma family_memory s l k d T A :
  linked (H := sample_env MLFQ) → space (H := sample_env MLFQ) s l [k] d 5000 T A →
  reap_memory (H := sample_env MLFQ) (family_wait s k d) (cpu0 (family_wait s k d)).
Proof.
  intros Hl Hsp. generalize (family_waiting s k d). cbv zeta.
  generalize (cpu0 (family_wait s k d)) as cs. generalize (family_wait s k d) as cfg.
  intros cfg cs (_ & Ec' & Eh & En & Ei & Em & Ef & Ech) p i pp Ec Hpp Hpar Hst. split; [exact Hl|].
  assert (p = 0) as -> by congruence.
  assert (Hin : pp ∈ [zombie k d]).
  { rewrite <-Ech. apply list_elem_of_filter. split; [done|]. by eapply list_elem_of_lookup_2. }
  apply list_elem_of_singleton in Hin as ->. exists l, [], T, A.
  apply (space_view s); [exact Hsp|exact Em|exact Ef| |].
  - simpl. rewrite Eh. set_solver.
  - split; simpl; rewrite ?Eh, ?En, ?Ei; [done|done|]. apply NoDup_singleton.
Qed.

(** ** Claims *)

(** Slot [i] is at position [j] of [qu[k]], within the queue's current length. *)
Definition queued_at (s : kernel) (k j i : nat) : Prop :=
  ∃ row n, k_qu s !! k = Some row ∧ k_qindex s !! k = Some n ∧ (Z.of_nat j ≤ n)%Z ∧
    row !! j = Some (Some i).

Lemma queued_at_iff s qs k j i :
  qrep s qs → queued_at s k j i ↔ ∃ q, qs !! k = Some q ∧ q !! j = Some i.
Proof.
  intros Hr. split.
  - intros (row & n & Hrow & Hn & Hj & Hi).
    destruct (lookup_lt_is_Some_2 qs k) as [q Hq].
    { rewrite (qr_qs _ _ Hr), <-(qr_qu _ _ Hr). by eapply lookup_lt_Some. }
    exists q. split; [done|]. destruct (qr_row _ _ Hr _ _ Hq) as (row' & n' & ? & ? & [_ E Ht]).
    simplify_eq. assert (Hjq : j < length q) by lia.
    apply (f_equal (.!! j)) in Ht. rewrite lookup_take_lt, Hi, list_lookup_fmap in Ht by done.
    destruct (q !! j); simplify_eq/=; done.
  - intros (q & Hq & Hj). destruct (qr_row _ _ Hr _ _ Hq) as (row & n & ? & ? & [_ E Ht]).
    pose proof (lookup_lt_Some _ _ _ Hj) as Hlt. exists row, n. split_and!; [done|done|lia|].
    apply (f_equal (.!! j)) in Ht. rewrite lookup_take_lt, list_lookup_fmap, Hj in Ht by done. done.
Qed.

Section claims.
Context `{Env}.
Hypothesis mlfq : SCHEDULER = MLFQ.

(** C1.  Whatever the processors do, in whatever order, the system invariant holds:
    the queue arrays hold the RUNNABLE processes, pids are unique, every processor's
    interrupt nesting counts its locks, no lock is held twice, the RUNNING processes
    are the ones on processors, and no two forks fill one slot. *)
Theorem reachable_sinv cfg cfg' : initial cfg → rtc step cfg cfg' → sinv cfg'.
Proof. apply (reachable_inv mlfq). Qed.

(** C2.  In the MLFQ build, no event that is enabled runs into a panic, into undefined
    behaviour or into an endless loop.  An event is enabled when its processor is at the
    code of the event and no processor holds a spinlock that it takes ([acquire] would
    spin until it is free); [allocproc] needs a pid below 2^31-1.  The scan of [wait] is
    covered with the collecting of a ZOMBIE child, if the stack and the address space of
    the child are pages in use, as [fork] leaves them. *)
Theorem enabled_returns cfg cfg' c cs e :
  initial cfg → rtc step cfg cfg' → g_cpus cfg' !! c = Some cs → enabled cfg' c cs e →
  (e = EScan → reap_memory cfg' cs) →
  ∃ t thr s, run_event cfg' cs e = Ok (t, thr) s.
Proof.
  intros Hi Hr Hc He Hsc.
  destruct (event_ok mlfq cfg' c cs e) as (t & thr & s & E & _); eauto using reachable_inv.
Qed.

(** C3.  In the MLFQ build, a process is RUNNING exactly when some processor executes it,
    and no two processors execute the same process. *)
Theorem running_on_one_cpu cfg cfg' :
  initial cfg → rtc step cfg cfg' →
  (∀ i, is_running (g_mem cfg') i ↔ ∃ c, runs cfg' c i) ∧
  (∀ c c' i, runs cfg' c i → runs cfg' c' i → c = c').
Proof.
  intros Hi Hr. pose proof (reachable_inv mlfq _ _ Hi Hr) as Hs.
  split; [exact (si_run _ Hs)|]. intros c c' i Hc Hc'. by eapply (si_one _ Hs).
Qed.

(** C4.  A process is RUNNABLE exactly when the arrays [qu] and [q_index] hold it; it
    is then in the queue [cur_q] names, at one position, and in no other queue. *)
Theorem runnable_queued_once cfg cfg' i p :
  initial cfg → rtc step cfg cfg' → k_ptable (g_mem cfg') !! i = Some p →
  p_state p = RUNNABLE ↔
  ∃ j, queued_at (g_mem cfg') (Z.to_nat (p_cur_q p)) j i ∧
    ∀ k' j', queued_at (g_mem cfg') k' j' i → k' = Z.to_nat (p_cur_q p) ∧ j' = j.
Proof.
  intros Hi Hr Hp. destruct (si_mlfq _ (reachable_inv mlfq _ _ Hi Hr)) as [qs Hq].
  pose proof (mi_rep _ _ _ Hq) as Hrep. split.
  - intros Hst. destruct (mi_complete _ _ _ Hq i p Hp Hst) as (q & Hk & Hin); [by intros []|].
    apply list_elem_of_lookup_1 in Hin as [j Hj]. exists j. split.
    { apply (queued_at_iff _ qs); eauto. }
    intros k' j' (q' & Hk' & Hj')%(queued_at_iff _ qs); [|done].
    destruct (mi_sound _ _ _ Hq _ _ _ Hk' (list_elem_of_lookup_2 _ _ _ Hj')) as (p' & Hp' & _ & E).
    assert (p' = p) as -> by congruence. assert (k' = Z.to_nat (p_cur_q p)) as -> by lia.
    split; [done|]. assert (q' = q) as -> by congruence.
    eapply NoDup_lookup; [by eapply (mi_nodup _ _ _ Hq)|done..].
  - intros (j & (q & Hk & Hj)%(queued_at_iff _ qs) & _); [|done].
    destruct (mi_sound _ _ _ Hq _ _ _ Hk (list_elem_of_lookup_2 _ _ _ Hj)) as (p' & Hp' & Hst & _).
    congruence.
Qed.
End claims.

Lemma reachable_sinv_witness : sinv boot_step.
Proof.
  exact (reachable_sinv (H := sample_env MLFQ) eq_refl boot_config boot_step boot_initial boot_steps).
Defined.

Lemma enabled_returns_witness :
  ∃ s k d t thr s', let cfg := family_wait s k d in
    k_ptable (g_mem cfg) !! 1 = Some (zombie k d) ∧
    run_event (H := sample_env MLFQ) cfg (cpu0 cfg) EScan = Ok (t, thr) s'.
Proof.
  destruct machine_stack as (s & l & k & d & T & A & Hl & Hsp & _).
  destruct (family_waiting s k d) as (Hc & Ec & _).
  destruct (enabled_returns (H := sample_env MLFQ) eq_refl (family s k d) (family_wait s k d) 0
    (cpu0 (family_wait s k d)) EScan (family_initial s k d) (family_steps s k d) Hc)
    as (t & thr & s' & E).
  - exists 0. exact Ec.
  - intros _. exact (family_memory s l k d T A Hl Hsp).
  - exists s, k, d, t, thr, s'. split; [vm_compute; reflexivity|exact E].
Defined.

Lemma running_on_one_cpu_witness :
  (∀ i, is_running (g_mem boot_step) i ↔ ∃ c, runs boot_step c i) ∧
  (∀ c c' i, runs boot_step c i → runs boot_step c' i → c = c').
Proof.
  exact (running_on_one_cpu (H := sample_env MLFQ) eq_refl boot_config boot_step
    boot_initial boot_steps).
Defined.

Lemma runnable_queued_once_witness :
  ∃ j, queued_at boot_mem 0 j 0 ∧ ∀ k' j', queued_at boot_mem k' j' 0 → k' = 0 ∧ j' = j.
Proof.
  apply (runnable_queued_once (H := sample_env MLFQ) eq_refl boot_config boot_config 0 (sample_proc RUNNABLE 1 0 0)
    boot_initial (rtc_refl _ _) eq_refl). reflexivity.
Defined.
