(* ===== verification/ProcThm.v ===== *)
(** * ProcThm: the process operations under ptable.lock

    What exit, kill, the timer interrupt and allocproc do to the process table in every
    build, and what wakeup and set_priority do to it and the queues in the MLFQ build. *)

From stdpp Require Import base numbers gmap strings option list.
From S2P Require Import Prelude Format Machine Boot Mem Mlfq ProcCore Kalloc Vm Apic Proc Trap Scheduler.
From S2P Require Import MlfqInv MlfqOps MlfqBoot MlfqSched Reap System SystemInv BuildThm.
Local Open Scope kernel_scope.

Section any_build.
Context `{Env}.
Implicit Types s : kernel.

(** C25.  exit, in every build, from the acquisition of ptable.lock to its call of sched,
    of a process other than init: it becomes a ZOMBIE with its end time; every child it
    had now belongs to [init], no process has it as its parent, and the other parents
    are unchanged. *)
Theorem exit_leaves_no_orphans s cur r :
  cpu_ok s → k_held s = [] → sched_ok s → k_ptable s !! cur = Some r → k_initproc s ≠ Some cur →
  ∃ s' r', exit_enter cur s = Ok tt s' ∧ k_held s' = [LK_ptable] ∧
    k_ptable s' !! cur = Some r' ∧ p_state r' = ZOMBIE ∧ p_etime r' = i32 (k_ticks s) ∧
    ∀ j q, k_ptable s !! j = Some q → ∃ q', k_ptable s' !! j = Some q' ∧
      p_parent q' = reparented cur (k_initproc s) q ∧ p_parent q' ≠ Some cur.
Proof.
  intros Hok Hh Hso Hr Hinit.
  destruct (wakeup1_any _ (CH_proc <$> p_parent r) (locked_ok LK_ptable s Hso))
    as (s2 & E2 & Hso2 & Hp2 & Ht2).
  destruct (exit_children_parents cur slots s2 Hso2) as (s3 & E3 & Hso3 & Hp3 & H3).
  { apply NoDup_seq. }
  { intros i ?%elem_of_seq. lia. }
  pose proof (transitivity Hp2 Hp3) as Hps.
  assert (Hpar : ∀ j q, k_ptable s !! j = Some q → ∃ q', k_ptable s3 !! j = Some q' ∧
    p_parent q' = reparented cur (k_initproc s) q).
  { intros j q Hq. destruct (Ht2 j q Hq) as [t Hq2]. destruct (H3 j _ Hq2) as (q' & Hq' & E).
    exists q'. split; [done|]. rewrite E, decide_True.
    - unfold reparented. by rewrite woken_parent, (ps_only_initproc _ _ Hp2).
    - apply elem_of_seq. pose proof (lookup_lt_Some _ _ _ Hq) as Hlt.
      rewrite (so_len _ Hso) in Hlt. lia. }
  destruct (Hpar cur r Hr) as (r3 & Hr3 & Ep3).
  destruct (exit_enter_run s cur r s2 s3 r3) as (Hok3 & Hh3 & out & E); [done..|].
  pose proof (lookup_lt_Some _ _ _ Hr3) as Hlt.
  eexists _, (exited (i32 (k_ticks s)) r3). split_and!; [exact E|done| |done|done|].
  { simpl. by apply list_lookup_insert_eq. }
  intros j q Hq. destruct (Hpar j q Hq) as (q' & Hq' & Epar).
  assert (Hne : reparented cur (k_initproc s) q ≠ Some cur) by (unfold reparented; by case_decide).
  simpl. destruct (decide (j = cur)) as [->|Hj].
  - rewrite list_lookup_insert_eq by done. eexists. split; [done|]. simpl.
    assert (q' = r3) as -> by congruence. by rewrite Epar.
  - rewrite list_lookup_insert_ne by done. exists q'. by rewrite Epar.
Qed.

(** C29.  kill, in every build: -1 when no slot has the pid, and then nothing has changed
    but the processor's note of its interrupt flag; otherwise 0, and the first slot with
    the pid is marked killed and, if it was asleep, made RUNNABLE; no other slot changes. *)
Theorem kill_marks s pid :
  sched_ok s → cpu_ok s → LK_ptable ∉ k_held s →
  ∃ r s', kill pid s = Ok r s' ∧ sched_ok s' ∧ k_held s' = k_held s ∧
    match list_find (λ p, p_pid p = pid) (k_ptable s) with
    | Some (i, p) => r = 0%Z ∧ ∃ t, k_ptable s' = <[i := killed_proc t p]> (k_ptable s)
    | None => r = (-1)%Z ∧ s' = touched s
    end.
Proof.
  intros Hso Hok Hl. destruct (kill_any s pid Hso Hok Hl) as (r & s' & E & Hso' & Hc & Ht).
  exists r, s'. split_and!; [done|done|apply Hc|done].
Qed.



(** C27.  allocproc, in every build, while pids do not overflow: its critical section takes
    the lowest UNUSED slot, which becomes an EMBRYO with a pid that no slot has, and no
    other slot changes; with no UNUSED slot it returns NULL and nothing has changed but the
    processor's note of its interrupt flag. *)
Theorem allocproc_fresh s :
  sched_ok s → cpu_ok s → LK_ptable ∉ k_held s → (0 < k_nextpid s < 2 ^ 31 - 1)%Z →
  (∀ i p, k_ptable s !! i = Some p → (p_pid p < k_nextpid s)%Z) →
  ∃ r s', allocproc_enter s = Ok r s' ∧ sched_ok s' ∧ k_held s' = k_held s ∧
    match r with
    | None => s' = touched s ∧ ∀ i p, k_ptable s !! i = Some p → p_state p ≠ UNUSED
    | Some i => ∃ p pid, k_ptable s !! i = Some p ∧ p_state p = UNUSED ∧
        (∀ j q, j < i → k_ptable s !! j = Some q → p_state q ≠ UNUSED) ∧
        (∀ j q, k_ptable s !! j = Some q → p_pid q ≠ pid) ∧
        k_ptable s' = <[i := embryo pid p]> (k_ptable s) ∧ k_nextpid s' = (pid + 1)%Z
    end.
Proof.
  intros Hso Hok Hl Hn Hpid. pose proof (alloc_any s Hso Hok Hl Hn) as Hall.
  destruct (list_find _ (k_ptable s)) as [[i p]|] eqn:Ef.
  - destruct Hall as (s' & E & Hso' & Hc & Ept & En). exists (Some i), s'.
    split_and!; [done|done|apply Hc|]. apply list_find_Some in Ef as (Hp & Hst & Hfst).
    exists p, (k_nextpid s). split_and!; [done|done| | |done|done].
    + intros j q Hj Hq. by eapply Hfst.
    + intros j q Hq. pose proof (Hpid j q Hq). lia.
  - exists None, (touched s). split_and!; [done|by apply (sched_ok_same s)|done|done|]. intros i p Hp.
    apply list_find_None in Ef. rewrite Forall_forall in Ef. apply Ef.
    by eapply list_elem_of_lookup_2.
Qed.
End any_build.

(** ** The queues of the MLFQ build *)

Section claims.
Context `{Env}.
Hypothesis mlfq : SCHEDULER = MLFQ.
Implicit Types (s : kernel) (qs : list (list nat)).

(** C26.  wakeup in the MLFQ build: every process sleeping on the channel becomes RUNNABLE and stands
    in the queue of its level; every other process is untouched, the queues keep
    their invariant, and the locks are as before. *)
Theorem wakeup_wakes s qs ch :
  mlfq_inv none s qs → cpu_ok s → LK_ptable ∉ k_held s →
  ∃ s' qs', wakeup ch s = Ok tt s' ∧ mlfq_inv none s' qs' ∧ k_held s' = k_held s ∧
    ∀ i p, k_ptable s !! i = Some p →
      if decide (p_state p = SLEEPING ∧ p_chan p = Some ch)
      then (∃ p', k_ptable s' !! i = Some p' ∧ p_state p' = RUNNABLE) ∧
           ∃ q, qs' !! Z.to_nat (p_cur_q p) = Some q ∧ i ∈ q
      else k_ptable s' !! i = Some p.
Proof.
  intros Hi Hok Hl. destruct (wakeup_quiet mlfq s qs ch Hi Hok Hl) as (s1 & E & Hq & _ & Ht).
  destruct (qt_inv _ _ Hq) as [qs' Hi']. exists (unlock s s1), qs'.
  split_and!; [done|done|by apply Hq|]. intros i p Hp. destruct (Ht i p Hp) as [t Hp'].
  unfold woken in Hp'. destruct (decide _) as [Hd|Hd]; [|exact Hp'].
  split; [by eexists|]. destruct (mi_complete _ _ _ Hi' i _ Hp' eq_refl) as (q & ? & ?); [by intros []|eauto].
Qed.

(** set_priority returns 0 whether or not a slot has the pid; the first slot
    that has it gets the priority, and no other field of the table changes. *)
Theorem set_priority_sets s qs new pid :
  mlfq_inv none s qs → cpu_ok s → LK_ptable ∉ k_held s →
  ∃ s' qs', set_priority new pid s = Ok 0%Z s' ∧ mlfq_inv none s' qs' ∧ k_held s' = k_held s ∧
    k_ptable s' = match list_find (λ p, p_pid p = pid) (k_ptable s) with
                  | Some (i, p) => <[i := set_p_priority new p]> (k_ptable s)
                  | None => k_ptable s
                  end.
Proof.
  intros Hi Hok Hl. destruct (set_priority_quiet mlfq s qs new pid Hi Hok Hl) as (s' & E & Hq & Ht).
  destruct (qt_inv _ _ Hq) as [qs' Hi']. exists s', qs'. split_and!; [done|done|by apply Hq|done].
Qed.
End claims.

(** ** Instances *)

Local Lemma env_mlfq : @SCHEDULER (sample_env MLFQ) = MLFQ.
Proof. done. Qed.
Local Lemma busy_unlocked : LK_ptable ∉ k_held busy.
Proof. apply not_elem_of_nil. Qed.

(** Slot 1 runs, has slot 2 as a child, and slot 0 is [init]. *)
Definition leaving : kernel :=
  set_k_initproc (Some 0) (sample 50
    [sample_proc RUNNABLE 1 0 0; set_p_parent (Some 0) (sample_proc RUNNING 2 0 0);
     set_p_parent (Some 1) (sample_proc ZOMBIE 3 0 0)] [[0]; []; []; []; []]).

(** The default build. *)
Lemma rr_ok s : length (k_ptable s) = NPROC → @sched_ok (sample_env RR) s.
Proof. intros Hl. split; [exact Hl|discriminate]. Qed.

Lemma exit_leaves_no_orphans_witness :
  ∃ s', @exit_enter (sample_env RR) 1 leaving = Ok tt s' ∧
    ∃ q', k_ptable s' !! 2 = Some q' ∧ p_parent q' = Some 0.
Proof.
  destruct (@exit_leaves_no_orphans (sample_env RR) leaving 1
    (set_p_parent (Some 0) (sample_proc RUNNING 2 0 0))) as (s' & r' & E & _ & _ & _ & _ & H).
  - split; [done|done|constructor].
  - reflexivity.
  - apply rr_ok. reflexivity.
  - reflexivity.
  - discriminate.
  - exists s'. split; [exact E|].
    destruct (H 2 (set_p_parent (Some 1) (sample_proc ZOMBIE 3 0 0))) as (q' & Hq & Ep & _);
      [reflexivity|]. exists q'. split; [exact Hq|]. exact Ep.
Defined.

Lemma wakeup_wakes_witness :
  ∃ s' (qs' : list (list nat)), @wakeup (sample_env MLFQ) CH_ticks busy = Ok tt s' ∧
    ∃ q, qs' !! 1 = Some q ∧ 2 ∈ q.
Proof.
  destruct (@wakeup_wakes (sample_env MLFQ) env_mlfq busy busy_queues CH_ticks
    busy_inv busy_cpu busy_unlocked) as (s' & qs' & E & _ & _ & H).
  exists s', qs'. split; [exact E|].
  specialize (H 2 (set_p_chan (Some CH_ticks) (sample_proc SLEEPING 3 1 0)) eq_refl).
  rewrite decide_True in H by done. exact (proj2 H).
Defined.

Lemma kill_marks_witness :
  ∃ s', @kill (sample_env RR) 9 busy = Ok (-1)%Z s' ∧ s' = touched busy.
Proof.
  destruct (@kill_marks (sample_env RR) busy 9 (rr_ok busy eq_refl) busy_cpu busy_unlocked)
    as (r & s' & E & _ & _ & H).
  replace (list_find _ (k_ptable busy)) with (@None (nat * proc)) in H by (vm_compute; reflexivity).
  destruct H as [-> H]. exists s'. split; [exact E|exact H].
Defined.


Lemma set_priority_sets_witness :
  ∃ s', @set_priority (sample_env MLFQ) 10 9 busy = Ok 0%Z s' ∧ k_ptable s' = k_ptable busy.
Proof.
  destruct (@set_priority_sets (sample_env MLFQ) env_mlfq busy busy_queues 10 9
    busy_inv busy_cpu busy_unlocked) as (s' & qs' & E & _ & _ & H).
  replace (list_find _ (k_ptable busy)) with (@None (nat * proc)) in H by (vm_compute; reflexivity).
  exists s'. split; [exact E|exact H].
Defined.

Lemma busy_pids : Forall (λ p, (p_pid p < k_nextpid busy)%Z) (k_ptable busy).
Proof. apply (bool_decide_unpack _). vm_compute. exact I. Qed.

Lemma allocproc_fresh_witness :
  (∃ s', allocproc_enter busy = Ok (Some 4) s') ∧
  ∃ r s', allocproc_enter busy = Ok r s'.
Proof.
  split; [eexists; vm_compute; reflexivity|].
  destruct (@allocproc_fresh (sample_env RR) busy (rr_ok busy eq_refl) busy_cpu busy_unlocked)
    as (r & s' & E & _); [done| |exists r, s'; exact E].
  intros i p Hp. pose proof busy_pids as Hf. rewrite Forall_forall in Hf. apply Hf.
  by eapply list_elem_of_lookup_2.
Defined.
