(* ===== verification/ForkThm.v ===== *)
(** * ForkThm: fork (proc.c)

    [fork] from end to end, in the MLFQ build: the slot and the pid of [allocproc], the
    kernel stack, the copy of the address space, the open files and the working
    directory with their reference counts, and the queue; and the three ways it fails. *)

From stdpp Require Import base numbers gmap strings option list.
From S2P Require Import Prelude Format Machine Boot Mem Mlfq ProcCore Kalloc Vm VmThm UvmThm CopyThm SpaceThm.
From S2P Require Import Inode File Proc MlfqInv MlfqOps MlfqBoot MlfqSched System SystemInv.
Local Open Scope kernel_scope.
Local Open Scope Z_scope.

(** ** One slot of the process table *)

(** [s] with slot [i] set to [p]. *)
Definition put (i : nat) (p : proc) (s : kernel) : kernel := set_k_ptable (<[i := p]> (k_ptable s)) s.

Lemma put_id i p s : k_ptable s !! i = Some p → put i p s = s.
Proof. intros Hp. unfold put. rewrite list_insert_id by done. by destruct s. Qed.

Section slot.
Context (i : nat) (s : kernel) (Hi : (i < length (k_ptable s))%nat).

Lemma upd_put p f : upd_proc i f (put i p s) = Ok tt (put i (f p) s).
Proof using Hi.
  unfold upd_proc, put. cbn [k_ptable set_k_ptable]. rewrite list_lookup_insert_eq by done.
  cbn [k_ptable set_k_ptable]. by rewrite list_insert_insert_eq.
Qed.
Lemma at_put p : proc_at i (put i p s) = Ok p (put i p s).
Proof using Hi. apply proc_at_eq. unfold put. cbn [k_ptable set_k_ptable]. by apply list_lookup_insert_eq. Qed.
Lemma at_other p j q : j ≠ i → k_ptable s !! j = Some q → proc_at j (put i p s) = Ok q (put i p s).
Proof using Type.
  intros Hj Hq. apply proc_at_eq. unfold put. cbn [k_ptable set_k_ptable].
  by rewrite list_lookup_insert_ne by done.
Qed.
End slot.

(** Locks and memory next to a slot. *)
Lemma acquire_put i p s l : cpu_ok s → l ∉ k_held s → acquire l (put i p s) = Ok tt (put i p (locked l s)).
Proof. intros Hok Hl. rewrite acquire_eq; [done|by apply (cpu_ok_same s)|done]. Qed.
Lemma release_put i p s l :
  cpu_ok s → l ∉ k_held s → release l (put i p (locked l s)) = Ok tt (put i p (touched s)).
Proof.
  intros Hok Hl. rewrite (release_top l _ (k_held s)); [by destruct s| |done].
  apply (cpu_ok_same (locked l s)); [by apply cpu_ok_locked|done..].
Qed.
Lemma store32_put i p s a v :
  mapped (k_mem s) a 4 → store32 a v (put i p s) = Ok tt (put i p (write a (bytes32 v) s)).
Proof. intros Hm. by rewrite store32_eq. Qed.

(** ** Address spaces next to other state *)

Section env.
Context `{Env}.

Lemma changed_touched P s : changed P s (touched s).
Proof. split; [done|done| |done|done|by destruct s]. intros Hok. by apply cpu_ok_touched. Qed.
Lemma owned_touched s l P : owned s l P → owned (touched s) l P.
Proof. intros Ho. apply (owned_same s); [done..|]. by apply cpu_ok_touched, Ho. Qed.

(** ** The rest of [allocproc] *)

Context (mlfq : SCHEDULER = MLFQ).

(** What [allocproc] leaves alone, and what it sets. *)
Record newborn (k : Z) (r r' : proc) : Prop := {
  nb_state : p_state r' = p_state r;
  nb_pid : p_pid r' = p_pid r;
  nb_kstack : p_kstack r' = k;
  nb_ofile : p_ofile r' = p_ofile r;
  nb_cur_q : p_cur_q r' = 0;
  nb_q : length (p_q r') = 5%nat;
}.

Ltac slot_step Hi := erewrite bind_Ok by (apply upd_put; exact Hi); cbv beta.

Definition zero5 (q : list Z) : list Z :=
  <[4%nat := 0]> (<[3%nat := 0]> (<[2%nat := 0]> (<[1%nat := 0]> (<[0%nat := 0]> q)))).
Lemma clear_queue_counts i s r :
  (i < length (k_ptable s))%nat →
  for_each (seq 0 5) (λ k, upd_proc i (λ p, set_p_q (<[k := 0]> (p_q p)) p)) (put i r s) =
    Ok tt (put i (set_p_q (zero5 (p_q r)) r) s).
Proof. intros Hi. cbn [seq for_each]. do 5 slot_step Hi. reflexivity. Qed.

Lemma allocproc_init_run s k l P i r :
  owned s (k :: l) P → k_ptable s !! i = Some r → LK_ticks ∉ k_held s → length (p_q r) = 5%nat →
  ∃ s1 r', allocproc_init i s = Ok (Some i) (put i r' s1) ∧ changed [k] s s1 ∧ owned s1 l (k :: P) ∧
    newborn k r r'.
Proof using mlfq.
  intros Ho Hr Hl Hq. destruct (owned_kalloc s k l P Ho) as (s1 & E1 & Ho1 & Hc1 & _).
  pose proof (changed_ptable _ _ _ Hc1) as Ept. pose proof (lookup_lt_Some _ _ _ Hr) as Hlt.
  assert (Hi : (i < length (k_ptable s1))%nat) by by rewrite Ept.
  assert (E1' : kalloc s = Ok k (put i r s1)) by (rewrite put_id; [done|by rewrite Ept]).
  destruct (ow_page _ _ _ Ho1 k) as [(Hkr & Hkal & _) Hkm]; [by left|].
  set (a := k + KSTACKSIZE - sizeof_trapframe - 4).
  assert (Ha : k ≤ a ∧ a + 4 ≤ k + PGSIZE) by (unfold a, KSTACKSIZE, sizeof_trapframe, PGSIZE; lia).
  set (s2 := write a (bytes32 TRAPRET) s1).
  assert (Hc2 : changed [k] s1 s2).
  { apply changed_write; cbn [length bytes32]; [lia|lia|]. intros x Hx. apply Hkm. lia. }
  assert (Ho2 : owned s2 l (k :: P)).
  { apply (owned_changed s1 s2 l _ [k] Ho1 Hc2); [done|]. intros q ->%list_elem_of_singleton. by left. }
  assert (Hi2 : (i < length (k_ptable s2))%nat) by done.
  assert (Hl2 : LK_ticks ∉ k_held s2) by (rewrite (ch_held _ _ _ Hc2), (ch_held _ _ _ Hc1); done).
  pose proof (ow_cpu _ _ _ Ho2) as Hok2.
  assert (Hi3 : (i < length (k_ptable (touched s2)))%nat) by done.
  assert (Hlk : (i < length (k_ptable (locked LK_ticks s2)))%nat) by done.
  eexists (touched s2), _. split_and!; [| |by apply owned_touched|].
  - unfold allocproc_init. erewrite bind_Ok by exact E1'.
    slot_step Hi. replace (k =? 0) with false by lia. slot_step Hi.
    erewrite bind_Ok. 2:{ apply store32_put. intros x Hx. apply Hkm. lia. }
    do 3 slot_step Hi2. erewrite bind_Ok by (apply acquire_put; done). erewrite bind_Ok by reflexivity.
    slot_step Hlk. erewrite bind_Ok by (apply release_put; done). do 5 slot_step Hi3.
    erewrite bind_Ok; [reflexivity|]. unfold is_sched. rewrite bool_decide_eq_true_2 by done. cbn [when].
    slot_step Hi3. erewrite bind_Ok by (apply clear_queue_counts; exact Hi3). slot_step Hi3.
    rewrite upd_put by exact Hi3. reflexivity.
  - eapply changed_trans; [eapply changed_mono; [apply list_subseteq_nil|exact Hc1]|].
    eapply changed_trans; [exact Hc2|apply changed_touched].
  - split; [reflexivity..|]. unfold zero5. cbn. by rewrite !length_insert.
Qed.

(** ** Open files and the working directory *)

(** The file [f] has one reference more. *)
Definition ref_more (n : Z) (fp : file) : file := set_f_ref (f_ref fp + n) fp.

Lemma filedup_run i p s f fp :
  cpu_ok s → LK_ftable ∉ k_held s → k_ftable s !! f = Some fp → 1 ≤ f_ref fp →
  filedup f (put i p s) =
    Ok f (put i p (set_k_ftable (<[f := ref_more 1 fp]> (k_ftable s)) (touched s))).
Proof.
  intros Hok Hl Hf Hr. unfold filedup. erewrite bind_Ok by (apply acquire_put; done).
  rewrite (bind_Ok (file_at f) _ _ fp (put i p (locked LK_ftable s))).
  2:{ unfold file_at. cbn [k_ftable put set_k_ptable locked set_k_held set_k_cpu]. by rewrite Hf. }
  replace (f_ref fp <? 1) with false by lia.
  rewrite (bind_Ok (upd_file f _) _ _ tt
    (put i p (locked LK_ftable (set_k_ftable (<[f := ref_more 1 fp]> (k_ftable s)) s)))).
  2:{ unfold upd_file. cbn [k_ftable put set_k_ptable locked set_k_held set_k_cpu]. by rewrite Hf. }
  erewrite bind_Ok; [reflexivity|].
  rewrite (release_put i p (set_k_ftable (<[f := ref_more 1 fp]> (k_ftable s)) s)); [done| |done].
  by apply (cpu_ok_same s).
Qed.

Definition dup_fd (cur np i : nat) : K unit :=
  let! cp := proc_at cur in
  let! o := arr_get (p_ofile cp) (Z.of_nat i) in
  match o with
  | None => ret tt
  | Some f =>
      let! f := filedup f in
      upd_proc np (λ p, set_p_ofile (<[i := Some f]> (p_ofile p)) p)
  end.

(** How often [f] is open in a table. *)
Definition uses (f : nat) (o : list (option nat)) : Z := Z.of_nat (length (filter (λ x, x = Some f) o)).
(** Every open file is in use. *)
Definition files_ok (s : kernel) (o : list (option nat)) : Prop :=
  ∀ f, Some f ∈ o → ∃ fp, k_ftable s !! f = Some fp ∧ 1 ≤ f_ref fp.

(** One descriptor. *)
Lemma dup_one cur np cp k x s r :
  cpu_ok s → LK_ftable ∉ k_held s → (np < length (k_ptable s))%nat → cur ≠ np →
  k_ptable s !! cur = Some cp → p_ofile cp !! k = Some x → files_ok s (p_ofile cp) →
  length (p_ofile r) = length (p_ofile cp) →
  ∃ c ft o, dup_fd cur np k (put np r s) =
      Ok tt (put np (set_p_ofile o r) (set_k_ftable ft (set_k_cpu c s))) ∧
    cpu_ok (set_k_ftable ft (set_k_cpu c s)) ∧ length o = length (p_ofile cp) ∧
    (∀ j, o !! j = if decide (j = k) then match x with Some f => Some (Some f) | None => p_ofile r !! j end
                   else p_ofile r !! j) ∧
    ∀ f fp, k_ftable s !! f = Some fp → ft !! f = Some (ref_more (uses f [x]) fp).
Proof.
  intros Hok Hl Hnp Hne Hcp Hx Hfs Hlen. unfold dup_fd. erewrite bind_Ok by (apply at_other; done).
  erewrite bind_Ok by (apply arr_get_eq; exact Hx). pose proof (lookup_lt_Some _ _ _ Hx) as Hk.
  destruct x as [f|].
  - destruct (Hfs f) as (fp & Hf & Hr); [by eapply list_elem_of_lookup_2|].
    erewrite bind_Ok by (by apply filedup_run).
    eexists (k_cpu (touched s)), (<[f := ref_more 1 fp]> (k_ftable s)), (<[k := Some f]> (p_ofile r)). split_and!.
    + rewrite upd_put by done. reflexivity.
    + apply (cpu_ok_same (touched s)); [by apply cpu_ok_touched|done..].
    + by rewrite length_insert.
    + intros j. case_decide as Hj; [subst j; apply list_lookup_insert_eq; lia|by apply list_lookup_insert_ne].
    + intros g gp Hg. unfold uses. destruct (decide (g = f)) as [->|Hgf].
      * assert (gp = fp) as -> by congruence.
        rewrite list_lookup_insert_eq by by eapply lookup_lt_Some. by rewrite filter_cons_True.
      * rewrite list_lookup_insert_ne, filter_cons_False, Hg by congruence. unfold ref_more. cbn.
        rewrite Z.add_0_r. by destruct gp.
  - exists (k_cpu s), (k_ftable s), (p_ofile r). split_and!.
    + unfold ret, put. destruct s, r; done.
    + by apply (cpu_ok_same s).
    + done.
    + intros j. by case_decide.
    + intros f fp Hf. unfold uses, ref_more. rewrite filter_cons_False by done. cbn.
      rewrite Z.add_0_r, Hf. by destruct fp.
Qed.

Lemma ref_more_more a b fp : ref_more a (ref_more b fp) = ref_more (b + a) fp.
Proof. unfold ref_more. destruct fp as [t r]. cbn. by rewrite Z.add_assoc. Qed.
Lemma uses_cons f x o : uses f (x :: o) = uses f [x] + uses f o.
Proof. unfold uses. change (x :: o) with ([x] ++ o). rewrite filter_app, length_app. lia. Qed.

Lemma dup_loop cur np cp n : ∀ k s r,
  cpu_ok s → LK_ftable ∉ k_held s → (np < length (k_ptable s))%nat → cur ≠ np →
  k_ptable s !! cur = Some cp → (k + n = length (p_ofile cp))%nat → files_ok s (p_ofile cp) →
  length (p_ofile r) = length (p_ofile cp) →
  ∃ c ft o, for_each (seq k n) (dup_fd cur np) (put np r s) =
      Ok tt (put np (set_p_ofile o r) (set_k_ftable ft (set_k_cpu c s))) ∧
    cpu_ok (set_k_ftable ft (set_k_cpu c s)) ∧ length o = length (p_ofile cp) ∧
    (∀ j, o !! j = if decide (k ≤ j)%nat then
        match p_ofile cp !! j with Some (Some f) => Some (Some f) | _ => p_ofile r !! j end
      else p_ofile r !! j) ∧
    ∀ f fp, k_ftable s !! f = Some fp → ft !! f = Some (ref_more (uses f (drop k (p_ofile cp))) fp).
Proof.
  induction n as [|n IH]; intros k s r Hok Hl Hnp Hne Hcp Hk Hfs Hlen.
  - exists (k_cpu s), (k_ftable s), (p_ofile r). split_and!.
    + cbn [seq for_each]. unfold ret, put. destruct s, r; done.
    + by apply (cpu_ok_same s).
    + done.
    + intros j. case_decide; [|done]. rewrite (lookup_ge_None_2 (p_ofile cp)) by lia. done.
    + intros f fp Hf. rewrite drop_ge by lia. unfold ref_more, uses. cbn. rewrite Z.add_0_r.
      rewrite Hf. by destruct fp.
  - destruct (lookup_lt_is_Some_2 (p_ofile cp) k) as [x Hx]; [lia|]. cbn [seq for_each].
    destruct (dup_one cur np cp k x s r) as (c1 & ft1 & o1 & E1 & Hok1 & Hl1 & Ho1 & Hf1); [done..|].
    destruct (IH (S k) (set_k_ftable ft1 (set_k_cpu c1 s)) (set_p_ofile o1 r))
      as (c & ft & o & E & Hok' & Hlo & Ho & Hf); [done..|lia| |done|].
    { intros f Hin. destruct (Hfs f Hin) as (fp & Hfp & Hr). exists (ref_more (uses f [x]) fp).
      split; [by apply Hf1|]. unfold ref_more, uses. cbn [f_ref set_f_ref]. lia. }
    exists c, ft, o. split_and!; [|done|done| |].
    + by erewrite bind_Ok by exact E1.
    + intros j. rewrite Ho. cbn [p_ofile set_p_ofile]. rewrite Ho1.
      destruct (decide (j = k)) as [->|Hjk].
      * rewrite decide_False by lia. rewrite decide_True by lia. rewrite Hx. by destruct x.
      * repeat case_decide; try lia; done.
    + intros f fp Hfp. rewrite (Hf f _ (Hf1 f fp Hfp)), ref_more_more.
      by rewrite (drop_S _ _ _ Hx), (uses_cons f x (drop (S k) _)).
Qed.

(** The reference to the working directory. *)
Lemma idup_run i p s ci ip :
  cpu_ok s → LK_icache ∉ k_held s → k_icache s !! ci = Some ip →
  idup (Some ci) (put i p s) =
    Ok (Some ci) (put i p (set_k_icache (<[ci := set_i_ref (i_ref ip + 1) ip]> (k_icache s)) (touched s))).
Proof.
  intros Hok Hl Hc. unfold idup. erewrite bind_Ok by (apply acquire_put; done).
  erewrite bind_Ok by reflexivity.
  set (s1 := set_k_icache (<[ci := set_i_ref (i_ref ip + 1) ip]> (k_icache s)) s).
  rewrite (bind_Ok (upd_inode ci _) _ _ tt (put i p (locked LK_icache s1))).
  2:{ unfold upd_inode. cbn [k_icache put set_k_ptable locked set_k_held set_k_cpu]. by rewrite Hc. }
  erewrite bind_Ok; [reflexivity|]. rewrite (release_put i p s1); [done| |done]. by apply (cpu_ok_same s).
Qed.

(** The slot of an embryo may change. *)
Lemma embryo_inv s s' qs np r r' :
  mlfq_inv none (put np r s) qs → (np < length (k_ptable s))%nat → p_state r = EMBRYO →
  p_state r' ≠ RUNNABLE → proc_wf (k_nextpid s) r' → p_pid r' = p_pid r →
  k_ptable s' = k_ptable s → k_qu s' = k_qu s → k_qindex s' = k_qindex s → k_nextpid s' = k_nextpid s →
  mlfq_inv none (put np r' s') qs.
Proof.
  intros Hi Hnp Hst Hst' Hwf Hpid E1 E2 E3 E4.
  assert (Hr : k_ptable (put np r s) !! np = Some r) by by apply list_lookup_insert_eq.
  apply (mlfq_inv_same none (put np r' (put np r s))); [|apply (mlfq_inv_drop none _ qs np r')].
  - split; [|exact E2|exact E3|exact E4]. cbn [k_ptable put set_k_ptable]. rewrite E1.
    symmetry. apply list_insert_insert_eq.
  - apply (mlfq_inv_keep_pid none _ qs np r r' Hi Hr); [|exact Hwf|exact Hpid].
    apply (unqueued_state none _ _ _ _ Hi Hr). by rewrite Hst.
  - cbn [k_ptable set_k_ptable]. apply list_lookup_insert_eq. cbn [k_ptable put set_k_ptable].
    by rewrite length_insert.
  - done.
Qed.

(** ** The child *)

(** [c] is a child of [cur]. *)
Record child_of (cur : nat) (cp : proc) (pid d k : Z) (c : proc) : Prop := {
  ch_state : p_state c = RUNNABLE;
  ch_pid : p_pid c = pid;
  ch_parent : p_parent c = Some cur;
  ch_sz : p_sz c = p_sz cp;
  ch_pgdir : p_pgdir c = d;
  ch_kstack : p_kstack c = k;
  ch_tf : p_tf c = set_tf_eax 0 (p_tf cp);
  ch_cwd : p_cwd c = p_cwd cp;
  ch_ofile : p_ofile c = p_ofile cp;
}.
(** The references that the child adds. *)
Record refs_added (cp : proc) (s s' : kernel) : Prop := {
  ra_file f fp : k_ftable s !! f = Some fp → k_ftable s' !! f = Some (ref_more (uses f (p_ofile cp)) fp);
  ra_cwd ci ip : p_cwd cp = Some ci → k_icache s !! ci = Some ip →
    k_icache s' !! ci = Some (set_i_ref (i_ref ip + 1) ip);
}.

Definition fork_child (cur np : nat) : K Z :=
  let! cp := proc_at cur in
  upd_proc np (set_p_sz (p_sz cp)) ;;
  upd_proc np (set_p_parent (Some cur)) ;;
  upd_proc np (set_p_tf (p_tf cp)) ;;
  upd_proc np (λ p, set_p_tf (set_tf_eax 0 (p_tf p)) p) ;;
  for_each (seq 0 NOFILE) (dup_fd cur np) ;;
  let! cp := proc_at cur in
  let! cwd := idup (p_cwd cp) in
  upd_proc np (set_p_cwd cwd) ;;
  let! cp := proc_at cur in
  upd_proc np (λ p, set_p_name (safestrcpy_l (p_name p) (p_name cp) 16) p) ;;
  let! npp := proc_at np in
  let pid := p_pid npp in
  fork_ready np ;;
  ret pid.

Lemma fork_child_run s qs cur np cp r ci ip :
  cpu_ok s → k_held s = [] → (np < length (k_ptable s))%nat → cur ≠ np → k_ptable s !! cur = Some cp →
  files_ok s (p_ofile cp) → length (p_ofile cp) = NOFILE → p_ofile r = replicate NOFILE None →
  p_cwd cp = Some ci → k_icache s !! ci = Some ip →
  mlfq_inv none (put np r s) qs → p_state r = EMBRYO → p_kstack r ≠ 0 → p_pgdir r ≠ 0 →
  ∃ s' c, fork_child cur np (put np r s) = Ok (p_pid r) s' ∧ k_ptable s' = <[np := c]> (k_ptable s) ∧
    child_of cur cp (p_pid r) (p_pgdir r) (p_kstack r) c ∧ refs_added cp s s' ∧ (∃ qs', mlfq_inv none s' qs') ∧
    cpu_ok s' ∧ k_held s' = [] ∧ k_mem s' = k_mem s ∧ k_freelist s' = k_freelist s.
Proof using mlfq.
  intros Hok Hh Hnp Hne Hcp Hfs Hlc Hlr Hcwd Hip Hi Hst Hk Hd.
  assert (Hnl : ∀ l, l ∉ k_held s) by (intros l; rewrite Hh; apply not_elem_of_nil).
  set (r1 := set_p_tf (set_tf_eax 0 (p_tf cp)) (set_p_tf (p_tf cp) (set_p_parent (Some cur) (set_p_sz (p_sz cp) r)))).
  destruct (dup_loop cur np cp NOFILE 0 s r1) as (c & ft & o & E & Hok1 & Hlo & Ho & Hf);
    [done|done|done|done|done|done|done| |].
  { change (p_ofile r1) with (p_ofile r). by rewrite Hlr, Hlc. }
  set (s1 := set_k_ftable ft (set_k_cpu c s)) in *.
  set (s2 := set_k_icache (<[ci := set_i_ref (i_ref ip + 1) ip]> (k_icache s)) (touched s1)).
  set (r2 := set_p_name (safestrcpy_l (p_name r) (p_name cp) 16) (set_p_cwd (Some ci) (set_p_ofile o r1))).
  assert (Hok2 : cpu_ok s2) by (apply (cpu_ok_same (touched s1)); [by apply cpu_ok_touched|done..]).
  assert (Hnp2 : (np < length (k_ptable s2))%nat) by done.
  assert (Hr2 : k_ptable (put np r2 s2) !! np = Some r2) by by apply list_lookup_insert_eq.
  assert (Hwf : proc_wf (k_nextpid s) r).
  { apply (mi_wf _ _ _ Hi np). by apply list_lookup_insert_eq. }
  assert (Hi2 : mlfq_inv none (put np r2 s2) qs).
  { apply (embryo_inv s s2 qs np r r2); try done.
    - change (p_state r2) with (p_state r). by rewrite Hst.
    - destruct Hwf as [W1 W2 W3 W4 W5]. split; [exact W1|exact W2|exact W3|exact W4|].
      change (p_state r2) with (p_state r). rewrite Hst. set_solver. }
  destruct (fork_ready_eq mlfq (put np r2 s2) qs np r2) as (s' & t & E' & Hi' & Hok' & Hh' & _ & _ & Ept & Hso);
    [done|by apply (cpu_ok_same s2)|apply Hnl|done|done|done|done|].
  exists s', (set_p_qtime t (set_p_state RUNNABLE r2)). split_and!.
  - unfold fork_child. erewrite bind_Ok by (apply at_other; done). do 4 slot_step Hnp.
    erewrite bind_Ok by exact E. erewrite bind_Ok by (apply at_other; done). rewrite Hcwd.
    erewrite bind_Ok by (apply (idup_run np _ s1 ci ip); [done|apply Hnl|done]).
    slot_step Hnp2. erewrite bind_Ok by (apply at_other; done). slot_step Hnp2.
    erewrite bind_Ok by (apply at_put; done). by erewrite bind_Ok by exact E'.
  - rewrite Ept. cbn [k_ptable put set_k_ptable]. apply list_insert_insert_eq.
  - split; try done. change (o = p_ofile cp). apply list_eq. intros fd. rewrite Ho, decide_True by lia.
    change (p_ofile r1) with (p_ofile r). rewrite Hlr.
    destruct (p_ofile cp !! fd) as [[f|]|] eqn:Hfd; [done| |].
    + apply lookup_replicate_2. rewrite <-Hlc. by eapply lookup_lt_Some.
    + apply lookup_ge_None_2. rewrite length_replicate, <-Hlc. by apply lookup_ge_None_1.
  - rewrite Hso. split.
    + intros f fp Hfp. rewrite <-(drop_0 (p_ofile cp)) at 1. by apply Hf.
    + intros ci' ip' Hci Hip'. assert (ci' = ci) as -> by congruence. assert (ip' = ip) as -> by congruence.
      apply list_lookup_insert_eq. by eapply lookup_lt_Some.
  - done.
  - done.
  - by rewrite Hh'.
  - by rewrite Hso.
  - by rewrite Hso.
Qed.

(** ** After [allocproc] *)

Definition fork_rest (cur np : nat) : K Z :=
  let! cp := proc_at cur in
  let! d := copyuvm (p_pgdir cp) (p_sz cp) in
  upd_proc np (set_p_pgdir d) ;;
  if d =? 0 then
    let! npp := proc_at np in
    kfree (p_kstack npp) ;;
    upd_proc np (set_p_kstack 0) ;;
    upd_proc np (set_p_state UNUSED) ;;
    ret (-1)
  else fork_child cur np.

Lemma changed_sched P s s' :
  changed P s s' → k_qu s' = k_qu s ∧ k_qindex s' = k_qindex s ∧ k_nextpid s' = k_nextpid s ∧
    k_ftable s' = k_ftable s ∧ k_icache s' = k_icache s.
Proof. intros Hc. by rewrite (ch_rest _ _ _ Hc). Qed.

(** A page of [Q] goes back to the free list. *)
Lemma space_give s s' k l Q pgdir sz T A :
  space s l (k :: Q) pgdir sz T A → changed [k] s s' →
  vm s' (k :: l) (frames A 0 (npages sz) ++ Q) pgdir T A →
  space s' (k :: l) Q pgdir sz T A ∧
  ∀ va, 0 ≤ va < sz → mmu (k_mem s') pgdir va = mmu (k_mem s) pgdir va.
Proof.
  intros Hsp Hc Hvm. pose proof Hsp as [Hvm0 H2 H3 H4 H5 H6].
  pose proof (vm_own _ _ _ _ _ _ Hvm0) as Ho0. pose proof (vm_own _ _ _ _ _ _ Hvm) as Ho.
  assert (Hkal : ∀ x, x ∈ [k] → x mod PGSIZE = 0).
  { intros x ->%list_elem_of_singleton. eapply free_aligned; [exact Ho|by left]. }
  assert (Hf : ∀ f, f ∈ frames A 0 (npages sz) → (f ∉ [k]) ∧ f mod PGSIZE = 0).
  { intros f Hf. split.
    - intros ->%list_elem_of_singleton. pose proof (ow_nodup _ _ _ Ho) as [Hn _]%NoDup_cons.
      apply Hn. rewrite !elem_of_app. auto.
    - eapply owned_aligned; [exact Ho|]. rewrite !elem_of_app. auto. }
  split.
  - split; [done|done|done|done|done|]. by apply (bytes_changed [k] s s').
  - intros va Hva. eapply (mmu_changed [k]); [exact Hsp|exact Hvm|done|done| |done|done]. intros f Hin. by apply Hf.
Qed.

(** The parent and the embryo, before the address space is copied. *)
Record forking (s : kernel) (qs : list (list nat)) (cur np : nat) (cp r : proc) (k : Z) : Prop := {
  fk_cpu : cpu_ok s;
  fk_held : k_held s = [];
  fk_np : (np < length (k_ptable s))%nat;
  fk_ne : cur ≠ np;
  fk_cur : k_ptable s !! cur = Some cp;
  fk_files : files_ok s (p_ofile cp);
  fk_ofile : length (p_ofile cp) = NOFILE ∧ p_ofile r = replicate NOFILE None;
  fk_cwd : ∃ ci ip, p_cwd cp = Some ci ∧ k_icache s !! ci = Some ip;
  fk_inv : mlfq_inv none (put np r s) qs;
  fk_state : p_state r = EMBRYO;
  fk_kstack : p_kstack r = k;
}.

(** The copy could not be made: the slot is UNUSED again, its stack is free. *)
Lemma fork_undo s qs cur np cp r k l Q pgdir sz T A :
  forking s qs cur np cp r k → space s l (k :: Q) pgdir sz T A →
  ∃ s', (let! npp := proc_at np in
         kfree (p_kstack npp) ;;
         upd_proc np (set_p_kstack 0) ;;
         upd_proc np (set_p_state UNUSED) ;;
         ret (-1)) (put np r s) = Ok (-1) s' ∧
    space s' (k :: l) Q pgdir sz T A ∧
    (∀ va, 0 ≤ va < sz → mmu (k_mem s') pgdir va = mmu (k_mem s) pgdir va) ∧
    k_ptable s' = <[np := set_p_state UNUSED (set_p_kstack 0 r)]> (k_ptable s) ∧
    (∃ qs', mlfq_inv none s' qs') ∧ k_ftable s' = k_ftable s ∧ k_icache s' = k_icache s.
Proof using mlfq.
  intros [Hok Hh Hnp Hne Hcp _ _ _ Hi Hst Hk] Hsp. pose proof (sp_vm _ _ _ _ _ _ _ Hsp) as Hvm.
  assert (Hvm1 : vm (put np r s) l (k :: frames A 0 (npages sz) ++ Q) pgdir T A).
  { apply (vm_same s); [|done|done|done|by apply (cpu_ok_same s)]. eapply vm_perm; [|exact Hvm].
    symmetry. apply Permutation_middle. }
  destruct (vm_kfree _ _ _ _ _ _ _ Hvm1) as (s1 & E1 & Hvm1' & Hc1).
  pose proof (changed_ptable _ _ _ Hc1) as Ept. cbn [k_ptable put set_k_ptable] in Ept.
  destruct (changed_sched _ _ _ Hc1) as (Equ & Eqi & Enp & Eft & Eic).
  assert (Hnp1 : (np < length (k_ptable s1))%nat) by (rewrite Ept, length_insert; done).
  assert (E1' : kfree k (put np r s) = Ok tt (put np r s1)).
  { rewrite (put_id np r s1); [done|]. rewrite Ept. by apply list_lookup_insert_eq. }
  set (r' := set_p_state UNUSED (set_p_kstack 0 r)). exists (put np r' s1).
  pose proof (vm_own _ _ _ _ _ _ Hvm1') as Ho1.
  assert (Hok1 : cpu_ok (put np r' s1)) by (apply (cpu_ok_same s1); [apply Ho1|done..]).
  destruct (space_give (put np r s) s1 k l Q pgdir sz T A) as [Hsp1 Hm1]; [|done|done|].
  { apply (space_same s); [done..|]. by apply (cpu_ok_same s). }
  split_and!.
  - erewrite bind_Ok by (by apply at_put). rewrite Hk. erewrite bind_Ok by exact E1'.
    do 2 slot_step Hnp1. reflexivity.
  - by apply (space_same s1).
  - done.
  - cbn [k_ptable put set_k_ptable]. rewrite Ept. apply list_insert_insert_eq.
  - exists qs. apply (mlfq_inv_same none (put np r' s)).
    + split; [|exact Equ|exact Eqi|exact Enp]. cbn [k_ptable put set_k_ptable]. rewrite Ept. apply list_insert_insert_eq.
    + assert (Hwf : proc_wf (k_nextpid s) r).
      { apply (mi_wf _ _ _ Hi np). by apply list_lookup_insert_eq. }
      apply (embryo_inv s s qs np r r'); try done. destruct Hwf as [W1 W2 W3 W4 W5].
      split; [exact W1|exact W2|exact W3|done|]. change (p_state r') with UNUSED. set_solver.
  - exact Eft.
  - exact Eic.
Qed.

(** The state in which the embryo has its page directory. *)
Lemma forking_pgdir P s s' qs cur np cp r k d :
  forking s qs cur np cp r k → changed P (put np r s) s' →
  s' = put np r s' ∧ forking s' qs cur np cp (set_p_pgdir d r) k.
Proof using mlfq.
  intros [Hok Hh Hnp Hne Hcp Hfs Hlo (ci & ip & Hcwd & Hip) Hi Hst Hk] Hc.
  pose proof (changed_ptable _ _ _ Hc) as Ept. cbn [k_ptable put set_k_ptable] in Ept.
  destruct (changed_sched _ _ _ Hc) as (Equ & Eqi & Enp & Eft & Eic).
  split; [symmetry; apply put_id; rewrite Ept; by apply list_lookup_insert_eq|].
  assert (Hwf : proc_wf (k_nextpid s) r) by (apply (mi_wf _ _ _ Hi np); by apply list_lookup_insert_eq).
  split; try done.
  - apply (ch_cpu _ _ _ Hc). by apply (cpu_ok_same s).
  - by rewrite (ch_held _ _ _ Hc).
  - by rewrite Ept, length_insert.
  - by rewrite Ept, list_lookup_insert_ne.
  - intros f Hf. rewrite Eft. by apply Hfs.
  - exists ci, ip. by rewrite Eic.
  - apply (mlfq_inv_same none (put np (set_p_pgdir d r) s)).
    + split; [|exact Equ|exact Eqi|exact Enp]. cbn [k_ptable put set_k_ptable]. rewrite Ept. apply list_insert_insert_eq.
    + apply (embryo_inv s s qs np r); try done.
      * change (p_state (set_p_pgdir d r)) with (p_state r). by rewrite Hst.
      * destruct Hwf as [W1 W2 W3 W4 W5]. split; [exact W1|exact W2|exact W3|exact W4|].
        change (p_state (set_p_pgdir d r)) with (p_state r). rewrite Hst. set_solver.
Qed.

(** The copy shows what the parent shows, and neither shares a page with anything. *)
Definition twins (s : kernel) (pgdir sz : Z) (Q : list Z) (T A : gmap Z Z) (d : Z) (s' : kernel) : Prop :=
  ∃ l' Td Ad,
    space s' l' (tabs pgdir T ++ frames A 0 (npages sz) ++ Q) d sz Td Ad ∧
    space s' l' (Q ++ tabs d Td ++ frames Ad 0 (npages sz)) pgdir sz T A ∧
    ∀ va, 0 ≤ va < sz → mmu (k_mem s') d va = mmu (k_mem s) pgdir va ∧
      mmu (k_mem s') pgdir va = mmu (k_mem s) pgdir va.

Lemma twins_same s s0 pgdir sz Q T A d s1 s2 :
  twins s pgdir sz Q T A d s1 → (∀ va, 0 ≤ va < sz → mmu (k_mem s) pgdir va = mmu (k_mem s0) pgdir va) →
  k_mem s2 = k_mem s1 → k_freelist s2 = k_freelist s1 → k_held s2 = k_held s1 → cpu_ok s2 →
  twins s0 pgdir sz Q T A d s2.
Proof using Type.
  intros (l' & Td & Ad & H1 & H2 & H3) Hm Em Ef Eh Hok. exists l', Td, Ad.
  split_and!; [by apply (space_same s1)|by apply (space_same s1)|].
  intros va Hva. rewrite Em, <-Hm by done. by apply H3.
Qed.

Lemma fork_rest_run s qs cur np cp r k l Q T A :
  linked → forking s qs cur np cp r k → k ≠ 0 → space s l (k :: Q) (p_pgdir cp) (p_sz cp) T A →
  ∃ res s', fork_rest cur np (put np r s) = Ok res s' ∧ (∃ qs', mlfq_inv none s' qs') ∧
    ((res = p_pid r ∧ ∃ c, k_ptable s' = <[np := c]> (k_ptable s) ∧
        child_of cur cp (p_pid r) (p_pgdir c) k c ∧ refs_added cp s s' ∧
        twins s (p_pgdir cp) (p_sz cp) (k :: Q) T A (p_pgdir c) s') ∨
     (res = -1 ∧ Z.of_nat (length l) ≤ 1025 + npages (p_sz cp) ∧
        (∃ l', space s' (k :: l') Q (p_pgdir cp) (p_sz cp) T A ∧ l' ≡ₚ l) ∧
        (∀ va, 0 ≤ va < p_sz cp → mmu (k_mem s') (p_pgdir cp) va = mmu (k_mem s) (p_pgdir cp) va) ∧
        (∃ u, p_state u = UNUSED ∧ k_ptable s' = <[np := u]> (k_ptable s)) ∧
        k_ftable s' = k_ftable s ∧ k_icache s' = k_icache s)).
Proof using mlfq.
  intros (HKEND & HKDATA & HKLINK) Hfk Hk0 Hsp0. pose proof Hfk as [Hok Hh Hnp Hne Hcp _ _ _ Hi Hst Hk].
  assert (Hsp : space (put np r s) l (k :: Q) (p_pgdir cp) (p_sz cp) T A)
    by (apply (space_same s); [done..|by apply (cpu_ok_same s)]).
  pose proof Hsp as [Hvm Hsz Hall Hnone _ Hbytes]. pose proof (npages_kern _ Hsz) as HV.
  destruct (copyuvm_run HKEND HKDATA HKLINK _ l (k :: Q) _ T A _ Hvm HV Hall Hbytes (p_sz cp) eq_refl)
    as (d & s1 & E & Hr); [lia|].
  assert (Hrest : ∀ res s', (upd_proc np (set_p_pgdir d) ;;
      if d =? 0 then
        let! npp := proc_at np in
        kfree (p_kstack npp) ;; upd_proc np (set_p_kstack 0) ;; upd_proc np (set_p_state UNUSED) ;; ret (-1)
      else fork_child cur np) s1 = Ok res s' → fork_rest cur np (put np r s) = Ok res s').
  { intros res s' <-. unfold fork_rest. erewrite bind_Ok by (by apply at_other). by erewrite bind_Ok by exact E. }
  destruct Hr as [(Hd & l' & Td & Ad & Hcpy)|(-> & Hgb & Hlen)].
  - destruct (copying_space _ _ _ _ _ _ _ _ _ _ _ _ Hsp Hcpy) as (Hs1 & Hs2 & Hm).
    destruct (forking_pgdir l s s1 qs cur np cp r k d Hfk) as [Es1 Hfk1]; [apply Hcpy|].
    pose proof Hfk1 as [Hok1 Hh1 Hnp1 _ Hcp1 Hfs1 [Hl1 Hl2] (ci & ip & Hcwd & Hip) Hi1 Hst1 Hk1].
    destruct (fork_child_run s1 qs cur np cp (set_p_pgdir d r) ci ip) as (s' & c & E' & Ept & Hch & Hra & Hi' & Hok' & Hh' & Em & Ef);
      [done..|by rewrite Hk1|done|].
    assert (Hd' : p_pgdir c = d) by apply Hch.
    assert (Hc1 : changed l (put np r s) s1) by apply Hcpy.
    exists (p_pid r), s'. split_and!; [|done|].
    + apply Hrest. rewrite Es1. erewrite bind_Ok by (by apply upd_put). replace (d =? 0) with false by lia. exact E'.
    + left. split; [done|]. exists c. rewrite Hd'. split_and!.
      * rewrite Ept, (changed_ptable _ _ _ Hc1). apply list_insert_insert_eq.
      * destruct Hch as [? ? ? ? ? Hks ? ? ?]. split; try done. by rewrite Hks.
      * destruct (changed_sched _ _ _ Hc1) as (_ & _ & _ & Eft & Eic). destruct Hra as [R1 R2].
        split; [intros f fp Hf; apply R1; by rewrite Eft|intros ? ? ? ?; apply R2; [done|by rewrite Eic]].
      * apply (twins_same (put np r s) _ _ _ _ _ _ _ s1); [|done|done|done|by rewrite Hh'|done].
        by exists l', Td, Ad.
  - destruct (given_back_space _ _ _ _ _ _ _ _ Hsp Hgb) as (l' & Hs1 & Hl' & Hm).
    destruct Hgb as (_ & _ & _ & Hc1).
    destruct (forking_pgdir l s s1 qs cur np cp r k 0 Hfk Hc1) as [Es1 Hfk1].
    destruct (fork_undo s1 qs cur np cp (set_p_pgdir 0 r) k l' Q _ _ T A Hfk1 Hs1) as (s' & E' & Hs' & Hm' & Ept & Hi' & Eft' & Eic').
    exists (-1), s'. split_and!; [|done|].
    + apply Hrest. rewrite Es1. erewrite bind_Ok by (apply upd_put; apply Hfk1). exact E'.
    + right. destruct (changed_sched _ _ _ Hc1) as (_ & _ & _ & Eft & Eic).
      split_and!; [done|done|by exists l'| | |by rewrite Eft'|by rewrite Eic'].
      * intros va Hva. rewrite Hm' by done. by apply Hm.
      * eexists. split; [|rewrite Ept, (changed_ptable _ _ _ Hc1); apply list_insert_insert_eq]. done.
Qed.

(** The caller of [fork].  A slot that is not in use has no open file: [exit] closed them. *)
Record forks (s : kernel) (qs : list (list nat)) (cur : nat) (cp : proc) (l Q : list Z) (T A : gmap Z Z) : Prop := {
  fo_inv : mlfq_inv none s qs;
  fo_pid : 0 < k_nextpid s < 2 ^ 31 - 1;
  fo_held : k_held s = [];
  fo_proc : c_proc (k_cpu s) = Some cur;
  fo_cur : k_ptable s !! cur = Some cp;
  fo_running : p_state cp = RUNNING;
  fo_space : space s l Q (p_pgdir cp) (p_sz cp) T A;
  fo_files : files_ok s (p_ofile cp);
  fo_ofile : length (p_ofile cp) = NOFILE;
  fo_closed i p : k_ptable s !! i = Some p → p_state p = UNUSED → p_ofile p = replicate NOFILE None;
  fo_cwd : ∃ ci ip, p_cwd cp = Some ci ∧ k_icache s !! ci = Some ip;
}.
(** It failed: no slot or no pages; nothing that is in use has changed. *)
Record not_forked (s : kernel) (cp : proc) (l Q : list Z) (T A : gmap Z Z) (s' : kernel) : Prop := {
  nf_why : (∀ i p, k_ptable s !! i = Some p → p_state p ≠ UNUSED) ∨
    Z.of_nat (length l) ≤ 1026 + npages (p_sz cp);
  nf_space : ∃ l', space s' l' Q (p_pgdir cp) (p_sz cp) T A ∧ l' ≡ₚ l;
  nf_mem va : 0 ≤ va < p_sz cp → mmu (k_mem s') (p_pgdir cp) va = mmu (k_mem s) (p_pgdir cp) va;
  nf_slots j q : k_ptable s !! j = Some q → p_state q ≠ UNUSED → k_ptable s' !! j = Some q;
  nf_unused j q : k_ptable s !! j = Some q → p_state q = UNUSED →
    ∃ u, k_ptable s' !! j = Some u ∧ p_state u = UNUSED;
  nf_refs : k_ftable s' = k_ftable s ∧ k_icache s' = k_icache s;
}.

(** The state after the first part of [allocproc]. *)
Lemma forks_enter s qs cur cp l Q T A :
  forks s qs cur cp l Q T A →
  (allocproc_enter (touched s) = Ok None (touched (touched s)) ∧
   ∀ i p, k_ptable s !! i = Some p → p_state p ≠ UNUSED) ∨
  (∃ np p s1, allocproc_enter (touched s) = Ok (Some np) s1 ∧ k_ptable s !! np = Some p ∧ p_state p = UNUSED ∧
    k_ptable s1 = <[np := embryo (k_nextpid s) p]> (k_ptable s) ∧ mlfq_inv none s1 qs ∧
    cpu_ok s1 ∧ sched_only (touched s) s1).
Proof using mlfq.
  intros [Hi Hn Hh Hp Hcp Hrun Hsp _ _ _ _].
  assert (Hok : cpu_ok s) by exact (ow_cpu _ _ _ (vm_own _ _ _ _ _ _ (sp_vm _ _ _ _ _ _ _ Hsp))).
  pose proof (allocproc_enter_eq mlfq (touched s) qs) as Ha.
  destruct (list_find _ (k_ptable (touched s))) as [[np p]|] eqn:Ef.
  - right. destruct Ha as (s1 & E & Hok1 & _ & _ & Ept & _ & Hi1 & Hso);
      [same_inv Hi|by apply cpu_ok_touched|cbn; rewrite Hh; apply not_elem_of_nil|done|].
    apply list_find_Some in Ef as (Hnp & Hst & _). exists np, p, s1. split_and!; done.
  - left. destruct Ha as [E _];
      [same_inv Hi|by apply cpu_ok_touched|cbn; rewrite Hh; apply not_elem_of_nil|done|].
    split; [done|]. intros i p Hip. apply list_find_None in Ef. rewrite Forall_forall in Ef. apply Ef.
    by eapply list_elem_of_lookup_2.
Qed.

(** No page for the kernel stack. *)
Lemma fork_nostack s qs np r Q pgdir sz T A :
  space s [] Q pgdir sz T A → k_ptable s !! np = Some r → p_state r = EMBRYO → mlfq_inv none s qs →
  ∃ s' u, allocproc_init np s = Ok None s' ∧ p_state u = UNUSED ∧ k_ptable s' = <[np := u]> (k_ptable s) ∧
    space s' [] Q pgdir sz T A ∧ k_mem s' = k_mem s ∧ mlfq_inv none s' qs ∧
    k_ftable s' = k_ftable s ∧ k_icache s' = k_icache s.
Proof using mlfq.
  intros Hsp Hr Hst Hi. pose proof Hsp as [[Ho Hrep] H2 H3 H4 H5 H6].
  destruct (kalloc_empty s _ Ho) as (s1 & E1 & Ho1 & Hc1 & Hm1).
  pose proof (changed_ptable _ _ _ Hc1) as Ept. destruct (changed_sched _ _ _ Hc1) as (Equ & Eqi & Enp & Eft & Eic).
  pose proof (lookup_lt_Some _ _ _ Hr) as Hlt.
  assert (Hnp1 : (np < length (k_ptable s1))%nat) by by rewrite Ept.
  assert (E1' : kalloc s = Ok 0 (put np r s1)) by (rewrite put_id; [done|by rewrite Ept]).
  exists (put np (set_p_state UNUSED (set_p_kstack 0 r)) s1), (set_p_state UNUSED (set_p_kstack 0 r)).
  split_and!; [|done| | |done| |exact Eft|exact Eic].
  - unfold allocproc_init. erewrite bind_Ok by exact E1'. slot_step Hnp1. cbn [Z.eqb]. slot_step Hnp1. done.
  - cbn [k_ptable put set_k_ptable]. by rewrite Ept.
  - apply (space_same s1); [|done|done|done|apply (cpu_ok_same s1); [apply Ho1|done..]].
    split; [|done|done|done|done|by rewrite Hm1]. split; [done|by rewrite Hm1].
  - assert (Hwf : proc_wf (k_nextpid s) r) by by apply (mi_wf _ _ _ Hi np).
    apply (embryo_inv s s1 qs np r); try done; [by rewrite put_id|].
    destruct Hwf as [W1 W2 W3 W4 W5]. split; [exact W1|exact W2|exact W3|done|]. cbn. set_solver.
Qed.

(** The embryo with its stack. *)
Lemma forks_forking s qs cur cp l Q T A s1 np p k r s2 :
  forks s qs cur cp l Q T A → k_ptable s !! np = Some p → p_state p = UNUSED →
  k_ptable s1 = <[np := embryo (k_nextpid s) p]> (k_ptable s) → mlfq_inv none s1 qs →
  sched_only (touched s) s1 → changed [k] s1 s2 → cpu_ok s2 → newborn k (embryo (k_nextpid s) p) r →
  forking s2 qs cur np cp r k.
Proof using mlfq.
  intros [Hi Hn Hh Hp Hcp Hrun Hsp Hfs Hlo Hcl (ci & ip & Hcwd & Hip)] Hnp Hst Ept Hi1 Hso Hc Hok2 [N1 N2 N3 N4 N5 N6].
  pose proof (changed_ptable _ _ _ Hc) as Ept2. destruct (changed_sched _ _ _ Hc) as (Equ & Eqi & Enp & Eft & Eic).
  pose proof (lookup_lt_Some _ _ _ Hnp) as Hlt. assert (Hne : cur ≠ np) by (intros ->; congruence).
  assert (Hr0 : k_ptable s1 !! np = Some (embryo (k_nextpid s) p)) by (rewrite Ept; by apply list_lookup_insert_eq).
  assert (Hwf : proc_wf (k_nextpid s1) (embryo (k_nextpid s) p)) by by apply (mi_wf _ _ _ Hi1 np).
  split; try done.
  - rewrite (ch_held _ _ _ Hc), Hso. exact Hh.
  - by rewrite Ept2, Ept, length_insert.
  - by rewrite Ept2, Ept, list_lookup_insert_ne.
  - intros f Hf. rewrite Eft, Hso. by apply Hfs.
  - split; [done|]. rewrite N4. by apply (Hcl np p).
  - exists ci, ip. by rewrite Eic, Hso.
  - apply (embryo_inv s1 s2 qs np (embryo (k_nextpid s) p)); try done.
    + by rewrite put_id.
    + by eapply lookup_lt_Some.
    + by rewrite N1.
    + destruct Hwf as [W1 W2 W3 W4 W5]. split; [rewrite N5; lia|exact N6|by rewrite N2|by rewrite N1, N2|].
      rewrite N1. cbn. set_solver.
Qed.

Lemma not_forked_slot s s' np p u :
  k_ptable s !! np = Some p → p_state p = UNUSED → k_ptable s' = <[np := u]> (k_ptable s) →
  ∀ j q, k_ptable s !! j = Some q → p_state q ≠ UNUSED → k_ptable s' !! j = Some q.
Proof using Type.
  intros Hp Hst E j q Hq Hqs. rewrite E, list_lookup_insert_ne; [done|]. intros ->. congruence.
Qed.
Lemma not_forked_unused s s' np u :
  p_state u = UNUSED → k_ptable s' = <[np := u]> (k_ptable s) →
  ∀ j q, k_ptable s !! j = Some q → p_state q = UNUSED → ∃ u', k_ptable s' !! j = Some u' ∧ p_state u' = UNUSED.
Proof using Type.
  intros Hu E j q Hq Hqs. rewrite E. destruct (decide (j = np)) as [->|Hj].
  - exists u. split; [|done]. apply list_lookup_insert_eq. by eapply lookup_lt_Some.
  - exists q. by rewrite list_lookup_insert_ne.
Qed.

(** The state in which the embryo is allocated has the same memory. *)
Lemma forks_space s qs cur cp l Q T A s1 :
  forks s qs cur cp l Q T A → sched_only (touched s) s1 → cpu_ok s1 →
  space s1 l Q (p_pgdir cp) (p_sz cp) T A ∧ k_mem s1 = k_mem s ∧ k_held s1 = [].
Proof using Type.
  intros Hfo Hso Hok1. assert (Hh1 : k_held s1 = []) by (rewrite Hso; apply Hfo).
  split_and!; [|by rewrite Hso|done].
  apply (space_same s); [apply Hfo|by rewrite Hso|by rewrite Hso|rewrite Hh1; symmetry; apply Hfo|done].
Qed.

(** What [allocproc] gives [fork]. *)
Lemma fork_alloc s qs cur cp l Q T A :
  forks s qs cur cp l Q T A →
  (∃ s', allocproc (touched s) = Ok None s' ∧ not_forked s cp l Q T A s' ∧ ∃ qs', mlfq_inv none s' qs') ∨
  (∃ np p r k l1 s2, l = k :: l1 ∧ k ≠ 0 ∧ k_ptable s !! np = Some p ∧ p_state p = UNUSED ∧
    allocproc (touched s) = Ok (Some np) (put np r s2) ∧ forking s2 qs cur np cp r k ∧ p_pid r = k_nextpid s ∧
    space s2 l1 (k :: Q) (p_pgdir cp) (p_sz cp) T A ∧
    (∀ va, 0 ≤ va < p_sz cp → mmu (k_mem s2) (p_pgdir cp) va = mmu (k_mem s) (p_pgdir cp) va) ∧
    (∀ c, <[np := c]> (k_ptable s2) = <[np := c]> (k_ptable s)) ∧
    k_ftable s2 = k_ftable s ∧ k_icache s2 = k_icache s).
Proof using mlfq.
  intros Hfo. pose proof Hfo as [Hi Hn Hh Hp Hcp Hrun Hsp Hfs Hlo Hcl Hcwd].
  assert (Hok : cpu_ok s) by exact (ow_cpu _ _ _ (vm_own _ _ _ _ _ _ (sp_vm _ _ _ _ _ _ _ Hsp))).
  unfold allocproc.
  destruct (forks_enter _ _ _ _ _ _ _ _ Hfo) as [[E Hall]|(np & p & s1 & E & Hnp & Hst & Ept & Hi1 & Hok1 & Hso)].
  { left. exists (touched (touched s)). split_and!; [by erewrite bind_Ok by exact E| |exists qs; same_inv Hi].
    split; [by left| |done|done|by eauto|done]. exists l. split; [|done]. apply (space_same s); [done..|].
    by apply cpu_ok_touched, cpu_ok_touched. }
  destruct (forks_space _ _ _ _ _ _ _ _ s1 Hfo Hso Hok1) as (Hsp1 & Em1 & Hh1).
  pose proof (lookup_lt_Some _ _ _ Hnp) as Hlt.
  assert (Hr0 : k_ptable s1 !! np = Some (embryo (k_nextpid s) p)) by (rewrite Ept; by apply list_lookup_insert_eq).
  destruct l as [|k l].
  { destruct (fork_nostack s1 qs np _ Q _ _ T A Hsp1 Hr0 eq_refl Hi1) as (s2 & u & E2 & Hu & Ept2 & Hsp2 & Em2 & Hi2 & Eft2 & Eic2).
    assert (Epu : k_ptable s2 = <[np := u]> (k_ptable s)) by (rewrite Ept2, Ept; apply list_insert_insert_eq).
    left. exists s2. split_and!; [by erewrite bind_Ok by exact E| |by exists qs]. split.
    - right. pose proof (npages_kern _ (sp_sz _ _ _ _ _ _ _ Hsp)). cbn. lia.
    - by exists [].
    - intros va _. by rewrite Em2, Em1.
    - by apply (not_forked_slot s s2 np p u).
    - by apply (not_forked_unused s s2 np u).
    - by rewrite Eft2, Eic2, Hso. }
  right. destruct (allocproc_init_run s1 k l _ np _ (vm_own _ _ _ _ _ _ (sp_vm _ _ _ _ _ _ _ Hsp1)) Hr0)
    as (s2 & r & E2 & Hc2 & Ho2 & Hnb); [rewrite Hh1; apply not_elem_of_nil| |].
  { exact (wf_q _ _ (mi_wf _ _ _ Hi np p Hnp)). }
  destruct (space_take s1 s2 k l Q _ _ T A Hsp1 Hc2 Ho2) as [Hsp2 Hm2]. rewrite Em1 in Hm2.
  destruct (changed_sched _ _ _ Hc2) as (_ & _ & _ & Eft & Eic). rewrite Hso in Eft, Eic.
  exists np, p, r, k, l, s2. split_and!; try done.
  - pose proof (owned_range _ _ _ k Ho2 ltac:(by left)). lia.
  - by erewrite bind_Ok by exact E.
  - by apply (forks_forking _ _ _ _ _ _ _ _ _ _ _ _ _ _ Hfo Hnp Hst Ept Hi1 Hso Hc2 (ow_cpu _ _ _ Ho2) Hnb).
  - by rewrite (nb_pid _ _ _ Hnb).
  - intros c. rewrite (changed_ptable _ _ _ Hc2), Ept. apply list_insert_insert_eq.
Qed.

(** C12.  fork in the MLFQ build.  It returns the new pid, and the child is in a slot that was
    unused: RUNNABLE and queued, with a copy of the caller's memory in pages of its own,
    the caller's registers but for %eax = 0, exactly its open files and its working directory,
    whose reference counts grow by what the child holds; no other slot changes, and the
    caller sees the memory it saw.  Or it returns -1, because every slot was taken or pages
    ran out, and then every page is back on the free list, no slot in use has changed,
    every UNUSED slot is UNUSED, and the file and inode tables are as before.  The caller
    runs with no lock held, its files are in use, and UNUSED slots have no open files. *)
Theorem fork_copies s qs cur cp l Q T A :
  linked → forks s qs cur cp l Q T A →
  ∃ r s', fork s = Ok r s' ∧ (∃ qs', mlfq_inv none s' qs') ∧
    ((r = k_nextpid s ∧ ∃ np p c, k_ptable s !! np = Some p ∧ p_state p = UNUSED ∧
        k_ptable s' = <[np := c]> (k_ptable s) ∧ child_of cur cp r (p_pgdir c) (p_kstack c) c ∧
        refs_added cp s s' ∧
        twins s (p_pgdir cp) (p_sz cp) (p_kstack c :: Q) T A (p_pgdir c) s') ∨
     (r = -1 ∧ not_forked s cp l Q T A s')).
Proof using mlfq.
  intros Hlink Hfo. pose proof Hfo as [_ _ _ Hp _ _ Hsp _ _ _ _].
  assert (Hok : cpu_ok s) by exact (ow_cpu _ _ _ (vm_own _ _ _ _ _ _ (sp_vm _ _ _ _ _ _ _ Hsp))).
  unfold fork. erewrite bind_Ok by by apply myproc_eq.
  destruct (fork_alloc _ _ _ _ _ _ _ _ Hfo) as [(s' & E & Hnf & Hi)|
    (np & p & r & k & l1 & s2 & -> & Hk & Hnp & Hst & E & Hfk & Epid & Hsp2 & Hm2 & Ept2 & Eft & Eic)].
  { exists (-1), s'. split_and!; [by erewrite bind_Ok by exact E|done|by right]. }
  destruct (fork_rest_run s2 qs cur np cp r k l1 Q T A Hlink Hfk Hk Hsp2) as (res & s' & E3 & Hi3 & Hr).
  exists res, s'. split_and!; [|done|].
  { erewrite bind_Ok by exact E. rewrite Hp. erewrite bind_Ok by reflexivity. exact E3. }
  destruct Hr as [(-> & c & Eptc & Hch & Hra & Htw)|(-> & Hlen & (l' & Hsp' & Hl') & Hm & (u & Hu & Eptu) & Eft3 & Eic3)].
  - left. split; [done|]. assert (Ek : p_kstack c = k) by apply Hch. exists np, p, c. rewrite Ek.
    split_and!; [done|done|by rewrite Eptc|done| |].
    + destruct Hra as [R1 R2]. split; [intros f fp Hf; apply R1; by rewrite Eft|].
      intros ? ? ? ?. apply R2; [done|by rewrite Eic].
    + destruct Htw as (l' & Td & Ad & H1 & H2 & H3). exists l', Td, Ad. split_and!; [done|done|].
      intros va Hva. rewrite <-Hm2 by done. by apply H3.
  - right. split; [done|]. split.
    + right. cbn [length]. lia.
    + exists (k :: l'). split; [done|by rewrite Hl'].
    + intros va Hva. rewrite Hm by done. by apply Hm2.
    + apply (not_forked_slot s s' np p u); [done..|]. by rewrite Eptu.
    + apply (not_forked_unused s s' np u); [done|]. by rewrite Eptu.
    + by rewrite Eft3, Eic3.
Qed.
End env.

(** ** A concrete caller

    Slot 1 runs, in the address space of [machine_space], with one open file. *)
Section sample.
Local Instance sample_mlfq : Env := sample_env MLFQ.

Definition before_fork : kernel :=
  sample 100 [sample_proc RUNNABLE 1 0 90; sample_proc RUNNING 2 1 0] [[0%nat]; []; []; []; []].
Definition fork_caller (d : Z) : proc :=
  set_p_pgdir d (set_p_sz 5000 (set_p_cwd (Some 0%nat) (set_p_ofile (<[0%nat := Some 0%nat]> (p_ofile zero_proc))
    (sample_proc RUNNING 2 1 0)))).
Definition forker (s : kernel) (d : Z) : kernel :=
  set_k_mem (k_mem s) (set_k_freelist (k_freelist s) (put 1 (fork_caller d)
    (set_k_cpu (set_c_proc (Some 1%nat) zero_cpu)
      (set_k_ftable (<[0%nat := set_f_ref 1 zero_file]> (k_ftable zero_kernel)) before_fork)))).

Lemma before_fork_files :
  Forall (λ p, p_state p = UNUSED → p_ofile p = replicate NOFILE None) (k_ptable before_fork).
Proof. apply (bool_decide_unpack _). vm_compute. exact I. Qed.

Lemma forker_inv s d : d ≠ 0 → mlfq_inv none (forker s d) [[0%nat]; []; []; []; []].
Proof.
  intros Hd. assert (Hi : mlfq_inv none before_fork [[0%nat]; []; []; []; []]) by (apply mlfq_check_sound; by vm_compute).
  assert (Hp : k_ptable before_fork !! 1%nat = Some (sample_proc RUNNING 2 1 0)) by reflexivity.
  apply (mlfq_inv_same none (put 1 (fork_caller d) before_fork)); [by split|].
  apply (mlfq_inv_drop none _ _ 1%nat (fork_caller d)); [|reflexivity|discriminate].
  apply (mlfq_inv_keep_pid none _ _ _ _ (fork_caller d) Hi Hp); [|split|done].
  - by apply (unqueued_state none _ _ _ _ Hi Hp).
  - cbn. lia.
  - done.
  - cbn. lia.
  - done.
  - intros _. split; [discriminate|exact Hd].
Qed.

Lemma forker_forks s l d T A :
  space s l [] d 5000 T A → k_held s = [] →
  forks (forker s d) [[0%nat]; []; []; []; []] 1 (fork_caller d) l [] T A.
Proof.
  intros Hsp Hh. destruct (vm_dir_page _ _ _ _ _ _ (sp_vm _ _ _ _ _ _ _ Hsp)) as [(Hd & _) _]. split.
  - apply forker_inv. lia.
  - split; reflexivity.
  - reflexivity.
  - reflexivity.
  - reflexivity.
  - reflexivity.
  - apply (space_same s); [exact Hsp|reflexivity|reflexivity|symmetry; exact Hh|].
    split; [done|done|constructor].
  - intros f Hf. exists (set_f_ref 1 zero_file). change (p_ofile (fork_caller d)) with (Some 0%nat :: replicate 15 (@None nat)) in Hf.
    apply elem_of_cons in Hf as [[= ->]|Hf]; [split; [reflexivity|done]|].
    apply elem_of_replicate in Hf as [Hf _]. discriminate.
  - reflexivity.
  - intros i p Hp Hu. change (k_ptable (forker s d)) with (<[1%nat := fork_caller d]> (k_ptable before_fork)) in Hp.
    apply list_lookup_insert_Some in Hp as [(_ & <- & _)|[_ Hp]]; [discriminate Hu|].
    pose proof before_fork_files as Hf. rewrite Forall_forall in Hf. apply (Hf p); [|exact Hu].
    by eapply list_elem_of_lookup_2.
  - exists 0%nat. eexists. split; reflexivity.
Qed.

Lemma fork_copies_witness :
  ∃ s d s' np c, fork (forker s d) = Ok 3 s' ∧ k_ptable s' !! np = Some c ∧ p_parent c = Some 1%nat ∧
    tf_eax (p_tf c) = 0 ∧ mmu (k_mem s') (p_pgdir c) 4999 = mmu (k_mem s) d 4999.
Proof.
  destruct machine_space as (s & l & d & T & A & Hl & Hsp & Hh & Hlen).
  destruct (@fork_copies (sample_env MLFQ) eq_refl (forker s d) _ 1 (fork_caller d) l [] T A Hl
    (forker_forks s l d T A Hsp Hh)) as (r & s' & E & _ & Hr).
  destruct Hr as [(-> & np & p & c & Hp & Hst & Ept & Hch & _ & Htw)|(_ & [[Hno|Hle] _ _ _ _ _])].
  - exists s, d, s', np, c. split_and!; [exact E| |exact (ch_parent _ _ _ _ _ _ Hch)| |].
    + rewrite Ept. apply list_lookup_insert_eq. by eapply lookup_lt_Some.
    + rewrite (ch_tf _ _ _ _ _ _ Hch). reflexivity.
    + destruct Htw as (l' & Td & Ad & _ & _ & Hm). destruct (Hm 4999) as [Hm' _]; [split; [discriminate|reflexivity]|].
      exact Hm'.
  - destruct (Hno 5%nat zero_proc); reflexivity.
  - exfalso. change (p_sz (fork_caller d)) with 5000 in Hle. change (npages 5000) with 2 in Hle. lia.
Defined.
End sample.
