(* ===== verification/PipeThm.v ===== *)
(** * PipeThm: a pipe is a bounded first-in first-out byte queue (pipe.c)

    [pipe_rep r q]: the ring buffer and the two free-running 32-bit counters of [r]
    hold the queue [q].  The operations are those of the queue, also when the
    counters wrap around. *)

From stdpp Require Import base numbers gmap strings option list.
From S2P Require Import Prelude Format Machine Boot Mem Mlfq ProcCore Kalloc Pipe.
From S2P Require Import MlfqInv MlfqOps MlfqBoot System SystemInv BuildThm.
Local Open Scope kernel_scope.
Local Open Scope Z_scope.

(** The cell of the [i]-th byte after [n]. *)
Definition cell (n : Z) (i : nat) : nat := Z.to_nat ((n + Z.of_nat i) mod PIPESIZE).

Record pipe_rep (r : pipe) (q : list Z) : Prop := {
  pr_len : length (pi_data r) = Z.to_nat PIPESIZE;
  pr_nread : 0 ≤ pi_nread r < 2 ^ 32;
  pr_nwrite : pi_nwrite r = u32 (pi_nread r + Z.of_nat (length q));
  pr_room : Z.of_nat (length q) ≤ PIPESIZE;
  pr_data i : (i < length q)%nat → pi_data r !! cell (pi_nread r) i = q !! i;
}.

Lemma u32_mod_pipe n : u32 n mod PIPESIZE = n mod PIPESIZE.
Proof.
  unfold u32, PIPESIZE. change (2 ^ 32) with (512 * 2 ^ 23). rewrite Z.rem_mul_r by lia.
  rewrite (Z.mul_comm 512), Z_mod_plus_full. by apply Z.mod_mod.
Qed.

Lemma cell_lt n i : (cell n i < Z.to_nat PIPESIZE)%nat.
Proof. unfold cell, PIPESIZE. pose proof (Z.mod_pos_bound (n + Z.of_nat i) 512). lia. Qed.

Lemma cell_inj n i j :
  (i < j)%nat → Z.of_nat j < Z.of_nat i + PIPESIZE → cell n i ≠ cell n j.
Proof.
  unfold cell, PIPESIZE. intros Hij Hj E.
  pose proof (Z.mod_pos_bound (n + Z.of_nat i) 512). pose proof (Z.mod_pos_bound (n + Z.of_nat j) 512).
  pose proof (Z.div_mod (n + Z.of_nat i) 512). pose proof (Z.div_mod (n + Z.of_nat j) 512). lia.
Qed.

Lemma cell_succ n i : cell (u32 (n + 1)) i = cell n (S i).
Proof.
  unfold cell. f_equal. rewrite <-(u32_mod_pipe (u32 _ + _)), <-(u32_mod_pipe (n + _)). f_equal.
  unfold u32. rewrite Zplus_mod_idemp_l. f_equal. lia.
Qed.

Lemma u32_inj_near n a b :
  0 ≤ a ≤ PIPESIZE → 0 ≤ b ≤ PIPESIZE → u32 (n + a) = u32 (n + b) → a = b.
Proof.
  unfold u32, PIPESIZE. intros Ha Hb E.
  pose proof (Z.div_mod (n + a) (2 ^ 32)). pose proof (Z.div_mod (n + b) (2 ^ 32)). lia.
Qed.

(** ** The queue operations *)

Lemma pipe_full_rep r q : pipe_rep r q → pipe_full r = bool_decide (length q = Z.to_nat PIPESIZE).
Proof.
  intros [_ _ Hw Hr _]. unfold pipe_full. rewrite Hw. apply eq_true_iff_eq.
  rewrite Z.eqb_eq, bool_decide_eq_true. unfold PIPESIZE in *. split.
  - intros E%u32_inj_near; unfold PIPESIZE; lia.
  - intros ->. done.
Qed.

Lemma pipe_empty_rep r q : pipe_rep r q → pipe_empty r = bool_decide (q = []).
Proof.
  intros [_ Hn Hw Hr _]. unfold pipe_empty. rewrite Hw. apply eq_true_iff_eq.
  rewrite Z.eqb_eq, bool_decide_eq_true. rewrite <-length_zero_iff_nil. split.
  - intros E. replace (pi_nread r) with (u32 (pi_nread r + 0)) in E at 1.
    + apply u32_inj_near in E; unfold PIPESIZE in *; lia.
    + rewrite Z.add_0_r. unfold u32. by apply Z.mod_small.
  - intros ->. rewrite Z.add_0_r. unfold u32. by rewrite Z.mod_small.
Qed.

Lemma pipe_put_rep r q b :
  pipe_rep r q → Z.of_nat (length q) < PIPESIZE → pipe_rep (pipe_put b r) (q ++ [b]).
Proof.
  intros [Hl Hn Hw Hr Hd] Hlt.
  assert (Hc : Z.to_nat (pi_nwrite r mod PIPESIZE) = cell (pi_nread r) (length q)).
  { unfold cell. by rewrite Hw, u32_mod_pipe. }
  split; simpl; [by rewrite length_insert|done| |rewrite length_app; simpl; lia|].
  - rewrite Hw, length_app. simpl. unfold u32. rewrite Zplus_mod_idemp_l. f_equal. lia.
  - rewrite length_app. simpl. intros i Hi. rewrite Hc.
    destruct (decide (i = length q)) as [->|Hne].
    + rewrite list_lookup_insert_eq by (rewrite Hl; apply cell_lt).
      rewrite lookup_app_r by lia. by rewrite Nat.sub_diag.
    + rewrite list_lookup_insert_ne by (apply not_eq_sym, cell_inj; lia).
      rewrite lookup_app_l by lia. apply Hd. lia.
Qed.

Lemma pipe_drop_rep r b q :
  pipe_rep r (b :: q) → pipe_first r = b ∧ pipe_rep (pipe_drop r) q.
Proof.
  intros [Hl Hn Hw Hr Hd]. split.
  - unfold pipe_first. specialize (Hd 0%nat ltac:(simpl; lia)). unfold cell in Hd.
    rewrite Z.add_0_r in Hd. apply nth_lookup_Some with (d := 0) in Hd. by rewrite Hd.
  - simpl in *. split; simpl; [done|apply u32_range| |lia|].
    + rewrite Hw. unfold u32. rewrite Zplus_mod_idemp_l. f_equal. lia.
    + intros i Hi. rewrite cell_succ. apply (Hd (S i)). lia.
Qed.

(** ** The loops *)

Lemma pipe_at_eq s p r : k_pipes s !! p = Some r → pipe_at p s = Ok r s.
Proof. unfold pipe_at. by intros ->. Qed.
Lemma upd_pipe_eq s p r f :
  k_pipes s !! p = Some r → upd_pipe p f s = Ok tt (set_k_pipes (<[p := f r]> (k_pipes s)) s).
Proof. unfold upd_pipe. by intros ->. Qed.

(** The state with the pipe at [p] replaced. *)
Definition with_pipe (p : Z) (r : pipe) (s : kernel) : kernel :=
  set_k_pipes (<[p := r]> (k_pipes s)) s.

Lemma with_pipe_id s p r : k_pipes s !! p = Some r → with_pipe p r s = s.
Proof. intros Hr. unfold with_pipe. rewrite insert_id by done. by destruct s. Qed.

(** [m] repeats the body of pipewrite's loop while there is room. *)
Lemma pipe_fill {R} fuel (body : list Z → K (list Z + R)) l rest s p r q :
  (∀ b bytes s r, k_pipes s !! p = Some r → pipe_full r = false →
     body (b :: bytes) s = Ok (inl bytes) (with_pipe p (pipe_put b r) s)) →
  k_pipes s !! p = Some r → pipe_rep r q → Z.of_nat (length q + length l) ≤ PIPESIZE →
  ∃ r', pipe_rep r' (q ++ l) ∧ pi_readopen r' = pi_readopen r ∧ pi_writeopen r' = pi_writeopen r ∧
    loop (length l + fuel) body (l ++ rest) s = loop fuel body rest (with_pipe p r' s).
Proof.
  intros Hbody. revert s r q. induction l as [|b l IH]; intros s r q Hr Hq Hlen.
  { exists r. rewrite app_nil_r, with_pipe_id by done. done. }
  simpl in Hlen. assert (Hfull : pipe_full r = false).
  { rewrite (pipe_full_rep _ _ Hq). apply bool_decide_eq_false. unfold PIPESIZE in *. lia. }
  destruct (IH (with_pipe p (pipe_put b r) s) (pipe_put b r) (q ++ [b])) as (r' & Hq' & E1 & E2 & E).
  - simpl. by rewrite lookup_insert_eq.
  - apply pipe_put_rep; [done|lia].
  - rewrite length_app. simpl. lia.
  - exists r'. rewrite <-app_assoc in Hq'. split_and!; [done..|]. cbn [length app Nat.add loop].
    erewrite bind_Ok by by apply Hbody. cbv beta iota. rewrite E. unfold with_pipe. simpl. by rewrite insert_insert_eq.
Qed.

Lemma pipe_copy_loop fuel s p r q n i got :
  k_pipes s !! p = Some r → pipe_rep r q → (Z.to_nat (n - i) < fuel)%nat →
  ∃ r', pipe_rep r' (drop (Z.to_nat (n - i)) q) ∧
    pi_readopen r' = pi_readopen r ∧ pi_writeopen r' = pi_writeopen r ∧
    loop fuel (λ '(i, got),
      if negb (i <? n) then ret (inr got)
      else
        let! pp := pipe_at p in
        if pipe_empty pp then ret (inr got)
        else
          upd_pipe p pipe_drop ;;
          ret (inl (i + 1, got ++ [pipe_first pp]))) (i, got) s =
    Ok (got ++ take (Z.to_nat (n - i)) q) (with_pipe p r' s).
Proof.
  revert s r q i got. induction fuel as [|fuel IH]; intros s r q i got Hr Hq Hf; [lia|].
  cbn [loop]. destruct (Z.ltb_spec i n) as [Hi|Hi]; simpl.
  2:{ exists r. replace (Z.to_nat (n - i)) with 0%nat by lia.
      rewrite with_pipe_id, take_0, app_nil_r by done. done. }
  destruct q as [|b q].
  { exists r. rewrite drop_nil, take_nil, app_nil_r, with_pipe_id by done. split_and!; [done..|].
    erewrite bind_Ok.
    2:{ erewrite bind_Ok by by apply pipe_at_eq.
        by rewrite (pipe_empty_rep _ _ Hq), bool_decide_eq_true_2. }
    done. }
  destruct (pipe_drop_rep r b q Hq) as [Hb Hq1].
  destruct (IH (with_pipe p (pipe_drop r) s) (pipe_drop r) q (i + 1) (got ++ [b]))
    as (r' & Hq' & E1 & E2 & E); [simpl; by rewrite lookup_insert_eq|done|lia|].
  replace (Z.to_nat (n - i)) with (S (Z.to_nat (n - (i + 1)))) by lia.
  exists r'. split_and!; [done..|]. erewrite bind_Ok.
  2:{ erewrite bind_Ok by by apply pipe_at_eq.
      rewrite (pipe_empty_rep _ _ Hq), bool_decide_eq_false_2 by done.
      by erewrite bind_Ok by by apply upd_pipe_eq. }
  rewrite Hb. fold (with_pipe p (pipe_drop r) s). rewrite E, <-app_assoc. unfold with_pipe. simpl.
  by rewrite insert_insert_eq.
Qed.

(** ** The system calls' code *)

Section claims.
Context `{Env}.

(** wakeup with another lock held leaves the locks and the processor alone. *)
Lemma wakeup_nested s ch :
  sched_ok s → cpu_ok s → LK_ptable ∉ k_held s → k_held s ≠ [] →
  ∃ s', wakeup ch s = Ok tt s' ∧ ps_only s s' ∧ sched_ok s' ∧
    ∀ i p, k_ptable s !! i = Some p → ∃ t, k_ptable s' !! i = Some (woken (Some ch) t p).
Proof.
  intros Hi Hok Hl Hh. destruct (wakeup_any s ch Hi Hok Hl) as (s1 & E & Hi' & _ & Hps & Ht).
  exists (unlock s s1). split_and!; try done.
  unfold ps_only, unlock. rewrite (nested_cpu s Hok Hh). rewrite Hps. by destruct s.
Qed.

(** The end of pipewrite and of piperead: wake the other side, release the lock. *)
Lemma pipe_leave {A} s s1 p r ch (a : A) :
  cpu_ok s → LK_pipe p ∉ k_held s → LK_ptable ∉ k_held s → sched_ok s →
  s1 = with_pipe p r (locked (LK_pipe p) s) →
  ∃ s', (wakeup ch ;; release (LK_pipe p) ;; ret a) s1 = Ok a s' ∧
    k_pipes s' = <[p := r]> (k_pipes s) ∧ k_held s' = k_held s ∧ sched_ok s' ∧
    ∀ i pr, k_ptable s !! i = Some pr → ∃ t, k_ptable s' !! i = Some (woken (Some ch) t pr).
Proof.
  intros Hok Hl Hl2 Hi ->. set (s1 := with_pipe _ _ _).
  assert (Hok1 : cpu_ok s1) by (eapply cpu_ok_same; [by apply (cpu_ok_locked (LK_pipe p) s)|done..]).
  destruct (wakeup_nested s1 ch) as (s2 & E & Hps & Hi2 & Ht); [by apply (sched_ok_same s)|done| |done|].
  { simpl. by intros [?|?]%elem_of_cons. }
  erewrite bind_Ok by exact E. destruct (ps_only_cpu _ _ Hps) as (Ec & Eh & _).
  destruct (unlock_ok (LK_pipe p) s s2) as [Hrel Hok2]; [done..|].
  erewrite bind_Ok by exact Hrel. eexists. split_and!; [done| |done| |exact Ht].
  - simpl. by rewrite Hps.
  - by apply (sched_ok_same s2).
Qed.

(** C34.  In every build, pipewrite of bytes that fit appends them, in order, returns their number,
    and makes every process RUNNABLE that sleeps waiting for data, and no other; no other
    pipe changes and the pipe's lock is free again. *)
Theorem pipewrite_appends s p r q addr :
  cpu_ok s → LK_pipe p ∉ k_held s → LK_ptable ∉ k_held s → sched_ok s →
  k_pipes s !! p = Some r → pipe_rep r q → Z.of_nat (length q + length addr) ≤ PIPESIZE →
  ∃ s' r', pipewrite p addr s = Ok (Z.of_nat (length addr)) s' ∧ pipe_rep r' (q ++ addr) ∧
    k_pipes s' = <[p := r']> (k_pipes s) ∧ k_held s' = k_held s ∧ sched_ok s' ∧
    ∀ i pr, k_ptable s !! i = Some pr → ∃ t, k_ptable s' !! i = Some (woken (Some (CH_nread p)) t pr).
Proof.
  intros Hok Hl Hl2 Hi Hr Hq Hlen. unfold pipewrite. erewrite bind_Ok by by apply acquire_eq.
  replace (FUEL + S (length addr))%nat with (length addr + S FUEL)%nat by lia.
  match goal with |- context [loop _ ?body _] =>
    destruct (pipe_fill (S FUEL) body addr [] (locked (LK_pipe p) s) p r q)
      as (r' & Hq' & _ & _ & E) end; [|done..|].
  { intros b bytes s1 r1 Hr1 Hf. erewrite bind_Ok by by apply pipe_at_eq. rewrite Hf.
    by erewrite bind_Ok by by apply upd_pipe_eq. }
  rewrite app_nil_r in E. rewrite (bind_Ok _ _ _ true _ E). cbn [negb].
  destruct (pipe_leave s _ p r' (CH_nread p) (Z.of_nat (length addr)) Hok Hl Hl2 Hi eq_refl)
    as (s' & El & Ep & Eh & Hs & Ht).
  exists s', r'. split_and!; [exact El|done..].
Qed.

(** pipewrite to a pipe with no reader whose bytes do not fit returns -1, after
    it has filled the pipe with as many of them as fit; the lock is free again. *)
Theorem pipewrite_no_reader s p r q addr :
  cpu_ok s → LK_pipe p ∉ k_held s →
  k_pipes s !! p = Some r → pipe_rep r q → pi_readopen r = false →
  PIPESIZE < Z.of_nat (length q + length addr) →
  ∃ s' r', pipewrite p addr s = Ok (-1) s' ∧ k_held s' = k_held s ∧
    pipe_rep r' (q ++ take (Z.to_nat PIPESIZE - length q) addr) ∧
    k_pipes s' = <[p := r']> (k_pipes s) ∧ k_ptable s' = k_ptable s.
Proof.
  intros Hok Hl Hr Hq Hro Hlen. unfold pipewrite. erewrite bind_Ok by by apply acquire_eq.
  pose proof (pr_room _ _ Hq) as Hroom. set (k := (Z.to_nat PIPESIZE - length q)%nat).
  assert (Htk : length (take k addr) = k) by (rewrite length_take; unfold k, PIPESIZE in *; lia).
  replace (FUEL + S (length addr))%nat with (length (take k addr) + S (FUEL + length addr - k))%nat.
  2:{ rewrite Htk. unfold k, PIPESIZE in *. lia. }
  match goal with |- context [loop _ ?body _] =>
    destruct (pipe_fill (S (FUEL + length addr - k)) body (take k addr) (drop k addr)
      (locked (LK_pipe p) s) p r q) as (r' & Hq' & Hro' & _ & E) end; [|done|done| |].
  { intros b bytes s1 r1 Hr1 Hf. erewrite bind_Ok by by apply pipe_at_eq. rewrite Hf.
    by erewrite bind_Ok by by apply upd_pipe_eq. }
  { rewrite Htk. unfold k, PIPESIZE in *. lia. }
  rewrite take_drop in E. set (s1 := with_pipe p r' (locked (LK_pipe p) s)) in *.
  assert (Hr1 : k_pipes s1 !! p = Some r') by (simpl; by rewrite lookup_insert_eq).
  destruct (unlock_ok (LK_pipe p) s s1) as [Hrel Hok1]; [done..|].
  destruct (drop k addr) as [|b rest] eqn:Ed.
  { apply (f_equal length) in Ed. rewrite length_drop in Ed. simpl in Ed. unfold k, PIPESIZE in *. lia. }
  exists (unlock s s1), r'. split_and!; [|done..]. rewrite (bind_Ok _ _ _ false (unlock s s1)); [done|].
  rewrite E. cbn [loop]. rewrite (bind_Ok _ _ _ (inr false) (unlock s s1)); [done|]. erewrite bind_Ok by by apply pipe_at_eq.
  rewrite (pipe_full_rep _ _ Hq'), bool_decide_eq_true_2.
  2:{ rewrite length_app, Htk. unfold k, PIPESIZE in *. lia. }
  rewrite Hro', Hro. cbn [negb]. rewrite (bind_Ok _ _ _ true s1) by done. cbv beta iota.
  by erewrite bind_Ok by exact Hrel.
Qed.

(** C35.  In every build, piperead, when the pipe has data or no writer, returns the first bytes of the
    queue, n of them or all there are, leaves the rest, and makes every process
    RUNNABLE that sleeps waiting for room, and no other. *)
Theorem piperead_takes s p r q n :
  (0 < FUEL)%nat → cpu_ok s → LK_pipe p ∉ k_held s → LK_ptable ∉ k_held s → sched_ok s →
  k_pipes s !! p = Some r → pipe_rep r q → q ≠ [] ∨ pi_writeopen r = false →
  ∃ s' r', piperead p n s = Ok (Z.of_nat (length (take (Z.to_nat n) q)), take (Z.to_nat n) q) s' ∧
    pipe_rep r' (drop (Z.to_nat n) q) ∧ k_pipes s' = <[p := r']> (k_pipes s) ∧
    k_held s' = k_held s ∧ sched_ok s' ∧
    ∀ i pr, k_ptable s !! i = Some pr → ∃ t, k_ptable s' !! i = Some (woken (Some (CH_nwrite p)) t pr).
Proof.
  intros Hf Hok Hl Hl2 Hi Hr Hq Hne. unfold piperead. erewrite bind_Ok by by apply acquire_eq.
  destruct FUEL as [|fuel]; [lia|]. cbn [loop]. set (s0 := locked (LK_pipe p) s).
  rewrite (bind_Ok _ _ _ true s0).
  2:{ rewrite (bind_Ok _ _ _ (inr true) s0); [done|]. erewrite bind_Ok by by apply pipe_at_eq.
      rewrite (pipe_empty_rep _ _ Hq).
      destruct Hne as [Hne|Hw]; [by rewrite bool_decide_eq_false_2|by rewrite Hw, andb_false_r]. }
  cbn [negb]. destruct (pipe_copy_loop (S (Z.to_nat n)) (locked (LK_pipe p) s) p r q n 0 [])
    as (r' & Hq' & _ & _ & E); [done|done|lia|].
  rewrite Z.sub_0_r in *. erewrite bind_Ok by exact E. simpl app.
  destruct (pipe_leave s _ p r' (CH_nwrite p)
    (Z.of_nat (length (take (Z.to_nat n) q)), take (Z.to_nat n) q) Hok Hl Hl2 Hi eq_refl)
    as (s' & El & Ep & Eh & Hs & Ht).
  exists s', r'. split_and!; [exact El|done..].
Qed.
End claims.

(** ** Instances *)

(** An empty pipe whose counters are about to wrap around. *)
Definition old_pipe (readopen : bool) : pipe :=
  mk_pipe (replicate (Z.to_nat PIPESIZE) 0) 4294967295 4294967295 readopen true.
Lemma old_pipe_rep b : pipe_rep (old_pipe b) [].
Proof. split; [apply length_replicate|simpl; lia|done|done|]. intros i Hi. simpl in Hi. lia. Qed.

Definition piped (r : pipe) : kernel := set_k_pipes {[0x8d000000 := r]} busy.
Lemma piped_ok r : @sched_ok (sample_env RR) (piped r).
Proof. split; [reflexivity|discriminate]. Qed.
Lemma piped_cpu r : cpu_ok (piped r).
Proof. by eapply (cpu_ok_same busy); [apply busy_cpu|..]. Qed.

Lemma pipewrite_appends_witness :
  ∃ s' r', @pipewrite (sample_env RR) 0x8d000000 [104; 105] (piped (old_pipe true)) = Ok 2 s' ∧
    pipe_rep r' [104; 105] ∧ k_pipes s' !! 0x8d000000 = Some r'.
Proof.
  destruct (@pipewrite_appends (sample_env RR) (piped (old_pipe true))
    0x8d000000 (old_pipe true) [] [104; 105]) as (s' & r' & E & Hr & Hp & _).
  - apply piped_cpu.
  - apply not_elem_of_nil.
  - apply not_elem_of_nil.
  - apply piped_ok.
  - reflexivity.
  - apply old_pipe_rep.
  - unfold PIPESIZE. simpl. lia.
  - exists s', r'. split; [exact E|]. split; [exact Hr|]. rewrite Hp. apply lookup_insert_eq.
Defined.

Lemma pipewrite_no_reader_witness :
  ∃ s', @pipewrite (sample_env RR) 0x8d000000 (replicate 513 1) (piped (old_pipe false)) = Ok (-1) s'.
Proof.
  destruct (@pipewrite_no_reader (sample_env RR) (piped (old_pipe false))
    0x8d000000 (old_pipe false) [] (replicate 513 1)) as (s' & r' & E & _).
  - apply piped_cpu.
  - apply not_elem_of_nil.
  - reflexivity.
  - apply old_pipe_rep.
  - reflexivity.
  - rewrite length_replicate. unfold PIPESIZE. simpl. lia.
  - exists s'. exact E.
Defined.

Lemma piperead_takes_witness :
  ∃ s', @piperead (sample_env RR) 0x8d000000 10 (piped (pipe_put 104 (old_pipe true))) =
    Ok (1, [104]) s'.
Proof.
  destruct (@piperead_takes (sample_env RR) (piped (pipe_put 104 (old_pipe true)))
    0x8d000000 (pipe_put 104 (old_pipe true)) [104] 10) as (s' & r' & E & _).
  - simpl. lia.
  - apply piped_cpu.
  - apply not_elem_of_nil.
  - apply not_elem_of_nil.
  - apply piped_ok.
  - reflexivity.
  - apply (pipe_put_rep (old_pipe true) []); [apply old_pipe_rep|]. reflexivity.
  - left. discriminate.
  - exists s'. exact E.
Defined.
