(* ===== verification/SyscallThm.v ===== *)
(** * SyscallThm: the checks on system call arguments (syscall.c)

    With the caller's address space mapped up to [sz], the argument functions
    return for every argument, never fault, and accept exactly the addresses that
    lie inside the space. *)

From stdpp Require Import base numbers gmap strings option list.
From S2P Require Import Prelude Format Machine Boot Mem Mlfq ProcCore Kalloc Vm Syscall.
From S2P Require Import MlfqInv MlfqOps MlfqBoot.
Local Open Scope kernel_scope.
Local Open Scope Z_scope.

(** ** The user's memory *)

(** The byte at user address [va] in the page table of %cr3. *)
Definition user_byte (s : kernel) (va : Z) : option Z :=
  pde ← word (k_mem s) (P2V (c_cr3 (k_cpu s)) + 4 * PDX va);
  if negb (has pde PTE_P) then None
  else
    pte ← word (k_mem s) (P2V (PTE_ADDR pde) + 4 * PTX va);
    if negb (has pte PTE_P) then None else k_mem s !! (P2V (PTE_ADDR pte) + va mod PGSIZE).
Definition user_word (s : kernel) (va : Z) : option Z :=
  b0 ← user_byte s va; b1 ← user_byte s (va + 1);
  b2 ← user_byte s (va + 2); b3 ← user_byte s (va + 3);
  Some (b0 + 2 ^ 8 * b1 + 2 ^ 16 * b2 + 2 ^ 24 * b3).

Lemma uload8_eq s va b : user_byte s va = Some b → uload8 va s = Ok b s.
Proof.
  unfold user_byte. intros (pde & Hpde & Hb)%bind_Some. unfold uload8, translate.
  destruct (has pde PTE_P) eqn:E1; [|done]. simpl in Hb. apply bind_Some in Hb as (pte & Hpte & Hb).
  destruct (has pte PTE_P) eqn:E2; [|done]. simpl in Hb.
  rewrite (bind_Ok _ _ _ (P2V (PTE_ADDR pte) + va mod PGSIZE) s); [by apply load8_eq|].
  erewrite bind_Ok by done. erewrite bind_Ok by by apply load32_eq. rewrite E1. cbn [negb]. cbv iota.
  erewrite bind_Ok by by apply load32_eq. by rewrite E2.
Qed.

Lemma uload32_eq s va v : user_word s va = Some v → uload32 va s = Ok v s.
Proof.
  unfold user_word. intros (b0 & H0 & (b1 & H1 & (b2 & H2 & (b3 & H3 & [= <-])%bind_Some
    )%bind_Some)%bind_Some)%bind_Some.
  unfold uload32. by do 4 (erewrite bind_Ok by by apply uload8_eq).
Qed.

(** The caller [i] runs with [sz] bytes mapped from address 0; every byte is one. *)
Record caller (s : kernel) (i : nat) (p : proc) : Prop := {
  ca_cpu : cpu_ok s;
  ca_proc : c_proc (k_cpu s) = Some i;
  ca_slot : k_ptable s !! i = Some p;
  ca_sz : 0 ≤ p_sz p ≤ KERNBASE;
  ca_space va : 0 ≤ va < p_sz p → ∃ b, user_byte s va = Some b ∧ 0 ≤ b < 256;
}.

Lemma user_byte_touched s va : user_byte (touched s) va = user_byte s va.
Proof. done. Qed.
Lemma user_word_touched s va : user_word (touched s) va = user_word s va.
Proof. done. Qed.

Lemma caller_touched s i p : caller s i p → caller (touched s) i p.
Proof. intros [? ? ? ? ?]. split; [by apply cpu_ok_touched|done..]. Qed.

Lemma curproc_eq s i p : caller s i p → curproc s = Ok (i, p) (touched s).
Proof.
  intros [Hok Hp Hs _ _]. unfold curproc. erewrite bind_Ok by by apply myproc_eq.
  rewrite Hp. erewrite bind_Ok by done. by erewrite bind_Ok by by apply proc_at_eq.
Qed.

Lemma user_word_space s i p va :
  caller s i p → 0 ≤ va → va + 4 ≤ p_sz p → ∃ v, user_word s va = Some v ∧ 0 ≤ v < 2 ^ 32.
Proof.
  intros Hc H0 H4. unfold user_word.
  destruct (ca_space _ _ _ Hc va) as (b0 & -> & ?); [lia|].
  destruct (ca_space _ _ _ Hc (va + 1)) as (b1 & -> & ?); [lia|].
  destruct (ca_space _ _ _ Hc (va + 2)) as (b2 & -> & ?); [lia|].
  destruct (ca_space _ _ _ Hc (va + 3)) as (b3 & -> & ?); [lia|].
  eexists. split; [done|]. lia.
Qed.

(** ** fetchint, argint *)

Definition fetched (s : kernel) (sz addr : Z) : option Z :=
  if decide (addr + 4 ≤ sz) then i32 <$> user_word s addr else None.

Lemma fetchint_eq s i p addr :
  caller s i p → 0 ≤ addr < 2 ^ 32 → fetchint addr s = Ok (fetched s (p_sz p) addr) (touched s).
Proof.
  intros Hc Ha. pose proof (ca_sz _ _ _ Hc) as Hsz. unfold KERNBASE in Hsz.
  unfold fetchint. erewrite bind_Ok by by apply curproc_eq. cbv beta zeta. cbn [snd]. unfold fetched.
  destruct (Z.leb_spec (p_sz p) addr) as [H1|H1]; simpl.
  { by rewrite decide_False by lia. }
  rewrite u32_small by lia. destruct (Z.ltb_spec (p_sz p) (addr + 4)) as [H2|H2].
  { by rewrite decide_False by lia. }
  rewrite decide_True by lia. destruct (user_word_space s i p addr Hc) as (v & Hv & _); [lia..|].
  rewrite Hv. by erewrite bind_Ok by (apply uload32_eq; by rewrite user_word_touched).
Qed.

Lemma argint_eq s i p n :
  caller s i p → 
  ∃ s', argint n s = Ok (fetched s (p_sz p) (u32 (tf_esp (p_tf p) + 4 + 4 * n))) s' ∧
    caller s' i p ∧ (∀ va, user_byte s' va = user_byte s va).
Proof.
  intros Hc. unfold argint. erewrite bind_Ok by by apply curproc_eq. simpl snd.
  exists (touched (touched s)). split_and!; [|by repeat apply caller_touched|done].
  erewrite fetchint_eq; [done|by apply caller_touched|apply u32_range].
Qed.

(** ** The claims *)

(** C39.  argptr accepts a pointer argument exactly when the whole block lies in the
    caller's address space: it returns a pointer iff the argument word itself is in
    the space, the size is not negative and [ptr, ptr+size) is in the space too.
    It never faults, and the word after the check of an accepted block cannot wrap. *)
Theorem argptr_checks s i p n size :
  caller s i p → - 2 ^ 31 ≤ size < 2 ^ 31 →
  ∃ r s', argptr n size s = Ok r s' ∧
    ∀ ptr, r = Some ptr ↔
      ∃ v, fetched s (p_sz p) (u32 (tf_esp (p_tf p) + 4 + 4 * n)) = Some v ∧ ptr = u32 v ∧
        0 ≤ size ∧ ptr < p_sz p ∧ ptr + size ≤ p_sz p.
Proof.
  intros Hc Hsize. pose proof (ca_sz _ _ _ Hc) as Hsz. unfold KERNBASE in Hsz.
  unfold argptr. erewrite bind_Ok by by apply curproc_eq.
  destruct (argint_eq (touched s) i p n) as (s' & E & _); [by apply caller_touched|].
  erewrite bind_Ok by exact E.
  change (fetched (touched s)) with (fetched s). destruct (fetched s _ _) as [v|].
  2:{ exists None, s'. split; [done|]. intros ptr. split; [done|]. by intros (v & [=] & _). }
  cbv zeta. cbn [snd]. pose proof (u32_range v) as Hv.
  destruct (Z.ltb_spec size 0) as [H1|H1]; simpl.
  { exists None, s'. split; [done|]. intros ptr. split; [done|].
    intros (v' & [= <-] & -> & ?). lia. }
  destruct (Z.leb_spec (p_sz p) (u32 v)) as [H2|H2]; simpl.
  { exists None, s'. split; [done|]. intros ptr. split; [done|].
    intros (v' & [= <-] & -> & ?). lia. }
  rewrite (u32_small (u32 v + size)) by lia.
  destruct (Z.ltb_spec (p_sz p) (u32 v + size)) as [H3|H3].
  - exists None, s'. split; [done|]. intros ptr. split; [done|].
    intros (v' & [= <-] & -> & ?). lia.
  - exists (Some (u32 v)), s'. split; [done|]. intros ptr. split.
    + intros [= <-]. exists v. done.
    + by intros (v' & [= <-] & -> & _).
Qed.

(** The bytes [l] stand at [addr], none of them 0. *)
Definition string_at (s : kernel) (addr : Z) (l : list Z) : Prop :=
  ∀ k b, l !! k = Some b → user_byte s (addr + Z.of_nat k) = Some b ∧ b ≠ 0.

(** The string that starts at [addr] and ends below [sz], if there is one. *)
Definition str_result (s : kernel) (sz addr : Z) (r : option (list Z)) : Prop :=
  match r with
  | Some l => string_at s addr l ∧ user_byte s (addr + Z.of_nat (length l)) = Some 0 ∧
      addr + Z.of_nat (length l) < sz
  | None => ∀ va, addr ≤ va < sz → user_byte s va ≠ Some 0
  end.

Lemma fetchstr_loop s i p addr fuel acc :
  caller s i p → 0 ≤ addr →
  (Z.to_nat (p_sz p - (addr + Z.of_nat (length acc))) < fuel)%nat →
  string_at s addr acc → addr + Z.of_nat (length acc) ≤ p_sz p →
  ∃ r, loop fuel (λ '(a, acc),
      if negb (a <? p_sz p) then ret (inr None)
      else
        let! b := uload8 a in
        if b =? 0 then ret (inr (Some acc)) else ret (inl (a + 1, acc ++ [b])))
      (addr + Z.of_nat (length acc), acc) s = Ok r s ∧ str_result s (p_sz p) addr r.
Proof.
  intros Hc Ha. revert acc. induction fuel as [|fuel IH]; intros acc Hf Hacc Hle; [lia|].
  cbn [loop]. destruct (Z.ltb_spec (addr + Z.of_nat (length acc)) (p_sz p)) as [Hlt|Hge].
  2:{ exists None. split; [done|]. intros va Hva Hz.
      destruct (lookup_lt_is_Some_2 acc (Z.to_nat (va - addr))) as [b Hb]; [lia|].
      destruct (Hacc _ _ Hb) as [Hb' Hne]. replace (addr + _) with va in Hb' by lia. congruence. }
  cbn [negb]. destruct (ca_space _ _ _ Hc (addr + Z.of_nat (length acc))) as (b & Hb & _); [lia|].
  destruct (Z.eqb_spec b 0) as [->|Hne].
  { exists (Some acc). split; [|done]. rewrite (bind_Ok _ _ _ (inr (Some acc)) s); [done|].
    by erewrite bind_Ok by by apply uload8_eq. }
  destruct (IH (acc ++ [b])) as (r & E & Hr).
  - rewrite length_app. simpl. lia.
  - intros k x [Hk|[Hk Hx]]%lookup_app_Some; [by apply Hacc|].
    destruct (k - length acc)%nat eqn:Ek; [|done]. injection Hx as <-.
    by replace (Z.of_nat k) with (Z.of_nat (length acc)) by lia.
  - rewrite length_app. simpl. lia.
  - exists r. split; [|done]. rewrite <-E.
    rewrite (bind_Ok _ _ _ (inl (addr + Z.of_nat (length acc) + 1, acc ++ [b])) s).
    2:{ erewrite bind_Ok by by apply uload8_eq. by rewrite (proj2 (Z.eqb_neq _ _) Hne). }
    cbv beta iota. by replace (addr + Z.of_nat (length acc) + 1) with
      (addr + Z.of_nat (length (acc ++ [b]))) by (rewrite length_app; simpl; lia).
Qed.

(** fetchstr returns the bytes up to the first NUL when there is one below the
    end of the caller's space, and fails otherwise; it never faults. *)
Theorem fetchstr_scans s i p addr :
  caller s i p → 0 ≤ addr →
  ∃ r, fetchstr addr s = Ok r (touched s) ∧ str_result s (p_sz p) addr r.
Proof.
  intros Hc Ha. unfold fetchstr. erewrite bind_Ok by by apply curproc_eq. cbv zeta. cbn [snd].
  destruct (Z.leb_spec (p_sz p) addr) as [H1|H1].
  { exists None. split; [done|]. intros va. lia. }
  destruct (fetchstr_loop (touched s) i p addr (S (Z.to_nat (p_sz p - addr))) [])
    as (r & E & Hr); [by apply caller_touched|done|simpl; lia|by intros k b Hk|simpl; lia|].
  simpl length in E. rewrite Z.add_0_r in E. exists r. split; [exact E|]. by destruct r.
Qed.

(** ** Instances *)

(** A process with 64 mapped bytes: at its stack pointer 0 the return address, the
    pointer argument 8 and then the string "ls". *)
Definition small_mem : gmap Z Z :=
  mem_write 0x8dffe000 (bytes32 (V2P 0x8dffd000 + 7))
    (mem_write 0x8dffd000 (bytes32 (V2P 0x8dffc000 + 7))
      (mem_write 0x8dffc000 (bytes32 0 ++ bytes32 8 ++ [108; 115] ++ replicate 54 0) ∅)).
Definition small_proc : proc := set_p_sz 64 (sample_proc RUNNING 1 0 0).
Definition small : kernel :=
  set_k_mem small_mem (set_k_ptable (small_proc :: replicate 63 zero_proc)
    (set_k_cpu (set_c_cr3 (V2P 0x8dffe000) (set_c_proc (Some 0%nat) zero_cpu)) zero_kernel)).

Lemma small_caller : caller small 0 small_proc.
Proof.
  split; [by split; [| |constructor]|done|done|done|]. intros va Hva.
  assert (Ht : Forall (λ va, ∃ b, user_byte small va = Some b ∧ 0 ≤ b < 256) (seqZ 0 64)).
  { eapply Forall_impl with (P := λ va, match user_byte small va with
      | Some b => (0 <=? b) && (b <? 256) | None => false end = true).
    - apply (bool_decide_unpack _). by vm_compute.
    - intros x Hx. destruct (user_byte small x) as [b|]; [|done]. exists b. split; [done|].
      apply andb_true_iff in Hx as [?%Z.leb_le ?%Z.ltb_lt]. done. }
  rewrite Forall_forall in Ht. apply Ht, elem_of_seqZ. simpl in Hva. lia.
Qed.

Lemma argptr_checks_witness :
  ∃ r s', argptr 0 56 small = Ok r s' ∧ r = Some 8.
Proof.
  destruct (argptr_checks small 0 small_proc 0 56 small_caller) as (r & s' & E & H); [lia|].
  exists r, s'. split; [exact E|]. apply H. exists 8.
  split; [vm_compute; reflexivity|]. split; [reflexivity|]. split; [lia|]. simpl. lia.
Defined.

Lemma fetchstr_scans_witness :
  fetchstr 8 small = Ok (Some [108; 115]) (touched small) ∧
  ∃ r, fetchstr 8 small = Ok r (touched small) ∧ str_result small 64 8 r.
Proof.
  split; [vm_compute; reflexivity|].
  exact (fetchstr_scans small 0 small_proc 8 small_caller ltac:(lia)).
Defined.
