(* ===== verification/User.v ===== *)
(** * User: the user library (ulib.c, printf.c, usys.S)

    A user program runs against an operating system: a state and the answer to each
    system call, of type [OSys].  [exit()] ends the run, as does an [exec] that
    succeeds: they are the outcomes [Panic "exit"] and [Panic "exec"].  A C string
    is the list of its bytes without the terminator. *)

From stdpp Require Import base numbers gmap strings option list.
From S2P Require Import Prelude Format.
Local Open Scope kernel_scope.
Local Open Scope Z_scope.

(** ** System calls *)

Inductive sysreq :=
  | SYS_fork | SYS_exit | SYS_wait | SYS_pipe
  | SYS_read (fd n : Z) | SYS_write (fd : Z) (data : list Z) | SYS_close (fd : Z)
  | SYS_kill (pid : Z) | SYS_exec (path : list Z) (argv : list (list Z))
  | SYS_open (path : list Z) (mode : Z) | SYS_mknod (path : list Z) (major minor : Z)
  | SYS_unlink (path : list Z) | SYS_fstat (fd : Z) | SYS_link (old new : list Z)
  | SYS_mkdir (path : list Z) | SYS_chdir (path : list Z) | SYS_dup (fd : Z)
  | SYS_getpid | SYS_sbrk (n : Z) | SYS_sleep (n : Z) | SYS_uptime
  | SYS_waitx | SYS_getps | SYS_set_priority (priority pid : Z).

(** The state of the system, and the answer to a call: the value returned and the
    words or bytes it stored through its pointer arguments. *)
Class OSys := {
  os : Type;
  sys : sysreq → os → (Z * list Z) * os;
  UFUEL : nat;
}.

Section user.
Context `{OSys}.

Notation U := (M os).

Definition call (r : sysreq) : U (Z * list Z) := λ s, let '(a, s') := sys r s in Ok a s'.

Definition exit {A} : U A :=
  call SYS_exit ;;
  panic "exit".
Definition fork : U Z := let! a := call SYS_fork in ret (fst a).
Definition wait : U Z := let! a := call SYS_wait in ret (fst a).
(** The two descriptors are the words stored. *)
Definition pipe : U (Z * list Z) := call SYS_pipe.
(** The bytes stored in the buffer: at most [n] of them. *)
Definition read (fd n : Z) : U (Z * list Z) := call (SYS_read fd n).
Definition write (fd : Z) (data : list Z) : U Z := let! a := call (SYS_write fd data) in ret (fst a).
Definition close (fd : Z) : U Z := let! a := call (SYS_close fd) in ret (fst a).
Definition kill (pid : Z) : U Z := let! a := call (SYS_kill pid) in ret (fst a).
(** [exec] returns only when it fails. *)
Definition exec (path : list Z) (argv : list (list Z)) : U Z :=
  let! a := call (SYS_exec path argv) in
  if fst a <? 0 then ret (fst a) else panic "exec".
Definition open (path : list Z) (mode : Z) : U Z :=
  let! a := call (SYS_open path mode) in ret (fst a).
Definition mknod (path : list Z) (major minor : Z) : U Z :=
  let! a := call (SYS_mknod path major minor) in ret (fst a).
Definition unlink (path : list Z) : U Z := let! a := call (SYS_unlink path) in ret (fst a).
(** [struct stat]: type, dev, ino, nlink, size *)
Definition fstat (fd : Z) : U (Z * list Z) := call (SYS_fstat fd).
Definition link (old new : list Z) : U Z := let! a := call (SYS_link old new) in ret (fst a).
Definition mkdir (path : list Z) : U Z := let! a := call (SYS_mkdir path) in ret (fst a).
Definition chdir (path : list Z) : U Z := let! a := call (SYS_chdir path) in ret (fst a).
Definition dup (fd : Z) : U Z := let! a := call (SYS_dup fd) in ret (fst a).
Definition sbrk (n : Z) : U Z := let! a := call (SYS_sbrk n) in ret (fst a).
Definition sleep (n : Z) : U Z := let! a := call (SYS_sleep n) in ret (fst a).
(** The words stored are [*wtime] and [*rtime]. *)
Definition waitx : U (Z * list Z) := call SYS_waitx.
Definition getps : U Z := let! a := call SYS_getps in ret (fst a).
Definition set_priority (priority pid : Z) : U Z :=
  let! a := call (SYS_set_priority priority pid) in ret (fst a).

(** ** ulib.c *)

Fixpoint strcmp (p q : list Z) : Z :=
  match p, q with
  | a :: p', b :: q' => if a =? b then strcmp p' q' else a - b
  | a :: _, [] => a
  | [], b :: _ => - b
  | [], [] => 0
  end.

Definition strlen (s : list Z) : Z := Z.of_nat (length s).

(** The suffix of [s] that starts with [c]; [None] is NULL. *)
Fixpoint strchr (s : list Z) (c : Z) : option (list Z) :=
  match s with
  | [] => None
  | x :: s' => if x =? c then Some s else strchr s' c
  end.

(** The string in [buf] afterwards. *)
Definition gets (max : Z) : U (list Z) :=
  loop (S (Z.to_nat max)) (λ acc,
    if negb (Z.of_nat (length acc) + 1 <? max) then ret (inr acc)
    else
      let! a := read 0 1 in
      let '(cc, data) := a in
      if cc <? 1 then ret (inr acc)
      else
        let c := hd 0 data in
        let acc := acc ++ [c] in
        if (c =? 10) || (c =? 13) then ret (inr acc) else ret (inl acc)) [].

(** The result and [*st]. *)
Definition stat (n : list Z) : U (Z * list Z) :=
  let! fd := open n 0 in
  if fd <? 0 then ret (-1, [])
  else
    let! r := fstat fd in
    close fd ;;
    ret r.

(** [n = n*10 + *s++ - '0'] while there are digits. *)
Fixpoint atoi_loop (n : Z) (s : list Z) : Z :=
  match s with
  | c :: s' => if (48 <=? c) && (c <=? 57) then atoi_loop (i32 (n * 10 + c - 48)) s' else n
  | [] => n
  end.
Definition atoi (s : list Z) : Z := atoi_loop 0 s.

(** [while(n-- > 0) *dst++ = *src++] inside one array, at indices [dst] and [src]. *)
Fixpoint memmove (buf : list Z) (dst src n : nat) : list Z :=
  match n with
  | O => buf
  | S n => memmove (<[dst := nth src buf 0]> buf) (S dst) (S src) n
  end.

(** ** printf.c *)

(** An argument: a word, a string, or a NULL string. *)
Inductive uarg := UInt (z : Z) | UStr (s : list Z) | UNull.

Definition putc (fd c : Z) : U unit :=
  write fd [u8 c] ;;
  ret tt.
Definition puts (fd : Z) (s : list Z) : U unit := for_each s (putc fd).

Definition udigits : list Z :=
  [48; 49; 50; 51; 52; 53; 54; 55; 56; 57; 65; 66; 67; 68; 69; 70].
(** [do { buf[i++] = digits[x % base]; } while((x /= base) != 0);] *)
Fixpoint udigit_loop (fuel : nat) (x base : Z) : list Z :=
  match fuel with
  | O => []
  | S fuel =>
      let d := nth (Z.to_nat (x mod base)) udigits 0 in
      if x / base =? 0 then [d] else d :: udigit_loop fuel (x / base) base
  end.
Definition printint (fd xx base : Z) (sgn : bool) : U unit :=
  let neg := sgn && (xx <? 0) in
  let x := if neg then u32 (- xx) else u32 xx in
  let buf := udigit_loop 32 x base in
  let buf := if neg then buf ++ [45] else buf in
  puts fd (rev buf).

(** The loop over [fmt]; [pct] says that [state] is the percent sign. *)
Fixpoint printf_loop (fd : Z) (fmt : list Z) (pct : bool) (ap : list uarg) : U unit :=
  match fmt with
  | [] => ret tt
  | c :: fmt' =>
      if negb pct then
        if c =? 37 then printf_loop fd fmt' true ap
        else
          putc fd c ;;
          printf_loop fd fmt' false ap
      else if c =? 100 then
        match ap with
        | UInt z :: ap' => printint fd z 10 true ;; printf_loop fd fmt' false ap'
        | _ => undef "printf argument"
        end
      else if (c =? 120) || (c =? 112) then
        match ap with
        | UInt z :: ap' => printint fd z 16 false ;; printf_loop fd fmt' false ap'
        | _ => undef "printf argument"
        end
      else if c =? 115 then
        match ap with
        | UStr s :: ap' => puts fd s ;; printf_loop fd fmt' false ap'
        | UNull :: ap' => puts fd (chars "(null)") ;; printf_loop fd fmt' false ap'
        | _ => undef "printf argument"
        end
      else if c =? 99 then
        match ap with
        | UInt z :: ap' => putc fd z ;; printf_loop fd fmt' false ap'
        | _ => undef "printf argument"
        end
      else if c =? 37 then
        putc fd c ;;
        printf_loop fd fmt' false ap
      else
        putc fd 37 ;;
        putc fd c ;;
        printf_loop fd fmt' false ap
  end.
Definition printf (fd : Z) (fmt : string) (ap : list uarg) : U unit :=
  printf_loop fd (chars fmt) false ap.
End user.
Notation U := (M os).
