(* ===== verification/Grep.v ===== *)
(** * Grep: the regular expression matcher and the line loop of grep.c

    [matchhere], [matchstar] and [match] are defined as they are written, with fuel
    for their mutual recursion, and shown to decide the language of the pattern. *)

From stdpp Require Import base numbers gmap strings option list.
From S2P Require Import Prelude Format User.
Local Open Scope kernel_scope.
Local Open Scope Z_scope.

(** ** The matcher; [None] is the end of the fuel *)

(** The loop of [matchstar], with [matchhere re] given. *)
Fixpoint matchstar_loop (here : list Z → option bool) (c : Z) (text : list Z) : option bool :=
  match here text with
  | None => None
  | Some true => Some true
  | Some false =>
      match text with
      | [] => Some false
      | t :: text' => if (t =? c) || (c =? 46) then matchstar_loop here c text' else Some false
      end
  end.

Fixpoint matchhere (fuel : nat) (re text : list Z) : option bool :=
  match fuel with
  | O => None
  | S fuel =>
      match re with
      | [] => Some true
      | r0 :: re1 =>
          if bool_decide (head re1 = Some 42) then
            matchstar_loop (matchhere fuel (tl re1)) r0 text
          else if (r0 =? 36) && bool_decide (re1 = []) then Some (bool_decide (text = []))
          else
            match text with
            | t :: text' => if (r0 =? 46) || (r0 =? t) then matchhere fuel re1 text' else Some false
            | [] => Some false
            end
      end
  end.
Definition matchstar (fuel : nat) (c : Z) (re text : list Z) : option bool :=
  matchstar_loop (matchhere fuel re) c text.

(** The loop of [match] over the suffixes of the text. *)
Fixpoint match_loop (here : list Z → option bool) (text : list Z) : option bool :=
  match here text with
  | None => None
  | Some true => Some true
  | Some false => match text with [] => Some false | _ :: text' => match_loop here text' end
  end.
Definition match_ (re text : list Z) : option bool :=
  match re with
  | 94 :: re' => matchhere (S (length re')) re' text
  | _ => match_loop (matchhere (S (length re)) re) text
  end.

(** ** The language of a pattern *)

(** Pattern syntax: [x*], [$] at the end, a dot, any other character. *)
Inductive item := IStar (c : Z) | IChar (c : Z).
Definition accepts (c t : Z) : Prop := c = 46 ∨ c = t.

(** [lang re text rest]: a prefix of [text] is a word of [re], and [rest] is what
    follows it. *)
Inductive lang : list Z → list Z → list Z → Prop :=
  | lang_nil text : lang [] text text
  | lang_end : lang [36] [] []
  | lang_star_done c re text rest : lang re text rest → lang (c :: 42 :: re) text rest
  | lang_star_more c t re text rest :
      accepts c t → lang (c :: 42 :: re) text rest → lang (c :: 42 :: re) (t :: text) rest
  | lang_char c t re text rest :
      head re ≠ Some 42 → (c ≠ 36 ∨ re ≠ []) → accepts c t →
      lang re text rest → lang (c :: re) (t :: text) rest.

(** A pattern matches at the start of [text]; anywhere in it; and, with [^], only at
    the start. *)
Definition matches_here (re text : list Z) : Prop := ∃ rest, lang re text rest.
Definition matches (re text : list Z) : Prop :=
  match re with
  | 94 :: re' => matches_here re' text
  | _ => ∃ pre suf, text = pre ++ suf ∧ matches_here re suf
  end.

(** ** Correctness *)

(** [here] decides [matches_here re]. *)
Definition decides (here : list Z → option bool) (re : list Z) : Prop :=
  ∀ text, ∃ b, here text = Some b ∧ (b = true ↔ matches_here re text).

Lemma lang_star_inv c re text :
  matches_here (c :: 42 :: re) text ↔
  matches_here re text ∨
  ∃ t text', text = t :: text' ∧ accepts c t ∧ matches_here (c :: 42 :: re) text'.
Proof.
  split.
  - intros (rest & Hl). inversion Hl; subst; [left; by exists rest| |simpl in *; congruence].
    right. eexists _, _. split_and!; [done|done|by exists rest].
  - intros [(rest & Hl)|(t & text' & -> & Ha & rest & Hl)]; exists rest.
    + by apply lang_star_done.
    + by apply lang_star_more.
Qed.

Lemma matchstar_loop_decides here c re :
  decides here re → decides (matchstar_loop here c) (c :: 42 :: re).
Proof.
  intros Hh text. induction text as [|t text IH]; simpl.
  - destruct (Hh []) as (b & -> & Hb). exists b. split; [by destruct b|].
    rewrite Hb, lang_star_inv. naive_solver.
  - destruct (Hh (t :: text)) as (b & -> & Hb). destruct b.
    { exists true. split; [done|]. rewrite lang_star_inv. naive_solver. }
    assert (Hn : ¬ matches_here re (t :: text)) by naive_solver.
    destruct ((t =? c) || (c =? 46)) eqn:E.
    + destruct IH as (b & -> & Hb'). exists b. split; [done|]. rewrite Hb', (lang_star_inv c re (t :: text)).
      assert (accepts c t).
      { apply orb_true_iff in E as [E%Z.eqb_eq|E%Z.eqb_eq]; [by right|by left]. }
      naive_solver.
    + exists false. split; [done|]. rewrite lang_star_inv.
      apply orb_false_iff in E as [E1%Z.eqb_neq E2%Z.eqb_neq]. unfold accepts. naive_solver.
Qed.

Lemma lang_char_inv c re text :
  head re ≠ Some 42 → (c ≠ 36 ∨ re ≠ []) →
  matches_here (c :: re) text ↔ ∃ t text', text = t :: text' ∧ accepts c t ∧ matches_here re text'.
Proof.
  intros Hs He. split.
  - intros (rest & Hl). inversion Hl; subst; simpl in *; try naive_solver.
    eexists _, _. split_and!; [done|done|by eexists].
  - intros (t & text' & -> & Ha & rest & Hl). exists rest. by apply lang_char.
Qed.

Lemma matchhere_decides fuel re :
  (length re < fuel)%nat → decides (matchhere fuel re) re.
Proof.
  revert re. induction fuel as [|fuel IH]; intros re Hf; [lia|].
  intros text. cbn [matchhere]. destruct re as [|r0 re1].
  { exists true. split; [done|]. split; [|done]. intros _. exists text. constructor. }
  simpl in Hf. case_bool_decide as Hstar.
  { destruct re1 as [|x re2]; [done|]. injection Hstar as ->. simpl.
    apply matchstar_loop_decides, IH. simpl in Hf. lia. }
  destruct ((r0 =? 36) && bool_decide (re1 = [])) eqn:Eend.
  { apply andb_true_iff in Eend as [->%Z.eqb_eq ->%bool_decide_eq_true].
    eexists. split; [done|]. rewrite bool_decide_eq_true. split.
    - intros ->. exists []. constructor.
    - intros (rest & Hl). inversion Hl; subst; simpl in *; [done|naive_solver]. }
  assert (He : r0 ≠ 36 ∨ re1 ≠ []).
  { apply andb_false_iff in Eend as [?%Z.eqb_neq|?%bool_decide_eq_false]; auto. }
  setoid_rewrite (lang_char_inv r0 re1 text Hstar He). destruct text as [|t text'].
  { exists false. split; [done|]. naive_solver. }
  destruct ((r0 =? 46) || (r0 =? t)) eqn:E.
  - destruct (IH re1 ltac:(lia) text') as (b & -> & Hb). exists b. split; [done|]. rewrite Hb.
    assert (accepts r0 t) by (apply orb_true_iff in E as [?%Z.eqb_eq|?%Z.eqb_eq]; [by left|by right]).
    naive_solver.
  - exists false. split; [done|]. apply orb_false_iff in E as [E1%Z.eqb_neq E2%Z.eqb_neq].
    unfold accepts. naive_solver.
Qed.

Lemma match_loop_decides here re text :
  decides here re →
  ∃ b, match_loop here text = Some b ∧
    (b = true ↔ ∃ pre suf, text = pre ++ suf ∧ matches_here re suf).
Proof.
  intros Hh. induction text as [|t text IH]; simpl.
  - destruct (Hh []) as (b & -> & Hb). exists b. split; [by destruct b|]. rewrite Hb. split.
    + intros Hm. by exists [], [].
    + intros (pre & suf & E & Hm). symmetry in E. apply app_nil in E as [-> ->]. done.
  - destruct (Hh (t :: text)) as (b & -> & Hb). destruct b.
    { exists true. split; [done|]. split; [|done]. intros _. exists [], (t :: text).
      split; [done|]. by apply Hb. }
    destruct IH as (b & -> & Hb'). exists b. split; [done|]. rewrite Hb'. split.
    + intros (pre & suf & -> & Hm). by exists (t :: pre), suf.
    + intros (pre & suf & E & Hm). destruct pre as [|x pre].
      * simpl in E. subst suf. naive_solver.
      * injection E as -> ->. by exists pre, suf.
Qed.

(** C36.  grep's matcher returns for every pattern and text, and its answer is true
    exactly when the text contains a word of the pattern's language: [.] is any
    character, [c*] any repetition, [$] the end of the text, and a leading [^] ties
    the word to its start. *)
Theorem match_correct re text :
  ∃ b, match_ re text = Some b ∧ (b = true ↔ matches re text).
Proof.
  assert (Hany : ∀ re, ∃ b, match_loop (matchhere (S (length re)) re) text = Some b ∧
    (b = true ↔ ∃ pre suf, text = pre ++ suf ∧ matches_here re suf)).
  { intros re'. apply match_loop_decides, matchhere_decides. lia. }
  unfold match_, matches. destruct re as [|c re']; [apply (Hany [])|].
  destruct (decide (c = 94)) as [->|Hc]; [apply matchhere_decides; lia|].
  pose proof (Hany (c :: re')) as Hc'.
  destruct c as [|p|p]; try done. by repeat (destruct p as [p|p|]; try done).
Qed.

(** ** The line loop *)

(** [strchr(p, '\n')] in the buffer: the line before the newline and what follows. *)
Fixpoint next_line (rest : list Z) : option (list Z * list Z) :=
  match rest with
  | [] => None
  | c :: rest' =>
      if c =? 0 then None
      else if c =? 10 then Some ([], rest')
      else match next_line rest' with
           | Some (line, after) => Some (c :: line, after)
           | None => None
           end
  end.

Section grep.
Context `{OSys}.

(** The inner loop; the result is the text from [p] on, and whether [p] moved. *)
Definition grep_lines (pattern rest : list Z) : U (list Z * bool) :=
  loop (S (length rest)) (λ '(rest, moved),
    match next_line rest with
    | None => ret (inr (rest, moved))
    | Some (line, after) =>
        match match_ pattern line with
        | None => out_of_fuel
        | Some b =>
            when b (write 1 (line ++ [10]) ;; ret tt) ;;
            ret (inl (after, true))
        end
    end) (rest, false).

(** [held] is buf[0..m). *)
Definition grep (pattern : list Z) (fd : Z) : U unit :=
  loop UFUEL (λ held,
    let! a := read fd (1024 - Z.of_nat (length held) - 1) in
    let '(n, data) := a in
    if negb (0 <? n) then ret (inr tt)
    else
      let! r := grep_lines pattern (held ++ data) in
      let '(rest, moved) := r in
      ret (inl (if moved then rest else []))) [].
End grep.
