(* ===== verification/Progs.v ===== *)
(** * Progs: the user programs

    cat, echo, wc, grep, ls, init, kill, ln, mkdir, rm, zombie, ps, setPriority,
    time, stressfs and forktest, each from its [main]; [argv] includes the program's
    name. *)

From stdpp Require Import base numbers gmap strings option list.
From S2P Require Import Prelude Format User Grep.
Local Open Scope kernel_scope.
Local Open Scope Z_scope.

Section progs.
Context `{OSys}.

Definition nth_arg (argv : list (list Z)) (i : nat) : list Z := nth i argv [].

(** ** cat.c *)

Definition cat (fd : Z) : U unit :=
  let! n := loop UFUEL (λ _ : unit,
    let! a := read fd 512 in
    let '(n, data) := a in
    if negb (0 <? n) then ret (inr n)
    else
      let! w := write 1 data in
      if negb (w =? n) then
        printf 1 "cat: write error\n" [] ;;
        exit
      else ret (inl tt)) tt in
  if n <? 0 then
    printf 1 "cat: read error\n" [] ;;
    exit
  else ret tt.

(** [if(argc <= 1) f(0); else for each argument: open, f(fd), close] of cat, wc and grep. *)
Definition each_file (name : string) (files : list (list Z)) (f : Z → list Z → U unit) : U unit :=
  for_each files (λ path,
    let! fd := open path 0 in
    if fd <? 0 then
      printf 1 (name +:+ ": cannot open %s\n") [UStr path] ;;
      exit
    else
      f fd path ;;
      close fd ;;
      ret tt).

Definition cat_main (argv : list (list Z)) : U unit :=
  if Z.of_nat (length argv) <=? 1 then
    cat 0 ;;
    exit
  else
    each_file "cat" (tl argv) (λ fd _, cat fd) ;;
    exit.

(** ** echo.c *)

Definition echo_main (argv : list (list Z)) : U unit :=
  let argc := length argv in
  for_each (seq 1 (argc - 1)) (λ i,
    printf 1 "%s%s" [UStr (nth_arg argv i); UStr (if (i + 1 <? argc)%nat then [32] else [10])]) ;;
  exit.

(** ** wc.c *)

Record wc_state := mk_wc { wc_l : Z; wc_w : Z; wc_c : Z; wc_inword : bool }.

(** One byte of the buffer. *)
Definition wc_byte (st : wc_state) (b : Z) : wc_state :=
  let '(mk_wc l w c inword) := st in
  let c := i32 (c + 1) in
  let l := if b =? 10 then i32 (l + 1) else l in
  if bool_decide (is_Some (strchr [32; 13; 9; 10; 11] b)) then mk_wc l w c false
  else if negb inword then mk_wc l (i32 (w + 1)) c true
  else mk_wc l w c inword.

Definition wc (fd : Z) (name : list Z) : U unit :=
  let! r := loop UFUEL (λ st,
    let! a := read fd 512 in
    let '(n, data) := a in
    if negb (0 <? n) then ret (inr (n, st))
    else ret (inl (foldl wc_byte st data))) (mk_wc 0 0 0 false) in
  let '(n, st) := r in
  if n <? 0 then
    printf 1 "wc: read error\n" [] ;;
    exit
  else
    printf 1 "%d %d %d %s\n" [UInt (wc_l st); UInt (wc_w st); UInt (wc_c st); UStr name].

Definition wc_main (argv : list (list Z)) : U unit :=
  if Z.of_nat (length argv) <=? 1 then
    wc 0 [] ;;
    exit
  else
    each_file "wc" (tl argv) wc ;;
    exit.

(** ** grep.c, main *)

Definition grep_main (argv : list (list Z)) : U unit :=
  if Z.of_nat (length argv) <=? 1 then
    printf 2 "usage: grep pattern [file ...]\n" [] ;;
    exit
  else
    let pattern := nth_arg argv 1 in
    if Z.of_nat (length argv) <=? 2 then
      grep pattern 0 ;;
      exit
    else
      each_file "grep" (drop 2 argv) (λ fd _, grep pattern fd) ;;
      exit.

(** ** ls.c *)

(** The part after the last slash, blank-padded to DIRSIZ characters. *)
Definition fmtname (path : list Z) : list Z :=
  let p := match list_find (λ c, c = 47) (rev path) with
           | Some (i, _) => drop (length path - i) path
           | None => path
           end in
  if 14 <=? strlen p then p else p ++ replicate (14 - length p) 32.

Definition st_type (st : list Z) : Z := nth 0 st 0.
Definition st_ino (st : list Z) : Z := nth 2 st 0.
Definition st_size (st : list Z) : Z := nth 4 st 0.
Definition ls_line (path st : list Z) : U unit :=
  printf 1 "%s %d %d %d\n"
    [UStr (fmtname path); UInt (st_type st); UInt (st_ino st); UInt (st_size st)].

Definition ls (path : list Z) : U unit :=
  let! fd := open path 0 in
  if fd <? 0 then printf 2 "ls: cannot open %s\n" [UStr path]
  else
    let! a := fstat fd in
    let '(r, st) := a in
    if r <? 0 then
      printf 2 "ls: cannot stat %s\n" [UStr path] ;;
      close fd ;;
      ret tt
    else
      (if st_type st =? 2 then ls_line path st
       else if st_type st =? 1 then
         if 512 <? strlen path + 1 + 14 + 1 then printf 1 "ls: path too long\n" []
         else
           loop UFUEL (λ _ : unit,
             let! a := read fd 16 in
             let '(n, de) := a in
             if negb (n =? 16) then ret (inr tt)
             else if nth 0 de 0 + 256 * nth 1 de 0 =? 0 then ret (inl tt)
             else
               let buf := path ++ [47] ++ cstr (take 14 (drop 2 de)) in
               let! a := stat buf in
               let '(r, st) := a in
               (if r <? 0 then printf 1 "ls: cannot stat %s\n" [UStr buf] else ls_line buf st) ;;
               ret (inl tt)) tt
       else ret tt) ;;
      close fd ;;
      ret tt.

Definition ls_main (argv : list (list Z)) : U unit :=
  if Z.of_nat (length argv) <? 2 then
    ls [46] ;;
    exit
  else
    for_each (tl argv) ls ;;
    exit.

(** ** init.c *)

(** The wait loop: reaps until the shell [pid] is gone or there are no children. *)
Definition init_wait (pid : Z) : U unit :=
  loop UFUEL (λ _ : unit,
    let! wpid := wait in
    if negb ((0 <=? wpid) && negb (wpid =? pid)) then ret (inr tt)
    else
      printf 1 "zombie!\n" [] ;;
      ret (inl tt)) tt.

Definition init_main : U unit :=
  let! fd := open (chars "console") 2 in
  when (fd <? 0) (
    mknod (chars "console") 1 1 ;;
    open (chars "console") 2 ;;
    ret tt) ;;
  dup 0 ;;
  dup 0 ;;
  loop UFUEL (λ _ : unit,
    printf 1 "init: starting sh\n" [] ;;
    let! pid := fork in
    if pid <? 0 then
      printf 1 "init: fork failed\n" [] ;;
      exit
    else if pid =? 0 then
      exec (chars "sh") [chars "sh"] ;;
      printf 1 "init: exec sh failed\n" [] ;;
      exit
    else
      init_wait pid ;;
      ret (inl tt)) tt.

(** ** kill.c, ln.c, mkdir.c, rm.c, zombie.c *)

Definition kill_main (argv : list (list Z)) : U unit :=
  if Z.of_nat (length argv) <? 2 then
    printf 2 "usage: kill pid...\n" [] ;;
    exit
  else
    for_each (tl argv) (λ a, kill (atoi a) ;; ret tt) ;;
    exit.

Definition ln_main (argv : list (list Z)) : U unit :=
  if negb (Z.of_nat (length argv) =? 3) then
    printf 2 "Usage: ln old new\n" [] ;;
    exit
  else
    let! r := link (nth_arg argv 1) (nth_arg argv 2) in
    when (r <? 0) (
      printf 2 "link %s %s: failed\n" [UStr (nth_arg argv 1); UStr (nth_arg argv 2)]) ;;
    exit.

(** The loops of mkdir and rm stop at the first failure. *)
Definition mkdir_main (argv : list (list Z)) : U unit :=
  if Z.of_nat (length argv) <? 2 then
    printf 2 "Usage: mkdir files...\n" [] ;;
    exit
  else
    for_find (tl argv) (λ a,
      let! r := mkdir a in
      if r <? 0 then
        printf 2 "mkdir: %s failed to create\n" [UStr a] ;;
        ret (Some tt)
      else ret None) ;;
    exit.

Definition rm_main (argv : list (list Z)) : U unit :=
  if Z.of_nat (length argv) <? 2 then
    printf 2 "Usage: rm files...\n" [] ;;
    exit
  else
    for_find (tl argv) (λ a,
      let! r := unlink a in
      if r <? 0 then
        printf 2 "rm: %s failed to delete\n" [UStr a] ;;
        ret (Some tt)
      else ret None) ;;
    exit.

Definition zombie_main : U unit :=
  let! pid := fork in
  when (0 <? pid) (sleep 5 ;; ret tt) ;;
  exit.

(** ** ps.c, setPriority.c, time.c *)

Definition ps_main (argv : list (list Z)) : U unit :=
  (if negb (Z.of_nat (length argv) =? 1) then printf 1 "Please enter a valid command\n" []
   else getps ;; ret tt) ;;
  exit.

Definition setPriority_main (argv : list (list Z)) : U unit :=
  (if negb (Z.of_nat (length argv) =? 3) then printf 1 "Please enter a valid command\n" []
   else
     let! pid := fork in
     when (pid =? 0) (
       set_priority (atoi (nth_arg argv 1)) (atoi (nth_arg argv 2)) ;;
       exit)) ;;
  exit.

Definition time_main (argv : list (list Z)) : U unit :=
  let! pid := fork in
  if pid <? 0 then
    printf 1 "Failed to fork {time}\n" [] ;;
    exit
  else if pid =? 0 then
    if Z.of_nat (length argv) =? 1 then
      printf 1 "Please enter valid command\n" [] ;;
      exit
    else
      let! r := exec (nth_arg argv 1) (tl argv) in
      when (r <? 0) (
        printf 1 "Error: %s Failed\n" [UStr (nth_arg argv 1)] ;;
        exit)
  else
    let! b := waitx in
    let '(b, times) := b in
    if negb (Z.of_nat (length argv) =? 1) then
      printf 1 "Time taken by %s\n Wait time: %d  Run time: %d status: %d\n"
        [UStr (nth_arg argv 1); UInt (nth 0 times 0); UInt (nth 1 times 0); UInt b] ;;
      exit
    else exit.

(** ** stressfs.c, forktest.c *)

Definition stressfs_main : U unit :=
  let data := replicate 512 97 in
  printf 1 "stressfs starting\n" [] ;;
  let! r := for_find (seqZ 0 4) (λ i,
    let! pid := fork in
    ret (if 0 <? pid then Some i else None)) in
  let i := default 4 r in
  printf 1 "write %d\n" [UInt i] ;;
  let path := <[8%nat := 48 + i]> (chars "stressfs0") in
  let! fd := open path (Z.lor 0x200 2) in
  for_each (seqZ 0 20) (λ _, write fd data ;; ret tt) ;;
  close fd ;;
  printf 1 "read\n" [] ;;
  let! fd := open path 0 in
  for_each (seqZ 0 20) (λ _, read fd 512 ;; ret tt) ;;
  close fd ;;
  wait ;;
  exit.

(** forktest has its own [printf], which does not format. *)
Definition forktest_printf (fd : Z) (s : string) : U unit := write fd (chars s) ;; ret tt.

Definition forktest : U unit :=
  forktest_printf 1 "fork test\n" ;;
  let! r := for_find (seqZ 0 1000) (λ n,
    let! pid := fork in
    if pid <? 0 then ret (Some n)
    else if pid =? 0 then exit
    else ret None) in
  match r with
  | None =>
      forktest_printf 1 "fork claimed to work N times!\n" ;;
      exit
  | Some n =>
      for_each (seqZ 0 n) (λ _,
        let! w := wait in
        when (w <? 0) (
          forktest_printf 1 "wait stopped early\n" ;;
          exit)) ;;
      let! w := wait in
      if negb (w =? -1) then
        forktest_printf 1 "wait got too many\n" ;;
        exit
      else forktest_printf 1 "fork test OK\n"
  end.
Definition forktest_main : U unit :=
  forktest ;;
  exit.
End progs.
