(* ===== verification/ProgThm.v ===== *)
(** * ProgThm: what the user programs compute

    The programs run against [stream_os], a system with one input stream, delivered
    in arbitrary pieces, and a record of everything written.  Their output does not
    depend on where the pieces end, except for grep's. *)

From stdpp Require Import base numbers gmap strings option list.
From S2P Require Import Prelude Format FormatThm User Grep Progs.
Local Open Scope kernel_scope.
Local Open Scope Z_scope.

(** ** A system with one input *)

Record stream := mk_stream {
  s_in : list (list Z);        (** what the next reads return, piece by piece *)
  s_out : list (Z * list Z);   (** the writes so far, with their descriptor *)
}.

Definition stream_sys (r : sysreq) (s : stream) : (Z * list Z) * stream :=
  match r with
  | SYS_read fd n =>
      match s_in s with
      | [] => ((0, []), s)
      | ch :: rest =>
          if Z.of_nat (length ch) <=? n then ((Z.of_nat (length ch), ch), mk_stream rest (s_out s))
          else ((n, take (Z.to_nat n) ch), mk_stream (drop (Z.to_nat n) ch :: rest) (s_out s))
      end
  | SYS_write fd data => ((Z.of_nat (length data), []), mk_stream (s_in s) (s_out s ++ [(fd, data)]))
  | SYS_open path mode => ((3, []), s)
  | _ => ((0, []), s)
  end.
Definition stream_os (fuel : nat) : OSys := {| os := stream; sys := stream_sys; UFUEL := fuel |}.

(** Everything written to [fd]; everything still to be read. *)
Definition output (fd : Z) (s : stream) : list Z :=
  concat ((λ w, if fst w =? fd then snd w else []) <$> s_out s).
Definition input (s : stream) : list Z := concat (s_in s).
(** No piece is empty: a read that returns 0 is the end of the file. *)
Definition pieces_ok (s : stream) : Prop := Forall (λ ch, ch ≠ []) (s_in s).

Section thm.
Context (fuel : nat).
#[local] Existing Instance stream_os.
#[local] Instance the_os : OSys := stream_os fuel.
Implicit Types s : stream.

(** One read: the end of the input, or a non-empty piece of at most [n] bytes. *)
Lemma read_eq s fd n :
  pieces_ok s → 0 < n →
  (input s = [] ∧ read fd n s = Ok (0, []) s) ∨
  ∃ data rest, data ≠ [] ∧ input s = data ++ concat rest ∧ Forall (λ ch, ch ≠ []) rest ∧
    Z.of_nat (length data) ≤ n ∧
    read fd n s = Ok (Z.of_nat (length data), data) (mk_stream rest (s_out s)).
Proof.
  intros Hok Hn. destruct s as [ins out]. unfold pieces_ok, input in *. simpl in *.
  unfold read, call. simpl. destruct ins as [|ch rest]; [by left|]. right.
  apply Forall_cons in Hok as [Hch Hrest].
  destruct (Z.leb_spec (Z.of_nat (length ch)) n) as [Hle|Hgt].
  - exists ch, rest. done.
  - exists (take (Z.to_nat n) ch), (drop (Z.to_nat n) ch :: rest).
    assert (Hlen : length (take (Z.to_nat n) ch) = Z.to_nat n) by (rewrite length_take; lia).
    split_and!.
    + intros E. rewrite E in Hlen. simpl in Hlen. lia.
    + simpl. by rewrite app_assoc, take_drop.
    + constructor; [|done]. intros E. apply (f_equal length) in E. rewrite length_drop in E. simpl in E. lia.
    + rewrite Hlen. lia.
    + rewrite Hlen, Z2Nat.id by lia. done.
Qed.

Lemma output_app fd ins out w :
  output fd (mk_stream ins (out ++ [w])) =
    output fd (mk_stream ins out) ++ (if fst w =? fd then snd w else []).
Proof. unfold output. simpl. rewrite fmap_app, concat_app. simpl. by rewrite app_nil_r. Qed.

(** [m] writes [l] to [fd] and does nothing else. *)
Definition emits (fd : Z) (l : list Z) (m : U unit) : Prop :=
  ∀ s, ∃ out, m s = Ok tt (mk_stream (s_in s) out) ∧
    ∀ fd', output fd' (mk_stream (s_in s) out) = output fd' s ++ (if fd =? fd' then l else []).

Lemma emits_nil fd : emits fd [] (ret tt).
Proof.
  intros s. exists (s_out s). destruct s. split; [done|]. intros fd'.
  destruct (fd =? fd'); by rewrite app_nil_r.
Qed.

Lemma emits_seq fd l1 l2 m1 m2 : emits fd l1 m1 → emits fd l2 m2 → emits fd (l1 ++ l2) (m1 ;; m2).
Proof.
  intros H1 H2 s. destruct (H1 s) as (o1 & E1 & O1). destruct (H2 (mk_stream (s_in s) o1)) as (o2 & E2 & O2).
  exists o2. split; [by erewrite bind_Ok by exact E1|]. intros fd'. rewrite O2, O1. simpl.
  destruct (fd =? fd'); [by rewrite app_assoc|by rewrite !app_nil_r].
Qed.

Lemma emits_write fd l : emits fd l (write fd l ;; ret tt).
Proof.
  intros s. exists (s_out s ++ [(fd, l)]). split; [done|]. intros fd'. rewrite output_app. by destruct s.
Qed.

Lemma emits_putc fd c : emits fd [u8 c] (putc fd c).
Proof. apply emits_write. Qed.

Lemma emits_puts fd l : (∀ c, c ∈ l → 0 ≤ c < 256) → emits fd l (puts fd l).
Proof.
  intros Hl. unfold puts. induction l as [|c l IH]; simpl; [apply emits_nil|].
  change (c :: l) with ([c] ++ l). apply emits_seq.
  - rewrite <-(u8_small c) at 1 by (apply Hl; by left). apply emits_putc.
  - apply IH. intros x Hx. apply Hl. by right.
Qed.

(** The text of a number. *)
Definition uint_text (xx base : Z) (sgn : bool) : list Z :=
  let neg := sgn && (xx <? 0) in
  let buf := udigit_loop 32 (if neg then u32 (- xx) else u32 xx) base in
  rev (if neg then buf ++ [45] else buf).

Lemma udigit_loop_range n x base c : c ∈ udigit_loop n x base → 0 ≤ c < 256.
Proof.
  revert x. induction n as [|n IH]; intros x; cbn [udigit_loop]; [by intros ?%not_elem_of_nil|].
  assert (Hd : ∀ k, 0 ≤ nth k udigits 0 < 256).
  { intros k. do 17 (destruct k as [|k]; [simpl; lia|]). simpl. lia. }
  destruct (x / base =? 0); [by intros ->%list_elem_of_singleton|].
  intros [->|?]%elem_of_cons; [done|by eapply IH].
Qed.

Lemma emits_printint fd xx base sgn : emits fd (uint_text xx base sgn) (printint fd xx base sgn).
Proof.
  apply emits_puts. unfold uint_text. intros c Hc%list_elem_of_In%in_rev%list_elem_of_In.
  destruct (sgn && (xx <? 0)); [|by eapply udigit_loop_range].
  apply elem_of_app in Hc as [Hc| ->%list_elem_of_singleton]; [by eapply udigit_loop_range|lia].
Qed.

(** ** cat *)

Lemma cat_loop f fd s :
  pieces_ok s → (length (input s) < f)%nat →
  ∃ out, loop f (λ _ : unit,
      let! a := read fd 512 in
      let '(n, data) := a in
      if negb (0 <? n) then ret (inr n)
      else
        let! w := write 1 data in
        if negb (w =? n) then printf 1 "cat: write error\n" [] ;; exit else ret (inl tt)) tt s
    = Ok 0 (mk_stream [] out) ∧
    ∀ fd', output fd' (mk_stream [] out) = output fd' s ++ (if 1 =? fd' then input s else []).
Proof.
  revert s. induction f as [|f IH]; intros s Hok Hf; [lia|]. cbn [loop].
  destruct (read_eq s fd 512) as [[Hin E]|(data & rest & Hd & Hin & Hrest & Hlen & E)]; [done|lia| |].
  - exists (s_out s). rewrite Hin. destruct s as [ins out]. unfold input in Hin. cbn [s_in s_out] in *.
    assert (ins = []) as ->.
    { destruct ins as [|ch ins]; [done|]. apply Forall_cons in Hok as [? _]. by apply app_nil in Hin as [? _]. }
    split; [|intros fd'; by destruct (1 =? fd'); rewrite app_nil_r].
    rewrite (bind_Ok _ _ _ (inr 0) (mk_stream [] out)); [done|]. by erewrite bind_Ok by exact E.
  - destruct (IH (mk_stream rest (s_out s ++ [(1, data)]))) as (out & E' & O'); [done| |].
    { unfold input. simpl. rewrite Hin, length_app in Hf. destruct data; [done|]. simpl in Hf. lia. }
    exists out. split.
    + rewrite <-E'. rewrite (bind_Ok _ _ _ (inl tt) (mk_stream rest (s_out s ++ [(1, data)]))); [done|].
      erewrite bind_Ok by exact E.
      assert (0 < Z.of_nat (length data)) by (destruct data; [done|simpl; lia]).
      cbv beta iota. rewrite (proj2 (Z.ltb_lt 0 _)) by done. cbn [negb].
      rewrite (bind_Ok _ _ _ (Z.of_nat (length data)) (mk_stream rest (s_out s ++ [(1, data)]))) by done.
      cbv beta iota. by rewrite Z.eqb_refl.
    + intros fd'. rewrite O', output_app, Hin. unfold input. cbn [s_in fst snd].
      destruct (1 =? fd'); [by rewrite app_assoc|].
      by rewrite !app_nil_r.
Qed.

(** ** wc *)

Definition is_space (b : Z) : bool := bool_decide (is_Some (strchr [32; 13; 9; 10; 11] b)).

(** Reference: lines are newlines; words are the non-empty pieces between white space. *)
Fixpoint split_space (l : list Z) : list (list Z) :=
  match l with
  | [] => [[]]
  | b :: l' =>
      let ws := split_space l' in
      if is_space b then [] :: ws else (b :: hd [] ws) :: tl ws
  end.
Definition words (l : list Z) : list (list Z) := filter (λ w, w ≠ []) (split_space l).
Definition newlines (l : list Z) : list Z := filter (λ b, b = 10) l.

(** The words of [l] that begin in it. *)
Definition wcount (inword : bool) (l : list Z) : Z :=
  Z.of_nat (length (filter (λ w, w ≠ []) (if inword then tl (split_space l) else split_space l))).

Lemma wcount_space inword b l : is_space b = true → wcount inword (b :: l) = wcount false l.
Proof.
  intros Hb. unfold wcount. cbn [split_space]. rewrite Hb.
  destruct inword; [done|]. by rewrite filter_cons_False by naive_solver.
Qed.
Lemma wcount_char inword b l :
  is_space b = false → wcount inword (b :: l) = (if inword then 0 else 1) + wcount true l.
Proof.
  intros Hb. unfold wcount. cbn [split_space]. rewrite Hb.
  destruct inword; [done|]. rewrite filter_cons_True by done. cbn [length tl]. lia.
Qed.
Lemma wcount_nonneg inword l : 0 ≤ wcount inword l.
Proof. unfold wcount. lia. Qed.

Lemma wc_fold l st :
  0 ≤ wc_l st → 0 ≤ wc_w st → 0 ≤ wc_c st →
  wc_l st + Z.of_nat (length l) < 2 ^ 31 → wc_w st + Z.of_nat (length l) < 2 ^ 31 →
  wc_c st + Z.of_nat (length l) < 2 ^ 31 →
  let st' := foldl wc_byte st l in
  wc_l st' = wc_l st + Z.of_nat (length (newlines l)) ∧
  wc_w st' = wc_w st + wcount (wc_inword st) l ∧
  wc_c st' = wc_c st + Z.of_nat (length l).
Proof.
  revert st. induction l as [|b l IH]; intros [wl ww wcc inw] H1 H2 H3 H4 H5 H6; simpl in H1, H2, H3.
  { unfold newlines, wcount. simpl. destruct inw; simpl; lia. }
  cbn [wc_l wc_w wc_c wc_inword length] in H4, H5, H6. rewrite Nat2Z.inj_succ in *.
  cbn [foldl]. set (wl' := if b =? 10 then wl + 1 else wl).
  assert (El : wl' = wl + (if b =? 10 then 1 else 0)) by (unfold wl'; destruct (b =? 10); lia).
  assert (En : Z.of_nat (length (newlines (b :: l))) =
    (if b =? 10 then 1 else 0) + Z.of_nat (length (newlines l))).
  { unfold newlines. rewrite filter_cons. destruct (Z.eqb_spec b 10) as [->|Hne].
    - rewrite decide_True by done. simpl length. lia.
    - by rewrite decide_False. }
  assert (Eb : wc_byte (mk_wc wl ww wcc inw) b =
    mk_wc wl' (if is_space b || inw then ww else ww + 1) (wcc + 1) (negb (is_space b))).
  { unfold wc_byte. fold (is_space b). rewrite (i32_small (wcc + 1)) by lia.
    unfold wl'. rewrite (i32_small (wl + 1)), (i32_small (ww + 1)) by lia.
    destruct (is_space b), inw; done. }
  rewrite Eb. destruct (IH (mk_wc wl' (if is_space b || inw then ww else ww + 1) (wcc + 1) (negb (is_space b))))
    as (F1 & F2 & F3); cbn [wc_l wc_w wc_c wc_inword];
    [destruct (b =? 10); lia|destruct (_ || _); lia|lia|destruct (b =? 10); lia
    |destruct (_ || _); lia|lia|].
  rewrite F1, F2, F3, En. cbn [wc_l wc_w wc_c wc_inword length]. rewrite Nat2Z.inj_succ.
  split_and!; [lia| |lia]. destruct (is_space b) eqn:Es; simpl.
  - by rewrite wcount_space.
  - rewrite wcount_char by done. destruct inw; lia.
Qed.

Lemma wc_loop f fd st s :
  pieces_ok s → (length (input s) < f)%nat →
  loop f (λ st,
      let! a := read fd 512 in
      let '(n, data) := a in
      if negb (0 <? n) then ret (inr (n, st))
      else ret (inl (foldl wc_byte st data))) st s
    = Ok (0, foldl wc_byte st (input s)) (mk_stream [] (s_out s)).
Proof.
  revert st s. induction f as [|f IH]; intros st s Hok Hf; [lia|]. cbn [loop].
  destruct (read_eq s fd 512) as [[Hin E]|(data & rest & Hd & Hin & Hrest & Hlen & E)]; [done|lia| |].
  - rewrite Hin. assert (s = mk_stream [] (s_out s)) as Es.
    { destruct s as [ins out]. unfold input in Hin. cbn [s_in s_out] in *.
      destruct ins as [|ch ins]; [done|]. apply Forall_cons in Hok as [? _]. by apply app_nil in Hin as [? _]. }
    rewrite <-Es. rewrite (bind_Ok _ _ _ (inr (0, st)) s); [done|]. by erewrite bind_Ok by exact E.
  - rewrite (bind_Ok _ _ _ (inl (foldl wc_byte st data)) (mk_stream rest (s_out s))).
    2:{ erewrite bind_Ok by exact E. by destruct data. }
    cbv beta iota. rewrite IH; [|done|].
    + rewrite Hin, foldl_app. done.
    + unfold input. simpl. rewrite Hin, length_app in Hf. destruct data; [done|]. simpl in Hf. lia.
Qed.

(** ** grep *)

(** Reference: the complete lines of a text and what follows the last newline. *)
Fixpoint lines_of (l : list Z) : list (list Z) * list Z :=
  match l with
  | [] => ([], [])
  | c :: l' =>
      let '(ls, rest) := lines_of l' in
      if c =? 10 then ([] :: ls, rest)
      else match ls with [] => ([], c :: rest) | x :: ls' => ((c :: x) :: ls', rest) end
  end.
(** The lines that match, each with its newline. *)
Definition hits (pat : list Z) (ls : list (list Z)) : list Z :=
  concat ((λ l, l ++ [10]) <$> filter (λ l, match_ pat l = Some true) ls).

Lemma lines_of_none l : 10 ∉ l → lines_of l = ([], l).
Proof.
  induction l as [|c l IH]; intros Hl; [done|]. apply not_elem_of_cons in Hl as [Hc Hl].
  cbn [lines_of]. rewrite IH by done. by destruct (Z.eqb_spec c 10).
Qed.

Lemma lines_of_app a b :
  lines_of (a ++ b) = let '(la, ra) := lines_of a in
                      let '(lb, rb) := lines_of (ra ++ b) in (la ++ lb, rb).
Proof.
  induction a as [|c a IH]; [simpl; by destruct (lines_of b)|]. cbn [app lines_of]. rewrite IH.
  destruct (lines_of a) as [la ra]. destruct (c =? 10) eqn:Ec.
  - by destruct (lines_of (ra ++ b)) as [lb rb].
  - destruct la as [|x la].
    + cbn [app lines_of]. destruct (lines_of (ra ++ b)) as [lb rb]. rewrite Ec. simpl. by destruct lb.
    + by destruct (lines_of (ra ++ b)) as [lb rb].
Qed.

Lemma next_line_spec l :
  0 ∉ l →
  match next_line l with
  | None => 10 ∉ l
  | Some (line, after) => (0 ∉ after) ∧ (length after < length l)%nat ∧
      lines_of l = (line :: fst (lines_of after), snd (lines_of after))
  end.
Proof.
  induction l as [|c l IH]; intros Hl; [apply not_elem_of_nil|].
  apply not_elem_of_cons in Hl as [Hc Hl]. cbn [next_line].
  destruct (Z.eqb_spec c 0) as [->|_]; [done|]. destruct (Z.eqb_spec c 10) as [->|Hne].
  { split_and!; [done|simpl; lia|]. simpl. by destruct (lines_of l). }
  specialize (IH Hl). destruct (next_line l) as [[line after]|].
  - destruct IH as (H1 & H2 & H3). split_and!; [done|simpl; lia|]. cbn [lines_of].
    rewrite H3, (proj2 (Z.eqb_neq _ _) Hne). done.
  - apply not_elem_of_cons. done.
Qed.

Lemma rest_sub l c : c ∈ snd (lines_of l) → c ∈ l ∧ c ≠ 10.
Proof.
  induction l as [|x l IH]; [by intros ?%not_elem_of_nil|]. cbn [lines_of].
  destruct (lines_of l) as [ls rest]. destruct (Z.eqb_spec x 10) as [->|Hx]; simpl in *.
  - intros Hc. destruct (IH Hc). split; [by right|done].
  - destruct ls; simpl.
    + intros [->|Hc]%elem_of_cons; [split; [by left|done]|]. destruct (IH Hc). split; [by right|done].
    + intros Hc. destruct (IH Hc). split; [by right|done].
Qed.

Lemma lines_of_moved l : 10 ∈ l → fst (lines_of l) ≠ [].
Proof.
  induction l as [|x l IH]; [by intros ?%not_elem_of_nil|]. cbn [lines_of].
  destruct (lines_of l) as [ls rest]. destruct (Z.eqb_spec x 10) as [->|Hx]; [done|].
  intros [?|Hc]%elem_of_cons; [done|]. specialize (IH Hc). by destruct ls.
Qed.

Lemma lines_rest_length l : (length (snd (lines_of l)) ≤ length l)%nat.
Proof.
  induction l as [|x l IH]; [done|]. cbn [lines_of]. destruct (lines_of l) as [ls rest].
  simpl in *. destruct (x =? 10); [simpl; lia|]. destruct ls; simpl; lia.
Qed.

Lemma grep_lines_loop f pat rest moved s :
  0 ∉ rest → (length rest < f)%nat →
  ∃ out, loop f (λ '(rest, moved),
    match next_line rest with
    | None => ret (inr (rest, moved))
    | Some (line, after) =>
        match match_ pat line with
        | None => out_of_fuel
        | Some b =>
            (when b (write 1 (line ++ [10]) ;; ret tt)) ;;
            ret (inl (after, true))
        end
    end) (rest, moved) s =
    Ok (snd (lines_of rest), moved || negb (bool_decide (fst (lines_of rest) = [])))
       (mk_stream (s_in s) out) ∧
    output 1 (mk_stream (s_in s) out) = output 1 s ++ hits pat (fst (lines_of rest)).
Proof.
  revert rest moved s. induction f as [|f IH]; intros rest moved s H0 Hf; [lia|]. cbn [loop].
  pose proof (next_line_spec rest H0) as Hn. destruct (next_line rest) as [[line after]|] eqn:En.
  2:{ exists (s_out s). rewrite (lines_of_none _ Hn). cbn [fst snd]. unfold hits. simpl.
      rewrite orb_false_r, app_nil_r. destruct s. split; [|done].
      by rewrite (bind_Ok _ _ _ (inr (rest, moved)) (mk_stream s_in0 s_out0)). }
  destruct Hn as (H0' & Hlt & Hls).
  destruct (match_correct pat line) as (b & Eb & _). rewrite Hls. cbn [fst snd].
  destruct (IH after true (if b then mk_stream (s_in s) (s_out s ++ [(1, line ++ [10])]) else s))
    as (out & E & O); [done|lia|].
  assert (Hin : s_in (if b then mk_stream (s_in s) (s_out s ++ [(1, line ++ [10])]) else s) = s_in s)
    by by destruct b.
  rewrite Hin in *. exists out. split.
  - rewrite (bind_Ok _ _ _ (inl (after, true))
      (if b then mk_stream (s_in s) (s_out s ++ [(1, line ++ [10])]) else s)).
    + cbv beta iota. rewrite E. simpl. by rewrite orb_true_r.
    + rewrite Eb. by destruct b.
  - rewrite O. unfold hits. rewrite filter_cons. destruct b.
    + rewrite decide_True by done. rewrite output_app. simpl. by destruct s; rewrite <-app_assoc.
    + by rewrite decide_False by congruence.
Qed.

Lemma lines_of_rest_app held ch :
  10 ∉ held → 10 ∈ ch → snd (lines_of (held ++ ch)) = snd (lines_of ch).
Proof.
  intros Hh Hc. induction held as [|c held IH]; [done|]. apply not_elem_of_cons in Hh as [Hne Hh].
  cbn [app lines_of]. rewrite <-(IH Hh).
  assert (Hmv : fst (lines_of (held ++ ch)) ≠ []) by (apply lines_of_moved, elem_of_app; by right).
  destruct (lines_of (held ++ ch)) as [ls rest]. simpl in *.
  destruct (Z.eqb_spec c 10); [done|]. by destruct ls.
Qed.

(** A piece of text that grep can hold on to: it has a newline, no NUL, and leaves
    half of the buffer free. *)
Definition grep_piece (ch : list Z) : Prop := (10 ∈ ch) ∧ (0 ∉ ch) ∧ (length ch ≤ 511)%nat.

Lemma grep_loop f pat fd held s :
  Forall grep_piece (s_in s) → 10 ∉ held → 0 ∉ held → (length held ≤ 511)%nat →
  (length (s_in s) < f)%nat →
  ∃ out, loop f (λ held,
      let! a := read fd (1024 - Z.of_nat (length held) - 1) in
      let '(n, data) := a in
      if negb (0 <? n) then ret (inr tt)
      else
        let! r := grep_lines pat (held ++ data) in
        let '(rest, moved) := r in
        ret (inl (if moved then rest else []))) held s
    = Ok tt (mk_stream [] out) ∧
    output 1 (mk_stream [] out) = output 1 s ++ hits pat (fst (lines_of (held ++ input s))).
Proof.
  revert held s. induction f as [|f IH]; intros held [ins out] Hin Hh1 Hh0 Hhl Hf; [lia|].
  cbn [loop]. destruct ins as [|ch ins].
  { exists out. unfold input. simpl concat. rewrite app_nil_r, lines_of_none by done.
    split; [by rewrite (bind_Ok _ _ _ (inr tt) (mk_stream [] out))|].
    unfold hits. simpl. by rewrite app_nil_r. }
  apply Forall_cons in Hin as [(Hc1 & Hc2 & Hc3) Hin]. simpl in Hf.
  assert (Hne : 0 < Z.of_nat (length ch)) by (destruct ch; [by apply not_elem_of_nil in Hc1|simpl; lia]).
  assert (Hrd : read fd (1024 - Z.of_nat (length held) - 1) (mk_stream (ch :: ins) out) =
    Ok (Z.of_nat (length ch), ch) (mk_stream ins out)).
  { unfold read, call. cbn [sys the_os stream_os stream_sys s_in s_out].
    rewrite (proj2 (Z.leb_le _ _)) by lia. done. }
  destruct (grep_lines_loop (S (length (held ++ ch))) pat (held ++ ch) false (mk_stream ins out))
    as (out1 & E1 & O1); [by intros [?|?]%elem_of_app|lia|]. cbn [s_in] in E1, O1.
  assert (Hmv : fst (lines_of (held ++ ch)) ≠ []) by (apply lines_of_moved, elem_of_app; by right).
  rewrite bool_decide_eq_false_2 in E1 by done. simpl orb in E1.
  pose proof (lines_of_app held ch) as Happ. rewrite (lines_of_none held Hh1) in Happ.
  destruct (IH (snd (lines_of (held ++ ch))) (mk_stream ins out1)) as (out2 & E2 & O2).
  - done.
  - by intros [_ ?]%rest_sub.
  - by intros [[?|?]%elem_of_app _]%rest_sub.
  - assert (Hl2 : snd (lines_of (held ++ ch)) = snd (lines_of ch)) by (by apply lines_of_rest_app).
    rewrite Hl2. pose proof (lines_rest_length ch). lia.
  - simpl. lia.
  - exists out2. split.
    + rewrite <-E2. rewrite (bind_Ok _ _ _ (inl (snd (lines_of (held ++ ch)))) (mk_stream ins out1)); [done|].
      erewrite bind_Ok by exact Hrd. cbv beta iota. rewrite (proj2 (Z.ltb_lt 0 _)) by done. cbn [negb].
      by erewrite bind_Ok by exact E1.
    + rewrite O2, O1, <-app_assoc. f_equal. unfold input. cbn [s_in concat].
      rewrite app_assoc, (lines_of_app (held ++ ch)).
      destruct (lines_of (held ++ ch)) as [la ra]. cbn [fst snd].
      destruct (lines_of (ra ++ concat ins)) as [lb rb]. cbn [fst]. unfold hits.
      by rewrite filter_app, fmap_app, concat_app.
Qed.

(** ** The claims *)

(** cat copies its whole input to standard output, wherever the reads end, and
    writes nothing else. *)
Theorem cat_copies fd s :
  pieces_ok s → (length (input s) < fuel)%nat →
  ∃ s', cat fd s = Ok tt s' ∧ input s' = [] ∧
    ∀ fd', output fd' s' = output fd' s ++ (if 1 =? fd' then input s else []).
Proof.
  intros Hok Hf. destruct (cat_loop fuel fd s Hok Hf) as (out & E & O).
  exists (mk_stream [] out). split_and!; [|done|done]. unfold cat. by erewrite bind_Ok by exact E.
Qed.

(** wc prints the number of newlines, of words and of bytes of its input, as the
    text of [%d], followed by the name; the counts do not depend on how the reads
    cut the input. *)
Theorem wc_counts fd name s :
  pieces_ok s → (length (input s) < fuel)%nat → Z.of_nat (length (input s)) < 2 ^ 31 →
  (∀ c, c ∈ name → 0 ≤ c < 256) →
  ∃ s', wc fd name s = Ok tt s' ∧
    output 1 s' = output 1 s ++
      uint_text (Z.of_nat (length (newlines (input s)))) 10 true ++ [32] ++
      uint_text (Z.of_nat (length (words (input s)))) 10 true ++ [32] ++
      uint_text (Z.of_nat (length (input s))) 10 true ++ [32] ++ name ++ [10].
Proof.
  intros Hok Hf Hlen Hname. unfold wc. erewrite bind_Ok by by apply wc_loop. cbv beta iota.
  change (0 <? 0) with false. cbv iota.
  destruct (wc_fold (input s) (mk_wc 0 0 0 false)) as (F1 & F2 & F3); [simpl; lia..|].
  rewrite F1, F2, F3. cbn [wc_l wc_w wc_c wc_inword]. rewrite !Z.add_0_l.
  change (wcount false (input s)) with (Z.of_nat (length (words (input s)))).
  match goal with |- context [printf 1 ?fmt ?args] =>
    assert (Hem : emits 1 (uint_text (Z.of_nat (length (newlines (input s)))) 10 true ++ [32] ++
      uint_text (Z.of_nat (length (words (input s)))) 10 true ++ [32] ++
      uint_text (Z.of_nat (length (input s))) 10 true ++ [32] ++ name ++ [10] ++ [])
      (printf 1 fmt args)) end.
  { unfold printf. replace (chars _) with [37; 100; 32; 37; 100; 32; 37; 100; 32; 37; 115; 10] by (vm_compute; reflexivity).
    cbn [printf_loop negb orb Z.eqb Pos.eqb].
    do 3 (apply emits_seq; [apply emits_printint|]; apply emits_seq; [apply (emits_putc 1 32)|]).
    apply emits_seq; [apply emits_puts, Hname|]. apply emits_seq; [apply (emits_putc 1 10)|].
    apply emits_nil. }
  destruct (Hem (mk_stream [] (s_out s))) as (out & E & O). eexists. split; [exact E|].
  rewrite (O 1). by destruct s.
Qed.

(** grep prints exactly the complete lines of its input that match the pattern,
    in order, when every read delivers a newline and at most 511 bytes of text. *)
Theorem grep_prints_matches pat fd s :
  Forall grep_piece (s_in s) → (length (s_in s) < fuel)%nat →
  ∃ s', grep pat fd s = Ok tt s' ∧ output 1 s' = output 1 s ++ hits pat (fst (lines_of (input s))).
Proof.
  intros Hin Hf. destruct (grep_loop fuel pat fd [] s) as (out & E & O);
    [done|apply not_elem_of_nil|apply not_elem_of_nil|simpl; lia|done|].
  exists (mk_stream [] out). by split.
Qed.
End thm.

(** ** Instances *)

Definition two_pieces : stream := mk_stream [chars "one two\nthr"; chars "ee\n"] [].

Lemma cat_copies_witness :
  ∃ s', @cat (stream_os 20) 0 two_pieces = Ok tt s' ∧ output 1 s' = chars "one two\nthree\n".
Proof.
  destruct (cat_copies 20 0 two_pieces) as (s' & E & _ & O).
  - repeat constructor; discriminate.
  - vm_compute. lia.
  - exists s'. split; [exact E|]. rewrite (O 1). vm_compute. reflexivity.
Defined.

Lemma wc_counts_witness :
  ∃ s', @wc (stream_os 20) 0 [] two_pieces = Ok tt s' ∧ output 1 s' = chars "2 3 14 \n".
Proof.
  destruct (wc_counts 20 0 [] two_pieces) as (s' & E & O).
  - repeat constructor; discriminate.
  - vm_compute. lia.
  - vm_compute. reflexivity.
  - intros c Hc. by apply not_elem_of_nil in Hc.
  - exists s'. split; [exact E|]. rewrite O. vm_compute. reflexivity.
Defined.

Lemma grep_prints_matches_witness :
  ∃ s', @grep (stream_os 20) (chars "t.*e") 0 two_pieces = Ok tt s' ∧ output 1 s' = chars "three\n".
Proof.
  destruct (grep_prints_matches 20 (chars "t.*e") 0 two_pieces) as (s' & E & O).
  - unfold grep_piece. apply (bool_decide_unpack _). vm_compute. exact I.
  - vm_compute. lia.
  - exists s'. split; [exact E|]. rewrite O. vm_compute. reflexivity.
Defined.

(** A line that arrives in three reads is lost: grep throws away what it holds when
    a read brings no newline. *)
Lemma grep_loses_split_line :
  ∃ s', @grep (stream_os 20) (chars "cde") 0
    (mk_stream [chars "ab\nc"; chars "d"; chars "e\n"] []) = Ok tt s' ∧ output 1 s' = [] ∧
    matches (chars "cde") (chars "cde").
Proof.
  eexists. split; [vm_compute; reflexivity|]. split; [vm_compute; reflexivity|].
  exists [], (chars "cde"). split; [done|]. exists [].
  repeat (apply lang_char; [done|auto|by right|]). constructor.
Qed.
