(* ===== verification/Sh.v ===== *)
(** * Sh: the shell (sh.c)

    The parser works on the line [buf], a C string, with positions for pointers:
    the parser's [*ps] is the state of the monad, [es] is the length of the line,
    and reading at [es] gives the terminator.  A parsed command holds the positions
    of its words; [nulterminate] writes a 0 behind each of them. *)

From stdpp Require Import base numbers gmap strings option list.
From S2P Require Import Prelude Format User.
Local Open Scope kernel_scope.
Local Open Scope Z_scope.

(** A word of the line: [q] and [eq] of the source. *)
Definition word : Type := nat * nat.

(** The structs execcmd, redircmd, pipecmd, listcmd, backcmd. *)
Inductive cmd :=
  | EXEC (argv : list word)
  | REDIR (c : cmd) (file : word) (mode fd : Z)
  | PIPE (left right : cmd)
  | LIST (left right : cmd)
  | BACK (c : cmd).

Definition MAXARGS : nat := 10.
Abbreviation O_RDONLY := (0)%Z (only parsing).
Abbreviation O_WRONLY := (1)%Z (only parsing).
Abbreviation O_CREATE := (0x200)%Z (only parsing).

(** " \t\r\n\v" and "<|>&;()" *)
Definition whitespace : list Z := [32; 9; 13; 10; 11].
Definition symbols : list Z := [60; 124; 62; 38; 59; 40; 41].
(** [strchr(set, c) != 0] *)
Definition in_set (set : list Z) (c : Z) : bool := bool_decide (is_Some (strchr set c)).

Section parser.
Context (buf : list Z).

Definition es : nat := length buf.
(** [*s] *)
Definition char_at (s : nat) : Z := nth s buf 0.

(** [while(s < es && f( *s )) s++] *)
Fixpoint skip_while (f : Z → bool) (n s : nat) : nat :=
  match n with
  | O => s
  | S n => if f (char_at s) then skip_while f n (S s) else s
  end.
Definition skip (f : Z → bool) (s : nat) : nat := skip_while f (es - s) s.
Definition word_char (c : Z) : bool := negb (in_set whitespace c) && negb (in_set symbols c).

(** The token, and the word [q, eq). *)
Definition gettoken : M nat (Z * word) :=
  let! s := Prelude.gets id in
  let q := skip (in_set whitespace) s in
  let c := char_at q in
  let '(tok, eq) :=
    if c =? 0 then (c, q)
    else if bool_decide (c ∈ [124; 40; 41; 59; 38; 60]) then (c, S q)
    else if c =? 62 then if char_at (S q) =? 62 then (43, S (S q)) else (c, S q)
    else (97, skip word_char q) in
  modify (λ _, skip (in_set whitespace) eq) ;;
  ret (tok, (q, eq)).

Definition peek (toks : list Z) : M nat bool :=
  let! s := Prelude.gets id in
  let s := skip (in_set whitespace) s in
  modify (λ _, s) ;;
  ret (negb (char_at s =? 0) && in_set toks (char_at s)).

(** One redirection: the file, the mode and the descriptor. *)
Definition redir : Type := word * Z * Z.
Definition redircmd (c : cmd) (r : redir) : cmd := let '(file, mode, fd) := r in REDIR c file mode fd.

(** The redirections that [parseredirs] wraps around its command, in order. *)
Definition parseredirs : M nat (list redir) :=
  loop (S es) (λ rs,
    let! b := peek [60; 62] in
    if negb b then ret (inr rs)
    else
      let! t := gettoken in
      let! w := gettoken in
      if negb (fst w =? 97) then panic "missing file for redirection"
      else
        let r :=
          if fst t =? 60 then (snd w, O_RDONLY, 0)
          else (snd w, Z.lor O_WRONLY O_CREATE, 1) in
        ret (inl (rs ++ [r]))) [].

(** The argument loop of [parseexec]: the words and the redirections so far. *)
Definition parseargs (rs : list redir) : M nat (list word * list redir) :=
  loop (S MAXARGS) (λ '(argv, rs),
    let! b := peek [124; 41; 38; 59] in
    if b then ret (inr (argv, rs))
    else
      let! t := gettoken in
      if fst t =? 0 then ret (inr (argv, rs))
      else if negb (fst t =? 97) then panic "syntax"
      else
        let argv := argv ++ [snd t] in
        if (MAXARGS <=? length argv)%nat then panic "too many args"
        else
          let! rs' := parseredirs in
          ret (inl (argv, rs ++ rs'))) ([], rs).

(** [while(peek(ps, es, "&")) { gettoken(ps, es, 0, 0); cmd = backcmd(cmd); }] *)
Definition parseback (c : cmd) : M nat cmd :=
  loop (S es) (λ c,
    let! b := peek [38] in
    if negb b then ret (inr c)
    else
      gettoken ;;
      ret (inl (BACK c))) c.

Fixpoint parseline (fuel : nat) : M nat cmd :=
  match fuel with
  | O => out_of_fuel
  | S fuel =>
      let! c := parsepipe fuel in
      let! c := parseback c in
      let! b := peek [59] in
      if b then
        gettoken ;;
        let! r := parseline fuel in
        ret (LIST c r)
      else ret c
  end
with parsepipe (fuel : nat) : M nat cmd :=
  match fuel with
  | O => out_of_fuel
  | S fuel =>
      let! c := parseexec fuel in
      let! b := peek [124] in
      if b then
        gettoken ;;
        let! r := parsepipe fuel in
        ret (PIPE c r)
      else ret c
  end
with parseexec (fuel : nat) : M nat cmd :=
  match fuel with
  | O => out_of_fuel
  | S fuel =>
      let! b := peek [40] in
      if b then parseblock fuel
      else
        let! rs := parseredirs in
        let! r := parseargs rs in
        let '(argv, rs) := r in
        ret (foldl redircmd (EXEC argv) rs)
  end
with parseblock (fuel : nat) : M nat cmd :=
  match fuel with
  | O => out_of_fuel
  | S fuel =>
      let! b := peek [40] in
      if negb b then panic "parseblock"
      else
        gettoken ;;
        let! c := parseline fuel in
        let! b := peek [41] in
        if negb b then panic "syntax - missing )"
        else
          gettoken ;;
          let! rs := parseredirs in
          ret (foldl redircmd c rs)
  end.

(** Four calls deep for every character of the line. *)
Definition PFUEL : nat := 4 * es + 4.

(** [parsecmd] up to [nulterminate]; its own error message is built in [run_line]. *)
Definition parsecmd : M nat cmd :=
  let! c := parseline PFUEL in
  peek [] ;;
  let! s := Prelude.gets id in
  if negb (s =? es)%nat then panic "leftovers" else ret c.
End parser.

(** ** nulterminate *)

(** [*eq = 0]; at the end of the line this is the terminator already there. *)
Definition put_nul (w : word) (buf : list Z) : list Z := <[snd w := 0]> buf.

Fixpoint nulterminate (c : cmd) (buf : list Z) : list Z :=
  match c with
  | EXEC argv => foldl (λ buf w, put_nul w buf) buf argv
  | REDIR c file _ _ => put_nul file (nulterminate c buf)
  | PIPE l r | LIST l r => nulterminate r (nulterminate l buf)
  | BACK c => nulterminate c buf
  end.

(** The C string at a word's start. *)
Definition word_text (buf : list Z) (w : word) : list Z := cstr (drop (fst w) buf).

(** ** Running a command *)

Section run.
Context `{OSys}.

Definition sh_panic {A} (s : string) : U A :=
  printf 2 "%s\n" [UStr (chars s)] ;;
  exit.
Definition fork1 : U Z :=
  let! pid := fork in
  if pid =? -1 then sh_panic "fork" else ret pid.

Fixpoint runcmd (buf : list Z) (c : cmd) : U unit :=
  match c with
  | EXEC argv =>
      match argv with
      | [] => exit
      | w :: _ =>
          exec (word_text buf w) (word_text buf <$> argv) ;;
          printf 2 "exec %s failed\n" [UStr (word_text buf w)]
      end ;;
      exit
  | REDIR c file mode fd =>
      close fd ;;
      let! r := open (word_text buf file) mode in
      if r <? 0 then
        printf 2 "open %s failed\n" [UStr (word_text buf file)] ;;
        exit
      else
        runcmd buf c ;;
        exit
  | LIST l r =>
      let! pid := fork1 in
      when (pid =? 0) (runcmd buf l) ;;
      wait ;;
      runcmd buf r ;;
      exit
  | PIPE l r =>
      let! a := pipe in
      let '(res, p) := a in
      if res <? 0 then sh_panic "pipe"
      else
        let p0 := nth 0 p 0 in
        let p1 := nth 1 p 0 in
        let! pid := fork1 in
        when (pid =? 0) (
          close 1 ;;
          dup p1 ;;
          close p0 ;;
          close p1 ;;
          runcmd buf l) ;;
        let! pid := fork1 in
        when (pid =? 0) (
          close 0 ;;
          dup p0 ;;
          close p0 ;;
          close p1 ;;
          runcmd buf r) ;;
        close p0 ;;
        close p1 ;;
        wait ;;
        wait ;;
        exit
  | BACK c =>
      let! pid := fork1 in
      when (pid =? 0) (runcmd buf c) ;;
      exit
  end.

(** The line, or the end of the input. *)
Definition getcmd : U (option (list Z)) :=
  printf 2 "$ " [] ;;
  let! line := gets 100 in
  ret (match cstr line with [] => None | line => Some line end).

(** What the child does with a line; a syntax error prints its message and exits. *)
Definition run_line (line : list Z) : U unit :=
  match parsecmd line 0%nat with
  | Ok c _ => runcmd (nulterminate c line) c
  | Panic msg s =>
      if bool_decide (msg = "leftovers") then
        printf 2 "leftovers: %s\n" [UStr (drop s line)] ;;
        sh_panic "syntax"
      else sh_panic msg
  | _ => out_of_fuel
  end.

Definition sh_main : U unit :=
  loop UFUEL (λ _ : unit,
    let! fd := open (chars "console") 2 in
    if negb (0 <=? fd) then ret (inr tt)
    else if 3 <=? fd then
      close fd ;;
      ret (inr tt)
    else ret (inl tt)) tt ;;
  loop UFUEL (λ _ : unit,
    let! o := getcmd in
    match o with
    | None => ret (inr tt)
    | Some line =>
        if bool_decide (take 3 line = [99; 100; 32]) then
          let path := drop 3 (removelast line) in
          let! r := chdir path in
          when (r <? 0) (printf 2 "cannot cd %s\n" [UStr path]) ;;
          ret (inl tt)
        else
          let! pid := fork1 in
          when (pid =? 0) (run_line line) ;;
          wait ;;
          ret (inl tt)
    end) tt ;;
  exit.
End run.
