(* ===== verification/ShThm.v ===== *)
(** * ShThm: the shell's parser ends, and hands over the words of the line *)

From stdpp Require Import base numbers gmap strings option list.
From S2P Require Import Prelude Format User Sh.
Local Open Scope kernel_scope.
Local Open Scope Z_scope.

(** ** Runs that return or panic *)

(** [safe m Q s]: [m] returns in [Q] or reports an error; it has no undefined
    behaviour and does not run out of fuel. *)
Definition safe {S A} (m : M S A) (Q : A → S → Prop) (s : S) : Prop :=
  match m s with
  | Ok a s' => Q a s'
  | Panic _ _ => True
  | _ => False
  end.

Section safe.
Context {S : Type}.
Implicit Types s : S.

Lemma safe_mono {A} (m : M S A) (Q Q' : A → S → Prop) s :
  safe m Q s → (∀ a s', Q a s' → Q' a s') → safe m Q' s.
Proof. unfold safe. destruct (m s); auto. Qed.
Lemma safe_bind {A B} (m : M S A) (f : A → M S B) Q s :
  safe m (λ a s', safe (f a) Q s') s → safe (bind m f) Q s.
Proof. unfold safe, bind. by destruct (m s). Qed.
Lemma safe_ret {A} (a : A) (Q : A → S → Prop) s : Q a s → safe (ret a) Q s.
Proof. done. Qed.
Lemma safe_panic {A} msg (Q : A → S → Prop) s : safe (panic msg) Q s.
Proof. done. Qed.
Lemma safe_loop {X R} (I : X → S → Prop) (measure : X → S → nat) fuel body (x : X) Q s :
  I x s → (measure x s < fuel)%nat →
  (∀ x s, I x s →
     safe (body x) (λ o s', match o with
                            | inl x' => I x' s' ∧ (measure x' s' < measure x s)%nat
                            | inr r => Q r s'
                            end) s) →
  safe (loop (R:=R) fuel body x) Q s.
Proof.
  intros HI Hm Hstep. revert x s HI Hm. induction fuel as [|fuel IH]; intros x s HI Hm; simpl; [lia|].
  apply safe_bind. eapply safe_mono; [by apply Hstep|].
  intros [x'|r] s' Ho; [|done]. destruct Ho as [HI' Hd]. apply IH; [done|lia].
Qed.
End safe.

Lemma in_set_spec set c : in_set set c = bool_decide (c ∈ set).
Proof.
  unfold in_set. apply bool_decide_ext. induction set as [|x set IH]; simpl.
  - split; [by intros []|by intros ?%not_elem_of_nil].
  - rewrite elem_of_cons. destruct (Z.eqb_spec x c) as [->|Hne]; [split; [by left|eauto]|].
    rewrite IH. split; [by right|]. by intros [?|?].
Qed.

(** The words of a command. *)
Fixpoint words_of (c : cmd) : list word :=
  match c with
  | EXEC argv => argv
  | REDIR c file _ _ => words_of c ++ [file]
  | PIPE l r | LIST l r => words_of l ++ words_of r
  | BACK c => words_of c
  end.

Section line.
Context (buf : list Z).
Notation es := (length buf).
Notation char_at := (char_at buf).

(** A maximal run of word characters. *)
Record word_ok (w : word) : Prop := {
  wo_lt : (fst w < snd w)%nat;
  wo_le : (snd w ≤ es)%nat;
  wo_in i : (fst w ≤ i < snd w)%nat → word_char (char_at i) = true;
  wo_end : snd w = es ∨ word_char (char_at (snd w)) = false;
}.

Lemma skip_while_spec f n s :
  (s ≤ skip_while buf f n s ≤ s + n)%nat ∧
  (∀ i, (s ≤ i < skip_while buf f n s)%nat → f (char_at i) = true) ∧
  (skip_while buf f n s = (s + n)%nat ∨ f (char_at (skip_while buf f n s)) = false).
Proof.
  revert s. induction n as [|n IH]; intros s; cbn [skip_while].
  { split_and!; [lia|lia|lia|]. left. lia. }
  destruct (f (char_at s)) eqn:E.
  - destruct (IH (S s)) as (H1 & H2 & H3). split_and!; [lia|lia| |].
    + intros i Hi. destruct (decide (i = s)) as [->|]; [done|]. apply H2. lia.
    + destruct H3 as [H3|H3]; [left; lia|by right].
  - split_and!; [lia|lia|lia|by right].
Qed.

Lemma skip_spec f s :
  (s ≤ es)%nat →
  (s ≤ skip buf f s ≤ es)%nat ∧
  (∀ i, (s ≤ i < skip buf f s)%nat → f (char_at i) = true) ∧
  (skip buf f s = es ∨ f (char_at (skip buf f s)) = false).
Proof.
  intros Hs. unfold skip, Sh.es. destruct (skip_while_spec f (es - s) s) as (H1 & H2 & H3).
  split_and!; [lia|lia|done|]. destruct H3 as [H3|H3]; [left; lia|by right].
Qed.

Lemma skip_stop f s : (s ≤ es)%nat → s = es ∨ f (char_at s) = false → skip buf f s = s.
Proof.
  intros Hs [->|Hf]; unfold skip, Sh.es; [by rewrite Nat.sub_diag|].
  destruct (es - s)%nat; simpl; [done|by rewrite Hf].
Qed.

Lemma skip_idem f s : (s ≤ es)%nat → skip buf f (skip buf f s) = skip buf f s.
Proof. intros Hs. destruct (skip_spec f s Hs) as (H1 & _ & H3). apply skip_stop; [lia|done]. Qed.

Lemma char_at_lt s : char_at s ≠ 0 → (s < es)%nat.
Proof.
  intros Hc. destruct (decide (s < es)%nat) as [|Hn]; [done|]. destruct Hc.
  unfold Sh.char_at. apply nth_overflow. lia.
Qed.

Notation ws := (in_set whitespace).

(** ** Tokens *)

Lemma gettoken_spec s :
  (s ≤ es)%nat →
  ∃ tok w s', gettoken buf s = Ok (tok, w) s' ∧ (s ≤ s' ≤ es)%nat ∧
    (tok = 97 → word_ok w) ∧ (char_at (skip buf ws s) ≠ 0 → (s < s')%nat).
Proof.
  intros Hs. unfold gettoken. cbn [Prelude.gets bind]. change (id s) with s. cbv beta zeta.
  destruct (skip_spec ws s Hs) as (Hq & _ & Hqs). set (q := skip buf ws s) in *.
  assert (Hend : ∀ tok eq, (q ≤ eq ≤ es)%nat → (tok = 97 → word_ok (q, eq)) →
    (char_at q ≠ 0 → (q < eq)%nat) →
    ∃ tok' w s', (modify (λ _, skip buf ws eq) ;; ret (tok, (q, eq))) s = Ok (tok', w) s' ∧
      (s ≤ s' ≤ es)%nat ∧ (tok' = 97 → word_ok w) ∧ (char_at q ≠ 0 → (s < s')%nat)).
  { intros tok eq Heq Hw Hp. destruct (skip_spec ws eq) as (H1 & _ & _); [lia|].
    eexists _, _, _. split_and!; [done|lia|lia|done|]. intros Hc. specialize (Hp Hc). lia. }
  assert (Hsym : ∀ c, c ∈ [124; 40; 41; 59; 38; 60] → c ≠ 97 ∧ c ≠ 0) by (intros c Hc; set_solver by lia).
  destruct (Z.eqb_spec (char_at q) 0) as [E0|E0]; [apply Hend; [lia|congruence|done]|].
  pose proof (char_at_lt q E0) as Hlt. case_bool_decide as Hin.
  { destruct (Hsym _ Hin). apply Hend; [lia|done|lia]. }
  destruct (Z.eqb_spec (char_at q) 62) as [E62|E62].
  { destruct (Z.eqb_spec (char_at (S q)) 62) as [E'|E'].
    - assert (S q < es)%nat by (apply char_at_lt; lia). apply Hend; [lia|lia|lia].
    - apply Hend; [lia|lia|lia]. }
  assert (Hword : word_char (char_at q) = true).
  { unfold word_char. rewrite !in_set_spec in *. destruct Hqs as [?|Hqs]; [lia|]. rewrite Hqs. simpl.
    apply negb_true_iff, bool_decide_eq_false. unfold symbols. set_solver. }
  destruct (skip_spec word_char q) as (H1 & H2 & H3); [lia|].
  assert (Hp : (q < skip buf word_char q)%nat).
  { destruct (decide (q = skip buf word_char q)) as [E|]; [|lia]. rewrite <-E in H3.
    destruct H3; [lia|congruence]. }
  apply Hend; [lia| |done]. intros _. split; simpl; [done|lia|done|done].
Qed.

Lemma safe_gettoken s (Q : Z * word → nat → Prop) :
  (s ≤ es)%nat →
  (∀ tok w s', (s ≤ s' ≤ es)%nat → (tok = 97 → word_ok w) →
     (char_at (skip buf ws s) ≠ 0 → (s < s')%nat) → Q (tok, w) s') →
  safe (gettoken buf) Q s.
Proof.
  intros Hs HQ. destruct (gettoken_spec s Hs) as (tok & w & s' & E & H1 & H2 & H3).
  unfold safe. rewrite E. by apply HQ.
Qed.

Lemma safe_peek toks s (Q : bool → nat → Prop) :
  (s ≤ es)%nat →
  (∀ b s', (s ≤ s' ≤ es)%nat → (b = true → char_at (skip buf ws s') ≠ 0) → Q b s') →
  safe (peek buf toks) Q s.
Proof.
  intros Hs HQ. unfold peek, safe. cbn [Prelude.gets bind modify ret]. change (id s) with s.
  destruct (skip_spec ws s Hs) as (H1 & _ & _). apply HQ; [lia|].
  intros [Hb _]%andb_true_iff. rewrite skip_idem by done.
  by apply negb_true_iff, Z.eqb_neq in Hb.
Qed.

(** [m] moves forward and its result satisfies [R]. *)
Definition advances {A} (m : M nat A) (R : A → Prop) (s : nat) : Prop :=
  safe m (λ a s', (s ≤ s' ≤ es)%nat ∧ R a) s.

Notation redirs_ok := (Forall (λ r : redir, word_ok (fst (fst r)))).

Lemma parseredirs_ok s : (s ≤ es)%nat → advances (parseredirs buf) redirs_ok s.
Proof.
  intros Hs. unfold advances, parseredirs.
  apply (safe_loop (λ rs s', (s ≤ s' ≤ es)%nat ∧ redirs_ok rs) (λ _ s', (es - s')%nat)).
  { split; [lia|constructor]. }
  { unfold Sh.es. lia. }
  intros rs s1 [Hs1 Hrs]. apply safe_bind, safe_peek; [lia|]. intros b s2 Hs2 Hb.
  destruct b; simpl; [|apply safe_ret; split; [lia|done]].
  apply safe_bind, safe_gettoken; [lia|]. intros tok w s3 Hs3 _ Hp.
  apply safe_bind, safe_gettoken; [lia|]. intros tok' w' s4 Hs4 Hw' _. simpl.
  destruct (Z.eqb_spec tok' 97) as [->|]; [|apply safe_panic]. simpl.
  specialize (Hp (Hb eq_refl)). apply safe_ret. split_and!; [lia|lia| |lia].
  apply Forall_app. split; [done|]. constructor; [|constructor].
  destruct (tok =? 60); simpl; by apply Hw'.
Qed.

Lemma parseargs_ok rs s :
  (s ≤ es)%nat → redirs_ok rs →
  advances (parseargs buf rs) (λ r, Forall word_ok (fst r) ∧ redirs_ok (snd r)) s.
Proof.
  intros Hs Hrs. unfold advances, parseargs.
  apply (safe_loop (λ r s', (s ≤ s' ≤ es)%nat ∧ (length (fst r) < MAXARGS)%nat ∧
    Forall word_ok (fst r) ∧ redirs_ok (snd r)) (λ r _, (MAXARGS - length (fst r))%nat)).
  { split_and!; [lia|lia|simpl; unfold MAXARGS; lia|constructor|done]. }
  { unfold MAXARGS. simpl. lia. }
  intros [argv rs1] s1 (Hs1 & Hlen & Hargv & Hrs1). simpl in Hlen, Hargv, Hrs1.
  apply safe_bind, safe_peek; [lia|]. intros b s2 Hs2 Hb.
  destruct b; [apply safe_ret; split; [lia|done]|].
  apply safe_bind, safe_gettoken; [lia|]. intros tok w s3 Hs3 Hw _. cbn [fst snd].
  destruct (tok =? 0); [apply safe_ret; split; [lia|done]|].
  destruct (Z.eqb_spec tok 97) as [->|]; [|apply safe_panic]. cbn [negb].
  destruct (Nat.leb_spec MAXARGS (length (argv ++ [w]))) as [|Hlt]; [apply safe_panic|].
  apply safe_bind. eapply safe_mono; [apply parseredirs_ok; lia|].
  intros rs' s4 [Hs4 Hrs']. apply safe_ret. simpl. rewrite length_app in *. simpl in *.
  split_and!; [lia|lia|lia| |by apply Forall_app|lia].
  apply Forall_app. split; [done|]. constructor; [by apply Hw|constructor].
Qed.

Notation cmd_ok := (λ c, Forall word_ok (words_of c)).

Lemma redirs_words c rs :
  Forall word_ok (words_of c) → redirs_ok rs → Forall word_ok (words_of (foldl redircmd c rs)).
Proof.
  revert c. induction rs as [|[[w m] fd] rs IH]; intros c Hc Hrs; [done|].
  apply Forall_cons in Hrs as [Hw Hrs]. simpl. apply IH; [|done]. simpl.
  apply Forall_app. split; [done|]. by constructor.
Qed.

Lemma parseback_ok c s : (s ≤ es)%nat → cmd_ok c → advances (parseback buf c) cmd_ok s.
Proof.
  intros Hs Hc. unfold advances, parseback.
  apply (safe_loop (λ c s', (s ≤ s' ≤ es)%nat ∧ cmd_ok c) (λ _ s', (es - s')%nat)).
  { split; [lia|done]. }
  { unfold Sh.es. lia. }
  intros c1 s1 [Hs1 Hc1]. apply safe_bind, safe_peek; [lia|]. intros b s2 Hs2 Hb.
  destruct b; simpl; [|apply safe_ret; split; [lia|done]].
  apply safe_bind, safe_gettoken; [lia|]. intros tok w s3 Hs3 _ Hp.
  specialize (Hp (Hb eq_refl)). apply safe_ret. split_and!; [lia|lia|done|lia].
Qed.

(** ** The recursive descent *)

Definition parsers_ok (fuel : nat) : Prop :=
  ∀ s, (s ≤ es)%nat →
    ((4 * (es - s) + 4 ≤ fuel)%nat → advances (parseline buf fuel) cmd_ok s) ∧
    ((4 * (es - s) + 3 ≤ fuel)%nat → advances (parsepipe buf fuel) cmd_ok s) ∧
    ((4 * (es - s) + 2 ≤ fuel)%nat → advances (parseexec buf fuel) cmd_ok s) ∧
    ((4 * (es - s) + 1 ≤ fuel)%nat → advances (parseblock buf fuel) cmd_ok s).

(** What follows a separator: consume it, and parse on with [m]. *)
Lemma after_separator (m : M nat cmd) (f : cmd → cmd) s toks c :
  (s ≤ es)%nat → cmd_ok c → (∀ r, cmd_ok r → cmd_ok (f r)) →
  (∀ s', (s < s' ≤ es)%nat → advances m cmd_ok s') →
  advances (let! b := peek buf toks in
            if b then gettoken buf ;; let! r := m in ret (f r) else ret c) cmd_ok s.
Proof.
  intros Hs Hc Hf Hm. apply safe_bind, safe_peek; [lia|]. intros b s1 Hs1 Hb.
  destruct b; [|apply safe_ret; split; [lia|done]].
  apply safe_bind, safe_gettoken; [lia|]. intros tok w s2 Hs2 _ Hp. specialize (Hp (Hb eq_refl)).
  apply safe_bind. eapply safe_mono; [apply Hm; lia|]. intros r s3 [Hs3 Hr].
  apply safe_ret. split; [lia|]. by apply Hf.
Qed.

Lemma parsers_step fuel : parsers_ok fuel → parsers_ok (S fuel).
Proof.
  intros IH s Hs. split_and!; intros Hf; cbn [parseline parsepipe parseexec parseblock].
  - apply safe_bind. destruct (IH s Hs) as (_ & Hpipe & _).
    eapply safe_mono; [apply Hpipe; lia|]. intros c s1 [Hs1 Hc].
    apply safe_bind. eapply safe_mono; [apply parseback_ok; [lia|done]|]. intros c2 s2 [Hs2 Hc2].
    eapply safe_mono; [apply (after_separator _ (LIST c2) s2 [59] c2); [lia|done| |]|].
    + intros r Hr. simpl. by apply Forall_app.
    + intros s3 Hs3. destruct (IH s3 ltac:(lia)) as (Hline & _). apply Hline. lia.
    + intros r s3 [Hs3 Hr]. split; [lia|done].
  - apply safe_bind. destruct (IH s Hs) as (_ & _ & Hexec & _).
    eapply safe_mono; [apply Hexec; lia|]. intros c s1 [Hs1 Hc].
    eapply safe_mono; [apply (after_separator _ (PIPE c) s1 [124] c); [lia|done| |]|].
    + intros r Hr. simpl. by apply Forall_app.
    + intros s3 Hs3. destruct (IH s3 ltac:(lia)) as (_ & Hpipe & _). apply Hpipe. lia.
    + intros r s3 [Hs3 Hr]. split; [lia|done].
  - apply safe_bind, safe_peek; [lia|]. intros b s1 Hs1 Hb. destruct b.
    { destruct (IH s1 ltac:(lia)) as (_ & _ & _ & Hblock).
      eapply safe_mono; [apply Hblock; lia|]. intros c s2 [Hs2 Hc]. split; [lia|done]. }
    apply safe_bind. eapply safe_mono; [apply parseredirs_ok; lia|]. intros rs s2 [Hs2 Hrs].
    apply safe_bind. eapply safe_mono; [apply parseargs_ok; [lia|done]|].
    intros [argv rs'] s3 [Hs3 [Hargv Hrs']]. apply safe_ret. split; [lia|]. by apply redirs_words.
  - apply safe_bind, safe_peek; [lia|]. intros b s1 Hs1 Hb. destruct b; simpl; [|apply safe_panic].
    apply safe_bind, safe_gettoken; [lia|]. intros tok w s2 Hs2 _ Hp. specialize (Hp (Hb eq_refl)).
    apply safe_bind. destruct (IH s2 ltac:(lia)) as (Hline & _).
    eapply safe_mono; [apply Hline; lia|]. intros c s3 [Hs3 Hc].
    apply safe_bind, safe_peek; [lia|]. intros b s4 Hs4 Hb4. destruct b; simpl; [|apply safe_panic].
    apply safe_bind, safe_gettoken; [lia|]. intros tok' w' s5 Hs5 _ _.
    apply safe_bind. eapply safe_mono; [apply parseredirs_ok; lia|]. intros rs s6 [Hs6 Hrs].
    apply safe_ret. split; [lia|]. by apply redirs_words.
Qed.

Lemma parsers_all fuel : parsers_ok fuel.
Proof.
  induction fuel as [|fuel IH]; [|by apply parsers_step]. intros s Hs. split_and!; intros; lia.
Qed.

Lemma parsecmd_ok : safe (parsecmd buf) (λ c s, s = es ∧ Forall word_ok (words_of c)) 0%nat.
Proof.
  unfold parsecmd. apply safe_bind.
  destruct (parsers_all (PFUEL buf) 0%nat ltac:(lia)) as (Hline & _).
  eapply safe_mono; [apply Hline; unfold PFUEL, Sh.es; lia|]. intros c s1 [Hs1 Hc].
  apply safe_bind, safe_peek; [lia|]. intros b s2 Hs2 _. apply safe_bind. apply safe_ret.
  change (id s2) with s2. destruct (Nat.eqb_spec s2 (Sh.es buf)) as [->|]; [|apply safe_panic].
  by apply safe_ret.
Qed.
End line.

(** ** The terminators *)

Definition ends (c : cmd) : list nat := snd <$> words_of c.

Lemma put_nuls_lookup ws buf i :
  foldl (λ buf w, put_nul w buf) buf ws !! i =
    if decide (i ∈ (snd <$> ws) ∧ (i < length buf)%nat) then Some 0 else buf !! i.
Proof.
  revert buf. induction ws as [|[q e] ws IH]; intros buf.
  { rewrite decide_False; [done|]. intros [?%not_elem_of_nil _]. done. }
  cbn [foldl fmap list_fmap]. rewrite IH. unfold put_nul. rewrite length_insert. cbn [snd].
  destruct (decide (i ∈ snd <$> ws ∧ (i < length buf)%nat)) as [Hd|Hd].
  - rewrite decide_True; [done|]. destruct Hd. split; [by right|done].
  - destruct (decide (i = e)) as [->|Hne].
    + destruct (decide (e < length buf)%nat) as [Hl|Hl].
      * rewrite list_lookup_insert_eq by done. rewrite decide_True; [done|]. split; [by left|done].
      * rewrite decide_False by (intros [_ ?]; done). rewrite !lookup_ge_None_2; [done|lia|].
        rewrite length_insert. lia.
    + rewrite list_lookup_insert_ne by done. rewrite decide_False; [done|].
      intros [[?|?]%elem_of_cons ?]; [done|]. by apply Hd.
Qed.

Lemma nulterminate_words c buf :
  nulterminate c buf = foldl (λ buf w, put_nul w buf) buf (words_of c).
Proof.
  revert buf. induction c as [argv|c IH file m fd|l IHl r IHr|l IHl r IHr|c IH]; intros buf; simpl.
  - done.
  - by rewrite foldl_app, IH.
  - by rewrite foldl_app, IHl, IHr.
  - by rewrite foldl_app, IHl, IHr.
  - done.
Qed.

Lemma cstr_app a b : 0 ∉ a → head b = Some 0 ∨ b = [] → cstr (a ++ b) = a.
Proof.
  intros Ha Hb. unfold cstr.
  assert (Hf : default (length (a ++ b)) (fst <$> list_find (λ x, x = 0) (a ++ b)) = length a).
  { destruct Hb as [Hb| ->].
    - destruct b as [|x b]; [done|]. injection Hb as ->.
      rewrite (proj2 (list_find_Some (λ x, x = 0) (a ++ 0 :: b) (length a) 0)); [done|].
      split_and!; [by rewrite lookup_app_r, Nat.sub_diag by lia|done|].
      intros j y Hj Hlt ->. rewrite lookup_app_l in Hj by lia. by apply list_elem_of_lookup_2 in Hj.
    - rewrite app_nil_r. rewrite (proj2 (list_find_None (λ x, x = 0) a)); [done|].
      apply Forall_forall. by intros x Hx ->. }
  rewrite Hf. apply take_app_length.
Qed.

Lemma word_text_spec line c w :
  0 ∉ line → Forall (word_ok line) (words_of c) → w ∈ words_of c →
  word_text (nulterminate c line) w = take (snd w - fst w) (drop (fst w) line).
Proof.
  intros H0 Hall Hw. rewrite Forall_forall in Hall. pose proof (Hall w Hw) as [Hlt Hle Hin _].
  unfold word_text. rewrite nulterminate_words. set (buf' := foldl _ _ _).
  assert (Hlk : ∀ i, buf' !! i = if decide (i ∈ ends c ∧ (i < length line)%nat) then Some 0 else line !! i)
    by apply put_nuls_lookup.
  assert (Hclean : ∀ i, (fst w ≤ i < snd w)%nat → i ∉ ends c).
  { intros i Hi (w' & -> & Hw')%list_elem_of_fmap. pose proof (Hall w' Hw') as [_ Hle' _ Hend].
    specialize (Hin _ Hi). destruct Hend as [E|E]; [lia|congruence]. }
  assert (Hd : drop (fst w) buf' = take (snd w - fst w) (drop (fst w) line) ++ drop (snd w) buf').
  { apply list_eq. intros i. rewrite lookup_drop. destruct (decide (i < snd w - fst w)%nat) as [Hi|Hi].
    - rewrite lookup_app_l by (rewrite length_take, length_drop; lia).
      rewrite lookup_take_lt by done. rewrite lookup_drop, Hlk, decide_False; [done|].
      intros [? _]. eapply Hclean; [|done]. lia.
    - rewrite lookup_app_r by (rewrite length_take, length_drop; lia).
      rewrite lookup_drop, length_take, length_drop. f_equal. lia. }
  rewrite Hd. apply cstr_app.
  - intros [i Hi]%list_elem_of_lookup. apply H0.
    destruct (decide (i < snd w - fst w)%nat) as [Hlt'|].
    + rewrite lookup_take_lt, lookup_drop in Hi by done. by apply list_elem_of_lookup_2 in Hi.
    + rewrite lookup_ge_None_2 in Hi by (rewrite length_take; lia). done.
  - assert (Hh : head (drop (snd w) buf') = buf' !! snd w).
    { by rewrite head_lookup, lookup_drop, Nat.add_0_r. }
    rewrite Hh, Hlk. destruct (decide (snd w < length line)%nat) as [Hl|Hl].
    + left. rewrite decide_True; [done|]. split; [|done]. apply list_elem_of_fmap. eauto.
    + right. apply drop_ge. assert (length buf' ≤ length line)%nat; [|lia].
      destruct (decide (length buf' ≤ length line)%nat) as [|Hn]; [done|].
      destruct (lookup_lt_is_Some_2 buf' (length line)) as [x Hx]; [lia|].
      rewrite Hlk, decide_False, lookup_ge_None_2 in Hx by lia. done.
Qed.

(** ** The claims *)

(** The parser ends on every line: it returns a command that used up the line and
    whose words are maximal runs of word characters, or reports a syntax error; it
    never reads out of bounds and never loops. *)
Theorem parsecmd_ends line :
  match parsecmd line 0%nat with
  | Ok c s => s = length line ∧ Forall (word_ok line) (words_of c)
  | Panic _ _ => True
  | Undef _ | OutOfFuel => False
  end.
Proof. exact (parsecmd_ok line). Qed.

(** C37.  After nulterminate every word of the command, read as a C string, is the text
    of that word in the line: no terminator lands inside another word. *)
Theorem nulterminate_words_intact line c s w :
  0 ∉ line → parsecmd line 0%nat = Ok c s → w ∈ words_of c →
  word_text (nulterminate c line) w = take (snd w - fst w) (drop (fst w) line).
Proof.
  intros H0 E Hw. pose proof (parsecmd_ok line) as Hok. unfold safe in Hok. rewrite E in Hok.
  destruct Hok as [_ Hall]. by apply word_text_spec.
Qed.

Definition sample_line : list Z := chars "echo hi>f;(ls|wc)&\n".

Lemma nulterminate_words_intact_witness :
  ∃ c s, parsecmd sample_line 0%nat = Ok c s ∧
    word_text (nulterminate c sample_line) (5, 7)%nat = chars "hi".
Proof.
  eexists _, _. split; [vm_compute; reflexivity|].
  rewrite (nulterminate_words_intact sample_line _ (length sample_line) (5, 7)%nat).
  - vm_compute. reflexivity.
  - apply (bool_decide_unpack _). vm_compute. exact I.
  - vm_compute. reflexivity.
  - apply (bool_decide_unpack _). vm_compute. exact I.
Defined.

Section run.
Context `{OSys}.

Definition never {A} (m : U A) : Prop := ∀ s a s', m s ≠ Ok a s'.
Lemma never_bind {A B} (m : U A) (f : A → U B) : (∀ a, never (f a)) → never (bind m f).
Proof. intros Hf s a s'. unfold bind. destruct (m s); [by apply Hf|done..]. Qed.
Lemma never_exit {A} : never (exit (A:=A)).
Proof. by apply never_bind. Qed.
Lemma never_sh_panic {A} msg : never (sh_panic (A:=A) msg).
Proof. apply never_bind. intros _. apply never_exit. Qed.

(** runcmd never returns to its caller, in any system: it ends the process or
    replaces its image. *)
Theorem runcmd_never_returns buf c s a s' : runcmd buf c s ≠ Ok a s'.
Proof.
  revert s a s'. change (never (runcmd buf c)).
  destruct c as [argv|c file m fd|l r|l r|c]; cbn [runcmd];
    repeat first [apply never_exit | apply never_sh_panic | apply never_bind; intros];
    repeat case_match; repeat first [apply never_exit | apply never_sh_panic | apply never_bind; intros].
Qed.
End run.
