(* ===== verification/Umalloc.v ===== *)
(** * Umalloc: the user-level memory allocator (umalloc.c)

    Headers live in memory at byte addresses; [Header*] arithmetic is in units of
    eight bytes.  The free blocks form a ring in address order through [s.ptr],
    which starts at the static header [base]; [freep] points into the ring. *)

From stdpp Require Import base numbers gmap strings option list.
From S2P Require Import Prelude.
Local Open Scope kernel_scope.
Local Open Scope Z_scope.

(** [union header]: [s.ptr] and [s.size]. *)
Record header := mk_header { h_ptr : Z; h_size : Z }.
Definition sizeof_Header : Z := 8.

(** The allocator's state: [freep], the headers in memory, and the process's break. *)
Record heap := mk_heap { u_freep : Z; u_hdr : gmap Z header; u_brk : Z }.

Section umalloc.
(** [&base], and the calls of [sbrk] that the kernel refuses. *)
Context (base : Z) (refuses : Z → Z → bool).

Definition hdr (p : Z) : M heap header := λ s,
  match u_hdr s !! p with
  | Some h => Ok h s
  | None => Undef "header"
  end.
Definition set_hdr (p : Z) (h : header) : M heap unit := λ s,
  Ok tt (mk_heap (u_freep s) (<[p := h]> (u_hdr s)) (u_brk s)).
(** [p->s.ptr = v] and [p->s.size = v]; memory that held no header yet has any
    value in the other field. *)
Definition set_ptr (p v : Z) : M heap unit :=
  let! o := gets (λ s, u_hdr s !! p) in
  set_hdr p (mk_header v (default 0 (h_size <$> o))).
Definition set_size (p v : Z) : M heap unit :=
  let! o := gets (λ s, u_hdr s !! p) in
  set_hdr p (mk_header (default 0 (h_ptr <$> o)) v).
Definition set_freep (p : Z) : M heap unit := modify (λ s, mk_heap p (u_hdr s) (u_brk s)).

(** The system call: the old break, or -1; its argument is a signed [int]. *)
Definition sbrk (n : Z) : M heap Z :=
  let! s := gets id in
  if refuses (u_brk s) n then ret (-1)
  else
    modify (λ s, mk_heap (u_freep s) (u_hdr s) (u_brk s + n)) ;;
    ret (u_brk s).

(** [p + n] for a [Header *p] *)
Definition hplus (p n : Z) : Z := p + sizeof_Header * n.

(** The search loop of [free]: a ring has no more headers than memory holds. *)
Definition free_search (bp : Z) : M heap Z :=
  let! s := gets id in
  loop (S (size (u_hdr s))) (λ p,
    let! h := hdr p in
    if (p <? bp) && (bp <? h_ptr h) then ret (inr p)
    else if (h_ptr h <=? p) && ((p <? bp) || (bp <? h_ptr h)) then ret (inr p)
    else ret (inl (h_ptr h))) (u_freep s).

Definition free (ap : Z) : M heap unit :=
  let bp := hplus ap (-1) in
  let! p := free_search bp in
  let! hp := hdr p in
  let! hb := hdr bp in
  (if hplus bp (h_size hb) =? h_ptr hp then
     let! hn := hdr (h_ptr hp) in
     set_size bp (u32 (h_size hb + h_size hn)) ;;
     set_ptr bp (h_ptr hn)
   else set_ptr bp (h_ptr hp)) ;;
  let! hp := hdr p in
  let! hb := hdr bp in
  (if hplus p (h_size hp) =? bp then
     set_size p (u32 (h_size hp + h_size hb)) ;;
     set_ptr p (h_ptr hb)
   else set_ptr p bp) ;;
  set_freep p.

Definition morecore (nu : Z) : M heap Z :=
  let nu := if nu <? 4096 then 4096 else nu in
  let! p := sbrk (i32 (nu * sizeof_Header)) in
  if p =? -1 then ret 0
  else
    set_size p nu ;;
    free (hplus p 1) ;;
    gets u_freep.

(** What the search of [malloc] does at [p], whose predecessor is [prevp]. *)
Definition malloc_take (nunits prevp p : Z) (h : header) : M heap Z :=
  let! p :=
    (if h_size h =? nunits then
       set_ptr prevp (h_ptr h) ;;
       ret p
     else
       set_size p (u32 (h_size h - nunits)) ;;
       let p := hplus p (u32 (h_size h - nunits)) in
       set_size p nunits ;;
       ret p) in
  set_freep prevp ;;
  ret (hplus p 1).

Definition malloc_search (nunits prevp : Z) : M heap Z :=
  let! h := hdr prevp in
  let! s := gets id in
  loop (4 + 2 * size (u_hdr s)) (λ '(prevp, p),
    let! h := hdr p in
    if nunits <=? h_size h then
      let! r := malloc_take nunits prevp p h in
      ret (inr r)
    else
      let! freep := gets u_freep in
      let! o :=
        (if p =? freep then
           let! p := morecore nunits in
           ret (if p =? 0 then None else Some p)
         else ret (Some p)) in
      match o with
      | None => ret (inr 0)
      | Some p =>
          let! h := hdr p in
          ret (inl (p, h_ptr h))
      end) (prevp, h_ptr h).

Definition malloc (nbytes : Z) : M heap Z :=
  let nunits := u32 (nbytes + sizeof_Header - 1) / sizeof_Header + 1 in
  let! freep := gets u_freep in
  let! prevp :=
    (if freep =? 0 then
       set_ptr base base ;;
       set_freep base ;;
       set_size base 0 ;;
       ret base
     else ret freep) in
  malloc_search nunits prevp.
End umalloc.
