(* ===== verification/UmallocThm.v ===== *)
(** * UmallocThm: malloc and free hand out and take back disjoint memory

    The free list represents a set of free bytes.  [free] adds a block to it,
    [malloc] removes the block it returns, and the ring stays sorted. *)

From stdpp Require Import base numbers gmap strings option list.
From S2P Require Import Prelude Umalloc.
Local Open Scope kernel_scope.
Local Open Scope Z_scope.

(** A free block: the address of its header and its size in units. *)
Definition block : Type := Z * Z.

(** ** Linked headers *)

Definition hd_addr (l : list block) (f : Z) : Z := match l with [] => f | b :: _ => fst b end.

(** The headers of [l] are linked in order, the last one to [f]. *)
Fixpoint chained (h : gmap Z header) (l : list block) (f : Z) : Prop :=
  match l with
  | [] => True
  | b :: l' => h !! fst b = Some (mk_header (hd_addr l' f) (snd b)) ∧ chained h l' f
  end.
Definition ring (h : gmap Z header) (T : list block) : Prop := chained h T (hd_addr T 0).

Lemma chained_app h l1 l2 f :
  chained h (l1 ++ l2) f ↔ chained h l1 (hd_addr l2 f) ∧ chained h l2 f.
Proof.
  induction l1 as [|b l1 IH]; simpl; [naive_solver|]. rewrite IH.
  assert (E : hd_addr (l1 ++ l2) f = hd_addr l1 (hd_addr l2 f)) by by destruct l1.
  rewrite E. naive_solver.
Qed.

Lemma chained_update h l f x v :
  x ∉ fst <$> l → chained (<[x := v]> h) l f ↔ chained h l f.
Proof.
  induction l as [|b l IH]; simpl; [done|]. intros [Hx Hl]%not_elem_of_cons.
  rewrite lookup_insert_ne by done. by rewrite IH.
Qed.

Lemma ring_rotate h l1 l2 : ring h (l1 ++ l2) → ring h (l2 ++ l1).
Proof.
  unfold ring. destruct l2 as [|c l2]; [by rewrite app_nil_r|].
  destruct l1 as [|b l1]; [by rewrite app_nil_r|].
  rewrite !chained_app. simpl. naive_solver.
Qed.

(** ** Blocks in address order *)

Section blocks.
Context (base : Z).

(** The end of a block; the static header counts as one byte. *)
Definition bend (b : block) : Z := Z.max (fst b + 1) (fst b + 8 * snd b).
Fixpoint blocks_from (lo : Z) (l : list block) : Prop :=
  match l with
  | [] => True
  | b :: l' => lo ≤ fst b ∧ blocks_from (bend b) l'
  end.

Lemma blocks_from_mono lo lo' l : lo' ≤ lo → blocks_from lo l → blocks_from lo' l.
Proof. destruct l; simpl; intuition lia. Qed.

Lemma blocks_from_mid lo B M M' :
  blocks_from lo (B ++ M) → (∀ lo', blocks_from lo' M → blocks_from lo' M') →
  blocks_from lo (B ++ M').
Proof. intros H HM. revert lo H. induction B as [|b B IH]; intros lo; simpl; naive_solver. Qed.

Lemma blocks_from_all lo l b : blocks_from lo l → b ∈ l → lo ≤ fst b.
Proof.
  revert lo. induction l as [|c l IH]; intros lo H Hb; [by apply not_elem_of_nil in Hb|].
  destruct H as [Hlo H]. apply elem_of_cons in Hb as [->|Hb]; [done|].
  specialize (IH _ H Hb). unfold bend in IH. lia.
Qed.

(** Every block before one in the list ends below it. *)
Lemma blocks_from_before lo B p A b :
  blocks_from lo (B ++ p :: A) → b ∈ B → bend b ≤ fst p.
Proof.
  revert lo. induction B as [|c B IH]; intros lo H Hb; [by apply not_elem_of_nil in Hb|].
  destruct H as [Hlo H]. apply elem_of_cons in Hb as [->|Hb]; [|by eapply IH].
  eapply blocks_from_all; [exact H|]. apply elem_of_app. right. by left.
Qed.
Lemma blocks_from_after lo B p A : blocks_from lo (B ++ p :: A) → blocks_from (bend p) A.
Proof. revert lo. induction B as [|c B IH]; intros lo; simpl; [naive_solver|]. intros [_ H]. eauto. Qed.

(** The ring [T] is a rotation of a sorted list that starts with the static header. *)
Definition sorted_rot (T : list block) : Prop :=
  ∃ A B, T = A ++ B ∧ blocks_from base (B ++ A) ∧ head (B ++ A) = Some (base, 0).

Lemma sorted_rot_rotate l1 l2 : sorted_rot (l1 ++ l2) → sorted_rot (l2 ++ l1).
Proof.
  intros (A & B & E & Hs & Hh).
  apply app_eq_inv in E as [(k & E1 & E2)|(k & E1 & E2)]; subst.
  - exists (l2 ++ A), k. by rewrite <-!app_assoc in *.
  - exists k, (B ++ l1). by rewrite <-!app_assoc in *.
Qed.

(** The sorted list, seen from the ring's first block. *)
Lemma sorted_rot_head p R :
  sorted_rot (p :: R) →
  ∃ A B, R = A ++ B ∧ blocks_from base (B ++ p :: A) ∧ head (B ++ p :: A) = Some (base, 0).
Proof.
  intros (A & B & E & Hs & Hh). destruct A as [|a A].
  - simpl in E. subst B. rewrite app_nil_r in *. exists R, []. by rewrite app_nil_r.
  - injection E as -> ->. by exists A, B.
Qed.

Lemma sorted_rot_intro p A B :
  blocks_from base (B ++ p :: A) → head (B ++ p :: A) = Some (base, 0) → sorted_rot (p :: A ++ B).
Proof. intros Hs Hh. by exists (p :: A), B. Qed.

(** The static header is in the ring, and no block lies below it. *)
Lemma sorted_rot_base T : sorted_rot T → (base, 0) ∈ T ∧ ∀ b, b ∈ T → base ≤ fst b.
Proof.
  intros (A & B & -> & Hs & Hh). split.
  - assert (Hin : (base, 0) ∈ B ++ A).
    { destruct (B ++ A) as [|b l]; [done|]. injection Hh as ->. by left. }
    rewrite elem_of_app in *. naive_solver.
  - intros b Hb. eapply blocks_from_all; [exact Hs|]. rewrite elem_of_app in *. naive_solver.
Qed.

(** Addresses are distinct. *)
Lemma blocks_from_NoDup lo l : blocks_from lo l → NoDup (fst <$> l).
Proof.
  revert lo. induction l as [|b l IH]; intros lo; [constructor|]. intros [_ H]. simpl.
  constructor; [|by eapply IH]. intros (c & E & Hc)%list_elem_of_fmap.
  pose proof (blocks_from_all _ _ _ H Hc) as Hle. unfold bend in Hle. lia.
Qed.
Lemma sorted_rot_NoDup T : sorted_rot T → NoDup (fst <$> T).
Proof.
  intros (A & B & -> & Hs & _). rewrite (Permutation_app_comm A B).
  by eapply blocks_from_NoDup.
Qed.

(** The block that follows in the ring: the next one up, or the static header after
    the topmost block. *)
Lemma sorted_rot_next x R :
  sorted_rot (x :: R) →
  let y := hd_addr R (fst x) in
  (fst x < y ∧ ∀ b, b ∈ x :: R → fst b ≤ fst x ∨ y ≤ fst b) ∨
  (y = base ∧ ∀ b, b ∈ x :: R → fst b ≤ fst x).
Proof.
  intros (A & B & -> & Hs & Hh)%sorted_rot_head.
  assert (HB : ∀ b, b ∈ B → fst b ≤ fst x).
  { intros b Hb. pose proof (blocks_from_before _ _ _ _ _ Hs Hb). unfold bend in *. lia. }
  pose proof (blocks_from_after _ _ _ _ Hs) as HA. destruct A as [|y A]; simpl.
  - right. split.
    + destruct B as [|c B]; injection Hh as ->; done.
    + intros b [->|Hb]%elem_of_cons; [lia|auto].
  - left. simpl in HA. destruct HA as [Hy HA]. unfold bend at 1 in Hy. split; [lia|].
    intros b [->|[->|Hb]%elem_of_cons]%elem_of_cons; [lia|lia|].
    apply elem_of_app in Hb as [Hb|Hb]; [|auto]. right.
    pose proof (blocks_from_all _ _ _ HA Hb). unfold bend in *. lia.
Qed.

(** A block other than the static header can be replaced by what fits in its place. *)
Lemma sorted_rot_replace y M R :
  sorted_rot (y :: R) → y ≠ (base, 0) →
  (∀ lo A, blocks_from lo (y :: A) → blocks_from lo (M ++ A)) → sorted_rot (M ++ R).
Proof.
  intros (A & B & -> & Hs & Hh)%sorted_rot_head Hy HM. exists (M ++ A), B.
  split; [by rewrite app_assoc|]. split.
  - eapply blocks_from_mid; [exact Hs|]. intros lo. apply HM.
  - destruct B as [|b B]; [|done]. simpl in Hh. congruence.
Qed.

(** The blocks below [bp], the last of them [p], and the blocks above it. *)
Lemma blocks_split lo l bp :
  blocks_from lo l → (∃ b, head l = Some b ∧ fst b < bp) →
  ∃ B p A, l = B ++ p :: A ∧ fst p < bp ∧ ∀ b, b ∈ A → bp ≤ fst b.
Proof.
  revert lo. induction l as [|x l IH]; intros lo Hs (b & Hb & Hlt); [done|]. injection Hb as ->.
  destruct l as [|y l]; [exists [], b, []; split_and!; [done|done|]; by intros ? ?%not_elem_of_nil|].
  destruct (Z.lt_ge_cases (fst y) bp) as [Hy|Hy].
  - destruct Hs as [_ Hs]. destruct (IH _ Hs) as (B & p & A & E & Hp & HA); [by exists y|].
    exists (b :: B), p, A. by rewrite E.
  - exists [], b, (y :: l). split_and!; [done|done|]. destruct Hs as (_ & _ & Hs).
    intros c [->|Hc]%elem_of_cons; [done|]. pose proof (blocks_from_all _ _ _ Hs Hc).
    unfold bend in *. lia.
Qed.

(** Above the static header, every address has a predecessor in the ring. *)
Lemma ring_split T bp :
  sorted_rot T → base < bp → ∃ T1 p T2, T = T1 ++ p :: T2 ∧ fst p < bp ∧
    ∃ A B, T2 ++ T1 = A ++ B ∧ blocks_from base (B ++ p :: A) ∧
      head (B ++ p :: A) = Some (base, 0) ∧ ∀ b, b ∈ A → bp ≤ fst b.
Proof.
  intros (A & B & -> & Hs & Hh) Hb.
  destruct (blocks_split _ _ bp Hs) as (B' & p & A' & E & Hp & HA); [by exists (base, 0)|].
  rewrite E in Hs, Hh. apply app_eq_inv in E as [(k & -> & E)|(k & -> & E)].
  - destruct k as [|c k]; simpl in E.
    + subst A. exists [], p, (A' ++ B'). rewrite app_nil_r. split_and!; [done|done|].
      by exists A', B'; rewrite app_nil_r.
    + injection E as <- ->. exists (A ++ B'), p, k. rewrite <-app_assoc. split_and!; [done|done|].
      exists (k ++ A), B'. by rewrite <-app_assoc.
  - subst A. exists k, p, (A' ++ B). rewrite <-app_assoc. split_and!; [done|done|].
    exists A', (B ++ k). rewrite <-!app_assoc. by rewrite <-app_assoc in Hs, Hh.
Qed.
End blocks.

(** ** The allocator's invariant *)

(** Byte [a] is free. *)
Definition in_units (T : list block) (a : Z) : Prop :=
  ∃ b, b ∈ T ∧ fst b ≤ a < fst b + 8 * snd b.

(** No free block starts where another one ends: neighbours are one block. *)
Definition joined (T : list block) : Prop :=
  ∀ x y, x ∈ T → y ∈ T → 1 ≤ snd x → fst x + 8 * snd x ≠ fst y.

Lemma joined_sub T T' : joined T → (∀ b, b ∈ T' → b ∈ T) → joined T'.
Proof. intros HT Hsub x y Hx Hy. apply HT; auto. Qed.

Section alloc.
Context (base : Z).

(** The free list is the ring [T], starting at [freep]. *)
Record heap_inv (s : heap) (T : list block) : Prop := {
  hi_ring : ring (u_hdr s) T;
  hi_freep : u_freep s = hd_addr T 0;
  hi_sorted : sorted_rot base T;
  hi_size b : b ∈ T → b = (base, 0) ∨ 1 ≤ snd b;
  hi_brk b : b ∈ T → fst b + 8 * snd b ≤ u_brk s;
  hi_base : 0 < base < u_brk s;
  hi_top : u_brk s ≤ 2 ^ 31;
  hi_joined : joined T;
}.

Lemma heap_inv_length s T : heap_inv s T → (length T ≤ size (u_hdr s))%nat.
Proof.
  intros Hi. pose proof (sorted_rot_NoDup _ _ (hi_sorted _ _ Hi)) as Hnd.
  assert (El : length T = size (list_to_set (fst <$> T) : gset Z)).
  { rewrite size_list_to_set by done. by rewrite length_fmap. }
  rewrite El, <-(fin_map_dom.size_dom (D:=gset Z)). apply subseteq_size. intros x Hx%elem_of_list_to_set.
  apply list_elem_of_fmap in Hx as (b & -> & Hb). apply elem_of_dom.
  pose proof (hi_ring _ _ Hi) as Hr. unfold ring in Hr. revert Hr. generalize (hd_addr T 0).
  clear -Hb. induction T as [|c T IH]; [by apply not_elem_of_nil in Hb|]. intros f [H1 H2].
  apply elem_of_cons in Hb as [->|Hb]; [eauto|by eapply IH].
Qed.

Lemma hdr_eq s p h : u_hdr s !! p = Some h → hdr p s = Ok h s.
Proof. unfold hdr. by intros ->. Qed.

(** ** The search of free *)

(** [p] is the last free block that starts below [bp]. *)
Definition pred_of (T : list block) (bp : Z) (p : block) : Prop :=
  fst p < bp ∧ ∀ b, b ∈ T → fst b < bp → fst b ≤ fst p.

(** The search passes over every block but that one. *)
Lemma free_passes bp x p R :
  sorted_rot base (x :: R) → base < bp → p ∈ x :: R → fst x ≠ fst p →
  (fst x < bp → fst x < fst p) → fst p < bp →
  let y := hd_addr R (fst x) in
  (fst x <? bp) && (bp <? y) = false ∧
  (y <=? fst x) && ((fst x <? bp) || (bp <? y)) = false.
Proof.
  intros Hs Hb Hpin Hxp Hxb Hp y. pose proof (sorted_rot_next base x R Hs) as Hn. fold y in Hn.
  destruct (Z.ltb_spec (fst x) bp) as [Hlt|Hge]; simpl.
  - specialize (Hxb Hlt). destruct Hn as [[Hxy Hall]|[E Hall]].
    + destruct (Hall p Hpin); [lia|].
      destruct (Z.ltb_spec bp y), (Z.leb_spec y (fst x)); try done; exfalso; lia.
    + specialize (Hall p Hpin). lia.
  - split; [done|]. destruct Hn as [[Hxy _]|[E _]].
    + by destruct (Z.leb_spec y (fst x)); [lia|].
    + rewrite E. destruct (Z.ltb_spec bp base); [lia|]. by rewrite andb_false_r.
Qed.

Lemma free_walk fuel bp s T1 p T2 :
  ring (u_hdr s) (T1 ++ p :: T2) → sorted_rot base (T1 ++ p :: T2) → base < bp →
  pred_of (T1 ++ p :: T2) bp p → (∀ b, b ∈ T1 ++ p :: T2 → fst b ≠ bp) →
  (length T1 < fuel)%nat →
  loop fuel (λ p,
    let! h := hdr p in
    if (p <? bp) && (bp <? h_ptr h) then ret (inr p)
    else if (h_ptr h <=? p) && ((p <? bp) || (bp <? h_ptr h)) then ret (inr p)
    else ret (inl (h_ptr h))) (hd_addr (T1 ++ p :: T2) 0) s = Ok (fst p) s.
Proof.
  revert T2 fuel. induction T1 as [|x T1 IH]; intros T2 fuel Hr Hs Hb [Hp Hmax] Hne Hf;
    (destruct fuel as [|fuel]; [simpl in Hf; lia|]); cbn [loop app].
  - pose proof (sorted_rot_next _ _ _ Hs) as Hn. simpl in Hr. destruct Hr as [Hr _]. simpl hd_addr at 1.
    simpl in Hr. rewrite (bind_Ok _ _ _ (inr (fst p)) s); [done|].
    erewrite bind_Ok by by apply hdr_eq. cbv beta. cbn [h_ptr hd_addr]. rewrite (proj2 (Z.ltb_lt _ _) Hp). simpl.
    destruct Hn as [[Hlt Hall]|[E Hall]].
    + destruct (Z.ltb_spec bp (hd_addr T2 (fst p))) as [|Hge]; [done|].
      destruct T2 as [|c T2]; simpl in *; [lia|].
      pose proof (Hne c ltac:(right; by left)). pose proof (Hmax c ltac:(right; by left)). lia.
    + rewrite E. destruct (Z.ltb_spec bp base); [lia|]. 
      destruct (sorted_rot_base _ _ Hs) as [_ Hbase]. specialize (Hbase p ltac:(by left)).
      rewrite (proj2 (Z.leb_le base (fst p))) by done. done.
  - pose proof (sorted_rot_NoDup _ _ Hs) as Hnd.
    assert (Hpin : p ∈ x :: T1 ++ p :: T2) by (right; apply elem_of_app; right; by left).
    assert (Hxp : fst x ≠ fst p).
    { simpl in Hnd. apply NoDup_cons in Hnd as [Hx _]. intros E. apply Hx. rewrite E.
      apply list_elem_of_fmap. exists p. split; [done|]. apply elem_of_app. right. by left. }
    assert (Hxb : fst x < bp → fst x < fst p).
    { intros Hlt. pose proof (Hmax x ltac:(by left) Hlt). lia. }
    set (y := hd_addr (T1 ++ p :: T2) (fst x)) in *.
    pose proof (free_passes bp x p (T1 ++ p :: T2) Hs Hb Hpin Hxp Hxb Hp) as Hnostop.
    cbv zeta in Hnostop. fold y in Hnostop.
    assert (Hy : y = hd_addr (T1 ++ p :: T2) 0) by (unfold y; by destruct T1).
    rewrite (bind_Ok _ _ _ (inl y) s).
    2:{ simpl in Hr. destruct Hr as [Hr _]. simpl in Hr. erewrite bind_Ok by by apply hdr_eq.
        cbv beta. cbn [h_ptr]. change (hd_addr (x :: T1 ++ p :: T2) 0) with (fst x). fold y. destruct Hnostop as [-> ->]. done. }
    cbv beta iota. rewrite Hy. pose proof (IH (T2 ++ [x]) fuel) as IH'. 
    assert (Eapp : T1 ++ p :: T2 ++ [x] = (T1 ++ p :: T2) ++ [x]) by by rewrite <-app_assoc.
    rewrite Eapp in IH'.
    assert (Ehd : hd_addr ((T1 ++ p :: T2) ++ [x]) 0 = hd_addr (T1 ++ p :: T2) 0) by by destruct T1.
    rewrite Ehd in IH'.
    assert (Hin : ∀ b, b ∈ (T1 ++ p :: T2) ++ [x] → b ∈ x :: T1 ++ p :: T2).
    { intros b [Hb'|Hb']%elem_of_app; [by right|]. apply list_elem_of_singleton in Hb' as ->. by left. }
    apply IH'; [by apply (ring_rotate _ [x])|by apply (sorted_rot_rotate _ [x])|done| | |].
    + split; [done|]. intros b Hb'. by apply Hmax, Hin.
    + intros b Hb'. by apply Hne, Hin.
    + simpl in Hf. lia.
Qed.

(** ** Joining a block with its neighbours *)

Definition join_up (bp n : Z) (A : list block) : block * list block :=
  match A with
  | q :: A' => if bp + 8 * n =? fst q then ((bp, n + snd q), A') else ((bp, n), A)
  | [] => ((bp, n), A)
  end.
Definition join_down (p m : block) : list block :=
  if fst p + 8 * snd p =? fst m then [(fst p, snd p + snd m)] else [p; m].

Definition upd (s : heap) (x : Z) (h : header) : heap :=
  mk_heap (u_freep s) (<[x := h]> (u_hdr s)) (u_brk s).

Lemma set_size_ptr s x v w : (set_size x v ;; set_ptr x w) s = Ok tt (upd s x (mk_header w v)).
Proof.
  unfold set_size, set_ptr, set_hdr, bind, gets, upd. simpl. rewrite lookup_insert_eq. simpl.
  by rewrite insert_insert_eq.
Qed.
Lemma set_ptr_eq s x w h :
  u_hdr s !! x = Some h → set_ptr x w s = Ok tt (upd s x (mk_header w (h_size h))).
Proof. unfold set_ptr, set_hdr, bind, gets, upd. simpl. by intros ->. Qed.

Lemma join_up_run s p bp hb A B :
  ring (u_hdr s) (p :: A ++ B) → u_hdr s !! bp = Some hb → base < bp →
  0 ≤ h_size hb → (A = [] → head (B ++ [p]) = Some (base, 0)) →
  (∀ q, q ∈ A → 0 ≤ snd q ∧ h_size hb + snd q < 2 ^ 32) →
  let nxt := hd_addr (A ++ B) (fst p) in
  let '(m, A') := join_up bp (h_size hb) A in
  (if hplus bp (h_size hb) =? nxt then
     let! hn := hdr nxt in
     set_size bp (u32 (h_size hb + h_size hn)) ;;
     set_ptr bp (h_ptr hn)
   else set_ptr bp nxt) s
  = Ok tt (upd s bp (mk_header (hd_addr (A' ++ B) (fst p)) (snd m))).
Proof.
  intros Hr Hb Hlt Hn HA Hq nxt. unfold hplus, sizeof_Header, join_up. destruct A as [|q A].
  - rewrite (proj2 (Z.eqb_neq _ _)) by
      (subst nxt; destruct B as [|b B]; specialize (HA eq_refl); injection HA as ->; simpl; lia).
    by apply set_ptr_eq.
  - change nxt with (fst q). destruct (Z.eqb_spec (bp + 8 * h_size hb) (fst q)) as [E|E].
    + destruct Hr as (_ & Hr & _). cbn [app chained] in Hr.
      erewrite bind_Ok by by apply hdr_eq. cbv beta. cbn [h_size h_ptr].
      destruct (Hq q) as [H1 H2]; [by left|]. rewrite u32_small by lia. apply set_size_ptr.
    + by apply set_ptr_eq.
Qed.

Lemma join_down_run s p bp hb hp B :
  u_hdr s !! fst p = Some hp → h_size hp = snd p → u_hdr s !! bp = Some hb →
  0 ≤ snd p → 0 ≤ h_size hb → snd p + h_size hb < 2 ^ 32 → fst p ≠ bp →
  h_ptr hb = hd_addr B (fst p) → bp ∉ fst <$> B → fst p ∉ fst <$> B →
  chained (u_hdr s) B (fst p) →
  ∃ h', (if hplus (fst p) (h_size hp) =? bp then
     set_size (fst p) (u32 (h_size hp + h_size hb)) ;;
     set_ptr (fst p) (h_ptr hb)
   else set_ptr (fst p) bp) s = Ok tt (upd s (fst p) h') ∧
  ring (<[fst p := h']> (u_hdr s)) (join_down p (bp, h_size hb) ++ B).
Proof.
  intros Hp Es Hb Hp0 Hb0 Hsum Hne Ep HbB HpB Hc. rewrite Es. unfold hplus, sizeof_Header, join_down.
  cbn [fst snd]. destruct (Z.eqb_spec (fst p + 8 * snd p) bp) as [E|E].
  - eexists. split; [rewrite u32_small by lia; apply set_size_ptr|]. unfold ring. simpl.
    rewrite lookup_insert_eq, Ep. split; [done|]. by apply chained_update.
  - eexists. split; [by apply set_ptr_eq|]. unfold ring. simpl.
    rewrite lookup_insert_eq, Es, lookup_insert_ne by done. rewrite Hb.
    split; [done|]. split; [by destruct hb; simpl in *; rewrite Ep|]. by apply chained_update.
Qed.

Definition sized (T : list block) : Prop := ∀ b, b ∈ T → b = (base, 0) ∨ 1 ≤ snd b.
Definition ends_by (brk : Z) (T : list block) : Prop := ∀ b, b ∈ T → fst b + 8 * snd b ≤ brk.

Lemma in_units_nil a : in_units [] a ↔ False.
Proof. split; [|done]. by intros (b & ?%not_elem_of_nil & _). Qed.
Lemma in_units_cons b T a : in_units (b :: T) a ↔ fst b ≤ a < fst b + 8 * snd b ∨ in_units T a.
Proof.
  unfold in_units. setoid_rewrite elem_of_cons. split.
  - intros (c & [->|Hc] & H); eauto.
  - intros [H|(c & Hc & H)]; eauto.
Qed.
Lemma in_units_app T1 T2 a : in_units (T1 ++ T2) a ↔ in_units T1 a ∨ in_units T2 a.
Proof.
  unfold in_units. setoid_rewrite elem_of_app. split.
  - intros (c & [Hc|Hc] & H); eauto.
  - intros [(c & Hc & H)|(c & Hc & H)]; eauto.
Qed.

Lemma join_up_ok brk bp n A :
  1 ≤ n → base < bp → bp + 8 * n ≤ brk → blocks_from (bp + 8 * n) A → sized A → ends_by brk A →
  let '(m, A') := join_up bp n A in
  fst m = bp ∧ n ≤ snd m ∧ fst m + 8 * snd m ≤ brk ∧ blocks_from (bend m) A' ∧
  (∃ l, A = l ++ A') ∧ ∀ a, in_units (m :: A') a ↔ bp ≤ a < bp + 8 * n ∨ in_units A a.
Proof.
  intros Hn Hlt Hend Hs Hz He. unfold join_up, bend. destruct A as [|q A]; simpl.
  - split_and!; try done; try lia; [by exists []|]. intros a. by rewrite in_units_cons.
  - destruct Hs as [Hq Hs].
    assert (1 ≤ snd q). { destruct (Hz q) as [->|]; [by left|simpl in *; lia|done]. }
    pose proof (He q ltac:(by left)). unfold bend in Hs.
    destruct (Z.eqb_spec (bp + 8 * n) (fst q)) as [E|E]; simpl.
    + split_and!; try done; try lia; [|by exists [q]|].
      * eapply blocks_from_mono; [|exact Hs]. lia.
      * intros a. rewrite !in_units_cons. simpl. rewrite <-E. intuition lia.
    + split_and!; try done; try lia; [by exists []|].
      intros a. by rewrite !in_units_cons.
Qed.

Lemma join_down_ok brk lo p m A :
  p = (base, 0) ∨ 1 ≤ snd p → base < fst m → lo ≤ fst p → bend p ≤ fst m → 1 ≤ snd m →
  fst m + 8 * snd m ≤ brk → fst p + 8 * snd p ≤ brk → blocks_from (bend m) A →
  let J := join_down p m in
  blocks_from lo (J ++ A) ∧ sized J ∧ ends_by brk J ∧ (length J ≤ 2)%nat ∧
  hd_addr J 0 = fst p ∧ (p = (base, 0) → head J = Some p) ∧
  (∃ b, b ∈ J ∧ snd m ≤ snd b) ∧ ∀ a, in_units J a ↔ in_units [p; m] a.
Proof.
  intros Hp Hm Hlo Hpm Hm1 Hmb Hpb Hs. unfold join_down, sized, ends_by. unfold bend in *.
  destruct (Z.eqb_spec (fst p + 8 * snd p) (fst m)) as [E|E].
  - assert (1 ≤ snd p) by (destruct Hp as [->|]; simpl in *; [lia|done]).
    split_and!; try done.
    + simpl. split; [done|]. eapply blocks_from_mono; [|exact Hs]. unfold bend. simpl. lia.
    + intros b ->%list_elem_of_singleton. right. simpl. lia.
    + intros b ->%list_elem_of_singleton. simpl. lia.
    + simpl. lia.
    + intros ->. simpl in *. lia.
    + eexists. split; [by left|]. simpl. lia.
    + intros a. rewrite !in_units_cons, in_units_nil. simpl. rewrite <-E. intuition lia.
  - split_and!; try done.
    + intros b [->| ->%list_elem_of_singleton]%elem_of_cons; auto.
    + intros b [->| ->%list_elem_of_singleton]%elem_of_cons; auto.
    + exists m. split; [right; by left|done].
Qed.

(** What [free] does to the list: [p] is the predecessor of the block. *)
Lemma join_ring brk p A B bp n :
  blocks_from base (B ++ p :: A) → head (B ++ p :: A) = Some (base, 0) →
  fst p < bp → (∀ b, b ∈ A → bp ≤ fst b) → 1 ≤ n → bp + 8 * n ≤ brk →
  sized (p :: A ++ B) → ends_by brk (p :: A ++ B) →
  (∀ b, b ∈ p :: A ++ B → bend b ≤ bp ∨ bp + 8 * n ≤ fst b) →
  let '(m, A') := join_up bp n A in
  let T' := join_down p m ++ A' ++ B in
  (fst m = bp ∧ n ≤ snd m ∧ fst m + 8 * snd m ≤ brk ∧ ∃ l, A = l ++ A') ∧
  sorted_rot base T' ∧ sized T' ∧ ends_by brk T' ∧ hd_addr T' 0 = fst p ∧
  (length T' ≤ S (length (p :: A ++ B)))%nat ∧ (∃ b, b ∈ T' ∧ n ≤ snd b) ∧
  ∀ a, in_units T' a ↔ in_units (p :: A ++ B) a ∨ bp ≤ a < bp + 8 * n.
Proof.
  intros Hs Hh Hp HA Hn Hend Hz He Hd.
  assert (Hbase : base ≤ fst p).
  { eapply blocks_from_all; [exact Hs|]. apply elem_of_app. right. by left. }
  pose proof (blocks_from_after _ _ _ _ Hs) as HsA.
  assert (HsA' : blocks_from (bp + 8 * n) A).
  { destruct A as [|q A]; [done|]. split; [|apply HsA]. pose proof (HA q ltac:(by left)).
    destruct (Hd q) as [Hq|Hq]; [right; by left|unfold bend in Hq; lia|done]. }
  assert (Hpd : bend p ≤ bp) by (destruct (Hd p) as [|Hq]; [by left|done|lia]).
  assert (Hin : ∀ b, b ∈ A → b ∈ p :: A ++ B) by (intros b Hb; right; apply elem_of_app; auto).
  assert (HinB : ∀ b, b ∈ B → b ∈ p :: A ++ B) by (intros b Hb; right; apply elem_of_app; auto).
  pose proof (join_up_ok brk bp n A Hn ltac:(lia) Hend HsA' ltac:(by intros b Hb; auto)
    ltac:(by intros b Hb; auto)) as Hup.
  destruct (join_up bp n A) as [m A']. destruct Hup as (Em & Hm & Hmb & Hsm & (l & El) & Hu).
  pose proof (λ lo Hlo, join_down_ok brk lo p m A' (Hz p ltac:(by left)) ltac:(lia) Hlo
    ltac:(lia) ltac:(lia) Hmb (He p ltac:(by left)) Hsm) as Hdn. cbv zeta in Hdn |- *.
  destruct (Hdn (fst p) ltac:(lia)) as (_ & HzJ & HeJ & HlJ & Ehd & HhJ & (b & Hb & Hbm) & HuJ).
  assert (HinA' : ∀ b, b ∈ A' → b ∈ A) by (intros c Hc; rewrite El; apply elem_of_app; auto).
  split_and!; try done; [by exists l| | | | | | |].
  - exists (join_down p m ++ A'), B. split_and!; [by rewrite app_assoc| |].
    + eapply blocks_from_mid; [exact Hs|]. intros lo [Hlo _]. by apply Hdn.
    + destruct B as [|c B]; [|done]. simpl in Hh |- *. injection Hh as Ep.
      specialize (HhJ Ep). destruct (join_down p m); [done|]. simpl in *. congruence.
  - intros c [Hc|[Hc|Hc]%elem_of_app]%elem_of_app; auto.
  - intros c [Hc|[Hc|Hc]%elem_of_app]%elem_of_app; auto.
  - destruct (join_down p m); [by apply not_elem_of_nil in Hb|done].
  - subst A. simpl. rewrite !length_app. lia.
  - exists b. split; [apply elem_of_app; auto|lia].
  - intros a. specialize (HuJ a). specialize (Hu a).
    rewrite !in_units_cons, !in_units_app, ?in_units_nil in *. rewrite HuJ. intuition.
Qed.

(** What is new in the list: a block [m] that ends where the block above starts, and a
    block that starts at [p] or at [bp].  Neither touches an old one. *)
Lemma join_up_joined p bp n A B :
  joined (p :: A ++ B) → sized A → base < bp → 1 ≤ n → fst p < bp →
  (∀ b, b ∈ B → bend b ≤ fst p) → blocks_from (bp + 8 * n) A →
  let '(m, A') := join_up bp n A in
  ∀ y, fst y ≤ bp ∨ y ∈ A' ++ B → bp + 8 * n ≤ fst m + 8 * snd m ∧ fst m + 8 * snd m ≠ fst y.
Proof.
  intros HT Hz Hbase Hn Hp HB HA. unfold join_up. destruct A as [|q A].
  - intros y [Hy|Hy]; simpl in *; [lia|]. specialize (HB y Hy). unfold bend in HB. lia.
  - simpl in HA. destruct HA as [Hq HA].
    assert (1 ≤ snd q) by (destruct (Hz q) as [->|]; [by left|simpl in *; lia|done]).
    destruct (Z.eqb_spec (bp + 8 * n) (fst q)) as [E|E]; intros y Hy; simpl in *; (split; [lia|]).
    + replace (bp + 8 * (n + snd q)) with (fst q + 8 * snd q) by lia.
      destruct Hy as [Hy|Hy]; [lia|]. apply HT; [right; by left| |done]. do 2 right. done.
    + destruct Hy as [Hy|[->|[Hy|Hy]%elem_of_app]%elem_of_cons]; [lia|done| |].
      * pose proof (blocks_from_all _ _ _ HA Hy). unfold bend in *. lia.
      * specialize (HB y Hy). unfold bend in HB. lia.
Qed.
Lemma join_joined p A B bp n :
  joined (p :: A ++ B) → sized A → base < bp → 1 ≤ n → fst p < bp → bend p ≤ bp →
  (∀ b, b ∈ B → bend b ≤ fst p) → blocks_from (bp + 8 * n) A →
  let '(m, A') := join_up bp n A in
  fst m = bp → (∃ l, A = l ++ A') → joined (join_down p m ++ A' ++ B).
Proof.
  intros HT Hz Hbase Hn Hp Hpb HB HA.
  pose proof (join_up_joined p bp n A B HT Hz Hbase Hn Hp HB HA) as Hup.
  destruct (join_up bp n A) as [m A']. intros Em (l & El).
  assert (Hold : ∀ b, b ∈ A' ++ B → b ∈ p :: A ++ B).
  { intros b. rewrite El, elem_of_cons, !elem_of_app. tauto. }
  assert (Hxb : ∀ x, x ∈ A' ++ B → 1 ≤ snd x → fst x + 8 * snd x ≠ bp).
  { intros x [Hx|Hx]%elem_of_app H1.
    - assert (x ∈ A) by (rewrite El; apply elem_of_app; auto).
      pose proof (blocks_from_all _ _ _ HA H). lia.
    - specialize (HB x Hx). unfold bend in HB. lia. }
  unfold join_down. destruct (Z.eqb_spec (fst p + 8 * snd p) (fst m)) as [E|E]; intros x y Hx Hy H1.
  - replace (fst p + 8 * (snd p + snd m)) with (fst m + 8 * snd m) in * by lia.
    apply elem_of_cons in Hx as [->|Hx], Hy as [->|Hy]; cbn [fst snd] in *.
    + destruct (Hup p ltac:(lia)). lia.
    + replace (fst p + 8 * (snd p + snd m)) with (fst m + 8 * snd m) by lia.
      destruct (Hup y ltac:(auto)). done.
    + apply (HT x p); [auto|by left|done].
    + apply (HT x y); auto.
  - cbn [app] in Hx, Hy.
    apply elem_of_cons in Hx as [->|[->|Hx]%elem_of_cons], Hy as [->|[->|Hy]%elem_of_cons];
      [lia|done|apply (HT p y); [by left|auto|done]| | |apply (Hup y); auto|
       apply (HT x p); [auto|by left|done]|rewrite Em; auto|apply (HT x y); auto].
    + apply (Hup p). lia.
    + lia.
Qed.

(** [bp] heads a block of [n] units that no free block overlaps. *)
Record blk_ok (s : heap) (T : list block) (bp n : Z) : Prop := {
  bo_hdr : ∃ h, u_hdr s !! bp = Some h ∧ h_size h = n;
  bo_size : 1 ≤ n;
  bo_base : base < bp;
  bo_brk : bp + 8 * n ≤ u_brk s;
  bo_disj b : b ∈ T → bend b ≤ bp ∨ bp + 8 * n ≤ fst b;
}.

Lemma blk_ok_fresh s T bp n : blk_ok s T bp n → bp ∉ fst <$> T.
Proof.
  intros Hb (b & -> & Hin)%list_elem_of_fmap. pose proof (bo_size _ _ _ _ Hb).
  destruct (bo_disj _ _ _ _ Hb _ Hin); unfold bend in *; lia.
Qed.

Lemma free_search_ok s T1 p T2 bp n :
  heap_inv s (T1 ++ p :: T2) → blk_ok s (T1 ++ p :: T2) bp n → fst p < bp →
  (∀ b, b ∈ T1 ++ p :: T2 → fst b < bp → fst b ≤ fst p) →
  free_search bp s = Ok (fst p) s.
Proof.
  intros Hi Hb Hp Hmax. pose proof (blk_ok_fresh _ _ _ _ Hb) as Hf.
  unfold free_search. erewrite bind_Ok by done. cbv beta. change (u_freep (id s)) with (u_freep s).
  rewrite (hi_freep _ _ Hi).
  apply free_walk; [apply Hi|apply Hi|apply Hb|done| |].
  - intros b Hin E. apply Hf. rewrite <-E. by apply list_elem_of_fmap_2.
  - pose proof (heap_inv_length _ _ Hi) as Hl. rewrite length_app in Hl. simpl in *. lia.
Qed.

(** The two updates of [free], after its search. *)
Lemma free_run s p A B bp hb :
  free_search bp s = Ok (fst p) s → ring (u_hdr s) (p :: A ++ B) →
  NoDup (fst <$> p :: A ++ B) → u_hdr s !! bp = Some hb → bp ∉ fst <$> p :: A ++ B →
  base < bp → 1 ≤ h_size hb → bp + 8 * h_size hb ≤ 2 ^ 31 →
  (A = [] → head (B ++ [p]) = Some (base, 0)) →
  (∀ q, q ∈ p :: A → 0 < fst q ∧ 0 ≤ snd q ∧ fst q + 8 * snd q ≤ 2 ^ 31) → 0 < base →
  let '(m, A') := join_up bp (h_size hb) A in
  fst m = bp → h_size hb ≤ snd m → fst m + 8 * snd m ≤ 2 ^ 31 → (∃ l, A = l ++ A') →
  ∃ h', free (bp + 8) s = Ok tt (mk_heap (fst p) h' (u_brk s)) ∧
    ring h' (join_down p m ++ A' ++ B) ∧
    ∀ x, x ≠ fst p → x ≠ bp → h' !! x = u_hdr s !! x.
Proof.
  intros Hfs Hr Hnd Hb Hfr Hlt Hn Hend HA Hq Hb0.
  pose proof (join_up_run s p bp hb A B Hr Hb Hlt ltac:(lia) HA) as Hup.
  destruct (join_up bp (h_size hb) A) as [m A']. intros Em Hm Hmb (l & El).
  pose proof (proj1 Hr) as Hp. cbn [hd_addr] in Hp.
  rewrite fmap_cons in Hnd, Hfr. apply NoDup_cons in Hnd as [HpR HndR].
  apply not_elem_of_cons in Hfr as [Hne HbR].
  destruct (Hq p ltac:(by left)) as (Hp1 & Hp2 & Hp3).
  assert (Hsub : ∀ x, x ∈ fst <$> A' ++ B → x ∈ fst <$> A ++ B).
  { intros x. rewrite El, !fmap_app, !elem_of_app. tauto. }
  set (s1 := upd s bp (mk_header (hd_addr (A' ++ B) (fst p)) (snd m))) in *.
  destruct (join_down_run s1 p bp (mk_header (hd_addr (A' ++ B) (fst p)) (snd m))
    (mk_header (hd_addr (A ++ B) (fst p)) (snd p)) (A' ++ B)) as (h' & Hrun & Hring);
    try done; try (by intros ?; eauto); cbn [h_size h_ptr]; try lia.
  { by unfold s1, upd; cbn [u_hdr]; rewrite lookup_insert_ne by done. }
  { unfold s1, upd; cbn [u_hdr]. by rewrite lookup_insert_eq. }
  { unfold s1, upd; cbn [u_hdr]. apply chained_update; [by intros ?; eauto|].
    destruct Hr as [_ Hr]. rewrite El, <-app_assoc in Hr. by apply chained_app in Hr as [_ ?]. }
  exists (<[fst p := h']> (u_hdr s1)). split_and!.
  - unfold free. replace (hplus (bp + 8) (-1)) with bp by (unfold hplus, sizeof_Header; lia).
    cbv zeta. rewrite (bind_Ok _ _ _ _ _ Hfs). cbv beta.
    erewrite bind_Ok by by apply hdr_eq. cbv beta. erewrite bind_Ok by by apply hdr_eq. cbv beta.
    cbn [h_ptr]. erewrite bind_Ok; [|apply Hup; intros q Hin].
    2:{ destruct (Hq q ltac:(by right)) as (? & ? & ?). lia. }
    fold s1. cbv beta.
    erewrite bind_Ok by (apply hdr_eq; by unfold s1, upd; cbn [u_hdr]; rewrite lookup_insert_ne).
    cbv beta. erewrite bind_Ok by (apply hdr_eq; unfold s1, upd; cbn [u_hdr]; by rewrite lookup_insert_eq).
    cbv beta. cbn [h_size h_ptr] in Hrun |- *. erewrite bind_Ok by exact Hrun. done.
  - cbn [h_size] in Hring. rewrite <-Em in Hring. by destruct m.
  - intros x H1 H2. unfold s1, upd. cbn [u_hdr]. by rewrite !lookup_insert_ne by done.
Qed.

(** The headers that stay as they are: those not in the free list. *)
Definition keeps (T : list block) (x : Z) (s s' : heap) : Prop :=
  ∀ y, y ∉ fst <$> T → y ≠ x → u_hdr s' !! y = u_hdr s !! y.

Lemma free_ok s T bp n :
  heap_inv s T → blk_ok s T bp n →
  ∃ s' T', free (bp + 8) s = Ok tt s' ∧ heap_inv s' T' ∧ u_brk s' = u_brk s ∧ keeps T bp s s' ∧
    (∀ a, in_units T' a ↔ in_units T a ∨ bp ≤ a < bp + 8 * n) ∧
    (length T' ≤ S (length T))%nat ∧ ∃ b, b ∈ T' ∧ n ≤ snd b.
Proof.
  intros Hi Hb. pose proof (blk_ok_fresh _ _ _ _ Hb) as Hfr.
  destruct (ring_split base T bp (hi_sorted _ _ Hi) (bo_base _ _ _ _ Hb))
    as (T1 & p & T2 & -> & Hp & A & B & E & Hs & Hh & HA).
  assert (Hperm : p :: A ++ B ≡ₚ T1 ++ p :: T2) by (rewrite <-E; solve_Permutation).
  assert (Hin : ∀ b, b ∈ p :: A ++ B → b ∈ T1 ++ p :: T2) by (intros b; by rewrite Hperm).
  destruct (bo_hdr _ _ _ _ Hb) as (hb & Ehb & En).
  pose proof (hi_top _ _ Hi) as Htop. pose proof (hi_base _ _ Hi) as Hbase.
  pose proof (bo_brk _ _ _ _ Hb) as Hbrk. pose proof (bo_size _ _ _ _ Hb) as Hn1.
  assert (HinB : ∀ b, b ∈ B → fst b ≤ fst p).
  { intros b Hin'. pose proof (blocks_from_before _ _ _ _ _ Hs Hin'). unfold bend in *. lia. }
  pose proof (free_search_ok s T1 p T2 bp n Hi Hb Hp) as Hfs.
  pose proof (free_run s p A B bp hb) as Hrun.
  pose proof (join_ring (u_brk s) p A B bp n Hs Hh Hp HA Hn1 Hbrk) as Hj. rewrite En in Hrun.
  assert (HpB : bend p ≤ bp) by (destruct (bo_disj _ _ _ _ Hb p); [apply Hin; by left|done|lia]).
  assert (HsA : blocks_from (bp + 8 * n) A).
  { pose proof (blocks_from_after _ _ _ _ Hs) as HsA. destruct A as [|q A]; [done|]. split; [|apply HsA].
    pose proof (HA q ltac:(by left)).
    destruct (bo_disj _ _ _ _ Hb q) as [Hq|Hq]; [apply Hin; right; by left|unfold bend in Hq; lia|done]. }
  pose proof (join_joined p A B bp n) as Hjj.
  destruct (join_up bp n A) as [m A'].
  destruct Hj as ((Em & Hm & Hmb & Hl) & Hsr & Hz & He & Ehd & Hlen & Hbig & Hu).
  { intros b Hb'. apply (hi_size _ _ Hi). auto. }
  { intros b Hb'. apply (hi_brk _ _ Hi). auto. }
  { intros b Hb'. apply (bo_disj _ _ _ _ Hb). auto. }
  destruct Hrun as (h' & Hrun & Hring & Hk); try done; try lia.
  { apply Hfs. intros b Hb' Hlt. rewrite <-Hperm in Hb'.
    apply elem_of_cons in Hb' as [->|[Hb'|Hb']%elem_of_app]; [done|specialize (HA b Hb'); lia|auto]. }
  { pose proof (ring_rotate _ T1 (p :: T2) (hi_ring _ _ Hi)) as Hrr. simpl in Hrr. by rewrite E in Hrr. }
  { rewrite Hperm. eapply sorted_rot_NoDup, Hi. }
  { by rewrite Hperm. }
  { apply Hb. }
  { intros ->. by destruct B. }
  { intros q Hq. assert (Hq' : q ∈ T1 ++ p :: T2).
    { apply Hin. apply elem_of_cons in Hq as [->|Hq]; [by left|right; apply elem_of_app; auto]. }
    destruct (sorted_rot_base base _ (hi_sorted _ _ Hi)) as [_ Hge]. specialize (Hge _ Hq').
    pose proof (hi_brk _ _ Hi _ Hq'). destruct (hi_size _ _ Hi _ Hq') as [->|]; simpl in *; lia. }
  assert (Hjd : joined (join_down p m ++ A' ++ B)).
  { apply Hjj; try done; [|intros b Hb'; apply (hi_size _ _ Hi), Hin; right; apply elem_of_app; auto|apply Hb|].
    - eapply joined_sub; [apply (hi_joined _ _ Hi)|exact Hin].
    - intros b Hb'. by apply (blocks_from_before _ _ _ _ _ Hs). }
  eexists _, _. split; [exact Hrun|]. split_and!; try done; try lia.
  - intros x Hx Hne. apply Hk; [|done]. intros ->. apply Hx. rewrite <-Hperm. by left.
  - intros a. rewrite Hu. unfold in_units. by setoid_rewrite Hperm.
  - by rewrite <-Hperm.
Qed.

Lemma heap_inv_addr s T b : heap_inv s T → b ∈ T → base ≤ fst b < u_brk s ∧ 0 ≤ snd b.
Proof.
  intros Hi Hb. destruct (sorted_rot_base base _ (hi_sorted _ _ Hi)) as [_ Hge].
  specialize (Hge _ Hb). pose proof (hi_brk _ _ Hi _ Hb). pose proof (hi_base _ _ Hi).
  destruct (hi_size _ _ Hi _ Hb) as [->|]; simpl in *; lia.
Qed.

Lemma heap_inv_bend s T b : heap_inv s T → b ∈ T → bend b ≤ u_brk s.
Proof.
  intros Hi Hb. pose proof (heap_inv_addr _ _ _ Hi Hb). pose proof (hi_brk _ _ Hi _ Hb).
  unfold bend. lia.
Qed.

Lemma heap_inv_freep s T : heap_inv s T → ∃ p R, T = p :: R ∧ u_freep s = fst p ∧ 0 < fst p.
Proof.
  intros Hi. destruct (sorted_rot_base base _ (hi_sorted _ _ Hi)) as [Hb _].
  destruct T as [|p R]; [by apply not_elem_of_nil in Hb|]. exists p, R. split_and!; [done|apply Hi|].
  pose proof (heap_inv_addr _ _ p Hi ltac:(by left)). pose proof (hi_base _ _ Hi). lia.
Qed.

(** Memory the kernel adds above the break becomes one more block. *)
Lemma heap_inv_grow s T n h :
  heap_inv s T → 1 ≤ n → u_brk s + 8 * n ≤ 2 ^ 31 → h_size h = n →
  let s' := mk_heap (u_freep s) (<[u_brk s := h]> (u_hdr s)) (u_brk s + 8 * n) in
  heap_inv s' T ∧ blk_ok s' T (u_brk s) n.
Proof.
  intros Hi Hn Htop Eh s'. pose proof (hi_base _ _ Hi) as Hb.
  assert (Hfr : u_brk s ∉ fst <$> T).
  { intros (b & E & Hin)%list_elem_of_fmap. pose proof (heap_inv_addr _ _ _ Hi Hin). lia. }
  split; constructor; cbn [s' u_freep u_hdr u_brk]; try apply Hi; try lia.
  - by apply chained_update, Hi.
  - intros b Hin. pose proof (hi_brk _ _ Hi _ Hin). lia.
  - exists h. by rewrite lookup_insert_eq.
  - intros b Hin. left. by eapply heap_inv_bend.
Qed.

(** The kernel keeps a process below [KERNBASE]. *)
Context (refuses : Z → Z → bool).
Hypothesis kernbase : ∀ b n, refuses b n = false → b + n ≤ 2 ^ 31.

Definition grown (T : list block) (s : heap) (n : Z) (s' : heap) (T' : list block) : Prop :=
  heap_inv s' T' ∧ u_brk s' = u_brk s + 8 * n ∧ keeps T (u_brk s) s s' ∧
  (∀ a, in_units T' a ↔ in_units T a ∨ u_brk s ≤ a < u_brk s + 8 * n) ∧
  (length T' ≤ S (length T))%nat ∧ ∃ b, b ∈ T' ∧ n ≤ snd b.

Lemma morecore_ok s T nu :
  heap_inv s T → 1 ≤ nu → 8 * nu < 2 ^ 31 →
  let n := Z.max nu 4096 in
  if refuses (u_brk s) (8 * n) then morecore refuses nu s = Ok 0 s
  else ∃ s' T', morecore refuses nu s = Ok (u_freep s') s' ∧ grown T s n s' T'.
Proof.
  intros Hi Hn Hlt n. unfold morecore.
  replace (if nu <? 4096 then 4096 else nu) with n by (unfold n; destruct (Z.ltb_spec nu 4096); lia).
  cbv zeta. unfold sizeof_Header. rewrite i32_small by lia. replace (n * 8) with (8 * n) by lia.
  unfold sbrk. destruct (refuses (u_brk s) (8 * n)) eqn:E.
  - rewrite (bind_Ok _ _ _ (-1) s); [done|]. erewrite bind_Ok by done. cbv beta.
    change (u_brk (id s)) with (u_brk s). by rewrite E.
  - pose proof (hi_base _ _ Hi) as Hb. pose proof (kernbase _ _ E) as Htop.
    set (h0 := mk_header (default 0 (h_ptr <$> u_hdr s !! u_brk s)) n).
    destruct (heap_inv_grow s T n h0 Hi ltac:(lia) ltac:(lia) eq_refl) as [Hi1 Hbo].
    destruct (free_ok _ _ _ _ Hi1 Hbo) as (s' & T' & Hf & Hi' & Ebrk & Hk & Hu & Hl & Hbig).
    exists s', T'. split.
    + rewrite (bind_Ok _ _ _ (u_brk s) (mk_heap (u_freep s) (u_hdr s) (u_brk s + 8 * n))).
      2:{ erewrite bind_Ok by done. cbv beta. change (u_brk (id s)) with (u_brk s). by rewrite E. }
      cbv beta. rewrite (proj2 (Z.eqb_neq _ _)) by lia. erewrite bind_Ok by done. cbv beta.
      unfold hplus, sizeof_Header. rewrite Z.mul_1_r. erewrite bind_Ok by exact Hf. done.
    + split_and!; try done. intros y Hy Hne. rewrite (Hk y Hy Hne). simpl.
      by rewrite lookup_insert_ne.
Qed.

(** ** Taking a block *)

(** The state with [freep] at [p]. *)
Definition at_ (s : heap) (p : Z) : heap := mk_heap p (u_hdr s) (u_brk s).

Lemma heap_inv_rotate s l1 l2 :
  heap_inv s (l1 ++ l2) → heap_inv (at_ s (hd_addr (l2 ++ l1) 0)) (l2 ++ l1).
Proof.
  intros Hi. constructor; cbn [at_ u_freep u_hdr u_brk]; try apply Hi; try done.
  - apply ring_rotate, Hi.
  - apply sorted_rot_rotate, Hi.
  - intros b Hb. apply (hi_size _ _ Hi). rewrite elem_of_app in *. tauto.
  - intros b Hb. apply (hi_brk _ _ Hi). rewrite elem_of_app in *. tauto.
  - eapply joined_sub; [apply (hi_joined _ _ Hi)|]. intros b. rewrite !elem_of_app. tauto.
Qed.

Lemma sorted_rot_disj y R b : sorted_rot base (y :: R) → b ∈ R → bend y ≤ fst b ∨ bend b ≤ fst y.
Proof.
  intros (A & B & -> & Hs & _)%sorted_rot_head [Hb|Hb]%elem_of_app.
  - left. eapply blocks_from_all; [|exact Hb]. by eapply blocks_from_after.
  - right. by eapply blocks_from_before.
Qed.

Lemma blk_ok_intro s T bp n h :
  u_hdr s !! bp = Some h → h_size h = n → 1 ≤ n → base < bp → bp + 8 * n ≤ u_brk s → sized T →
  (∀ a, bp ≤ a < bp + 8 * n → ¬ in_units T a) → blk_ok s T bp n.
Proof.
  intros Eh En Hn Hb Hbrk Hz Hd. constructor; try done; [by exists h|].
  intros b Hin. unfold bend. destruct (Hz b Hin) as [->|Hs]; [simpl; lia|].
  destruct (Z.le_gt_cases (fst b + 8 * snd b) bp) as [|H1]; [lia|].
  destruct (Z.le_gt_cases (bp + 8 * n) (fst b)) as [|H2]; [lia|].
  exfalso. apply (Hd (Z.max bp (fst b))); [lia|]. exists b. split; [done|lia].
Qed.

(** A block of [n] units at [bp] has left the free list. *)
Definition taken (T : list block) (s : heap) (bp n : Z) (s' : heap) (T' : list block) : Prop :=
  heap_inv s' T' ∧ u_brk s' = u_brk s ∧ blk_ok s' T' bp n ∧
  (∀ y, y ∉ fst <$> T → y ≠ bp → u_hdr s' !! y = u_hdr s !! y) ∧
  (∀ a, bp ≤ a < bp + 8 * n → in_units T a) ∧
  ∀ a, in_units T' a ↔ in_units T a ∧ ¬ bp ≤ a < bp + 8 * n.

Lemma unlink_ok s x y R :
  heap_inv (at_ s (fst x)) (x :: y :: R) → 1 ≤ snd y →
  let s' := mk_heap (fst x) (<[fst x := mk_header (hd_addr R (fst x)) (snd x)]> (u_hdr s)) (u_brk s) in
  taken (x :: y :: R) s (fst y) (snd y) s' (x :: R).
Proof.
  intros Hi Hn s'. pose proof (hi_sorted _ _ Hi) as Hs.
  pose proof (sorted_rot_rotate base [x] (y :: R) Hs) as Hs'. simpl in Hs'.
  pose proof (sorted_rot_NoDup base _ Hs) as Hnd. rewrite !fmap_cons in Hnd.
  apply NoDup_cons in Hnd as [Hx Hnd]. apply not_elem_of_cons in Hx as [Hxy HxR].
  apply NoDup_cons in Hnd as [HyR _].
  assert (Hdisj : ∀ a, fst y ≤ a < fst y + 8 * snd y → ¬ in_units (x :: R) a).
  { intros a Ha (b & Hb & Hab).
    destruct (sorted_rot_disj y (R ++ [x]) b Hs') as [H|H]; [|unfold bend in *; lia..].
    apply elem_of_app. apply elem_of_cons in Hb as [->|Hb]; [right; by left|by left]. }
  destruct (hi_ring _ _ Hi) as (Hrx & Hry & HrR). cbn [at_ u_hdr hd_addr] in *.
  assert (Hi' : heap_inv s' (x :: R)).
  { assert (Hin : ∀ b, b ∈ x :: R → b ∈ x :: y :: R) by (intros b; rewrite !elem_of_cons; tauto).
    constructor; cbn [s' u_freep u_hdr u_brk]; try apply Hi; try done.
    - split; [by rewrite lookup_insert_eq|]. by apply chained_update.
    - apply (sorted_rot_rotate base R [x]). eapply (sorted_rot_replace base y []); [done| |].
      + intros ->. simpl in *. lia.
      + intros lo A [H1 H2]. eapply blocks_from_mono; [|exact H2]. unfold bend. lia.
    - intros b Hb. by apply (hi_size _ _ Hi), Hin.
    - intros b Hb. apply (hi_brk _ _ Hi b), Hin, Hb.
    - by eapply joined_sub; [apply (hi_joined _ _ Hi)|]. }
  assert (Hyb : base < fst y).
  { destruct (sorted_rot_base base _ (hi_sorted _ _ Hi')) as [Hb _].
    assert (Hy0 : y ≠ (base, 0)) by (intros ->; simpl in *; lia).
    pose proof (heap_inv_addr _ _ y Hi ltac:(right; by left)).
    assert (fst y ≠ base); [|simpl in *; lia]. intros E.
    assert (Hc : fst y ∈ fst <$> x :: R). { apply list_elem_of_fmap. exists (base, 0). by split. }
    simpl in Hc. apply elem_of_cons in Hc as [?|?]; [congruence|done]. }
  split_and!; try done.
  - eapply blk_ok_intro; [cbn [s' u_hdr]; rewrite lookup_insert_ne; [exact Hry|done]|..]; try done.
    + apply (hi_brk _ _ Hi). right. by left.
    + intros b. apply (hi_size _ _ Hi').
  - intros z Hz Hne. cbn [s' u_hdr]. rewrite lookup_insert_ne; [done|]. intros <-. apply Hz. by left.
  - intros a Ha. rewrite !in_units_cons. tauto.
  - intros a. specialize (Hdisj a). rewrite !in_units_cons in *. tauto.
Qed.

Lemma shrink_ok s x y R n c :
  heap_inv (at_ s (fst x)) (x :: y :: R) → 1 ≤ n < snd y →
  let m := snd y - n in let bp := fst y + 8 * m in
  let s' := mk_heap (fst x) (<[bp := mk_header c n]>
    (<[fst y := mk_header (hd_addr R (fst x)) m]> (u_hdr s))) (u_brk s) in
  taken (x :: y :: R) s bp n s' (x :: (fst y, m) :: R).
Proof.
  intros Hi Hn m bp s'. pose proof (hi_sorted _ _ Hi) as Hs.
  pose proof (sorted_rot_rotate base [x] (y :: R) Hs) as Hs'. simpl in Hs'.
  pose proof (sorted_rot_NoDup base _ Hs) as Hnd. rewrite !fmap_cons in Hnd.
  apply NoDup_cons in Hnd as [Hx Hnd]. apply not_elem_of_cons in Hx as [Hxy HxR].
  apply NoDup_cons in Hnd as [HyR _].
  pose proof (heap_inv_addr _ _ y Hi ltac:(right; by left)) as [Hya _].
  pose proof (hi_brk _ _ Hi y ltac:(right; by left)) as Hyb. cbn [at_ u_brk] in *.
  assert (Hdisj : ∀ b, b ∈ x :: R → bend y ≤ fst b ∨ bend b ≤ fst y).
  { intros b Hb. apply (sorted_rot_disj y (R ++ [x]) b Hs'), elem_of_app.
    apply elem_of_cons in Hb as [->|Hb]; [right; by left|by left]. }
  assert (Hfr : bp ∉ fst <$> x :: R).
  { intros (b & E & Hb)%list_elem_of_fmap. destruct (Hdisj b Hb); unfold bend in *; lia. }
  rewrite fmap_cons in Hfr. apply not_elem_of_cons in Hfr as [Hbx HbR].
  destruct (hi_ring _ _ Hi) as (Hrx & Hry & HrR). cbn [at_ u_hdr hd_addr] in *.
  assert (Hby : bp ≠ fst y) by lia.
  assert (Hi' : heap_inv s' (x :: (fst y, m) :: R)).
  { constructor; cbn [s' u_freep u_hdr u_brk]; try apply Hi; try done.
    - split; [by rewrite !lookup_insert_ne|]. split.
      + rewrite lookup_insert_ne by done. by rewrite lookup_insert_eq.
      + apply chained_update; [done|]. by apply chained_update.
    - apply (sorted_rot_rotate base ((fst y, m) :: R) [x]).
      eapply (sorted_rot_replace base y [(fst y, m)]); [done| |].
      + intros ->. simpl in *. lia.
      + intros lo A [H1 H2]. split; [done|]. eapply blocks_from_mono; [|exact H2].
        unfold bend. simpl. lia.
    - intros b [->|[->|Hb]%elem_of_cons]%elem_of_cons; [apply (hi_size _ _ Hi); by left|right; simpl; lia|].
      apply (hi_size _ _ Hi). do 2 right. done.
    - intros b [->|[->|Hb]%elem_of_cons]%elem_of_cons; [apply (hi_brk _ _ Hi); by left|simpl; lia|].
      apply (hi_brk _ _ Hi). do 2 right. done.
    - assert (Hin : ∀ b, b ∈ x :: R → b ∈ x :: y :: R) by (intros b; rewrite !elem_of_cons; tauto).
      assert (Hc : ∀ b, b ∈ x :: (fst y, m) :: R → b = (fst y, m) ∨ b ∈ x :: R)
        by (intros b; rewrite !elem_of_cons; tauto).
      intros a b [->|Ha]%Hc [->|Hb]%Hc H1; cbn [fst snd] in *;
        [lia| |apply (hi_joined _ _ Hi a y)|apply (hi_joined _ _ Hi a b)]; auto.
      + destruct (Hdisj b Hb); unfold bend in *; lia.
      + right. by left. }
  assert (Hdu : ∀ a, bp ≤ a < bp + 8 * n → ¬ in_units (x :: R) a).
  { intros a Ha (b & Hb & Hab). destruct (Hdisj b Hb); unfold bend in *; lia. }
  split_and!; try done.
  - eapply blk_ok_intro; [cbn [s' u_hdr]; apply lookup_insert_eq|..]; try done; try lia.
    + cbn [s' u_brk]. lia.
    + intros b. apply (hi_size _ _ Hi').
    + intros a Ha. specialize (Hdu a Ha). rewrite !in_units_cons in *. simpl. intuition lia.
  - intros z Hz Hne. cbn [s' u_hdr]. rewrite !lookup_insert_ne; [done| |done].
    intros <-. apply Hz. right. by left.
  - intros a Ha. rewrite !in_units_cons. right. left. lia.
  - intros a. specialize (Hdu a). rewrite !in_units_cons in *. simpl. intuition lia.
Qed.

Lemma malloc_take_ok s x y R n p :
  heap_inv (at_ s (fst x)) (x :: y :: R) → 1 ≤ n ≤ snd y → p = hd_addr R (fst x) →
  ∃ bp s' T', malloc_take n (fst x) (fst y) (mk_header p (snd y)) s = Ok (bp + 8) s' ∧
    taken (x :: y :: R) s bp n s' T'.
Proof.
  intros Hi Hn ->. unfold malloc_take. cbn [h_size h_ptr].
  destruct (hi_ring _ _ Hi) as (Hrx & Hry & HrR). cbn [at_ u_hdr hd_addr] in *.
  destruct (Z.eqb_spec (snd y) n) as [<-|E].
  - exists (fst y). eexists _, _. split; [|apply (unlink_ok s x y R Hi); lia].
    erewrite bind_Ok.
    2:{ erewrite bind_Ok by by apply set_ptr_eq. reflexivity. }
    cbv beta. unfold hplus, sizeof_Header. rewrite Z.mul_1_r. reflexivity.
  - pose proof (heap_inv_addr _ _ y Hi ltac:(right; by left)) as [Hya _].
    pose proof (hi_brk _ _ Hi y ltac:(right; by left)) as Hyb.
    pose proof (hi_top _ _ Hi) as Htop. pose proof (hi_base _ _ Hi). cbn [at_ u_brk] in *.
    rewrite u32_small by lia.
    eexists (fst y + 8 * (snd y - n)), _, _. split; [|eapply (shrink_ok s x y R n _ Hi); lia].
    erewrite bind_Ok.
    2:{ unfold set_size, set_hdr at 1. erewrite bind_Ok.
        2:{ erewrite bind_Ok by reflexivity. cbv beta. rewrite Hry. reflexivity. }
        cbv beta zeta. unfold hplus, sizeof_Header.
        erewrite bind_Ok by reflexivity. reflexivity. }
    cbv beta. unfold hplus, sizeof_Header. rewrite Z.mul_1_r. reflexivity.
Qed.

(** ** The search of malloc *)

Definition search_step (n : Z) : Z * Z → M heap (Z * Z + Z) := λ '(prevp, p),
  let! h := hdr p in
  if n <=? h_size h then
    let! r := malloc_take n prevp p h in
    ret (inr r)
  else
    let! freep := gets u_freep in
    let! o :=
      (if p =? freep then
         let! p := morecore refuses n in
         ret (if p =? 0 then None else Some p)
       else ret (Some p)) in
    match o with
    | None => ret (inr 0)
    | Some p =>
        let! h := hdr p in
        ret (inl (p, h_ptr h))
    end.

(** Blocks that are too small are passed over. *)
Lemma walk_skip n s (l : list block) (y : block) x fuel :
  chained (u_hdr s) l (fst y) → (∀ b, b ∈ l → snd b < n ∧ fst b ≠ u_freep s) →
  loop (length l + fuel) (search_step n) (x, hd_addr l (fst y)) s
  = loop fuel (search_step n) (default x (fst <$> last l), fst y) s.
Proof.
  revert x. induction l as [|b l IH]; intros x Hc Hl; [done|].
  destruct Hc as [Hb Hc]. destruct (Hl b) as [Hn Hf]; [by left|].
  cbn [length Nat.add loop hd_addr]. erewrite bind_Ok.
  2:{ unfold search_step. erewrite bind_Ok by by apply hdr_eq. cbv beta. cbn [h_size].
      rewrite (proj2 (Z.leb_gt _ _)) by done. erewrite bind_Ok by done. cbv beta.
      rewrite (proj2 (Z.eqb_neq _ _)) by done. erewrite bind_Ok by done. cbv beta iota.
      erewrite bind_Ok by by apply hdr_eq. cbn [h_ptr]. reflexivity. }
  cbv beta iota. rewrite IH; [|done|by intros c Hc'; apply Hl; right].
  destruct (last l) eqn:E; rewrite last_cons, E; done.
Qed.

Lemma taken_perm T1 T2 s1 s2 bp n s' T' :
  T1 ≡ₚ T2 → u_hdr s1 = u_hdr s2 → u_brk s1 = u_brk s2 →
  taken T1 s1 bp n s' T' → taken T2 s2 bp n s' T'.
Proof.
  intros HT Eh Eb. unfold taken, in_units. setoid_rewrite HT. by rewrite Eh, Eb.
Qed.

(** The first block that is large enough. *)
Lemma first_big (n : Z) (l : list block) :
  (∀ b, b ∈ l → snd b < n) ∨
  ∃ l1 y l2, l = l1 ++ y :: l2 ∧ n ≤ snd y ∧ ∀ b, b ∈ l1 → snd b < n.
Proof.
  induction l as [|c l IH]; [left; by intros b ?%not_elem_of_nil|].
  destruct (Z.lt_ge_cases (snd c) n) as [Hc|Hc].
  - destruct IH as [H|(l1 & y & l2 & -> & Hy & H)].
    + left. intros b [->|Hb]%elem_of_cons; auto.
    + right. exists (c :: l1), y, l2. split_and!; [done|done|].
      intros b [->|Hb]%elem_of_cons; auto.
  - right. exists [], c, l. split_and!; [done|done|]. by intros b ?%not_elem_of_nil.
Qed.

(** One step at a block [y] that is large enough, after [x]. *)
Lemma take_step n s x y R fuel :
  heap_inv (at_ s (fst x)) (x :: y :: R) → 1 ≤ n ≤ snd y →
  ∃ bp s' T', loop (S fuel) (search_step n) (fst x, fst y) s = Ok (bp + 8) s' ∧
    taken (x :: y :: R) s bp n s' T'.
Proof.
  intros Hi Hn. destruct (hi_ring _ _ Hi) as (_ & Hry & _). cbn [at_ u_hdr hd_addr] in Hry.
  destruct (malloc_take_ok s x y R n _ Hi Hn eq_refl) as (bp & s' & T' & Hr & Ht).
  exists bp, s', T'. split; [|done]. cbn [loop]. erewrite bind_Ok.
  2:{ unfold search_step. erewrite bind_Ok by by apply hdr_eq. cbv beta. cbn [h_size].
      rewrite (proj2 (Z.leb_le _ _)) by lia. erewrite bind_Ok by exact Hr. reflexivity. }
  done.
Qed.

Lemma snoc_view (f : block) (l : list block) :
  ∃ l' x, f :: l = l' ++ [x] ∧ default (fst f) (fst <$> last l) = fst x.
Proof.
  destruct l as [|z l _] using rev_ind; [by exists [], f|].
  exists (f :: l), z. by rewrite last_snoc.
Qed.

Lemma freep_first s f R b : heap_inv s (f :: R) → b ∈ R → fst b ≠ u_freep s.
Proof.
  intros Hi Hb. pose proof (sorted_rot_NoDup base _ (hi_sorted _ _ Hi)) as Hnd.
  rewrite fmap_cons in Hnd. apply NoDup_cons in Hnd as [Hf _].
  rewrite (hi_freep _ _ Hi). cbn [hd_addr]. intros E. apply Hf. apply list_elem_of_fmap. by exists b.
Qed.

(** A ring with a block that is large enough. *)
Lemma search_found n s f R fuel :
  heap_inv s (f :: R) → 1 ≤ n → (∃ b, b ∈ f :: R ∧ n ≤ snd b) → (length (f :: R) ≤ fuel)%nat →
  ∃ bp s' T', loop fuel (search_step n) (fst f, hd_addr R (fst f)) s = Ok (bp + 8) s' ∧
    taken (f :: R) s bp n s' T'.
Proof.
  intros Hi Hn (b & Hb & Hbn) Hfuel. destruct (hi_ring _ _ Hi) as [_ HR]. cbn [hd_addr] in HR.
  pose proof (λ c, freep_first s f R c Hi) as Hfp.
  destruct (first_big n R) as [Hsm|(l1 & y & l2 & -> & Hy & Hsm)].
  - assert (b = f) as ->.
    { apply elem_of_cons in Hb as [->|Hb]; [done|]. specialize (Hsm _ Hb). lia. }
    destruct (snoc_view f R) as (l' & x & E & Ex). simpl in Hfuel.
    destruct l' as [|f' l'].
    + injection E as <- ->. destruct (sorted_rot_base base _ (hi_sorted _ _ Hi)) as [Hb0 _].
      apply list_elem_of_singleton in Hb0 as <-. simpl in *. lia.
    + injection E as <- ->. pose proof (heap_inv_rotate s (f :: l') [x] Hi) as Hr.
      replace fuel with (length (l' ++ [x]) + S (fuel - S (length (l' ++ [x]))))%nat by lia.
      rewrite walk_skip by (try done; intros c Hc; auto). rewrite Ex.
      destruct (take_step n s x f l' (fuel - S (length (l' ++ [x]))) Hr ltac:(lia))
        as (bp & s' & T' & Hl & Ht).
      exists bp, s', T'. split; [done|]. eapply taken_perm; [|done..|exact Ht]. solve_Permutation.
  - apply chained_app in HR as [HR _]. cbn [hd_addr] in HR.
    destruct (snoc_view f l1) as (l' & x & E & Ex).
    rewrite app_comm_cons, E in Hi. rewrite <-app_assoc in Hi.
    pose proof (heap_inv_rotate s l' (x :: y :: l2) Hi) as Hr.
    simpl in Hfuel. rewrite length_app in Hfuel. simpl in Hfuel.
    replace fuel with (length l1 + S (fuel - S (length l1)))%nat by lia.
    assert (Eh : hd_addr (l1 ++ y :: l2) (fst f) = hd_addr l1 (fst y)) by by destruct l1.
    rewrite Eh, walk_skip; [|done|].
    2:{ intros c Hc. split; [auto|]. apply Hfp. apply elem_of_app. auto. }
    rewrite Ex. destruct (take_step n s x y (l2 ++ l') (fuel - S (length l1)) Hr ltac:(lia))
        as (bp & s' & T' & Hl & Ht).
    exists bp, s', T'. split; [done|]. eapply taken_perm; [|done..|exact Ht].
    trans ((l' ++ [x]) ++ y :: l2); [solve_Permutation|]. by rewrite <-E.
Qed.

(** [malloc] takes a block from the list as it is or, when none is large enough,
    from the list that the new memory has joined. *)
Lemma malloc_search_ok s T n :
  heap_inv s T → 1 ≤ n → 8 * n < 2 ^ 31 →
  let N := Z.max n 4096 in
  (∃ bp s1 T1 s' T', malloc_search refuses n (u_freep s) s = Ok (bp + 8) s' ∧
     ((s1 = s ∧ T1 = T) ∨ (refuses (u_brk s) (8 * N) = false ∧ grown T s N s1 T1)) ∧
     taken T1 s1 bp n s' T') ∨
  (malloc_search refuses n (u_freep s) s = Ok 0 s ∧ refuses (u_brk s) (8 * N) = true ∧
     ∀ b, b ∈ T → snd b < n).
Proof.
  intros Hi Hn Hlt N. pose proof (heap_inv_length _ _ Hi) as Hlen.
  destruct (heap_inv_freep _ _ Hi) as (f & R & -> & Ef & Hf0).
  destruct (hi_ring _ _ Hi) as [Hf HR]. cbn [hd_addr] in Hf, HR.
  assert (Erun : malloc_search refuses n (u_freep s) s =
    loop (4 + 2 * size (u_hdr s)) (search_step n) (fst f, hd_addr R (fst f)) s).
  { unfold malloc_search. rewrite Ef. erewrite bind_Ok by by apply hdr_eq. reflexivity. }
  rewrite Erun. clear Erun. destruct (first_big n (f :: R)) as [Hsm|(l1 & y & l2 & E & Hy & _)].
  2:{ left. destruct (search_found n s f R (4 + 2 * size (u_hdr s)) Hi Hn) as (bp & s' & T' & Hl & Ht).
      - exists y. split; [rewrite E; apply elem_of_app; right; by left|done].
      - lia.
      - exists bp, s, (f :: R), s', T'. auto. }
  simpl in Hlen.
  replace (4 + 2 * size (u_hdr s))%nat
    with (length R + S (S (2 + 2 * size (u_hdr s) - length R)))%nat by lia.
  rewrite walk_skip; [|done|intros c Hc; split; [apply Hsm; by right|by eapply freep_first]].
  generalize (default (fst f) (fst <$> last R)). intros x.
  pose proof (morecore_ok s (f :: R) n Hi Hn Hlt) as Hm. cbv zeta in Hm. fold N in Hm.
  set (k := (2 + 2 * size (u_hdr s) - length R)%nat).
  assert (Hfn : (n <=? snd f) = false) by (apply Z.leb_gt, Hsm; by left).
  destruct (refuses (u_brk s) (8 * N)).
  - right. split_and!; [|done|done]. cbn [loop]. rewrite (bind_Ok _ _ _ (inr 0) s); [done|].
    unfold search_step. erewrite bind_Ok by by apply hdr_eq. cbv beta. cbn [h_size]. rewrite Hfn.
    erewrite bind_Ok by done. cbv beta. rewrite Ef, Z.eqb_refl.
    rewrite (bind_Ok _ _ _ None s); [done|]. by rewrite (bind_Ok _ _ _ _ _ Hm).
  - left. destruct Hm as (s1 & T1 & Hm & Hg). pose proof Hg as (Hi1 & _ & _ & _ & Hl1 & Hbig).
    destruct (heap_inv_freep _ _ Hi1) as (g & R1 & -> & Eg & Hg0).
    destruct (hi_ring _ _ Hi1) as [Hg1 _]. cbn [hd_addr] in Hg1.
    destruct (search_found n s1 g R1 (S k) Hi1 Hn) as (bp & s' & T' & Hl & Ht).
    { destruct Hbig as (b & Hb & Hbn). exists b. split; [done|lia]. }
    { simpl in *. lia. }
    exists bp, s1, (g :: R1), s', T'. split; [|auto].
    cbn [loop]. rewrite (bind_Ok _ _ _ (inl (fst g, hd_addr R1 (fst g))) s1); [exact Hl|].
    unfold search_step. erewrite bind_Ok by by apply hdr_eq. cbv beta. cbn [h_size]. rewrite Hfn.
    erewrite bind_Ok by done. cbv beta. rewrite Ef, Z.eqb_refl.
    rewrite (bind_Ok _ _ _ (Some (fst g)) s1).
    2:{ rewrite (bind_Ok _ _ _ _ _ Hm). cbv beta. rewrite Eg.
        by rewrite (proj2 (Z.eqb_neq _ _)) by lia. }
    cbv beta iota. erewrite bind_Ok by by apply hdr_eq. reflexivity.
Qed.

(** ** Live blocks *)

(** Two blocks do not overlap. *)
Definition apart (b c : block) : Prop :=
  fst b + 8 * snd b ≤ fst c ∨ fst c + 8 * snd c ≤ fst b.

(** The blocks handed out and not yet freed lie apart from each other and from
    the free list; before the first call there is no list. *)
Definition alloc_inv (s : heap) (live : list block) : Prop :=
  (u_freep s = 0 ∧ live = [] ∧ 0 < base < u_brk s ∧ u_brk s ≤ 2 ^ 31) ∨
  ∃ T, heap_inv s T ∧ (∀ b, b ∈ live → blk_ok s T (fst b) (snd b)) ∧
    NoDup live ∧ ∀ b c, b ∈ live → c ∈ live → b ≠ c → apart b c.

Lemma blk_ok_units s T bp n a : blk_ok s T bp n → bp ≤ a < bp + 8 * n → ¬ in_units T a.
Proof.
  intros Hb Ha (b & Hin & Hab). destruct (bo_disj _ _ _ _ Hb b Hin); unfold bend in *; lia.
Qed.

Lemma blk_ok_transfer s T s' T' bp n :
  blk_ok s T bp n → u_hdr s' !! bp = u_hdr s !! bp → u_brk s ≤ u_brk s' → heap_inv s' T' →
  (∀ a, bp ≤ a < bp + 8 * n → in_units T' a → in_units T a) → blk_ok s' T' bp n.
Proof.
  intros Hb Eh Ebrk Hi Hu. pose proof Hb as [(h & Hh & En) Hn Hbase Hbrk _].
  eapply blk_ok_intro; [by rewrite Eh|done|done|done|lia|intros b; apply (hi_size _ _ Hi)|].
  intros a Ha Hin. eapply blk_ok_units; [exact Hb|exact Ha|auto].
Qed.

(** A live block keeps its header and stays out of the list when memory is added
    and when another block is taken. *)
Lemma blk_ok_grown s T N s1 T1 bp n : blk_ok s T bp n → grown T s N s1 T1 → 0 ≤ N → blk_ok s1 T1 bp n.
Proof.
  intros Hb (Hi1 & Ebrk & Hk & Hu & _) HN. pose proof (bo_brk _ _ _ _ Hb). pose proof (bo_size _ _ _ _ Hb).
  eapply blk_ok_transfer; [exact Hb| |lia|done|].
  - apply Hk; [by eapply blk_ok_fresh|lia].
  - intros a Ha [?|?]%Hu; [done|lia].
Qed.
Lemma blk_ok_taken s T s' T' bp n c m :
  blk_ok s T c m → taken T s bp n s' T' → blk_ok s' T' c m ∧ apart (bp, n) (c, m).
Proof.
  intros Hc (Hi' & Ebrk & Hb & Hk & Hin & Hu). pose proof (bo_size _ _ _ _ Hb). pose proof (bo_size _ _ _ _ Hc).
  assert (Hap : apart (bp, n) (c, m)).
  { unfold apart. simpl. destruct (Z.le_gt_cases (bp + 8 * n) c) as [|H1]; [by left|].
    destruct (Z.le_gt_cases (c + 8 * m) bp) as [|H2]; [by right|].
    exfalso. apply (blk_ok_units _ _ _ _ (Z.max bp c) Hc); [lia|]. apply Hin. lia. }
  split; [|done]. unfold apart in Hap. simpl in Hap. eapply blk_ok_transfer; [exact Hc| |lia|done|].
  - apply Hk; [by eapply blk_ok_fresh|lia].
  - intros a Ha [? _]%Hu. done.
Qed.

Lemma alloc_inv_take s T live s1 T1 s' T' bp n N :
  (∀ b, b ∈ live → blk_ok s T (fst b) (snd b)) → NoDup live →
  (∀ b c, b ∈ live → c ∈ live → b ≠ c → apart b c) → 0 ≤ N →
  ((s1 = s ∧ T1 = T) ∨ grown T s N s1 T1) → taken T1 s1 bp n s' T' →
  alloc_inv s' ((bp, n) :: live).
Proof.
  intros Hok Hnd Hap HN Hg Ht. pose proof Ht as (Hi' & _ & Hb & _ & Hin & _).
  assert (Hlive : ∀ b, b ∈ live → blk_ok s' T' (fst b) (snd b) ∧ apart (bp, n) b).
  { intros [c m] Hc. eapply blk_ok_taken; [|exact Ht]. specialize (Hok _ Hc).
    destruct Hg as [[-> ->]|Hg]; [done|by eapply blk_ok_grown]. }
  right. exists T'. split_and!; [done| | |].
  - intros b [->|Hin']%elem_of_cons; [done|by apply Hlive].
  - constructor; [|done]. intros [_ Ha]%Hlive. pose proof (bo_size _ _ _ _ Hb). unfold apart in Ha.
    simpl in Ha. lia.
  - intros b c [->|Hb']%elem_of_cons [->|Hc']%elem_of_cons Hne; [done|by apply Hlive| |auto].
    destruct (Hlive _ Hb') as [_ Ha]. unfold apart in *. tauto.
Qed.

Lemma malloc_init s :
  u_freep s = 0 → 0 < base < u_brk s → u_brk s ≤ 2 ^ 31 →
  heap_inv (mk_heap base (<[base := mk_header base 0]> (u_hdr s)) (u_brk s)) [(base, 0)].
Proof.
  intros E Hb Ht. constructor; cbn [u_freep u_hdr u_brk]; try done.
  - split; [|done]. by rewrite lookup_insert_eq.
  - exists [(base, 0)], []. split_and!; [done|simpl; lia|done].
  - intros b ->%list_elem_of_singleton. by left.
  - intros b ->%list_elem_of_singleton. simpl. lia.
  - intros x y ->%list_elem_of_singleton. simpl. lia.
Qed.

(** C18.  [malloc] of 0 <= nbytes < 2^31-15 returns: either a block of at least [nbytes] bytes
    that overlaps neither a live block nor the free list, with its size recorded in the
    header in front of it, or 0, and then the kernel has refused to grow the process.
    The live blocks are those of earlier calls, and the kernel's [sbrk] never grows a
    process past KERNBASE.  Larger requests wrap, see [malloc_wraps]. *)
Theorem malloc_gives s live nbytes :
  alloc_inv s live → 0 ≤ nbytes < 2 ^ 31 - 15 →
  let n := (nbytes + 7) / 8 + 1 in
  ∃ r s', malloc base refuses nbytes s = Ok r s' ∧
    ((alloc_inv s' ((r - 8, n) :: live) ∧ nbytes ≤ 8 * (n - 1) ∧ 8 < r) ∨
     (r = 0 ∧ refuses (u_brk s) (8 * Z.max n 4096) = true ∧ alloc_inv s' live)).
Proof.
  intros Ha Hn n. assert (Hd : 8 * (n - 1) ≤ nbytes + 7 < 8 * n).
  { subst n. pose proof (Z.div_mod (nbytes + 7) 8). pose proof (Z.mod_pos_bound (nbytes + 7) 8). lia. }
  assert (Erun : ∃ s0 T, malloc base refuses nbytes s = malloc_search refuses n (u_freep s0) s0 ∧
    heap_inv s0 T ∧ u_brk s0 = u_brk s ∧ (∀ b, b ∈ live → blk_ok s0 T (fst b) (snd b)) ∧
    NoDup live ∧ ∀ b c, b ∈ live → c ∈ live → b ≠ c → apart b c).
  { unfold malloc, sizeof_Header. replace (nbytes + 8 - 1) with (nbytes + 7) by lia.
    rewrite u32_small by lia. cbv zeta. fold n. erewrite bind_Ok by done. cbv beta.
    destruct Ha as [(E & -> & Hb & Ht)|(T & Hi & Hok & Hnd & Hap)].
    - eexists _, _. split; [|split; [by apply malloc_init|]].
      + rewrite E. cbn [Z.eqb]. erewrite bind_Ok; [reflexivity|].
        unfold set_ptr, set_size, set_hdr, set_freep, bind, gets, modify. simpl.
        rewrite lookup_insert_eq. simpl. by rewrite insert_insert_eq.
      + split_and!; [done|by intros b ?%not_elem_of_nil|constructor|by intros b c ?%not_elem_of_nil].
    - exists s, T. split_and!; try done. destruct (heap_inv_freep _ _ Hi) as (f & R & _ & Ef & Hf).
      rewrite (proj2 (Z.eqb_neq _ _)) by lia. by erewrite bind_Ok by done. }
  destruct Erun as (s0 & T & -> & Hi & <- & Hok & Hnd & Hap).
  destruct (malloc_search_ok s0 T n Hi ltac:(lia) ltac:(lia))
    as [(bp & s1 & T1 & s' & T' & Hr & Hg & Ht)|(Hr & Href & _)].
  - exists (bp + 8), s'. split; [done|]. left. replace (bp + 8 - 8) with bp by lia.
    pose proof Ht as (_ & _ & Hb & _). pose proof (bo_base _ _ _ _ Hb). pose proof (hi_base _ _ Hi).
    split; [|lia]. apply (alloc_inv_take s0 T live s1 T1 s' T' bp n (Z.max n 4096)); try done; [lia|tauto].
  - exists 0, s0. split; [done|]. right. split_and!; try done. right. by exists T.
Qed.

(** C19.  [free] of a live block returns.  The free bytes are then those that were free and
    those of the block, joined with its neighbours: no free block starts where another one
    ends.  The other live blocks keep their headers and are live. *)
Theorem free_takes_back s l1 b l2 :
  alloc_inv s (l1 ++ b :: l2) →
  ∃ s' T T', free (fst b + 8) s = Ok tt s' ∧ heap_inv s T ∧ heap_inv s' T' ∧
    (∀ a, in_units T' a ↔ in_units T a ∨ fst b ≤ a < fst b + 8 * snd b) ∧ joined T' ∧
    alloc_inv s' (l1 ++ l2) ∧ ∀ c, c ∈ l1 ++ l2 → u_hdr s' !! fst c = u_hdr s !! fst c.
Proof.
  intros [(_ & E & _)|(T & Hi & Hok & Hnd & Hap)]; [by destruct l1|].
  assert (Hin : b ∈ l1 ++ b :: l2) by (apply elem_of_app; right; by left).
  assert (Hsub : ∀ c, c ∈ l1 ++ l2 → c ∈ l1 ++ b :: l2).
  { intros c. rewrite !elem_of_app, elem_of_cons. tauto. }
  assert (Hne : ∀ c, c ∈ l1 ++ l2 → c ≠ b).
  { intros c Hc ->. rewrite <-Permutation_middle in Hnd. by apply NoDup_cons in Hnd as [? _]. }
  destruct (free_ok s T (fst b) (snd b) Hi (Hok _ Hin)) as (s' & T' & Hf & Hi' & Ebrk & Hk & Hu & _).
  assert (Hkeep : ∀ c, c ∈ l1 ++ l2 → u_hdr s' !! fst c = u_hdr s !! fst c).
  { intros c Hc. pose proof (Hok _ (Hsub _ Hc)) as Hco. pose proof (Hap _ _ (Hsub _ Hc) Hin (Hne _ Hc)) as Ha.
    pose proof (bo_size _ _ _ _ Hco). pose proof (bo_size _ _ _ _ (Hok _ Hin)). unfold apart in Ha.
    apply Hk; [by eapply blk_ok_fresh|lia]. }
  exists s', T, T'. split_and!; try done; [apply Hi'|].
  right. exists T'. split_and!; [done| |rewrite <-Permutation_middle in Hnd; by apply NoDup_cons in Hnd as [_ ?]|auto].
  intros c Hc. pose proof (Hok _ (Hsub _ Hc)) as Hco. pose proof (Hap _ _ (Hsub _ Hc) Hin (Hne _ Hc)) as Ha.
  pose proof (bo_size _ _ _ _ Hco). pose proof (bo_size _ _ _ _ (Hok _ Hin)). unfold apart in Ha.
  eapply blk_ok_transfer; [exact Hco|by apply Hkeep|lia|done|].
  intros a Hrange [?|?]%Hu; [done|lia].
Qed.
End alloc.

(** A process whose break is at 20480: the first call of [malloc]. *)
Definition sample_refuses (b n : Z) : bool := 2 ^ 31 <? b + n.
Definition sample_heap : heap :=
  mk_heap 16384 (list_to_map [(16384, mk_header 20480 0); (20480, mk_header 16384 4082);
                              (53136, mk_header 0 14)]) 53248.

Lemma sample_refuses_kernbase b n : sample_refuses b n = false → b + n ≤ 2 ^ 31.
Proof. unfold sample_refuses. intros H%Z.ltb_ge. lia. Qed.
Lemma sample_run : malloc 16384 sample_refuses 100 (mk_heap 0 ∅ 20480) = Ok 53144 sample_heap.
Proof. vm_compute. reflexivity. Qed.
Lemma sample_heap_ok : alloc_inv 16384 sample_heap [(53136, 14)].
Proof.
  right. exists [(16384, 0); (20480, 4082)].
  assert (Hall : ∀ P : block → Prop, P (16384, 0) → P (20480, 4082) →
    ∀ b, b ∈ [(16384, 0); (20480, 4082)] → P b).
  { intros P H1 H2 b [->|Hb]%elem_of_cons; [done|]. by apply list_elem_of_singleton in Hb as ->. }
  split_and!.
  - constructor; try done; try (apply Hall; simpl; auto; lia).
    + exists [(16384, 0); (20480, 4082)], []. split_and!; try done; simpl; unfold bend; simpl; lia.
    + intros x y Hx Hy.
      apply elem_of_cons in Hx as [->| ->%list_elem_of_singleton], Hy as [->| ->%list_elem_of_singleton]; simpl; lia.
  - intros b ->%list_elem_of_singleton. constructor; try done.
    + by exists (mk_header 0 14).
    + apply Hall; unfold bend; simpl; lia.
  - apply NoDup_singleton.
  - intros b c ->%list_elem_of_singleton ->%list_elem_of_singleton. done.
Qed.

Lemma malloc_gives_witness :
  ∃ r s', malloc 16384 sample_refuses 100 (mk_heap 0 ∅ 20480) = Ok r s' ∧
    ((alloc_inv 16384 s' [(r - 8, 14)] ∧ 100 ≤ 8 * (14 - 1) ∧ 8 < r) ∨
     (r = 0 ∧ sample_refuses 20480 (8 * Z.max 14 4096) = true ∧ alloc_inv 16384 s' [])).
Proof.
  apply (malloc_gives 16384 sample_refuses sample_refuses_kernbase (mk_heap 0 ∅ 20480) [] 100); [|lia].
  left. simpl. split_and!; try done; lia.
Defined.

Lemma free_takes_back_witness :
  ∃ s' T T', free (53136 + 8) sample_heap = Ok tt s' ∧ heap_inv 16384 sample_heap T ∧ heap_inv 16384 s' T' ∧
    (∀ a, in_units T' a ↔ in_units T a ∨ 53136 ≤ a < 53136 + 8 * 14) ∧ joined T' ∧
    alloc_inv 16384 s' [] ∧ ∀ c, c ∈ ([] : list block) → u_hdr s' !! fst c = u_hdr sample_heap !! fst c.
Proof. exact (free_takes_back 16384 sample_heap [] (53136, 14) [] sample_heap_ok). Defined.

(** A request of 2^32 - 8 bytes is not refused: the byte count that [morecore] passes
    to [sbrk] wraps to 0, the break does not move, and [malloc] returns a block that
    the process does not own. *)
Lemma malloc_wraps :
  ∃ h, malloc 16384 sample_refuses 4294967288 (mk_heap 0 ∅ 20480) = Ok 20488 (mk_heap 16384 h 20480).
Proof. eexists. vm_compute. reflexivity. Qed.
