(* ===== verification/Mkfs.v ===== *)
(** * Mkfs: the program that builds the file system image (mkfs.c)

    mkfs runs on the build host, a little-endian machine like the target.  The image
    is the list of its sectors, a struct on the disk the list of its bytes.  What the
    host says of a file named on the command line is an argument of [main]: [None]
    when it cannot be opened, otherwise the chunks that successive reads return.
    The room the host has for the image is part of the state: a write beyond it fails.
    [exit(1)] and a failed [assert] end the run as [Panic] does; what mkfs prints on
    its standard output is not kept. *)

From stdpp Require Import base numbers gmap strings option list.
From S2P Require Import Prelude Format Machine Mlfq ProcCore Sleeplock Ide Bio Log Inode Fs.
Local Open Scope kernel_scope.
Local Open Scope Z_scope.

Definition NINODES : Z := 200.

(** The globals of mkfs.c: the image behind [fsfd], [sb], [freeinode], [freeblock]. *)
Record mkfs := mk_mkfs {
  img : list (list Z);
  sb : superblock;
  freeinode : Z;
  freeblock : Z;
  host_room : nat  (** how many sectors the host lets the image file have *)
}.
Definition set_img (v : list (list Z)) (r : mkfs) : mkfs :=
  mk_mkfs v (sb r) (freeinode r) (freeblock r) (host_room r).
Definition set_sb (v : superblock) (r : mkfs) : mkfs :=
  mk_mkfs (img r) v (freeinode r) (freeblock r) (host_room r).
Definition set_freeinode (v : Z) (r : mkfs) : mkfs := mk_mkfs (img r) (sb r) v (freeblock r) (host_room r).
Definition set_freeblock (v : Z) (r : mkfs) : mkfs := mk_mkfs (img r) (sb r) (freeinode r) v (host_room r).

Abbreviation MK := (M mkfs).

Definition nbitmap : Z := FSSIZE / (BSIZE * 8) + 1.
Definition ninodeblocks : Z := NINODES / IPB + 1.
Definition nlog : Z := LOGSIZE.
Definition nmeta : Z := 2 + nlog + ninodeblocks + nbitmap.
Definition nblocks : Z := FSSIZE - nmeta.
Definition zeroes : list Z := replicate (Z.to_nat BSIZE) 0.

(** The integer whose bytes in the host's memory are those of [x] in Intel order. *)
Definition xshort (x : Z) : Z := u8 x + 2 ^ 8 * u8 (Z.shiftr x 8).
Definition xint (x : Z) : Z :=
  u8 x + 2 ^ 8 * u8 (Z.shiftr x 8) + 2 ^ 16 * u8 (Z.shiftr x 16) + 2 ^ 24 * u8 (Z.shiftr x 24).

(** Where [sec * BSIZE], a [uint], points to, which is where [lseek] goes; a write past the
    end of the file leaves zeroes in between and fails when the host has no room, a read
    there is short. *)
Definition sector (sec : Z) : nat := Z.to_nat (u32 (sec * BSIZE) / BSIZE).
Definition wsect (sec : Z) (buf : list Z) : MK unit := λ r,
  let k := sector sec in
  if bool_decide (host_room r ≤ k)%nat then Panic "write" r
  else Ok tt (set_img (<[k := buf]> (img r ++ replicate (S k - length (img r)) zeroes)) r).
Definition rsect (sec : Z) : MK (list Z) := λ r,
  match img r !! sector sec with
  | Some buf => Ok buf r
  | None => Panic "read" r
  end.

(** [struct dinode]: where it lies in its block, its bytes, and its fields. *)
Definition dip_off (inum : Z) : nat := Z.to_nat (inum mod IPB * sizeof_dinode).
Definition winode (inum : Z) (ip : list Z) : MK unit :=
  let! sb := gets sb in
  let bn := IBLOCK inum sb in
  let! buf := rsect bn in
  wsect bn (splice (dip_off inum) ip buf).
Definition rinode (inum : Z) : MK (list Z) :=
  let! sb := gets sb in
  let! buf := rsect (IBLOCK inum sb) in
  ret (take (Z.to_nat sizeof_dinode) (drop (dip_off inum) buf)).
Definition din_size (din : list Z) : Z := get32 din 8.
Definition din_addr (din : list Z) (k : Z) : Z := get32 din (Z.to_nat (12 + 4 * k)).
Definition set_din_size (v : Z) (din : list Z) : list Z := put32 din 8 v.
Definition set_din_addr (k v : Z) (din : list Z) : list Z := put32 din (Z.to_nat (12 + 4 * k)) v.

Definition ialloc (type : Z) : MK Z :=
  let! inum := gets freeinode in
  modify (λ r, set_freeinode (u32 (inum + 1)) r) ;;
  let din := replicate (Z.to_nat sizeof_dinode) 0 in
  let din := put16 din 0 (xshort type) in
  let din := put16 din 6 (xshort 1) in
  let din := set_din_size (xint 0) din in
  winode inum din ;;
  ret inum.

Definition balloc (used : Z) : MK unit :=
  if negb (used <? BSIZE * 8) then panic "assert"
  else
    let buf := foldl (λ buf i,
      <[Z.to_nat (i / 8) := Z.lor (nth (Z.to_nat (i / 8)) buf 0) (Z.shiftl 1 (i mod 8))]> buf)
      (replicate (Z.to_nat BSIZE) 0) (seqZ 0 used) in
    let! sb := gets sb in
    wsect (sb_bmapstart sb) buf.

(** [freeblock++] *)
Definition next_block : MK Z :=
  let! b := gets freeblock in
  modify (λ r, set_freeblock (u32 (b + 1)) r) ;;
  ret b.

(** The sector [x] of block [fbn] of the file, allocated when there is none yet; the
    inode comes back with its new addresses. *)
Definition iappend_block (fbn : Z) (din : list Z) : MK (list Z * Z) :=
  let nd := Z.of_nat NDIRECT in
  if fbn <? nd then
    let! din :=
      (if xint (din_addr din fbn) =? 0 then
         let! b := next_block in
         ret (set_din_addr fbn (xint b) din)
       else ret din) in
    ret (din, xint (din_addr din fbn))
  else
    let! din :=
      (if xint (din_addr din nd) =? 0 then
         let! b := next_block in
         ret (set_din_addr nd (xint b) din)
       else ret din) in
    let! indirect := rsect (xint (din_addr din nd)) in
    let k := Z.to_nat (4 * (fbn - nd)) in
    let! indirect :=
      (if get32 indirect k =? 0 then
         let! b := next_block in
         let indirect := put32 indirect k (xint b) in
         wsect (xint (din_addr din nd)) indirect ;;
         ret indirect
       else ret indirect) in
    ret (din, xint (get32 indirect k)).

Definition iappend (inum : Z) (xp : list Z) : MK unit :=
  let! din := rinode inum in
  let off := xint (din_size din) in
  let! r := loop (2 + length xp) (λ '(p, off, din),
    if negb (0 <? Z.of_nat (length p)) then ret (inr (off, din))
    else
      let fbn := off / BSIZE in
      if negb (fbn <? MAXFILE) then panic "assert"
      else
        let! r := iappend_block fbn din in
        let '(din, x) := r in
        let n1 := Z.min (Z.of_nat (length p)) ((fbn + 1) * BSIZE - off) in
        let! buf := rsect x in
        wsect x (splice (Z.to_nat (off - fbn * BSIZE)) (take (Z.to_nat n1) p) buf) ;;
        ret (inl (drop (Z.to_nat n1) p, off + n1, din))) (xp, off, din) in
  let '(off, din) := r in
  winode inum (set_din_size (xint off) din).

(** A directory entry: [bzero(&de, sizeof(de))], the number, and the name, copied by
    [strcpy] or [strncpy]. *)
Definition mk_de (inum : Z) (name : list Z) : list Z :=
  splice 2 (take DIRSIZ name) (put16 (replicate (Z.to_nat sizeof_dirent) 0) 0 (xshort inum)).

(** [while((cc = read(fd, buf, sizeof(buf))) > 0) iappend(inum, buf, cc);] *)
Fixpoint copy_file (inum : Z) (reads : list (list Z)) : MK unit :=
  match reads with
  | [] | [] :: _ => ret tt
  | buf :: reads => iappend inum buf ;; copy_file inum reads
  end.

(** The body of the loop over the files of the command line. *)
Definition add_file (rootino : Z) (arg : list Z * option (list (list Z))) : MK unit :=
  let '(name, file) := arg in
  if existsb (λ c, c =? 47) name then panic "assert"
  else
    match file with
    | None => panic "open"
    | Some reads =>
        let name := match name with c :: name' => if c =? 95 then name' else name | [] => name end in
        let! inum := ialloc T_FILE in
        iappend rootino (mk_de inum name) ;;
        copy_file inum reads
    end.

Definition sb_bytes (sb : superblock) : list Z :=
  foldl (λ d '(k, v), put32 d (4 * k) v) (replicate 28 0)
    (imap pair [sb_size sb; sb_nblocks sb; sb_ninodes sb; sb_nlog sb; sb_logstart sb; sb_inodestart sb; sb_bmapstart sb]).

(** [image] says whether argv[1] is there and whether it can be opened. *)
Definition main (image : option bool) (files : list (list Z * option (list (list Z)))) : MK unit :=
  match image with
  | None => panic "Usage: mkfs fs.img files..."
  | Some false => panic "open"
  | Some true =>
      modify (set_sb (mk_superblock (xint FSSIZE) (xint nblocks) (xint NINODES) (xint nlog) (xint 2)
        (xint (2 + nlog)) (xint (2 + nlog + ninodeblocks)))) ;;
      modify (set_freeblock nmeta) ;;
      for_each (seqZ 0 FSSIZE) (λ i, wsect i zeroes) ;;
      let! sb := gets sb in
      wsect 1 (splice 0 (sb_bytes sb) zeroes) ;;
      let! rootino := ialloc T_DIR in
      if negb (rootino =? ROOTINO) then panic "assert"
      else
        iappend rootino (mk_de rootino [46]) ;;
        iappend rootino (mk_de rootino [46; 46]) ;;
        for_each files (add_file rootino) ;;
        let! din := rinode rootino in
        let off := xint (din_size din) in
        let off := (off / BSIZE + 1) * BSIZE in
        winode rootino (set_din_size (xint off) din) ;;
        let! used := gets freeblock in
        balloc used
  end.

(** mkfs starts with an empty file and [freeinode = 1]. *)
Definition fresh (room : nat) : mkfs := mk_mkfs [] (mk_superblock 0 0 0 0 0 0 0) 1 0 room.
