(* ===== verification/MkfsThm.v ===== *)
(** * MkfsThm: the image that mkfs builds (mkfs.c)

    Every file of the command line is on the image with its contents, no two files
    share a block, the log is empty and the bitmap marks exactly the blocks in use:
    the disk that the kernel's block allocator and log start from. *)

From stdpp Require Import base numbers gmap strings option list.
From S2P Require Import Prelude Format Machine Mlfq ProcCore Sleeplock Ide Bio Log Inode Fs FsThm.
From S2P Require Import Mem BioThm FileRep LogThm TxnThm Mkfs.
Local Open Scope kernel_scope.
Local Open Scope Z_scope.

(** ** Sectors *)

Definition the_sb : superblock := mk_superblock 1000 941 200 30 2 32 58.

Lemma xint_u32 x : xint x = u32 x.
Proof. apply bytes32_word. Qed.
Lemma xint_small x : 0 ≤ x < 2 ^ 32 → xint x = x.
Proof. intros Hx. rewrite xint_u32. by apply u32_small. Qed.

Abbreviation blk st := (contents (img st)).

Record image_ok (st : mkfs) : Prop := {
  im_len : length (img st) = Z.to_nat FSSIZE;
  im_blk : Forall (λ l, length l = Z.to_nat BSIZE) (img st);
  im_sb : sb st = the_sb;
  im_room : (Z.to_nat FSSIZE ≤ host_room st)%nat;
}.

Lemma sector_small sec : 0 ≤ sec < FSSIZE → sector sec = Z.to_nat sec.
Proof.
  intros Hs. unfold sector. unfold FSSIZE in Hs. rewrite u32_small by (unfold BSIZE; lia).
  by rewrite Z.div_mul.
Qed.

Lemma rsect_ok st sec : image_ok st → 0 ≤ sec < FSSIZE → rsect sec st = Ok (blk st sec) st.
Proof.
  intros Him Hs. unfold rsect. rewrite sector_small by done. unfold contents.
  destruct (lookup_lt_is_Some_2 (img st) (Z.to_nat sec)) as [b ->]; [rewrite (im_len _ Him); lia|done].
Qed.

Lemma wsect_ok st sec buf :
  image_ok st → 0 ≤ sec < FSSIZE → wsect sec buf st = Ok tt (set_img (<[Z.to_nat sec := buf]> (img st)) st).
Proof.
  intros Him Hs. unfold wsect. rewrite sector_small by done. pose proof (im_room _ Him) as Hr.
  rewrite bool_decide_eq_false_2 by lia.
  replace (_ - length (img st))%nat with 0%nat by (rewrite (im_len _ Him); lia). by rewrite app_nil_r.
Qed.

(** What [st'] has in its sectors after a write. *)
Lemma blk_write st sec buf b :
  image_ok st → 0 ≤ sec < FSSIZE → 0 ≤ b → contents (<[Z.to_nat sec := buf]> (img st)) b = fupd sec buf (blk st) b.
Proof.
  intros Him Hs Hb. unfold contents, fupd. case_decide as E.
  - subst. rewrite list_lookup_insert_eq; [done|]. rewrite (im_len _ Him). lia.
  - rewrite list_lookup_insert_ne; [done|lia].
Qed.

Lemma image_write st sec buf :
  image_ok st → length buf = Z.to_nat BSIZE → image_ok (set_img (<[Z.to_nat sec := buf]> (img st)) st).
Proof.
  intros [H1 H2 H3 H4] Hl. split; simpl; [by rewrite length_insert| |done|done]. by apply Forall_insert.
Qed.

Lemma blk_length st b : image_ok st → 0 ≤ b < FSSIZE → length (blk st b) = Z.to_nat BSIZE.
Proof.
  intros Him Hb. unfold contents. destruct (lookup_lt_is_Some_2 (img st) (Z.to_nat b)) as [l Hl]; [rewrite (im_len _ Him); lia|].
  rewrite Hl. apply (Forall_lookup_1 _ _ _ _ (im_blk _ Him) Hl).
Qed.

(** ** Inodes *)

(** An inode: its 64 bytes, the blocks of the file, and its size. *)
Record node := mk_node {
  n_din : list Z;
  n_bs : list Z;
  n_size : Z
}.
Definition addr_of (din : list Z) (k : nat) : Z := get32 din (12 + 4 * k).
Definition blocks (n : node) : list Z := file_blocks (addr_of (n_din n)) (n_bs n).

Record node_ok (val : Z → list Z) (n : node) : Prop := {
  no_len : length (n_din n) = Z.to_nat sizeof_dinode;
  no_size : din_size (n_din n) = n_size n;
  no_fits : 0 ≤ n_size n ≤ BSIZE * Z.of_nat (length (n_bs n));
  no_rep : file_rep val (addr_of (n_din n)) (n_bs n);
}.

(** The nodes share no block, and the blocks from [fb] on are free. *)
Record alloc_ok (val : Z → list Z) (fb : Z) (ns : list node) : Prop := {
  al_node i n : ns !! i = Some n → node_ok val n;
  al_nodup i n : ns !! i = Some n → NoDup (blocks n);
  al_disj i j n n' b : ns !! i = Some n → ns !! j = Some n' → b ∈ blocks n → b ∈ blocks n' → i = j;
  al_range i n b : ns !! i = Some n → b ∈ blocks n → nmeta ≤ b < fb;
  al_free : nmeta ≤ fb ≤ FSSIZE;
  al_zero b : fb ≤ b < FSSIZE → val b = zeroes;
}.

Lemma node_ok_ext val val' n : (∀ b, b ∈ blocks n → val' b = val b) → node_ok val n → node_ok val' n.
Proof. intros Hv [H1 H2 H3 H4]. split; try done. by eapply file_rep_ext. Qed.

(** One node changes: it keeps its blocks and takes some of the free ones. *)
Lemma alloc_update val val' fb fb' ns i n n' :
  alloc_ok val fb ns → ns !! i = Some n → node_ok val' n' → NoDup (blocks n') → fb ≤ fb' ≤ FSSIZE →
  (∀ b, b ∈ blocks n' → b ∈ blocks n ∨ fb ≤ b < fb') →
  (∀ b, nmeta ≤ b → b ∉ blocks n' → val' b = val b) → alloc_ok val' fb' (<[i := n']> ns).
Proof.
  intros [H1 H2 H3 H4 H5 H6] Hi Hn' Hnd Hfb Hsub Hv. change nmeta with 59 in *.
  assert (Hoth : ∀ j m b, ns !! j = Some m → i ≠ j → b ∈ blocks m → b ∉ blocks n').
  { intros j m b Hj Hij Hb [Hb'|Hb']%Hsub; [by eapply Hij, H3|]. apply (H4 _ _ _ Hj) in Hb. lia. }
  split.
  - intros j m [(<- & <- & _)|(Hij & Hj)]%list_lookup_insert_Some; [done|].
    eapply node_ok_ext; [|by eapply H1]. intros b Hb. apply Hv; [apply (H4 _ _ _ Hj) in Hb; lia|by eapply Hoth].
  - intros j m [(<- & <- & _)|(Hij & Hj)]%list_lookup_insert_Some; [done|by eapply H2].
  - intros j k m m' b [(<- & <- & _)|(Hij & Hj)]%list_lookup_insert_Some
      [(<- & <- & _)|(Hik & Hk)]%list_lookup_insert_Some Hb Hb'; try done.
    + by destruct (Hoth k m' b Hk Hik Hb').
    + by destruct (Hoth j m b Hj Hij Hb).
    + by eapply H3.
  - intros j m b [(<- & <- & _)|(Hij & Hj)]%list_lookup_insert_Some Hb.
    + apply Hsub in Hb as [Hb|Hb]; [apply (H4 _ _ _ Hi) in Hb|]; change nmeta with 59; lia.
    + apply (H4 _ _ _ Hj) in Hb. change nmeta with 59. lia.
  - change nmeta with 59. lia.
  - intros b Hb. rewrite Hv; [apply H6; lia|lia|]. intros [Hb'|Hb']%Hsub; [apply (H4 _ _ _ Hi) in Hb'|]; lia.
Qed.

(** ** The bytes of an inode *)

Lemma din_addr_of din (k : nat) : din_addr din (Z.of_nat k) = addr_of din k.
Proof. unfold din_addr, addr_of. f_equal. lia. Qed.

Lemma addr_of_range din k : Forall (λ z, 0 ≤ z < 2 ^ 8) din → 0 ≤ addr_of din k < 2 ^ 32.
Proof.
  intros Hd. assert (Hn : ∀ j, 0 ≤ nth j din 0 < 2 ^ 8).
  { intros j. rewrite nth_lookup. destruct (din !! j) as [z|] eqn:E; simpl; [by eapply Forall_lookup_1 in Hd|lia]. }
  unfold addr_of, get32. pose proof (Hn (12 + 4 * k)%nat). pose proof (Hn (12 + 4 * k + 1)%nat).
  pose proof (Hn (12 + 4 * k + 2)%nat). pose proof (Hn (12 + 4 * k + 3)%nat). lia.
Qed.

Section din.
Context (din : list Z) (k : nat) (v : Z).
Hypothesis Hlen : length din = Z.to_nat sizeof_dinode.
Hypothesis Hk : (k ≤ NDIRECT)%nat.
Let din' := set_din_addr (Z.of_nat k) v din.

Lemma set_addr_put : din' = put32 din (12 + 4 * k) v.
Proof. unfold din', set_din_addr. f_equal. lia. Qed.
Lemma set_addr_fits : (12 + 4 * k + 4 ≤ length din)%nat.
Proof. rewrite Hlen. unfold NDIRECT, sizeof_dinode in *. lia. Qed.

Lemma set_addr_length : length din' = length din.
Proof. rewrite set_addr_put. apply put32_length, set_addr_fits. Qed.
Lemma set_addr_size : din_size din' = din_size din.
Proof.
  rewrite set_addr_put. apply get32_agree, splice_agree; [apply set_addr_fits|]. simpl. lia.
Qed.
Lemma set_addr_head : agree 0 8 din' din.
Proof. rewrite set_addr_put. apply splice_agree; [apply set_addr_fits|]. simpl. lia. Qed.
Lemma set_addr_addr j : addr_of din' j = if decide (j = k) then u32 v else addr_of din j.
Proof.
  rewrite set_addr_put. unfold addr_of. pose proof set_addr_fits. case_decide as E.
  - subst. by apply get32_put32.
  - apply get32_agree, splice_agree; [done|]. simpl. lia.
Qed.
End din.

(** ** Taking blocks *)

Lemma next_block_ok st : nmeta ≤ freeblock st < FSSIZE →
  next_block st = Ok (freeblock st) (set_freeblock (freeblock st + 1) st).
Proof.
  intros Hf. change nmeta with 59 in Hf. unfold next_block, FSSIZE in *. run done. run done. by rewrite u32_small by lia.
Qed.

(** The file [i] has become [n'], with new blocks from the free ones. *)
Record grown (st st' : mkfs) (ns : list node) (i : nat) (n n' : node) : Prop := {
  gr_image : image_ok st';
  gr_inode : freeinode st' = freeinode st;
  gr_alloc : alloc_ok (blk st') (freeblock st') (<[i := n']> ns);
  gr_size : n_size n' = n_size n;
  gr_frame b : 0 ≤ b → b ∉ blocks n' → blk st' b = blk st b;
  gr_data b : b ∈ n_bs n → blk st' b = blk st b;
  gr_keep b : b ∈ blocks n → b ∈ blocks n';
  gr_head : agree 0 8 (n_din n') (n_din n);
}.

Section grow.
Context (st : mkfs) (ns : list node) (i : nat) (n : node).
Hypothesis Him : image_ok st.
Hypothesis Hal : alloc_ok (blk st) (freeblock st) ns.
Hypothesis Hi : ns !! i = Some n.

Let L := length (n_bs n).

Lemma node_here : node_ok (blk st) n.
Proof. by eapply al_node. Qed.
Lemma block_here b : b ∈ blocks n → 59 ≤ b < freeblock st.
Proof. intros Hb. by apply (al_range _ _ _ Hal i n b). Qed.
Lemma bs_here b : b ∈ n_bs n → b ∈ blocks n.
Proof. intros Hb. unfold blocks, file_blocks. apply elem_of_app. by left. Qed.

Lemma bs_addr k b : n_bs n !! k = Some b → 59 ≤ b < 1000 ∧ xint b = b.
Proof.
  intros Hk. pose proof (block_here b (bs_here _ (list_elem_of_lookup_2 _ _ _ Hk))) as Hb.
  pose proof (al_free _ _ _ Hal) as Hf. unfold FSSIZE in Hf. split; [lia|]. apply xint_small. lia.
Qed.

Lemma ind_here : (NDIRECT < length (n_bs n))%nat →
  0 ≤ addr_of (n_din n) NDIRECT < FSSIZE ∧ xint (addr_of (n_din n) NDIRECT) = addr_of (n_din n) NDIRECT.
Proof.
  intros HL. assert (Hb : addr_of (n_din n) NDIRECT ∈ blocks n).
  { unfold blocks, file_blocks. rewrite decide_True by done. apply elem_of_app. right. by left. }
  apply block_here in Hb. pose proof (al_free _ _ _ Hal) as Hf. unfold FSSIZE in *. split; [lia|]. apply xint_small. lia.
Qed.

(** The block is there already. *)
Lemma iappend_block_there k x : n_bs n !! k = Some x → iappend_block (Z.of_nat k) (n_din n) st = Ok (n_din n, x) st.
Proof.
  intros Hk. pose proof node_here as [N1 N2 N3 [R1 R2 R3 R4 R5]]. destruct (bs_addr k x Hk) as [Hx Ex].
  pose proof (lookup_lt_Some _ _ _ Hk) as Hlt. unfold iappend_block.
  destruct (Z.ltb_spec (Z.of_nat k) (Z.of_nat NDIRECT)) as [Hd|Hd].
  - rewrite din_addr_of, R2, Hk by lia. simpl. rewrite Ex. destruct (Z.eqb_spec x 0); [lia|]. run done.
    rewrite din_addr_of, R2, Hk by lia. simpl. by rewrite Ex.
  - assert (HL : (NDIRECT < length (n_bs n))%nat) by lia. pose proof (ind_here HL) as [Hb Eb].
    rewrite din_addr_of, Eb. destruct (Z.eqb_spec (addr_of (n_din n) NDIRECT) 0); [lia|]. run done.
    rewrite din_addr_of, Eb. run (by apply rsect_ok). cbv zeta.
    replace (Z.to_nat (4 * (Z.of_nat k - Z.of_nat NDIRECT))) with (4 * (k - NDIRECT))%nat by lia.
    assert (Eg : get32 (blk st (addr_of (n_din n) NDIRECT)) (4 * (k - NDIRECT)) = x).
    { rewrite R5 by lia. replace (NDIRECT + (k - NDIRECT))%nat with k by lia. by rewrite Hk. }
    rewrite Eg. destruct (Z.eqb_spec x 0); [lia|]. run done. by rewrite Eg, Ex.
Qed.

(** A new block among the direct ones. *)
Lemma iappend_block_direct :
  (L < NDIRECT)%nat → freeblock st < FSSIZE →
  ∃ st' n', iappend_block (Z.of_nat L) (n_din n) st = Ok (n_din n', freeblock st) st' ∧
    grown st st' ns i n n' ∧ n_bs n' = n_bs n ++ [freeblock st] ∧ freeblock st' = freeblock st + 1.
Proof.
  intros HL Hf. pose proof node_here as [N1 N2 N3 Hrep]. pose proof (al_free _ _ _ Hal) as Hfr. unfold FSSIZE in *.
  set (fb := freeblock st) in *. change nmeta with 59 in Hfr. assert (Ex : xint fb = fb) by (apply xint_small; lia).
  set (n' := mk_node (set_din_addr (Z.of_nat L) (xint fb) (n_din n)) (n_bs n ++ [fb]) (n_size n)).
  assert (Ha : ∀ j, addr_of (n_din n') j = if decide (j = L) then fb else addr_of (n_din n) j).
  { intros j. unfold n'. cbn [n_din]. rewrite set_addr_addr by (done || lia). rewrite Ex. by rewrite u32_small by lia. }
  assert (Hbl : ∀ b, b ∈ blocks n' ↔ b ∈ blocks n ∨ b = fb).
  { intros b. unfold blocks, file_blocks. cbn [n_bs n']. rewrite length_app. unfold NDIRECT in *.
    rewrite !decide_False, !app_nil_r, elem_of_app, list_elem_of_singleton by (simpl; lia). done. }
  exists (set_freeblock (fb + 1) st), n'. split_and!; [| |done|done].
  - unfold iappend_block. rewrite (proj2 (Z.ltb_lt _ _)) by lia.
    rewrite din_addr_of, (fr_direct _ _ _ Hrep), (lookup_ge_None_2 (n_bs n)) by (done || lia).
    change (xint (default 0 None) =? 0) with true. cbv iota.
    run (run (apply next_block_ok; change nmeta with 59; unfold FSSIZE; lia); reflexivity). fold fb.
    change (set_din_addr _ _ _) with (n_din n'). rewrite din_addr_of, Ha, decide_True, Ex by done. done.
  - split; try done; [by destruct Him| |intros b Hb; apply Hbl; by left|apply set_addr_head; [done|lia]]. eapply alloc_update; try done; cbn [img set_freeblock freeblock].
    + split; cbn [n_din n_bs n_size n'].
      * by rewrite set_addr_length by (done || lia).
      * by rewrite set_addr_size by (done || lia).
      * rewrite length_app. cbn [length]. unfold BSIZE in *. lia.
      * eapply file_rep_direct; [done|done|]. intros k _. apply Ha.
    + unfold blocks, file_blocks. cbn [n_bs n']. rewrite length_app. unfold NDIRECT in *. rewrite decide_False, app_nil_r by (simpl; lia).
      apply NoDup_app. split_and!; [|intros b Hb ->%list_elem_of_singleton|apply NoDup_singleton].
      * pose proof (al_nodup _ _ _ Hal i n Hi) as Hnd. by apply NoDup_app in Hnd as (? & _).
      * apply bs_here, block_here in Hb. unfold fb in Hb. lia.
    + unfold FSSIZE. lia.
    + intros b [Hb| ->]%Hbl; [by left|right; lia].
Qed.

(** A new block in the indirect block [a], which is there. *)
Lemma iappend_block_indirect :
  (NDIRECT < L < NDIRECT + NINDIRECT)%nat → freeblock st < FSSIZE →
  ∃ st' n', iappend_block (Z.of_nat L) (n_din n) st = Ok (n_din n', freeblock st) st' ∧
    grown st st' ns i n n' ∧ n_bs n' = n_bs n ++ [freeblock st] ∧ freeblock st' = freeblock st + 1.
Proof.
  intros HL Hf. pose proof node_here as [N1 N2 N3 Hrep]. pose proof (al_free _ _ _ Hal) as Hfr.
  set (fb := freeblock st) in *. change nmeta with 59 in Hfr. assert (Ex : xint fb = fb) by (apply xint_small; unfold FSSIZE in *; lia).
  destruct (ind_here ltac:(unfold L in *; lia)) as [Hb Eb]. set (a := addr_of (n_din n) NDIRECT) in *.
  set (k := (4 * (L - NDIRECT))%nat). set (n' := mk_node (n_din n) (n_bs n ++ [fb]) (n_size n)).
  set (ind := put32 (blk st a) k fb). set (st1 := set_freeblock (fb + 1) st).
  assert (Him1 : image_ok st1) by (by destruct Him).
  assert (Hla : length (blk st a) = 512%nat) by by apply (blk_length st a Him).
  assert (Hfit : (k + 4 ≤ 512)%nat) by (unfold k, NDIRECT, NINDIRECT in *; lia).
  set (st2 := set_img (<[Z.to_nat a := ind]> (img st1)) st1).
  assert (Hv : ∀ b, 0 ≤ b → blk st2 b = fupd a ind (blk st) b) by (intros b Hb0; by apply (blk_write st1)).
  assert (Hbl : ∀ b, b ∈ blocks n' ↔ b ∈ blocks n ∨ b = fb).
  { intros b. unfold blocks, file_blocks. cbn [n_bs n' n_din]. rewrite length_app. fold L. unfold NDIRECT in *.
    rewrite !decide_True, !elem_of_app, !list_elem_of_singleton by (simpl; lia). tauto. }
  assert (Ha : a ∈ blocks n).
  { unfold blocks, file_blocks. fold L. rewrite decide_True by lia. apply elem_of_app. right. by left. }
  assert (Hna : a ∉ n_bs n).
  { pose proof (al_nodup _ _ _ Hal i n Hi) as Hnd. unfold blocks, file_blocks in Hnd. fold L in Hnd. rewrite decide_True in Hnd by lia.
    apply NoDup_app in Hnd as (_ & Hnd & _). intros Hin. apply (Hnd a Hin). by left. }
  exists st2, n'. split_and!; [| |done|done].
  - unfold iappend_block. rewrite (proj2 (Z.ltb_ge _ _)) by lia. rewrite din_addr_of. fold a. rewrite Eb.
    destruct (Z.eqb_spec a 0); [apply block_here in Ha; lia|]. run done. rewrite din_addr_of. fold a. rewrite Eb.
    run (by apply rsect_ok). cbv zeta. replace (Z.to_nat _) with k by (unfold k; lia).
    assert (Eg : get32 (blk st a) k = 0).
    { unfold k, a. rewrite (fr_indirect _ _ _ Hrep) by (fold L; lia).
      rewrite lookup_ge_None_2; [done|]. fold L. lia. }
    rewrite Eg. cbn [Z.eqb].
    run (run (apply next_block_ok; change nmeta with 59; lia); cbv zeta; fold fb; rewrite Ex;
      run (apply wsect_ok; [exact Him1|done]); reflexivity).
    fold ind. unfold ind at 1. rewrite get32_put32 by lia. by rewrite u32_small, Ex by (unfold FSSIZE in *; lia).
  - split; try done.
    + apply image_write; [done|]. unfold ind. rewrite put32_length; [exact Hla|lia].
    + eapply alloc_update; [exact Hal|exact Hi| | |cbn [freeblock st2 st1 set_img set_freeblock]; lia| |].
      * split; cbn [n_din n_bs n_size n']; [done|done|rewrite length_app; cbn [length]; unfold BSIZE in *; lia|].
        eapply file_rep_indirect; [exact Hrep|unfold FSSIZE in *; lia|fold L; lia|done|exact Hla|].
        fold a L k. by rewrite Hv, fupd_eq by lia.
      * unfold blocks, file_blocks. cbn [n_bs n' n_din]. rewrite length_app. fold L a. rewrite decide_True by (simpl; lia).
        pose proof (al_nodup _ _ _ Hal i n Hi) as Hnd. unfold blocks, file_blocks in Hnd. fold L a in Hnd. rewrite decide_True in Hnd by lia.
        rewrite <-app_assoc. rewrite (Permutation_app_comm [fb]), app_assoc. apply NoDup_app.
        split_and!; [done|intros b Hb' ->%list_elem_of_singleton|apply NoDup_singleton].
        assert (fb ∈ blocks n) as Hin by (unfold blocks, file_blocks; fold L a; by rewrite decide_True by lia).
        apply block_here in Hin. unfold fb in Hin. lia.
      * intros b [Hb'| ->]%Hbl; [by left|right; cbn; lia].
      * intros b Hb0 Hb'. change nmeta with 59 in Hb0. rewrite Hv, fupd_ne by (lia || (intros ->; apply Hb', Hbl; by left)). done.
    + intros b Hb0 Hb'. rewrite Hv, fupd_ne by (try done; intros ->; apply Hb', Hbl; by left). done.
    + intros b Hb'. rewrite Hv, fupd_ne; [done| |]; [by intros ->|]. apply bs_here, block_here in Hb'. lia.
    + intros b Hb'. apply Hbl. by left.
Qed.

(** The first block that needs the indirect block takes two free blocks. *)
Lemma iappend_block_first :
  L = NDIRECT → freeblock st + 1 < FSSIZE →
  ∃ st' n', iappend_block (Z.of_nat L) (n_din n) st = Ok (n_din n', freeblock st + 1) st' ∧
    grown st st' ns i n n' ∧ n_bs n' = n_bs n ++ [freeblock st + 1] ∧ freeblock st' = freeblock st + 2.
Proof.
  intros HL Hf. pose proof node_here as [N1 N2 N3 Hrep]. pose proof (al_free _ _ _ Hal) as Hfr.
  set (fb := freeblock st) in *. change nmeta with 59 in Hfr.
  assert (Ex : xint fb = fb) by (apply xint_small; unfold FSSIZE in *; lia).
  assert (Ex' : xint (fb + 1) = fb + 1) by (apply xint_small; unfold FSSIZE in *; lia).
  set (n' := mk_node (set_din_addr (Z.of_nat NDIRECT) (xint fb) (n_din n)) (n_bs n ++ [fb + 1]) (n_size n)).
  assert (Ha : ∀ j, addr_of (n_din n') j = if decide (j = NDIRECT) then fb else addr_of (n_din n) j).
  { intros j. unfold n'. cbn [n_din]. rewrite set_addr_addr by (done || lia). rewrite Ex.
    by rewrite u32_small by (unfold FSSIZE in *; lia). }
  set (ind := put32 zeroes 0 (fb + 1)). set (st1 := set_freeblock (fb + 1 + 1) (set_freeblock (fb + 1) st)).
  assert (Him1 : image_ok st1) by (by destruct Him). assert (Hz : blk st fb = zeroes) by (apply (al_zero _ _ _ Hal); lia).
  set (st2 := set_img (<[Z.to_nat fb := ind]> (img st1)) st1).
  assert (Hv : ∀ b, 0 ≤ b → blk st2 b = fupd fb ind (blk st) b) by (intros b Hb0; apply (blk_write st1); [done|lia|done]).
  assert (Hbn : blocks n = n_bs n) by (unfold blocks, file_blocks; fold L; rewrite decide_False, app_nil_r by lia; done).
  assert (Hbn' : blocks n' = (n_bs n ++ [fb + 1]) ++ [fb]).
  { unfold blocks, file_blocks. cbn [n_bs n']. rewrite length_app. fold L. rewrite decide_True by (simpl; lia).
    by rewrite Ha, decide_True. }
  assert (Hbl : ∀ b, b ∈ blocks n' ↔ b ∈ blocks n ∨ b = fb ∨ b = fb + 1).
  { intros b. rewrite Hbn', Hbn, !elem_of_app, !list_elem_of_singleton. tauto. }
  exists st2, n'. split_and!; [| |done|cbn; lia].
  - unfold iappend_block. rewrite (proj2 (Z.ltb_ge _ _)) by lia. rewrite din_addr_of, (fr_no_indirect _ _ _ Hrep) by (fold L; lia).
    change (xint 0 =? 0) with true. cbv iota.
    run (run (apply next_block_ok; change nmeta with 59; lia); reflexivity). fold fb.
    change (set_din_addr _ _ _) with (n_din n'). rewrite din_addr_of, Ha, decide_True, Ex by done.
    run (apply rsect_ok; [by destruct Him|lia]). cbv zeta. cbn [img set_freeblock]. rewrite Hz.
    replace (Z.to_nat _) with 0%nat by lia. change (get32 zeroes 0 =? 0) with true. cbv iota.
    run (run (apply next_block_ok; change nmeta with 59; cbn [freeblock set_freeblock]; lia); cbv zeta; cbn [freeblock set_freeblock];
      rewrite Ex'; run (apply wsect_ok; [exact Him1|lia]); reflexivity).
    fold ind. unfold ind at 1. rewrite get32_put32 by (simpl; lia). by rewrite u32_small, Ex' by (unfold FSSIZE in *; lia).
  - split; try done.
    + apply image_write; [done|]. unfold ind. by rewrite put32_length by (simpl; lia).
    + eapply alloc_update; [exact Hal|exact Hi| | |cbn [freeblock st2 st1 set_img set_freeblock]; lia| |].
      * split; cbn [n_din n_bs n_size n'].
        -- by rewrite set_addr_length by (done || lia).
        -- by rewrite set_addr_size by (done || lia).
        -- rewrite length_app. cbn [length]. unfold BSIZE in *. lia.
        -- eapply (file_rep_first_indirect _ _ _ _ Hrep) with fb; [unfold FSSIZE in *; lia|done|lia|intros k _; apply Ha|].
           by rewrite Hv, fupd_eq by lia.
      * rewrite Hbn'. pose proof (al_nodup _ _ _ Hal i n Hi) as Hnd. rewrite Hbn in Hnd. rewrite <-app_assoc. apply NoDup_app.
        split_and!; [done| |].
        -- intros b Hb' [->|Hb%list_elem_of_singleton]%elem_of_cons; apply bs_here, block_here in Hb'; lia.
        -- constructor; [rewrite list_elem_of_singleton; lia|apply NoDup_singleton].
      * intros b [Hb'|Hb']%Hbl; [by left|right; cbn; lia].
      * intros b Hb0 Hb'. change nmeta with 59 in Hb0. rewrite Hv, fupd_ne by (lia || (intros ->; apply Hb', Hbl; by right; left)). done.
    + intros b Hb0 Hb'. rewrite Hv, fupd_ne by (try done; intros ->; apply Hb', Hbl; by right; left). done.
    + intros b Hb'. apply bs_here, block_here in Hb'. rewrite Hv, fupd_ne by lia. done.
    + intros b Hb'. apply Hbl. by left.
    + by apply set_addr_head.
Qed.
End grow.

(** ** Appending to a file *)

(** The blocks of a file of [size] bytes, and those blocks with the indirect one. *)
Definition nblk (size : Z) : nat := Z.to_nat ((size + 511) / 512).
Definition cost (l : nat) : Z := Z.of_nat l + if decide (NDIRECT < l)%nat then 1 else 0.

Lemma pushed n n' k x :
  length (n_bs n) = k → n_bs n' = n_bs n ++ [x] →
  n_bs n' !! k = Some x ∧ length (n_bs n') = S k ∧ n_bs n `prefix_of` n_bs n'.
Proof.
  intros HL ->. split_and!; [by rewrite lookup_app_r, HL, Nat.sub_diag by lia| |by apply prefix_app_r].
  rewrite length_app. simpl. lia.
Qed.

Section append.
Context (st : mkfs) (ns : list node) (i : nat) (n : node) (off : Z).
Hypothesis Him : image_ok st.
Hypothesis Hal : alloc_ok (blk st) (freeblock st) ns.
Hypothesis Hi : ns !! i = Some n.
Hypothesis Htight : length (n_bs n) = nblk off.
Hypothesis Hoff : 0 ≤ off < MAXFILE * BSIZE.

Let k := Z.to_nat (off / BSIZE).

Lemma off_block : off = 512 * Z.of_nat k + off mod 512 ∧ (k < 140)%nat ∧ 0 ≤ off mod 512 < 512 ∧
  nblk off = (if decide (off mod 512 = 0) then k else S k).
Proof.
  unfold k, MAXFILE, BSIZE, NDIRECT, NINDIRECT, nblk in *. pose proof (Z.div_mod off 512 ltac:(done)) as Hd.
  pose proof (Z.mod_pos_bound off 512 ltac:(done)) as Hm. assert (0 ≤ off / 512) by (apply Z.div_pos; lia).
  change (Z.of_nat (12 + 128)) with 140 in Hoff. split_and!; try lia.
  case_decide as Hz.
  - f_equal. symmetry. apply (Z.div_unique _ _ _ 511); lia.
  - replace (S (Z.to_nat (off / 512))) with (Z.to_nat (off / 512 + 1)) by lia. f_equal.
    symmetry. apply (Z.div_unique _ _ _ (off mod 512 - 1)); lia.
Qed.

Lemma iappend_block_ok :
  freeblock st + cost (S k) - cost (nblk off) ≤ FSSIZE →
  ∃ st' n' x, iappend_block (off / BSIZE) (n_din n) st = Ok (n_din n', x) st' ∧ grown st st' ns i n n' ∧
    (n_bs n' !! k = Some x ∧ length (n_bs n') = S k ∧ n_bs n `prefix_of` n_bs n') ∧
    freeblock st' = freeblock st + cost (S k) - cost (nblk off).
Proof.
  intros Hroom. destruct off_block as (Ho & Hk & Hm & Hn). rewrite Hn in Hroom, Htight |- *.
  replace (off / BSIZE) with (Z.of_nat k) by (unfold k; rewrite Z2Nat.id; [done|apply Z.div_pos; [lia|done]]).
  case_decide as Hz; unfold cost, NDIRECT in Hroom |- *.
  - destruct (decide (k < 12)%nat) as [H1|H1]; [|destruct (decide (k = 12)%nat) as [H2|H2]].
    + destruct (iappend_block_direct st ns i n Him Hal Hi) as (st' & n' & E & Hg & Ebs & Efb);
        [unfold NDIRECT; lia|repeat case_decide; lia|]. rewrite Htight in E.
      exists st', n', (freeblock st). split; [done|split; [done|split; [by apply pushed|]]]. rewrite !decide_False by lia. lia.
    + destruct (iappend_block_first st ns i n Him Hal Hi) as (st' & n' & E & Hg & Ebs & Efb);
        [unfold NDIRECT; lia|repeat case_decide; lia|]. rewrite Htight in E.
      exists st', n', (freeblock st + 1). split; [done|split; [done|split; [by apply pushed|]]].
      rewrite decide_True, decide_False by lia. lia.
    + destruct (iappend_block_indirect st ns i n Him Hal Hi) as (st' & n' & E & Hg & Ebs & Efb);
        [unfold NDIRECT, NINDIRECT; lia|repeat case_decide; lia|]. rewrite Htight in E.
      exists st', n', (freeblock st). split; [done|split; [done|split; [by apply pushed|]]]. rewrite !decide_True by lia. lia.
  - destruct (lookup_lt_is_Some_2 (n_bs n) k) as [x Hx]; [lia|]. exists st, n, x. split; [|split; [|split; [by split_and!|lia]]].
    + by apply (iappend_block_there st ns i).
    + split; try done. by rewrite list_insert_id.
Qed.
End append.

(** The bytes [c] go into block [k] of the file, at [r]. *)
Lemma write_data st ns i n (k r : nat) c x :
  image_ok st → alloc_ok (blk st) (freeblock st) ns → ns !! i = Some n →
  n_bs n !! k = Some x → (r + length c ≤ 512)%nat →
  let buf := splice r c (blk st x) in
  let st' := set_img (<[Z.to_nat x := buf]> (img st)) st in
  rsect x st = Ok (blk st x) st ∧ wsect x buf st = Ok tt st' ∧ image_ok st' ∧ alloc_ok (blk st') (freeblock st) ns ∧
  (∀ b, 0 ≤ b → b ∉ blocks n → blk st' b = blk st b) ∧
  file_data (blk st') (n_bs n) (512 * Z.of_nat k + Z.of_nat r + Z.of_nat (length c)) =
    file_data (blk st) (n_bs n) (512 * Z.of_nat k + Z.of_nat r) ++ c.
Proof.
  intros Him Hal Hi Hk Hc buf st'. pose proof (list_elem_of_lookup_2 _ _ _ Hk) as Hin.
  assert (Hx : x ∈ blocks n) by (by apply bs_here). destruct (bs_addr st ns i n Hal Hi k x Hk) as [Hr _].
  assert (HxF : 0 ≤ x < FSSIZE) by (unfold FSSIZE; lia).
  assert (Hv : ∀ b, 0 ≤ b → blk st' b = fupd x buf (blk st) b) by (intros b Hb; by apply blk_write).
  assert (Hlx : length (blk st x) = 512%nat) by by apply blk_length.
  assert (Hnd : NoDup (n_bs n)) by (pose proof (al_nodup _ _ _ Hal i n Hi) as Hnd; by apply NoDup_app in Hnd as [? _]).
  assert (Hpos : ∀ b, b ∈ n_bs n → 0 ≤ b < FSSIZE).
  { intros b (j & Hj)%list_elem_of_lookup. destruct (bs_addr st ns i n Hal Hi j b Hj). unfold FSSIZE. lia. }
  assert (Hframe : ∀ b, 0 ≤ b → b ∉ blocks n → blk st' b = blk st b).
  { intros b Hb Hn. rewrite Hv, fupd_ne; [done|by intros ->|done]. }
  split_and!; [by apply rsect_ok|by apply wsect_ok| | |done|].
  - apply image_write; [done|]. unfold buf. rewrite length_splice; [exact Hlx|lia].
  - rewrite <-(list_insert_id ns i n) by done. eapply alloc_update; try done.
    + pose proof (al_node _ _ _ Hal i n Hi) as [N1 N2 N3 N4]. split; try done. eapply file_rep_same; [|exact N4].
      intros HL. destruct (ind_here st ns i n Hal Hi HL) as [Ha _]. rewrite Hv, fupd_ne; [done| |lia].
      intros E. pose proof (al_nodup _ _ _ Hal i n Hi) as Hnb. unfold blocks, file_blocks in Hnb. rewrite decide_True in Hnb by done.
      apply NoDup_app in Hnb as (_ & Hnb & _). apply (Hnb _ Hin). rewrite <-E. by left.
    + by eapply al_nodup.
    + pose proof (al_free _ _ _ Hal). lia.
    + by left.
    + intros b Hb Hn. change nmeta with 59 in Hb. apply Hframe; [lia|done].
  - rewrite (file_data_ext (fupd x buf (blk st))) by (intros b Hb; apply Hv, Hpos, Hb).
    unfold buf. change 512 with BSIZE. apply file_data_append; [done| |done|done].
    intros b Hb. by apply blk_length, Hpos.
Qed.

Lemma nblk_mono a b : a ≤ b → (nblk a ≤ nblk b)%nat.
Proof. intros Hab. unfold nblk. pose proof (Z.div_le_mono (a + 511) (b + 511) 512). lia. Qed.
Lemma cost_mono a b : (a ≤ b)%nat → cost a ≤ cost b.
Proof. intros Hab. unfold cost. repeat case_decide; lia. Qed.

(** The loop of [iappend]: [done] has been appended, [p] is left. *)
Record app_inv (st0 : mkfs) (ns : list node) (i : nat) (n0 : node) (xp : list Z)
    (st : mkfs) (p : list Z) (off : Z) (n : node) : Prop := {
  ap_image : image_ok st;
  ap_inode : freeinode st = freeinode st0;
  ap_alloc : alloc_ok (blk st) (freeblock st) (<[i := n]> ns);
  ap_size : n_size n = n_size n0;
  ap_head : agree 0 8 (n_din n) (n_din n0);
  ap_tight : length (n_bs n) = nblk off;
  ap_off : off = n_size n0 + Z.of_nat (length xp) - Z.of_nat (length p);
  ap_left : (length p ≤ length xp)%nat;
  ap_data : file_data (blk st) (n_bs n) off ++ p = file_data (blk st0) (n_bs n0) (n_size n0) ++ xp;
  ap_frame b : 0 ≤ b → b ∉ blocks n → blk st b = blk st0 b;
  ap_free : freeblock st = freeblock st0 + cost (nblk off) - cost (nblk (n_size n0));
}.

Section iappend.
Context (st0 : mkfs) (ns : list node) (i : nat) (n0 : node) (xp : list Z).
Hypothesis Hlt : (i < length ns)%nat.
Hypothesis Hs0 : 0 ≤ n_size n0.
Hypothesis Hmax : n_size n0 + Z.of_nat (length xp) ≤ MAXFILE * BSIZE.
Hypothesis Hroom : freeblock st0 + cost (nblk (n_size n0 + Z.of_nat (length xp))) - cost (nblk (n_size n0)) ≤ FSSIZE.

(** One iteration. *)
Lemma iappend_step st p off n :
  app_inv st0 ns i n0 xp st p off n → p ≠ [] →
  let n1 := Z.to_nat (Z.min (Z.of_nat (length p)) ((off / BSIZE + 1) * BSIZE - off)) in
  off / BSIZE < MAXFILE ∧ (0 < n1 ≤ length p)%nat ∧
  ∃ st1 st2 n' x, iappend_block (off / BSIZE) (n_din n) st = Ok (n_din n', x) st1 ∧
    rsect x st1 = Ok (blk st1 x) st1 ∧
    wsect x (splice (Z.to_nat (off - off / BSIZE * BSIZE)) (take n1 p) (blk st1 x)) st1 = Ok tt st2 ∧
    app_inv st0 ns i n0 xp st2 (drop n1 p) (off + Z.of_nat n1) n'.
Proof.
  intros [A1 A2 A3 A4 Ah A5 A6 A7 A8 A9 A10] Hp n1.
  assert (Hlp : (0 < length p)%nat) by (destruct p; [done|simpl; lia]).
  assert (Ho : 0 ≤ off < MAXFILE * BSIZE) by lia.
  assert (Hi : <[i:=n]> ns !! i = Some n) by by apply list_lookup_insert_eq.
  destruct (off_block n off A5 Ho) as (Eo & Hk & Hm & Hn). set (k := Z.to_nat (off / BSIZE)) in *.
  assert (Ek : off / BSIZE = Z.of_nat k) by (unfold k; rewrite Z2Nat.id; [done|apply Z.div_pos; [lia|done]]).
  rewrite Ek. unfold n1. rewrite Ek. clear n1. set (n1 := Z.to_nat _).
  assert (Hn1 : (0 < n1 ≤ length p)%nat ∧ 512 * Z.of_nat k < off + Z.of_nat n1 ≤ 512 * Z.of_nat k + 512) by (unfold n1, BSIZE; lia).
  assert (Hnb : nblk (off + Z.of_nat n1) = S k).
  { unfold nblk. rewrite <-(Z.div_unique (off + Z.of_nat n1 + 511) 512 (Z.of_nat k + 1) (off + Z.of_nat n1 - 512 * Z.of_nat k - 1)); lia. }
  assert (Hle : (S k ≤ nblk (n_size n0 + Z.of_nat (length xp)))%nat) by (rewrite <-Hnb; apply nblk_mono; lia).
  destruct (iappend_block_ok st (<[i:=n]> ns) i n off A1 A3 Hi A5 Ho) as (st1 & n' & x & E1 & [G1 G2 G3 G4 G5 G6 G7 G8] & (X1 & X2 & X3) & Ef).
  { apply cost_mono in Hle. fold k. lia. }
  fold k in E1, X1, X2, Ef. rewrite Ek in E1. rewrite list_insert_insert_eq in G3.
  destruct (write_data st1 (<[i:=n']> ns) i n' k (Z.to_nat (off mod 512)) (take n1 p) x G1 G3) as (W1 & W2 & W3 & W4 & W5 & W6);
    [by apply list_lookup_insert_eq|done|rewrite length_take; lia|].
  rewrite length_take, Nat.min_l, Z2Nat.id in W6 by lia. rewrite <-Eo in W6.
  split; [unfold MAXFILE, NDIRECT, NINDIRECT; lia|]. split; [lia|].
  eexists st1, _, n', x. split_and!; [exact E1|exact W1| |].
  { replace (off - Z.of_nat k * BSIZE) with (off mod 512) by (unfold BSIZE; lia). exact W2. }
  destruct X3 as [bs Ebs].
  assert (Hold : file_data (blk st1) (n_bs n') off = file_data (blk st) (n_bs n) off).
  { rewrite Ebs, file_data_app.
    - apply file_data_ext. intros b Hb. by apply G6.
    - intros b Hb. apply blk_length; [done|]. apply bs_here in Hb. apply (al_range _ _ _ A3 i n b Hi) in Hb.
      pose proof (al_free _ _ _ A3). change nmeta with 59 in *. lia.
    - rewrite A5, Hn. unfold BSIZE. case_decide; lia. }
  split; try done.
  - by rewrite <-A2.
  - by rewrite G4.
  - by transitivity (n_din n).
  - by rewrite Hnb.
  - rewrite length_drop. lia.
  - rewrite length_drop. lia.
  - rewrite W6, Hold, <-app_assoc, take_drop. exact A8.
  - intros b Hb Hnb'. rewrite W5, G5, A9; try done. intros Hin. by apply Hnb', G7.
  - cbn [freeblock set_img]. rewrite Ef, A10, Hnb. lia.
Qed.
End iappend.

(** ** The inodes on the image *)

Lemma take_drop_splice (a m o : nat) c (l : list Z) :
  (o + length c ≤ length l)%nat → (a + m ≤ o ∨ o + length c ≤ a)%nat →
  take m (drop a (splice o c l)) = take m (drop a l).
Proof.
  intros Hl [Ha|Ha]; unfold splice.
  - rewrite <-(take_drop o l) at 3. rewrite !drop_app_le, !take_app_le; rewrite ?length_drop, ?length_take; try lia. done.
  - rewrite app_assoc, drop_app_ge by (rewrite length_app, length_take; lia). rewrite drop_drop. do 2 f_equal.
    rewrite length_app, length_take. lia.
Qed.
Lemma take_drop_splice_eq (o : nat) c (l : list Z) :
  (o + length c ≤ length l)%nat → take (length c) (drop o (splice o c l)) = c.
Proof.
  intros Hl. unfold splice. rewrite drop_app_length' by (rewrite length_take; lia). by rewrite take_app_length.
Qed.

(** Where the inode is: in block [32 + inum / 8]. *)
Definition iblock (inum : Z) : Z := 32 + inum / 8.
Definition disk_din (val : Z → list Z) (inum : Z) : list Z :=
  take 64 (drop (dip_off inum) (val (iblock inum))).

Lemma iblock_eq st inum : image_ok st → 0 ≤ inum < NINODES → IBLOCK inum (sb st) = iblock inum ∧ 32 ≤ iblock inum < 58.
Proof.
  intros Him Hn. unfold IBLOCK, iblock, NINODES in *. rewrite (im_sb _ Him). change IPB with 8. cbn [sb_inodestart the_sb].
  assert (0 ≤ inum / 8 < 25) by (split; [apply Z.div_pos; lia|apply Z.div_lt_upper_bound; lia]).
  rewrite u32_small by lia. lia.
Qed.
Lemma dip_off_eq inum : dip_off inum = (64 * Z.to_nat (inum mod 8))%nat ∧ 0 ≤ inum mod 8 < 8.
Proof.
  unfold dip_off. change IPB with 8. unfold sizeof_dinode. pose proof (Z.mod_pos_bound inum 8 ltac:(done)). lia.
Qed.

Lemma rinode_ok st inum : image_ok st → 0 ≤ inum < NINODES → rinode inum st = Ok (disk_din (blk st) inum) st.
Proof.
  intros Him Hn. destruct (iblock_eq st inum Him Hn) as [E Hb]. unfold rinode. run done. rewrite E.
  run (apply rsect_ok; [done|unfold FSSIZE; lia]). done.
Qed.

Lemma winode_ok st inum din :
  image_ok st → 0 ≤ inum < NINODES → length din = 64%nat →
  ∃ st', winode inum din st = Ok tt st' ∧ image_ok st' ∧ freeinode st' = freeinode st ∧ freeblock st' = freeblock st ∧
    (∀ b, 0 ≤ b → b < 32 ∨ 58 ≤ b → blk st' b = blk st b) ∧
    disk_din (blk st') inum = din ∧
    ∀ j, 0 ≤ j < NINODES → j ≠ inum → disk_din (blk st') j = disk_din (blk st) j.
Proof.
  intros Him Hn Hl. destruct (iblock_eq st inum Him Hn) as [E Hb]. destruct (dip_off_eq inum) as [Ed Hd].
  assert (Hlb : length (blk st (iblock inum)) = 512%nat) by (apply blk_length; [done|unfold FSSIZE; lia]).
  set (buf := splice (dip_off inum) din (blk st (iblock inum))). set (st' := set_img (<[Z.to_nat (iblock inum) := buf]> (img st)) st).
  assert (Hv : ∀ b, 0 ≤ b → blk st' b = fupd (iblock inum) buf (blk st) b).
  { intros b H0. apply blk_write; [done|unfold FSSIZE; lia|done]. }
  exists st'. split_and!; try done.
  - unfold winode. run done. rewrite E. cbv zeta. run (apply rsect_ok; [done|unfold FSSIZE; lia]).
    apply wsect_ok; [done|unfold FSSIZE; lia].
  - apply image_write; [done|]. unfold buf. rewrite length_splice; [exact Hlb|lia].
  - intros b H0 Hb'. rewrite Hv, fupd_ne by lia. done.
  - unfold disk_din. rewrite Hv, fupd_eq by lia. unfold buf. rewrite <-Hl at 1. apply take_drop_splice_eq. lia.
  - intros j Hj Hne. unfold disk_din. destruct (iblock_eq st j Him Hj) as [_ Hbj]. destruct (dip_off_eq j) as [Ej Hdj].
    rewrite Hv by lia. unfold fupd. case_decide as Ei; [|done]. rewrite Ei. unfold buf.
    apply take_drop_splice; [lia|]. unfold iblock in Ei. pose proof (Z.div_mod j 8 ltac:(done)). pose proof (Z.div_mod inum 8 ltac:(done)).
    lia.
Qed.

(** ** The file system under construction *)

Definition sb_block : list Z := splice 0 (sb_bytes the_sb) zeroes.

(** [ns] are the inodes from number 1 on. *)
Record fs_ok (st : mkfs) (ns : list node) : Prop := {
  fs_image : image_ok st;
  fs_alloc : alloc_ok (blk st) (freeblock st) ns;
  fs_inode : freeinode st = 1 + Z.of_nat (length ns);
  fs_count : freeinode st ≤ NINODES;
  fs_din i n : ns !! i = Some n → disk_din (blk st) (Z.of_nat i + 1) = n_din n;
  fs_tight i n : ns !! i = Some n → length (n_bs n) = nblk (n_size n);
  fs_super : blk st 1 = sb_block;
  fs_log b : 2 ≤ b < 32 → blk st b = zeroes;
}.

Definition data (st : mkfs) (n : node) : list Z := file_data (blk st) (n_bs n) (n_size n).

(** What an operation on file [i] leaves alone. *)
Definition others (st st' : mkfs) (ns : list node) (i : nat) : Prop :=
  ∀ j m, ns !! j = Some m → j ≠ i → data st' m = data st m.

Lemma iappend_loop st0 ns i n0 xp :
  (i < length ns)%nat → 0 ≤ n_size n0 → n_size n0 + Z.of_nat (length xp) ≤ MAXFILE * BSIZE →
  freeblock st0 + cost (nblk (n_size n0 + Z.of_nat (length xp))) - cost (nblk (n_size n0)) ≤ FSSIZE →
  ∀ fuel p off n st, (length p < fuel)%nat → app_inv st0 ns i n0 xp st p off n →
  ∃ st' n', loop fuel (λ '(p, off, din),
    if negb (0 <? Z.of_nat (length p)) then ret (inr (off, din))
    else
      let fbn := off / BSIZE in
      if negb (fbn <? MAXFILE) then panic "assert"
      else
        let! r := iappend_block fbn din in
        let '(din, x) := r in
        let n1 := Z.min (Z.of_nat (length p)) ((fbn + 1) * BSIZE - off) in
        let! buf := rsect x in
        wsect x (splice (Z.to_nat (off - fbn * BSIZE)) (take (Z.to_nat n1) p) buf) ;;
        ret (inl (drop (Z.to_nat n1) p, off + n1, din))) (p, off, n_din n) st =
    Ok (n_size n0 + Z.of_nat (length xp), n_din n') st' ∧
    app_inv st0 ns i n0 xp st' [] (n_size n0 + Z.of_nat (length xp)) n'.
Proof.
  intros Hlt Hs0 Hmax Hroom. induction fuel as [|fuel IH]; intros p off n st Hf Ha; [lia|].
  destruct (decide (p = [])) as [->|Hp].
  - exists st, n. pose proof (ap_off _ _ _ _ _ _ _ _ _ Ha) as Eo. simpl in Eo. rewrite Z.sub_0_r in Eo. subst off.
    split; [|done]. by apply loop_Ok.
  - destruct (iappend_step st0 ns i n0 xp Hlt Hs0 Hmax Hroom st p off n Ha Hp) as (Hm & Hn1 & st1 & st2 & n' & x & E1 & E2 & E3 & Ha').
    set (n1 := Z.to_nat (Z.min _ _)) in *.
    destruct (IH (drop n1 p) (off + Z.of_nat n1) n' st2) as (st' & n'' & E & Ha''); [rewrite length_drop; lia|done|].
    exists st', n''. split; [|done]. rewrite <-E. apply loop_next.
    rewrite (proj2 (Z.ltb_lt 0 _)) by lia. cbn [negb]. cbv zeta. rewrite (proj2 (Z.ltb_lt _ _)) by done. cbn [negb].
    run exact E1. cbv iota. run exact E2. fold n1. run exact E3. do 3 f_equal. f_equal. unfold n1. lia.
Qed.

Section size.
Context (din : list Z) (v : Z).
Hypothesis Hlen : length din = 64%nat.

Lemma set_size_length : length (set_din_size v din) = 64%nat.
Proof. unfold set_din_size. rewrite put32_length; lia. Qed.
Lemma set_size_size : din_size (set_din_size v din) = u32 v.
Proof. apply get32_put32. lia. Qed.
Lemma set_size_addr k : addr_of (set_din_size v din) k = addr_of din k.
Proof. apply get32_agree, splice_agree; simpl; lia. Qed.
Lemma set_size_head : agree 0 8 (set_din_size v din) din.
Proof. apply splice_agree; simpl; lia. Qed.
End size.

Definition resized (off : Z) (n : node) : node := mk_node (set_din_size (xint off) (n_din n)) (n_bs n) off.

Lemma blocks_resized off n : length (n_din n) = 64%nat → blocks (resized off n) = blocks n.
Proof.
  intros Hl. unfold blocks, file_blocks. cbn [n_bs resized n_din]. case_decide; [|done]. by rewrite set_size_addr.
Qed.

Lemma nblk_fits off : 0 ≤ off → off ≤ 512 * Z.of_nat (nblk off).
Proof.
  intros Ho. unfold nblk. pose proof (Z.div_mod (off + 511) 512 ltac:(done)). pose proof (Z.mod_pos_bound (off + 511) 512 ltac:(done)).
  assert (0 ≤ (off + 511) / 512) by (apply Z.div_pos; lia). lia.
Qed.

(** The new size of a file goes into its inode. *)
Lemma alloc_resized st val ns i n off :
  alloc_ok (blk st) (freeblock st) ns → ns !! i = Some n → (∀ b, 58 ≤ b → val b = blk st b) →
  0 ≤ off < 2 ^ 32 → length (n_bs n) = nblk off → alloc_ok val (freeblock st) (<[i := resized off n]> ns).
Proof.
  intros Hal Hi Hv Ho Ht. pose proof (al_node _ _ _ Hal i n Hi) as [M1 M2 M3 M4]. eapply alloc_update; try done.
  - split; cbn [n_din n_bs n_size resized]; [by apply set_size_length| | |].
    + rewrite set_size_size by done. rewrite xint_u32. unfold u32. rewrite Zmod_mod. by apply Z.mod_small.
    + rewrite Ht. pose proof (nblk_fits off). unfold BSIZE. lia.
    + destruct M4 as [R1 R2 R3 R4 R5]. split; [done|intros k|rewrite set_size_addr..|intros j]; rewrite ?set_size_addr; try done; [by apply R2|].
      intros HL Hj. rewrite Hv; [by apply R5|].
      assert (Hin : addr_of (n_din n) NDIRECT ∈ blocks n) by (unfold blocks, file_blocks; rewrite decide_True by done; apply elem_of_app; right; by left).
      apply (al_range _ _ _ Hal i n _ Hi) in Hin. change nmeta with 59 in Hin. lia.
  - rewrite blocks_resized by done. by eapply al_nodup.
  - pose proof (al_free _ _ _ Hal). lia.
  - intros b. rewrite blocks_resized by done. by left.
  - intros b Hb _. change nmeta with 59 in Hb. apply Hv. lia.
Qed.

Lemma data_ext st st' n : (∀ b, b ∈ n_bs n → blk st' b = blk st b) → data st' n = data st n.
Proof. apply file_data_ext. Qed.

(** iappend appends to the file, and leaves the other files alone. *)
Lemma iappend_ok st ns i n xp :
  fs_ok st ns → ns !! i = Some n → n_size n + Z.of_nat (length xp) ≤ MAXFILE * BSIZE →
  freeblock st + cost (nblk (n_size n + Z.of_nat (length xp))) - cost (nblk (n_size n)) ≤ FSSIZE →
  ∃ st' n', iappend (Z.of_nat i + 1) xp st = Ok tt st' ∧ fs_ok st' (<[i := n']> ns) ∧
    n_size n' = n_size n + Z.of_nat (length xp) ∧ data st' n' = data st n ++ xp ∧ others st st' ns i ∧
    agree 0 8 (n_din n') (n_din n) ∧
    freeblock st' = freeblock st + cost (nblk (n_size n + Z.of_nat (length xp))) - cost (nblk (n_size n)).
Proof.
  intros Hfs Hi Hmax Hroom. pose proof Hfs as [F1 F2 F3 F4 F5 F6 F7 F8].
  pose proof (lookup_lt_Some _ _ _ Hi) as Hlt. pose proof (al_node _ _ _ F2 i n Hi) as [N1 N2 N3 N4].
  assert (Hinum : 0 ≤ Z.of_nat i + 1 < NINODES) by lia.
  destruct (iappend_loop st ns i n xp Hlt ltac:(lia) Hmax Hroom (2 + length xp) xp (n_size n) n st) as (st1 & n1 & E & Ha); [lia| |].
  { split; try done; [by rewrite list_insert_id|by eapply F6|lia|lia]. }
  pose proof Ha as [A1 A2 A3 A4 Ah A5 A6 A7 A8 A9 A10]. set (off := n_size n + Z.of_nat (length xp)) in *.
  assert (Ho : 0 ≤ off < 2 ^ 32) by (unfold MAXFILE, NDIRECT, NINDIRECT, BSIZE in *; lia).
  assert (Hi1 : <[i:=n1]> ns !! i = Some n1) by by apply list_lookup_insert_eq.
  pose proof (al_node _ _ _ A3 i n1 Hi1) as [M1 M2 M3 M4].
  destruct (winode_ok st1 (Z.of_nat i + 1) (n_din (resized off n1)) A1 Hinum) as (st2 & Ew & W1 & W2 & W3 & W4 & W5 & W6); [by apply set_size_length|].
  assert (Hlow : ∀ b, 0 ≤ b < 59 → blk st1 b = blk st b).
  { intros b Hb. apply A9; [lia|]. intros Hin. apply (al_range _ _ _ A3 i n1 b Hi1) in Hin. change nmeta with 59 in Hin. lia. }
  assert (Hbs : ∀ j m b, <[i:=n1]> ns !! j = Some m → b ∈ n_bs m → blk st2 b = blk st1 b).
  { intros j m b Hj Hb. apply bs_here, (al_range _ _ _ A3 j m b Hj) in Hb. change nmeta with 59 in Hb. apply W4; lia. }
  pose proof (alloc_resized st1 (blk st2) _ i n1 off A3 Hi1 ltac:(intros b Hb; apply W4; lia) Ho A5) as Hal2.
  rewrite list_insert_insert_eq, <-W3 in Hal2.
  exists st2, (resized off n1). split_and!.
  - unfold iappend. run (by apply rinode_ok). cbv zeta. rewrite (F5 i n Hi), N2, xint_small by lia. run exact E. exact Ew.
  - split; try done.
    + by rewrite W2, A2, length_insert.
    + by rewrite W2, A2.
    + intros j m [(<- & <- & _)|(Hij & Hj)]%list_lookup_insert_Some; [done|]. rewrite <-(F5 j m Hj).
      pose proof (lookup_lt_Some _ _ _ Hj). rewrite W6 by lia. unfold disk_din. destruct (iblock_eq st (Z.of_nat j + 1) F1) as [_ Hb]; [lia|].
      by rewrite Hlow by lia.
    + intros j m [(<- & <- & _)|(Hij & Hj)]%list_lookup_insert_Some; [done|by eapply F6].
    + by rewrite W4, Hlow by lia.
    + intros b Hb. rewrite W4, Hlow by lia. by apply F8.
  - done.
  - rewrite app_nil_r in A8. unfold data at 2. rewrite <-A8. apply file_data_ext. intros b Hb. by eapply (Hbs i n1).
  - intros j m Hj Hij. apply data_ext. intros b Hb.
    assert (Hj1 : <[i:=n1]> ns !! j = Some m) by by rewrite list_lookup_insert_ne.
    rewrite (Hbs j m b Hj1 Hb). apply bs_here in Hb. apply A9.
    + apply (al_range _ _ _ A3 j m b Hj1) in Hb. change nmeta with 59 in Hb. lia.
    + intros Hb'. apply Hij. by eapply (al_disj _ _ _ A3 j i m n1 b).
  - etrans; [by apply set_size_head|done].
  - by rewrite W3.
Qed.

(** ** New inodes *)

Definition new_din (type : Z) : list Z :=
  set_din_size (xint 0) (put16 (put16 (replicate 64 0) 0 (xshort type)) 6 (xshort 1)).

Lemma xshort_u16 x : xshort x = u16 x.
Proof.
  unfold xshort, u8, u16. rewrite !Z.shiftr_div_pow2 by lia.
  change (2 ^ 8) with 256. change (2 ^ 16) with (256 * 256). rewrite !Z.rem_mul_r by lia. lia.
Qed.

Lemma get32_zeroes n k : get32 (replicate n 0) k = 0.
Proof. unfold get32. by rewrite !nth_zeroes. Qed.

Section new_din.
Context (type : Z).
Let d1 := put16 (replicate 64 0) 0 (xshort type).
Let d2 := put16 d1 6 (xshort 1).

Lemma new_din_lengths : length d1 = 64%nat ∧ length d2 = 64%nat ∧ length (new_din type) = 64%nat.
Proof.
  assert (H1 : length d1 = 64%nat) by (unfold d1; rewrite put16_length; simpl; lia).
  assert (H2 : length d2 = 64%nat) by (unfold d2; rewrite put16_length; simpl; lia).
  split_and!; [done|done|by apply set_size_length].
Qed.
Lemma new_din_addr k : addr_of (new_din type) k = 0.
Proof.
  destruct new_din_lengths as (H1 & H2 & H3). unfold new_din. rewrite set_size_addr by done. unfold addr_of.
  rewrite (get32_agree _ _ d1) by (apply splice_agree; simpl; lia).
  rewrite (get32_agree _ _ (replicate 64 0)) by (apply splice_agree; simpl; lia). apply get32_zeroes.
Qed.
Lemma new_din_size : din_size (new_din type) = 0.
Proof. destruct new_din_lengths as (H1 & H2 & H3). unfold new_din. by rewrite set_size_size. Qed.
Lemma new_din_type : get16 (new_din type) 0 = u16 type.
Proof.
  destruct new_din_lengths as (H1 & H2 & H3). unfold new_din.
  rewrite (get16_agree _ _ d2) by (apply (splice_agree 8); simpl; lia).
  rewrite (get16_agree _ _ d1) by (apply splice_agree; simpl; lia).
  unfold d1. rewrite get16_put16, xshort_u16 by (simpl; lia). unfold u16. by rewrite Zmod_mod.
Qed.
End new_din.

Lemma ialloc_ok st ns type :
  fs_ok st ns → freeinode st < NINODES →
  let n := mk_node (new_din type) [] 0 in
  ∃ st', ialloc type st = Ok (Z.of_nat (length ns) + 1) st' ∧ fs_ok st' (ns ++ [n]) ∧
    (∀ m j, ns !! j = Some m → data st' m = data st m) ∧ freeblock st' = freeblock st.
Proof.
  intros [F1 F2 F3 F4 F5 F6 F7 F8] Hc n. destruct (new_din_lengths type) as (_ & _ & Hl).
  set (st1 := set_freeinode (freeinode st + 1) st). assert (Him1 : image_ok st1) by (by destruct F1).
  destruct (winode_ok st1 (freeinode st) (new_din type) Him1) as (st2 & Ew & W1 & W2 & W3 & W4 & W5 & W6); [lia|done|].
  assert (Hbs : ∀ j m b, ns !! j = Some m → b ∈ blocks m → blk st2 b = blk st b).
  { intros j m b Hj Hb. apply (al_range _ _ _ F2 j m b Hj) in Hb. change nmeta with 59 in Hb. apply W4; lia. }
  assert (Hsnoc : ∀ j m, (ns ++ [n]) !! j = Some m → ns !! j = Some m ∨ j = length ns ∧ m = n).
  { intros j m [Hj|[Hj Hm]]%lookup_app_Some; [by left|]. right. destruct (j - length ns)%nat eqn:Ej; [|done].
    simpl in Hm. split; [lia|congruence]. }
  assert (Hnil : blocks n = []) by done.
  exists st2. split_and!.
  - unfold ialloc. run done. run (unfold modify; rewrite u32_small by (unfold NINODES in *; lia); reflexivity). cbv zeta.
    fold st1. change (set_din_size _ _) with (new_din type). run exact Ew. unfold ret. do 2 f_equal. lia.
  - destruct F2 as [L1 L2 L3 L4 L5 L6]. change nmeta with 59 in *. split; try done.
    + split.
      * intros j m [Hj|[-> ->]]%Hsnoc; [eapply node_ok_ext; [|by eapply L1]; intros b Hb; by eapply Hbs|].
        split; [done|apply new_din_size|cbn; lia|]. split; cbn [n_bs n n_din length]; unfold NDIRECT, NINDIRECT; try lia.
        -- intros k _. by rewrite new_din_addr.
        -- intros _. apply new_din_addr.
      * intros j m [Hj|[-> ->]]%Hsnoc; [by eapply L2|rewrite Hnil; constructor].
      * intros j k m m' b [Hj|[-> ->]]%Hsnoc [Hk|[-> ->]]%Hsnoc Hb Hb'; rewrite ?Hnil in *; try (by apply not_elem_of_nil in Hb || by apply not_elem_of_nil in Hb').
        by eapply L3.
      * intros j m b [Hj|[-> ->]]%Hsnoc Hb; rewrite ?Hnil in *; [|by apply not_elem_of_nil in Hb]. rewrite W3. by eapply L4.
      * by rewrite W3.
      * intros b Hb. rewrite W3 in Hb. cbn in Hb. rewrite W4 by lia. by apply L6.
    + rewrite W2, length_app. cbn. lia.
    + rewrite W2. cbn. lia.
    + intros j m [Hj|[-> ->]]%Hsnoc; [|by replace (Z.of_nat (length ns) + 1) with (freeinode st) by lia].
      pose proof (lookup_lt_Some _ _ _ Hj). rewrite W6 by lia. by apply F5.
    + intros j m [Hj|[-> ->]]%Hsnoc; [by eapply F6|done].
    + by rewrite W4 by lia.
    + intros b Hb. rewrite W4 by lia. by apply F8.
  - intros m j Hj. apply data_ext. intros b Hb. by eapply Hbs, bs_here.
  - done.
Qed.

(** ** Whole files *)

(** The bytes that a sequence of reads brings, up to the end of the file. *)
Fixpoint got (reads : list (list Z)) : list Z :=
  match reads with
  | [] | [] :: _ => []
  | buf :: reads => buf ++ got reads
  end.

(** The blocks of a file with these contents. *)
Definition space (c : list Z) : Z := cost (nblk (Z.of_nat (length c))).

(** Node [n] holds a file of type [type] with contents [c]. *)
Record holds_file (st : mkfs) (type : Z) (c : list Z) (n : node) : Prop := {
  hf_type : get16 (n_din n) 0 = type;
  hf_size : n_size n = Z.of_nat (length c);
  hf_data : data st n = c;
}.

Lemma holds_same st st' type c n : data st' n = data st n → holds_file st type c n → holds_file st' type c n.
Proof. intros E [H1 H2 H3]. split; try done. congruence. Qed.

Lemma space_mono c c' : (length c ≤ length c')%nat → space c ≤ space c'.
Proof. intros Hl. apply cost_mono, nblk_mono. lia. Qed.

Lemma append_file st ns i n type c xp :
  fs_ok st ns → ns !! i = Some n → holds_file st type c n → Z.of_nat (length (c ++ xp)) ≤ MAXFILE * BSIZE →
  freeblock st + space (c ++ xp) - space c ≤ FSSIZE →
  ∃ st' n', iappend (Z.of_nat i + 1) xp st = Ok tt st' ∧ fs_ok st' (<[i := n']> ns) ∧
    holds_file st' type (c ++ xp) n' ∧ others st st' ns i ∧ freeblock st' = freeblock st + space (c ++ xp) - space c.
Proof.
  intros Hfs Hi [H1 H2 H3] Hmax Hroom. unfold space in *. rewrite length_app, Nat2Z.inj_add in *.
  destruct (iappend_ok st ns i n xp Hfs Hi) as (st' & n' & E & Hfs' & Es & Ed & Ho & Hh & Ef); rewrite H2 in *; [done..|].
  exists st', n'. split_and!; try done. split.
  - rewrite <-H1. apply get16_agree. intros j Hj. apply Hh. lia.
  - by rewrite length_app, Nat2Z.inj_add.
  - by rewrite Ed, H3.
Qed.

Lemma copy_file_ok reads st ns i n type c :
  fs_ok st ns → ns !! i = Some n → holds_file st type c n → Z.of_nat (length (c ++ got reads)) ≤ MAXFILE * BSIZE →
  freeblock st + space (c ++ got reads) - space c ≤ FSSIZE →
  ∃ st' n', copy_file (Z.of_nat i + 1) reads st = Ok tt st' ∧ fs_ok st' (<[i := n']> ns) ∧
    holds_file st' type (c ++ got reads) n' ∧ others st st' ns i ∧
    freeblock st' = freeblock st + space (c ++ got reads) - space c.
Proof.
  revert st ns n c. induction reads as [|buf reads IH]; intros st ns n c Hfs Hi Hh Hmax Hroom.
  { exists st, n. simpl in *. rewrite app_nil_r, list_insert_id by done. split_and!; try done. lia. }
  destruct buf as [|z buf].
  { exists st, n. simpl in *. rewrite app_nil_r, list_insert_id by done. split_and!; try done. lia. }
  cbn [got copy_file] in *. set (b := z :: buf) in *. rewrite app_assoc in *.
  pose proof (space_mono (c ++ b) ((c ++ b) ++ got reads)) as Hm. rewrite (length_app (c ++ b)) in Hm, Hmax.
  destruct (append_file st ns i n type c b Hfs Hi Hh) as (st1 & n1 & E1 & Hfs1 & Hh1 & Ho1 & Ef1); [lia|lia|].
  destruct (IH st1 (<[i:=n1]> ns) n1 (c ++ b) Hfs1) as (st2 & n2 & E2 & Hfs2 & Hh2 & Ho2 & Ef2);
    [apply list_lookup_insert_eq; by eapply lookup_lt_Some|done|rewrite length_app; lia|lia|].
  rewrite list_insert_insert_eq in Hfs2. exists st2, n2. split_and!; try done.
  - run exact E1. exact E2.
  - intros j m Hj Hij. rewrite (Ho2 j m), (Ho1 j m); [done|done|done| |done]. by rewrite list_lookup_insert_ne.
  - lia.
Qed.

(** ** The files of the command line *)

Definition strip (name : list Z) : list Z :=
  match name with c :: name' => if c =? 95 then name' else name | [] => name end.

(** The root directory: [.], [..], and one entry per file, from inode 2 on. *)
Definition entries (fs : list (list Z * list Z)) : list Z :=
  mk_de 1 [46] ++ mk_de 1 [46; 46] ++ concat (imap (λ k f, mk_de (Z.of_nat k + 2) (strip (fst f))) fs).

Definition total_space (fs : list (list Z * list Z)) : Z :=
  space (entries fs) + foldr (λ f, Z.add (space (snd f))) 0 fs.

Record built (st : mkfs) (fs : list (list Z * list Z)) (root : node) (files : list node) : Prop := {
  bu_fs : fs_ok st (root :: files);
  bu_root : holds_file st T_DIR (entries fs) root;
  bu_files : Forall2 (λ f n, holds_file st T_FILE (snd f) n) fs files;
  bu_free : freeblock st = nmeta + total_space fs;
}.

Lemma length_mk_de inum name : length (mk_de inum name) = 16%nat.
Proof.
  unfold mk_de, DIRSIZ. pose proof (length_take name 14). rewrite length_splice; rewrite put16_length; simpl; lia.
Qed.

Lemma entries_snoc fs f : entries (fs ++ [f]) = entries fs ++ mk_de (Z.of_nat (length fs) + 2) (strip (fst f)).
Proof.
  unfold entries. rewrite imap_app, concat_app. cbn [imap concat]. by rewrite app_nil_r, Nat.add_0_r, <-!app_assoc.
Qed.
Lemma length_entries fs : length (entries fs) = (16 * (2 + length fs))%nat.
Proof.
  induction fs as [|f fs IH] using rev_ind; [unfold entries; by rewrite !length_app, !length_mk_de|].
  rewrite entries_snoc, !length_app, IH, length_mk_de. simpl. lia.
Qed.

Lemma total_space_snoc fs f :
  total_space (fs ++ [f]) = total_space fs + space (entries (fs ++ [f])) - space (entries fs) + space (snd f).
Proof.
  unfold total_space. rewrite foldr_app. cbn [foldr]. rewrite Z.add_0_r.
  assert (E : ∀ z, foldr (λ f, Z.add (space (snd f))) z fs = foldr (λ f, Z.add (space (snd f))) 0 fs + z).
  { intros z. induction fs as [|g gs IH]; cbn [foldr]; [lia|]. rewrite IH. lia. }
  rewrite E. lia.
Qed.

Lemma space_nonneg c : 0 ≤ space c.
Proof. unfold space, cost. case_decide; lia. Qed.

Lemma add_file_ok st fs root files name reads :
  built st fs root files → existsb (λ c, c =? 47) name = false → 2 + Z.of_nat (length fs) < NINODES →
  Z.of_nat (length (got reads)) ≤ MAXFILE * BSIZE → nmeta + total_space (fs ++ [(name, got reads)]) ≤ FSSIZE →
  ∃ st' root' files', add_file ROOTINO (name, Some reads) st = Ok tt st' ∧ built st' (fs ++ [(name, got reads)]) root' files'.
Proof.
  intros [B1 B2 B3 B4] Hname Hc Hmax Hroom. set (f := (name, got reads)) in *.
  pose proof (Forall2_length _ _ _ B3) as Hlen. pose proof (fs_inode _ _ B1) as Hin. cbn [length] in Hin.
  rewrite total_space_snoc in Hroom. pose proof (space_nonneg (got reads)). change (snd f) with (got reads) in Hroom.
  set (de := mk_de (Z.of_nat (length fs) + 2) (strip name)).
  assert (Ede : entries (fs ++ [f]) = entries fs ++ de) by apply entries_snoc. rewrite Ede in *.
  destruct (ialloc_ok st (root :: files) T_FILE B1) as (st1 & E1 & Hfs1 & Ho1 & Ef1); [lia|].
  set (n := mk_node (new_din T_FILE) [] 0) in *.
  destruct (append_file st1 ((root :: files) ++ [n]) 0 root T_DIR (entries fs) de Hfs1) as (st2 & root' & E2 & Hfs2 & Hh2 & Ho2 & Ef2).
  { done. } { by eapply holds_same; [apply (Ho1 root 0%nat)|]. }
  { rewrite length_app, length_entries. unfold de. rewrite length_mk_de. unfold MAXFILE, NDIRECT, NINDIRECT, BSIZE, NINODES in *. lia. }
  { lia. }
  set (i := length (root :: files)). cbn [app insert list_insert] in Hfs2.
  assert (Hi : (root' :: files ++ [n]) !! i = Some n) by (apply (list_lookup_middle (root' :: files) []); done).
  assert (Hn : holds_file st2 T_FILE [] n) by (split; [apply new_din_type|done|done]).
  destruct (copy_file_ok reads st2 (root' :: files ++ [n]) i n T_FILE [] Hfs2 Hi Hn Hmax) as (st3 & n' & E3 & Hfs3 & Hh3 & Ho3 & Ef3).
  { change (space []) with 0. change ([] ++ got reads) with (got reads). lia. }
  exists st3, root', (files ++ [n']). split.
  - unfold add_file. rewrite Hname. cbv zeta. fold (strip name). run exact E1. unfold i in E3. cbn [length] in *.
    replace (mk_de _ _) with de by (unfold de; f_equal; lia). run exact E2. exact E3.
  - assert (Efs : <[i:=n']> (root' :: files ++ [n]) = root' :: files ++ [n']).
    { replace i with (length (root' :: files) + 0)%nat by (unfold i; cbn; lia). apply (insert_app_r (root' :: files)). }
    rewrite Efs in Hfs3. split; [done| | |].
    + rewrite Ede. by eapply holds_same; [apply (Ho3 0%nat root'); [done|unfold i; done]|].
    + apply Forall2_app; [|constructor; [exact Hh3|constructor]]. apply Forall2_same_length_lookup_2; [done|]. intros j g m Hg Hm.
      pose proof (lookup_lt_Some _ _ _ Hm). assert (Hj : (root' :: files ++ [n]) !! S j = Some m) by (by apply (lookup_app_l_Some files [n])).
      eapply holds_same; [by apply (Ho3 (S j) m); [|unfold i; cbn; lia]|].
      eapply holds_same; [by apply (Ho2 (S j) m)|]. eapply holds_same; [by apply (Ho1 m (S j))|].
      by eapply Forall2_lookup_lr in B3.
    + rewrite total_space_snoc, Ede, Ef3, Ef2, Ef1, B4. change (space []) with 0. change (snd f) with (got reads). cbn [app]. lia.
Qed.

(** ** The start of main *)

Lemma wsect_grow k st : img st = replicate k zeroes → Z.of_nat k < FSSIZE → (k < host_room st)%nat →
  wsect (Z.of_nat k) zeroes st = Ok tt (set_img (replicate (S k) zeroes) st).
Proof.
  intros Ei Hk Hr. unfold wsect. rewrite sector_small, Nat2Z.id, Ei, length_replicate by lia.
  rewrite bool_decide_eq_false_2 by lia.
  replace (S k - k)%nat with 1%nat by lia. do 2 f_equal. rewrite insert_app_r_alt by (rewrite length_replicate; lia).
  rewrite length_replicate, Nat.sub_diag. by rewrite (replicate_S_end k).
Qed.

Lemma zero_image st : img st = [] → (Z.to_nat FSSIZE ≤ host_room st)%nat →
  for_each (seqZ 0 FSSIZE) (λ i, wsect i zeroes) st = Ok tt (set_img (replicate (Z.to_nat FSSIZE) zeroes) st).
Proof.
  intros Ei Hroom. assert (Es : set_img (replicate 0 zeroes) st = st) by (destruct st; cbn in Ei; by subst).
  pose proof (for_each_states (seqZ 0 FSSIZE) (λ i, wsect i zeroes) (λ k, set_img (replicate k zeroes) st)) as H.
  rewrite length_seqZ in H. cbv beta in H. rewrite Es in H. apply H. clear H.
  intros k x [-> Hk]%lookup_seqZ. rewrite Z.add_0_l. rewrite (wsect_grow k); [reflexivity|reflexivity|exact Hk|].
  cbn [host_room set_img]. lia.
Qed.

(** The image with its superblock and nothing else. *)
Section start.
Context (room : nat) (Hroom : (Z.to_nat FSSIZE ≤ room)%nat).
Definition blank : mkfs :=
  mk_mkfs (<[1%nat := sb_block]> (replicate (Z.to_nat FSSIZE) zeroes)) the_sb 1 nmeta room.

Lemma blank_blk b : 0 ≤ b < FSSIZE → b ≠ 1 → blk blank b = zeroes.
Proof.
  intros Hb Hb1. unfold contents, blank. cbn [img]. rewrite list_lookup_insert_ne by lia.
  by rewrite lookup_replicate_2 by lia.
Qed.

Lemma blank_ok : fs_ok blank [].
Proof.
  assert (Hl : length (img blank) = Z.to_nat FSSIZE) by (unfold blank; cbn [img]; by rewrite length_insert, length_replicate).
  split.
  - split; [exact Hl| |reflexivity|exact Hroom]. unfold blank. cbn [img]. apply Forall_insert; [|reflexivity].
    apply Forall_replicate. reflexivity.
  - split; [by intros i n|by intros i n|by intros i j n n' b|by intros i n b| |].
    + change nmeta with 59. unfold FSSIZE, blank. cbn [freeblock]. change nmeta with 59. lia.
    + unfold blank at 1. cbn [freeblock]. change nmeta with 59. intros b Hb. apply blank_blk; lia.
  - reflexivity.
  - unfold NINODES. cbn [freeinode blank]. lia.
  - intros i n. by rewrite lookup_nil.
  - intros i n. by rewrite lookup_nil.
  - unfold contents, blank. cbn [img]. rewrite list_lookup_insert_eq; [reflexivity|]. rewrite length_replicate. unfold FSSIZE. lia.
  - intros b Hb. apply blank_blk; unfold FSSIZE; lia.
Qed.

(** [.] and [..] *)
Lemma root_ok :
  ∃ st1 st2 st3 root, ialloc T_DIR blank = Ok ROOTINO st1 ∧ iappend ROOTINO (mk_de ROOTINO [46]) st1 = Ok tt st2 ∧
    iappend ROOTINO (mk_de ROOTINO [46; 46]) st2 = Ok tt st3 ∧ built st3 [] root [].
Proof.
  destruct (ialloc_ok blank [] T_DIR blank_ok) as (st1 & E1 & Hfs1 & _ & Ef1); [unfold NINODES; cbn; lia|].
  set (n := mk_node (new_din T_DIR) [] 0) in *. cbn [app] in Hfs1.
  assert (Hmax : ∀ l : list Z, (length l ≤ 32)%nat → Z.of_nat (length l) ≤ MAXFILE * BSIZE) by (intros l Hl; unfold MAXFILE, NDIRECT, NINDIRECT, BSIZE; lia).
  assert (Hs : ∀ c : list Z, (0 < length c ≤ 32)%nat → space c = 1).
  { intros c Hc. unfold space, nblk. rewrite <-(Z.div_unique (Z.of_nat (length c) + 511) 512 1 (Z.of_nat (length c) - 1)) by lia. done. }
  destruct (append_file st1 [n] 0 n T_DIR [] (mk_de ROOTINO [46]) Hfs1) as (st2 & n2 & E2 & Hfs2 & Hh2 & _ & Ef2).
  { done. } { split; [apply new_din_type|done|done]. } { apply Hmax. cbn [app]. rewrite length_mk_de. lia. }
  { cbn [app]. rewrite Hs, Ef1 by (rewrite length_mk_de; lia). change (freeblock blank) with 59. change (space []) with 0. unfold FSSIZE. lia. }
  cbn [app] in *. rewrite Hs, Ef1 in Ef2 by (rewrite length_mk_de; lia). change (freeblock blank) with 59 in Ef2. change (space []) with 0 in Ef2.
  destruct (append_file st2 [n2] 0 n2 T_DIR (mk_de ROOTINO [46]) (mk_de ROOTINO [46; 46]) Hfs2) as (st3 & n3 & E3 & Hfs3 & Hh3 & _ & Ef3);
    [done|done|apply Hmax; rewrite length_app, !length_mk_de; lia| |].
  { rewrite !Hs, Ef2 by (rewrite ?length_app, !length_mk_de; lia). unfold FSSIZE. lia. }
  rewrite !Hs, Ef2 in Ef3 by (rewrite ?length_app, !length_mk_de; lia).
  exists st1, st2, st3, n3. split_and!; [exact E1|exact E2|exact E3|]. split; [exact Hfs3| |constructor|].
  - unfold entries. cbn [imap concat]. rewrite app_nil_r. exact Hh3.
  - unfold total_space, entries. cbn [imap concat foldr]. rewrite app_nil_r, Hs by (rewrite ?length_app, !length_mk_de; lia).
    rewrite Ef3. done.
Qed.

(** ** The command line *)

Definition readable (args : list (list Z * option (list (list Z)))) (fs : list (list Z * list Z)) : Prop :=
  Forall2 (λ arg f, fst arg = fst f ∧ ∃ reads, snd arg = Some reads ∧ got reads = snd f) args fs.

(** Names without a slash, and room for everything. *)
Record fits (fs : list (list Z * list Z)) : Prop := {
  fi_names : Forall (λ f, existsb (λ c, c =? 47) (fst f) = false) fs;
  fi_sizes : Forall (λ f, Z.of_nat (length (snd f)) ≤ MAXFILE * BSIZE) fs;
  fi_count : 1 + Z.of_nat (length fs) < NINODES;
  fi_total : nmeta + total_space fs ≤ FSSIZE;
}.

Lemma total_space_mono fs fs' : total_space fs ≤ total_space (fs ++ fs').
Proof.
  induction fs' as [|f fs' IH] using rev_ind; [by rewrite app_nil_r|]. rewrite app_assoc, total_space_snoc.
  pose proof (space_nonneg (snd f)). pose proof (space_mono (entries (fs ++ fs')) (entries ((fs ++ fs') ++ [f]))) as Hm.
  rewrite !length_entries, !length_app in Hm. cbn [length] in Hm. lia.
Qed.

Lemma add_files_ok args fs : readable args fs → ∀ st pre root files,
  built st pre root files → fits (pre ++ fs) →
  ∃ st' root' files', for_each args (add_file ROOTINO) st = Ok tt st' ∧ built st' (pre ++ fs) root' files'.
Proof.
  induction 1 as [|[name file] [name' c] args fs [En (reads & Er & Ec)] Hr IH]; intros st pre root files Hb Hf.
  { exists st, root, files. by rewrite app_nil_r in *. }
  cbn [fst snd] in *. subst name' file c. pose proof Hf as [H1 H2 H3 H4]. rewrite length_app in H3. cbn [length] in H3.
  apply Forall_app in H1 as [_ H1], H2 as [_ H2]. apply Forall_cons in H1 as [H1 _], H2 as [H2 _].
  rewrite cons_middle, app_assoc in H4, Hf |- *.
  destruct (add_file_ok st pre root files name reads Hb) as (st1 & root1 & files1 & E1 & Hb1); [done|lia|done| |].
  { pose proof (total_space_mono (pre ++ [(name, got reads)]) fs). lia. }
  destruct (IH st1 _ _ _ Hb1 Hf) as (st' & root' & files' & E & Hb'). exists st', root', files'. split; [|done].
  by erewrite for_each_Ok by exact E1.
Qed.

(** ** The bitmap *)

Definition first_bits (used : Z) : list Z :=
  foldl (λ buf i, bitmap_set i buf) (replicate (Z.to_nat BSIZE) 0) (seqZ 0 used).

Lemma first_bits_spec (k : nat) :
  Z.of_nat k ≤ BPB → length (first_bits (Z.of_nat k)) = Z.to_nat BSIZE ∧
  ∀ a, 0 ≤ a < BPB → bitmap_get (first_bits (Z.of_nat k)) a = (a <? Z.of_nat k).
Proof.
  induction k as [|k IH]; intros Hk.
  - split; [reflexivity|]. intros a Ha. unfold first_bits. cbn [seqZ foldl]. rewrite bitmap_get_testbit.
    change (foldl _ _ (seqZ 0 (Z.of_nat 0))) with (replicate (Z.to_nat BSIZE) 0). rewrite nth_zeroes, Z.testbit_0_l.
    symmetry. apply Z.ltb_ge. lia.
  - destruct IH as [IHl IHb]; [lia|]. unfold first_bits in *. rewrite seqZ_S, foldl_app. cbn [foldl].
    split; [by rewrite length_bitmap_set|]. intros a Ha. rewrite bitmap_get_set, IHb; [|done|lia|lia|].
    + destruct (Z.eqb_spec (0 + Z.of_nat k) a), (Z.ltb_spec a (Z.of_nat k)), (Z.ltb_spec a (Z.of_nat (S k))); try done; lia.
    + rewrite IHl. assert (0 ≤ (0 + Z.of_nat k) / 8 < BSIZE); [|lia].
      split; [apply Z.div_pos; lia|apply Z.div_lt_upper_bound; unfold BPB in *; lia].
Qed.

Lemma balloc_writes st used :
  image_ok st → 0 ≤ used < BPB →
  ∃ st', Mkfs.balloc used st = Ok tt st' ∧ image_ok st' ∧ (∀ b, 0 ≤ b → b ≠ 58 → blk st' b = blk st b) ∧
    ∀ a, 0 ≤ a < BPB → bitmap_get (blk st' 58) a = (a <? used).
Proof.
  intros Him Hu. destruct (first_bits_spec (Z.to_nat used)) as [Hl Hb]; [lia|]. rewrite Z2Nat.id in Hl, Hb by lia.
  exists (set_img (<[Z.to_nat 58 := first_bits used]> (img st)) st). split_and!.
  - unfold Mkfs.balloc. rewrite (proj2 (Z.ltb_lt _ _)) by (unfold BPB in Hu; lia). cbn [negb]. cbv zeta.
    run done. rewrite (im_sb _ Him). apply wsect_ok; [done|cbn; unfold FSSIZE; lia].
  - by apply image_write.
  - intros b H0 Hb'. cbn [img set_img]. rewrite blk_write, fupd_ne by (done || (unfold FSSIZE; lia)). done.
  - intros a Ha. cbn [img set_img]. rewrite blk_write, fupd_eq by (done || (unfold FSSIZE; lia)). by apply Hb.
Qed.

(** ** The finished image *)

Lemma alloc_ext val val' fb ns : alloc_ok val fb ns → (∀ b, nmeta ≤ b → val' b = val b) → alloc_ok val' fb ns.
Proof.
  intros [L1 L2 L3 L4 L5 L6] Hv. split; try done.
  - intros i n Hi. eapply node_ok_ext; [|by eapply L1]. intros b Hb. apply Hv. by eapply L4.
  - intros b Hb. rewrite Hv by lia. by apply L6.
Qed.

Definition root_size (fs : list (list Z * list Z)) : Z := (Z.of_nat (length (entries fs)) / BSIZE + 1) * BSIZE.

Record finished (st : mkfs) (fs : list (list Z * list Z)) (root : node) (files : list node) : Prop := {
  fn_image : image_ok st;
  fn_super : blk st 1 = sb_block;
  fn_log b : 2 ≤ b < 32 → blk st b = zeroes;
  fn_bitmap a : 0 ≤ a < FSSIZE → bitmap_get (blk st 58) a = (a <? nmeta + total_space fs);
  fn_alloc : alloc_ok (blk st) (nmeta + total_space fs) (root :: files);
  fn_root : disk_din (blk st) ROOTINO = set_din_size (root_size fs) (n_din root);
  fn_dir : holds_file st T_DIR (entries fs) root;
  fn_files : Forall2 (λ f n, holds_file st T_FILE (snd f) n) fs files;
  fn_dins k n : files !! k = Some n → disk_din (blk st) (Z.of_nat k + 2) = n_din n;
}.

Lemma finish_ok st fs root files :
  built st fs root files → 1 + Z.of_nat (length fs) < NINODES → nmeta + total_space fs ≤ FSSIZE →
  ∃ st', (let! din := rinode ROOTINO in
          let off := xint (din_size din) in
          let off := (off / BSIZE + 1) * BSIZE in
          winode ROOTINO (set_din_size (xint off) din) ;;
          let! used := gets freeblock in
          Mkfs.balloc used) st = Ok tt st' ∧ finished st' fs root files.
Proof.
  intros [B1 B2 B3 B4] Hc Ht. pose proof B1 as [F1 F2 F3 F4 F5 F6 F7 F8].
  pose proof (al_node _ _ _ F2 0%nat root eq_refl) as [N1 N2 N3 N4]. pose proof (hf_size _ _ _ _ B2) as Es.
  assert (Hz : 0 ≤ Z.of_nat (length (entries fs)) < 2 ^ 31) by (rewrite length_entries; unfold NINODES in Hc; lia).
  assert (Hrs : 0 ≤ root_size fs < 2 ^ 32).
  { unfold root_size, BSIZE. pose proof (Z.div_mod (Z.of_nat (length (entries fs))) 512 ltac:(done)).
    pose proof (Z.mod_pos_bound (Z.of_nat (length (entries fs))) 512 ltac:(done)). lia. }
  destruct (winode_ok st ROOTINO (set_din_size (root_size fs) (n_din root)) F1) as (st1 & Ew & W1 & W2 & W3 & W4 & W5 & W6);
    [done|by apply set_size_length|].
  destruct (balloc_writes st1 (freeblock st1) W1) as (st2 & Eb & X1 & X2 & X3).
  { rewrite W3, B4. pose proof (al_free _ _ _ F2) as Hfr. rewrite B4 in Hfr. change nmeta with 59 in *. unfold BPB, BSIZE, FSSIZE in *. lia. }
  assert (Hhi : ∀ b, nmeta ≤ b → blk st2 b = blk st b).
  { intros b Hb. change nmeta with 59 in Hb. rewrite X2, W4 by lia. done. }
  assert (Hd : ∀ j n, (root :: files) !! j = Some n → data st2 n = data st n).
  { intros j n Hj. apply data_ext. intros b Hb. apply bs_here, (al_range _ _ _ F2 j n b Hj) in Hb. apply Hhi. lia. }
  assert (Hdin : ∀ inum, 0 ≤ inum < NINODES → disk_din (blk st2) inum = disk_din (blk st1) inum).
  { intros inum Hi. unfold disk_din. destruct (iblock_eq st inum F1 Hi) as [_ Hb]. by rewrite X2 by lia. }
  exists st2. split.
  - run (apply rinode_ok; [done|done]). rewrite (F5 0%nat root eq_refl : disk_din (blk st) ROOTINO = n_din root). cbv zeta.
    rewrite N2, Es, (xint_small (Z.of_nat (length (entries fs)))) by lia. fold (root_size fs). rewrite xint_small by done. run exact Ew. run done. exact Eb.
  - split.
    + done.
    + rewrite X2, W4 by lia. done.
    + intros b Hb. rewrite X2, W4 by lia. by apply F8.
    + intros a Ha. rewrite X3, W3, B4; [done|]. unfold FSSIZE, BPB, BSIZE in *. lia.
    + rewrite <-B4. by eapply alloc_ext.
    + by rewrite Hdin.
    + by eapply holds_same; [apply (Hd 0%nat)|].
    + apply Forall2_same_length_lookup_2; [by eapply Forall2_length|]. intros j f n Hf Hn.
      eapply holds_same; [by apply (Hd (S j))|]. by eapply Forall2_lookup_lr in B3.
    + intros k n Hk. pose proof (lookup_lt_Some _ _ _ Hk). apply Forall2_length in B3. rewrite Hdin, W6 by (unfold ROOTINO; lia).
      replace (Z.of_nat k + 2) with (Z.of_nat (S k) + 1) by lia. by apply F5.
Qed.

Lemma main_ok args fs :
  readable args fs → fits fs → ∃ st root files, Mkfs.main (Some true) args (fresh room) = Ok tt st ∧ finished st fs root files.
Proof.
  intros Hr Hf. destruct root_ok as (st1 & st2 & st3 & root0 & E1 & E2 & E3 & Hb).
  destruct (add_files_ok args fs Hr st3 [] root0 [] Hb Hf) as (st4 & root & files & E4 & Hb4). cbn [app] in Hb4.
  destruct (finish_ok st4 fs root files Hb4) as (st & E & Hfin); [apply Hf|apply Hf|].
  exists st, root, files. split; [|exact Hfin]. unfold Mkfs.main. run reflexivity. run reflexivity.
  run (apply zero_image; [reflexivity|exact Hroom]). run reflexivity.
  replace (sb _) with the_sb by reflexivity. fold sb_block.
  run (apply (wsect_ok (mk_mkfs (replicate (Z.to_nat FSSIZE) zeroes) the_sb 1 nmeta room)); [|done];
    split; [apply length_replicate|by apply Forall_replicate|reflexivity|exact Hroom]).
  change (set_img _ _) with blank. run exact E1. change (ROOTINO =? ROOTINO) with true. cbv iota. cbn [negb].
  run exact E2. run exact E3. run exact E4. exact E.
Qed.
End start.

(** On a full disk mkfs gives up. *)
Lemma for_each_app {St A} (l1 l2 : list A) (body : A → M St unit) s :
  for_each (l1 ++ l2) body s = (for_each l1 body ;; for_each l2 body) s.
Proof.
  revert s. induction l1 as [|x l1 IH]; intros s; [done|]. cbn [app for_each]. unfold bind at 1 2 3.
  destruct (body x s); [apply IH|done..].
Qed.
Lemma main_full args room :
  (room < Z.to_nat FSSIZE)%nat → ∃ st, Mkfs.main (Some true) args (fresh room) = Panic "write" st.
Proof.
  intros Hr. set (st0 := mk_mkfs [] the_sb 1 nmeta room). set (wz := λ i, wsect i zeroes).
  assert (Hpan : ∃ st, for_each (seqZ 0 FSSIZE) wz st0 = Panic "write" st).
  { exists (set_img (replicate room zeroes) st0).
    replace FSSIZE with (Z.of_nat room + (FSSIZE - Z.of_nat room)) by lia. rewrite seqZ_app by (unfold FSSIZE in *; lia).
    rewrite for_each_app. erewrite bind_Ok.
    2:{ pose proof (for_each_states (seqZ 0 (Z.of_nat room)) wz (λ k, set_img (replicate k zeroes) st0)) as Hs.
        rewrite length_seqZ, Nat2Z.id in Hs. apply Hs. intros k x [-> Hk]%lookup_seqZ. rewrite Z.add_0_l.
        unfold wz. rewrite (wsect_grow k); [reflexivity|reflexivity|lia|cbn [host_room set_img st0]; lia]. }
    rewrite seqZ_cons by (unfold FSSIZE in *; lia). cbn [for_each]. unfold wz at 1, wsect.
    rewrite sector_small, Z.add_0_l, Nat2Z.id by lia. unfold bind. by rewrite bool_decide_eq_true_2. }
  destruct Hpan as [st Hpan]. exists st. unfold Mkfs.main. run reflexivity. run reflexivity.
  match goal with |- bind ?m _ ?s = _ => change m with (for_each (seqZ 0 FSSIZE) wz); change s with st0 end.
  unfold bind at 1. by rewrite Hpan.
Qed.

(** C21.  On a host with room for the image, mkfs puts every file of the command line on the image with its contents, names
    them in the root directory, gives each file blocks of its own, leaves the log
    empty, and marks in the bitmap exactly the blocks it has used. *)
Theorem mkfs_builds room args fs :
  (Z.to_nat FSSIZE ≤ room)%nat → readable args fs → fits fs →
  ∃ st root files, Mkfs.main (Some true) args (fresh room) = Ok tt st ∧ finished st fs root files.
Proof. intros Hroom. by apply main_ok. Qed.

(** One file of 515 bytes, [_a]. *)
Definition sample_args : list (list Z * option (list (list Z))) := [([95; 97], Some [replicate 512 7; [1; 2; 3]])].
Definition sample_fs : list (list Z * list Z) := [([95; 97], replicate 512 7 ++ [1; 2; 3])].
Lemma sample_readable : readable sample_args sample_fs.
Proof. constructor; [|constructor]. split; [reflexivity|]. by eexists. Qed.
Lemma sample_fits : fits sample_fs.
Proof. split; [by repeat constructor|by repeat constructor|by vm_compute|by vm_compute]. Qed.

Lemma mkfs_builds_witness : ∃ st, Mkfs.main (Some true) sample_args (fresh 1000) = Ok tt st ∧ blk st 1 = sb_block.
Proof.
  destruct (mkfs_builds 1000 sample_args sample_fs (le_n _) sample_readable sample_fits) as (st & root & files & E & F).
  exists st. split; [exact E|apply F].
Defined.
