(* ===== verification/ImageThm.v ===== *)
(** * ImageThm: the kernel on the image that mkfs builds

    mkfs.c and fs.c are separate programs that agree on a disk format.  The kernel
    that boots from the image finds an idle log and a bitmap that matches it, so that
    the promises of the log and of the block allocator hold; and it reads back every
    file that was put on the image. *)

From stdpp Require Import base numbers gmap strings option list.
From S2P Require Import Mkfs MkfsThm.
From S2P Require Import Prelude Format Machine Boot Mem Mlfq ProcCore Sleeplock Ide Bio Log Inode Console Fs FsThm.
From S2P Require Import BioThm FileRep LogThm TxnThm ReadThm.
Local Open Scope kernel_scope.
Local Open Scope Z_scope.

Lemma image_geometry : geometry 2 30 1000.
Proof. split; unfold LOGSIZE; lia. Qed.

Lemma nth_slot (l : list Z) (off j : nat) : (j < 64)%nat → nth j (take 64 (drop off l)) 0 = nth (off + j) l 0.
Proof. intros Hj. by rewrite !nth_lookup, lookup_take_lt, lookup_drop. Qed.
Lemma get32_slot (l : list Z) (off j : nat) : (j + 4 ≤ 64)%nat → get32 (take 64 (drop off l)) j = get32 l (off + j).
Proof. intros Hj. unfold get32. by rewrite !nth_slot, !Nat.add_assoc by lia. Qed.
Lemma get16_slot (l : list Z) (off j : nat) : (j + 2 ≤ 64)%nat → get16 (take 64 (drop off l)) j = get16 l (off + j).
Proof. intros Hj. unfold get16. by rewrite !nth_slot, !Nat.add_assoc by lia. Qed.

Section image.
Context (st : Mkfs.mkfs) (fs : list (list Z * list Z)) (root : node) (files : list node).
Hypothesis Hfin : finished st fs root files.

Abbreviation val := (contents (Mkfs.img st)).

Lemma image_quiet : disk_quiet 2 30 1000 [] val.
Proof.
  split.
  - rewrite (fn_super _ _ _ _ Hfin). split; vm_compute; reflexivity.
  - split; [lia|]. unfold in_log. lia.
  - apply not_elem_of_nil.
  - rewrite (fn_log _ _ _ _ Hfin 2) by lia. split_and!; [vm_compute; reflexivity..|]. intros i b Hi. by rewrite lookup_nil in Hi.
Qed.

Lemma image_BBLOCK a : 0 ≤ a < 1000 → BBLOCK a the_sb = 58 ∧ a mod BPB = a.
Proof.
  intros Ha. unfold BBLOCK. rewrite Z.div_small, Z.mod_small by (unfold BPB, BSIZE; lia). split; reflexivity.
Qed.

Lemma image_used val' a : val' 58 = val 58 → 0 ≤ a < 1000 → used the_sb val' a = (a <? Mkfs.nmeta + total_space fs).
Proof.
  intros Hv Ha. unfold used. destruct (image_BBLOCK a Ha) as [-> ->]. rewrite Hv. apply (fn_bitmap _ _ _ _ Hfin). exact Ha.
Qed.

Lemma image_bitmap val' : val' 58 = val 58 → bitmap_ok 2 30 1000 the_sb val'.
Proof.
  intros Hv. assert (Hf : 59 ≤ Mkfs.nmeta + total_space fs) by apply (al_free _ _ _ (fn_alloc _ _ _ _ Hfin)).
  split; cbn [sb_size the_sb].
  - lia.
  - intros a Ha. destruct (image_BBLOCK a Ha) as [-> _]. split; [|lia]. split; [lia|]. unfold in_log. lia.
  - intros a Ha. destruct (image_BBLOCK a Ha) as [-> _]. rewrite Hv. apply blk_length; [apply Hfin|unfold FSSIZE; lia].
  - intros a Ha. rewrite image_used by done. intros Hu%Z.ltb_ge. split_and!; [split; [lia|unfold in_log; lia]|lia|].
    intros a' Ha'. destruct (image_BBLOCK a' Ha') as [-> _]. lia.
Qed.

(** The inode of file [k], once the kernel has loaded it. *)
Lemma image_inode pid k f i :
  fs !! k = Some f → i_dev i = 1 → i_inum i = Z.of_nat k + 2 → Z.of_nat (length fs) + 1 < Mkfs.NINODES →
  ∃ n, files !! k = Some n ∧ let i' := loaded pid val (i_inum i) the_sb i in
    inode_file 1000 val i' (n_bs n) ∧ i_type i' = T_FILE ∧ i_size i' = Z.of_nat (length (snd f)) ∧
    file_data val (n_bs n) (i_size i') = snd f ∧ 0 ≤ IBLOCK (i_inum i) the_sb < 1000.
Proof.
  intros Hk Hdev Hinum Hc. destruct Hfin as [I1 I2 I3 I4 I5 I6 I7 I8 I9].
  pose proof (Forall2_length _ _ _ I8) as Hlen. pose proof (lookup_lt_Some _ _ _ Hk) as Hlt.
  destruct (lookup_lt_is_Some_2 files k) as [n Hn]; [lia|]. exists n. split; [done|].
  pose proof (Forall2_lookup_lr _ _ _ _ _ _ I8 Hk Hn) as [T1 T2 T3]. pose proof (I9 k n Hn) as Hd.
  pose proof (al_node _ _ _ I5 (S k) n Hn) as [N1 N2 N3 N4].
  destruct (iblock_eq st (i_inum i) I1) as [Eb Hb]; [lia|]. rewrite (im_sb _ I1) in Eb.
  unfold loaded. rewrite Eb. set (b := iblock (i_inum i)) in *. set (off := dinode_off (i_inum i)).
  assert (Hdin : n_din n = take 64 (drop off (val b))) by (rewrite <-Hd; unfold disk_din; by rewrite <-Hinum).
  set (i' := set_i_valid true _).
  assert (Haddr : ∀ j, (j ≤ NDIRECT)%nat → addr_in i' j = addr_of (n_din n) j).
  { intros j Hj. unfold addr_in, i', read_dinode. cbn [i_addrs set_i_valid set_i_type set_i_major set_i_minor set_i_nlink set_i_size set_i_addrs].
    unfold NDIRECT in *. rewrite nth_lookup, list_lookup_fmap, lookup_seq_lt by lia. cbn [fmap option_fmap option_map default from_option id].
    unfold addr_of. rewrite Hdin, get32_slot by lia. f_equal. lia. }
  destruct (file_rep_addr _ _ _ _ Haddr N4) as [Hrep Hbl].
  assert (Esz : i_size i' = Z.of_nat (length (snd f))).
  { rewrite <-T2, <-N2. unfold din_size. rewrite Hdin, get32_slot by lia. done. }
  assert (Ety : i_type i' = T_FILE).
  { transitivity (i16 (get16 (val b) (off + 0))); [by rewrite Nat.add_0_r|]. rewrite <-get16_slot, <-Hdin, T1 by lia. done. }
  split_and!; try done; [|by rewrite Esz, <-T2|lia|lia]. split; try done.
  - by rewrite Ety.
  - intros x. rewrite Hbl. intros Hx. apply (al_range _ _ _ I5 (S k) n x Hn) in Hx.
    pose proof (al_free _ _ _ I5) as Hfr. change Mkfs.nmeta with 59 in *. unfold FSSIZE in *. lia.
  - intros x Hx. apply blk_length; [done|]. apply bs_here, (al_range _ _ _ I5 (S k) n x Hn) in Hx.
    pose proof (al_free _ _ _ I5) as Hfr. change Mkfs.nmeta with 59 in *. lia.
  - rewrite Esz, <-T2. exact N3.
Qed.
End image.

(** ** The claims *)

Section claims.
Context `{Env} (pid : Z) (Hdrv : DRIVER = MEMIDE) (Hfuel : (0 < FUEL)%nat).
#[local] Instance image_cache : BlockCache pid := memide_cache pid Hdrv Hfuel.

Context (args : list (list Z * option (list (list Z)))) (fs : list (list Z * list Z)).
Context (room : nat) (Hroom : (Z.to_nat FSSIZE ≤ room)%nat).
Hypothesis Hread : readable args fs.
Hypothesis Hfits : fits fs.

(** C22.  In a build with the memory disk (memide.c), a kernel that boots from the image of mkfs
    and opens a transaction has an idle log and a well-formed bitmap, in which exactly the
    blocks that mkfs used are taken.  One thread runs, with an empty buffer cache and the
    log structure of a fresh kernel; mkfs ran on a host with room for the image, and its
    files are readable and fit. *)
Theorem mkfs_boots :
  ∃ st, Mkfs.main (Some true) args (Mkfs.fresh room) = Ok tt st ∧
  ∀ s, alone pid s → no_blocks (k_bcache s) → k_disk s = Mkfs.img st →
    length (lh_block (k_log s)) = Z.to_nat LOGSIZE → l_outstanding (k_log s) = 0 → l_committing (k_log s) = false →
  ∃ s' val, (binit ;; initlog 1 ;; begin_op) s = Ok tt s' ∧ txn pid 2 30 1000 s' ∅ [] val ∧
    l_outstanding (k_log s') = 1 ∧ bitmap_ok 2 30 1000 the_sb val ∧
    ∀ a, 0 ≤ a < FSSIZE → used the_sb val a = (a <? Mkfs.nmeta + total_space fs).
Proof.
  destruct (main_ok room Hroom args fs Hread Hfits) as (st & root & files & E & Hfin). exists st. split; [exact E|].
  intros s Hal Hnb Hd Hl Ho Hc. destruct (binit_cache pid Hfuel s Hal Hnb) as (s1 & E1 & Hc1 & Hk1). rewrite Hd in Hc1.
  change (cached s1 ∅ ∅ (contents (Mkfs.img st))) in Hc1.
  assert (El : k_log s1 = k_log s) by (rewrite (proj1 Hk1); done).
  destruct (initlog_idle pid 2 30 1000 image_geometry s1 (contents (Mkfs.img st)) Hc1) as (s2 & val' & E2 & Ht & Hv & Ho2 & Hc2).
  { rewrite (same_disk_len _ _ Hk1), Hd. apply (im_len _ (fn_image _ _ _ _ Hfin)). } { by rewrite El. } { by eapply image_quiet. }
  rewrite El, Ho in Ho2. rewrite El, Hc in Hc2. pose proof (begin_op_ok pid 2 30 1000 s2 val' Hfuel Ht Ho2 Hc2) as E3.
  assert (H58 : val' 58 = contents (Mkfs.img st) 58) by (apply Hv; split; [lia|unfold in_log; lia]).
  eexists _, val'. split_and!; [run exact E1; run exact E2; exact E3| |done|by eapply image_bitmap|].
  - destruct Ht as [T1 [L1 L2 L3 L4 L5] T3 T4 T5 T6 T7 T8].
    split; [eapply cached_same; [exact T1|reflexivity..]|by split|exact T3|exact T4|exact T5|exact T6|exact T7|exact T8].
  - intros a Ha. by eapply image_used.
Qed.

(** C14.  In a build with the memory disk (memide.c), the kernel reads back the files that mkfs
    put on the image: once [ilock] has loaded the inode of the [k]-th file, [readi]
    returns, for every offset and count (32 bits each), the bytes of the file from the
    offset on, at most the count; and -1 when the offset lies past the end or offset and
    count wrap.  One thread runs, no buffer is held or dirty, and the inode is referenced
    and unlocked; mkfs ran on a host with room for the image, and its files are readable
    and fit. *)
Theorem mkfs_kernel_reads k f :
  fs !! k = Some f →
  ∃ st, Mkfs.main (Some true) args (Mkfs.fresh room) = Ok tt st ∧
  ∀ s ip i off n, cached s ∅ ∅ (contents (Mkfs.img st)) → k_disk s = Mkfs.img st → k_sb s = the_sb →
    k_icache s !! ip = Some i → i_dev i = 1 → i_inum i = Z.of_nat k + 2 → 1 ≤ i_ref i → i_valid i = false →
    sl_locked (i_lock i) = false → 0 ≤ off < 2 ^ 32 → 0 ≤ n < 2 ^ 32 →
    let sz := Z.of_nat (length (snd f)) in let m := Z.min n (sz - off) in
    ∃ s', (ilock (Some ip) ;; readi ip off n) s =
      Ok (if (sz <? off) || (2 ^ 32 <=? off + n) then (-1, [])
          else (m, take (Z.to_nat m) (drop (Z.to_nat off) (snd f)))) s'.
Proof.
  intros Hk. destruct (main_ok room Hroom args fs Hread Hfits) as (st & root & files & E & Hfin). exists st. split; [exact E|].
  intros s ip i off n Hc Hd Hsb Hi Hdev Hinum Href Hval Hlk Hoff Hn sz m.
  assert (Hlen : length (k_disk s) = 1000%nat) by (rewrite Hd; apply (im_len _ (fn_image _ _ _ _ Hfin))).
  destruct (image_inode st fs root files Hfin pid k f i Hk Hdev Hinum) as (nd & Hnd & Hif & Hty & Hsz & Hdata & Hib).
  { pose proof (fi_count _ Hfits). lia. }
  destruct (ilock_loads pid ∅ (contents (Mkfs.img st)) ip ltac:(rewrite size_empty; unfold NBUF; lia) Hfuel s i Hc Hi Hlk Href Hval Hdev)
    as (s1 & E1 & Hc1 & Hd1 & _ & Hi1).
  { rewrite Hsb, Hlen. exact Hib. } { rewrite Hsb, Hty. done. }
  assert (Hi1' : k_icache s1 !! ip = Some (loaded pid (contents (Mkfs.img st)) (i_inum i) the_sb i)).
  { rewrite Hi1, Hsb. apply list_lookup_insert_eq. by eapply lookup_lt_Some. }
  pose proof (Forall_lookup_1 _ _ _ _ (fi_sizes _ Hfits) Hk) as Hmax. cbv beta in Hmax.
  destruct (((sz <? off) || (2 ^ 32 <=? off + n))) eqn:Hbad.
  { exists s1. run exact E1. rewrite (readi_past ip _ s1 off n Hi1'); [done|by rewrite Hty|done|done|].
    rewrite Hsz. rewrite orb_true_iff, Z.ltb_lt, Z.leb_le in Hbad. exact Hbad. }
  apply orb_false_iff in Hbad as [Hb1%Z.ltb_ge Hb2%Z.leb_gt].
  destruct (readi_ok pid ∅ (contents (Mkfs.img st)) ip _ (n_bs nd) ltac:(rewrite size_empty; unfold NBUF; lia) s1 off n Hc1 Hi1')
    as (s2 & E2 & _).
  { rewrite Hd1, Hlen. exact Hif. } { rewrite Hsz. lia. } { lia. } { done. }
  { rewrite Hsz. unfold MAXFILE, NDIRECT, NINDIRECT, BSIZE in Hmax. lia. }
  exists s2. run exact E1. rewrite Hdata, Hsz in E2. exact E2.
Qed.
End claims.

(** ** Witnesses *)

#[local] Instance image_env : Env := sample_env RR.
Lemma image_drv : DRIVER = MEMIDE.
Proof. reflexivity. Qed.
Lemma image_fuel : (0 < FUEL)%nat.
Proof. simpl. lia. Qed.

(** A kernel about to boot from disk [d], with the inode of file 2 referenced. *)
Definition boot_inodes : list inode :=
  <[0%nat := set_i_ref 1 (set_i_inum 2 (set_i_dev 1 zero_inode))]> (replicate NINODE zero_inode).
Definition boot_kernel (d : list (list Z)) : kernel :=
  set_k_icache boot_inodes (set_k_sb the_sb (set_k_disk d (set_k_log zero_log tiny_kernel))).

Lemma boot_alone d : alone 1 (boot_kernel d).
Proof. eapply alone_same; [apply tiny_alone|reflexivity..]. Qed.
Lemma boot_no_blocks d : no_blocks (k_bcache (boot_kernel d)).
Proof. split; [reflexivity|]. intros b r _ [-> _]%lookup_replicate. done. Qed.

Lemma mkfs_boots_witness :
  ∃ st s s', Mkfs.main (Some true) sample_args (Mkfs.fresh 1000) = Ok tt st ∧ k_disk s = Mkfs.img st ∧
    (binit ;; initlog 1 ;; begin_op) s = Ok tt s'.
Proof.
  destruct (mkfs_boots 1 image_drv image_fuel sample_args sample_fs 1000 (le_n _) sample_readable sample_fits) as (st & E & Hboot).
  destruct (Hboot (boot_kernel (Mkfs.img st))) as (s' & val & E' & _);
    [apply boot_alone|apply boot_no_blocks|reflexivity|reflexivity|reflexivity|reflexivity|].
  exists st, (boot_kernel (Mkfs.img st)), s'. split; [exact E|]. split; [reflexivity|exact E'].
Defined.

Lemma mkfs_kernel_reads_witness : ∃ s s', (ilock (Some 0%nat) ;; readi 0 510 100) s = Ok (5, [7; 7; 1; 2; 3]) s'.
Proof.
  destruct (mkfs_kernel_reads 1 image_drv image_fuel sample_args sample_fs 1000 (le_n _) sample_readable sample_fits 0
    ([95; 97], replicate 512 7 ++ [1; 2; 3]) eq_refl) as (st & E & Hread).
  destruct (binit_cache 1 image_fuel (boot_kernel (Mkfs.img st)) (boot_alone _) (boot_no_blocks _)) as (s & _ & Hc & Hk).
  destruct (Hread s 0%nat (set_i_ref 1 (set_i_inum 2 (set_i_dev 1 zero_inode))) 510 100) as (s' & E').
  - exact Hc.
  - destruct Hk as (_ & -> & _). reflexivity.
  - rewrite (proj1 Hk). reflexivity.
  - rewrite (same_disk_icache _ _ Hk). reflexivity.
  - reflexivity.
  - reflexivity.
  - cbn. lia.
  - reflexivity.
  - reflexivity.
  - lia.
  - lia.
  - exists s, s'. exact E'.
Defined.
